(* ===== verification/_CoqProject ===== *)
-Q . S2P
Prelude.v
Domain.v
Http.v
Models.v
Routing.v
Fleet.v
Store.v
Books.v
Catalog.v
Projection.v
Ledger.v
Reservations.v
Review.v
Wallet.v
Routes.v
Clusters.v
Pools.v
Snapshot.v
Traffic.v
Control.v
Sessions.v
Registry.v
Gate.v
Keys.v
Stream.v
Quota.v
World.v
Safety.v
Drain.v
Rollout.v
Maintenance.v
Lifecycle.v
Payments.v
Alipay.v
Trial.v
Worker.v
Feed.v
Billing.v
Owners.v
Progress.v
Protocol.v
Service.v
Live.v
Platform.v
Lists.v
Console.v
Edge.v
Access.v
Permits.v
Doors.v
People.v
Kube.v
Agent.v
Deliver.v
Operator.v
Observe.v
Admission.v
Outbox.v
Proxy.v
Demo.v
DemoGateway.v
DemoConsole.v
DemoKube.v
