(* ===== verification/Prelude.v ===== *)
(** * XScope: a verification library for the platform's billing and traffic core

    XScope sells access to language models.  A control plane
    ([src/rust/crates/control-plane], one PostgreSQL database) keeps projects,
    keys, money and the registry of the serving fleet; gateways
    ([crates/gateway]) admit requests of customers and route them to pools of
    model servers; an agent per member cluster ([crates/cluster-agent])
    applies desired deployments and attests what it sees.  This library models
    the money path and the fleet path of the control plane, whole handlers at
    a time, the console and the other doors in front of them, and what a
    gateway does with a request from its arrival to its bill.

    ** How the model reads

    A table is a finite map of rows, a request handler is a computation
    [Tx A := Db -> result ServiceError (A * Db)] (Store.v): it reads and writes
    the database, and an error rolls it back ([commit]).  Transactions of the
    source take row locks before they read what they write, so the model runs
    them one at a time; reads that a handler makes before its transaction are
    folded into it, except where the source makes them in transactions of
    their own ([traffic_snapshot] takes the gateway snapshot as an argument).
    [Env] holds what a handler takes from outside: one clock reading and fresh
    identifiers.  Integers are [Z] with the width's checks, wrap-around or
    saturation written where the source has them (Prelude.v); texts are bytes;
    JSON is a tree; times are microseconds.  Texts are ordered by bytes where
    the source orders rows by a text.  Foreign keys are not modelled; a unique
    index is checked where a handler inserts.  Hashes, signatures, the calendar
    of months, UUID syntax and the encoding of JSON are parameters
    ([Calendar], [ProviderLibraries], [ServiceLibraries], [ControlLibraries]),
    instantiated by concrete functions in Demo.v, Rollout.v and DemoGateway.v.
    A handler of the HTTP interface runs several transactions and reads in
    between.  It is a [Program] (Platform.v): a tree of readings and acts, run
    [alone] or [among] others who change the platform between any two of its
    statements ([anybody]: any acts of anyone), so that what is shown of it
    holds for every interleaving.  A handler of the proxy also keeps what it did before an error: it changes
    the context of its request and the gateway ([Handler], Proxy.v).  What a
    request meets outside (clocks, random numbers, how its body arrives, which
    calls lose their answer) is an argument of the run.

    ** Files and what they model

    - Prelude.v: results, machine integers, texts, sums, ordering, the tactics.
    - Domain.v ([domain/src/lib.rs], [billing.rs]), Models.v ([catalog.rs]),
      Routing.v ([routing.rs]), Fleet.v ([cluster.rs], [traffic.rs] and the
      rows of the fleet): the data, their validation, prices, route selection.
    - Store.v: the database, transactions, the frame automation
      ([respects], hint database [frame]).
    - Books.v, Projection.v ([billing_projection.rs]), Ledger.v
      ([repository.rs]: events and double entry), Reservations.v ([billing.rs]),
      Review.v ([billing_review.rs]), Wallet.v ([repository.rs]: projects,
      keys, usage, orders, captures, refunds), Catalog.v ([catalog.rs]).
    - Maintenance.v (check and rebuild of projections), Lifecycle.v,
      Progress.v, Protocol.v: what the reservation handlers do, succeed at and
      refuse.  Payments.v ([payments/src]), Alipay.v ([payment_service.rs],
      [refund_service.rs]), Trial.v: verified payments and the trial balance.
      Worker.v ([event_worker.rs]), Feed.v ([billing_feed.rs]).
    - Routes.v ([put_route_policy], [releases.rs], serving endpoints),
      Clusters.v ([clusters.rs]), Pools.v ([managed_pools.rs], [scaling.rs],
      idle evidence), Snapshot.v ([gateway_snapshot]), Traffic.v ([traffic.rs],
      [gateway_proofs.rs]), Gate.v ([gateway/src/traffic.rs]).
    - Platform.v ([repository.rs]: users, memberships, statements,
      reconciliation, reports; [audit.rs], [tax.rs], [ops.rs]), Lists.v (the
      queries of [repository.rs]), Http.v (headers): the platform beside the
      service and its acts.  Console.v, Edge.v ([api.rs]): the handlers with
      their guards, the routers and middlewares.  Owners.v, Access.v,
      Permits.v, Doors.v, People.v: what rows keep, a logic of the acts a
      program may perform ([safe]), the handlers in it, and the theorems;
      DemoConsole.v: a console, run.
    - Control.v, Sessions.v, Registry.v: the operations on the registry as one
      type, and the moves each makes on pools, sessions and views.
    - World.v, Safety.v, Drain.v: the control plane, its gateways and the
      serving entries as a step relation, its invariant [safe], and what a
      drain guarantees.  Rollout.v: a scheduler that evaluates interleavings.
    - Keys.v ([gateway/src/auth.rs]), Quota.v ([quota.rs]), Admission.v
      ([gateway/src/billing.rs]), Outbox.v ([delivery.rs], [usage.rs]), Stream.v
      ([streaming.rs]), Proxy.v ([proxy.rs]): the parts of a gateway, and the
      handlers of a request that use them all; DemoGateway.v: a request, its
      admission and the delivery of its usage, run.
    - Kube.v ([kubernetes/src/api.rs] and the objects around it): the objects
      of a cluster, deployments and their validation, and the calls a client
      makes ([Talk], against an abstract server, [KubeApi]).  Agent.v
      ([cluster-agent/src/pull.rs], [main.rs]): deliveries and the inbound
      routes; Operator.v ([controller.rs], [resources.rs], [autoscaling.rs],
      [recommendation.rs]): a reconciliation; Observe.v ([observation.rs],
      [gateway_proof.rs]): what the agent attests.  Deliver.v: control plane
      and agent together; DemoKube.v: a server, and what they do with it.
    - Billing.v: every operation as one type [op] and the invariant [healthy];
      Service.v: the theorems about every sequence of operations; Live.v: the
      service among its gateways; Demo.v: a day of it, and the instances.

    ** What the theorems show

    Service.v: the books equal history, the ledger is double entry, prepaid
    accounts stay solvent, a reservation only moves forward and settles for its
    exact price, refunds are bounded, the event log is gapless, the worker
    handles each event once, two people decide a review.  Protocol.v, Worker.v,
    Feed.v and Maintenance.v: when a handler succeeds and what it refuses,
    retries, leases, gapless delivery, repair.  Payments.v: what a signed
    message is worth, and the amount round trip.  Drain.v: in every
    interleaving, with snapshots and reports late, lost or repeated and
    gateways stopping at any moment, a drained pool serves nothing and a
    deployment is only changed when nothing uses it.  Routing.v and Routes.v:
    which pool a request goes to, what pause, promote and rollback do, and that
    history is never lost.  Live.v joins the two halves.

    Of the interface, beside whatever others do: Doors.v shows that a user of
    the console performs only acts on tenants that are the user's, in the
    user's own name and after a durable intent; that every other door asks for
    its own credential before anything happens; that lists show nothing of
    other tenants; and that no row ever changes hands.  People.v: a request
    alone keeps an owner of a tenant, two at once may not ([owner_race]); a
    statement says what the usage of its period was; alerts are taken once and
    only move forward.

    Of a gateway: Proxy.v shows that a request is forwarded only with a valid
    key, a pool that serves its model, a slot for its usage and, when
    reservations are on, money held for all the tokens its body may ask for,
    and that every request gives back what it took.  Keys.v: which secrets
    authenticate after a snapshot.  Admission.v: over calls that get lost, a
    ticket stands for a dispatched reservation and what failed is recovered.
    Outbox.v: usage that was accepted is billed once.  Quota.v: the shared
    counters refine a list of charges, and what is sent again counts once.
    Stream.v: what is metered does not depend on how the answer was cut into
    chunks.

    Of a cluster, with other clients that change it between any two calls, and
    a process that may stop at any of them: Agent.v shows that a delivery only
    changes what the cluster owns, never back to an older version, and that
    the inbound routes leave alone what deliveries own.  Operator.v: a
    reconciliation only writes what its deployment controls, and two
    deployments never share a pod; it also shows that the wait for KEDA's
    autoscaler cannot be reached ([collection_not_awaited]).  Observe.v: a
    report says only what was seen, a proof of termination only what a live
    node remembers.  Deliver.v: a delivery that the control plane hands out is
    refused only for a spec or for its length, and DemoKube.v that the scaler
    can make it too long ([scaled_delivery_refused]).

    ** Bounds and fuel

    Recursion follows lists and needs no fuel, except the drain of the feed
    (Feed.v), whose fuel is the length of the log, proved enough.  The limits
    of the source (pages, batches, list lengths) are its own constants.

    ** What is assumed of the outside

    World.v takes three facts from the outside world, as conditions of its
    steps: an agent only attests a termination of a gateway that has stopped,
    idle evidence of a pool was taken when its entry served nothing of a
    stopped gateway, and the clock of the database does not go back.  The
    payment theorems take the signature check as it is documented, through
    [rsa_verify].  Of libraries, laws are stated where a theorem needs them and
    shown to hold of concrete ones: the hash store runs a script at once and
    keeps a field until its deadline ([HashStoreLaws]), a decoder of event
    streams does not depend on where its input is cut ([SseLaws]), a printed
    document reads back ([GatewayLaws]), and so does base64 text (Keys.v).  Of
    the Kubernetes server, [KubeApi] states what its interface documents: a
    write takes effect under its conditions on identifier and version or not
    at all, also when its answer is lost, and a version is never used twice.

    ** Not modelled

    Of the proxy: [upstream_peer] (addresses, the load balancer and timeouts),
    telemetry and its headers, the texts of its own answers, and the reading
    of settings from the environment ([config.rs] apart from [ServingConfig],
    [main.rs]).  Of the control plane: the health, capability and quote
    routes, the lists of clusters, pools, models, endpoints, worker jobs and
    reviews, [backup_status], [component_health] and [cluster_proxy], which
    only read or ask other processes; the parsing of documents by axum and
    serde; the loops that call the maintenance handlers on a timer.
    Of the cluster agent: the polling loop, its leader election, settings and
    HTTP client; of the operator: the watches and queues of the controller
    runtime.  Telemetry and migrations are I/O and schema. *)

From Stdlib Require Export Ascii.
From stdpp Require Export base numbers list gmap strings fin_maps relations sorting.

#[export] Set Default Proof Using "Type".
#[export] Set Warnings "-clear-no-such-hyp".

(** ** Results and the error values of the source *)

(** [Result<A, E>] of the source language. *)
Inductive result (E A : Type) : Type :=
| Ok (a : A)
| Err (e : E).
Arguments Ok {E A} a.
Arguments Err {E A} e.

#[export] Instance result_ret {E} : MRet (result E) := λ A a, Ok a.
#[export] Instance result_bind {E} : MBind (result E) :=
  λ A B k m, match m with Ok a => k a | Err e => Err e end.

Definition is_ok {E A} (r : result E A) : bool :=
  match r with Ok _ => true | Err _ => false end.

Definition ok_or {E A} (o : option A) (e : E) : result E A :=
  match o with Some a => Ok a | None => Err e end.

Definition is_some {A} (o : option A) : bool :=
  match o with Some _ => true | None => false end.

Lemma is_some_true {A} (o : option A) : is_some o = true ↔ ∃ a, o = Some a.
Proof. destruct o; simpl; naive_solver. Qed.
Lemma is_some_false {A} (o : option A) : is_some o = false ↔ o = None.
Proof. by destruct o. Qed.

(** [require b e] is the guard [if !b { return Err(e) }]. *)
Definition require {E} (b : bool) (e : E) : result E unit :=
  if b then Ok tt else Err e.

Lemma result_bind_Ok {E A B} (m : result E A) (k : A → result E B) b :
  m ≫= k = Ok b ↔ ∃ a, m = Ok a ∧ k a = Ok b.
Proof. destruct m; unfold mbind; simpl; naive_solver. Qed.

Lemma ok_or_Ok {E A} (o : option A) (e : E) a : ok_or o e = Ok a ↔ o = Some a.
Proof. destruct o; simpl; naive_solver. Qed.

Lemma require_Ok {E} b (e : E) u : require b e = Ok u ↔ b = true.
Proof. destruct b, u; simpl; naive_solver. Qed.

Lemma require_Err {E} b (e e' : E) : require b e = Err e' ↔ b = false ∧ e' = e.
Proof. destruct b; simpl; naive_solver. Qed.
Lemma ok_or_Err {E A} (o : option A) (e e' : E) : ok_or o e = Err e' ↔ o = None ∧ e' = e.
Proof. destruct o; simpl; naive_solver. Qed.
Lemma result_bind_Err {E A B} (m : result E A) (k : A → result E B) e :
  m ≫= k = Err e ↔ m = Err e ∨ ∃ a, m = Ok a ∧ k a = Err e.
Proof. destruct m; unfold mbind; simpl; naive_solver. Qed.

Lemma require_bind_Ok {E A} b (e : E) (k : unit → result E A) r :
  require b e ≫= k = Ok r ↔ b = true ∧ k tt = Ok r.
Proof. destruct b; unfold mbind; simpl; naive_solver. Qed.

Lemma unit_bind_Ok {E A} (m : result E unit) (k : unit → result E A) r :
  m ≫= k = Ok r ↔ m = Ok tt ∧ k tt = Ok r.
Proof. rewrite result_bind_Ok. split; [intros ([] & ? & ?)|]; naive_solver. Qed.

(** ** Machine integers

    An [i64], [i32] or [u64] value is a [Z]; an operation of the source that
    can overflow says here what it does when it does. *)

Definition i64_min : Z := -9223372036854775808.
Definition i64_max : Z := 9223372036854775807.
Definition u64_max : Z := 18446744073709551615.
Definition u32_max : Z := 4294967295.
Definition i32_max : Z := 2147483647.

Definition in_i64 (z : Z) : bool := bool_decide (i64_min ≤ z ≤ i64_max)%Z.

(** A checked operation of the source: [None] outside the width. *)
Definition checked_i64 (z : Z) : option Z := if in_i64 z then Some z else None.
Definition checked_add (a b : Z) : option Z := checked_i64 (a + b).
Definition checked_sub (a b : Z) : option Z := checked_i64 (a - b).
Definition checked_mul (a b : Z) : option Z := checked_i64 (a * b).

(** Two's complement wrap-around of a release build. *)
Definition wrap_i64 (z : Z) : Z :=
  (z + 9223372036854775808) `mod` 18446744073709551616 - 9223372036854775808.

Definition saturating_add_u64 (a b : Z) : Z := Z.min (a + b) u64_max.
Definition saturating_mul_u64 (a b : Z) : Z := Z.min (a * b) u64_max.

Lemma in_i64_spec z : in_i64 z = true ↔ (i64_min ≤ z ≤ i64_max)%Z.
Proof. unfold in_i64. apply bool_decide_eq_true. Qed.

Lemma checked_i64_Some z r : checked_i64 z = Some r ↔ r = z ∧ (i64_min ≤ z ≤ i64_max)%Z.
Proof.
  unfold checked_i64. rewrite <- in_i64_spec. destruct (in_i64 z); naive_solver.
Qed.

Lemma checked_add_Some a b r :
  checked_add a b = Some r ↔ r = (a + b)%Z ∧ (i64_min ≤ a + b ≤ i64_max)%Z.
Proof. apply checked_i64_Some. Qed.
Lemma checked_sub_Some a b r :
  checked_sub a b = Some r ↔ r = (a - b)%Z ∧ (i64_min ≤ a - b ≤ i64_max)%Z.
Proof. apply checked_i64_Some. Qed.
Lemma checked_mul_Some a b r :
  checked_mul a b = Some r ↔ r = (a * b)%Z ∧ (i64_min ≤ a * b ≤ i64_max)%Z.
Proof. apply checked_i64_Some. Qed.

Lemma wrap_i64_id z : (i64_min ≤ z ≤ i64_max)%Z → wrap_i64 z = z.
Proof.
  unfold wrap_i64, i64_min, i64_max. intros H.
  rewrite Z.mod_small by lia. lia.
Qed.

Lemma wrap_i64_range z : (i64_min ≤ wrap_i64 z ≤ i64_max)%Z.
Proof.
  unfold wrap_i64, i64_min, i64_max.
  pose proof (Z.mod_pos_bound (z + 9223372036854775808) 18446744073709551616).
  lia.
Qed.

(** ** Strings

    A [String] of the source is its UTF-8 bytes, one [ascii] per byte, so
    [len()] is [String.length] and [bytes().all(p)] is [bytes_all p]. *)

Definition byte_code (c : ascii) : N := N_of_ascii c.

Fixpoint bytes_all (p : ascii → bool) (s : string) : bool :=
  match s with
  | EmptyString => true
  | String c s => p c && bytes_all p s
  end.

Fixpoint contains_byte (c : ascii) (s : string) : bool :=
  match s with
  | EmptyString => false
  | String d s => Ascii.eqb c d || contains_byte c s
  end.

Definition in_range (lo hi : N) (c : ascii) : bool :=
  (lo <=? byte_code c)%N && (byte_code c <=? hi)%N.

Definition is_ascii_digit (c : ascii) : bool := in_range 48 57 c.
Definition is_ascii_lowercase (c : ascii) : bool := in_range 97 122 c.
Definition is_ascii_uppercase (c : ascii) : bool := in_range 65 90 c.
Definition is_ascii_alphanumeric (c : ascii) : bool :=
  is_ascii_digit c || is_ascii_lowercase c || is_ascii_uppercase c.
Definition is_ascii_hexdigit (c : ascii) : bool :=
  is_ascii_digit c || in_range 97 102 c || in_range 65 70 c.

Definition str_len (s : string) : Z := Z.of_nat (String.length s).
Definition is_empty (s : string) : bool :=
  match s with EmptyString => true | _ => false end.
Definition str_eqb (a b : string) : bool := bool_decide (a = b).
Definition str_in (s : string) (l : list string) : bool := existsb (str_eqb s) l.

(** [s.trim().is_empty()]: every character of [s] is Unicode white space.
    The white-space characters are listed by their UTF-8 encodings. *)
Fixpoint is_blank (s : string) : bool :=
  match s with
  | EmptyString => true
  | String a s1 =>
      if in_range 9 13 a || in_range 32 32 a then is_blank s1
      else match s1 with
      | EmptyString => false
      | String b s2 =>
          if in_range 194 194 a && (in_range 133 133 b || in_range 160 160 b)
          then is_blank s2
          else match s2 with
          | EmptyString => false
          | String c s3 =>
              if (in_range 225 225 a && in_range 154 154 b && in_range 128 128 c)
                 || (in_range 226 226 a && in_range 128 128 b &&
                       (in_range 128 138 c || in_range 168 169 c || in_range 175 175 c))
                 || (in_range 226 226 a && in_range 129 129 b && in_range 159 159 c)
                 || (in_range 227 227 a && in_range 128 128 b && in_range 128 128 c)
              then is_blank s3 else false
          end
      end
  end.

Lemma str_eqb_eq a b : str_eqb a b = true ↔ a = b.
Proof. unfold str_eqb. apply bool_decide_eq_true. Qed.
Lemma str_eqb_refl a : str_eqb a a = true.
Proof. by apply str_eqb_eq. Qed.
Lemma str_eqb_neq a b : str_eqb a b = false ↔ a ≠ b.
Proof. unfold str_eqb. apply bool_decide_eq_false. Qed.

Lemma str_in_elem s l : str_in s l = true ↔ s ∈ l.
Proof.
  unfold str_in. rewrite existsb_exists. setoid_rewrite str_eqb_eq.
  setoid_rewrite <- list_elem_of_In. naive_solver.
Qed.

Lemma bytes_all_app p s t : bytes_all p (s +:+ t) = bytes_all p s && bytes_all p t.
Proof. induction s as [|c s IH]; simpl; [done|]. by rewrite IH, andb_assoc. Qed.

(** ** JSON documents

    The values the source builds with [json!] or [serde_json::to_value] and
    stores in a document column; an object lists its fields in declaration
    order, which makes equality of documents of one type equality of values. *)
#[warnings="-register-all"]
Inductive Json : Type :=
| JNull
| JBool (b : bool)
| JNum (z : Z)
| JStr (s : string)
| JArr (items : list Json)
| JObj (fields : list (string * Json)).

Fixpoint json_eqb (a b : Json) {struct a} : bool :=
  match a, b with
  | JNull, JNull => true
  | JBool x, JBool y => Bool.eqb x y
  | JNum x, JNum y => Z.eqb x y
  | JStr x, JStr y => str_eqb x y
  | JArr xs, JArr ys =>
      (fix go (xs ys : list Json) {struct xs} : bool :=
         match xs, ys with
         | [], [] => true
         | x :: xs, y :: ys => json_eqb x y && go xs ys
         | _, _ => false
         end) xs ys
  | JObj xs, JObj ys =>
      (fix go (xs ys : list (string * Json)) {struct xs} : bool :=
         match xs, ys with
         | [], [] => true
         | (k, x) :: xs, (l, y) :: ys => str_eqb k l && json_eqb x y && go xs ys
         | _, _ => false
         end) xs ys
  | _, _ => false
  end.

Lemma json_eqb_eq : ∀ a b, json_eqb a b = true ↔ a = b.
Proof.
  fix IH 1. intros a b. destruct a as [|x|x|x|xs|xs], b as [|y|y|y|ys|ys]; simpl;
    try (clear IH; naive_solver; fail).
  - clear IH. rewrite Bool.eqb_true_iff. naive_solver.
  - clear IH. rewrite Z.eqb_eq. naive_solver.
  - clear IH. rewrite str_eqb_eq. naive_solver.
  - transitivity (xs = ys); [|clear IH; naive_solver].
    revert ys. induction xs as [|x xs IHxs]; intros [|y ys]; try (clear IH; naive_solver; fail).
    rewrite andb_true_iff, IHxs. specialize (IH x y). rewrite IH. clear IH IHxs. naive_solver.
  - transitivity (xs = ys); [|clear IH; naive_solver].
    revert ys. induction xs as [|[k x] xs IHxs]; intros [|[l y] ys];
      try (clear IH; naive_solver; fail).
    rewrite !andb_true_iff, str_eqb_eq, IHxs.
    specialize (IH x y). rewrite IH. clear IH IHxs. naive_solver.
Qed.

#[export] Instance Json_eq_dec : EqDecision Json.
Proof.
  intros a b. destruct (json_eqb a b) eqn:E; [left|right].
  - by apply json_eqb_eq.
  - intros Hab%json_eqb_eq. congruence.
Defined.

Definition json_opt {A} (f : A → Json) (o : option A) : Json :=
  match o with Some a => f a | None => JNull end.

(** [value[key]], which is null where the field is missing. *)
Fixpoint json_field (key : string) (l : list (string * Json)) : Json :=
  match l with
  | [] => JNull
  | (k, v) :: l => if str_eqb k key then v else json_field key l
  end.
Definition json_get (key : string) (j : Json) : Json :=
  match j with JObj l => json_field key l | _ => JNull end.

(** [value[key] = v] on an object that keeps its fields in key order, as the
    documents that clients send are kept once parsed. *)
Fixpoint json_put_field (key : string) (v : Json) (l : list (string * Json)) : list (string * Json) :=
  match l with
  | [] => [(key, v)]
  | (k, w) :: l =>
      if str_eqb k key then (k, v) :: l
      else if String.ltb key k then (key, v) :: (k, w) :: l
      else (k, w) :: json_put_field key v l
  end.
Definition json_put (key : string) (v j : Json) : Json :=
  match j with JObj l => JObj (json_put_field key v l) | _ => j end.

Definition json_is_object (j : Json) : bool := match j with JObj _ => true | _ => false end.
Definition json_as_str (j : Json) : option string := match j with JStr s => Some s | _ => None end.
Definition json_as_i64 (j : Json) : option Z :=
  match j with JNum z => if in_i64 z then Some z else None | _ => None end.

Definition is_nil {A} (l : list A) : bool := match l with [] => true | _ => false end.

Lemma is_nil_false {A} (l : list A) : is_nil l = false ↔ l ≠ [].
Proof. by destruct l. Qed.

(** ** Filtering by a test *)

Lemma filter_all {A} (f : A → bool) l :
  Forall (λ x, f x = true) l → filter (λ x, f x = true) l = l.
Proof. induction 1 as [|x l Hx Hl IH]; [done|]. by rewrite filter_cons_True, IH. Qed.
Lemma filter_none {A} (f : A → bool) l :
  Forall (λ x, f x = false) l → filter (λ x, f x = true) l = [].
Proof.
  induction 1 as [|x l Hx Hl IH]; [done|]. rewrite filter_cons_False, IH by congruence. done.
Qed.

Lemma filter_same {A} (f g : A → bool) (l : list A) :
  (∀ x, x ∈ l → f x = g x) → filter (λ x, f x = true) l = filter (λ x, g x = true) l.
Proof.
  induction l as [|x l IH]; intros Hfg; [done|]. rewrite !filter_cons.
  rewrite IH by (intros y Hy; apply Hfg; by right). rewrite (Hfg x) by by left. done.
Qed.

(** ** Sums over tables *)

Section sums.
Context {A : Type}.
Implicit Types (f : A → Z) (l : list A).

Fixpoint zsum (f : A → Z) (l : list A) : Z :=
  match l with
  | [] => 0
  | a :: l => f a + zsum f l
  end.

Lemma zsum_app f l k : zsum f (l ++ k) = (zsum f l + zsum f k)%Z.
Proof. induction l as [|a l IH]; simpl; lia. Qed.

Lemma zsum_perm f l k : l ≡ₚ k → zsum f l = zsum f k.
Proof. induction 1; simpl; lia. Qed.

Lemma zsum_ext f g l : (∀ a, a ∈ l → f a = g a) → zsum f l = zsum g l.
Proof.
  induction l as [|a l IH]; intros H; simpl; [done|].
  rewrite (H a) by set_solver. rewrite IH; [done|]. set_solver.
Qed.

Lemma zsum_zero l : zsum (λ _, 0%Z) l = 0%Z.
Proof. induction l; simpl; lia. Qed.

Lemma zsum_nonneg f l : (∀ a, a ∈ l → 0 ≤ f a)%Z → (0 ≤ zsum f l)%Z.
Proof.
  induction l as [|a l IH]; intros H; simpl; [lia|].
  assert (0 ≤ f a)%Z by (apply H; set_solver).
  assert (0 ≤ zsum f l)%Z by (apply IH; set_solver). lia.
Qed.

Lemma zsum_le f g l : (∀ a, a ∈ l → f a ≤ g a)%Z → (zsum f l ≤ zsum g l)%Z.
Proof.
  induction l as [|a l IH]; intros H; simpl; [done|].
  pose proof (H a (list_elem_of_here _ _)). assert (zsum f l ≤ zsum g l)%Z by (apply IH; set_solver). lia.
Qed.

Lemma zsum_elem_le f l a :
  (∀ b, b ∈ l → 0 ≤ f b)%Z → a ∈ l → (f a ≤ zsum f l)%Z.
Proof.
  intros Hf (l1 & l2 & ->)%list_elem_of_split. rewrite zsum_app. simpl.
  assert (0 ≤ zsum f l1)%Z by (apply zsum_nonneg; set_solver).
  assert (0 ≤ zsum f l2)%Z by (apply zsum_nonneg; set_solver). lia.
Qed.
End sums.

Section map_sums.
Context `{Countable K} {A : Type}.
Implicit Types (f : A → Z) (m : gmap K A).

Definition msum (f : A → Z) (m : gmap K A) : Z :=
  zsum (λ p : K * A, f p.2) (map_to_list m).

Lemma msum_empty f : msum f ∅ = 0%Z.
Proof. unfold msum. by rewrite map_to_list_empty. Qed.

Lemma msum_insert_new f m k a :
  m !! k = None → msum f (<[k := a]> m) = (msum f m + f a)%Z.
Proof.
  intros Hk. unfold msum.
  rewrite (zsum_perm _ _ _ (map_to_list_insert m k a Hk)). simpl. lia.
Qed.

Lemma msum_insert_old f m k a b :
  m !! k = Some b → msum f (<[k := a]> m) = (msum f m - f b + f a)%Z.
Proof.
  intros Hk.
  rewrite <- (insert_delete_id m k b Hk) at 2.
  rewrite <- (insert_delete_eq m k a).
  rewrite !msum_insert_new by apply lookup_delete_eq. lia.
Qed.

Lemma msum_ext f g m : (∀ k a, m !! k = Some a → f a = g a) → msum f m = msum g m.
Proof.
  intros Hfg. apply zsum_ext. intros [k a] Hin. simpl. apply (Hfg k).
  by apply elem_of_map_to_list.
Qed.

Lemma msum_nonneg f m : (∀ k a, m !! k = Some a → 0 ≤ f a)%Z → (0 ≤ msum f m)%Z.
Proof.
  intros Hf. apply zsum_nonneg. intros [k a] Hin. simpl.
  apply (Hf k). by apply elem_of_map_to_list.
Qed.

Lemma msum_lookup_le f m k a :
  (∀ k a, m !! k = Some a → 0 ≤ f a)%Z → m !! k = Some a → (f a ≤ msum f m)%Z.
Proof.
  intros Hf Hk. unfold msum.
  apply (zsum_elem_le (λ p : K * A, f p.2) (map_to_list m) (k, a)).
  - intros [j b] Hin. simpl. apply (Hf j). by apply elem_of_map_to_list.
  - by apply elem_of_map_to_list.
Qed.
End map_sums.

(** ** Ordered queries: [ORDER BY key ASC] as a stable insertion sort *)

Section order_by.
Context {A : Type} (key : A → Z).

Fixpoint insert_by (a : A) (l : list A) : list A :=
  match l with
  | [] => [a]
  | b :: l => if (key a <=? key b)%Z then a :: b :: l else b :: insert_by a l
  end.

Definition order_by (l : list A) : list A := foldr insert_by [] l.

Lemma insert_by_perm a l : insert_by a l ≡ₚ a :: l.
Proof.
  induction l as [|b l IH]; simpl; [done|]. case_match; [done|].
  rewrite IH. apply Permutation_swap.
Qed.

Lemma order_by_perm l : order_by l ≡ₚ l.
Proof. induction l as [|a l IH]; simpl; [done|]. by rewrite insert_by_perm, IH. Qed.

Lemma order_by_sorted l : StronglySorted Z.le (key <$> l) → order_by l = l.
Proof.
  induction l as [|a l IH]; intros Hs; simpl; [done|].
  apply StronglySorted_inv in Hs as [Hs Ha]. rewrite IH by done.
  destruct l as [|b l]; simpl; [done|].
  apply Forall_inv in Ha. by rewrite (proj2 (Z.leb_le _ _)).
Qed.
End order_by.

(** [ORDER BY key ASC] on a text column, in byte order. *)
Definition text_before {A} (key : A → string) (a b : A) : Prop := String.leb (key a) (key b) = true.
#[export] Instance text_before_dec {A} (key : A → string) : RelDecision (text_before key) :=
  λ a b, bool_eq_dec _ _.
Definition order_by_text {A} (key : A → string) (l : list A) : list A :=
  merge_sort (text_before key) l.

Lemma order_by_text_perm {A} (key : A → string) l : order_by_text key l ≡ₚ l.
Proof. apply merge_sort_Permutation. Qed.
Lemma elem_of_order_by_text {A} (key : A → string) l x : x ∈ order_by_text key l ↔ x ∈ l.
Proof. by rewrite order_by_text_perm. Qed.

