(* ===== verification/Domain.v ===== *)
(** * Domain: money, models, key policies and the wire contracts

    [crates/domain/src/lib.rs] and [crates/domain/src/billing.rs]: the value
    types every service shares, the validation an API key policy passes, and
    the price arithmetic.  Instants ([DateTime<Utc>]) are microseconds since
    the epoch as a [Z]. *)

From S2P Require Import Prelude.
Local Open Scope Z_scope.

(** ** Data *)

Record Money := mkMoney { money_currency : string; money_amount : Z }.
#[export] Instance Money_eq_dec : EqDecision Money.
Proof. solve_decision. Defined.

Definition cny (amount : Z) : Money := mkMoney "CNY" amount.

Definition DEFAULT_MODEL_ID : string := "xscope-demo".
Definition DEFAULT_PRICE_VERSION : string := "2026-09-01".
Definition MICROS_PER_MINOR_UNIT : Z := 1000000.

Record Model := mkModel {
  model_id : string;
  display_name : string;
  max_context_tokens : Z;
  input_per_million_tokens : Money;
  output_per_million_tokens : Money;
  price_version : string }.
#[export] Instance Model_eq_dec : EqDecision Model.
Proof. solve_decision. Defined.

Definition Model_default : Model := {|
  model_id := DEFAULT_MODEL_ID;
  display_name := "XScope Demo Model";
  max_context_tokens := 32768;
  input_per_million_tokens := cny 1000;
  output_per_million_tokens := cny 2000;
  price_version := DEFAULT_PRICE_VERSION |}.

Inductive KeyStatus := Active | Expired | Revoked.
#[export] Instance KeyStatus_eq_dec : EqDecision KeyStatus.
Proof. solve_decision. Defined.

Record ApiKeyRequest := mkApiKeyRequest {
  akr_id : string;
  akr_tenant_id : string;
  akr_project_id : string;
  akr_name : string;
  akr_scopes : list string;
  akr_allowed_models : list string;
  akr_expires_at : option Z;
  akr_rate_limit_rpm : Z;
  akr_rate_limit_tpm : Z;
  akr_monthly_budget : Money }.

Record UsageEvent := mkUsageEvent {
  ue_schema_version : string;
  ue_event_id : string;
  ue_request_id : string;
  ue_occurred_at : Z;
  ue_tenant_id : string;
  ue_project_id : string;
  ue_api_key_id : string;
  ue_model_id : string;
  ue_model_revision : string;
  ue_endpoint_id : string;
  ue_region : string;
  ue_price_version : string;
  ue_input_tokens : Z;
  ue_output_tokens : Z;
  ue_cached_input_tokens : Z;
  ue_latency_ms : Z;
  ue_status : string;
  ue_cost : Money }.

Inductive DomainError :=
| Required (field : string)
| UnsupportedCurrency
| NegativeAmount
| NegativeTokens
| CostOverflow
| InvalidRpm
| InvalidTpm
| InvalidExpiry
| InvalidScope
| MissingModel.

(** ** The billing wire contracts *)

Record UnresolvedRequest := mkUnresolved {
  unr_event_id : string;
  unr_reason : string;
  unr_input_tokens : option Z;
  unr_output_tokens : option Z }.

Record ReserveRequest := mkReserve {
  rr_id : string;
  rr_tenant_id : string;
  rr_project_id : string;
  rr_api_key_id : string;
  rr_request_id : string;
  rr_model_id : string;
  rr_model_revision : string;
  rr_price_version : string;
  rr_input_token_limit : Z;
  rr_output_token_limit : Z }.
#[export] Instance ReserveRequest_eq_dec : EqDecision ReserveRequest.
Proof. solve_decision. Defined.

Record SettleRequest := mkSettle {
  sr_input_tokens : Z;
  sr_output_tokens : Z;
  sr_latency_ms : Z;
  sr_endpoint_id : string;
  sr_region : string;
  sr_status : string }.

(** The documents these requests are stored as. *)
Definition settle_json (r : SettleRequest) : Json :=
  JObj [("input_tokens", JNum (sr_input_tokens r));
        ("output_tokens", JNum (sr_output_tokens r));
        ("latency_ms", JNum (sr_latency_ms r));
        ("endpoint_id", JStr (sr_endpoint_id r));
        ("region", JStr (sr_region r));
        ("status", JStr (sr_status r))].

Definition unresolved_json (r : UnresolvedRequest) : Json :=
  JObj [("event_id", JStr (unr_event_id r));
        ("reason", JStr (unr_reason r));
        ("input_tokens", json_opt JNum (unr_input_tokens r));
        ("output_tokens", json_opt JNum (unr_output_tokens r))].

#[export] Instance settle_json_inj : Inj (=) (=) settle_json.
Proof. intros [] []. unfold settle_json. simpl. naive_solver. Qed.

(** A settlement document is never an unresolved-usage document. *)
Lemma settle_json_unresolved s u : settle_json s ≠ unresolved_json u.
Proof. unfold settle_json, unresolved_json. naive_solver. Qed.

(** ** Key policies *)

Definition with_defaults (r : ApiKeyRequest) : ApiKeyRequest := {|
  akr_id := akr_id r;
  akr_tenant_id := akr_tenant_id r;
  akr_project_id := akr_project_id r;
  akr_name := akr_name r;
  akr_scopes := match akr_scopes r with [] => ["chat.completions"] | l => l end;
  akr_allowed_models :=
    match akr_allowed_models r with [] => [DEFAULT_MODEL_ID] | l => l end;
  akr_expires_at := akr_expires_at r;
  akr_rate_limit_rpm :=
    if akr_rate_limit_rpm r =? 0 then 60 else akr_rate_limit_rpm r;
  akr_rate_limit_tpm :=
    if akr_rate_limit_tpm r =? 0 then 60000 else akr_rate_limit_tpm r;
  akr_monthly_budget :=
    if is_empty (money_currency (akr_monthly_budget r))
    then mkMoney "CNY" (money_amount (akr_monthly_budget r))
    else akr_monthly_budget r |}.

Definition validate_money (m : Money) : result DomainError unit :=
  require (str_eqb (money_currency m) "CNY") UnsupportedCurrency ;;
  require (0 <=? money_amount m) NegativeAmount.

Definition in_range_incl (lo hi v : Z) : bool := (lo <=? v) && (v <=? hi).

(** [expires_at.is_some_and(|expiry| expiry <= now)] *)
Definition expired_at (expires_at : option Z) (now : Z) : bool :=
  match expires_at with Some expiry => expiry <=? now | None => false end.

Definition API_SCOPES : list string := ["chat.completions"; "completions"].

Definition required_field (p : string * string) : result DomainError unit :=
  require (negb (is_blank p.1)) (Required p.2).

Fixpoint required_fields (l : list (string * string)) : result DomainError unit :=
  match l with
  | [] => Ok tt
  | p :: l => required_field p ;; required_fields l
  end.

Definition ApiKeyRequest_validate (r : ApiKeyRequest) (now : Z) : result DomainError unit :=
  required_fields
    [(akr_id r, "id"); (akr_tenant_id r, "tenant_id");
     (akr_project_id r, "project_id"); (akr_name r, "name")] ;;
  require (in_range_incl 1 1000000 (akr_rate_limit_rpm r)) InvalidRpm ;;
  require (in_range_incl 1 10000000000 (akr_rate_limit_tpm r)) InvalidTpm ;;
  validate_money (akr_monthly_budget r) ;;
  require (negb (expired_at (akr_expires_at r) now)) InvalidExpiry ;;
  require (negb (is_nil (akr_scopes r)
                 || existsb (λ s, negb (str_in s API_SCOPES)) (akr_scopes r))) InvalidScope ;;
  require (negb (is_nil (akr_allowed_models r))) MissingModel.

Definition key_status (revoked_at expires_at : option Z) (now : Z) : KeyStatus :=
  match revoked_at with
  | Some _ => Revoked
  | None => if expired_at expires_at now then Expired else Active
  end.

(** ** Price arithmetic *)

Definition usage_cost_microunits (m : Model) (input_tokens output_tokens : Z)
    : result DomainError Z :=
  if (input_tokens <? 0) || (output_tokens <? 0) then Err NegativeTokens
  else ok_or
    (input ← checked_mul input_tokens (money_amount (input_per_million_tokens m));
     output ← checked_mul output_tokens (money_amount (output_per_million_tokens m));
     checked_add input output)
    CostOverflow.

(** The sum is written without a check, so it wraps in a release build; the
    division of the language truncates. *)
Definition ceil_minor_units (microunits : Z) : Z :=
  if microunits =? 0 then 0
  else wrap_i64 (microunits + MICROS_PER_MINOR_UNIT - 1) `quot` MICROS_PER_MINOR_UNIT.

(** [floor_minor_units] of the repository: Euclidean division. *)
Definition floor_minor_units (microunits : Z) : Z := microunits `div` MICROS_PER_MINOR_UNIT.

(** ** The price arithmetic is exact and monotone *)

Lemma usage_cost_Ok m i o c :
  usage_cost_microunits m i o = Ok c ↔
  0 ≤ i ∧ 0 ≤ o ∧
  c = i * money_amount (input_per_million_tokens m)
      + o * money_amount (output_per_million_tokens m) ∧
  i64_min ≤ i * money_amount (input_per_million_tokens m) ≤ i64_max ∧
  i64_min ≤ o * money_amount (output_per_million_tokens m) ≤ i64_max ∧
  i64_min ≤ c ≤ i64_max.
Proof.
  unfold usage_cost_microunits.
  set (pi := money_amount (input_per_million_tokens m)).
  set (po := money_amount (output_per_million_tokens m)).
  destruct (Z.ltb_spec i 0); [split; [done|intros [??]; lia]|].
  destruct (Z.ltb_spec o 0); [split; [done|intros (?&?&?); lia]|]. simpl.
  rewrite ok_or_Ok, bind_Some. setoid_rewrite bind_Some.
  setoid_rewrite checked_mul_Some. setoid_rewrite checked_add_Some. split.
  - intros (x & [-> Hx] & y & [-> Hy] & -> & Hc). lia.
  - intros (_ & _ & -> & Hx & Hy & Hc). exists (i * pi). split; [lia|].
    exists (o * po). lia.
Qed.

(** Prices that are not negative. *)
Definition nonneg_price (m : Model) : Prop :=
  0 ≤ money_amount (input_per_million_tokens m) ∧
  0 ≤ money_amount (output_per_million_tokens m).

Lemma usage_cost_nonneg m i o c :
  nonneg_price m → usage_cost_microunits m i o = Ok c → 0 ≤ c ≤ i64_max.
Proof.
  intros [Hpi Hpo] (Hi & Ho & -> & _ & _ & Hc)%usage_cost_Ok. split; [nia|lia].
Qed.

(** Usage within admitted limits costs at most what the limits cost, and its
    price never overflows when the limits' price did not. *)
Lemma usage_cost_mono m i o i' o' c' :
  nonneg_price m → 0 ≤ i ≤ i' → 0 ≤ o ≤ o' →
  usage_cost_microunits m i' o' = Ok c' →
  ∃ c, usage_cost_microunits m i o = Ok c ∧ 0 ≤ c ≤ c'.
Proof.
  intros [Hpi Hpo] Hi Ho (_ & _ & Hc' & Hx & Hy & Hz)%usage_cost_Ok.
  set (pi := money_amount (input_per_million_tokens m)) in *.
  set (po := money_amount (output_per_million_tokens m)) in *.
  assert (0 ≤ i * pi ≤ i' * pi) by nia.
  assert (0 ≤ o * po ≤ o' * po) by nia.
  exists (i * pi + o * po). split; [|lia].
  apply usage_cost_Ok. unfold i64_min in *. lia.
Qed.

(** ** Rounding to minor units *)

Lemma ceil_minor_units_least x :
  0 ≤ x ≤ i64_max - (MICROS_PER_MINOR_UNIT - 1) →
  x ≤ ceil_minor_units x * MICROS_PER_MINOR_UNIT < x + MICROS_PER_MINOR_UNIT.
Proof.
  unfold ceil_minor_units, MICROS_PER_MINOR_UNIT, i64_max. intros Hx.
  destruct (Z.eqb_spec x 0) as [->|Hx0]; [lia|].
  rewrite wrap_i64_id by (unfold i64_min, i64_max; lia).
  rewrite Z.quot_div_nonneg by lia.
  pose proof (Z.div_mod (x + 1000000 - 1) 1000000).
  pose proof (Z.mod_pos_bound (x + 1000000 - 1) 1000000). lia.
Qed.

(** ** Key policies *)

Lemma required_fields_Ok l u :
  required_fields l = Ok u ↔ Forall (λ p, is_blank p.1 = false) l.
Proof.
  destruct u. induction l as [|p l IH]; simpl; [naive_solver|].
  unfold required_field. by rewrite require_bind_Ok, negb_true_iff, Forall_cons, IH.
Qed.

Lemma validate_money_Ok m u :
  validate_money m = Ok u ↔ money_currency m = "CNY"%string ∧ 0 ≤ money_amount m.
Proof.
  unfold validate_money. by rewrite require_bind_Ok, require_Ok, str_eqb_eq, Z.leb_le.
Qed.

(** The limits an accepted key policy respects. *)
Record valid_policy (r : ApiKeyRequest) (now : Z) : Prop := {
  vp_fields : Forall (λ s, is_blank s = false)
    [akr_id r; akr_tenant_id r; akr_project_id r; akr_name r];
  vp_rpm : 1 ≤ akr_rate_limit_rpm r ≤ 1000000;
  vp_tpm : 1 ≤ akr_rate_limit_tpm r ≤ 10000000000;
  vp_budget : money_currency (akr_monthly_budget r) = "CNY"%string ∧
              0 ≤ money_amount (akr_monthly_budget r);
  vp_expiry : ∀ e, akr_expires_at r = Some e → now < e;
  vp_scopes : akr_scopes r ≠ [] ∧ ∀ s, s ∈ akr_scopes r → s ∈ API_SCOPES;
  vp_models : akr_allowed_models r ≠ [] }.

Lemma expired_at_false e now : expired_at e now = false ↔ ∀ t, e = Some t → now < t.
Proof.
  destruct e as [e|]; simpl; [|naive_solver]. rewrite Z.leb_gt. naive_solver.
Qed.

Lemma in_range_incl_spec lo hi v : in_range_incl lo hi v = true ↔ lo ≤ v ≤ hi.
Proof. unfold in_range_incl. rewrite andb_true_iff, !Z.leb_le. done. Qed.

Lemma scopes_ok l :
  (is_nil l || existsb (λ s, negb (str_in s API_SCOPES)) l) = false ↔
  l ≠ [] ∧ ∀ s, s ∈ l → s ∈ API_SCOPES.
Proof.
  rewrite orb_false_iff, is_nil_false, <- not_true_iff_false, existsb_exists.
  setoid_rewrite <- list_elem_of_In. setoid_rewrite negb_true_iff.
  setoid_rewrite <- not_true_iff_false. setoid_rewrite str_in_elem.
  split; [|naive_solver]. intros [Hl H]. split; [done|]. intros s Hs.
  destruct (decide (s ∈ API_SCOPES)); naive_solver.
Qed.

(** [ApiKeyRequest::validate] accepts a key policy exactly when it meets
    every documented bound; in particular an accepted key has a live expiry,
    known scopes, at least one model and rates the quota script can store. *)
Theorem validate_iff r now :
  ApiKeyRequest_validate r now = Ok tt ↔ valid_policy r now.
Proof.
  unfold ApiKeyRequest_validate.
  rewrite !unit_bind_Ok, !require_Ok, validate_money_Ok, required_fields_Ok.
  rewrite !in_range_incl_spec, !negb_true_iff, expired_at_false, scopes_ok, is_nil_false.
  split.
  - intros (Hf & Hrpm & Htpm & Hb & He & Hs & Hm).
    rewrite !Forall_cons in Hf. split; rewrite ?Forall_cons; naive_solver.
  - intros [Hf Hrpm Htpm Hb He Hs Hm].
    rewrite !Forall_cons in *. naive_solver.
Qed.
