(* ===== verification/Http.v ===== *)
(** * Http: the header fields of a message

    What the handlers of both servers use of the [http] library: fields with
    names in lower case, in order, and the texts that they may hold. *)

From S2P Require Import Prelude Domain.
Local Open Scope string_scope.
Local Open Scope Z_scope.

(** The header fields of a message, names in lower case. *)
Abbreviation Headers := (list (string * string)).
Definition header_values (name : string) (h : Headers) : list string :=
  (filter (λ x, x.1 = name) h).*2.
(** [get(name)] and [to_str], which reads visible ASCII only. *)
Definition header_str (name : string) (h : Headers) : option string :=
  v ← head (header_values name h);
  if bytes_all (λ c, in_range 32 126 c || in_range 9 9 c) v then Some v else None.
Definition remove_header (name : string) (h : Headers) : Headers := filter (λ x, x.1 ≠ name) h.
Definition insert_header (name value : string) (h : Headers) : Headers :=
  (remove_header name h ++ [(name, value)])%list.

(** [HeaderValue::from_str]: visible ASCII, tab, and the bytes above it. *)
Definition header_text (s : string) : bool :=
  bytes_all (λ c, in_range 32 126 c || in_range 9 9 c || in_range 128 255 c) s.

(** [trim] of a text that [to_str] accepts: blanks and tabs are its white space. *)
Fixpoint trim_start (s : string) : string :=
  match s with
  | String a s1 => if in_range 9 9 a || in_range 32 32 a then trim_start s1 else s
  | EmptyString => s
  end.
Fixpoint trim_end (s : string) : string :=
  match s with
  | String a s => if is_empty (trim_end s) && (in_range 9 9 a || in_range 32 32 a) then EmptyString
                  else String a (trim_end s)
  | EmptyString => EmptyString
  end.
Definition trim (s : string) : string := trim_end (trim_start s).

(** [strip_prefix] of a text. *)
Fixpoint strip_prefix (prefix s : string) : option string :=
  match prefix, s with
  | EmptyString, _ => Some s
  | String a prefix, String b s => if Ascii.eqb a b then strip_prefix prefix s else None
  | _, EmptyString => None
  end.

Lemma strip_prefix_app p s : strip_prefix p (p +:+ s) = Some s.
Proof. induction p as [|c p IH]; simpl; [by destruct s|]. by rewrite Ascii.eqb_refl. Qed.
Lemma strip_prefix_Some p s r : strip_prefix p s = Some r → s = p +:+ r.
Proof.
  revert s. induction p as [|a p IH]; intros s; simpl; [destruct s; by intros [= <-]|].
  destruct s as [|b s]; [done|]. destruct (Ascii.eqb_spec a b) as [->|]; [|done].
  intros ->%IH. done.
Qed.
