(* ===== verification/Models.v ===== *)
(** * Models: the validation of public model definitions and serving entries

    [crates/domain/src/catalog.rs].  A definition that passes [Model_validate]
    can price every request of its context window without overflow. *)

From S2P Require Import Prelude Domain.
Local Open Scope Z_scope.

Record CatalogModel := mkCatalogModel {
  cm_revision : Z;
  cm_enabled : bool;
  cm_default_pool : option string;
  cm_model : Model }.

Record PutModel := mkPutModel {
  pm_expected_revision : Z;
  pm_enabled : bool;
  pm_default_pool : option string;
  pm_model : Model }.

Record ServingEndpoint := mkServingEndpoint {
  se_id : string;
  se_model : string;
  se_revision : string;
  se_address : string;
  se_tls : bool;
  se_server_name : string }.
#[export] Instance ServingEndpoint_eq_dec : EqDecision ServingEndpoint.
Proof. solve_decision. Defined.

Record CatalogSnapshot := mkCatalogSnapshot {
  cs_models : list CatalogModel;
  cs_endpoints : list ServingEndpoint }.

Definition one_of (l : list ascii) (c : ascii) : bool := existsb (Ascii.eqb c) l.

Definition catalog_identifier (value : string) : bool :=
  negb (is_empty value) && (str_len value <=? 128)
  && bytes_all (λ c, is_ascii_alphanumeric c || one_of ["."; "_"; "-"]%char c) value.

Definition MAX_CONTEXT : Z := 16777216.

Definition price_ok (m : Model) (price : Money) : bool :=
  str_eqb (money_currency price) "CNY" && (0 <=? money_amount price)
  && is_some (checked_mul (money_amount price) (max_context_tokens m)).

Definition Model_validate (m : Model) : result string unit :=
  require
    (catalog_identifier (model_id m) && catalog_identifier (price_version m)
     && negb (is_blank (display_name m)) && (str_len (display_name m) <=? 256)
     && in_range_incl 1 MAX_CONTEXT (max_context_tokens m))
    "invalid model identity, display name or context limit"%string ;;
  require
    (forallb (price_ok m) [input_per_million_tokens m; output_per_million_tokens m])
    "model prices require nonnegative CNY amounts within integer bounds"%string ;;
  require
    (is_some (checked_mul (max_context_tokens m)
      (Z.max (money_amount (input_per_million_tokens m))
             (money_amount (output_per_million_tokens m)))))
    "model price exceeds integer bounds"%string.

(** [rsplit_once(':')] *)
Fixpoint rsplit_once (sep : ascii) (s : string) : option (string * string) :=
  match s with
  | EmptyString => None
  | String c s' =>
      match rsplit_once sep s' with
      | Some (a, b) => Some (String c a, b)
      | None => if Ascii.eqb c sep then Some (EmptyString, s') else None
      end
  end.

(** [str::parse::<uN>]: an optional plus sign, then at least one digit, and
    no intermediate value above [max]. *)
Fixpoint parse_digits (max acc : Z) (s : string) : option Z :=
  match s with
  | EmptyString => Some acc
  | String c s =>
      if is_ascii_digit c then
        let v := acc * 10 + (Z.of_N (byte_code c) - 48) in
        if v <=? max then parse_digits max v s else None
      else None
  end.

Definition parse_unsigned (max : Z) (s : string) : option Z :=
  let digits := match s with
                | String c s' => if Ascii.eqb c "+" then s' else s
                | EmptyString => s
                end in
  if is_empty digits then None else parse_digits max 0 digits.

Definition host_byte (c : ascii) : bool :=
  is_ascii_alphanumeric c || one_of ["."; "-"; "["; "]"; ":"]%char c.

Definition ServingEndpoint_validate (e : ServingEndpoint) : result string unit :=
  require (catalog_identifier (se_id e) && catalog_identifier (se_model e)
           && catalog_identifier (se_revision e)) "invalid serving endpoint identity"%string ;;
  hp ← ok_or (rsplit_once ":" (se_address e)) "entry address requires host:port"%string;
  require
    (negb (is_empty hp.1) && (str_len hp.1 <=? 253) && bytes_all host_byte hp.1
     && match parse_unsigned 65535 hp.2 with Some p => 0 <? p | None => false end
     && (str_len (se_server_name e) <=? 253)
     && bytes_all (λ c, is_ascii_alphanumeric c || one_of ["."; "-"]%char c) (se_server_name e)
     && negb (se_tls e && is_empty (se_server_name e)))
    "invalid serving Service address or TLS name"%string.

Fixpoint validate_models (seen : list string) (l : list CatalogModel)
    : result string (list string) :=
  match l with
  | [] => Ok seen
  | entry :: l =>
      Model_validate (cm_model entry) ;;
      require
        ((0 <? cm_revision entry) && negb (str_in (model_id (cm_model entry)) seen)
         && match cm_default_pool entry with
            | Some id => catalog_identifier id | None => true end)
        "invalid or duplicate catalog model"%string ;;
      validate_models (model_id (cm_model entry) :: seen) l
  end.

Fixpoint validate_endpoints (models seen : list string) (l : list ServingEndpoint)
    : result string unit :=
  match l with
  | [] => Ok tt
  | e :: l =>
      ServingEndpoint_validate e ;;
      require (str_in (se_model e) models && negb (str_in (se_id e) seen))
        "duplicate endpoint or unregistered model"%string ;;
      validate_endpoints models (se_id e :: seen) l
  end.

Definition CatalogSnapshot_validate (s : CatalogSnapshot) : result string unit :=
  models ← validate_models [] (cs_models s);
  validate_endpoints models [] (cs_endpoints s).

(** ** Properties *)

Lemma Model_validate_Ok m :
  Model_validate m = Ok tt →
  nonneg_price m ∧ 1 ≤ max_context_tokens m ≤ MAX_CONTEXT ∧
  max_context_tokens m *
    Z.max (money_amount (input_per_million_tokens m))
          (money_amount (output_per_million_tokens m)) ≤ i64_max.
Proof.
  unfold Model_validate. rewrite !unit_bind_Ok, !require_Ok. simpl.
  rewrite !andb_true_iff, in_range_incl_spec. unfold price_ok.
  rewrite !andb_true_iff, !Z.leb_le, !is_some_true. setoid_rewrite checked_mul_Some.
  intros (((((_ & _) & _) & _) & Hctx) & (((_ & Hi) & _) & ((_ & Ho) & _) & _) & z & -> & Hm).
  unfold nonneg_price. lia.
Qed.

(** A validated model prices every request that fits its context window:
    the cost computation cannot overflow, and the cost is at most the context
    window at the dearer price. *)
Theorem validated_model_prices m i o :
  Model_validate m = Ok tt → 0 ≤ i → 0 ≤ o → i + o ≤ max_context_tokens m →
  ∃ c, usage_cost_microunits m i o = Ok c ∧
    0 ≤ c ≤ max_context_tokens m *
      Z.max (money_amount (input_per_million_tokens m))
            (money_amount (output_per_million_tokens m)).
Proof.
  intros ([Hpi Hpo] & Hctx & Hmax)%Model_validate_Ok Hi Ho Hio.
  set (pi := money_amount (input_per_million_tokens m)) in *.
  set (po := money_amount (output_per_million_tokens m)) in *.
  assert (i * pi ≤ i * Z.max pi po) by nia.
  assert (o * po ≤ o * Z.max pi po) by nia.
  assert ((i + o) * Z.max pi po ≤ max_context_tokens m * Z.max pi po) by nia.
  assert (0 ≤ i * pi) by nia. assert (0 ≤ o * po) by nia.
  exists (i * pi + o * po). rewrite usage_cost_Ok. unfold i64_min.
  fold pi po. nia.
Qed.

Lemma validated_model_prices_witness :
  ∃ c, usage_cost_microunits Model_default 7 13 = Ok c ∧ 0 ≤ c ≤ 32768 * 2000.
Proof. apply (validated_model_prices Model_default 7 13); [reflexivity|simpl; lia..]. Defined.

Lemma validate_models_spec l seen r :
  validate_models seen l = Ok r →
  r = rev (model_id ∘ cm_model <$> l) ++ seen ∧
  (NoDup seen → NoDup r) ∧ ∀ e, e ∈ l → Model_validate (cm_model e) = Ok tt ∧ 0 < cm_revision e.
Proof.
  revert seen. induction l as [|e l IH]; intros seen; simpl.
  - intros [= <-]. split; [done|]. split; [done|]. intros e He. by apply elem_of_nil in He.
  - rewrite !unit_bind_Ok, require_Ok, !andb_true_iff, Z.ltb_lt, negb_true_iff.
    intros (Hm & ((Hrev & Hnew) & _) & (-> & Hnd & Hall)%IH).
    split; [by rewrite <- app_assoc|]. split.
    + intros Hs. apply Hnd. apply NoDup_cons. split; [|done].
      rewrite <- str_in_elem. by rewrite Hnew.
    + intros x [->|Hx]%elem_of_cons; [done|]. by apply Hall.
Qed.

Lemma validate_endpoints_spec models l seen :
  validate_endpoints models seen l = Ok tt →
  (∀ e, e ∈ l → se_model e ∈ models ∧ se_id e ∉ seen) ∧ NoDup (se_id <$> l).
Proof.
  revert seen. induction l as [|e l IH]; intros seen; simpl.
  - intros _. split; [|apply NoDup_nil_2]. intros e He. by apply elem_of_nil in He.
  - rewrite !unit_bind_Ok, require_Ok, andb_true_iff, negb_true_iff, str_in_elem.
    intros (_ & (Hm & Hnew) & (Hall & Hnd)%IH).
    assert (se_id e ∉ seen) by (rewrite <- str_in_elem; by rewrite Hnew).
    split.
    + intros x [->|Hx]%elem_of_cons; [done|]. apply Hall in Hx. set_solver.
    + apply NoDup_cons. split; [|done].
      intros (x & Hid & Hx)%list_elem_of_fmap. apply Hall in Hx. set_solver.
Qed.

(** C40: an accepted catalog snapshot has no duplicate model or endpoint, every
    model is valid with a positive revision, and every endpoint serves a
    registered model. *)
Theorem snapshot_validate_sound s :
  CatalogSnapshot_validate s = Ok tt →
  NoDup (model_id ∘ cm_model <$> cs_models s) ∧
  NoDup (se_id <$> cs_endpoints s) ∧
  (∀ e, e ∈ cs_models s → Model_validate (cm_model e) = Ok tt ∧ 0 < cm_revision e) ∧
  (∀ e, e ∈ cs_endpoints s → se_model e ∈ model_id ∘ cm_model <$> cs_models s).
Proof.
  unfold CatalogSnapshot_validate. rewrite result_bind_Ok.
  intros (models & (-> & Hnd & Hall)%validate_models_spec & (He & Hnde)%validate_endpoints_spec).
  rewrite app_nil_r in *. split; [|split; [done|split; [done|]]].
  - rewrite Permutation_rev. apply Hnd, NoDup_nil_2.
  - intros e Hin. apply He in Hin as [Hin _]. by rewrite <- Permutation_rev in Hin.
Qed.

Definition demo_snapshot : CatalogSnapshot := {|
  cs_models := [mkCatalogModel 1 true (Some "demo-pool"%string) Model_default];
  cs_endpoints := [mkServingEndpoint "demo-pool" DEFAULT_MODEL_ID "r1" "entry.demo:8080" false ""] |}.

Lemma snapshot_validate_sound_witness : NoDup (se_id <$> cs_endpoints demo_snapshot).
Proof.
  exact (proj1 (proj2 (snapshot_validate_sound demo_snapshot ltac:(reflexivity)))).
Defined.
