(* ===== verification/Routing.v ===== *)
(** * Routing: the traffic policy of a model in a project

    [crates/domain/src/routing.rs]: a policy names a stable pool and at most
    one canary; header rules come first, then a percentage of the remaining
    requests.  A release action derives the next policy from the current one. *)

From S2P Require Import Prelude.
Local Open Scope Z_scope.

(** ** Data *)

Record RoutePool := mkRoutePool { rp_id : string; rp_model : string; rp_revision : string }.

Inductive RouteTarget := StableTarget | CanaryTarget.
#[export] Instance RouteTarget_eq_dec : EqDecision RouteTarget.
Proof. solve_decision. Defined.

Record HeaderRoute := mkHeaderRoute {
  hr_name : string; hr_value : string; hr_target : RouteTarget }.
#[export] Instance HeaderRoute_eq_dec : EqDecision HeaderRoute.
Proof. solve_decision. Defined.

Record RoutePolicySpec := mkRouteSpec {
  rs_stable_pool : string;
  rs_canary_pool : option string;
  rs_canary_percent : Z;
  rs_headers : list HeaderRoute }.
#[export] Instance RoutePolicySpec_eq_dec : EqDecision RoutePolicySpec.
Proof. solve_decision. Defined.

Record RoutePolicy := mkRoutePolicy {
  rt_tenant_id : string; rt_project_id : string; rt_model : string;
  rt_revision : Z; rt_spec : RoutePolicySpec }.

Record PutRoutePolicy := mkPutRoute { pr_expected_revision : Z; pr_spec : RoutePolicySpec }.

Inductive ReleaseAction :=
| Pause (expected_revision : Z)
| Promote (expected_revision : Z)
| Rollback (expected_revision target_revision : Z).

Definition ReleaseAction_expected_revision (a : ReleaseAction) : Z :=
  match a with Pause e | Promote e | Rollback e _ => e end.

Definition ReleaseAction_name (a : ReleaseAction) : string :=
  match a with Pause _ => "pause" | Promote _ => "promote" | Rollback _ _ => "rollback" end.

(** ** Operations *)

Definition spec_pause (s : RoutePolicySpec) : RoutePolicySpec :=
  mkRouteSpec (rs_stable_pool s) (rs_canary_pool s) 0
    (filter (λ rule, hr_target rule = StableTarget) (rs_headers s)).

Definition spec_promote (s : RoutePolicySpec) : result string RoutePolicySpec :=
  canary ← ok_or (rs_canary_pool s) "no canary pool to promote"%string;
  Ok (mkRouteSpec canary None 0 []).

Definition pool_name_ok (id : string) : bool := negb (is_blank id) && (str_len id <=? 128).

(** The narrow namespace of cohort headers. *)
Definition header_name_ok (name : string) : bool :=
  String.prefix "x-route-" name && (8 <? str_len name) && (str_len name <=? 64)
  && bytes_all (λ b, is_ascii_lowercase b || is_ascii_digit b || Ascii.eqb b "-") name.
Definition header_value_ok (value : string) : bool :=
  negb (is_empty value) && (str_len value <=? 256) && bytes_all (in_range 33 126) value.

Definition same_match (a b : HeaderRoute) : bool :=
  str_eqb (hr_name a) (hr_name b) && str_eqb (hr_value a) (hr_value b).

(** The loop over the rules; [seen] are the rules before. *)
Fixpoint validate_headers (seen l : list HeaderRoute) : result string unit :=
  match l with
  | [] => Ok tt
  | h :: l =>
      require (header_name_ok (hr_name h) && header_value_ok (hr_value h))
        "rules require lowercase x-route-* names and printable non-space ASCII values"%string ;;
      require (negb (existsb (λ g, same_match g h) seen)) "duplicate header match"%string ;;
      validate_headers (seen ++ [h]) l
  end.

Definition is_canary (h : HeaderRoute) : bool := bool_decide (hr_target h = CanaryTarget).

Definition spec_validate (s : RoutePolicySpec) : result string unit :=
  require (pool_name_ok (rs_stable_pool s)) "stable_pool must be a registered pool ID"%string ;;
  require (match rs_canary_pool s with
           | Some canary => pool_name_ok canary && negb (str_eqb canary (rs_stable_pool s))
           | None => true
           end) "canary_pool must be nonempty and distinct from stable_pool"%string ;;
  require ((rs_canary_percent s <=? 100) && (length (rs_headers s) <=? 16)%nat)
    "canary_percent must be 0..100 and at most 16 header rules are allowed"%string ;;
  require (is_some (rs_canary_pool s)
           || negb ((0 <? rs_canary_percent s) || existsb is_canary (rs_headers s)))
    "canary traffic requires canary_pool"%string ;;
  validate_headers [] (rs_headers s).

Definition registered (model : string) (pools : list RoutePool) (id : string) : bool :=
  existsb (λ pool, str_eqb (rp_id pool) id && str_eqb (rp_model pool) model) pools.

Fixpoint all_registered (model : string) (pools : list RoutePool) (ids : list string)
    : result string unit :=
  match ids with
  | [] => Ok tt
  | id :: ids =>
      require (registered model pools id)
        ("pool " +:+ id +:+ " is not registered for model " +:+ model) ;;
      all_registered model pools ids
  end.

(** The pools a policy names. *)
Definition spec_pools (s : RoutePolicySpec) : list string :=
  rs_stable_pool s :: match rs_canary_pool s with Some c => [c] | None => [] end.

Definition spec_validate_pools (s : RoutePolicySpec) (model : string) (pools : list RoutePool)
    : result string unit :=
  spec_validate s ;;
  all_registered model pools (spec_pools s).

Definition spec_target (s : RoutePolicySpec) (t : RouteTarget) : string :=
  match t with
  | StableTarget => rs_stable_pool s
  | CanaryTarget => default (rs_stable_pool s) (rs_canary_pool s)
  end.

Definition spec_select (s : RoutePolicySpec) (matches : HeaderRoute → bool) (roll : Z)
    : string * string :=
  match List.find matches (rs_headers s) with
  | Some rule => (spec_target s (hr_target rule), "header")
  | None =>
      if roll <? rs_canary_percent s then (spec_target s CanaryTarget, "weight")
      else (rs_stable_pool s, "weight")
  end.

(** ** Validated policies *)

(** A policy that passes validation. *)
Record valid_spec (s : RoutePolicySpec) : Prop := {
  vs_stable : pool_name_ok (rs_stable_pool s) = true;
  vs_canary c : rs_canary_pool s = Some c → pool_name_ok c = true ∧ c ≠ rs_stable_pool s;
  vs_percent : rs_canary_percent s ≤ 100;
  vs_length : (length (rs_headers s) ≤ 16)%nat;
  vs_alone : rs_canary_pool s = None →
    rs_canary_percent s ≤ 0 ∧ ∀ h, h ∈ rs_headers s → hr_target h = StableTarget;
  vs_headers : Forall (λ h, header_name_ok (hr_name h) = true ∧ header_value_ok (hr_value h) = true)
    (rs_headers s);
  vs_distinct : NoDup ((λ h, (hr_name h, hr_value h)) <$> rs_headers s) }.

Lemma same_match_spec a b :
  same_match a b = true ↔ (hr_name a, hr_value a) = (hr_name b, hr_value b).
Proof.
  unfold same_match. rewrite andb_true_iff, !str_eqb_eq.
  split; [by intros [-> ->]|by intros [= -> ->]].
Qed.

Lemma validate_headers_Ok seen l u :
  validate_headers seen l = Ok u ↔
  Forall (λ h, header_name_ok (hr_name h) = true ∧ header_value_ok (hr_value h) = true) l ∧
  NoDup ((λ h, (hr_name h, hr_value h)) <$> l) ∧
  ∀ h g, h ∈ l → g ∈ seen → (hr_name g, hr_value g) ≠ (hr_name h, hr_value h).
Proof.
  revert seen. induction l as [|h l IH]; intros seen; simpl.
  { destruct u. split; [intros _|done]. split_and!; [constructor..|]. by intros h g []%elem_of_nil. }
  rewrite !require_bind_Ok, IH, andb_true_iff, negb_true_iff, <- not_true_iff_false,
    existsb_exists, Forall_cons, NoDup_cons, list_elem_of_fmap.
  setoid_rewrite <- list_elem_of_In. setoid_rewrite same_match_spec. split.
  - intros (Hh & Hs & Hl & Hnd & Hd). split; [done|]. split; [split; [|done]|].
    + intros (g & Hg & Hin). by apply (Hd g h Hin); [set_solver|].
    + intros h' g [->|Hin]%elem_of_cons Hg Heq; [apply Hs; by exists g|].
      by apply (Hd h' g Hin); [set_solver|].
  - intros ([Hh Hl] & [Hnew Hnd] & Hd). split; [done|]. split.
    + intros (g & Hg & Heq). by apply (Hd h g); [set_solver|..].
    + split; [done|]. split; [done|]. intros h' g Hin [Hg|Hg]%elem_of_app Heq.
      * by apply (Hd h' g); [set_solver|..].
      * apply list_elem_of_singleton in Hg as ->. apply Hnew. by exists h'.
Qed.

Lemma existsb_canary l : existsb is_canary l = false ↔ ∀ h, h ∈ l → hr_target h = StableTarget.
Proof.
  rewrite <- not_true_iff_false, existsb_exists. setoid_rewrite <- list_elem_of_In.
  unfold is_canary. setoid_rewrite bool_decide_eq_true. split.
  - intros H h Hh. destruct (hr_target h) eqn:E; [done|]. destruct H. by exists h.
  - intros H (h & Hh & Hc). rewrite (H h Hh) in Hc. done.
Qed.

Lemma spec_validate_Ok s u : spec_validate s = Ok u ↔ valid_spec s.
Proof.
  unfold spec_validate. rewrite !require_bind_Ok, validate_headers_Ok, andb_true_iff, Z.leb_le,
    Nat.leb_le, orb_true_iff, negb_true_iff, orb_false_iff, Z.ltb_ge, existsb_canary. split.
  - intros (H1 & H2 & [H3 H4] & H5 & H6 & H7 & _). split; try done.
    + intros c Hc. rewrite Hc, andb_true_iff, negb_true_iff, str_eqb_neq in H2. done.
    + intros Hn. rewrite Hn in H5. naive_solver.
  - intros [H1 H2 H3 H4 H5 H6 H7]. split; [done|]. split; [|split; [done|]].
    + destruct (rs_canary_pool s) as [c|]; [|done]. destruct (H2 c eq_refl).
      by rewrite andb_true_iff, negb_true_iff, str_eqb_neq.
    + split; [|split; [done|split; [done|set_solver]]].
      destruct (rs_canary_pool s); [by left|right]. naive_solver.
Qed.

Lemma registered_spec model pools id :
  registered model pools id = true ↔
  ∃ pool, pool ∈ pools ∧ rp_id pool = id ∧ rp_model pool = model.
Proof.
  unfold registered. rewrite existsb_exists. setoid_rewrite <- list_elem_of_In.
  setoid_rewrite andb_true_iff. by setoid_rewrite str_eqb_eq.
Qed.

Lemma all_registered_Ok model pools ids u :
  all_registered model pools ids = Ok u ↔ Forall (λ id, registered model pools id = true) ids.
Proof.
  destruct u. induction ids as [|id ids IH]; simpl; [naive_solver|].
  by rewrite require_bind_Ok, Forall_cons, IH.
Qed.

(** Where a policy may send a request. *)
Lemma select_target s matches roll :
  valid_spec s →
  (spec_select s matches roll).1 = rs_stable_pool s ∨
  rs_canary_pool s = Some (spec_select s matches roll).1.
Proof.
  intros Hs. unfold spec_select. destruct (List.find _ _) as [h|]; simpl.
  - destruct (hr_target h); simpl; [by left|]. destruct (rs_canary_pool s); simpl; auto.
  - destruct (Z.ltb_spec roll (rs_canary_percent s)); simpl; [|by left].
    destruct (rs_canary_pool s); simpl; auto.
Qed.

Lemma find_none {A} (f : A → bool) l : (∀ a, a ∈ l → f a = false) → List.find f l = None.
Proof.
  induction l as [|a l IH]; intros H; simpl; [done|].
  rewrite H by set_solver. apply IH. set_solver.
Qed.

Lemma count_below n p : 0 ≤ p ≤ n →
  length (filter (λ roll, (roll <? p) = true) (seqZ 0 n)) = Z.to_nat p.
Proof.
  intros Hp. replace n with (p + (n - p)) by lia.
  rewrite seqZ_app, filter_app, length_app by lia.
  rewrite (filter_all (λ roll, roll <? p)), (filter_none (λ roll, roll <? p)), length_seqZ;
    [simpl; lia|apply Forall_forall; intros x Hx%elem_of_seqZ..].
  - rewrite Z.ltb_ge. lia.
  - rewrite Z.ltb_lt. lia.
Qed.

(** The weighted part sends exactly [canary_percent] of a hundred rolls to
    the canary. *)
Lemma select_weighted s matches canary :
  valid_spec s → 0 ≤ rs_canary_percent s → rs_canary_pool s = Some canary →
  (∀ h, h ∈ rs_headers s → matches h = false) →
  length (filter (λ roll, str_eqb (spec_select s matches roll).1 canary = true) (seqZ 0 100))
  = Z.to_nat (rs_canary_percent s).
Proof.
  intros Hs Hp Hc Hm. rewrite <- (count_below 100) by (split; [done|apply Hs]).
  f_equal. apply filter_same. intros roll _.
  unfold spec_select. rewrite find_none by done.
  destruct (roll <? rs_canary_percent s); simpl; [rewrite Hc; apply str_eqb_refl|].
  apply str_eqb_neq. intros Heq. by destruct (vs_canary s Hs canary Hc).
Qed.

(** A validated policy routes only to what an operator registered.  Every
    request goes to a pool that is registered for its model; the first header
    rule that matches decides, and of the requests that no rule matches
    exactly [canary_percent] of every hundred rolls go to the canary. *)
Theorem route_selection s model pools matches :
  spec_validate_pools s model pools = Ok tt →
  (∀ roll, ∃ pool, pool ∈ pools ∧ rp_id pool = (spec_select s matches roll).1 ∧
     rp_model pool = model) ∧
  (∀ roll before h after, rs_headers s = before ++ h :: after →
     (∀ g, g ∈ before → matches g = false) → matches h = true →
     spec_select s matches roll = (spec_target s (hr_target h), "header"%string)) ∧
  (∀ canary, (∀ h, h ∈ rs_headers s → matches h = false) → 0 ≤ rs_canary_percent s →
     rs_canary_pool s = Some canary →
     length (filter (λ roll, str_eqb (spec_select s matches roll).1 canary = true) (seqZ 0 100))
     = Z.to_nat (rs_canary_percent s)).
Proof.
  unfold spec_validate_pools. rewrite unit_bind_Ok, spec_validate_Ok, all_registered_Ok.
  intros [Hs Hr]. split_and!.
  - intros roll. apply registered_spec. apply (proj1 (Forall_forall _ _) Hr).
    unfold spec_pools. destruct (select_target s matches roll Hs) as [->| ->]; set_solver.
  - intros roll before h after Hl Hb Hh. unfold spec_select. rewrite Hl. clear Hl.
    induction before as [|g before IH]; simpl; [by rewrite Hh|].
    rewrite Hb by set_solver. apply IH. set_solver.
  - intros canary Hm Hp Hc. by apply select_weighted.
Qed.

(** Release actions do what they say.  Pausing a validated policy leaves
    a validated policy that sends every request to the stable pool; promoting
    it succeeds exactly when it has a canary, and then the validated result
    sends every request to what was the canary. *)
Theorem release_actions s :
  spec_validate s = Ok tt →
  (spec_validate (spec_pause s) = Ok tt ∧
   ∀ matches roll, 0 ≤ roll → (spec_select (spec_pause s) matches roll).1 = rs_stable_pool s) ∧
  (∀ canary, rs_canary_pool s = Some canary → ∃ next,
     spec_promote s = Ok next ∧ spec_validate next = Ok tt ∧
     ∀ matches roll, 0 ≤ roll → (spec_select next matches roll).1 = canary) ∧
  (rs_canary_pool s = None → spec_promote s = Err "no canary pool to promote"%string).
Proof.
  rewrite !spec_validate_Ok. intros Hs. destruct Hs as [H1 H2 H3 H4 H5 H6 H7]. split_and!.
  - split; simpl; try done; try lia.
    + etrans; [apply length_filter|done].
    + intros Hn. split; [lia|]. intros h [Hh _]%list_elem_of_filter. done.
    + apply Forall_forall. intros h [_ Hh]%list_elem_of_filter. by apply (proj1 (Forall_forall _ _) H6).
    + eapply sublist_NoDup; [exact H7|]. apply fmap_sublist, sublist_filter.
  - intros matches roll Hroll. unfold spec_select. simpl.
    destruct (List.find _ _) as [h|] eqn:Hf.
    + apply List.find_some in Hf as [Hin _].
      apply list_elem_of_In, list_elem_of_filter in Hin as [-> _]. done.
    + destruct (Z.ltb_spec roll 0); [lia|done].
  - intros canary Hc. unfold spec_promote. rewrite Hc. simpl. eexists. split; [done|].
    rewrite spec_validate_Ok. split.
    + destruct (H2 canary Hc). split; simpl; try done; try lia; [set_solver|constructor..].
    + intros matches roll Hroll. unfold spec_select. simpl. by destruct (Z.ltb_spec roll 0); [lia|].
  - intros Hn. unfold spec_promote. by rewrite Hn.
Qed.

Definition sample_spec : RoutePolicySpec :=
  mkRouteSpec "pool-a" (Some "pool-b") 10 [mkHeaderRoute "x-route-cohort" "beta" CanaryTarget].
Definition sample_pools : list RoutePool :=
  [mkRoutePool "pool-a" "m" "r1"; mkRoutePool "pool-b" "m" "r2"].

Lemma route_selection_witness :
  spec_validate_pools sample_spec "m" sample_pools = Ok tt ∧
  spec_select sample_spec (λ h, str_eqb (hr_value h) "beta") 99 = ("pool-b", "header")%string.
Proof.
  split; [vm_compute; reflexivity|].
  assert (H : spec_validate_pools sample_spec "m" sample_pools = Ok tt) by (vm_compute; reflexivity).
  destruct (route_selection sample_spec "m" sample_pools (λ h, str_eqb (hr_value h) "beta") H)
    as (_ & Hheader & _).
  exact (Hheader 99 [] (mkHeaderRoute "x-route-cohort" "beta" CanaryTarget) [] eq_refl
    (λ g Hg, match not_elem_of_nil g Hg with end) eq_refl).
Defined.

Lemma release_actions_witness :
  spec_validate sample_spec = Ok tt ∧
  (spec_select (spec_pause sample_spec) (λ _, true) 5).1 = "pool-a"%string.
Proof.
  split; [vm_compute; reflexivity|].
  assert (H : spec_validate sample_spec = Ok tt) by (vm_compute; reflexivity).
  destruct (release_actions sample_spec H) as ([_ Hpause] & _).
  exact (Hpause (λ _, true) 5 ltac:(lia)).
Defined.
