(* ===== verification/Fleet.v ===== *)
(** * Fleet: clusters, managed pools and gateway sessions

    [crates/domain/src/cluster.rs] and [traffic.rs], and the rows of
    [crates/entities] that the registry of the serving fleet keeps: route
    policies with their history, serving endpoints, managed pools, member
    clusters with their desired revisions, gateway sessions with the view
    each has of a pool, and traffic grants. *)

From S2P Require Import Prelude Models Routing.
Local Open Scope Z_scope.

(** ** Wire contracts *)

Record DesiredDeployment := mkDesired {
  dd_name : string;
  dd_spec : option Json;
  dd_delete_uid : option string;
  dd_expected_uid : option string }.
#[export] Instance DesiredDeployment_eq_dec : EqDecision DesiredDeployment.
Proof. solve_decision. Defined.

Record DesiredState := mkDesiredState {
  ds_expected_version : Z; ds_deployments : list DesiredDeployment }.

Record ClusterDelivery := mkDelivery {
  dl_cluster_id : string; dl_namespace : string; dl_version : Z; dl_sha256 : string;
  dl_lease : string; dl_lease_seconds : Z; dl_deployments : list DesiredDeployment }.

Record ClusterReport := mkClusterReport {
  cr_version : Z; cr_sha256 : string; cr_lease : string; cr_outcome : string;
  cr_error_code : option string }.

Definition LEASE_SECONDS : Z := 15.

Definition managed (id : string) : bool := String.prefix "managed-" id.

Record PoolBinding := mkBinding {
  pb_traffic_protocol : Z;
  pb_make_default : bool;
  pb_cluster_id : string;
  pb_deployment : string;
  pb_serving_service : string;
  pb_address : string;
  pb_tls : bool;
  pb_server_name : string;
  pb_expected_desired_version : Z }.

Record PoolControl := mkControl { pc_id : string; pc_generation : Z; pc_accepting : bool }.

Record TrafficSnapshot := mkSnapshot {
  ts_admission_token : string;
  ts_session_id : string;
  ts_sequence : Z;
  ts_nonce : string;
  ts_lease_seconds : Z;
  ts_pools : list PoolControl }.

Record TrafficReport := mkReport {
  tp_closed : bool;
  tp_session_id : string;
  tp_sequence : Z;
  tp_nonce : string;
  tp_active : gmap string Z }.
#[export] Instance TrafficReport_eq_dec : EqDecision TrafficReport.
Proof. solve_decision. Defined.

Record ObservationTask := mkTask {
  ot_traffic_protocol : Z; ot_idle_after : option Z; ot_pool_id : string; ot_generation : Z;
  ot_nonce : string; ot_desired_version : Z; ot_deployment : string; ot_serving_service : string;
  ot_expected_uid : option string; ot_expected_spec : Json }.

Record ScaleEvidence := mkScaleEvidence {
  sv_uid : string; sv_resource_version : string; sv_replicas : Z; sv_applied_replicas : Z }.

Record PoolObservation := mkObservation {
  po_idle_after : option Z;
  po_applied_replicas : Z;
  po_scaling : option ScaleEvidence;
  po_idle : bool;
  po_pool_id : string;
  po_generation : Z;
  po_nonce : string;
  po_deployment_uid : option string;
  po_ready : bool;
  po_code : string }.

Record GatewayIdentity := mkIdentity {
  gi_cluster_id : string; gi_namespace : string; gi_pod : string; gi_pod_uid : string }.
#[export] Instance GatewayIdentity_eq_dec : EqDecision GatewayIdentity.
Proof. solve_decision. Defined.

Record GatewayRuntime := mkRuntime {
  gr_container_id : string; gr_node : string; gr_node_uid : string }.
#[export] Instance GatewayRuntime_eq_dec : EqDecision GatewayRuntime.
Proof. solve_decision. Defined.

Record GatewayProofTask := mkProofTask {
  pt_release_finalizer : bool; pt_session_id : string; pt_nonce : string;
  pt_identity : GatewayIdentity; pt_runtime : option GatewayRuntime; pt_closed : bool }.

Record GatewayProof := mkProof {
  gp_session_id : string; gp_nonce : string; gp_outcome : string; gp_runtime : option GatewayRuntime }.

(** ** Rows *)

Record RouteRow := mkRouteRow { ro_revision : Z; ro_spec : RoutePolicySpec; ro_updated_at : Z }.

Record RouteRevision := mkRouteRevision {
  rh_spec : RoutePolicySpec; rh_actor : string; rh_operation : string; rh_created_at : Z }.

Record EndpointRow := mkEndpointRow {
  er_generation : Z; er_definition : ServingEndpoint; er_updated_at : Z }.

Inductive PoolState := PoolPending | PoolActive | PoolDraining | PoolDrained | PoolRetired.
#[export] Instance PoolState_eq_dec : EqDecision PoolState.
Proof. solve_decision. Defined.

Inductive ScalePhase := ScaleDraining | ScaleApplying.
#[export] Instance ScalePhase_eq_dec : EqDecision ScalePhase.
Proof. solve_decision. Defined.

(** [Operation] of [scaling.rs]. *)
Record ScaleOperation := mkScale {
  so_phase : ScalePhase; so_target : Z; so_from : Z; so_previous_version : Z; so_up : bool }.

Record ManagedPool := mkPool {
  mp_id : string;
  mp_cluster_id : string;
  mp_deployment : string;
  mp_generation : Z;
  mp_state : PoolState;
  mp_binding : PoolBinding;
  mp_endpoint : ServingEndpoint;
  mp_expected_spec : Json;
  mp_desired_version : Z;
  mp_deployment_uid : option string;
  mp_ready_until : option Z;
  mp_observation_nonce : option string;
  mp_observation_until : option Z;
  mp_observation_code : string;
  mp_observed_at : option Z;
  mp_updated_at : Z;
  mp_scale_operation : option ScaleOperation;
  mp_idle_requested_after : option Z }.

Record Cluster := mkCluster {
  cl_id : string;
  cl_namespace : string;
  cl_credential_hash : string;
  cl_credential_epoch : Z;
  cl_expires_at : Z;
  cl_revoked_at : option Z;
  cl_desired_version : Z;
  cl_acknowledged_version : Z;
  cl_delivery_version : Z;
  cl_delivery_lease : option string;
  cl_lease_until : option Z;
  cl_heartbeat_at : option Z;
  cl_last_error : option string;
  cl_created_at : Z;
  cl_updated_at : Z }.

Record ClusterRevision := mkRevision {
  cv_payload : list DesiredDeployment; cv_sha256 : string; cv_created_by : string;
  cv_created_at : Z }.

(** A route as a session was sent it: project, model and revision. *)
Definition RouteVersion : Type := string * string * Z.

Record TerminationProof := mkTermination {
  tm_observed_at : Z; tm_runtime : option GatewayRuntime }.

Record Session := mkSession {
  sn_sequence : Z;
  sn_closed : bool;
  sn_nonce : string;
  sn_reported : option TrafficReport;
  sn_delivered_routes : list RouteVersion;
  sn_acknowledged_routes : list RouteVersion;
  sn_delivered_at : Z;
  sn_identity : option GatewayIdentity;
  sn_runtime : option GatewayRuntime;
  sn_proof : option TerminationProof;
  sn_proof_nonce : option string;
  sn_proof_until : option Z;
  sn_gateway_cluster_id : option string;
  sn_proof_complete : bool }.

Record PoolView := mkView {
  vw_delivered_generation : Z;
  vw_acknowledged_generation : Z;
  vw_active_requests : Z;
  vw_retired : bool;
  vw_reported_at : option Z }.

Record Grant := mkGrant { gt_session_id : string; gt_expires_at : Z; gt_pools : gmap string Z }.

(** ** Updates

    [active.field = Set(v)] of the source, one field at a time. *)

Definition set_mp_generation (x : Z) (p : ManagedPool) : ManagedPool :=
  mkPool (mp_id p) (mp_cluster_id p) (mp_deployment p) x (mp_state p) (mp_binding p)
    (mp_endpoint p) (mp_expected_spec p) (mp_desired_version p) (mp_deployment_uid p)
    (mp_ready_until p) (mp_observation_nonce p) (mp_observation_until p) (mp_observation_code p)
    (mp_observed_at p) (mp_updated_at p) (mp_scale_operation p) (mp_idle_requested_after p).
Definition set_mp_state (x : PoolState) (p : ManagedPool) : ManagedPool :=
  mkPool (mp_id p) (mp_cluster_id p) (mp_deployment p) (mp_generation p) x (mp_binding p)
    (mp_endpoint p) (mp_expected_spec p) (mp_desired_version p) (mp_deployment_uid p)
    (mp_ready_until p) (mp_observation_nonce p) (mp_observation_until p) (mp_observation_code p)
    (mp_observed_at p) (mp_updated_at p) (mp_scale_operation p) (mp_idle_requested_after p).
Definition set_mp_expected_spec (x : Json) (p : ManagedPool) : ManagedPool :=
  mkPool (mp_id p) (mp_cluster_id p) (mp_deployment p) (mp_generation p) (mp_state p)
    (mp_binding p) (mp_endpoint p) x (mp_desired_version p) (mp_deployment_uid p)
    (mp_ready_until p) (mp_observation_nonce p) (mp_observation_until p) (mp_observation_code p)
    (mp_observed_at p) (mp_updated_at p) (mp_scale_operation p) (mp_idle_requested_after p).
Definition set_mp_desired_version (x : Z) (p : ManagedPool) : ManagedPool :=
  mkPool (mp_id p) (mp_cluster_id p) (mp_deployment p) (mp_generation p) (mp_state p)
    (mp_binding p) (mp_endpoint p) (mp_expected_spec p) x (mp_deployment_uid p) (mp_ready_until p)
    (mp_observation_nonce p) (mp_observation_until p) (mp_observation_code p) (mp_observed_at p)
    (mp_updated_at p) (mp_scale_operation p) (mp_idle_requested_after p).
Definition set_mp_deployment_uid (x : option string) (p : ManagedPool) : ManagedPool :=
  mkPool (mp_id p) (mp_cluster_id p) (mp_deployment p) (mp_generation p) (mp_state p)
    (mp_binding p) (mp_endpoint p) (mp_expected_spec p) (mp_desired_version p) x
    (mp_ready_until p) (mp_observation_nonce p) (mp_observation_until p) (mp_observation_code p)
    (mp_observed_at p) (mp_updated_at p) (mp_scale_operation p) (mp_idle_requested_after p).
Definition set_mp_ready_until (x : option Z) (p : ManagedPool) : ManagedPool :=
  mkPool (mp_id p) (mp_cluster_id p) (mp_deployment p) (mp_generation p) (mp_state p)
    (mp_binding p) (mp_endpoint p) (mp_expected_spec p) (mp_desired_version p)
    (mp_deployment_uid p) x (mp_observation_nonce p) (mp_observation_until p)
    (mp_observation_code p) (mp_observed_at p) (mp_updated_at p) (mp_scale_operation p)
    (mp_idle_requested_after p).
Definition set_mp_observation_nonce (x : option string) (p : ManagedPool) : ManagedPool :=
  mkPool (mp_id p) (mp_cluster_id p) (mp_deployment p) (mp_generation p) (mp_state p)
    (mp_binding p) (mp_endpoint p) (mp_expected_spec p) (mp_desired_version p)
    (mp_deployment_uid p) (mp_ready_until p) x (mp_observation_until p) (mp_observation_code p)
    (mp_observed_at p) (mp_updated_at p) (mp_scale_operation p) (mp_idle_requested_after p).
Definition set_mp_observation_until (x : option Z) (p : ManagedPool) : ManagedPool :=
  mkPool (mp_id p) (mp_cluster_id p) (mp_deployment p) (mp_generation p) (mp_state p)
    (mp_binding p) (mp_endpoint p) (mp_expected_spec p) (mp_desired_version p)
    (mp_deployment_uid p) (mp_ready_until p) (mp_observation_nonce p) x (mp_observation_code p)
    (mp_observed_at p) (mp_updated_at p) (mp_scale_operation p) (mp_idle_requested_after p).
Definition set_mp_observation_code (x : string) (p : ManagedPool) : ManagedPool :=
  mkPool (mp_id p) (mp_cluster_id p) (mp_deployment p) (mp_generation p) (mp_state p)
    (mp_binding p) (mp_endpoint p) (mp_expected_spec p) (mp_desired_version p)
    (mp_deployment_uid p) (mp_ready_until p) (mp_observation_nonce p) (mp_observation_until p) x
    (mp_observed_at p) (mp_updated_at p) (mp_scale_operation p) (mp_idle_requested_after p).
Definition set_mp_observed_at (x : option Z) (p : ManagedPool) : ManagedPool :=
  mkPool (mp_id p) (mp_cluster_id p) (mp_deployment p) (mp_generation p) (mp_state p)
    (mp_binding p) (mp_endpoint p) (mp_expected_spec p) (mp_desired_version p)
    (mp_deployment_uid p) (mp_ready_until p) (mp_observation_nonce p) (mp_observation_until p)
    (mp_observation_code p) x (mp_updated_at p) (mp_scale_operation p) (mp_idle_requested_after p).
Definition set_mp_updated_at (x : Z) (p : ManagedPool) : ManagedPool :=
  mkPool (mp_id p) (mp_cluster_id p) (mp_deployment p) (mp_generation p) (mp_state p)
    (mp_binding p) (mp_endpoint p) (mp_expected_spec p) (mp_desired_version p)
    (mp_deployment_uid p) (mp_ready_until p) (mp_observation_nonce p) (mp_observation_until p)
    (mp_observation_code p) (mp_observed_at p) x (mp_scale_operation p)
    (mp_idle_requested_after p).
Definition set_mp_scale_operation (x : option ScaleOperation) (p : ManagedPool) : ManagedPool :=
  mkPool (mp_id p) (mp_cluster_id p) (mp_deployment p) (mp_generation p) (mp_state p)
    (mp_binding p) (mp_endpoint p) (mp_expected_spec p) (mp_desired_version p)
    (mp_deployment_uid p) (mp_ready_until p) (mp_observation_nonce p) (mp_observation_until p)
    (mp_observation_code p) (mp_observed_at p) (mp_updated_at p) x (mp_idle_requested_after p).
Definition set_mp_idle_requested_after (x : option Z) (p : ManagedPool) : ManagedPool :=
  mkPool (mp_id p) (mp_cluster_id p) (mp_deployment p) (mp_generation p) (mp_state p)
    (mp_binding p) (mp_endpoint p) (mp_expected_spec p) (mp_desired_version p)
    (mp_deployment_uid p) (mp_ready_until p) (mp_observation_nonce p) (mp_observation_until p)
    (mp_observation_code p) (mp_observed_at p) (mp_updated_at p) (mp_scale_operation p) x.

Definition set_cl_credential_hash (x : string) (c : Cluster) : Cluster :=
  mkCluster (cl_id c) (cl_namespace c) x (cl_credential_epoch c) (cl_expires_at c)
    (cl_revoked_at c) (cl_desired_version c) (cl_acknowledged_version c) (cl_delivery_version c)
    (cl_delivery_lease c) (cl_lease_until c) (cl_heartbeat_at c) (cl_last_error c)
    (cl_created_at c) (cl_updated_at c).
Definition set_cl_credential_epoch (x : Z) (c : Cluster) : Cluster :=
  mkCluster (cl_id c) (cl_namespace c) (cl_credential_hash c) x (cl_expires_at c)
    (cl_revoked_at c) (cl_desired_version c) (cl_acknowledged_version c) (cl_delivery_version c)
    (cl_delivery_lease c) (cl_lease_until c) (cl_heartbeat_at c) (cl_last_error c)
    (cl_created_at c) (cl_updated_at c).
Definition set_cl_expires_at (x : Z) (c : Cluster) : Cluster :=
  mkCluster (cl_id c) (cl_namespace c) (cl_credential_hash c) (cl_credential_epoch c) x
    (cl_revoked_at c) (cl_desired_version c) (cl_acknowledged_version c) (cl_delivery_version c)
    (cl_delivery_lease c) (cl_lease_until c) (cl_heartbeat_at c) (cl_last_error c)
    (cl_created_at c) (cl_updated_at c).
Definition set_cl_revoked_at (x : option Z) (c : Cluster) : Cluster :=
  mkCluster (cl_id c) (cl_namespace c) (cl_credential_hash c) (cl_credential_epoch c)
    (cl_expires_at c) x (cl_desired_version c) (cl_acknowledged_version c) (cl_delivery_version c)
    (cl_delivery_lease c) (cl_lease_until c) (cl_heartbeat_at c) (cl_last_error c)
    (cl_created_at c) (cl_updated_at c).
Definition set_cl_desired_version (x : Z) (c : Cluster) : Cluster :=
  mkCluster (cl_id c) (cl_namespace c) (cl_credential_hash c) (cl_credential_epoch c)
    (cl_expires_at c) (cl_revoked_at c) x (cl_acknowledged_version c) (cl_delivery_version c)
    (cl_delivery_lease c) (cl_lease_until c) (cl_heartbeat_at c) (cl_last_error c)
    (cl_created_at c) (cl_updated_at c).
Definition set_cl_acknowledged_version (x : Z) (c : Cluster) : Cluster :=
  mkCluster (cl_id c) (cl_namespace c) (cl_credential_hash c) (cl_credential_epoch c)
    (cl_expires_at c) (cl_revoked_at c) (cl_desired_version c) x (cl_delivery_version c)
    (cl_delivery_lease c) (cl_lease_until c) (cl_heartbeat_at c) (cl_last_error c)
    (cl_created_at c) (cl_updated_at c).
Definition set_cl_delivery_version (x : Z) (c : Cluster) : Cluster :=
  mkCluster (cl_id c) (cl_namespace c) (cl_credential_hash c) (cl_credential_epoch c)
    (cl_expires_at c) (cl_revoked_at c) (cl_desired_version c) (cl_acknowledged_version c) x
    (cl_delivery_lease c) (cl_lease_until c) (cl_heartbeat_at c) (cl_last_error c)
    (cl_created_at c) (cl_updated_at c).
Definition set_cl_delivery_lease (x : option string) (c : Cluster) : Cluster :=
  mkCluster (cl_id c) (cl_namespace c) (cl_credential_hash c) (cl_credential_epoch c)
    (cl_expires_at c) (cl_revoked_at c) (cl_desired_version c) (cl_acknowledged_version c)
    (cl_delivery_version c) x (cl_lease_until c) (cl_heartbeat_at c) (cl_last_error c)
    (cl_created_at c) (cl_updated_at c).
Definition set_cl_lease_until (x : option Z) (c : Cluster) : Cluster :=
  mkCluster (cl_id c) (cl_namespace c) (cl_credential_hash c) (cl_credential_epoch c)
    (cl_expires_at c) (cl_revoked_at c) (cl_desired_version c) (cl_acknowledged_version c)
    (cl_delivery_version c) (cl_delivery_lease c) x (cl_heartbeat_at c) (cl_last_error c)
    (cl_created_at c) (cl_updated_at c).
Definition set_cl_heartbeat_at (x : option Z) (c : Cluster) : Cluster :=
  mkCluster (cl_id c) (cl_namespace c) (cl_credential_hash c) (cl_credential_epoch c)
    (cl_expires_at c) (cl_revoked_at c) (cl_desired_version c) (cl_acknowledged_version c)
    (cl_delivery_version c) (cl_delivery_lease c) (cl_lease_until c) x (cl_last_error c)
    (cl_created_at c) (cl_updated_at c).
Definition set_cl_last_error (x : option string) (c : Cluster) : Cluster :=
  mkCluster (cl_id c) (cl_namespace c) (cl_credential_hash c) (cl_credential_epoch c)
    (cl_expires_at c) (cl_revoked_at c) (cl_desired_version c) (cl_acknowledged_version c)
    (cl_delivery_version c) (cl_delivery_lease c) (cl_lease_until c) (cl_heartbeat_at c) x
    (cl_created_at c) (cl_updated_at c).
Definition set_cl_updated_at (x : Z) (c : Cluster) : Cluster :=
  mkCluster (cl_id c) (cl_namespace c) (cl_credential_hash c) (cl_credential_epoch c)
    (cl_expires_at c) (cl_revoked_at c) (cl_desired_version c) (cl_acknowledged_version c)
    (cl_delivery_version c) (cl_delivery_lease c) (cl_lease_until c) (cl_heartbeat_at c)
    (cl_last_error c) (cl_created_at c) x.

Definition set_sn_sequence (x : Z) (s : Session) : Session :=
  mkSession x (sn_closed s) (sn_nonce s) (sn_reported s) (sn_delivered_routes s)
    (sn_acknowledged_routes s) (sn_delivered_at s) (sn_identity s) (sn_runtime s) (sn_proof s)
    (sn_proof_nonce s) (sn_proof_until s) (sn_gateway_cluster_id s) (sn_proof_complete s).
Definition set_sn_closed (x : bool) (s : Session) : Session :=
  mkSession (sn_sequence s) x (sn_nonce s) (sn_reported s) (sn_delivered_routes s)
    (sn_acknowledged_routes s) (sn_delivered_at s) (sn_identity s) (sn_runtime s) (sn_proof s)
    (sn_proof_nonce s) (sn_proof_until s) (sn_gateway_cluster_id s) (sn_proof_complete s).
Definition set_sn_nonce (x : string) (s : Session) : Session :=
  mkSession (sn_sequence s) (sn_closed s) x (sn_reported s) (sn_delivered_routes s)
    (sn_acknowledged_routes s) (sn_delivered_at s) (sn_identity s) (sn_runtime s) (sn_proof s)
    (sn_proof_nonce s) (sn_proof_until s) (sn_gateway_cluster_id s) (sn_proof_complete s).
Definition set_sn_reported (x : option TrafficReport) (s : Session) : Session :=
  mkSession (sn_sequence s) (sn_closed s) (sn_nonce s) x (sn_delivered_routes s)
    (sn_acknowledged_routes s) (sn_delivered_at s) (sn_identity s) (sn_runtime s) (sn_proof s)
    (sn_proof_nonce s) (sn_proof_until s) (sn_gateway_cluster_id s) (sn_proof_complete s).
Definition set_sn_delivered_routes (x : list RouteVersion) (s : Session) : Session :=
  mkSession (sn_sequence s) (sn_closed s) (sn_nonce s) (sn_reported s) x
    (sn_acknowledged_routes s) (sn_delivered_at s) (sn_identity s) (sn_runtime s) (sn_proof s)
    (sn_proof_nonce s) (sn_proof_until s) (sn_gateway_cluster_id s) (sn_proof_complete s).
Definition set_sn_acknowledged_routes (x : list RouteVersion) (s : Session) : Session :=
  mkSession (sn_sequence s) (sn_closed s) (sn_nonce s) (sn_reported s) (sn_delivered_routes s) x
    (sn_delivered_at s) (sn_identity s) (sn_runtime s) (sn_proof s) (sn_proof_nonce s)
    (sn_proof_until s) (sn_gateway_cluster_id s) (sn_proof_complete s).
Definition set_sn_delivered_at (x : Z) (s : Session) : Session :=
  mkSession (sn_sequence s) (sn_closed s) (sn_nonce s) (sn_reported s) (sn_delivered_routes s)
    (sn_acknowledged_routes s) x (sn_identity s) (sn_runtime s) (sn_proof s) (sn_proof_nonce s)
    (sn_proof_until s) (sn_gateway_cluster_id s) (sn_proof_complete s).
Definition set_sn_runtime (x : option GatewayRuntime) (s : Session) : Session :=
  mkSession (sn_sequence s) (sn_closed s) (sn_nonce s) (sn_reported s) (sn_delivered_routes s)
    (sn_acknowledged_routes s) (sn_delivered_at s) (sn_identity s) x (sn_proof s)
    (sn_proof_nonce s) (sn_proof_until s) (sn_gateway_cluster_id s) (sn_proof_complete s).
Definition set_sn_proof (x : option TerminationProof) (s : Session) : Session :=
  mkSession (sn_sequence s) (sn_closed s) (sn_nonce s) (sn_reported s) (sn_delivered_routes s)
    (sn_acknowledged_routes s) (sn_delivered_at s) (sn_identity s) (sn_runtime s) x
    (sn_proof_nonce s) (sn_proof_until s) (sn_gateway_cluster_id s) (sn_proof_complete s).
Definition set_sn_proof_nonce (x : option string) (s : Session) : Session :=
  mkSession (sn_sequence s) (sn_closed s) (sn_nonce s) (sn_reported s) (sn_delivered_routes s)
    (sn_acknowledged_routes s) (sn_delivered_at s) (sn_identity s) (sn_runtime s) (sn_proof s) x
    (sn_proof_until s) (sn_gateway_cluster_id s) (sn_proof_complete s).
Definition set_sn_proof_until (x : option Z) (s : Session) : Session :=
  mkSession (sn_sequence s) (sn_closed s) (sn_nonce s) (sn_reported s) (sn_delivered_routes s)
    (sn_acknowledged_routes s) (sn_delivered_at s) (sn_identity s) (sn_runtime s) (sn_proof s)
    (sn_proof_nonce s) x (sn_gateway_cluster_id s) (sn_proof_complete s).
Definition set_sn_proof_complete (x : bool) (s : Session) : Session :=
  mkSession (sn_sequence s) (sn_closed s) (sn_nonce s) (sn_reported s) (sn_delivered_routes s)
    (sn_acknowledged_routes s) (sn_delivered_at s) (sn_identity s) (sn_runtime s) (sn_proof s)
    (sn_proof_nonce s) (sn_proof_until s) (sn_gateway_cluster_id s) x.

(** ** The registry *)

(** The tables of the registry; the guard row that [registry_lock] takes is
    always there and serializes, so it has no table here. *)
Record Registry := mkRegistry {
  routes : gmap (string * string) RouteRow;
  route_revisions : gmap (string * string * Z) RouteRevision;
  endpoints : gmap string EndpointRow;
  pools : gmap string ManagedPool;
  clusters : gmap string Cluster;
  cluster_revisions : gmap (string * Z) ClusterRevision;
  sessions : gmap string Session;
  views : gmap (string * string) PoolView;
  grants : gmap string Grant }.

Definition empty_registry : Registry := mkRegistry ∅ ∅ ∅ ∅ ∅ ∅ ∅ ∅ ∅.

Definition put_routes (v : gmap (string * string) RouteRow) (r : Registry) : Registry :=
  mkRegistry v (route_revisions r) (endpoints r) (pools r) (clusters r)
    (cluster_revisions r) (sessions r) (views r) (grants r).
Definition put_route_revisions (v : gmap (string * string * Z) RouteRevision) (r : Registry) : Registry :=
  mkRegistry (routes r) v (endpoints r) (pools r) (clusters r) (cluster_revisions r)
    (sessions r) (views r) (grants r).
Definition put_endpoints (v : gmap string EndpointRow) (r : Registry) : Registry :=
  mkRegistry (routes r) (route_revisions r) v (pools r) (clusters r) (cluster_revisions r)
    (sessions r) (views r) (grants r).
Definition put_pools (v : gmap string ManagedPool) (r : Registry) : Registry :=
  mkRegistry (routes r) (route_revisions r) (endpoints r) v (clusters r)
    (cluster_revisions r) (sessions r) (views r) (grants r).
Definition put_clusters (v : gmap string Cluster) (r : Registry) : Registry :=
  mkRegistry (routes r) (route_revisions r) (endpoints r) (pools r) v
    (cluster_revisions r) (sessions r) (views r) (grants r).
Definition put_cluster_revisions (v : gmap (string * Z) ClusterRevision) (r : Registry) : Registry :=
  mkRegistry (routes r) (route_revisions r) (endpoints r) (pools r) (clusters r) v
    (sessions r) (views r) (grants r).
Definition put_sessions (v : gmap string Session) (r : Registry) : Registry :=
  mkRegistry (routes r) (route_revisions r) (endpoints r) (pools r) (clusters r)
    (cluster_revisions r) v (views r) (grants r).
Definition put_views (v : gmap (string * string) PoolView) (r : Registry) : Registry :=
  mkRegistry (routes r) (route_revisions r) (endpoints r) (pools r) (clusters r)
    (cluster_revisions r) (sessions r) v (grants r).
Definition put_grants (v : gmap string Grant) (r : Registry) : Registry :=
  mkRegistry (routes r) (route_revisions r) (endpoints r) (pools r) (clusters r)
    (cluster_revisions r) (sessions r) (views r) v.
