(* ===== verification/Store.v ===== *)
(** * Store: the tables of the ledger database and its transactions

    The rows of [crates/entities] that the money path reads and writes, one
    field per table in [Db], and the transaction monad [Tx]: a handler is a
    function of the database that returns its answer with the database it
    commits, or an error, which rolls everything back.  A handler takes the
    account row lock before it reads money, so handlers of one account run
    one after the other and a transaction is one step of the model.

    A column that holds a serialized request or price is typed with that
    request or price, since serialization of one type is injective; a column
    with a closed set of texts is an inductive type.  A unique index is
    checked where a handler inserts; foreign keys are not modelled. *)

From S2P Require Import Prelude Domain Fleet.
Local Open Scope Z_scope.

(** ** Errors of the service *)

Inductive ServiceError :=
| Invalid (message : string)
| NotFound
| Conflict (message : string)
| InsufficientFunds (message : string)
| Unauthorized
| Forbidden
| InternalAuthUnavailable
| InvalidInternalToken
| Dependency (message : string)
| Database
| Internal (message : string).

Definition DomainError_message (e : DomainError) : string :=
  match e with
  | Required field => field +:+ " is required"
  | UnsupportedCurrency => "unsupported currency"
  | NegativeAmount => "amount must be non-negative"
  | NegativeTokens => "token counts must be non-negative"
  | CostOverflow => "usage cost exceeds supported range"
  | InvalidRpm => "rate_limit_rpm must be between 1 and 1000000"
  | InvalidTpm => "rate_limit_tpm must be between 1 and 10000000000"
  | InvalidExpiry => "expires_at must be in the future"
  | InvalidScope => "unsupported API key scope"
  | MissingModel => "at least one allowed model is required"
  end.

Definition ServiceError_from (e : DomainError) : ServiceError :=
  Invalid (DomainError_message e).

(** The status code and error code of a response ([IntoResponse]). *)
Definition error_response (e : ServiceError) : Z * string :=
  match e with
  | Invalid _ => (400, "invalid_request")
  | NotFound => (404, "not_found")
  | Conflict _ => (409, "conflict")
  | InsufficientFunds _ => (402, "billing_limit_exceeded")
  | Unauthorized => (401, "authentication_required")
  | Forbidden => (403, "forbidden")
  | InternalAuthUnavailable => (503, "internal_auth_unavailable")
  | InvalidInternalToken => (401, "invalid_internal_token")
  | Dependency _ => (503, "dependency_unavailable")
  | Database => (503, "database_unavailable")
  | Internal _ => (500, "internal_error")
  end%string.

(** [conflict_or_database] of the error a violated unique index raises. *)
Definition duplicate_row : ServiceError := Conflict "resource already exists".

(** ** Rows *)

Record ProjectRow := mkProjectRow {
  pj_id : string;
  pj_tenant_id : string;
  pj_name : string;
  pj_created_at : Z }.

Record ApiKeyRow := mkApiKeyRow {
  ak_id : string;
  ak_tenant_id : string;
  ak_project_id : string;
  ak_name : string;
  ak_secret_hash : string;
  ak_scopes : list string;
  ak_allowed_models : list string;
  ak_expires_at : option Z;
  ak_rate_limit_rpm : Z;
  ak_rate_limit_tpm : Z;
  ak_monthly_budget_amount : Z;
  ak_currency : string;
  ak_created_at : Z;
  ak_revoked_at : option Z }.

Record Account := mkAccount {
  ac_id : string;
  ac_tenant_id : string;
  ac_project_id : string;
  ac_currency : string;
  ac_enforce_balance : bool;
  ac_status : string;
  ac_created_at : Z;
  ac_updated_at : Z }.

Record CatalogRow := mkCatalogRow {
  ca_revision : Z;
  ca_enabled : bool;
  ca_default_pool : option string;
  ca_definition : Model;
  ca_updated_at : Z }.

Inductive ReservationState := Reserved | Dispatched | Released | Settled | Waived.
#[export] Instance ReservationState_eq_dec : EqDecision ReservationState.
Proof. solve_decision. Defined.

Record Reservation := mkReservation {
  rv_id : string;
  rv_billing_account_id : string;
  rv_project_id : string;
  rv_tenant_id : string;
  rv_api_key_id : string;
  rv_request_id : string;
  rv_spec : ReserveRequest;
  rv_price : Model;
  rv_reserved_microunits : Z;
  rv_settled_microunits : option Z;
  rv_state : ReservationState;
  rv_completion : option Json;
  rv_created_at : Z;
  rv_updated_at : Z }.

Record UsageRow := mkUsageRow {
  us_event_id : string;
  us_request_id : string;
  us_occurred_at : Z;
  us_tenant_id : string;
  us_project_id : string;
  us_api_key_id : string;
  us_model_id : string;
  us_model_revision : string;
  us_endpoint_id : string;
  us_region : string;
  us_price_version : string;
  us_input_tokens : Z;
  us_output_tokens : Z;
  us_cached_input_tokens : Z;
  us_latency_ms : Z;
  us_status : string;
  us_cost_amount : Z;
  us_cost_microunits : Z;
  us_currency : string;
  us_received_at : Z }.

Record LedgerTransaction := mkLedgerTransaction {
  lt_id : string;
  lt_tenant_id : string;
  lt_kind : string;
  lt_reference_type : string;
  lt_reference_id : string;
  lt_idempotency_key : string;
  lt_currency : string;
  lt_description : string;
  lt_created_at : Z }.

Record LedgerEntry := mkLedgerEntry {
  le_id : string;
  le_transaction_id : string;
  le_billing_account_id : string;
  le_ledger_account : string;
  le_amount_microunits : Z;
  le_currency : string;
  le_created_at : Z }.

Record Balance := mkBalance {
  ba_balance_microunits : Z;
  ba_held_microunits : Z;
  ba_updated_at : Z }.

Record KeyHold := mkKeyHold { kh_held_microunits : Z; kh_updated_at : Z }.

Record MonthSpend := mkMonthSpend { ms_spent_microunits : Z; ms_updated_at : Z }.

Record EventRow := mkEventRow {
  ev_billing_account_id : string;
  ev_sequence : Z;
  ev_kind : string;
  ev_aggregate_id : string;
  ev_payload : Json;
  ev_created_at : Z }.

Inductive JobState := JobPending | JobRunning | JobIdle | JobDead.
#[export] Instance JobState_eq_dec : EqDecision JobState.
Proof. solve_decision. Defined.

Record Job := mkJob {
  jb_acknowledged : Z;
  jb_target_sequence : Z;
  jb_lease_epoch : Z;
  jb_lease_through : Z;
  jb_lease_token : option string;
  jb_lease_until : option Z;
  jb_available_at : Z;
  jb_state : JobState;
  jb_attempts : Z;
  jb_last_error : option string;
  jb_updated_at : Z }.

Record Effect := mkEffect {
  ef_kind : string;
  ef_payload_sha256 : string;
  ef_processed_at : Z }.

Record Consumer := mkConsumer {
  cn_acknowledged : Z;
  cn_delivered : Z;
  cn_updated_at : Z }.

(** The submissions a review stores as its evidence document. *)
Record EvidenceRequest := mkEvidence {
  eq_id : string;
  eq_source : string;
  eq_source_request_id : string;
  eq_document : string;
  eq_explanation : string;
  eq_usage : SettleRequest }.

Record WaiverRequest := mkWaiver {
  wr_id : string;
  wr_reason : string;
  wr_incident_reference : string;
  wr_request_terminated : bool;
  wr_platform_absorbs_loss : bool }.

Record DecisionRequest := mkDecision {
  dr_evidence_sha256 : string;
  dr_action : string;
  dr_reason : string }.

#[export] Instance SettleRequest_eq_dec : EqDecision SettleRequest.
Proof. solve_decision. Defined.
#[export] Instance EvidenceRequest_eq_dec : EqDecision EvidenceRequest.
Proof. solve_decision. Defined.
#[export] Instance WaiverRequest_eq_dec : EqDecision WaiverRequest.
Proof. solve_decision. Defined.
#[export] Instance DecisionRequest_eq_dec : EqDecision DecisionRequest.
Proof. solve_decision. Defined.

(** A waiver document carries the extra field [kind = loss_waiver]. *)
Inductive Evidence :=
| UsageEvidence (request : EvidenceRequest)
| LossWaiver (request : WaiverRequest).
#[export] Instance Evidence_eq_dec : EqDecision Evidence.
Proof. solve_decision. Defined.

Inductive ReviewState := ReviewSubmitted | ReviewRejected | ReviewSettled | ReviewWaived.
#[export] Instance ReviewState_eq_dec : EqDecision ReviewState.
Proof. solve_decision. Defined.

Record Review := mkReview {
  rw_id : string;
  rw_reservation_id : string;
  rw_project_id : string;
  rw_submitted_by : string;
  rw_evidence : Evidence;
  rw_evidence_sha256 : string;
  rw_state : ReviewState;
  rw_reviewed_by : option string;
  rw_decision : option DecisionRequest;
  rw_created_at : Z;
  rw_updated_at : Z }.

Record ReviewAudit := mkReviewAudit {
  ra_review_id : string;
  ra_sequence : Z;
  ra_kind : ReviewState;
  ra_actor_id : string;
  ra_payload : Json;
  ra_created_at : Z }.

Record OperationAudit := mkOperationAudit {
  oa_id : string;
  oa_actor_id : string;
  oa_action : string;
  oa_resource_id : string;
  oa_payload : Json;
  oa_created_at : Z }.

Record Order := mkOrder {
  od_id : string;
  od_tenant_id : string;
  od_project_id : string;
  od_kind : string;
  od_amount : Z;
  od_currency : string;
  od_status : string;
  od_description : string;
  od_created_at : Z;
  od_updated_at : Z }.

Record Payment := mkPayment {
  py_id : string;
  py_order_id : string;
  py_provider : string;
  py_provider_reference : string;
  py_amount : Z;
  py_currency : string;
  py_status : string;
  py_paid_at : option Z;
  py_created_at : Z }.

Record Refund := mkRefund {
  rf_id : string;
  rf_payment_id : string;
  rf_amount : Z;
  rf_currency : string;
  rf_reason : string;
  rf_status : string;
  rf_provider_reference : option string;
  rf_created_at : Z;
  rf_completed_at : option Z }.

Record Checkout := mkCheckout {
  ck_profile : string;
  ck_environment : string;
  ck_state : string;
  ck_qr_code : option string;
  ck_created_at : Z;
  ck_updated_at : Z }.

Record Receipt := mkReceipt {
  rc_order_id : string;
  rc_profile : string;
  rc_trade_id : string;
  rc_state : string;
  rc_amount_minor : Z;
  rc_proof_sha256 : string;
  rc_evidence : Json;
  rc_created_at : Z }.

(** ** The database *)

Record Db := mkDb {
  projects : gmap string ProjectRow;
  api_keys : gmap string ApiKeyRow;
  accounts : gmap string Account;
  catalog : gmap string CatalogRow;
  prices : gmap (string * string) Model;
  reservations : gmap string Reservation;
  usage_events : list UsageRow;
  ledger_transactions : list LedgerTransaction;
  ledger_entries : list LedgerEntry;
  balances : gmap string Balance;
  key_holds : gmap string KeyHold;
  month_spends : gmap (string * Z) MonthSpend;
  events : list EventRow;
  jobs : gmap string Job;
  effects : gmap (string * Z) Effect;
  consumers : gmap (string * string) Consumer;
  reviews : gmap string Review;
  review_audits : list ReviewAudit;
  operation_audits : list OperationAudit;
  orders : gmap string Order;
  payments : gmap string Payment;
  refunds : gmap string Refund;
  checkouts : gmap string Checkout;
  receipts : gmap string Receipt;
  control : Registry }.

Definition empty_db : Db :=
  mkDb ∅ ∅ ∅ ∅ ∅ ∅ [] [] [] ∅ ∅ ∅ [] ∅ ∅ ∅ ∅ [] [] ∅ ∅ ∅ ∅ ∅ empty_registry.

Definition set_projects (v : gmap string ProjectRow) (d : Db) : Db :=
  mkDb v (api_keys d) (accounts d) (catalog d) (prices d) (reservations d)
    (usage_events d) (ledger_transactions d) (ledger_entries d)
    (balances d) (key_holds d) (month_spends d) (events d) (jobs d)
    (effects d) (consumers d) (reviews d) (review_audits d)
    (operation_audits d) (orders d) (payments d) (refunds d) (checkouts d)
    (receipts d) (control d).
Definition set_api_keys (v : gmap string ApiKeyRow) (d : Db) : Db :=
  mkDb (projects d) v (accounts d) (catalog d) (prices d) (reservations d)
    (usage_events d) (ledger_transactions d) (ledger_entries d)
    (balances d) (key_holds d) (month_spends d) (events d) (jobs d)
    (effects d) (consumers d) (reviews d) (review_audits d)
    (operation_audits d) (orders d) (payments d) (refunds d) (checkouts d)
    (receipts d) (control d).
Definition set_accounts (v : gmap string Account) (d : Db) : Db :=
  mkDb (projects d) (api_keys d) v (catalog d) (prices d) (reservations d)
    (usage_events d) (ledger_transactions d) (ledger_entries d)
    (balances d) (key_holds d) (month_spends d) (events d) (jobs d)
    (effects d) (consumers d) (reviews d) (review_audits d)
    (operation_audits d) (orders d) (payments d) (refunds d) (checkouts d)
    (receipts d) (control d).
Definition set_catalog (v : gmap string CatalogRow) (d : Db) : Db :=
  mkDb (projects d) (api_keys d) (accounts d) v (prices d)
    (reservations d) (usage_events d) (ledger_transactions d)
    (ledger_entries d) (balances d) (key_holds d) (month_spends d)
    (events d) (jobs d) (effects d) (consumers d) (reviews d)
    (review_audits d) (operation_audits d) (orders d) (payments d)
    (refunds d) (checkouts d) (receipts d) (control d).
Definition set_prices (v : gmap (string * string) Model) (d : Db) : Db :=
  mkDb (projects d) (api_keys d) (accounts d) (catalog d) v
    (reservations d) (usage_events d) (ledger_transactions d)
    (ledger_entries d) (balances d) (key_holds d) (month_spends d)
    (events d) (jobs d) (effects d) (consumers d) (reviews d)
    (review_audits d) (operation_audits d) (orders d) (payments d)
    (refunds d) (checkouts d) (receipts d) (control d).
Definition set_reservations (v : gmap string Reservation) (d : Db) : Db :=
  mkDb (projects d) (api_keys d) (accounts d) (catalog d) (prices d) v
    (usage_events d) (ledger_transactions d) (ledger_entries d)
    (balances d) (key_holds d) (month_spends d) (events d) (jobs d)
    (effects d) (consumers d) (reviews d) (review_audits d)
    (operation_audits d) (orders d) (payments d) (refunds d) (checkouts d)
    (receipts d) (control d).
Definition set_usage_events (v : list UsageRow) (d : Db) : Db :=
  mkDb (projects d) (api_keys d) (accounts d) (catalog d) (prices d)
    (reservations d) v (ledger_transactions d) (ledger_entries d)
    (balances d) (key_holds d) (month_spends d) (events d) (jobs d)
    (effects d) (consumers d) (reviews d) (review_audits d)
    (operation_audits d) (orders d) (payments d) (refunds d) (checkouts d)
    (receipts d) (control d).
Definition set_ledger_transactions (v : list LedgerTransaction) (d : Db) : Db :=
  mkDb (projects d) (api_keys d) (accounts d) (catalog d) (prices d)
    (reservations d) (usage_events d) v (ledger_entries d) (balances d)
    (key_holds d) (month_spends d) (events d) (jobs d) (effects d)
    (consumers d) (reviews d) (review_audits d) (operation_audits d)
    (orders d) (payments d) (refunds d) (checkouts d) (receipts d)
    (control d).
Definition set_ledger_entries (v : list LedgerEntry) (d : Db) : Db :=
  mkDb (projects d) (api_keys d) (accounts d) (catalog d) (prices d)
    (reservations d) (usage_events d) (ledger_transactions d) v
    (balances d) (key_holds d) (month_spends d) (events d) (jobs d)
    (effects d) (consumers d) (reviews d) (review_audits d)
    (operation_audits d) (orders d) (payments d) (refunds d) (checkouts d)
    (receipts d) (control d).
Definition set_balances (v : gmap string Balance) (d : Db) : Db :=
  mkDb (projects d) (api_keys d) (accounts d) (catalog d) (prices d)
    (reservations d) (usage_events d) (ledger_transactions d)
    (ledger_entries d) v (key_holds d) (month_spends d) (events d)
    (jobs d) (effects d) (consumers d) (reviews d) (review_audits d)
    (operation_audits d) (orders d) (payments d) (refunds d) (checkouts d)
    (receipts d) (control d).
Definition set_key_holds (v : gmap string KeyHold) (d : Db) : Db :=
  mkDb (projects d) (api_keys d) (accounts d) (catalog d) (prices d)
    (reservations d) (usage_events d) (ledger_transactions d)
    (ledger_entries d) (balances d) v (month_spends d) (events d) (jobs d)
    (effects d) (consumers d) (reviews d) (review_audits d)
    (operation_audits d) (orders d) (payments d) (refunds d) (checkouts d)
    (receipts d) (control d).
Definition set_month_spends (v : gmap (string * Z) MonthSpend) (d : Db) : Db :=
  mkDb (projects d) (api_keys d) (accounts d) (catalog d) (prices d)
    (reservations d) (usage_events d) (ledger_transactions d)
    (ledger_entries d) (balances d) (key_holds d) v (events d) (jobs d)
    (effects d) (consumers d) (reviews d) (review_audits d)
    (operation_audits d) (orders d) (payments d) (refunds d) (checkouts d)
    (receipts d) (control d).
Definition set_events (v : list EventRow) (d : Db) : Db :=
  mkDb (projects d) (api_keys d) (accounts d) (catalog d) (prices d)
    (reservations d) (usage_events d) (ledger_transactions d)
    (ledger_entries d) (balances d) (key_holds d) (month_spends d) v
    (jobs d) (effects d) (consumers d) (reviews d) (review_audits d)
    (operation_audits d) (orders d) (payments d) (refunds d) (checkouts d)
    (receipts d) (control d).
Definition set_jobs (v : gmap string Job) (d : Db) : Db :=
  mkDb (projects d) (api_keys d) (accounts d) (catalog d) (prices d)
    (reservations d) (usage_events d) (ledger_transactions d)
    (ledger_entries d) (balances d) (key_holds d) (month_spends d)
    (events d) v (effects d) (consumers d) (reviews d) (review_audits d)
    (operation_audits d) (orders d) (payments d) (refunds d) (checkouts d)
    (receipts d) (control d).
Definition set_effects (v : gmap (string * Z) Effect) (d : Db) : Db :=
  mkDb (projects d) (api_keys d) (accounts d) (catalog d) (prices d)
    (reservations d) (usage_events d) (ledger_transactions d)
    (ledger_entries d) (balances d) (key_holds d) (month_spends d)
    (events d) (jobs d) v (consumers d) (reviews d) (review_audits d)
    (operation_audits d) (orders d) (payments d) (refunds d) (checkouts d)
    (receipts d) (control d).
Definition set_consumers (v : gmap (string * string) Consumer) (d : Db) : Db :=
  mkDb (projects d) (api_keys d) (accounts d) (catalog d) (prices d)
    (reservations d) (usage_events d) (ledger_transactions d)
    (ledger_entries d) (balances d) (key_holds d) (month_spends d)
    (events d) (jobs d) (effects d) v (reviews d) (review_audits d)
    (operation_audits d) (orders d) (payments d) (refunds d) (checkouts d)
    (receipts d) (control d).
Definition set_reviews (v : gmap string Review) (d : Db) : Db :=
  mkDb (projects d) (api_keys d) (accounts d) (catalog d) (prices d)
    (reservations d) (usage_events d) (ledger_transactions d)
    (ledger_entries d) (balances d) (key_holds d) (month_spends d)
    (events d) (jobs d) (effects d) (consumers d) v (review_audits d)
    (operation_audits d) (orders d) (payments d) (refunds d) (checkouts d)
    (receipts d) (control d).
Definition set_review_audits (v : list ReviewAudit) (d : Db) : Db :=
  mkDb (projects d) (api_keys d) (accounts d) (catalog d) (prices d)
    (reservations d) (usage_events d) (ledger_transactions d)
    (ledger_entries d) (balances d) (key_holds d) (month_spends d)
    (events d) (jobs d) (effects d) (consumers d) (reviews d) v
    (operation_audits d) (orders d) (payments d) (refunds d) (checkouts d)
    (receipts d) (control d).
Definition set_operation_audits (v : list OperationAudit) (d : Db) : Db :=
  mkDb (projects d) (api_keys d) (accounts d) (catalog d) (prices d)
    (reservations d) (usage_events d) (ledger_transactions d)
    (ledger_entries d) (balances d) (key_holds d) (month_spends d)
    (events d) (jobs d) (effects d) (consumers d) (reviews d)
    (review_audits d) v (orders d) (payments d) (refunds d) (checkouts d)
    (receipts d) (control d).
Definition set_orders (v : gmap string Order) (d : Db) : Db :=
  mkDb (projects d) (api_keys d) (accounts d) (catalog d) (prices d)
    (reservations d) (usage_events d) (ledger_transactions d)
    (ledger_entries d) (balances d) (key_holds d) (month_spends d)
    (events d) (jobs d) (effects d) (consumers d) (reviews d)
    (review_audits d) (operation_audits d) v (payments d) (refunds d)
    (checkouts d) (receipts d) (control d).
Definition set_payments (v : gmap string Payment) (d : Db) : Db :=
  mkDb (projects d) (api_keys d) (accounts d) (catalog d) (prices d)
    (reservations d) (usage_events d) (ledger_transactions d)
    (ledger_entries d) (balances d) (key_holds d) (month_spends d)
    (events d) (jobs d) (effects d) (consumers d) (reviews d)
    (review_audits d) (operation_audits d) (orders d) v (refunds d)
    (checkouts d) (receipts d) (control d).
Definition set_refunds (v : gmap string Refund) (d : Db) : Db :=
  mkDb (projects d) (api_keys d) (accounts d) (catalog d) (prices d)
    (reservations d) (usage_events d) (ledger_transactions d)
    (ledger_entries d) (balances d) (key_holds d) (month_spends d)
    (events d) (jobs d) (effects d) (consumers d) (reviews d)
    (review_audits d) (operation_audits d) (orders d) (payments d) v
    (checkouts d) (receipts d) (control d).
Definition set_checkouts (v : gmap string Checkout) (d : Db) : Db :=
  mkDb (projects d) (api_keys d) (accounts d) (catalog d) (prices d)
    (reservations d) (usage_events d) (ledger_transactions d)
    (ledger_entries d) (balances d) (key_holds d) (month_spends d)
    (events d) (jobs d) (effects d) (consumers d) (reviews d)
    (review_audits d) (operation_audits d) (orders d) (payments d)
    (refunds d) v (receipts d) (control d).
Definition set_receipts (v : gmap string Receipt) (d : Db) : Db :=
  mkDb (projects d) (api_keys d) (accounts d) (catalog d) (prices d)
    (reservations d) (usage_events d) (ledger_transactions d)
    (ledger_entries d) (balances d) (key_holds d) (month_spends d)
    (events d) (jobs d) (effects d) (consumers d) (reviews d)
    (review_audits d) (operation_audits d) (orders d) (payments d)
    (refunds d) (checkouts d) v (control d).
Definition set_control (v : Registry) (d : Db) : Db :=
  mkDb (projects d) (api_keys d) (accounts d) (catalog d) (prices d)
    (reservations d) (usage_events d) (ledger_transactions d)
    (ledger_entries d) (balances d) (key_holds d) (month_spends d)
    (events d) (jobs d) (effects d) (consumers d) (reviews d)
    (review_audits d) (operation_audits d) (orders d) (payments d)
    (refunds d) (checkouts d) (receipts d) v.

(** ** Transactions *)

(** What a handler reads from outside the database: the clock, read once per
    transaction, and the random identifiers it draws, in order. *)
Record Env := mkEnv { env_now : Z; env_uuid : nat → string }.

Definition Tx (A : Type) : Type := Db → result ServiceError (A * Db).

#[export] Instance tx_ret : MRet Tx := λ A a d, Ok (a, d).
#[export] Instance tx_bind : MBind Tx := λ A B k m d,
  match m d with
  | Ok (a, d') => k a d'
  | Err e => Err e
  end.

Definition throw {A} (e : ServiceError) : Tx A := λ _, Err e.
Definition gets {A} (f : Db → A) : Tx A := λ d, Ok (f d, d).
Definition modify (f : Db → Db) : Tx unit := λ d, Ok (tt, f d).

(** [ok_or(e)?] on a value that may be missing, [if c { return Err(e) }], and
    [?] on a computation that does not touch the database. *)
Definition found {A} (o : option A) (e : ServiceError) : Tx A :=
  match o with Some a => mret a | None => throw e end.
Definition fail_if (c : bool) (e : ServiceError) : Tx unit :=
  if c then throw e else mret tt.
Definition lift {A} (r : result ServiceError A) : Tx A :=
  match r with Ok a => mret a | Err e => throw e end.
Definition lift_domain {A} (r : result DomainError A) : Tx A :=
  match r with Ok a => mret a | Err e => throw (ServiceError_from e) end.

(** A failed transaction leaves the database as it was. *)
Definition commit {A} (m : Tx A) (d : Db) : Db :=
  match m d with Ok (_, d') => d' | Err _ => d end.

(** Access to the tables of the registry. *)
Definition registry {A} (f : Registry → A) : Tx A := gets (λ d, f (control d)).
Definition write_registry (f : Registry → Registry) : Tx unit :=
  modify (λ d, set_control (f (control d)) d).

Definition insert_operation_audit (a : OperationAudit) : Tx unit :=
  modify (λ d, set_operation_audits (operation_audits d ++ [a]) d).

(** [total]: [SUM(column)::bigint], zero when no row matches. *)
Definition total (sum : Z) : Tx Z := fail_if (negb (in_i64 sum)) Database ;; mret sum.

(** ** Reasoning about transactions *)

Lemma tx_bind_Ok {A B} (m : Tx A) (k : A → Tx B) d b d' :
  (m ≫= k) d = Ok (b, d') ↔ ∃ a d1, m d = Ok (a, d1) ∧ k a d1 = Ok (b, d').
Proof.
  unfold mbind, tx_bind. destruct (m d) as [[a d1]|e]; naive_solver.
Qed.

(** Forward execution: a first step that commits hands over to the rest. *)
Lemma tx_bind_run {A B} (m : Tx A) (k : A → Tx B) d a d1 :
  m d = Ok (a, d1) → (m ≫= k) d = k a d1.
Proof. unfold mbind, tx_bind. by intros ->. Qed.

Lemma tx_ret_Ok {A} (a b : A) d d' : (mret a : Tx A) d = Ok (b, d') ↔ b = a ∧ d' = d.
Proof. unfold mret, tx_ret. naive_solver. Qed.
Lemma throw_Ok {A} e d (r : A * Db) : throw e d = Ok r ↔ False.
Proof. unfold throw. naive_solver. Qed.
Lemma gets_Ok {A} (f : Db → A) d a d' : gets f d = Ok (a, d') ↔ a = f d ∧ d' = d.
Proof. unfold gets. naive_solver. Qed.
Lemma modify_Ok f d u d' : modify f d = Ok (u, d') ↔ d' = f d.
Proof. destruct u. unfold modify. naive_solver. Qed.
Lemma registry_Ok {A} (f : Registry → A) d a d' :
  registry f d = Ok (a, d') ↔ a = f (control d) ∧ d' = d.
Proof. unfold registry. by rewrite gets_Ok. Qed.
Lemma write_registry_Ok f d u d' :
  write_registry f d = Ok (u, d') ↔ d' = set_control (f (control d)) d.
Proof. unfold write_registry. by rewrite modify_Ok. Qed.
Lemma found_Ok {A} (o : option A) e d a d' :
  found o e d = Ok (a, d') ↔ o = Some a ∧ d' = d.
Proof. destruct o; simpl; rewrite ?tx_ret_Ok, ?throw_Ok; naive_solver. Qed.
Lemma fail_if_Ok c e d u d' : fail_if c e d = Ok (u, d') ↔ c = false ∧ d' = d.
Proof. destruct c, u; simpl; rewrite ?tx_ret_Ok, ?throw_Ok; naive_solver. Qed.
Lemma lift_Ok {A} (r : result ServiceError A) d a d' :
  lift r d = Ok (a, d') ↔ r = Ok a ∧ d' = d.
Proof. destruct r; simpl; rewrite ?tx_ret_Ok, ?throw_Ok; naive_solver. Qed.
Lemma lift_domain_Ok {A} (r : result DomainError A) d a d' :
  lift_domain r d = Ok (a, d') ↔ r = Ok a ∧ d' = d.
Proof. destruct r; simpl; rewrite ?tx_ret_Ok, ?throw_Ok; naive_solver. Qed.

Lemma total_Ok s d a d' :
  total s d = Ok (a, d') ↔ a = s ∧ d' = d ∧ i64_min ≤ s ≤ i64_max.
Proof.
  unfold total. rewrite tx_bind_Ok. setoid_rewrite fail_if_Ok.
  setoid_rewrite tx_ret_Ok. setoid_rewrite negb_false_iff.
  setoid_rewrite in_i64_spec. naive_solver.
Qed.

(** [tx_inv H] opens every step of a committed transaction [H]. *)
Ltac tx_step H :=
  lazymatch type of H with
  | mbind _ _ _ = Ok _ =>
      let a := fresh "a" in let d := fresh "d" in let H1 := fresh "Htx" in
      apply tx_bind_Ok in H as (a & d & H1 & H); tx_step H1; tx_step H
  | mret _ _ = Ok _ => apply tx_ret_Ok in H as [? ?]
  | throw _ _ = Ok _ => exfalso; exact (proj1 (throw_Ok _ _ _) H)
  | gets _ _ = Ok _ => apply gets_Ok in H as [? ?]
  | modify _ _ = Ok _ => apply modify_Ok in H
  | registry _ _ = Ok _ => apply registry_Ok in H as [? ?]
  | write_registry _ _ = Ok _ => apply write_registry_Ok in H
  | found _ _ _ = Ok _ => apply found_Ok in H as [? ?]
  | fail_if _ _ _ = Ok _ => apply fail_if_Ok in H as [? ?]
  | lift _ _ = Ok _ => apply lift_Ok in H as [? ?]
  | lift_domain _ _ = Ok _ => apply lift_domain_Ok in H as [? ?]
  | total _ _ = Ok _ => apply total_Ok in H as (? & ? & ?)
  | _ => idtac
  end.
Ltac tx_inv H := tx_step H; subst.

(** [respects R m]: the committed runs of [m] stay within [R]; [preserves f m]
    says that they leave alone what [f] reads. *)
Definition respects {A} (R : relation Db) (m : Tx A) : Prop :=
  ∀ d a d', m d = Ok (a, d') → R d d'.
Definition same {T} (f : Db → T) : relation Db := λ d d', f d' = f d.
Abbreviation preserves f := (respects (same f)).

#[export] Instance same_preorder {T} (f : Db → T) : PreOrder (same f).
Proof. split; [done|]. intros d1 d2 d3 E1 E2. unfold same in *. congruence. Qed.

Lemma respects_bind {A B} R `{!PreOrder R} (m : Tx A) (k : A → Tx B) :
  respects R m → (∀ a, respects R (k a)) → respects R (m ≫= k).
Proof. intros Hm Hk d b d' (a & d1 & H1 & H2)%tx_bind_Ok. etrans; [by eapply Hm|by eapply Hk]. Qed.
Lemma respects_ret {A} R `{!PreOrder R} (a : A) : respects R (mret a).
Proof. intros d b d' Hrun. by tx_inv Hrun. Qed.
Lemma respects_throw {A} R `{!PreOrder R} e : respects R (throw (A := A) e).
Proof. intros d b d' Hrun. by tx_inv Hrun. Qed.
Lemma respects_gets {A} R `{!PreOrder R} (g : Db → A) : respects R (gets g).
Proof. intros d b d' Hrun. by tx_inv Hrun. Qed.
Lemma respects_modify R g : (∀ d, R d (g d)) → respects R (modify g).
Proof. intros Hg d b d' Hrun. tx_inv Hrun. apply Hg. Qed.

Create HintDb frame.
#[export] Hint Resolve respects_ret respects_throw respects_gets : frame.
#[export] Hint Extern 4 (respects (same _) (modify _)) =>
  apply respects_modify; intros; exact eq_refl : frame.
#[export] Hint Unfold found fail_if lift lift_domain total : frame.

(** [frame] proves [respects] by walking through the steps of a handler. *)
Ltac frame := repeat first
  [ solve [eauto with frame typeclass_instances]
  | progress (autounfold with frame)
  | apply respects_bind; [typeclasses eauto| |intros ?]
  | case_match ].

(** [find_by_id(..).filter(column = value)] *)
Lemma filter_row_Some {A} (o : option A) (f : A → string) value x :
  (o ≫= λ r, if str_eqb (f r) value then Some r else None) = Some x ↔
  o = Some x ∧ f x = value.
Proof.
  rewrite bind_Some. split.
  - intros (y & -> & Hy). destruct (str_eqb (f y) value) eqn:E; [|done].
    apply str_eqb_eq in E. naive_solver.
  - intros [-> <-]. exists x. by rewrite str_eqb_refl.
Qed.
