(* ===== verification/Books.v ===== *)
(** * Books: what the tables say, and the invariant that keeps them true

    The queries the money path sums over its history, the check that the
    event worker makes of an event against its source, and [Inv], the
    invariant of the ledger database.  [Inv] is stated with a [Pending]
    record: while a transaction runs, the projections of one account, one
    key and one month may be ahead of history by the recorded amounts; a
    transaction starts and commits with nothing pending. *)

From S2P Require Import Prelude Domain Models Store.
Local Open Scope Z_scope.

(** ** Calendar months

    A month is the instant it starts at.  [month_floor] is the first instant
    of the month of an instant and [month_next] the first instant of the
    month after, which the calendar library refuses at the end of its range. *)
Class Calendar := {
  month_floor : Z → Z;
  month_next : Z → option Z;
  month_floor_idem t : month_floor (month_floor t) = month_floor t;
  month_next_spec p e t :
    month_floor p = p → month_next p = Some e → (p ≤ t < e ↔ month_floor t = p) }.

(** A calendar of thirty-day months, for the concrete runs. *)
Definition MONTH : Z := 2592000000000.
Definition thirty_days : Calendar.
Proof.
  refine {| month_floor t := t `div` MONTH * MONTH; month_next p := Some (p + MONTH) |}.
  - intros t. rewrite Z.div_mul; [done|]. unfold MONTH. lia.
  - intros p e t Hp [= <-]. rewrite <- Hp. unfold MONTH in *.
    pose proof (Z.div_mod t 2592000000000). pose proof (Z.mod_pos_bound t 2592000000000).
    split; [|nia]. intros. f_equal. symmetry.
    apply (Z.div_unique _ _ _ (t - p `div` 2592000000000 * 2592000000000)); lia.
Defined.

(** ** Queries *)

(** [HELD]: the states in which a reservation holds money. *)
Definition is_held (s : ReservationState) : bool :=
  match s with Reserved | Dispatched => true | _ => false end.

Definition customer_amount (a : string) (e : LedgerEntry) : Z :=
  if str_eqb (le_billing_account_id e) a && str_eqb (le_ledger_account e) "customer_balance"
  then le_amount_microunits e else 0.

Definition account_hold (a : string) (r : Reservation) : Z :=
  if str_eqb (rv_billing_account_id r) a && is_held (rv_state r)
  then rv_reserved_microunits r else 0.

Definition api_key_hold (k : string) (r : Reservation) : Z :=
  if str_eqb (rv_api_key_id r) k && is_held (rv_state r)
  then rv_reserved_microunits r else 0.

Definition period_spend (k : string) (from until : Z) (u : UsageRow) : Z :=
  if str_eqb (us_api_key_id u) k && (from <=? us_occurred_at u) && (us_occurred_at u <? until)
  then us_cost_microunits u else 0.

Definition booked (a : string) (d : Db) : Z := zsum (customer_amount a) (ledger_entries d).
Definition held (a : string) (d : Db) : Z := msum (account_hold a) (reservations d).
Definition key_held (k : string) (d : Db) : Z := msum (api_key_hold k) (reservations d).
Definition period_spent (k : string) (from until : Z) (d : Db) : Z :=
  zsum (period_spend k from until) (usage_events d).

Definition account_events (a : string) (d : Db) : list EventRow :=
  filter (λ e, ev_billing_account_id e = a) (events d).

Definition transaction_entries (t : string) (d : Db) : list LedgerEntry :=
  filter (λ e, le_transaction_id e = t) (ledger_entries d).

(** ** The source of an event ([validate_event] of the worker) *)

Definition reservation_source (d : Db) (id account missing mismatch : string)
    : result ServiceError unit :=
  r ← ok_or (reservations d !! id) (Conflict missing);
  require (str_eqb (rv_billing_account_id r) account) (Conflict mismatch).

Definition validate_event (d : Db) (e : EventRow) : result ServiceError unit :=
  if str_eqb (ev_kind e) "ledger.posted" then
    let rows := take 101 (transaction_entries (ev_aggregate_id e) d) in
    require
      (negb ((length rows <? 2)%nat || (100 <? length rows)%nat
             || existsb (λ r, negb (str_eqb (le_billing_account_id r)
                                            (ev_billing_account_id e))) rows
             || negb (zsum le_amount_microunits rows =? 0)))
      (Conflict "ledger integrity verification failed")
  else if str_in (ev_kind e)
    ["reservation.created"; "reservation.dispatched"; "reservation.released";
     "reservation.unresolved"; "reservation.waived"; "reservation.settled"] then
    reservation_source d (ev_aggregate_id e) (ev_billing_account_id e)
      "reservation source missing" "reservation source account mismatch"
  else if str_in (ev_kind e)
    ["review.submitted"; "review.settled"; "review.rejected"; "review.waived"] then
    review ← ok_or (reviews d !! ev_aggregate_id e) (Conflict "review source missing");
    reservation_source d (rw_reservation_id review) (ev_billing_account_id e)
      "review reservation missing" "review source account mismatch"
  else if str_eqb (ev_kind e) "projection.rebuilt" then Ok tt
  else Err (Invalid "unsupported financial event kind; source retained").

(** ** The invariant *)

Definition account_id (project : string) : string := "account-" +:+ project.
Lemma account_id_inj p q : account_id p = account_id q → p = q.
Proof. unfold account_id. by intros H; repeat injection H as H. Qed.

Definition usage_id (reservation : string) : string := "evt-reservation-" +:+ reservation.

(** What a running transaction has not yet written into history. *)
Record Pending := mkPending {
  pd_account : string;
  pd_key : string;
  pd_month : Z;
  pd_balance : Z;
  pd_held : Z;
  pd_key_held : Z;
  pd_spent : Z }.

Definition settled_at_rest (a k : string) (m : Z) : Pending := mkPending a k m 0 0 0 0.

Section invariant.
Context `{Calendar}.

(** The money a key spent in the month that starts at [m]. *)
Definition month_spend (k : string) (m : Z) (u : UsageRow) : Z :=
  if str_eqb (us_api_key_id u) k && (month_floor (us_occurred_at u) =? m)
  then us_cost_microunits u else 0.
Definition month_spent (k : string) (m : Z) (d : Db) : Z :=
  zsum (month_spend k m) (usage_events d).

(** Every projection row equals the history it summarizes, up to [p]. *)
Record Projected (p : Pending) (d : Db) : Prop := {
  pr_balance a row : balances d !! a = Some row →
    ba_balance_microunits row = booked a d + (if decide (a = pd_account p) then pd_balance p else 0)
    ∧ ba_held_microunits row = held a d + (if decide (a = pd_account p) then pd_held p else 0);
  pr_balance_new : balances d !! pd_account p = None → pd_balance p = 0 ∧ pd_held p = 0;
  pr_key k row : key_holds d !! k = Some row →
    kh_held_microunits row =
      key_held k d + (if decide (k = pd_key p) then pd_key_held p else 0);
  pr_key_new : key_holds d !! pd_key p = None → pd_key_held p = 0;
  pr_spent k m row : month_spends d !! (k, m) = Some row →
    month_floor m = m ∧
    ms_spent_microunits row =
      month_spent k m d
      + (if decide (k = pd_key p ∧ m = pd_month p) then pd_spent p else 0);
  pr_spent_new : month_spends d !! (pd_key p, pd_month p) = None → pd_spent p = 0 }.

(** A usage row records what a request to settle the reservation reported, at
    the frozen price. *)
Definition usage_reported (request : SettleRequest) (r : Reservation) (u : UsageRow) : Prop :=
  rv_completion r = Some (settle_json request) ∧ us_request_id u = rv_request_id r ∧
  us_input_tokens u = sr_input_tokens request ∧ us_output_tokens u = sr_output_tokens request ∧
  usage_cost_microunits (rv_price r) (sr_input_tokens request) (sr_output_tokens request) =
    Ok (us_cost_microunits u).

(** A reservation carries the price of its own limits, and what it settled
    for is on record as usage. *)
Record reservation_ok (d : Db) (id : string) (r : Reservation) : Prop := {
  ro_id : rv_id r = id;
  ro_project : rr_project_id (rv_spec r) = rv_project_id r;
  ro_account : rv_billing_account_id r = account_id (rv_project_id r);
  ro_price : nonneg_price (rv_price r);
  ro_amount : usage_cost_microunits (rv_price r)
    (rr_input_token_limit (rv_spec r)) (rr_output_token_limit (rv_spec r))
      = Ok (rv_reserved_microunits r);
  ro_settled : match rv_state r with
    | Settled => ∃ amount usage,
        rv_settled_microunits r = Some amount ∧
        0 ≤ amount ≤ rv_reserved_microunits r ∧
        usage ∈ usage_events d ∧ us_event_id usage = usage_id id ∧
        us_api_key_id usage = rv_api_key_id r ∧ us_cost_microunits usage = amount ∧
        ∃ request, usage_reported request r usage
    | _ => rv_settled_microunits r = None
    end }.

(** Double entry: a posted transaction has two entries, for one account,
    that cancel. *)
Record Ledger_ok (d : Db) : Prop := {
  lo_known e : e ∈ ledger_entries d → le_transaction_id e ∈ lt_id <$> ledger_transactions d;
  lo_unique : NoDup (lt_id <$> ledger_transactions d);
  lo_keys : NoDup (lt_idempotency_key <$> ledger_transactions d);
  lo_balanced t : t ∈ ledger_transactions d →
    ∃ c k, transaction_entries (lt_id t) d = [c; k] ∧
      le_billing_account_id c = le_billing_account_id k ∧
      le_amount_microunits c + le_amount_microunits k = 0 }.

(** The event log of every account is gap-free, every event agrees with its
    source, and the worker's job knows the last event. *)
Record Events_ok (d : Db) : Prop := {
  eo_sequence a : ev_sequence <$> account_events a d =
    seqZ 1 (Z.of_nat (length (account_events a d)));
  eo_source e : e ∈ events d → validate_event d e = Ok tt;
  eo_job a : match jobs d !! a with
    | None => account_events a d = []
    | Some j => jb_target_sequence j = Z.of_nat (length (account_events a d))
                ∧ 0 ≤ jb_acknowledged j ≤ jb_target_sequence j
    end }.

Record Config_ok (d : Db) : Prop := {
  co_project k row : projects d !! k = Some row → pj_id row = k;
  co_account p a : accounts d !! p = Some a →
    ac_project_id a = p ∧ ac_id a = account_id p ∧ ac_currency a = "CNY"%string;
  co_catalog id row : catalog d !! id = Some row →
    Model_validate (ca_definition row) = Ok tt ∧ model_id (ca_definition row) = id;
  co_price key m : prices d !! key = Some m → Model_validate m = Ok tt;
  co_key k key : api_keys d !! k = Some key → ak_id key = k;
  co_usage : NoDup (us_event_id <$> usage_events d);
  co_spend u : u ∈ usage_events d → 0 ≤ us_cost_microunits u }.

(** A review is about a reservation of its project, and whoever decided it
    did not submit it. *)
Record review_ok (d : Db) (id : string) (w : Review) : Prop := {
  vo_id : rw_id w = id;
  vo_reservation : ∃ r, reservations d !! rw_reservation_id w = Some r ∧
    rv_project_id r = rw_project_id w;
  vo_people : match rw_state w with
    | ReviewSubmitted => rw_reviewed_by w = None ∧ rw_decision w = None
    | _ => ∃ reviewer, rw_reviewed_by w = Some reviewer ∧ reviewer ≠ rw_submitted_by w
    end }.

Record Inv_at (p : Pending) (d : Db) : Prop := {
  inv_projected : Projected p d;
  inv_reservations id r : reservations d !! id = Some r → reservation_ok d id r;
  inv_ledger : Ledger_ok d;
  inv_events : Events_ok d;
  inv_config : Config_ok d;
  inv_reviews id w : reviews d !! id = Some w → review_ok d id w }.

(** Between transactions nothing is pending. *)
Definition Inv (d : Db) : Prop := Inv_at (settled_at_rest "" "" 0) d.

Lemma Projected_rest a k m d : Projected (settled_at_rest a k m) d ↔
  (∀ a row, balances d !! a = Some row →
     ba_balance_microunits row = booked a d ∧ ba_held_microunits row = held a d) ∧
  (∀ k row, key_holds d !! k = Some row → kh_held_microunits row = key_held k d) ∧
  (∀ k m row, month_spends d !! (k, m) = Some row →
     month_floor m = m ∧ ms_spent_microunits row = month_spent k m d).
Proof.
  split.
  - intros [Hb _ Hk _ Hs _]. split; [|split].
    + intros a' row Hr. apply Hb in Hr. simpl in Hr. case_decide; lia.
    + intros k' row Hr. apply Hk in Hr. simpl in Hr. case_decide; lia.
    + intros k' m' row Hr. apply Hs in Hr. simpl in Hr. case_decide; lia.
  - intros (Hb & Hk & Hs). split; simpl; try done.
    + intros a' row Hr. apply Hb in Hr. case_decide; lia.
    + intros k' row Hr. apply Hk in Hr. case_decide; lia.
    + intros k' m' row Hr. apply Hs in Hr. case_decide; lia.
Qed.

(** A transaction may name the account, key and month it will touch. *)
Lemma Inv_focus a k m d : Inv d ↔ Inv_at (settled_at_rest a k m) d.
Proof.
  unfold Inv. split; intros [Hp ?????]; split; try done;
    apply Projected_rest; by apply Projected_rest in Hp.
Qed.
End invariant.
