(* ===== verification/Catalog.v ===== *)
(** * Catalog: the models on sale and their immutable price versions

    [crates/control-plane/src/catalog.rs]: optimistic revisions on the
    catalog entry of a model, and price definitions that never change once
    a version is published. *)

From S2P Require Import Prelude Domain Models Store Books.
Local Open Scope Z_scope.

(** ** Operations *)

Definition active_model (id : string) : Tx Model :=
  row ← gets (λ d, catalog d !! id);
  row ← found (row ≫= λ r, if ca_enabled r then Some r else None)
          (Invalid "model is unknown or disabled");
  mret (ca_definition row).

Definition historical_price (id version : string) : Tx Model :=
  row ← gets (λ d, prices d !! (id, version));
  found row (Invalid "unknown model price version").

Definition bootstrap_catalog (env : Env) : Tx unit :=
  let model := Model_default in
  row ← gets (λ d, catalog d !! model_id model);
  (if row is Some _ then mret tt else
     modify (λ d, set_catalog (<[model_id model :=
       mkCatalogRow 1 true (Some "demo-pool") model (env_now env)]> (catalog d)) d)) ;;
  row ← gets (λ d, prices d !! (model_id model, price_version model));
  if row is Some _ then mret tt else
    modify (λ d, set_prices (<[(model_id model, price_version model) := model]> (prices d)) d).

Definition lift_text {A} (r : result string A) : Tx A :=
  match r with Ok a => mret a | Err message => throw (Invalid message) end.

(** The insert of a new entry, or the compare-and-swap on its revision. *)
Definition put_catalog_row (env : Env) (id : string) (request : PutModel) : Tx unit :=
  let revision := pm_expected_revision request + 1 in
  row ← gets (λ d, catalog d !! id);
  (if pm_expected_revision request =? 0 then fail_if (is_some row) duplicate_row
   else fail_if (negb (match row with
                       | Some r => ca_revision r =? pm_expected_revision request
                       | None => false
                       end)) (Conflict "model revision changed; reload before saving")) ;;
  modify (λ d, set_catalog (<[id :=
    mkCatalogRow revision (pm_enabled request) (pm_default_pool request)
      (pm_model request) (env_now env)]> (catalog d)) d).

Definition put_price (id : string) (model : Model) : Tx unit :=
  previous ← gets (λ d, prices d !! (id, price_version model));
  match previous with
  | Some definition =>
      fail_if (bool_decide (definition ≠ model))
        (Conflict "price version is immutable; use a new version")
  | None => modify (λ d, set_prices (<[(id, price_version model) := model]> (prices d)) d)
  end.

Definition put_model (env : Env) (id : string) (request : PutModel) : Tx CatalogModel :=
  lift_text (Model_validate (pm_model request)) ;;
  fail_if (negb (str_eqb id (model_id (pm_model request)))
           || negb ((0 <=? pm_expected_revision request)
                    && (pm_expected_revision request <? i64_max))
           || match pm_default_pool request with
              | Some pool => negb (catalog_identifier pool) | None => false end)
    (Invalid "invalid model ID, pool or revision") ;;
  put_catalog_row env id request ;;
  put_price id (pm_model request) ;;
  mret (mkCatalogModel (pm_expected_revision request + 1) (pm_enabled request)
          (pm_default_pool request) (pm_model request)).

(** ** Properties *)

Lemma lift_text_Ok {A} (r : result string A) d a d' :
  lift_text r d = Ok (a, d') ↔ r = Ok a ∧ d' = d.
Proof. destruct r; simpl; rewrite ?tx_ret_Ok, ?throw_Ok; naive_solver. Qed.

Lemma active_model_Ok id d m d' :
  active_model id d = Ok (m, d') ↔
  d' = d ∧ ∃ row, catalog d !! id = Some row ∧ ca_enabled row = true ∧ ca_definition row = m.
Proof.
  split.
  - intros Hrun. unfold active_model in Hrun. tx_inv Hrun.
    match goal with H : _ ≫= _ = Some _ |- _ =>
      apply bind_Some in H as (r & Hr & Hen); case_match; simplify_eq end.
    split; [done|]. by eexists.
  - intros (-> & row & Hrow & Hen & <-). unfold active_model, mbind, tx_bind, gets.
    simpl. rewrite Hrow. simpl. by rewrite Hen.
Qed.

Lemma put_catalog_row_Ok env id r d u d' :
  put_catalog_row env id r d = Ok (u, d') →
  d' = set_catalog (<[id := mkCatalogRow (pm_expected_revision r + 1) (pm_enabled r)
         (pm_default_pool r) (pm_model r) (env_now env)]> (catalog d)) d ∧
  (if pm_expected_revision r =? 0 then catalog d !! id = None
   else ca_revision <$> catalog d !! id = Some (pm_expected_revision r)).
Proof.
  intros Hrun. unfold put_catalog_row in Hrun. tx_inv Hrun.
  destruct (pm_expected_revision r =? 0); tx_inv Htx; split; try done.
  - by apply is_some_false.
  - destruct (catalog _ !! id); [|done]. simpl.
    rewrite negb_false_iff, Z.eqb_eq in *.
    congruence.
Qed.

Lemma put_price_Ok id m d u d' :
  put_price id m d = Ok (u, d') →
  d' = set_prices (<[(id, price_version m) := m]> (prices d)) d ∧
  (∀ old, prices d !! (id, price_version m) = Some old → old = m).
Proof.
  intros Hrun. unfold put_price in Hrun. tx_inv Hrun.
  destruct (prices _ !! _) as [old|] eqn:Hold; tx_inv Hrun.
  - match goal with H : bool_decide _ = false |- _ =>
      apply bool_decide_eq_false, dec_stable in H; subst end.
    split; [|naive_solver]. rewrite insert_id by done. by destruct d.
  - split; [done|]. naive_solver.
Qed.

(** Saving a model is a compare-and-swap: it commits only at the expected
    revision, moves the entry to the next one, publishes its price version,
    and never changes a price version that was already published. *)
Theorem put_model_cas env id r d answer d' :
  put_model env id r d = Ok (answer, d') →
  Model_validate (pm_model r) = Ok tt ∧ model_id (pm_model r) = id ∧
  (if pm_expected_revision r =? 0 then catalog d !! id = None
   else ca_revision <$> catalog d !! id = Some (pm_expected_revision r)) ∧
  catalog d' !! id = Some (mkCatalogRow (pm_expected_revision r + 1) (pm_enabled r)
                             (pm_default_pool r) (pm_model r) (env_now env)) ∧
  prices d' !! (id, price_version (pm_model r)) = Some (pm_model r) ∧
  (∀ key price, prices d !! key = Some price → prices d' !! key = Some price).
Proof.
  intros Hrun. unfold put_model in Hrun. tx_inv Hrun.
  apply lift_text_Ok in Htx as [Hvalid ->]. destruct a.
  match goal with H : _ || _ || _ = false |- _ =>
    rewrite !orb_false_iff, negb_false_iff, str_eqb_eq in H; destruct H as [[-> _] _] end.
  apply put_catalog_row_Ok in Htx0 as (-> & Hrev).
  apply put_price_Ok in Htx1 as (-> & Hprice). simpl in *.
  split; [done|]. split; [done|]. split; [done|]. split; [apply lookup_insert_eq|].
  split; [apply lookup_insert_eq|]. intros key price Hkey.
  destruct (decide (key = (model_id (pm_model r), price_version (pm_model r)))) as [->|Hne].
  - rewrite lookup_insert_eq. f_equal. symmetry. by apply Hprice.
  - by rewrite lookup_insert_ne.
Qed.

Definition demo_env : Env := mkEnv 1000 (λ n, match n with 0%nat => "u0" | 1%nat => "u1" | _ => "u2" end).

Lemma put_model_cas_witness :
  ∃ answer d', put_model demo_env DEFAULT_MODEL_ID (mkPutModel 0 true None Model_default) empty_db
    = Ok (answer, d') ∧ prices d' !! (DEFAULT_MODEL_ID, DEFAULT_PRICE_VERSION) = Some Model_default.
Proof.
  eexists _, _. split; [reflexivity|].
  exact (proj1 (proj2 (proj2 (proj2 (proj2
    (put_model_cas demo_env DEFAULT_MODEL_ID (mkPutModel 0 true None Model_default) empty_db
       _ _ ltac:(reflexivity))))))).
Defined.

Section invariant.
Context `{Calendar}.

Lemma Config_catalog d id row :
  Config_ok d → Model_validate (ca_definition row) = Ok tt → model_id (ca_definition row) = id →
  Config_ok (set_catalog (<[id := row]> (catalog d)) d).
Proof.
  intros [Cj Ca Cc Cp Ck Cu Cs] Hv Hid. split; simpl; try done.
  intros id' row' [[<- <-]|[_ Hr]]%lookup_insert_Some; [done|by eapply Cc].
Qed.

Lemma Config_price d key m :
  Config_ok d → Model_validate m = Ok tt →
  Config_ok (set_prices (<[key := m]> (prices d)) d).
Proof.
  intros [Cj Ca Cc Cp Ck Cu Cs] Hv. split; simpl; try done.
  intros key' m' [[<- <-]|[_ Hr]]%lookup_insert_Some; [done|by eapply Cp].
Qed.

(** A change of configuration that keeps [Config_ok] keeps the invariant. *)
Lemma Inv_set_catalog p c d :
  Inv_at p d → Config_ok (set_catalog c d) → Inv_at p (set_catalog c d).
Proof.
  intros [Hp Hr Hl He Hc Hw] Hc'. split; try done;
    [by destruct Hp; split|intros id r Hid; by destruct (Hr id r Hid); split
    |by destruct Hl; split|by destruct He; split
    |intros id w Hid; by destruct (Hw id w Hid)].
Qed.
Lemma Inv_set_prices p c d :
  Inv_at p d → Config_ok (set_prices c d) → Inv_at p (set_prices c d).
Proof.
  intros [Hp Hr Hl He Hc Hw] Hc'. split; try done;
    [by destruct Hp; split|intros id r Hid; by destruct (Hr id r Hid); split
    |by destruct Hl; split|by destruct He; split
    |intros id w Hid; by destruct (Hw id w Hid)].
Qed.

Lemma put_model_Inv env p id r d a d' :
  Inv_at p d → put_model env id r d = Ok (a, d') → Inv_at p d'.
Proof.
  intros HI Hrun. unfold put_model in Hrun. tx_inv Hrun.
  apply lift_text_Ok in Htx as [Hvalid ->]. destruct a0.
  match goal with H : _ || _ || _ = false |- _ =>
    rewrite !orb_false_iff, negb_false_iff, str_eqb_eq in H; destruct H as [[-> _] _] end.
  apply put_catalog_row_Ok in Htx0 as (-> & _). apply put_price_Ok in Htx1 as (-> & _).
  apply Inv_set_prices.
  - apply Inv_set_catalog; [done|]. by apply Config_catalog; [apply HI|..].
  - apply Config_price; [|done]. by apply Config_catalog; [apply HI|..].
Qed.

Lemma bootstrap_catalog_Inv env p d u d' :
  Inv_at p d → bootstrap_catalog env d = Ok (u, d') → Inv_at p d'.
Proof.
  intros HI Hrun. unfold bootstrap_catalog in Hrun. tx_inv Hrun.
  match goal with H : _ = Ok (?u, ?d0) |- _ =>
    match goal with H' : _ d0 = Ok (_, d') |- _ => assert (Inv_at p d0) as HI0 end end.
  { destruct (catalog d !! _); tx_inv Htx; [done|].
    apply Inv_set_catalog; [done|]. by apply Config_catalog; [apply HI|..]. }
  case_match; tx_inv Hrun; [done|].
  apply Inv_set_prices; [done|]. by apply Config_price; [apply HI0|].
Qed.
End invariant.
