(* ===== verification/Projection.v ===== *)
(** * Projection: the balances, holds and monthly spend kept beside history

    [crates/control-plane/src/billing_projection.rs].  A row is created on
    first use from the history it summarizes; every change of history comes
    with the same change of its row.  [projection_only] says that a step
    wrote nothing else. *)

From S2P Require Import Prelude Domain Store Books.
Local Open Scope Z_scope.

(** ** Operations *)

Definition projection_overflow : ServiceError :=
  Internal "billing projection overflow or negative hold/spend".

Definition add (value delta : Z) (nonnegative : bool) : result ServiceError Z :=
  match checked_add value delta with
  | Some v => if negb nonnegative || (0 <=? v) then Ok v else Err projection_overflow
  | None => Err projection_overflow
  end.

(** [SELECT ... FOR UPDATE] of the account of a project. *)
Definition lock_account (project : string) : Tx Account :=
  row ← gets (λ d, accounts d !! project);
  found row NotFound.

Definition historical_balance_and_held (id : string) : Tx (Z * Z) :=
  sum ← gets (booked id);
  balance ← total sum;
  sum ← gets (held id);
  held ← total sum;
  mret (balance, held).

Definition put_balance (id : string) (row : Balance) : Tx unit :=
  modify (λ d, set_balances (<[id := row]> (balances d)) d).
Definition put_key_hold (id : string) (row : KeyHold) : Tx unit :=
  modify (λ d, set_key_holds (<[id := row]> (key_holds d)) d).
Definition put_month_spend (id : string) (period : Z) (row : MonthSpend) : Tx unit :=
  modify (λ d, set_month_spends (<[(id, period) := row]> (month_spends d)) d).

Definition account (env : Env) (id : string) : Tx Balance :=
  row ← gets (λ d, balances d !! id);
  match row with
  | Some row => mret row
  | None =>
      sums ← historical_balance_and_held id;
      let row := mkBalance sums.1 sums.2 (env_now env) in
      put_balance id row ;;
      mret row
  end.

Definition historical_key_hold (id : string) : Tx Z :=
  sum ← gets (key_held id);
  total sum.

Definition key_hold (env : Env) (id : string) : Tx KeyHold :=
  row ← gets (λ d, key_holds d !! id);
  match row with
  | Some row => mret row
  | None =>
      held ← historical_key_hold id;
      let row := mkKeyHold held (env_now env) in
      put_key_hold id row ;;
      mret row
  end.

Definition balance_and_held (env : Env) (account_id : string) : Tx (Z * Z) :=
  row ← account env account_id;
  mret (ba_balance_microunits row, ba_held_microunits row).

Definition change_hold (env : Env) (account_id key : string) (delta : Z) : Tx unit :=
  row ← account env account_id;
  amount ← lift (add (ba_held_microunits row) delta true);
  put_balance account_id (mkBalance (ba_balance_microunits row) amount (env_now env)) ;;
  row ← key_hold env key;
  amount ← lift (add (kh_held_microunits row) delta true);
  put_key_hold key (mkKeyHold amount (env_now env)).

Definition change_balance (env : Env) (id : string) (delta : Z) : Tx unit :=
  row ← account env id;
  amount ← lift (add (ba_balance_microunits row) delta false);
  put_balance id (mkBalance amount (ba_held_microunits row) (env_now env)).

Definition change_spend (env : Env) (key : string) (period : Z) (row : MonthSpend) (delta : Z)
    : Tx unit :=
  amount ← lift (add (ms_spent_microunits row) delta true);
  put_month_spend key period (mkMonthSpend amount (env_now env)).

Section monthly.
Context `{Calendar}.

Definition historical_spend (id : string) (period : Z) : Tx Z :=
  until ← found (month_next period) (Invalid "invalid month");
  sum ← gets (period_spent id period until);
  total sum.

Definition monthly (env : Env) (id : string) (period : Z) : Tx MonthSpend :=
  row ← gets (λ d, month_spends d !! (id, period));
  match row with
  | Some row => mret row
  | None =>
      spent ← historical_spend id period;
      let row := mkMonthSpend spent (env_now env) in
      put_month_spend id period row ;;
      mret row
  end.

(** [Repository::projected_spend] *)
Definition projected_spend (env : Env) (project key : string) (period : Z) : Tx Z :=
  row ← gets (λ d, month_spends d !! (key, period));
  match row with
  | Some row => mret (ms_spent_microunits row)
  | None =>
      _ ← lock_account project;
      row ← monthly env key period;
      mret (ms_spent_microunits row)
  end.
End monthly.

(** ** What they change *)

Lemma add_Ok v delta b r :
  add v delta b = Ok r ↔
  r = v + delta ∧ i64_min ≤ r ≤ i64_max ∧ (b = true → 0 ≤ r).
Proof.
  unfold add. destruct (checked_add v delta) as [x|] eqn:E.
  - apply checked_add_Some in E as [-> Hr].
    destruct b; simpl; [destruct (Z.leb_spec 0 (v + delta))|].
    + naive_solver.
    + split; [done|]. intros (-> & _ & Hb). specialize (Hb eq_refl). lia.
    + naive_solver.
  - split; [done|]. intros (-> & Hr & _).
    assert (checked_add v delta = Some (v + delta)) by (by apply checked_add_Some).
    congruence.
Qed.

(** Only rows of the three projection tables were written. *)
Definition projection_only (d d' : Db) : Prop :=
  ∃ b k s, d' = set_month_spends s (set_key_holds k (set_balances b d)).

#[export] Instance projection_only_preorder : PreOrder projection_only.
Proof.
  split.
  - intros []. unfold projection_only. simpl. by do 3 eexists.
  - intros d1 d2 d3 (b & k & s & ->) (b' & k' & s' & ->). by exists b', k', s'.
Qed.

Lemma put_balance_only id row d u d' : put_balance id row d = Ok (u, d') → projection_only d d'.
Proof. intros ->%modify_Ok. exists (<[id := row]> (balances d)), (key_holds d), (month_spends d). by destruct d. Qed.
Lemma put_key_hold_only id row d u d' : put_key_hold id row d = Ok (u, d') → projection_only d d'.
Proof. intros ->%modify_Ok. exists (balances d), (<[id := row]> (key_holds d)), (month_spends d). by destruct d. Qed.
Lemma put_month_spend_only id m row d u d' :
  put_month_spend id m row d = Ok (u, d') → projection_only d d'.
Proof. intros ->%modify_Ok. exists (balances d), (key_holds d), (<[(id, m) := row]> (month_spends d)). by destruct d. Qed.

(** The pending record with more money pending. *)
Definition pend_held (x : Z) (p : Pending) : Pending :=
  mkPending (pd_account p) (pd_key p) (pd_month p)
    (pd_balance p) (pd_held p + x) (pd_key_held p + x) (pd_spent p).
Definition pend_balance (x : Z) (p : Pending) : Pending :=
  mkPending (pd_account p) (pd_key p) (pd_month p)
    (pd_balance p + x) (pd_held p) (pd_key_held p) (pd_spent p).
Definition pend_spent (x : Z) (p : Pending) : Pending :=
  mkPending (pd_account p) (pd_key p) (pd_month p)
    (pd_balance p) (pd_held p) (pd_key_held p) (pd_spent p + x).

Lemma pend_balance_cancel x p : pend_balance (- x) (pend_balance x p) = p.
Proof. destruct p. unfold pend_balance. simpl. f_equal. lia. Qed.
Lemma pend_held_zero p : pend_held 0 p = p.
Proof. destruct p. unfold pend_held. simpl. f_equal; lia. Qed.

(** A projection step leaves what history says. *)
Lemma projection_only_history `{Calendar} d d' : projection_only d d' →
  (∀ a, booked a d' = booked a d) ∧ (∀ a, held a d' = held a d) ∧
  (∀ k, key_held k d' = key_held k d) ∧ (∀ k m, month_spent k m d' = month_spent k m d).
Proof. by intros (b & k & s & ->). Qed.

(** [history H] forgets that the history was read after a projection step. *)
Ltac history H :=
  let B := fresh in let C := fresh in let K := fresh in let S := fresh in
  pose proof (projection_only_history _ _ H) as (B & C & K & S);
  rewrite ?B, ?C, ?K, ?S in *; clear B C K S.

Section correctness.
Context `{Calendar}.

Lemma period_spent_month k m e d :
  month_floor m = m → month_next m = Some e → period_spent k m e d = month_spent k m d.
Proof.
  intros Hm He. apply zsum_ext. intros u _.
  unfold period_spend, month_spend.
  pose proof (month_next_spec m e (us_occurred_at u) Hm He) as Hu.
  destruct (str_eqb _ _); simpl; [|done].
  destruct (Z.leb_spec m (us_occurred_at u)), (Z.ltb_spec (us_occurred_at u) e),
    (Z.eqb_spec (month_floor (us_occurred_at u)) m); simpl; try done; lia.
Qed.

(** Replacing projection rows keeps everything but [Projected]. *)
Lemma Inv_projection_only p q d d' :
  Inv_at p d → projection_only d d' → Projected q d' → Inv_at q d'.
Proof.
  intros [_ Hr Hl He Hc Hw] (b & k & s & ->) Hq. split; [done|simpl|..].
  - intros id r Hid. destruct (Hr id r Hid). by split.
  - destruct Hl. by split.
  - destruct He. by split.
  - destruct Hc. by split.
  - intros id w Hid. by destruct (Hw id w Hid).
Qed.

Lemma put_balance_Ok p a row d u d' :
  Inv_at p d → put_balance a row d = Ok (u, d') →
  ∀ q, pd_key q = pd_key p → pd_month q = pd_month p → pd_account q = pd_account p →
  pd_key_held q = pd_key_held p → pd_spent q = pd_spent p →
  a = pd_account p →
  ba_balance_microunits row = booked a d + pd_balance q →
  ba_held_microunits row = held a d + pd_held q →
  Inv_at q d' ∧ projection_only d d' ∧ balances d' !! a = Some row.
Proof.
  intros HI Hput q Hk Hm Ha Hkh Hsp -> Hb Hh.
  pose proof (put_balance_only _ _ _ _ _ Hput) as Honly.
  apply modify_Ok in Hput as ->.
  split; [|split; [done|apply lookup_insert_eq]].
  eapply Inv_projection_only; [done|done|]. destruct HI as [[Pb Pbn Pk Pkn Ps Psn] _ _ _ _ _].
  split; simpl; rewrite ?Hk, ?Hm, ?Ha, ?Hkh, ?Hsp; try done.
  - intros a' row' [[<- <-]|[Hne Hr]]%lookup_insert_Some.
    + by rewrite !decide_True.
    + specialize (Pb a' row' Hr). by rewrite !decide_False in * by congruence.
  - by rewrite lookup_insert_eq.
Qed.

Lemma put_key_hold_Ok p k row d u d' x :
  Inv_at p d → put_key_hold k row d = Ok (u, d') →
  k = pd_key p → kh_held_microunits row = key_held k d + x →
  Inv_at (mkPending (pd_account p) k (pd_month p) (pd_balance p) (pd_held p) x (pd_spent p)) d'
  ∧ projection_only d d' ∧ key_holds d' !! k = Some row.
Proof.
  intros HI Hput -> Hh. pose proof (put_key_hold_only _ _ _ _ _ Hput) as Honly.
  apply modify_Ok in Hput as ->.
  split; [|split; [done|apply lookup_insert_eq]].
  eapply Inv_projection_only; [done|done|]. destruct HI as [[Pb Pbn Pk Pkn Ps Psn] _ _ _ _ _].
  split; simpl; try done.
  - intros k' row' [[<- <-]|[Hne Hr]]%lookup_insert_Some.
    + by rewrite decide_True.
    + specialize (Pk k' row' Hr). by rewrite decide_False in * by congruence.
  - by rewrite lookup_insert_eq.
Qed.

Lemma put_month_spend_Ok p k m row d u d' x :
  Inv_at p d → put_month_spend k m row d = Ok (u, d') →
  k = pd_key p → m = pd_month p → month_floor m = m →
  ms_spent_microunits row = month_spent k m d + x →
  Inv_at (mkPending (pd_account p) k m (pd_balance p) (pd_held p) (pd_key_held p) x) d'
  ∧ projection_only d d' ∧ month_spends d' !! (k, m) = Some row.
Proof.
  intros HI Hput -> -> Hm Hh. pose proof (put_month_spend_only _ _ _ _ _ _ Hput) as Honly.
  apply modify_Ok in Hput as ->.
  split; [|split; [done|apply lookup_insert_eq]].
  eapply Inv_projection_only; [done|done|]. destruct HI as [[Pb Pbn Pk Pkn Ps Psn] _ _ _ _ _].
  split; simpl; try done.
  - intros k' m' row' [[[= <- <-] <-]|[Hne Hr]]%lookup_insert_Some.
    + by rewrite decide_True.
    + specialize (Ps k' m' row' Hr).
      by rewrite decide_False in * by (intros [-> ->]; done).
  - by rewrite lookup_insert_eq.
Qed.

Lemma account_Ok env p a d row d' :
  Inv_at p d → a = pd_account p → account env a d = Ok (row, d') →
  Inv_at p d' ∧ projection_only d d' ∧ balances d' !! a = Some row ∧
  ba_balance_microunits row = booked a d + pd_balance p ∧
  ba_held_microunits row = held a d + pd_held p.
Proof.
  intros HI -> Hrun. unfold account in Hrun. tx_inv Hrun.
  pose proof (pr_balance _ _ (inv_projected _ _ HI) (pd_account p)) as Hp.
  destruct (balances d !! pd_account p) as [row0|] eqn:Hrow.
  - tx_inv Hrun. specialize (Hp _ eq_refl). by rewrite !decide_True in Hp.
  - apply (pr_balance_new _ _ (inv_projected _ _ HI)) in Hrow as [Hb Hh].
    unfold historical_balance_and_held in Hrun. tx_inv Hrun.
    apply (put_balance_Ok p) with (q := p) in Htx as (? & ? & ?); simpl; try lia; try done.
    simpl. split; [done|]. split; [done|]. split; [done|]. lia.
Qed.

Lemma key_hold_Ok env p k d row d' :
  Inv_at p d → k = pd_key p → key_hold env k d = Ok (row, d') →
  Inv_at p d' ∧ projection_only d d' ∧ key_holds d' !! k = Some row ∧
  kh_held_microunits row = key_held k d + pd_key_held p.
Proof.
  intros HI -> Hrun. unfold key_hold in Hrun. tx_inv Hrun.
  pose proof (pr_key _ _ (inv_projected _ _ HI) (pd_key p)) as Hp.
  destruct (key_holds d !! pd_key p) as [row0|] eqn:Hrow.
  - tx_inv Hrun. specialize (Hp _ eq_refl). by rewrite !decide_True in Hp.
  - apply (pr_key_new _ _ (inv_projected _ _ HI)) in Hrow as Hh.
    unfold historical_key_hold in Hrun. tx_inv Hrun.
    apply (put_key_hold_Ok p) with (x := 0) in Htx as (HI' & ? & ?); simpl; try lia; try done.
    rewrite <- Hh in HI'. split; [by destruct p|]. simpl. by rewrite Hh, Z.add_0_r.
Qed.

Lemma monthly_Ok env p k m d row d' :
  Inv_at p d → k = pd_key p → m = pd_month p → month_floor m = m →
  monthly env k m d = Ok (row, d') →
  Inv_at p d' ∧ projection_only d d' ∧ month_spends d' !! (k, m) = Some row ∧
  ms_spent_microunits row = month_spent k m d + pd_spent p.
Proof.
  intros HI -> -> Hm Hrun. unfold monthly in Hrun. tx_inv Hrun.
  pose proof (pr_spent _ _ (inv_projected _ _ HI) (pd_key p) (pd_month p)) as Hp.
  destruct (month_spends d !! (pd_key p, pd_month p)) as [row0|] eqn:Hrow.
  - tx_inv Hrun. specialize (Hp _ eq_refl). rewrite !decide_True in Hp by done. naive_solver.
  - apply (pr_spent_new _ _ (inv_projected _ _ HI)) in Hrow as Hs.
    unfold historical_spend in Hrun. tx_inv Hrun.
    rewrite (period_spent_month _ _ _ _ Hm) in * by done.
    apply (put_month_spend_Ok p) with (x := 0) in Htx as (HI' & ? & ?);
      simpl; try lia; try done.
    rewrite <- Hs in HI'. split; [by destruct p|]. simpl. by rewrite Hs, Z.add_0_r.
Qed.

Lemma change_hold_Ok env p a k delta d u d' :
  Inv_at p d → a = pd_account p → k = pd_key p →
  change_hold env a k delta d = Ok (u, d') →
  Inv_at (pend_held delta p) d' ∧ projection_only d d' ∧
  0 ≤ held a d + pd_held p + delta ∧ 0 ≤ key_held k d + pd_key_held p + delta.
Proof.
  intros HI -> -> Hrun. unfold change_hold in Hrun. tx_inv Hrun.
  repeat match goal with H : add _ _ _ = Ok _ |- _ => apply add_Ok in H as (-> & ? & ?) end.
  apply (account_Ok _ p) in Htx as (HI1 & Ho1 & Hr1 & Hb1 & Hh1); [|done..]. history Ho1.
  set (q := mkPending (pd_account p) (pd_key p) (pd_month p) (pd_balance p)
              (pd_held p + delta) (pd_key_held p) (pd_spent p)).
  apply (put_balance_Ok p) with (q := q) in Htx0 as (HI2 & Ho2 & Hr2);
    simpl; history Ho1; try done; try lia.
  apply (key_hold_Ok _ q) in Htx1 as (HI3 & Ho3 & Hr3 & Hh3); [|done..].
  eapply put_key_hold_Ok in Hrun as (HI4 & Ho4 & _); [|done|done|].
  2:{ simpl. instantiate (1 := pd_key_held p + delta). history Ho3. simpl in Hh3. lia. }
  split; [done|]. split; [by rewrite Ho1, Ho2, Ho3|].
  history Ho2. history Ho1. simpl in Hh3. naive_solver lia.
Qed.

Lemma change_balance_Ok env p a delta d u d' :
  Inv_at p d → a = pd_account p → change_balance env a delta d = Ok (u, d') →
  Inv_at (pend_balance delta p) d' ∧ projection_only d d' ∧ is_Some (balances d' !! a).
Proof.
  intros HI -> Hrun. unfold change_balance in Hrun. tx_inv Hrun.
  match goal with H : add _ _ _ = Ok _ |- _ => apply add_Ok in H as (-> & ? & ?) end.
  apply (account_Ok _ p) in Htx as (HI1 & Ho1 & Hr1 & Hb1 & Hh1); [|done..].
  apply (put_balance_Ok p) with (q := pend_balance delta p) in Hrun as (HI2 & Ho2 & Hr2);
    simpl; history Ho1; try done; try lia.
  split; [done|]. split; [by rewrite Ho1|by eexists].
Qed.

Lemma change_spend_Ok env p k m row delta d u d' :
  Inv_at p d → k = pd_key p → m = pd_month p → month_floor m = m →
  month_spends d !! (k, m) = Some row →
  change_spend env k m row delta d = Ok (u, d') →
  Inv_at (pend_spent delta p) d' ∧ projection_only d d' ∧
  month_spends d' !! (k, m) = Some (mkMonthSpend (ms_spent_microunits row + delta) (env_now env)).
Proof.
  intros HI -> -> Hm Hrow Hrun. unfold change_spend in Hrun. tx_inv Hrun.
  match goal with H : add _ _ _ = Ok _ |- _ => apply add_Ok in H as (-> & ? & ?) end.
  pose proof (pr_spent _ _ (inv_projected _ _ HI) _ _ _ Hrow) as [_ Hs].
  rewrite decide_True in Hs by done.
  eapply (put_month_spend_Ok p) with (x := pd_spent p + delta) in Hrun as (HI2 & Ho2 & Hr2);
    simpl; try done; try lia.
Qed.
End correctness.
