(* ===== verification/Ledger.v ===== *)
(** * Ledger: the event log of an account and the double-entry postings

    [append_event] of [crates/control-plane/src/billing.rs] with [schedule] of
    [event_worker.rs], and [insert_balanced_entries] with the account
    creation of [repository.rs]. *)

From S2P Require Import Prelude Domain Store Books Projection.
Local Open Scope Z_scope.

(** ** Operations *)

(** [ORDER BY sequence DESC LIMIT 1] of the events of an account. *)
Definition last_sequence (a : string) (d : Db) : option Z :=
  foldr (λ e last, Some (match last with
                         | Some s => Z.max (ev_sequence e) s
                         | None => ev_sequence e
                         end)) None (account_events a d).

(** The upsert that makes new work known to the event worker. *)
Definition schedule (env : Env) (account : string) (sequence : Z) : Tx unit :=
  modify (λ d, set_jobs (<[account :=
    match jobs d !! account with
    | None =>
        mkJob 0 sequence 0 0 None None (env_now env) JobPending 0 None (env_now env)
    | Some j =>
        mkJob (jb_acknowledged j) sequence (jb_lease_epoch j) (jb_lease_through j)
          (jb_lease_token j) (jb_lease_until j) (jb_available_at j)
          (match jb_state j with JobIdle => JobPending | s => s end)
          (jb_attempts j) (jb_last_error j) (jb_updated_at j)
    end]> (jobs d)) d).

Definition insert_event (e : EventRow) : Tx unit :=
  dup ← gets (λ d, existsb (λ x, ev_sequence x =? ev_sequence e)
                     (account_events (ev_billing_account_id e) d));
  fail_if dup Database ;;
  modify (λ d, set_events (events d ++ [e]) d).

Definition append_event (env : Env) (account_id kind aggregate : string) (payload : Json)
    : Tx unit :=
  prior ← gets (last_sequence account_id);
  sequence ← found (checked_add (default 0 prior) 1) (Invalid "event sequence exhausted");
  insert_event (mkEventRow account_id sequence kind aggregate payload (env_now env)) ;;
  schedule env account_id sequence.

Definition insert_ledger_transaction (t : LedgerTransaction) (dup : ServiceError) : Tx unit :=
  taken ← gets (λ d, str_in (lt_id t) (lt_id <$> ledger_transactions d)
      || str_in (lt_idempotency_key t) (lt_idempotency_key <$> ledger_transactions d));
  fail_if taken dup ;;
  modify (λ d, set_ledger_transactions (ledger_transactions d ++ [t]) d).

Definition insert_ledger_entry (e : LedgerEntry) : Tx unit :=
  dup ← gets (λ d, str_in (le_id e) (le_id <$> ledger_entries d));
  fail_if dup Database ;;
  modify (λ d, set_ledger_entries (ledger_entries d ++ [e]) d).

(** The transaction row and its two entries. *)
Definition post_entries (env : Env) (account : Account)
    (tenant_id kind reference_type reference_id idempotency_key description : string)
    (customer_delta_microunits : Z) (counter_account : string) : Tx string :=
  let transaction_id := "txn-" +:+ env_uuid env 0 in
  insert_ledger_transaction
    (mkLedgerTransaction transaction_id tenant_id kind reference_type reference_id
       idempotency_key (ac_currency account) description (env_now env)) duplicate_row ;;
  insert_ledger_entry
    (mkLedgerEntry ("entry-customer-" +:+ env_uuid env 1) transaction_id (ac_id account)
       "customer_balance" customer_delta_microunits (ac_currency account) (env_now env)) ;;
  insert_ledger_entry
    (mkLedgerEntry ("entry-counter-" +:+ env_uuid env 2) transaction_id (ac_id account)
       counter_account (- customer_delta_microunits) (ac_currency account) (env_now env)) ;;
  mret transaction_id.

Definition ledger_posted_json
    (kind reference_type reference_id : string) (delta : Z) (currency : string) : Json :=
  JObj [("kind", JStr kind); ("reference_type", JStr reference_type);
        ("reference_id", JStr reference_id); ("customer_delta_microunits", JNum delta);
        ("currency", JStr currency)].

(** [checked_sub(held).and_then(|v| v.checked_add(delta)).is_none_or(|v| v < 0)] *)
Definition insufficient (balance held delta : Z) : bool :=
  match v ← checked_sub balance held; checked_add v delta with
  | Some v => v <? 0
  | None => true
  end.

Definition check_debit (env : Env) (locked : Account) (delta : Z) : Tx unit :=
  if (delta <? 0) && ac_enforce_balance locked then
    bh ← balance_and_held env (ac_id locked);
    fail_if (insufficient bh.1 bh.2 delta)
      (InsufficientFunds "debit would consume unavailable or reserved balance")
  else mret tt.

Definition insert_balanced_entries (env : Env) (account : Account)
    (tenant_id kind reference_type reference_id idempotency_key description : string)
    (customer_delta_microunits : Z) (counter_account : string) : Tx unit :=
  fail_if (customer_delta_microunits =? i64_min) (Invalid "ledger amount is too large") ;;
  locked ← lock_account (ac_project_id account);
  check_debit env locked customer_delta_microunits ;;
  change_balance env (ac_id account) customer_delta_microunits ;;
  transaction_id ← post_entries env account tenant_id kind reference_type reference_id
    idempotency_key description customer_delta_microunits counter_account;
  append_event env (ac_id account) "ledger.posted" transaction_id
    (ledger_posted_json kind reference_type reference_id customer_delta_microunits
       (ac_currency account)).

Definition create_billing_account (now : Z) (project_id tenant_id : string)
    (dup : ServiceError) : Tx Account :=
  let row := mkAccount (account_id project_id) tenant_id project_id "CNY" false "active" now now in
  existing ← gets (λ d, accounts d !! project_id);
  fail_if (is_some existing) dup ;;
  modify (λ d, set_accounts (<[project_id := row]> (accounts d)) d) ;;
  mret row.

Definition ensure_account_for_project (env : Env) (project_id : string) : Tx Account :=
  existing ← gets (λ d, accounts d !! project_id);
  match existing with
  | Some row => mret row
  | None =>
      project ← gets (λ d, projects d !! project_id);
      project ← found project NotFound;
      create_billing_account (env_now env) (pj_id project) (pj_tenant_id project) duplicate_row
  end.

(** [Repository::update_balance_policy] *)
Definition update_balance_policy (env : Env) (project_id : string) (enforce_balance : bool)
    : Tx unit :=
  row ← ensure_account_for_project env project_id;
  modify (λ d, set_accounts (<[ac_project_id row :=
    mkAccount (ac_id row) (ac_tenant_id row) (ac_project_id row) (ac_currency row)
      enforce_balance (ac_status row) (ac_created_at row) (env_now env)]> (accounts d)) d).

(** ** The event log *)

Lemma account_events_app a d e :
  account_events a (set_events (events d ++ [e]) d) =
  account_events a d ++ (if decide (ev_billing_account_id e = a) then [e] else []).
Proof.
  unfold account_events. simpl. by rewrite filter_app.
Qed.

Lemma last_sequence_gapless a d :
  ev_sequence <$> account_events a d = seqZ 1 (Z.of_nat (length (account_events a d))) →
  default 0 (last_sequence a d) = Z.of_nat (length (account_events a d)).
Proof.
  unfold last_sequence. generalize (account_events a d) as l. intros l.
  induction l as [|e l IH] using rev_ind; [done|].
  rewrite fmap_app, length_app. simpl.
  rewrite Nat2Z.inj_add, seqZ_app by lia. intros [Hl He]%app_inj_2; [|done].
  specialize (IH Hl). simpl in He. injection He as He.
  assert (Hfold : ∀ k (o : option Z),
    Forall (λ x, ev_sequence x ≤ ev_sequence e) k → o = Some (ev_sequence e) →
    foldr (λ e last, Some (match last with
       | Some s => Z.max (ev_sequence e) s | None => ev_sequence e end)) o k
    = Some (ev_sequence e)).
  { intros k o Hk ->. induction Hk as [|x k Hx Hk IHk]; simpl; [done|].
    rewrite IHk. f_equal. lia. }
  rewrite foldr_app. simpl. rewrite Hfold; [simpl; lia| |done].
  apply Forall_forall. intros x Hx.
  assert (ev_sequence x ∈ ev_sequence <$> l) as Hin by (by apply list_elem_of_fmap_2).
  rewrite Hl, elem_of_seqZ in Hin. lia.
Qed.

(** What an event needs of its source can only grow. *)
Record sources_grow (d d' : Db) : Prop := {
  sg_entries t : t ∈ lt_id <$> ledger_transactions d →
    transaction_entries t d' = transaction_entries t d;
  sg_reservations id r : reservations d !! id = Some r → ∃ r',
    reservations d' !! id = Some r' ∧
    rv_billing_account_id r' = rv_billing_account_id r;
  sg_reviews id r : reviews d !! id = Some r → ∃ r',
    reviews d' !! id = Some r' ∧ rw_reservation_id r' = rw_reservation_id r }.

Lemma reservation_source_grow d d' id a x y :
  sources_grow d d' →
  reservation_source d id a x y = Ok tt → reservation_source d' id a x y = Ok tt.
Proof.
  intros Hg. unfold reservation_source. rewrite !result_bind_Ok.
  setoid_rewrite ok_or_Ok. setoid_rewrite require_Ok. intros (r & Hr & Ha).
  destruct (sg_reservations _ _ Hg _ _ Hr) as (r' & ? & Hr').
  exists r'. by rewrite Hr'.
Qed.

Lemma transaction_entries_known d t :
  Ledger_ok d → transaction_entries t d ≠ [] → t ∈ lt_id <$> ledger_transactions d.
Proof.
  intros Hl Ht. destruct (transaction_entries t d) as [|e l] eqn:E; [done|].
  assert (e ∈ transaction_entries t d) as He by (rewrite E; set_solver).
  apply list_elem_of_filter in He as [<- He]. by apply (lo_known _ Hl).
Qed.

Lemma validate_event_grow d d' e :
  Ledger_ok d → sources_grow d d' →
  validate_event d e = Ok tt → validate_event d' e = Ok tt.
Proof.
  intros Hl Hg. unfold validate_event.
  destruct (str_eqb _ _); [|destruct (str_in _ _); [|destruct (str_in _ _)]].
  - rewrite !require_Ok. intros He. rewrite (sg_entries _ _ Hg); [done|].
    apply transaction_entries_known; [done|]. intros Hn. by rewrite Hn in He.
  - by apply reservation_source_grow.
  - rewrite !result_bind_Ok. setoid_rewrite ok_or_Ok. intros (r & Hr & Hs).
    destruct (sg_reviews _ _ Hg _ _ Hr) as (r' & Hr' & Heq).
    exists r'. split; [done|]. rewrite Heq. by eapply reservation_source_grow.
  - done.
Qed.

(** Only the event log and the job of its worker were written. *)
Definition log_only (d d' : Db) : Prop := ∃ e j, d' = set_jobs j (set_events e d).

Lemma log_only_history d d' : log_only d d' →
  (∀ a, booked a d' = booked a d) ∧ (∀ a, held a d' = held a d) ∧
  (∀ k, key_held k d' = key_held k d).
Proof. by intros (e & j & ->). Qed.

Section ledger_correctness.
Context `{Calendar}.

Lemma schedule_Ok env d a n u d' :
  schedule env a n d = Ok (u, d') →
  ∃ j, d' = set_jobs (<[a := j]> (jobs d)) d ∧ jb_target_sequence j = n ∧
    jb_acknowledged j = from_option jb_acknowledged 0 (jobs d !! a).
Proof.
  intros ->%modify_Ok. eexists. split; [done|].
  destruct (jobs d !! a); simpl; done.
Qed.

Lemma append_event_shape env p a kind aggregate payload d u d' :
  Inv_at p d → append_event env a kind aggregate payload d = Ok (u, d') →
  ∃ e j, d' = set_jobs (<[a := j]> (jobs d)) (set_events (events d ++ [e]) d) ∧
    e = mkEventRow a (Z.of_nat (length (account_events a d)) + 1) kind aggregate
          payload (env_now env) ∧
    jb_target_sequence j = ev_sequence e ∧
    jb_acknowledged j = from_option jb_acknowledged 0 (jobs d !! a).
Proof.
  intros HI Hrun. unfold append_event in Hrun. tx_inv Hrun.
  match goal with H : checked_add _ _ = Some _ |- _ => apply checked_add_Some in H as [-> _] end.
  rewrite last_sequence_gapless in * by apply HI.
  match goal with H : insert_event _ _ = _ |- _ => unfold insert_event in H; tx_inv H end.
  apply schedule_Ok in Hrun as (j & -> & Hj & Hack). simpl in *. by eexists _, j.
Qed.

Lemma append_event_Ok env p a kind aggregate payload d u d' :
  Inv_at p d → validate_event d (mkEventRow a 0 kind aggregate JNull 0) = Ok tt →
  append_event env a kind aggregate payload d = Ok (u, d') →
  Inv_at p d' ∧ log_only d d'.
Proof.
  intros HI Hv Hrun. apply (append_event_shape _ p) in Hrun as (e & j & -> & -> & Hj & Hack);
    [|done].
  destruct HI as [Hp Hr Hl He Hc Hw]. split; [|by eexists _, _].
  split; [by destruct Hp; split|by intros id r Hid; destruct (Hr id r Hid); split
         |by destruct Hl; split| |by destruct Hc; split
         |by intros id w Hid; destruct (Hw id w Hid); split].
  pose proof (eo_job _ He a) as Hja.
  split.
  - intros b. change (account_events b (set_jobs _ ?x)) with (account_events b x).
    rewrite account_events_app. simpl. case_decide as Hb; [subst b|].
    + rewrite fmap_app, length_app, (eo_sequence _ He a). simpl.
      rewrite Nat2Z.inj_add, seqZ_app by lia. f_equal.
      rewrite seqZ_cons by lia. rewrite seqZ_nil by lia. f_equal. lia.
    + rewrite app_nil_r. apply (eo_sequence _ He b).
  - intros e. simpl. rewrite elem_of_app, list_elem_of_singleton.
    intros [Hin| ->]; [by apply (eo_source _ He)|exact Hv].
  - intros b. change (account_events b (set_jobs _ ?x)) with (account_events b x).
    rewrite account_events_app. simpl. destruct (decide (a = b)) as [->|Hne].
    + rewrite lookup_insert_eq, Hj, Hack, length_app. simpl.
      destruct (jobs d !! b) as [j0|]; simpl; [|lia]. lia.
    + rewrite lookup_insert_ne, app_nil_r by done. apply (eo_job _ He b).
Qed.

Lemma insert_ledger_entry_Ok e d u d' :
  insert_ledger_entry e d = Ok (u, d') → d' = set_ledger_entries (ledger_entries d ++ [e]) d.
Proof. intros Hrun. unfold insert_ledger_entry in Hrun. by tx_inv Hrun. Qed.

Lemma insert_ledger_transaction_Ok t dup d u d' :
  insert_ledger_transaction t dup d = Ok (u, d') →
  d' = set_ledger_transactions (ledger_transactions d ++ [t]) d ∧
  (lt_id t ∉ (lt_id <$> ledger_transactions d)) ∧
  (lt_idempotency_key t ∉ (lt_idempotency_key <$> ledger_transactions d)).
Proof.
  intros Hrun. unfold insert_ledger_transaction in Hrun. tx_inv Hrun.
  match goal with H : _ || _ = false |- _ => apply orb_false_iff in H as [H1 H2] end.
  rewrite <- !str_in_elem, H1, H2. done.
Qed.

Lemma post_entries_shape env ac tenant kind rt ri idem desc delta counter d tid d' :
  post_entries env ac tenant kind rt ri idem desc delta counter d = Ok (tid, d') →
  ∃ t c k, d' = set_ledger_entries (ledger_entries d ++ [c; k])
                  (set_ledger_transactions (ledger_transactions d ++ [t]) d) ∧
    lt_id t = tid ∧ lt_idempotency_key t = idem ∧
    (tid ∉ (lt_id <$> ledger_transactions d)) ∧
    (idem ∉ (lt_idempotency_key <$> ledger_transactions d)) ∧
    c = mkLedgerEntry ("entry-customer-" +:+ env_uuid env 1) tid (ac_id ac)
          "customer_balance" delta (ac_currency ac) (env_now env) ∧
    k = mkLedgerEntry ("entry-counter-" +:+ env_uuid env 2) tid (ac_id ac)
          counter (- delta) (ac_currency ac) (env_now env).
Proof.
  intros Hrun. unfold post_entries in Hrun. tx_inv Hrun.
  apply insert_ledger_transaction_Ok in Htx as (-> & Hid & Hkey).
  apply insert_ledger_entry_Ok in Htx0 as ->. apply insert_ledger_entry_Ok in Htx1 as ->.
  eexists _, _, _. split; [by simpl; rewrite <- app_assoc|]. done.
Qed.

Lemma booked_app a l d :
  booked a (set_ledger_entries (ledger_entries d ++ l) d) = booked a d + zsum (customer_amount a) l.
Proof. unfold booked. simpl. apply zsum_app. Qed.

(** A balanced pair of entries under a new transaction keeps the ledger, and
    consumes the balance that was moved for it. *)
Lemma ledger_pair_Ok p t c k d d' :
  Inv_at p d →
  d' = set_ledger_entries (ledger_entries d ++ [c; k])
         (set_ledger_transactions (ledger_transactions d ++ [t]) d) →
  lt_id t ∉ (lt_id <$> ledger_transactions d) →
  lt_idempotency_key t ∉ (lt_idempotency_key <$> ledger_transactions d) →
  le_transaction_id c = lt_id t → le_transaction_id k = lt_id t →
  le_billing_account_id c = pd_account p → le_billing_account_id k = pd_account p →
  le_amount_microunits c + le_amount_microunits k = 0 →
  let moved := zsum (customer_amount (pd_account p)) [c; k] in
  (is_Some (balances d !! pd_account p) ∨ moved = 0) →
  Inv_at (pend_balance (- moved) p) d' ∧
  validate_event d' (mkEventRow (pd_account p) 0 "ledger.posted" (lt_id t) JNull 0) = Ok tt ∧
  (∀ a, booked a d' = booked a d + (if decide (a = pd_account p) then moved else 0)).
Proof.
  intros HI -> Hnew Hkey Htc Htk Hac Hak Hsum moved Hrow.
  set (d1 := set_ledger_transactions (ledger_transactions d ++ [t]) d).
  change (ledger_entries d) with (ledger_entries d1).
  set (d' := set_ledger_entries (ledger_entries d1 ++ [c; k]) d1).
  assert (Hbooked : ∀ a, booked a d' =
                    booked a d + (if decide (a = pd_account p) then moved else 0)).
  { intros a. unfold d'. rewrite booked_app. change (booked a d1) with (booked a d). f_equal.
    case_decide as Heq; [by subst a|]. simpl. unfold customer_amount.
    rewrite Hac, Hak, !(proj2 (str_eqb_neq (pd_account p) a)) by congruence. done. }
  assert (Hentries : ∀ x, transaction_entries x d' =
      transaction_entries x d ++ (if decide (x = lt_id t) then [c; k] else [])).
  { intros x. unfold transaction_entries. simpl. rewrite filter_app. f_equal.
    rewrite !filter_cons, filter_nil, Htc, Htk.
    destruct (decide (x = lt_id t)); case_decide; congruence || done. }
  assert (Hnone : transaction_entries (lt_id t) d = []).
  { destruct (transaction_entries (lt_id t) d) eqn:E; [done|]. exfalso. apply Hnew.
    apply transaction_entries_known; [apply HI|]. by rewrite E. }
  assert (Hgrow : sources_grow d d').
  { split; [|by eauto..]. intros x Hx. rewrite Hentries, decide_False, app_nil_r; [done|].
    by intros ->. }
  split; [|split; [|done]].
  - destruct HI as [Hp Hr Hl He Hcf Hw]. split.
    + destruct Hp as [Pb Pbn Pk Pkn Ps Psn]. split; simpl; try done.
      * intros a row Hab. apply Pb in Hab. rewrite Hbooked.
        change (held a d') with (held a d). case_decide; lia.
      * intros Hn. destruct Hrow as [[row Hrow]|Hz]; [congruence|].
        apply Pbn in Hn. lia.
    + intros id r Hid'. destruct (Hr id r Hid'). by split.
    + destruct Hl as [Lk Lu Lq Lb]. split; simpl; rewrite ?fmap_app; simpl.
      * intros e. rewrite !elem_of_app, !elem_of_cons.
        intros [He'%Lk|[->|[->|Hn]]]; [by left|right; left; congruence..|].
        by apply elem_of_nil in Hn.
      * apply NoDup_app. split; [done|]. split; [|apply NoDup_singleton].
        intros x Hx ->%list_elem_of_singleton. done.
      * apply NoDup_app. split; [done|]. split; [|apply NoDup_singleton].
        intros x Hx ->%list_elem_of_singleton. done.
      * intros x. rewrite elem_of_app, list_elem_of_singleton. intros [Hx| ->].
        -- rewrite Hentries, decide_False, app_nil_r; [by apply Lb|].
           intros Heq. apply Hnew. rewrite <- Heq. by apply list_elem_of_fmap_2.
        -- rewrite Hentries, decide_True, Hnone by done.
           exists c, k. split; [done|]. split; [congruence|done].
    + destruct He as [Es Ev Ej]. split; [done| |done].
      intros e Hin. by eapply validate_event_grow, Ev.
    + by destruct Hcf; split.
    + intros id w Hid'. by destruct (Hw id w Hid').
  - unfold validate_event. simpl. rewrite Hentries, decide_True, Hnone by done.
    simpl. rewrite Hac, Hak, !str_eqb_refl. simpl.
    by replace (le_amount_microunits c + (le_amount_microunits k + 0) =? 0) with true
      by (symmetry; apply Z.eqb_eq; lia).
Qed.

(** Posting moves the pending balance into the ledger. *)
Lemma post_entries_Ok env p ac tenant kind rt ri idem desc delta counter d tid d' :
  Inv_at p d → ac_id ac = pd_account p → counter ≠ "customer_balance"%string →
  is_Some (balances d !! pd_account p) →
  post_entries env ac tenant kind rt ri idem desc delta counter d = Ok (tid, d') →
  Inv_at (pend_balance (- delta) p) d' ∧
  (∃ t e, d' = set_ledger_entries e (set_ledger_transactions t d)) ∧
  validate_event d' (mkEventRow (ac_id ac) 0 "ledger.posted" tid JNull 0) = Ok tt ∧
  (∀ a, booked a d' = booked a d + (if decide (a = ac_id ac) then delta else 0)).
Proof.
  intros HI Ha Hcounter Hrow
    (t & c & k & Hd' & Hid & Hidem & Hnew & Hkey & Hc & Hk)%post_entries_shape.
  assert (Hmoved : zsum (customer_amount (pd_account p)) [c; k] = delta).
  { subst c k. simpl. unfold customer_amount. simpl.
    rewrite Ha, !str_eqb_refl, (proj2 (str_eqb_neq _ _)) by done. simpl. lia. }
  destruct (ledger_pair_Ok p t c k d d' HI Hd') as (HI' & Hv & Hb);
    try (subst c k; simpl; congruence || lia); [by left|].
  rewrite Hmoved in *. rewrite Ha, <- Hid.
  split; [done|]. split; [by eexists _, _|]. done.
Qed.

(** Only derived rows and postings were written: projections, ledger, log. *)
Definition bookkeeping (d d' : Db) : Prop := ∃ b k s t e v j,
  d' = set_jobs j (set_events v (set_ledger_entries e (set_ledger_transactions t
         (set_month_spends s (set_key_holds k (set_balances b d)))))).

#[local] Instance bookkeeping_preorder : PreOrder bookkeeping.
Proof.
  split.
  - intros []. by do 7 eexists.
  - intros d1 d2 d3 (b & k & s & t & e & v & j & ->) (b' & k' & s' & t' & e' & v' & j' & ->).
    by exists b', k', s', t', e', v', j'.
Qed.

Lemma projection_bookkeeping d d' : projection_only d d' → bookkeeping d d'.
Proof.
  intros (b & k & s & ->). by exists b, k, s, (ledger_transactions d), (ledger_entries d), (events d), (jobs d).
Qed.
Lemma log_bookkeeping d d' : log_only d d' → bookkeeping d d'.
Proof.
  intros (e & j & ->). by exists (balances d), (key_holds d), (month_spends d),
    (ledger_transactions d), (ledger_entries d), e, j.
Qed.

(** What bookkeeping leaves alone. *)
Lemma bookkeeping_same d d' : bookkeeping d d' →
  reservations d' = reservations d ∧ usage_events d' = usage_events d ∧
  accounts d' = accounts d ∧ reviews d' = reviews d ∧ api_keys d' = api_keys d ∧
  catalog d' = catalog d ∧ projects d' = projects d.
Proof. by intros (b & k & s & t & e & v & j & ->). Qed.

Lemma insufficient_false b h delta :
  insufficient b h delta = false ↔
  i64_min ≤ b - h ≤ i64_max ∧ 0 ≤ b - h + delta ≤ i64_max.
Proof.
  unfold insufficient. destruct (checked_sub b h) as [v|] eqn:E; simpl.
  - apply checked_sub_Some in E as [-> Hv].
    destruct (checked_add (b - h) delta) as [w|] eqn:E2; simpl.
    + apply checked_add_Some in E2 as [-> Hw]. rewrite Z.ltb_ge. lia.
    + split; [done|]. intros [_ Hr].
      assert (checked_add (b - h) delta = Some (b - h + delta)) by
        (apply checked_add_Some; unfold i64_min; lia). congruence.
  - split; [done|]. intros [Hr _].
    assert (checked_sub b h = Some (b - h)) by (by apply checked_sub_Some). congruence.
Qed.

Lemma check_debit_Ok env p ac delta d u d' :
  Inv_at p d → ac_id ac = pd_account p → check_debit env ac delta d = Ok (u, d') →
  Inv_at p d' ∧ projection_only d d' ∧
  (ac_enforce_balance ac = true → delta < 0 →
   0 ≤ booked (ac_id ac) d + pd_balance p - (held (ac_id ac) d + pd_held p) + delta).
Proof.
  intros HI Ha Hrun. unfold check_debit in Hrun.
  destruct (Z.ltb_spec delta 0), (ac_enforce_balance ac); simpl in Hrun;
    try (apply tx_ret_Ok in Hrun as [_ ->]; split; [done|split; [done|intros; done || lia]]).
  unfold balance_and_held in Hrun. tx_inv Hrun.
  match goal with H : insufficient _ _ _ = false |- _ => apply insufficient_false in H end.
  match goal with H : account _ _ _ = _ |- _ =>
    eapply account_Ok in H as (HI1 & Ho & _ & Hb & Hh); [|done..] end.
  split; [done|]. split; [done|]. simpl in *. lia.
Qed.

Lemma insert_balanced_entries_Ok env p ac tenant kind rt ri idem desc delta counter d u d' :
  Inv_at p d → ac_id ac = pd_account p → ac_id ac = account_id (ac_project_id ac) →
  counter ≠ "customer_balance"%string →
  insert_balanced_entries env ac tenant kind rt ri idem desc delta counter d = Ok (u, d') →
  Inv_at p d' ∧ bookkeeping d d' ∧
  (∀ a, booked a d' = booked a d + (if decide (a = ac_id ac) then delta else 0)) ∧
  ∃ locked, accounts d !! ac_project_id ac = Some locked ∧
    (ac_enforce_balance locked = true → delta < 0 →
     0 ≤ booked (ac_id ac) d + pd_balance p - (held (ac_id ac) d + pd_held p) + delta).
Proof.
  intros HI Ha Hid Hc Hrun. unfold insert_balanced_entries, lock_account in Hrun. tx_inv Hrun.
  match goal with H : accounts _ !! _ = Some ?l |- _ => rename l into locked, H into Hlock end.
  assert (ac_id locked = ac_id ac) as Hl.
  { destruct (co_account _ (inv_config _ _ HI) _ _ Hlock) as (_ & -> & _). done. }
  apply (check_debit_Ok _ p) in Htx as (HI1 & Ho1 & Hdebit); [|done|by rewrite Hl].
  apply (change_balance_Ok _ p) in Htx0 as (HI2 & Ho2 & Hrow); [|done..].
  eapply post_entries_Ok in Htx1 as (HI3 & (t & e & Ho3) & Hv & Hb); [|done..|simpl; by rewrite <- Ha].
  eapply append_event_Ok in Hrun as (HI4 & Ho4); [|done..].
  assert (Hpost : bookkeeping d4 d5).
  { subst d5. by exists (balances d4), (key_holds d4), (month_spends d4), t, e, (events d4), (jobs d4). }
  split; [|split; [|split]].
  - by rewrite pend_balance_cancel in HI4.
  - by rewrite (projection_bookkeeping _ _ Ho1), (projection_bookkeeping _ _ Ho2), Hpost,
      (log_bookkeeping _ _ Ho4).
  - intros b. destruct (log_only_history _ _ Ho4) as (-> & _). rewrite Hb.
    history Ho2. history Ho1. done.
  - exists locked. rewrite Hl in Hdebit. split; [done|]. intros. by apply Hdebit.
Qed.
End ledger_correctness.
