(* ===== verification/Reservations.v ===== *)
(** * Reservations: the account-serialized money protocol

    [crates/control-plane/src/billing.rs]: reserve, dispatch, release, settle
    and the report of unresolved usage.  A reservation is created with the
    price of its limits on hold, at frozen terms; it is dispatched before the
    provider is called; it ends released, settled or waived. *)

From S2P Require Import Prelude Domain Models Store Books Catalog Projection Ledger.
Local Open Scope Z_scope.

(** ** Operations *)

Definition identifier (value : string) : bool :=
  negb (is_empty value) && (str_len value <=? 128)
  && bytes_all (λ c, is_ascii_alphanumeric c || one_of ["-"; "_"; "."; ":"]%char c) value.

Definition find_reservation (project id : string) : Tx Reservation :=
  row ← gets (λ d, reservations d !! id);
  found (row ≫= λ r, if str_eqb (rv_project_id r) project then Some r else None) NotFound.

(** [active.update(tx)]: the row is written back under its id. *)
Definition update_reservation (row : Reservation) : Tx Reservation :=
  modify (λ d, set_reservations (<[rv_id row := row]> (reservations d)) d) ;;
  mret row.

(** The columns a handler may change. *)
Definition with_state (r : Reservation) (state : ReservationState) (settled : option Z)
    (completion : option Json) (now : Z) : Reservation :=
  mkReservation (rv_id r) (rv_billing_account_id r) (rv_project_id r) (rv_tenant_id r)
    (rv_api_key_id r) (rv_request_id r) (rv_spec r) (rv_price r)
    (rv_reserved_microunits r) settled state completion (rv_created_at r) now.

Definition unresolved_report_ok (r : UnresolvedRequest) : bool :=
  identifier (unr_event_id r)
  && str_in (unr_reason r) ["usage_missing"; "usage_over_limit"]
  && negb (str_eqb (unr_reason r) "usage_missing"
           && (is_some (unr_input_tokens r) || is_some (unr_output_tokens r)))
  && negb (str_eqb (unr_reason r) "usage_over_limit"
           && (negb (is_some (unr_input_tokens r)) || negb (is_some (unr_output_tokens r)))).

Definition unresolved_money (env : Env) (project id : string) (request : UnresolvedRequest)
    : Tx Reservation :=
  fail_if (negb (unresolved_report_ok request)) (Invalid "invalid unresolved usage report") ;;
  account ← lock_account project;
  row ← find_reservation project id;
  match rv_state row with
  | Settled | Waived => mret row
  | Reserved | Released => throw (Conflict "unresolved usage requires dispatched reservation")
  | Dispatched =>
      let payload := unresolved_json request in
      match rv_completion row with
      | Some previous =>
          fail_if (bool_decide (previous ≠ payload)) (Conflict "unresolved evidence changed") ;;
          mret row
      | None =>
          row ← update_reservation
            (with_state row Dispatched (rv_settled_microunits row) (Some payload) (env_now env));
          append_event env (ac_id account) "reservation.unresolved" id payload ;;
          mret row
      end
  end.

Definition reserve_request_ok (r : ReserveRequest) : bool :=
  forallb identifier
    [rr_id r; rr_tenant_id r; rr_project_id r; rr_api_key_id r; rr_request_id r;
     rr_model_id r; rr_model_revision r; rr_price_version r]
  && (0 <=? rr_input_token_limit r) && (0 <=? rr_output_token_limit r).

Definition key_refused (key : ApiKeyRow) (r : ReserveRequest) (now : Z) : bool :=
  negb (str_eqb (ak_project_id key) (rr_project_id r))
  || negb (str_eqb (ak_tenant_id key) (rr_tenant_id r))
  || is_some (ak_revoked_at key)
  || expired_at (ak_expires_at key) now
  || negb (existsb (λ s, str_in s ["chat.completions"; "completions"]) (ak_scopes key))
  || negb (str_in (rr_model_id r) (ak_allowed_models key)).

Definition context_refused (model : Model) (r : ReserveRequest) : bool :=
  negb (str_eqb (rr_price_version r) (price_version model))
  || match checked_add (rr_input_token_limit r) (rr_output_token_limit r) with
     | Some v => (v =? 0) || (max_context_tokens model <? v)
     | None => true
     end.

(** The request identity was used by a reservation or by a usage event. *)
Definition request_used (project request : string) (d : Db) : bool :=
  existsb (λ r, str_eqb (rv_project_id r) project && str_eqb (rv_request_id r) request)
    (map_to_list (reservations d)).*2
  || existsb (λ u, str_eqb (us_project_id u) project && str_eqb (us_request_id u) request)
       (usage_events d).

Definition check_available (env : Env) (account : Account) (amount : Z) : Tx unit :=
  if ac_enforce_balance account then
    bh ← balance_and_held env (ac_id account);
    fail_if (match v ← checked_sub bh.1 bh.2; checked_sub v amount with
             | Some v => v <? 0
             | None => true
             end) (InsufficientFunds "available balance cannot cover the reservation")
  else mret tt.

Definition over_budget (spent key_held amount budget : Z) : bool :=
  match v ← checked_add spent key_held; checked_add v amount with
  | Some v => budget <? v
  | None => true
  end.

Definition created_json (amount : Z) (version : string) : Json :=
  JObj [("reserved_microunits", JNum amount); ("price_version", JStr version)].
Definition not_dispatched_json : Json := JObj [("reason", JStr "not_dispatched")].
Definition settled_json (usage : string) (amount : Z) : Json :=
  JObj [("usage_event_id", JStr usage); ("settled_microunits", JNum amount)].

Definition insert_reservation (row : Reservation) : Tx Reservation :=
  dup ← gets (λ d, is_some (reservations d !! rv_id row)
    || existsb (λ r, str_eqb (rv_project_id r) (rv_project_id row)
                     && str_eqb (rv_request_id r) (rv_request_id row))
         (map_to_list (reservations d)).*2);
  fail_if dup duplicate_row ;;
  update_reservation row.

Definition insert_usage (row : UsageRow) : Tx unit :=
  dup ← gets (λ d, str_in (us_event_id row) (us_event_id <$> usage_events d));
  fail_if dup Database ;;
  modify (λ d, set_usage_events (usage_events d ++ [row]) d).

Section money.
Context `{Calendar}.

Definition check_budget (env : Env) (key : ApiKeyRow) (amount : Z) : Tx unit :=
  if 0 <? ak_monthly_budget_amount key then
    spent ← monthly env (ak_id key) (month_floor (env_now env));
    key_held ← key_hold env (ak_id key);
    budget ← found (checked_mul (ak_monthly_budget_amount key) MICROS_PER_MINOR_UNIT)
               (Invalid "budget overflow");
    fail_if (over_budget (ms_spent_microunits spent) (kh_held_microunits key_held) amount budget)
      (InsufficientFunds "monthly budget cannot cover the reservation")
  else mret tt.

(** The admission of a request that was not reserved before. *)
Definition reserve_new (env : Env) (account : Account) (request : ReserveRequest)
    : Tx Reservation :=
  fail_if (negb (str_eqb (ac_status account) "active")
           || negb (str_eqb (ac_currency account) "CNY")) Forbidden ;;
  key ← gets (λ d, api_keys d !! rr_api_key_id request);
  key ← found key Forbidden;
  let now := env_now env in
  fail_if (key_refused key request now) Forbidden ;;
  model ← active_model (rr_model_id request);
  fail_if (context_refused model request)
    (Invalid "unknown price/model or invalid context bounds") ;;
  used ← gets (request_used (rr_project_id request) (rr_request_id request));
  fail_if used (Conflict "request identity has already been used") ;;
  amount ← lift_domain (usage_cost_microunits model
    (rr_input_token_limit request) (rr_output_token_limit request));
  check_available env account amount ;;
  check_budget env key amount ;;
  change_hold env (ac_id account) (ak_id key) amount ;;
  row ← insert_reservation
    (mkReservation (rr_id request) (ac_id account) (rr_project_id request)
       (rr_tenant_id request) (rr_api_key_id request) (rr_request_id request)
       request model amount None Reserved None now now);
  append_event env (ac_id account) "reservation.created" (rv_id row)
    (created_json amount (price_version model)) ;;
  mret row.

Definition reserve_money (env : Env) (request : ReserveRequest) : Tx Reservation :=
  fail_if (negb (reserve_request_ok request))
    (Invalid "invalid reservation identity or token bounds") ;;
  account ← lock_account (rr_project_id request);
  fail_if (negb (str_eqb (ac_tenant_id account) (rr_tenant_id request))) Forbidden ;;
  existing ← gets (λ d, reservations d !! rr_id request);
  match existing with
  | Some existing =>
      fail_if (bool_decide (rv_spec existing ≠ request))
        (Conflict "reservation ID is bound to a different payload") ;;
      mret existing
  | None => reserve_new env account request
  end.

Definition money_reservation (project id : string) : Tx Reservation :=
  find_reservation project id.

Definition dispatch_money (env : Env) (project id : string) : Tx Reservation :=
  account ← lock_account project;
  row ← find_reservation project id;
  match rv_state row with
  | Dispatched => mret row
  | Reserved =>
      row ← update_reservation
        (with_state row Dispatched (rv_settled_microunits row) (rv_completion row) (env_now env));
      append_event env (ac_id account) "reservation.dispatched" id (JObj []) ;;
      mret row
  | _ => throw (Conflict "only reserved requests may be dispatched")
  end.

Definition release_money (env : Env) (project id reason : string) : Tx Reservation :=
  fail_if (negb (str_eqb reason "not_dispatched"))
    (Invalid "only verified not_dispatched requests can be released") ;;
  account ← lock_account project;
  row ← find_reservation project id;
  match rv_state row with
  | Released => mret row
  | Reserved =>
      change_hold env (ac_id account) (rv_api_key_id row) (- rv_reserved_microunits row) ;;
      row ← update_reservation
        (with_state row Released (rv_settled_microunits row)
           (Some (JObj [("reason", JStr reason)])) (env_now env));
      append_event env (ac_id account) "reservation.released" id not_dispatched_json ;;
      mret row
  | _ => throw (Conflict
      "dispatched/settled requests cannot be released; reconcile unknown usage")
  end.

Definition settle_request_ok (r : SettleRequest) : bool :=
  (0 <=? sr_input_tokens r) && (0 <=? sr_output_tokens r) && (0 <=? sr_latency_ms r)
  && identifier (sr_endpoint_id r) && identifier (sr_region r)
  && str_in (sr_status r) ["succeeded"; "cancelled"; "provider_error"].

(** The usage row of a settlement. *)
Definition settlement_usage (env : Env) (account : Account) (row : Reservation)
    (request : SettleRequest) (amount : Z) : UsageRow :=
  let now := env_now env in
  mkUsageRow (usage_id (rv_id row)) (rv_request_id row) now (rv_tenant_id row)
    (rv_project_id row) (rv_api_key_id row) (rr_model_id (rv_spec row))
    (rr_model_revision (rv_spec row)) (sr_endpoint_id request) (sr_region request)
    (price_version (rv_price row)) (sr_input_tokens request) (sr_output_tokens request) 0
    (sr_latency_ms request) (sr_status request) (ceil_minor_units amount) amount
    (ac_currency account) now.

(** The writes of a settlement, in the order of the source: the hold, the
    usage and the month ... *)
Definition settle_usage (env : Env) (account : Account) (row : Reservation)
    (request : SettleRequest) (amount : Z) : Tx unit :=
  let period := month_floor (env_now env) in
  month ← monthly env (rv_api_key_id row) period;
  change_hold env (ac_id account) (rv_api_key_id row) (- rv_reserved_microunits row) ;;
  insert_usage (settlement_usage env account row request amount) ;;
  change_spend env (rv_api_key_id row) period month amount.

(** ... then the row, the ledger and the log. *)
Definition settle_write (env : Env) (account : Account) (row : Reservation)
    (request : SettleRequest) (amount : Z) : Tx Reservation :=
  let usage := usage_id (rv_id row) in
  settle_usage env account row request amount ;;
  row ← update_reservation
    (with_state row Settled (Some amount) (Some (settle_json request)) (env_now env));
  (if 0 <? amount then
     insert_balanced_entries env account (rv_tenant_id row) "usage" "usage_event" usage
       ("reservation:" +:+ rv_id row) "Reserved model inference usage" (- amount)
       "usage_revenue"
   else mret tt) ;;
  append_event env (ac_id account) "reservation.settled" (rv_id row)
    (settled_json usage amount) ;;
  mret row.

Definition settle_locked (env : Env) (account : Account) (row : Reservation)
    (request : SettleRequest) : Tx Reservation :=
  fail_if (negb (settle_request_ok request))
    (Invalid "settlement requires known, nonnegative usage and a final outcome") ;;
  match rv_state row with
  | Settled =>
      fail_if (bool_decide (rv_completion row ≠ Some (settle_json request)))
        (Conflict "settlement payload changed") ;;
      mret row
  | Dispatched =>
      fail_if ((rr_input_token_limit (rv_spec row) <? sr_input_tokens request)
               || (rr_output_token_limit (rv_spec row) <? sr_output_tokens request))
        (Conflict "actual usage exceeds reserved bounds; hold retained for reconciliation") ;;
      amount ← lift_domain (usage_cost_microunits (rv_price row)
        (sr_input_tokens request) (sr_output_tokens request));
      settle_write env account row request amount
  | _ => throw (Conflict "settlement requires a dispatched reservation")
  end.

Definition settle_money (env : Env) (project id : string) (request : SettleRequest)
    : Tx Reservation :=
  account ← lock_account project;
  row ← find_reservation project id;
  settle_locked env account row request.
End money.

(** ** Writing a reservation or a usage row into history *)

(** What a row holds for its account and key. *)
Definition row_hold (r : Reservation) : Z :=
  if is_held (rv_state r) then rv_reserved_microunits r else 0.
Definition old_hold (id : string) (d : Db) : Z :=
  from_option row_hold 0 (reservations d !! id).

Lemma account_hold_row a r :
  account_hold a r = if decide (a = rv_billing_account_id r) then row_hold r else 0.
Proof.
  unfold account_hold, row_hold. case_decide as Ha.
  - rewrite (proj2 (str_eqb_eq _ _)) by done. done.
  - rewrite (proj2 (str_eqb_neq _ _)) by congruence. done.
Qed.
Lemma api_key_hold_row k r :
  api_key_hold k r = if decide (k = rv_api_key_id r) then row_hold r else 0.
Proof.
  unfold api_key_hold, row_hold. case_decide as Ha.
  - rewrite (proj2 (str_eqb_eq _ _)) by done. done.
  - rewrite (proj2 (str_eqb_neq _ _)) by congruence. done.
Qed.

(** A write keeps the account and the key of the row. *)
Definition same_owner (id : string) (r : Reservation) (d : Db) : Prop :=
  ∀ old, reservations d !! id = Some old →
    rv_billing_account_id old = rv_billing_account_id r ∧ rv_api_key_id old = rv_api_key_id r ∧
    rv_project_id old = rv_project_id r.

Lemma msum_put {A} (f : A → Z) (m : gmap string A) id r :
  msum f (<[id := r]> m) = msum f m - from_option f 0 (m !! id) + f r.
Proof.
  destruct (m !! id) as [old|] eqn:E; simpl.
  - by rewrite (msum_insert_old f m id r old E).
  - rewrite msum_insert_new by done. lia.
Qed.

Section writes.
Context `{Calendar}.

Lemma held_put a id r d :
  same_owner id r d →
  held a (set_reservations (<[id := r]> (reservations d)) d) =
  held a d + (if decide (a = rv_billing_account_id r) then row_hold r - old_hold id d else 0).
Proof.
  intros Ho. unfold held. simpl. rewrite msum_put, account_hold_row. unfold old_hold.
  destruct (reservations d !! id) as [old|] eqn:E; simpl.
  - rewrite account_hold_row. destruct (Ho _ E) as (-> & _). case_decide; lia.
  - case_decide; lia.
Qed.

Lemma key_held_put k id r d :
  same_owner id r d →
  key_held k (set_reservations (<[id := r]> (reservations d)) d) =
  key_held k d + (if decide (k = rv_api_key_id r) then row_hold r - old_hold id d else 0).
Proof.
  intros Ho. unfold key_held. simpl. rewrite msum_put, api_key_hold_row. unfold old_hold.
  destruct (reservations d !! id) as [old|] eqn:E; simpl.
  - rewrite api_key_hold_row. destruct (Ho _ E) as (_ & -> & _). case_decide; lia.
  - case_decide; lia.
Qed.

Lemma reservation_sources_grow id r d :
  same_owner id r d → sources_grow d (set_reservations (<[id := r]> (reservations d)) d).
Proof.
  intros Ho. split; simpl; [done| |by eauto].
  intros id' r' Hr'. destruct (decide (id' = id)) as [->|Hne].
  - exists r. rewrite lookup_insert_eq. split; [done|]. symmetry. by apply Ho.
  - exists r'. by rewrite lookup_insert_ne.
Qed.

(** Writing a row consumes the hold that was moved for it. *)
Lemma update_reservation_Ok p r d row d' :
  Inv_at p d → rv_billing_account_id r = pd_account p → rv_api_key_id r = pd_key p →
  same_owner (rv_id r) r d → reservation_ok d (rv_id r) r →
  pd_held p = row_hold r - old_hold (rv_id r) d →
  pd_key_held p = row_hold r - old_hold (rv_id r) d →
  update_reservation r d = Ok (row, d') →
  Inv_at (mkPending (pd_account p) (pd_key p) (pd_month p) (pd_balance p) 0 0 (pd_spent p)) d' ∧
  row = r ∧ d' = set_reservations (<[rv_id r := r]> (reservations d)) d.
Proof.
  intros HI Ha Hk Ho Hok Hph Hpk Hrun. unfold update_reservation in Hrun. tx_inv Hrun.
  split; [|done]. pose proof (reservation_sources_grow _ _ _ Ho) as Hgrow.
  destruct HI as [Hp Hr Hl He Hc Hw]. split.
  - destruct Hp as [Pb Pbn Pk Pkn Ps Psn]. split; simpl; try done.
    + intros a' b Hb. apply Pb in Hb. rewrite held_put, Ha by done.
      change (booked a' (set_reservations _ d)) with (booked a' d). case_decide; lia.
    + intros Hn. apply Pbn in Hn. lia.
    + intros k b Hb. apply Pk in Hb. rewrite key_held_put, Hk by done. case_decide; lia.
  - simpl. intros id r' [[<- <-]|[_ Hr']]%lookup_insert_Some.
    + by destruct Hok; split.
    + by destruct (Hr _ _ Hr'); split.
  - by destruct Hl; split.
  - destruct He as [Es Ev Ej]. split; [done| |done].
    intros e Hin. by eapply validate_event_grow, Ev.
  - by destruct Hc; split.
  - intros id w Hid. destruct (Hw id w Hid) as [W1 (o & Hres & Hproj) W3]. split; try done.
    simpl. destruct (decide (rv_id r = rw_reservation_id w)) as [Heq|Hne].
    + exists r. rewrite Heq, lookup_insert_eq. split; [done|]. rewrite <- Hproj. symmetry.
      apply Ho. by rewrite Heq.
    + exists o. by rewrite lookup_insert_ne.
Qed.

Lemma insert_usage_shape u d v d' :
  insert_usage u d = Ok (v, d') →
  d' = set_usage_events (usage_events d ++ [u]) d ∧
  us_event_id u ∉ (us_event_id <$> usage_events d).
Proof.
  intros Hrun. unfold insert_usage in Hrun. tx_inv Hrun.
  split; [done|]. rewrite <- str_in_elem. congruence.
Qed.

(** A usage row moves its cost into the month it belongs to. *)
Lemma insert_usage_Ok p u d v d' :
  Inv_at p d → us_api_key_id u = pd_key p → month_floor (us_occurred_at u) = pd_month p →
  0 ≤ us_cost_microunits u → is_Some (month_spends d !! (pd_key p, pd_month p)) →
  insert_usage u d = Ok (v, d') →
  Inv_at (pend_spent (- us_cost_microunits u) p) d'.
Proof.
  intros [Hp Hr Hl He Hc Hw] Hk Hm Hcost Hrow (-> & Hnew)%insert_usage_shape.
  set (d' := set_usage_events _ _).
  assert (Hspent : ∀ k m, month_spent k m d' = month_spent k m d
    + (if decide (k = pd_key p ∧ m = pd_month p) then us_cost_microunits u else 0)).
  { intros k m. unfold month_spent, d'. simpl. rewrite zsum_app. simpl. rewrite Z.add_0_r.
    f_equal. unfold month_spend. rewrite Hk, Hm. case_decide as Hd.
    - destruct Hd as [-> ->]. by rewrite str_eqb_refl, Z.eqb_refl.
    - destruct (str_eqb _ k) eqn:E1, (_ =? m) eqn:E2; simpl; try done.
      apply str_eqb_eq in E1. apply Z.eqb_eq in E2. naive_solver. }
  split.
  - destruct Hp as [Pb Pbn Pk Pkn Ps Psn]. split; simpl; try done.
    + intros k m row Hkm. apply Ps in Hkm as [Hf Hkm]. rewrite Hspent. case_decide; lia.
    + intros Hn. destruct Hrow as [? Hrow]. congruence.
  - intros id r Hid. destruct (Hr id r Hid) as [R1 R2 R3 R4 R5 R6]. split; try done.
    destruct (rv_state r); try done. destruct R6 as (a & w & ? & ? & Hin & ?).
    exists a, w. simpl. split; [done|]. split; [done|]. split; [|done]. set_solver.
  - by destruct Hl; split.
  - by destruct He; split.
  - destruct Hc as [Cj Ca Cc Cp Ck Cu Cs]. split; simpl; try done.
    + rewrite fmap_app. apply NoDup_app. split; [done|]. split; [|apply NoDup_singleton].
      intros x Hx ->%list_elem_of_singleton. done.
    + intros w. rewrite elem_of_app, list_elem_of_singleton. intros [Hin| ->]; [by apply Cs|done].
  - intros id w Hid. by destruct (Hw id w Hid).
Qed.
End writes.

(** ** Every operation keeps the books *)

Lemma update_reservation_row r d row d' : update_reservation r d = Ok (row, d') → row = r.
Proof. intros Hrun. unfold update_reservation in Hrun. by tx_inv Hrun. Qed.

Lemma find_reservation_Ok project id d r d' :
  find_reservation project id d = Ok (r, d') ↔
  d' = d ∧ reservations d !! id = Some r ∧ rv_project_id r = project.
Proof.
  split.
  - intros Hrun. unfold find_reservation in Hrun. tx_inv Hrun.
    match goal with H : _ ≫= _ = Some _ |- _ =>
      apply bind_Some in H as (x & Hx & Hp); case_match; simplify_eq end.
    match goal with H : str_eqb _ _ = true |- _ => apply str_eqb_eq in H; subst end. done.
  - intros (-> & Hr & Hp). unfold find_reservation, mbind, tx_bind, gets. simpl.
    rewrite Hr. simpl. by rewrite Hp, str_eqb_refl.
Qed.

Lemma lock_account_Ok project d ac d' :
  lock_account project d = Ok (ac, d') ↔ d' = d ∧ accounts d !! project = Some ac.
Proof.
  split.
  - intros Hrun. unfold lock_account in Hrun. by tx_inv Hrun.
  - intros [-> Ha]. unfold lock_account, mbind, tx_bind, gets. by rewrite Ha.
Qed.

Definition RESERVATION_KINDS : list string :=
  ["reservation.created"; "reservation.dispatched"; "reservation.released";
   "reservation.unresolved"; "reservation.waived"; "reservation.settled"].

Lemma reservation_event_valid d a kind id r :
  kind ∈ RESERVATION_KINDS → reservations d !! id = Some r → rv_billing_account_id r = a →
  validate_event d (mkEventRow a 0 kind id JNull 0) = Ok tt.
Proof.
  intros Hk Hr Ha. unfold validate_event.
  cbn [ev_kind ev_aggregate_id ev_billing_account_id].
  rewrite (proj2 (str_eqb_neq kind "ledger.posted")) by (intros ->; set_solver).
  rewrite (proj2 (str_in_elem kind _)) by done.
  unfold reservation_source. rewrite Hr. simpl. subst a. by rewrite str_eqb_refl.
Qed.

Ltac reservation_kind := unfold RESERVATION_KINDS; set_solver.

Lemma with_state_ok d id r state completion now :
  reservation_ok d id r → rv_state r ≠ Settled → state ≠ Settled →
  reservation_ok d id (with_state r state (rv_settled_microunits r) completion now).
Proof.
  intros [R1 R2 R3 R4 R5 R6] Hs Hs'. split; try done. simpl.
  destruct (rv_state r), state; done.
Qed.

Lemma same_owner_with_state d id r state settled completion now :
  reservations d !! id = Some r → same_owner id (with_state r state settled completion now) d.
Proof. intros Hr old Hold. by simplify_eq. Qed.

Section operations.
Context `{Calendar}.

(** The owner of a row found under a locked project. *)
Lemma locked_row p project id d ac r :
  Inv_at p d → accounts d !! project = Some ac → reservations d !! id = Some r →
  rv_project_id r = project →
  rv_billing_account_id r = ac_id ac ∧ rv_id r = id ∧ ac_id ac = account_id (ac_project_id ac).
Proof.
  intros HI Hac Hr <-. destruct (inv_reservations _ _ HI _ _ Hr) as [R1 _ R3 _ _ _].
  destruct (co_account _ (inv_config _ _ HI) _ _ Hac) as (-> & -> & _). done.
Qed.

Lemma cleared_rest a k m x : x = 0 →
  mkPending a k m 0 0 0 x = settled_at_rest a k m.
Proof. by intros ->. Qed.

(** Write a row, then log the change. *)
Lemma write_and_log env p r kind payload d row d1 u d2 :
  Inv_at p d → rv_billing_account_id r = pd_account p → rv_api_key_id r = pd_key p →
  same_owner (rv_id r) r d → reservation_ok d (rv_id r) r →
  pd_held p = row_hold r - old_hold (rv_id r) d →
  pd_key_held p = row_hold r - old_hold (rv_id r) d →
  kind ∈ RESERVATION_KINDS →
  update_reservation r d = Ok (row, d1) →
  append_event env (pd_account p) kind (rv_id r) payload d1 = Ok (u, d2) →
  Inv_at (mkPending (pd_account p) (pd_key p) (pd_month p) (pd_balance p) 0 0 (pd_spent p)) d2 ∧
  row = r ∧ log_only (set_reservations (<[rv_id r := r]> (reservations d)) d) d2.
Proof.
  intros HI Ha Hk Ho Hok Hh Hkh Hkind Hup Hlog.
  eapply update_reservation_Ok in Hup as (HI1 & -> & ->); [|done..].
  eapply append_event_Ok in Hlog as (HI2 & Ho2); [done| |].
  - exact HI1.
  - eapply reservation_event_valid; [done|apply lookup_insert_eq|done].
Qed.

(** A step that only logs a new state of a row whose hold does not change. *)
Lemma relabel_row env project id r state completion kind payload d ac row d1 u d2 :
  Inv d → accounts d !! project = Some ac → reservations d !! id = Some r →
  rv_project_id r = project → rv_state r ≠ Settled → state ≠ Settled →
  is_held state = is_held (rv_state r) → kind ∈ RESERVATION_KINDS →
  update_reservation (with_state r state (rv_settled_microunits r) completion (env_now env)) d
    = Ok (row, d1) →
  append_event env (ac_id ac) kind id payload d1 = Ok (u, d2) →
  Inv d2 ∧ row = with_state r state (rv_settled_microunits r) completion (env_now env) ∧
  log_only (set_reservations (<[id := row]> (reservations d)) d) d2.
Proof.
  intros HI Hac Hr Hp Hs Hs' Hh Hkind Hup Hlog.
  destruct (locked_row _ _ _ _ _ _ HI Hac Hr Hp) as (Ha & Hid & _).
  apply (Inv_focus (ac_id ac) (rv_api_key_id r) 0) in HI.
  eapply write_and_log in Hup as (HI2 & -> & Ho); simpl; try done.
  - split; [|split; [done|by rewrite <- Hid]]. by apply Inv_focus in HI2.
  - rewrite Hid. by apply same_owner_with_state.
  - rewrite Hid. apply with_state_ok; [by eapply inv_reservations|done|done].
  - unfold row_hold, old_hold. simpl. rewrite Hid, Hr, Hh. simpl. unfold row_hold. lia.
  - unfold row_hold, old_hold. simpl. rewrite Hid, Hr, Hh. simpl. unfold row_hold. lia.
  - by rewrite Hid.
Qed.

Lemma dispatch_money_Inv env project id d row d' :
  Inv d → dispatch_money env project id d = Ok (row, d') → Inv d'.
Proof.
  intros HI Hrun. unfold dispatch_money in Hrun. tx_inv Hrun.
  apply lock_account_Ok in Htx as [-> Hac]. apply find_reservation_Ok in Htx0 as (-> & Hr & Hp).
  destruct (rv_state a0) eqn:Hs; tx_inv Hrun; [|done].
  eapply relabel_row in Htx as (? & _); try done; rewrite ?Hs; try done. reservation_kind.
Qed.

Lemma unresolved_money_Inv env project id request d row d' :
  Inv d → unresolved_money env project id request d = Ok (row, d') → Inv d'.
Proof.
  intros HI Hrun. unfold unresolved_money in Hrun. tx_inv Hrun.
  apply lock_account_Ok in Htx as [-> Hac]. apply find_reservation_Ok in Htx0 as (-> & Hr & Hp).
  destruct (rv_state a1) eqn:Hs; tx_inv Hrun; try done.
  destruct (rv_completion a1) eqn:Hc; tx_inv Hrun; [done|].
  eapply relabel_row in Htx as (? & _); try done; rewrite ?Hs; try done. reservation_kind.
Qed.

(** Release and waiver give the whole hold back and leave the row unsettled. *)
Lemma free_row env project id r state completion kind payload d ac u0 d0 row d1 u d2 :
  Inv d → accounts d !! project = Some ac → reservations d !! id = Some r →
  rv_project_id r = project → is_held (rv_state r) = true →
  state ≠ Settled → is_held state = false → kind ∈ RESERVATION_KINDS →
  change_hold env (ac_id ac) (rv_api_key_id r) (- rv_reserved_microunits r) d = Ok (u0, d0) →
  update_reservation (with_state r state (rv_settled_microunits r) completion (env_now env)) d0
    = Ok (row, d1) →
  append_event env (ac_id ac) kind id payload d1 = Ok (u, d2) →
  Inv d2 ∧ row = with_state r state (rv_settled_microunits r) completion (env_now env) ∧
  ∃ d', projection_only d d' ∧
    log_only (set_reservations (<[id := row]> (reservations d')) d') d2.
Proof.
  intros HI Hac Hr Hp Hs Hs' Hh Hkind Hhold Hup Hlog.
  destruct (locked_row _ _ _ _ _ _ HI Hac Hr Hp) as (Ha & Hid & _).
  apply (Inv_focus (ac_id ac) (rv_api_key_id r) 0) in HI.
  eapply change_hold_Ok in Hhold as (HI1 & Ho1 & _); [|done..].
  assert (reservations d0 !! id = Some r) as Hr0.
  { destruct Ho1 as (? & ? & ? & ->). done. }
  eapply write_and_log in Hup as (HI2 & -> & Ho); simpl; try done.
  - split; [|split; [done|exists d0; split; [done|by rewrite <- Hid]]]. by apply Inv_focus in HI2.
  - rewrite Hid. by apply same_owner_with_state.
  - rewrite Hid. apply with_state_ok; [by eapply inv_reservations| |done].
    by destruct (rv_state r).
  - unfold row_hold, old_hold. simpl. rewrite Hid, Hr0, Hh. simpl. unfold row_hold. rewrite Hs. lia.
  - unfold row_hold, old_hold. simpl. rewrite Hid, Hr0, Hh. simpl. unfold row_hold. rewrite Hs. lia.
  - by rewrite Hid.
Qed.

Lemma release_money_Inv env project id reason d row d' :
  Inv d → release_money env project id reason d = Ok (row, d') → Inv d'.
Proof.
  intros HI Hrun. unfold release_money in Hrun. tx_inv Hrun.
  apply lock_account_Ok in Htx as [-> Hac]. apply find_reservation_Ok in Htx0 as (-> & Hr & Hp).
  destruct (rv_state a1) eqn:Hs; tx_inv Hrun; [|done].
  eapply free_row in Htx as (? & _); try done; rewrite ?Hs; try done. reservation_kind.
Qed.

Lemma check_available_Ok env p ac amount d u d' :
  Inv_at p d → ac_id ac = pd_account p → pd_balance p = 0 → pd_held p = 0 →
  check_available env ac amount d = Ok (u, d') →
  Inv_at p d' ∧ projection_only d d' ∧
  (ac_enforce_balance ac = true → amount ≤ booked (ac_id ac) d - held (ac_id ac) d).
Proof.
  intros HI Ha Hb0 Hh0 Hrun. unfold check_available in Hrun.
  destruct (ac_enforce_balance ac); [|by apply tx_ret_Ok in Hrun as [_ ->]].
  unfold balance_and_held in Hrun. tx_inv Hrun.
  match goal with H : account _ _ _ = _ |- _ =>
    eapply account_Ok in H as (HI1 & Ho & _ & Hb & Hh); [|done..] end.
  split; [done|]. split; [done|]. intros _. simpl in *.
  destruct (checked_sub _ _) as [v|] eqn:E1; simpl in *; [|done].
  destruct (checked_sub v amount) as [w|] eqn:E2; [|done].
  apply checked_sub_Some in E1 as [-> _]. apply checked_sub_Some in E2 as [-> _]. lia.
Qed.

Lemma over_budget_false s k a b :
  over_budget s k a b = false → s + k + a ≤ b.
Proof.
  unfold over_budget. destruct (checked_add s k) as [v|] eqn:E1; simpl; [|done].
  destruct (checked_add v a) as [w|] eqn:E2; [|done].
  apply checked_add_Some in E1 as [-> _]. apply checked_add_Some in E2 as [-> _].
  rewrite Z.ltb_ge. lia.
Qed.

Lemma check_budget_Ok env p key amount d u d' :
  Inv_at p d → ak_id key = pd_key p → pd_month p = month_floor (env_now env) →
  pd_key_held p = 0 → pd_spent p = 0 →
  check_budget env key amount d = Ok (u, d') →
  Inv_at p d' ∧ projection_only d d' ∧
  (0 < ak_monthly_budget_amount key →
   month_spent (ak_id key) (month_floor (env_now env)) d + key_held (ak_id key) d + amount
     ≤ ak_monthly_budget_amount key * MICROS_PER_MINOR_UNIT).
Proof.
  intros HI Hk Hm Hh0 Hs0 Hrun. unfold check_budget in Hrun.
  destruct (Z.ltb_spec 0 (ak_monthly_budget_amount key)) as [Hb|Hb];
    [|apply tx_ret_Ok in Hrun as [_ ->]; split; [done|split; [done|lia]]].
  tx_inv Hrun.
  eapply monthly_Ok in Htx as (HI1 & Ho1 & _ & Hs1); [|done..|apply month_floor_idem].
  eapply key_hold_Ok in Htx0 as (HI2 & Ho2 & _ & Hh2); [|done..].
  split; [done|]. split; [by rewrite Ho1|]. intros _.
  match goal with H : over_budget _ _ _ _ = false |- _ => apply over_budget_false in H end.
  match goal with H : checked_mul _ _ = Some _ |- _ => apply checked_mul_Some in H as [-> _] end.
  history Ho1. lia.
Qed.

(** What an admission commits, and what it checked. *)
Record admitted (env : Env) (ac : Account) (request : ReserveRequest) (d : Db)
    (row : Reservation) (d' : Db) : Prop := {
  ad_inv : Inv d';
  ad_new : reservations d !! rr_id request = None;
  ad_row : ∃ model amount,
    row = mkReservation (rr_id request) (ac_id ac) (rr_project_id request)
       (rr_tenant_id request) (rr_api_key_id request) (rr_request_id request)
       request model amount None Reserved None (env_now env) (env_now env) ∧
    usage_cost_microunits model (rr_input_token_limit request)
      (rr_output_token_limit request) = Ok amount;
  ad_balance : ac_enforce_balance ac = true →
    rv_reserved_microunits row ≤ booked (ac_id ac) d - held (ac_id ac) d;
  ad_budget key : api_keys d !! rr_api_key_id request = Some key →
    0 < ak_monthly_budget_amount key →
    month_spent (rr_api_key_id request) (month_floor (env_now env)) d
      + key_held (rr_api_key_id request) d + rv_reserved_microunits row
    ≤ ak_monthly_budget_amount key * MICROS_PER_MINOR_UNIT;
  ad_only : ∃ d1, projection_only d d1 ∧
    log_only (set_reservations (<[rr_id request := row]> (reservations d1)) d1) d';
  ad_asked : reserve_request_ok request = true ∧ ac_tenant_id ac = rr_tenant_id request }.

Lemma insert_reservation_Ok r d row d' :
  insert_reservation r d = Ok (row, d') →
  reservations d !! rv_id r = None ∧ update_reservation r d = Ok (row, d').
Proof.
  intros Hrun. unfold insert_reservation in Hrun. tx_inv Hrun.
  match goal with H : _ || _ = false |- _ => apply orb_false_iff in H as [Hd _] end.
  split; [by apply is_some_false|done].
Qed.

Lemma reserve_request_ok_nonneg r :
  reserve_request_ok r = true → 0 ≤ rr_input_token_limit r ∧ 0 ≤ rr_output_token_limit r.
Proof. unfold reserve_request_ok. rewrite !andb_true_iff, !Z.leb_le. naive_solver. Qed.

Lemma reserve_new_Ok env request ac d row d' :
  Inv d → accounts d !! rr_project_id request = Some ac →
  reserve_request_ok request = true → ac_tenant_id ac = rr_tenant_id request →
  reserve_new env ac request d = Ok (row, d') →
  admitted env ac request d row d'.
Proof.
  intros HI Hac Hok Htenant Hrun. destruct (reserve_request_ok_nonneg _ Hok) as [Hi Ho]. unfold reserve_new in Hrun. tx_inv Hrun.
  match goal with H : api_keys _ !! _ = Some ?k |- _ => rename k into key, H into Hkey end.
  apply active_model_Ok in Htx as (-> & mrow & Hcat & _ & <-).
  match goal with H : usage_cost_microunits _ _ _ = Ok ?x |- _ => rename x into amount, H into Hcost end.
  destruct (co_catalog _ (inv_config _ _ HI) _ _ Hcat) as [[Hprice _]%Model_validate_Ok _].
  destruct (co_account _ (inv_config _ _ HI) _ _ Hac) as (_ & Haid & _).
  pose proof (co_key _ (inv_config _ _ HI) _ _ Hkey) as Hkid.
  apply (Inv_focus (ac_id ac) (ak_id key) (month_floor (env_now env))) in HI.
  apply (check_available_Ok _ _ _ _ _ _ _ HI) in Htx0 as (HI1 & Ho1 & Hbal); [|done..].
  apply (check_budget_Ok _ _ _ _ _ _ _ HI1) in Htx1 as (HI2 & Ho2 & Hbud); [|done..].
  eapply change_hold_Ok in Htx2 as (HI3 & Ho3 & _); [|done..].
  apply insert_reservation_Ok in Htx3 as [Hnew Hup]. simpl in Hnew.
  pose proof (update_reservation_row _ _ _ _ Hup) as ->.
  eapply (write_and_log _ _ _ _ _ _ _ _ _ _ HI3) in Hup as (HI4 & _ & Ho4); [..|exact Htx4];
    simpl; rewrite ?Hkid; try done.
  - assert (projection_only d d11) as Hpo by (by rewrite Ho1, Ho2).
    assert (reservations d !! rr_id request = None) as Hnew0.
    { destruct Hpo as (? & ? & ? & ->). done. }
    simpl in HI4. split; simpl; try done.
    + by apply Inv_focus in HI4.
    + by eexists _, _.
    + intros key' Hkey'. simplify_eq. history Ho1. rewrite <- Hkid. done.
    + by exists d11.
  - intros old Hold. by simplify_eq.
  - unfold row_hold, old_hold. simpl. rewrite Hnew. simpl. lia.
  - unfold row_hold, old_hold. simpl. rewrite Hnew. simpl. lia.
  - reservation_kind.
Qed.

Lemma account_month_spends env a d row d' :
  account env a d = Ok (row, d') → month_spends d' = month_spends d.
Proof.
  intros Hrun. unfold account, historical_balance_and_held, put_balance in Hrun. tx_inv Hrun.
  destruct (balances _ !! _); tx_inv Hrun; done.
Qed.
Lemma key_hold_month_spends env k d row d' :
  key_hold env k d = Ok (row, d') → month_spends d' = month_spends d.
Proof.
  intros Hrun. unfold key_hold, historical_key_hold, put_key_hold in Hrun. tx_inv Hrun.
  destruct (key_holds _ !! _); tx_inv Hrun; done.
Qed.
Lemma change_hold_month_spends env a k x d u d' :
  change_hold env a k x d = Ok (u, d') → month_spends d' = month_spends d.
Proof.
  intros Hrun. unfold change_hold, put_balance, put_key_hold in Hrun. tx_inv Hrun. simpl.
  repeat match goal with
  | H : key_hold _ _ _ = _ |- _ => apply key_hold_month_spends in H as ->
  | H : account _ _ _ = _ |- _ => apply account_month_spends in H
  end. done.
Qed.

(** What a settlement commits. *)
Record settled_by (env : Env) (ac : Account) (row : Reservation) (request : SettleRequest)
    (d : Db) (row' : Reservation) (d' : Db) : Prop := {
  sb_inv : Inv d';
  sb_amount amount : rv_settled_microunits row' = Some amount →
    usage_cost_microunits (rv_price row) (sr_input_tokens request) (sr_output_tokens request)
      = Ok amount ∧ 0 ≤ amount ≤ rv_reserved_microunits row ∧
    (∀ a, booked a d' = booked a d - (if decide (a = ac_id ac) then amount else 0)) ∧
    ∃ u, usage_events d' = usage_events d ++ [u] ∧
      us_event_id u = usage_id (rv_id row) ∧ us_cost_microunits u = amount;
  sb_row : ∃ amount, row' = with_state row Settled (Some amount) (Some (settle_json request)) (env_now env);
  sb_reservations : reservations d' = <[rv_id row := row']> (reservations d);
  sb_accounts : accounts d' = accounts d;
  sb_reviews : reviews d' = reviews d }.

Lemma settle_usage_Ok env ac row request amount d u d' :
  let p := settled_at_rest (ac_id ac) (rv_api_key_id row) (month_floor (env_now env)) in
  Inv_at p d → 0 ≤ amount →
  settle_usage env ac row request amount d = Ok (u, d') →
  Inv_at (pend_held (- rv_reserved_microunits row) p) d' ∧
  ∃ d1, projection_only d d1 ∧
    projection_only (set_usage_events
      (usage_events d1 ++ [settlement_usage env ac row request amount]) d1) d'.
Proof.
  intros p HI Hamount Hrun. unfold settle_usage in Hrun. tx_inv Hrun.
  eapply monthly_Ok in Htx as (HI1 & Ho1 & Hm1 & Hs1); [|done..|apply month_floor_idem].
  pose proof (change_hold_month_spends _ _ _ _ _ _ _ Htx0) as Hm2.
  eapply change_hold_Ok in Htx0 as (HI2 & Ho2 & _); [|done..].
  pose proof (insert_usage_shape _ _ _ _ Htx1) as [Hd3 _].
  eapply insert_usage_Ok in Htx1 as HI3; [|done..|simpl; rewrite Hm2; by eexists].
  eapply change_spend_Ok in Hrun as (HI4 & Ho4 & _);
    [|done..|apply month_floor_idem|rewrite Hd3; simpl; by rewrite Hm2].
  split.
  - unfold pend_spent in HI4. simpl in HI4.
    by replace (0 + - amount + amount) with 0 in HI4 by lia.
  - rewrite Hd3 in Ho4. eexists. split; [by rewrite Ho1|done].
Qed.

(** The posting of a settlement, when there is something to charge. *)
Lemma settle_post_Ok env p ac tenant usage idem amount d u d' :
  Inv_at p d → ac_id ac = pd_account p → ac_id ac = account_id (ac_project_id ac) →
  0 ≤ amount →
  (if 0 <? amount then
     insert_balanced_entries env ac tenant "usage" "usage_event" usage idem
       "Reserved model inference usage" (- amount) "usage_revenue"
   else mret tt) d = Ok (u, d') →
  Inv_at p d' ∧ bookkeeping d d' ∧
  ∀ a, booked a d' = booked a d - (if decide (a = ac_id ac) then amount else 0).
Proof.
  intros HI Ha Hid Hpos Hrun. destruct (Z.ltb_spec 0 amount).
  - eapply insert_balanced_entries_Ok in Hrun as (HI1 & Hb & Hbook & _); try done.
    split; [done|]. split; [done|]. intros a. rewrite Hbook. case_decide; lia.
  - tx_inv Hrun. split; [done|]. split; [by apply projection_bookkeeping|].
    intros a. case_decide; lia.
Qed.

(** The last steps: the row, the ledger, the log. *)
Lemma settle_write_Ok env ac row request amount d row' d' :
  Inv d → rv_billing_account_id row = ac_id ac → ac_id ac = account_id (ac_project_id ac) →
  reservations d !! rv_id row = Some row → rv_state row = Dispatched →
  usage_cost_microunits (rv_price row) (sr_input_tokens request) (sr_output_tokens request)
    = Ok amount →
  0 ≤ amount ≤ rv_reserved_microunits row →
  settle_write env ac row request amount d = Ok (row', d') →
  settled_by env ac row request d row' d'.
Proof.
  intros HI Hra Hac Hr Hs Hcost Hamount Hrun.
  apply (Inv_focus (ac_id ac) (rv_api_key_id row) (month_floor (env_now env))) in HI.
  pose proof (inv_reservations _ _ HI _ _ Hr) as [R1 R2 R3 R4 R5 R6].
  unfold settle_write in Hrun. tx_inv Hrun.
  eapply settle_usage_Ok in Htx as (HI1 & dm & Ho1 & Ho2); [|done|lia].
  destruct Ho1 as (b1 & k1 & s1 & ->), Ho2 as (b2 & k2 & s2 & ->).
  pose proof (update_reservation_row _ _ _ _ Htx0) as ->.
  eapply update_reservation_Ok in Htx0 as (HI2 & _ & ->); [|exact HI1|..]; simpl; try done.
  2:{ intros old Hold. simpl in Hold. by simplify_eq. }
  2:{ split; simpl; try done. eexists amount, _. split; [done|]. split; [done|].
      split; [apply elem_of_app; right; by apply list_elem_of_singleton|].
      split_and!; try done. by exists request. }
  2,3: unfold row_hold, old_hold; simpl; rewrite Hr; simpl; unfold row_hold; rewrite Hs; simpl; lia.
  simpl in HI2.
  match type of HI2 with Inv_at _ ?x => set (dw := x) in * end.
  apply (settle_post_Ok _ _ _ _ _ _ _ _ _ _ HI2) in Htx1 as (HI3 & Hb & Hbook); [|done|done|lia].
  apply bookkeeping_same in Hb as (Er & Eu & Ea & Ew & _).
  eapply append_event_Ok in Htx2 as (HI4 & (e & j & ->)); [|exact HI3|].
  2:{ eapply reservation_event_valid; [reservation_kind|by rewrite Er; apply lookup_insert_eq|done]. }
  split; simpl; rewrite ?Er, ?Eu, ?Ea, ?Ew; try done.
  - by apply Inv_focus in HI4.
  - intros x [= <-]. split; [done|]. split; [done|]. split; [exact Hbook|]. by eexists.
  - by eexists.
Qed.

Lemma settle_request_ok_nonneg r :
  settle_request_ok r = true → 0 ≤ sr_input_tokens r ∧ 0 ≤ sr_output_tokens r.
Proof. unfold settle_request_ok. rewrite !andb_true_iff, !Z.leb_le. naive_solver. Qed.

Lemma settle_locked_Ok env ac project id row request d row' d' :
  Inv d → accounts d !! project = Some ac → reservations d !! id = Some row →
  rv_project_id row = project →
  settle_locked env ac row request d = Ok (row', d') →
  (rv_state row = Settled ∧ rv_completion row = Some (settle_json request) ∧ row' = row ∧ d' = d)
  ∨ (rv_state row = Dispatched ∧ settled_by env ac row request d row' d').
Proof.
  intros HI Hac Hr Hp Hrun. unfold settle_locked in Hrun. tx_inv Hrun.
  match goal with H : negb (settle_request_ok _) = false |- _ =>
    apply negb_false_iff, settle_request_ok_nonneg in H as [Hi Ho] end.
  destruct (rv_state row) eqn:Hs; tx_inv Hrun.
  - right. split; [done|].
    match goal with H : _ || _ = false |- _ =>
      rewrite orb_false_iff, !Z.ltb_ge in H; destruct H as [Hli Hlo] end.
    match goal with H : usage_cost_microunits _ _ _ = Ok ?x |- _ =>
      rename x into amount, H into Hcost end.
    destruct (locked_row _ _ _ _ _ _ HI Hac Hr eq_refl) as (Ha & Hid & Haid).
    destruct (inv_reservations _ _ HI _ _ Hr) as [_ _ _ R4 R5 _].
    destruct (usage_cost_mono _ (sr_input_tokens request) (sr_output_tokens request) _ _ _ R4
      (conj Hi Hli) (conj Ho Hlo) R5) as (c & Hc & Hrange).
    rewrite Hcost in Hc. simplify_eq. by eapply settle_write_Ok.
  - left. match goal with H : bool_decide _ = false |- _ =>
      apply bool_decide_eq_false, dec_stable in H end. done.
Qed.

Lemma settle_money_Inv env project id request d row d' :
  Inv d → settle_money env project id request d = Ok (row, d') → Inv d'.
Proof.
  intros HI Hrun. unfold settle_money in Hrun. tx_inv Hrun.
  apply lock_account_Ok in Htx as [-> Hac]. apply find_reservation_Ok in Htx0 as (-> & Hr & Hp).
  eapply settle_locked_Ok in Hrun as [(_ & _ & _ & ->)|(_ & Hsb)]; try done. apply Hsb.
Qed.

(** A reservation is either the one already stored for the id or admitted now. *)
Lemma reserve_money_Ok env request d row d' :
  Inv d → reserve_money env request d = Ok (row, d') →
  ∃ ac, accounts d !! rr_project_id request = Some ac ∧ ac_tenant_id ac = rr_tenant_id request ∧
  ((reservations d !! rr_id request = Some row ∧ rv_spec row = request ∧ d' = d)
   ∨ admitted env ac request d row d').
Proof.
  intros HI Hrun. unfold reserve_money in Hrun. tx_inv Hrun.
  match goal with H : negb (reserve_request_ok _) = false |- _ =>
    apply negb_false_iff in H; rename H into Hok end.
  match goal with H : negb (str_eqb _ _) = false |- _ =>
    apply negb_false_iff, str_eqb_eq in H end.
  apply lock_account_Ok in Htx as [-> Hac]. eexists. split; [done|]. split; [done|].
  destruct (reservations d !! rr_id request) as [existing|] eqn:Hr.
  - tx_inv Hrun. left. match goal with H : bool_decide _ = false |- _ =>
      apply bool_decide_eq_false, dec_stable in H end. done.
  - right. by eapply reserve_new_Ok.
Qed.

Lemma reserve_money_Inv env request d row d' :
  Inv d → reserve_money env request d = Ok (row, d') → Inv d'.
Proof.
  intros HI Hrun. eapply reserve_money_Ok in Hrun as (ac & _ & _ & [(_ & _ & ->)|Had]); [done| |done].
  apply Had.
Qed.
End operations.
