(* ===== verification/Review.v ===== *)
(** * Review: evidence settlement and the two-person loss waiver

    [crates/control-plane/src/billing_review.rs].  A pending reservation whose
    usage is unknown is closed only by a review: one person submits evidence
    (or a loss waiver), another approves it, and the approval settles or
    waives the reservation in the same transaction. *)

From S2P Require Import Prelude Domain Models Store Books Catalog Projection Ledger Reservations.
Local Open Scope Z_scope.

(** ** Operations *)

Definition validate_waiver (r : WaiverRequest) : result ServiceError unit :=
  require
    (identifier (wr_id r) && identifier (wr_incident_reference r)
     && negb (is_blank (wr_reason r)) && (str_len (wr_reason r) <=? 2048)
     && wr_request_terminated r && wr_platform_absorbs_loss r)
    (Invalid "loss waiver requires an incident, reason, terminated request and explicit platform loss acceptance").

Definition validate_evidence (r : EvidenceRequest) : result ServiceError unit :=
  require
    (identifier (eq_id r) && identifier (eq_source r) && identifier (eq_source_request_id r)
     && negb (is_blank (eq_document r)) && (str_len (eq_document r) <=? 65536)
     && negb (is_blank (eq_explanation r)) && (str_len (eq_explanation r) <=? 2048)
     && (0 <=? sr_input_tokens (eq_usage r)) && (0 <=? sr_output_tokens (eq_usage r))
     && (0 <=? sr_latency_ms (eq_usage r))
     && identifier (sr_endpoint_id (eq_usage r)) && identifier (sr_region (eq_usage r))
     && str_in (sr_status (eq_usage r)) ["succeeded"; "cancelled"; "provider_error"])
    (Invalid "bounded original evidence, explanation and known final usage are required").

Definition evidence_id (e : Evidence) : string :=
  match e with UsageEvidence r => eq_id r | LossWaiver r => wr_id r end.
Definition is_waiver (e : Evidence) : bool :=
  match e with LossWaiver _ => true | UsageEvidence _ => false end.

(** The document of a submission. *)
Definition submission_json (e : Evidence) : Json :=
  match e with
  | UsageEvidence r =>
      JObj [("id", JStr (eq_id r)); ("source", JStr (eq_source r));
            ("source_request_id", JStr (eq_source_request_id r));
            ("document", JStr (eq_document r)); ("explanation", JStr (eq_explanation r));
            ("usage", settle_json (eq_usage r))]
  | LossWaiver r =>
      JObj [("id", JStr (wr_id r)); ("reason", JStr (wr_reason r));
            ("incident_reference", JStr (wr_incident_reference r));
            ("request_terminated", JBool (wr_request_terminated r));
            ("platform_absorbs_loss", JBool (wr_platform_absorbs_loss r));
            ("kind", JStr "loss_waiver")]
  end.

Definition state_name (s : ReviewState) : string :=
  match s with
  | ReviewSubmitted => "submitted" | ReviewRejected => "rejected"
  | ReviewSettled => "settled" | ReviewWaived => "waived"
  end.

Definition decision_json (r : DecisionRequest) : Json :=
  JObj [("evidence_sha256", JStr (dr_evidence_sha256 r)); ("action", JStr (dr_action r));
        ("reason", JStr (dr_reason r))].

Definition summary (row : Review) : Json :=
  JObj [("id", JStr (rw_id row)); ("reservation_id", JStr (rw_reservation_id row));
        ("project_id", JStr (rw_project_id row));
        ("kind", JStr (if is_waiver (rw_evidence row) then "loss_waiver" else "usage_evidence"));
        ("submitted_by", JStr (rw_submitted_by row));
        ("reviewed_by", json_opt JStr (rw_reviewed_by row));
        ("state", JStr (state_name (rw_state row)));
        ("evidence_sha256", JStr (rw_evidence_sha256 row));
        ("created_at", JNum (rw_created_at row)); ("updated_at", JNum (rw_updated_at row));
        ("decision", json_opt decision_json (rw_decision row))].

Definition append_audit (env : Env) (row : Review) (sequence : Z) (actor subject : string)
    (payload : Json) : Tx unit :=
  dup ← gets (λ d, existsb (λ a, str_eqb (ra_review_id a) (rw_id row)
                                 && (ra_sequence a =? sequence)) (review_audits d));
  fail_if dup Database ;;
  modify (λ d, set_review_audits (review_audits d ++
    [mkReviewAudit (rw_id row) sequence (rw_state row) actor
       (JObj [("subject", JStr subject); ("evidence_sha256", JStr (rw_evidence_sha256 row));
              ("details", payload)]) (env_now env)]) d).

Definition put_review (row : Review) : Tx Review :=
  modify (λ d, set_reviews (<[rw_id row := row]> (reviews d)) d) ;;
  mret row.

Definition review_json (reservation_id actor sha : string) : Json :=
  JObj [("reservation_id", JStr reservation_id); ("actor_id", JStr actor);
        ("evidence_sha256", JStr sha)].

Section review.
Context `{Calendar}.

(** SHA-256 over a serialized document, in a library. *)
Variable json_sha256 : Json → string.

Definition fingerprint (project reservation_id : string) (evidence : Evidence) : string :=
  json_sha256 (JObj [("project", JStr project); ("reservation", JStr reservation_id);
                     ("submission", submission_json evidence)]).

Definition submit_review (env : Env) (project reservation_id actor subject : string)
    (evidence : Evidence) (waiver : bool) : Tx Json :=
  account ← lock_account project;
  let id := evidence_id evidence in
  existing ← gets (λ d, reviews d !! id);
  match existing with
  | Some existing =>
      fail_if (negb (str_eqb (rw_project_id existing) project)
               || negb (str_eqb (rw_reservation_id existing) reservation_id)
               || negb (str_eqb (rw_submitted_by existing) actor)
               || bool_decide (rw_evidence existing ≠ evidence))
        (Conflict "evidence ID is bound to a different submission") ;;
      mret (summary existing)
  | None =>
      held ← find_reservation project reservation_id;
      fail_if (bool_decide (rv_state held ≠ Dispatched)
               && negb (waiver && bool_decide (rv_state held = Reserved)))
        (Conflict "review requires a pending reservation (usage evidence requires dispatched)") ;;
      row ← put_review
        (mkReview id reservation_id project actor evidence
           (fingerprint project reservation_id evidence) ReviewSubmitted None None
           (env_now env) (env_now env));
      append_audit env row 1 actor subject (JObj [("reservation_id", JStr reservation_id)]) ;;
      append_event env (ac_id account) "review.submitted" id
        (review_json reservation_id actor (rw_evidence_sha256 row)) ;;
      mret (summary row)
  end.

Definition submit_billing_evidence (env : Env) (project reservation_id actor subject : string)
    (request : EvidenceRequest) : Tx Json :=
  lift (validate_evidence request) ;;
  submit_review env project reservation_id actor subject (UsageEvidence request) false.

Definition submit_billing_waiver (env : Env) (project reservation_id actor subject : string)
    (request : WaiverRequest) : Tx Json :=
  lift (validate_waiver request) ;;
  submit_review env project reservation_id actor subject (LossWaiver request) true.

Definition decision_ok (r : DecisionRequest) : bool :=
  str_in (dr_action r) ["approve"; "reject"]
  && negb (is_blank (dr_reason r)) && (str_len (dr_reason r) <=? 2048)
  && (str_len (dr_evidence_sha256 r) =? 64)
  && bytes_all is_ascii_hexdigit (dr_evidence_sha256 r).

(** The effect of an approval on the reservation under review. *)
Definition approve_review (env : Env) (account : Account) (project id actor : string)
    (row : Review) : Tx unit :=
  held ← find_reservation project (rw_reservation_id row);
  match rw_evidence row with
  | LossWaiver _ =>
      fail_if (negb (is_held (rv_state held)))
        (Conflict "only pending reservations can be waived") ;;
      change_hold env (ac_id account) (rv_api_key_id held) (- rv_reserved_microunits held) ;;
      _ ← update_reservation
        (with_state held Waived (rv_settled_microunits held) (rv_completion held) (env_now env));
      append_event env (ac_id account) "reservation.waived" (rv_id held)
        (JObj [("review_id", JStr id); ("actor_id", JStr actor);
               ("evidence_sha256", JStr (rw_evidence_sha256 row))])
  | UsageEvidence evidence =>
      _ ← settle_locked env account held (eq_usage evidence);
      mret tt
  end.

Definition final_state (approve waiver : bool) : ReviewState :=
  if negb approve then ReviewRejected else if waiver then ReviewWaived else ReviewSettled.

(** The decided row. *)
Definition decided (env : Env) (actor : string) (request : DecisionRequest) (row : Review) : Review :=
  mkReview (rw_id row) (rw_reservation_id row) (rw_project_id row) (rw_submitted_by row)
    (rw_evidence row) (rw_evidence_sha256 row)
    (final_state (str_eqb (dr_action request) "approve") (is_waiver (rw_evidence row)))
    (Some actor) (Some request) (rw_created_at row) (env_now env).

Definition decide_billing_review (env : Env) (project id actor subject : string)
    (request : DecisionRequest) : Tx Json :=
  fail_if (negb (decision_ok request))
    (Invalid "decision requires action, exact evidence SHA-256 and reason") ;;
  account ← lock_account project;
  row ← gets (λ d, reviews d !! id);
  row ← found (row ≫= λ r, if str_eqb (rw_project_id r) project then Some r else None) NotFound;
  fail_if (str_eqb (rw_submitted_by row) actor) Forbidden ;;
  fail_if (negb (str_eqb (rw_evidence_sha256 row) (dr_evidence_sha256 request)))
    (Conflict "reviewed evidence SHA-256 changed") ;;
  let approve := str_eqb (dr_action request) "approve" in
  match rw_state row with
  | ReviewSubmitted =>
      (if approve then approve_review env account project id actor row else mret tt) ;;
      row ← put_review (decided env actor request row);
      append_audit env row 2 actor subject (decision_json request) ;;
      append_event env (ac_id account) ("review." +:+ state_name (rw_state row)) id
        (review_json (rw_reservation_id row) actor (rw_evidence_sha256 row)) ;;
      mret (summary row)
  | _ =>
      fail_if (bool_decide (rw_reviewed_by row ≠ Some actor)
               || bool_decide (rw_decision row ≠ Some request))
        (Conflict "review already decided with another payload/actor") ;;
      mret (summary row)
  end.
End review.

(** ** Reviews keep the books *)

Definition REVIEW_KINDS : list string :=
  ["review.submitted"; "review.settled"; "review.rejected"; "review.waived"].

Lemma review_event_valid d a kind id w r :
  kind ∈ REVIEW_KINDS → reviews d !! id = Some w →
  reservations d !! rw_reservation_id w = Some r → rv_billing_account_id r = a →
  validate_event d (mkEventRow a 0 kind id JNull 0) = Ok tt.
Proof.
  intros Hk Hw Hr Ha. unfold validate_event.
  cbn [ev_kind ev_aggregate_id ev_billing_account_id].
  rewrite (proj2 (str_eqb_neq kind "ledger.posted")) by (intros ->; set_solver).
  destruct (str_in kind _) eqn:E.
  { apply str_in_elem in E. set_solver. }
  rewrite (proj2 (str_in_elem kind _)) by done. rewrite Hw. simpl.
  unfold reservation_source. rewrite Hr. simpl. subst a. by rewrite str_eqb_refl.
Qed.

Lemma review_kind s : ("review." +:+ state_name s) ∈ REVIEW_KINDS.
Proof. destruct s; unfold REVIEW_KINDS; simpl; set_solver. Qed.

Lemma put_review_row w d row d' : put_review w d = Ok (row, d') → row = w.
Proof. intros Hrun. unfold put_review in Hrun. by tx_inv Hrun. Qed.

Section correctness.
Context `{Calendar}.

Lemma put_review_Ok p w d row d' :
  Inv_at p d → review_ok d (rw_id w) w →
  (∀ old, reviews d !! rw_id w = Some old → rw_reservation_id old = rw_reservation_id w) →
  put_review w d = Ok (row, d') →
  Inv_at p d' ∧ row = w ∧ d' = set_reviews (<[rw_id w := w]> (reviews d)) d.
Proof.
  intros [Hp Hr Hl He Hc Hw] Hok Hold Hrun. unfold put_review in Hrun. tx_inv Hrun.
  split; [|done]. split.
  - by destruct Hp; split.
  - intros id r Hid. by destruct (Hr id r Hid); split.
  - by destruct Hl; split.
  - destruct He as [Es Ev Ej]. split; [done| |done].
    intros e Hin. eapply validate_event_grow; [done| |by apply Ev].
    split; simpl; [done|by eauto|]. intros id r Hid.
    destruct (decide (id = rw_id w)) as [->|Hne].
    + exists w. rewrite lookup_insert_eq. split; [done|]. symmetry. by apply Hold.
    + exists r. by rewrite lookup_insert_ne.
  - by destruct Hc; split.
  - simpl. intros id w' [[<- <-]|[_ Hw']]%lookup_insert_Some.
    + by destruct Hok; split.
    + by destruct (Hw _ _ Hw'); split.
Qed.

Lemma append_audit_Ok env p w n actor subject payload d u d' :
  Inv_at p d → append_audit env w n actor subject payload d = Ok (u, d') →
  Inv_at p d' ∧ ∃ a, d' = set_review_audits a d.
Proof.
  intros [Hp Hr Hl He Hc Hw] Hrun. unfold append_audit in Hrun. tx_inv Hrun.
  split; [|by eexists]. split;
    [by destruct Hp; split|intros id r Hid; by destruct (Hr id r Hid); split
    |by destruct Hl; split|by destruct He; split|by destruct Hc; split
    |intros id w' Hid; by destruct (Hw id w' Hid); split].
Qed.

(** Store a review, audit it and log it. *)
Lemma write_review env w n actor subject details kind payload ac d row d1 u1 d2 u2 d3 :
  Inv d → review_ok d (rw_id w) w →
  (∀ old, reviews d !! rw_id w = Some old → rw_reservation_id old = rw_reservation_id w) →
  accounts d !! rw_project_id w = Some ac → kind ∈ REVIEW_KINDS →
  put_review w d = Ok (row, d1) →
  append_audit env row n actor subject details d1 = Ok (u1, d2) →
  append_event env (ac_id ac) kind (rw_id w) payload d2 = Ok (u2, d3) →
  Inv d3 ∧ row = w ∧ reviews d3 = <[rw_id w := w]> (reviews d) ∧
  reservations d3 = reservations d ∧ accounts d3 = accounts d ∧
  ledger_entries d3 = ledger_entries d.
Proof.
  intros HI Hok Hold Hac Hkind Hput Haudit Hlog.
  eapply put_review_Ok in Hput as (HI1 & -> & Hd1); [|done..].
  eapply append_audit_Ok in Haudit as (HI2 & a & Hd2); [|done].
  destruct (vo_reservation _ _ _ Hok) as (r & Hr & Hproj).
  assert (rv_billing_account_id r = ac_id ac) as Ha.
  { eapply locked_row; [exact HI|done..]. }
  eapply append_event_Ok in Hlog as (HI3 & e & j & ->); [|exact HI2|].
  2:{ eapply (review_event_valid _ _ _ _ w r); [done| |subst; exact Hr|exact Ha].
      subst. apply lookup_insert_eq. }
  split; [done|]. split; [done|]. subst. done.
Qed.

Lemma submit_review_Inv hash env project id actor subject evidence waiver d a d' :
  Inv d → submit_review hash env project id actor subject evidence waiver d = Ok (a, d') →
  Inv d'.
Proof.
  intros HI Hrun. unfold submit_review in Hrun. tx_inv Hrun.
  apply lock_account_Ok in Htx as [-> Hac].
  destruct (reviews d !! evidence_id evidence) as [existing|] eqn:Hrev; tx_inv Hrun; [done|].
  apply find_reservation_Ok in Htx as (-> & Hr & Hp).
  eapply write_review in Htx0 as (? & _); try done; simpl.
  - split; simpl; try done. by eexists.
  - intros old Hold. congruence.
  - unfold REVIEW_KINDS. set_solver.
Qed.

(** The state of a reservation that an approved review closed. *)
Definition closes (evidence : Evidence) (r : Reservation) : Prop :=
  match evidence with
  | LossWaiver _ => rv_state r = Waived
  | UsageEvidence e => rv_state r = Settled ∧ rv_completion r = Some (settle_json (eq_usage e))
  end.

(** What an approval does to the reservation, and that it keeps the books. *)
Lemma approve_review_Ok env ac project id actor w d u d' :
  Inv d → accounts d !! project = Some ac →
  approve_review env ac project id actor w d = Ok (u, d') →
  Inv d' ∧ reviews d' = reviews d ∧ accounts d' = accounts d ∧
  ∃ r r', reservations d !! rw_reservation_id w = Some r ∧ rv_project_id r = project ∧
    reservations d' = <[rw_reservation_id w := r']> (reservations d) ∧
    rv_project_id r' = project ∧
    closes (rw_evidence w) r'.
Proof.
  intros HI Hac Hrun. unfold approve_review in Hrun. tx_inv Hrun.
  apply find_reservation_Ok in Htx as (-> & Hr & Hp).
  destruct (rw_evidence w) as [ev|wr]; tx_inv Hrun; simpl.
  - eapply settle_locked_Ok in Htx as [(Hs & Hc & -> & ->)|(Hs & Hsb)]; try done.
    + split; [done|]. split; [done|]. split; [done|]. eexists _, _. split; [done|].
      split; [done|]. split; [by rewrite insert_id|done].
    + destruct Hsb as [S1 _ (amount & ->) S4 S5 S6].
      destruct (locked_row _ _ _ _ _ _ HI Hac Hr eq_refl) as (_ & Hid & _).
      split; [done|]. split; [done|]. split; [done|]. eexists _, _. split; [done|].
      split; [done|]. split; [by rewrite S4, Hid|done].
  - match goal with H : negb _ = false |- _ => apply negb_false_iff in H; rename H into Hheld end.
    destruct (locked_row _ _ _ _ _ _ HI Hac Hr eq_refl) as (_ & Hid & _).
    rewrite Hid in *.
    unshelve epose proof (free_row _ _ _ _ _ _ _ _ _ _ _ _ _ _ _ _ HI Hac Hr eq_refl Hheld _ _ _
      Htx Htx0 Hrun) as (HI' & -> & (dm & Ho & e & j & ->)); [done..|reservation_kind|].
    destruct Ho as (b & k & s & ->).
    split; [done|]. split; [done|]. split; [done|]. eexists _, _. split; [done|].
    split; [done|]. split; [done|]. done.
Qed.

(** What a committed decision did: it is a replay of the recorded decision,
    or it decided a submitted review of somebody else, together with its
    effect on the reservation. *)
Record decision (env : Env) (project id actor : string) (request : DecisionRequest)
    (review : Review) (d d' : Db) : Prop := {
  de_review : reviews d !! id = Some review ∧ rw_project_id review = project;
  de_people : rw_submitted_by review ≠ actor;
  de_sha : rw_evidence_sha256 review = dr_evidence_sha256 request;
  de_effect :
    (rw_state review ≠ ReviewSubmitted ∧ d' = d ∧
     rw_reviewed_by review = Some actor ∧ rw_decision review = Some request)
    ∨ (rw_state review = ReviewSubmitted ∧
       reviews d' = <[id := decided env actor request review]> (reviews d) ∧
       if str_eqb (dr_action request) "approve" then
         ∃ r r', reservations d !! rw_reservation_id review = Some r ∧
           reservations d' = <[rw_reservation_id review := r']> (reservations d) ∧
           closes (rw_evidence review) r'
       else reservations d' = reservations d ∧ ledger_entries d' = ledger_entries d);
  de_trace : rw_state review = ReviewSubmitted → ∃ d0,
    (if str_eqb (dr_action request) "approve" then
       ∃ ac u, accounts d !! project = Some ac ∧
         approve_review env ac project id actor review d = Ok (u, d0)
     else d0 = d) ∧
    reservations d' = reservations d0 ∧ ledger_entries d' = ledger_entries d0 ∧
    accounts d' = accounts d0 }.

Lemma final_state_decided approve waiver : final_state approve waiver ≠ ReviewSubmitted.
Proof. by destruct approve, waiver. Qed.

Lemma decided_ok env actor request d id w :
  review_ok d id w → rw_submitted_by w ≠ actor → review_ok d id (decided env actor request w).
Proof.
  intros [V1 V2 V3] Hne. split; [done|done|]. simpl.
  pose proof (final_state_decided (str_eqb (dr_action request) "approve")
    (is_waiver (rw_evidence w))).
  destruct (final_state _ _); [done|by exists actor..].
Qed.

Lemma decide_billing_review_Ok env project id actor subject request d a d' :
  Inv d → decide_billing_review env project id actor subject request d = Ok (a, d') →
  Inv d' ∧ ∃ review, decision env project id actor request review d d'.
Proof.
  intros HI Hrun. unfold decide_billing_review in Hrun. tx_inv Hrun.
  apply lock_account_Ok in Htx as [-> Hac].
  match goal with H : _ ≫= _ = Some _ |- _ => apply filter_row_Some in H as [Hw <-] end.
  match goal with H : str_eqb (rw_submitted_by ?w) _ = false |- _ =>
    rename w into review; apply str_eqb_neq in H; rename H into Hne end.
  match goal with H : negb (str_eqb _ _) = false |- _ =>
    apply negb_false_iff, str_eqb_eq in H; rename H into Hsha end.
  pose proof (inv_reviews _ _ HI _ _ Hw) as [<- Hres _].
  destruct (decide (rw_state review = ReviewSubmitted)) as [Hs|Hs].
  2:{ assert (Hdone : d' = d ∧
        rw_reviewed_by review = Some actor ∧ rw_decision review = Some request).
      { destruct (rw_state review); [done|..]; tx_inv Hrun;
        match goal with H : _ || _ = false |- _ =>
          apply orb_false_iff in H as [E1%bool_decide_eq_false E2%bool_decide_eq_false];
          apply dec_stable in E1, E2; done end. }
      destruct Hdone as (-> & Hby & Hdec).
        split; [done|]. exists review. split; try done. by left. }
  rewrite Hs in Hrun. tx_inv Hrun.
  assert (Htrace : if str_eqb (dr_action request) "approve" then
       ∃ ac u, accounts d !! rw_project_id review = Some ac ∧
         approve_review env ac (rw_project_id review) (rw_id review) actor review d = Ok (u, d0)
     else d0 = d).
  { destruct (str_eqb _ _); [by eexists _, _|by tx_inv Htx]. }
  assert (Heff : Inv d0 ∧ reviews d0 = reviews d ∧ accounts d0 = accounts d ∧
    review_ok d0 (rw_id review) review ∧
    if str_eqb (dr_action request) "approve" then
       ∃ r r', reservations d !! rw_reservation_id review = Some r ∧
         reservations d0 = <[rw_reservation_id review := r']> (reservations d) ∧
         closes (rw_evidence review) r'
     else reservations d0 = reservations d ∧ ledger_entries d0 = ledger_entries d).
  { clear Htrace. destruct (str_eqb _ _).
    - apply approve_review_Ok in Htx as (HI0 & Ew & Ea & r & r' & Hr & Hp & Er & Hp' & Hst); [|done..].
      split; [done|]. split; [done|]. split; [done|]. split; [|by eexists _, _].
      apply (inv_reviews _ _ HI0). by rewrite Ew.
    - tx_inv Htx. split; [done|]. split; [done|]. split; [done|]. split; [|done].
      by apply (inv_reviews _ _ HI). }
  clear Htx. destruct Heff as (HI0 & Ew & Ea & Hok & Heff).
  set (w := decided env actor request review) in *.
  pose proof (put_review_row _ _ _ _ Htx0) as ->.
  unshelve epose proof (write_review _ w _ _ _ _ _ _ _ _ _ _ _ _ _ _ HI0 _ _ _ _ Htx0 Htx1 Htx2)
    as (HI3 & _ & Ew3 & Er3 & Ea3 & El3).
  - by apply decided_ok.
  - intros old. rewrite Ew. simpl. by rewrite Hw; intros [= <-].
  - simpl. by rewrite Ea.
  - apply review_kind.
  - split; [done|]. exists review. split; [done..| |].
    + right. rewrite Ew3, Er3, El3, Ew. done.
    + intros _. exists d0. rewrite Er3, El3, Ea3. done.
Qed.

Lemma decide_billing_review_Inv env project id actor subject request d a d' :
  Inv d → decide_billing_review env project id actor subject request d = Ok (a, d') → Inv d'.
Proof. intros HI Hrun. by eapply decide_billing_review_Ok in Hrun as [HI' _]. Qed.
End correctness.
