(* ===== verification/Wallet.v ===== *)
(** * Wallet: projects, keys, usage events, top-ups and refunds

    The financial half of [crates/control-plane/src/repository.rs].  A handler
    that reads before it opens its transaction is one transaction here. *)

From S2P Require Import Prelude Domain Models Store Books Catalog Projection Ledger Reservations.
Local Open Scope Z_scope.

(** ** Projects and keys *)

Record Project := mkProject { prj_id : string; prj_tenant_id : string; prj_name : string }.

Definition validate_project (p : Project) : result ServiceError unit :=
  require (negb (is_blank (prj_id p)) && negb (is_blank (prj_tenant_id p))
           && negb (is_blank (prj_name p))) (Invalid "id, tenant_id and name are required").

Definition create_project (env : Env) (value : Project) : Tx Project :=
  lift (validate_project value) ;;
  existing ← gets (λ d, projects d !! prj_id value);
  fail_if (is_some existing) (Conflict "project already exists") ;;
  modify (λ d, set_projects (<[prj_id value :=
    mkProjectRow (prj_id value) (prj_tenant_id value) (prj_name value) (env_now env)]>
    (projects d)) d) ;;
  _ ← create_billing_account (env_now env) (prj_id value) (prj_tenant_id value) Database;
  mret value.

Fixpoint check_models (l : list string) : Tx unit :=
  match l with
  | [] => mret tt
  | model :: l => _ ← active_model model; check_models l
  end.

Section keys.
(** The SHA-256 of a library. *)
Variable sha256 : string → string.

Definition store_api_key (env : Env) (request : ApiKeyRequest) (secret : string) : Tx ApiKeyRow :=
  lift_domain (ApiKeyRequest_validate request (env_now env)) ;;
  let row := mkApiKeyRow (akr_id request) (akr_tenant_id request) (akr_project_id request)
    (akr_name request) (sha256 secret) (akr_scopes request) (akr_allowed_models request)
    (akr_expires_at request) (akr_rate_limit_rpm request) (akr_rate_limit_tpm request)
    (money_amount (akr_monthly_budget request)) (money_currency (akr_monthly_budget request))
    (env_now env) None in
  existing ← gets (λ d, api_keys d !! akr_id request);
  fail_if (is_some existing) duplicate_row ;;
  modify (λ d, set_api_keys (<[akr_id request := row]> (api_keys d)) d) ;;
  mret row.

Definition issue_api_key (env : Env) (request : ApiKeyRequest) (random : string) : Tx ApiKeyRow :=
  let request := with_defaults request in
  lift_domain (ApiKeyRequest_validate request (env_now env)) ;;
  check_models (akr_allowed_models request) ;;
  project ← gets (λ d, projects d !! akr_project_id request);
  project ← found project (Invalid "project not found");
  fail_if (negb (str_eqb (pj_tenant_id project) (akr_tenant_id request)))
    (Invalid "project does not belong to tenant") ;;
  existing ← gets (λ d, api_keys d !! akr_id request);
  fail_if (is_some existing) (Conflict "API key already exists") ;;
  store_api_key env request ("xs_" +:+ random).
End keys.

Definition revoke_api_key (env : Env) (id : string) : Tx unit :=
  row ← gets (λ d, api_keys d !! id);
  row ← found (row ≫= λ r, if is_some (ak_revoked_at r) then None else Some r) NotFound;
  modify (λ d, set_api_keys (<[id :=
    mkApiKeyRow (ak_id row) (ak_tenant_id row) (ak_project_id row) (ak_name row)
      (ak_secret_hash row) (ak_scopes row) (ak_allowed_models row) (ak_expires_at row)
      (ak_rate_limit_rpm row) (ak_rate_limit_tpm row) (ak_monthly_budget_amount row)
      (ak_currency row) (ak_created_at row) (Some (env_now env))]> (api_keys d)) d).

(** [Repository::quote] *)
Definition quote (model_id : string) (input output : Z) : Tx (string * string * Money) :=
  model ← active_model model_id;
  microunits ← lift_domain (usage_cost_microunits model input output);
  mret (Domain.model_id model, price_version model, cny (ceil_minor_units microunits)).

(** ** Usage events that were not reserved *)

Definition validate_usage (e : UsageEvent) : result ServiceError unit :=
  require
    (forallb (λ s, negb (is_blank s))
       [ue_schema_version e; ue_event_id e; ue_request_id e; ue_tenant_id e; ue_project_id e;
        ue_api_key_id e; ue_model_id e; ue_model_revision e; ue_region e; ue_price_version e;
        ue_status e]
     && (0 <=? ue_input_tokens e) && (0 <=? ue_output_tokens e)
     && (0 <=? ue_cached_input_tokens e) && (0 <=? ue_latency_ms e))
    (Invalid "usage event is missing required fields or contains negative values").

Definition is_chargeable_usage (e : UsageEvent) : bool :=
  str_eqb (ue_status e) "succeeded" && ((0 <? ue_input_tokens e) || (0 <? ue_output_tokens e)).

Definition usage_row (env : Env) (e : UsageEvent) (cost : Z) : UsageRow :=
  mkUsageRow (ue_event_id e) (ue_request_id e) (ue_occurred_at e) (ue_tenant_id e)
    (ue_project_id e) (ue_api_key_id e) (ue_model_id e) (ue_model_revision e)
    (ue_endpoint_id e) (ue_region e) (ue_price_version e) (ue_input_tokens e)
    (ue_output_tokens e) (ue_cached_input_tokens e) (ue_latency_ms e) (ue_status e)
    (ceil_minor_units cost) cost "CNY" (env_now env).

Definition usage_cost (e : UsageEvent) : Tx Z :=
  if is_chargeable_usage e then
    model ← historical_price (ue_model_id e) (ue_price_version e);
    lift_domain (usage_cost_microunits model (ue_input_tokens e) (ue_output_tokens e))
  else mret 0.

(** A step whose writes are rolled back while the handler goes on. *)
Definition rolled_back {A} (m : Tx A) : Tx unit := λ d,
  match m d with Ok _ => Ok (tt, d) | Err e => Err e end.

Section usage.
Context `{Calendar}.

(** The transaction of [record_usage] once the event is known to be new. *)
Definition record_new_usage (env : Env) (account : Account) (e : UsageEvent) (cost : Z) : Tx unit :=
  let period := month_floor (ue_occurred_at e) in
  month ← monthly env (ue_api_key_id e) period;
  insert_usage (usage_row env e cost) ;;
  change_spend env (ue_api_key_id e) period month cost ;;
  if 0 <? cost then
    insert_balanced_entries env account (ue_tenant_id e) "usage" "usage_event" (ue_event_id e)
      ("usage:" +:+ ue_event_id e) "Model inference usage" (- cost) "usage_revenue"
  else mret tt.

(** [ON CONFLICT (event_id) DO NOTHING], then a rollback when nothing was
    inserted: a known event changes nothing. *)
Definition record_usage (env : Env) (e : UsageEvent) : Tx bool :=
  lift (validate_usage e) ;;
  key ← gets (λ d, api_keys d !! ue_api_key_id e);
  key ← found key (Invalid "usage event API key is invalid");
  fail_if (negb (str_eqb (ak_project_id key) (ue_project_id e))
           || negb (str_eqb (ak_tenant_id key) (ue_tenant_id e)))
    (Invalid "usage event API key boundary is invalid") ;;
  cost ← usage_cost e;
  account ← ensure_account_for_project env (ue_project_id e);
  _ ← lock_account (ue_project_id e);
  reserved ← gets (λ d, existsb (λ r, str_eqb (rv_project_id r) (ue_project_id e)
                                      && str_eqb (rv_request_id r) (ue_request_id e))
                          (map_to_list (reservations d)).*2);
  fail_if reserved
    (Conflict "reserved requests must use the reservation settlement endpoint") ;;
  known ← gets (λ d, str_in (ue_event_id e) (us_event_id <$> usage_events d));
  if known : bool then
    rolled_back (monthly env (ue_api_key_id e) (month_floor (ue_occurred_at e))) ;;
    mret false
  else
    record_new_usage env account e cost ;;
    mret true.
End usage.

(** ** Orders, payments and manual refunds *)

Record CreateOrderRequest := mkCreateOrder {
  cor_id : string; cor_tenant_id : string; cor_project_id : string;
  cor_amount : Money; cor_description : string }.
Record CapturePaymentRequest := mkCapture {
  cap_id : string; cap_provider : string; cap_provider_reference : string }.
Record CreateRefundRequest := mkCreateRefund {
  crf_id : string; crf_payment_id : string; crf_amount : Money; crf_reason : string }.

Definition create_order (env : Env) (r : CreateOrderRequest) : Tx Order :=
  lift_domain (validate_money (cor_amount r)) ;;
  fail_if (money_amount (cor_amount r) <=? 0) (Invalid "order amount must be positive") ;;
  project ← gets (λ d, projects d !! cor_project_id r);
  project ← found project NotFound;
  fail_if (negb (str_eqb (pj_tenant_id project) (cor_tenant_id r))) Forbidden ;;
  let row := mkOrder (cor_id r) (cor_tenant_id r) (cor_project_id r) "top_up"
    (money_amount (cor_amount r)) (money_currency (cor_amount r)) "pending"
    (cor_description r) (env_now env) (env_now env) in
  existing ← gets (λ d, orders d !! cor_id r);
  fail_if (is_some existing) duplicate_row ;;
  modify (λ d, set_orders (<[cor_id r := row]> (orders d)) d) ;;
  mret row.

(** The unique index on (provider, provider_reference), and the primary key. *)
Definition insert_payment (row : Payment) (dup : ServiceError) : Tx unit :=
  taken ← gets (λ d, is_some (payments d !! py_id row)
    || existsb (λ p, str_eqb (py_provider p) (py_provider row)
                     && str_eqb (py_provider_reference p) (py_provider_reference row))
         (map_to_list (payments d)).*2);
  fail_if taken dup ;;
  modify (λ d, set_payments (<[py_id row := row]> (payments d)) d).

Definition paid_order (env : Env) (order : Order) : Order :=
  mkOrder (od_id order) (od_tenant_id order) (od_project_id order) (od_kind order)
    (od_amount order) (od_currency order) "paid" (od_description order)
    (od_created_at order) (env_now env).
Definition mark_paid (env : Env) (order : Order) : Tx unit :=
  modify (λ d, set_orders (<[od_id order := paid_order env order]> (orders d)) d).

Definition lock_order (id : string) : Tx Order :=
  order ← gets (λ d, orders d !! id);
  found order NotFound.

Definition capture_payment (env : Env) (order_id : string) (r : CapturePaymentRequest)
    (idempotency_key : string) : Tx Payment :=
  fail_if (is_blank (cap_provider r) || is_blank (cap_provider_reference r))
    (Invalid "provider and provider_reference are required") ;;
  existing ← gets (λ d, payments d !! cap_id r);
  match existing with
  | Some existing =>
      fail_if (negb (str_eqb (py_order_id existing) order_id
                     && str_eqb (py_provider existing) (cap_provider r)
                     && str_eqb (py_provider_reference existing) (cap_provider_reference r)))
        (Conflict "payment id already belongs to a different request") ;;
      mret existing
  | None =>
      order ← lock_order order_id;
      fail_if (negb (str_eqb (od_status order) "pending"))
        (Conflict "only pending orders can be paid") ;;
      account ← ensure_account_for_project env (od_project_id order);
      let payment := mkPayment (cap_id r) (od_id order) (cap_provider r)
        (cap_provider_reference r) (od_amount order) (od_currency order) "succeeded"
        (Some (env_now env)) (env_now env) in
      insert_payment payment duplicate_row ;;
      mark_paid env order ;;
      amount ← found (checked_mul (od_amount order) MICROS_PER_MINOR_UNIT)
                 (Invalid "payment amount is too large");
      insert_balanced_entries env account (od_tenant_id order) "top_up" "payment" (cap_id r)
        idempotency_key "Wallet top-up" amount "cash_clearing" ;;
      mret payment
  end.

Definition insert_refund (row : Refund) (dup : ServiceError) : Tx unit :=
  taken ← gets (λ d, is_some (refunds d !! rf_id row));
  fail_if taken dup ;;
  modify (λ d, set_refunds (<[rf_id row := row]> (refunds d)) d).

(** The amounts refunded on a payment, in the given states. *)
Definition refund_amount (payment : string) (states : list string) (r : Refund) : Z :=
  if str_eqb (rf_payment_id r) payment && str_in (rf_status r) states then rf_amount r else 0.
Definition refunded (payment : string) (states : list string) (d : Db) : Z :=
  msum (refund_amount payment states) (refunds d).

Definition saturating_add_i64 (a b : Z) : Z := Z.max i64_min (Z.min i64_max (a + b)).

Definition lock_payment (id : string) : Tx Payment :=
  payment ← gets (λ d, payments d !! id);
  found payment NotFound.

Definition create_refund (env : Env) (r : CreateRefundRequest) (idempotency_key : string)
    : Tx Refund :=
  lift_domain (validate_money (crf_amount r)) ;;
  fail_if ((money_amount (crf_amount r) <=? 0) || is_blank (crf_reason r))
    (Invalid "refund amount and reason are required") ;;
  existing ← gets (λ d, refunds d !! crf_id r);
  match existing with
  | Some existing =>
      fail_if (negb (str_eqb (rf_payment_id existing) (crf_payment_id r)
                     && (rf_amount existing =? money_amount (crf_amount r))
                     && str_eqb (rf_currency existing) (money_currency (crf_amount r))
                     && str_eqb (rf_reason existing) (crf_reason r)))
        (Conflict "refund id already belongs to a different request") ;;
      mret existing
  | None =>
      payment ← lock_payment (crf_payment_id r);
      fail_if (str_eqb (py_provider payment) "alipay")
        (Invalid "Alipay refunds require the provider refund workflow; manual bookkeeping is forbidden") ;;
      fail_if (negb (str_eqb (py_status payment) "succeeded")
               || negb (str_eqb (py_currency payment) (money_currency (crf_amount r)))
               || (py_amount payment <? money_amount (crf_amount r)))
        (Invalid "refund exceeds the captured payment") ;;
      order ← lock_order (py_order_id payment);
      already ← gets (refunded (py_id payment) ["succeeded"]);
      fail_if (py_amount payment <?
               saturating_add_i64 (wrap_i64 already) (money_amount (crf_amount r)))
        (Invalid "cumulative refunds exceed the captured payment") ;;
      account ← ensure_account_for_project env (od_project_id order);
      let row := mkRefund (crf_id r) (crf_payment_id r) (money_amount (crf_amount r))
        (money_currency (crf_amount r)) (crf_reason r) "succeeded" None (env_now env)
        (Some (env_now env)) in
      insert_refund row duplicate_row ;;
      amount ← found (checked_mul (rf_amount row) MICROS_PER_MINOR_UNIT)
                 (Invalid "refund amount is too large");
      insert_balanced_entries env account (od_tenant_id order) "refund" "refund" (rf_id row)
        idempotency_key "Payment refund" (- amount) "cash_clearing" ;;
      mret row
  end.

(** ** Every operation keeps the books *)

(** Writes to tables the invariant does not read. *)
Definition outside (d d' : Db) : Prop := ∃ od py rf ck rc cn ef oa co,
  d' = set_orders od (set_payments py (set_refunds rf (set_checkouts ck
         (set_receipts rc (set_consumers cn (set_effects ef (set_operation_audits oa
           (set_control co d)))))))).

#[export] Instance outside_preorder : PreOrder outside.
Proof.
  split.
  - intros []. by do 9 eexists.
  - intros d1 d2 d3 (a & b & c & e & f & g & h & i & j & ->)
      (a' & b' & c' & e' & f' & g' & h' & i' & j' & ->).
    by exists a', b', c', e', f', g', h', i', j'.
Qed.

Lemma outside_orders v d : outside d (set_orders v d).
Proof. by exists v, (payments d), (refunds d), (checkouts d), (receipts d),
    (consumers d), (effects d), (operation_audits d), (control d). Qed.
Lemma outside_payments v d : outside d (set_payments v d).
Proof. by exists (orders d), v, (refunds d), (checkouts d), (receipts d),
    (consumers d), (effects d), (operation_audits d), (control d). Qed.
Lemma outside_refunds v d : outside d (set_refunds v d).
Proof. by exists (orders d), (payments d), v, (checkouts d), (receipts d),
    (consumers d), (effects d), (operation_audits d), (control d). Qed.
Lemma outside_checkouts v d : outside d (set_checkouts v d).
Proof. by exists (orders d), (payments d), (refunds d), v, (receipts d),
    (consumers d), (effects d), (operation_audits d), (control d). Qed.
Lemma outside_receipts v d : outside d (set_receipts v d).
Proof. by exists (orders d), (payments d), (refunds d), (checkouts d), v,
    (consumers d), (effects d), (operation_audits d), (control d). Qed.
Lemma outside_consumers v d : outside d (set_consumers v d).
Proof. by exists (orders d), (payments d), (refunds d), (checkouts d), (receipts d), v,
    (effects d), (operation_audits d), (control d). Qed.
Lemma outside_effects v d : outside d (set_effects v d).
Proof. by exists (orders d), (payments d), (refunds d), (checkouts d), (receipts d),
    (consumers d), v, (operation_audits d), (control d). Qed.
Lemma outside_audits v d : outside d (set_operation_audits v d).
Proof. by exists (orders d), (payments d), (refunds d), (checkouts d), (receipts d),
    (consumers d), (effects d), v, (control d). Qed.
Lemma outside_control v d : outside d (set_control v d).
Proof. by exists (orders d), (payments d), (refunds d), (checkouts d), (receipts d),
    (consumers d), (effects d), (operation_audits d), v. Qed.

Section correctness.
Context `{Calendar}.

Lemma Inv_outside p d d' : Inv_at p d → outside d d' → Inv_at p d'.
Proof.
  intros [Hp Hr Hl He Hc Hw] (a & b & c & e & f & g & h & i & j & ->).
  split;
    [by destruct Hp; split|intros id r Hid; by destruct (Hr id r Hid); split
    |by destruct Hl; split|by destruct He; split|by destruct Hc; split
    |intros id w Hid; by destruct (Hw id w Hid)].
Qed.

Lemma Inv_set_accounts p pr ac d :
  Inv_at p d → ac_project_id ac = pr → ac_id ac = account_id pr → ac_currency ac = "CNY"%string →
  Inv_at p (set_accounts (<[pr := ac]> (accounts d)) d).
Proof.
  intros [Hp Hr Hl He Hc Hw] Ha Hid Hcur. split;
    [by destruct Hp; split|intros id r Hi; by destruct (Hr id r Hi); split
    |by destruct Hl; split|by destruct He; split| |intros id w Hi; by destruct (Hw id w Hi)].
  destruct Hc as [Cj Ca Cc Cp Ck Cu Cs]. split; simpl; try done.
  intros pr' ac' [[<- <-]|[_ Hac]]%lookup_insert_Some; [done|by apply Ca].
Qed.

Lemma Inv_set_api_keys p k key d :
  Inv_at p d → ak_id key = k → Inv_at p (set_api_keys (<[k := key]> (api_keys d)) d).
Proof.
  intros [Hp Hr Hl He Hc Hw] Hk. split;
    [by destruct Hp; split|intros id r Hi; by destruct (Hr id r Hi); split
    |by destruct Hl; split|by destruct He; split| |intros id w Hi; by destruct (Hw id w Hi)].
  destruct Hc as [Cj Ca Cc Cp Ck Cu Cs]. split; simpl; try done.
  intros k' key' [[<- <-]|[_ Hkey]]%lookup_insert_Some; [done|by apply Ck].
Qed.

Lemma Inv_set_projects p k row d :
  Inv_at p d → pj_id row = k → Inv_at p (set_projects (<[k := row]> (projects d)) d).
Proof.
  intros [Hp Hr Hl He Hc Hw] Hk. split;
    [by destruct Hp; split|intros id r Hi; by destruct (Hr id r Hi); split
    |by destruct Hl; split|by destruct He; split| |intros id w Hi; by destruct (Hw id w Hi)].
  destruct Hc as [Cj Ca Cc Cp Ck Cu Cs]. split; simpl; try done.
  intros k' row' [[<- <-]|[_ Hrow]]%lookup_insert_Some; [done|by apply Cj].
Qed.

(** Everything but the account table. *)
Definition accounts_only (d d' : Db) : Prop := ∃ a, d' = set_accounts a d.

Lemma create_billing_account_Ok p now pr tenant dup d ac d' :
  Inv_at p d → create_billing_account now pr tenant dup d = Ok (ac, d') →
  Inv_at p d' ∧ accounts d !! pr = None ∧
  ac = mkAccount (account_id pr) tenant pr "CNY" false "active" now now ∧
  d' = set_accounts (<[pr := ac]> (accounts d)) d.
Proof.
  intros HI Hrun. unfold create_billing_account in Hrun. tx_inv Hrun.
  match goal with H : is_some _ = false |- _ => apply is_some_false in H end.
  split; [by apply Inv_set_accounts|]. done.
Qed.

(** The account that is returned is the account of the project, and it was
    there or is new and postpaid. *)
Lemma ensure_account_Ok env p pr d ac d' :
  Inv_at p d → ensure_account_for_project env pr d = Ok (ac, d') →
  Inv_at p d' ∧ accounts d' !! pr = Some ac ∧ accounts_only d d' ∧
  (d' = d ∨ accounts d !! pr = None ∧ ac_enforce_balance ac = false ∧
            accounts d' = <[pr := ac]> (accounts d)).
Proof.
  intros HI Hrun. unfold ensure_account_for_project in Hrun. tx_inv Hrun.
  destruct (accounts d !! pr) as [row|] eqn:Hrow; tx_inv Hrun.
  - split; [done|]. split; [done|]. split; [|by left]. exists (accounts d). by destruct d.
  - match goal with H : projects _ !! _ = Some _ |- _ => apply (co_project _ (inv_config _ _ HI)) in H as Hid end.
    eapply create_billing_account_Ok in Hrun as (HI' & Hnew & -> & ->); [|done].
    rewrite Hid in *. split; [done|]. split; [apply lookup_insert_eq|].
    split; [by eexists|]. right. done.
Qed.
End correctness.

Section operations.
Context `{Calendar}.

Lemma create_project_Inv env v d a d' :
  Inv d → create_project env v d = Ok (a, d') → Inv d'.
Proof.
  intros HI Hrun. unfold create_project in Hrun. tx_inv Hrun.
  match goal with H : create_billing_account _ _ _ _ _ = _ |- _ =>
    eapply create_billing_account_Ok in H as (HI' & _); [done|] end.
  by apply Inv_set_projects.
Qed.

Lemma store_api_key_Inv sha256 env r secret d a d' :
  Inv d → store_api_key sha256 env r secret d = Ok (a, d') → Inv d'.
Proof.
  intros HI Hrun. unfold store_api_key in Hrun. tx_inv Hrun. by apply Inv_set_api_keys.
Qed.

Lemma check_models_same l d u d' : check_models l d = Ok (u, d') → d' = d.
Proof.
  induction l as [|m l IH]; simpl; intros Hrun; tx_inv Hrun; [done|].
  apply active_model_Ok in Htx as [-> _]. by apply IH.
Qed.

Lemma issue_api_key_Inv sha256 env r random d a d' :
  Inv d → issue_api_key sha256 env r random d = Ok (a, d') → Inv d'.
Proof.
  intros HI Hrun. unfold issue_api_key in Hrun. tx_inv Hrun.
  apply check_models_same in Htx as ->. by eapply store_api_key_Inv.
Qed.

Lemma revoke_api_key_Inv env id d a d' :
  Inv d → revoke_api_key env id d = Ok (a, d') → Inv d'.
Proof.
  intros HI Hrun. unfold revoke_api_key in Hrun. tx_inv Hrun.
  match goal with H : _ ≫= _ = Some _ |- _ =>
    apply bind_Some in H as (row & Hrow & Hr); destruct (is_some _); simplify_eq end.
  apply Inv_set_api_keys; [done|]. exact (co_key _ (inv_config _ _ HI) _ _ Hrow).
Qed.

Lemma update_balance_policy_Inv env pr b d u d' :
  Inv d → update_balance_policy env pr b d = Ok (u, d') → Inv d'.
Proof.
  intros HI Hrun. unfold update_balance_policy in Hrun. tx_inv Hrun.
  eapply ensure_account_Ok in Htx as (HI' & Hac & _); [|done].
  destruct (co_account _ (inv_config _ _ HI') _ _ Hac) as (Hp & Hid & Hcur).
  apply Inv_set_accounts; simpl; congruence || done.
Qed.

Lemma usage_cost_nonneg_Ok p e d c d' :
  Inv_at p d → usage_cost e d = Ok (c, d') → d' = d ∧ 0 ≤ c.
Proof.
  intros HI Hrun. unfold usage_cost in Hrun.
  destruct (is_chargeable_usage e); [|tx_inv Hrun; done].
  unfold historical_price in Hrun. tx_inv Hrun. split; [done|].
  match goal with H : prices _ !! _ = Some _ |- _ =>
    apply (co_price _ (inv_config _ _ HI)) in H as [Hp _]%Model_validate_Ok end.
  by eapply usage_cost_nonneg.
Qed.

(** The writes of a new event: history, the month and the posting. *)
Lemma record_new_usage_Ok env ac e cost d u d' :
  Inv d → 0 ≤ cost → ac_id ac = account_id (ac_project_id ac) →
  record_new_usage env ac e cost d = Ok (u, d') →
  Inv d' ∧ (∀ a, booked a d' = booked a d - (if decide (a = ac_id ac) then cost else 0)) ∧
  usage_events d' = usage_events d ++ [usage_row env e cost] ∧
  reservations d' = reservations d ∧ accounts d' = accounts d ∧ reviews d' = reviews d ∧
  (0 < cost → ∃ locked, accounts d !! ac_project_id ac = Some locked ∧
     (ac_enforce_balance locked = true → 0 ≤ booked (ac_id ac) d - held (ac_id ac) d - cost)).
Proof.
  intros HI Hcost Hac Hrun.
  apply (Inv_focus (ac_id ac) (ue_api_key_id e) (month_floor (ue_occurred_at e))) in HI.
  unfold record_new_usage in Hrun. tx_inv Hrun.
  eapply monthly_Ok in Htx as (HI1 & Ho1 & Hm1 & Hs1); [|done..|apply month_floor_idem].
  pose proof (insert_usage_shape _ _ _ _ Htx0) as [Hd2 _].
  eapply insert_usage_Ok in Htx0 as HI2; [|done..|by eexists].
  eapply change_spend_Ok in Htx1 as (HI3 & Ho3 & _);
    [|done..|apply month_floor_idem|by rewrite Hd2].
  unfold pend_spent in HI3. simpl in HI3. replace (0 + - cost + cost) with 0 in HI3 by lia.
  destruct Ho1 as (b1 & k1 & s1 & ->). rewrite Hd2 in Ho3. destruct Ho3 as (b2 & k2 & s2 & ->).
  match type of HI3 with Inv_at _ ?x => set (dm := x) in * end.
  destruct (Z.ltb_spec 0 cost) as [Hpos|Hzero].
  - eapply insert_balanced_entries_Ok in Hrun as (HI4 & Hb & Hbook & locked & Hl & Henf);
      [|exact HI3|done..].
    apply bookkeeping_same in Hb as (Er & Eu & Ea & Ew & _). rewrite Er, Eu, Ea, Ew.
    split; [by apply Inv_focus in HI4|]. split; [|split; [done|split; [done|split; [done|split; [done|]]]]].
    + intros b. rewrite Hbook. change (booked b dm) with (booked b d). case_decide; lia.
    + intros _. exists locked. split; [done|]. intros He. specialize (Henf He).
      change (booked (ac_id ac) dm) with (booked (ac_id ac) d) in Henf.
      change (held (ac_id ac) dm) with (held (ac_id ac) d) in Henf. simpl in Henf. lia.
  - tx_inv Hrun. split; [by apply Inv_focus in HI3|].
    split; [|split; [done|split; [done|split; [done|split; [done|lia]]]]].
    intros b. change (booked b dm) with (booked b d). case_decide; lia.
Qed.

Lemma rolled_back_Ok {A} (m : Tx A) d u d' : rolled_back m d = Ok (u, d') → d' = d.
Proof. unfold rolled_back. destruct (m d) as [[a d1]|e]; naive_solver. Qed.

(** A usage event either was known, or it is new and is charged once. *)
Lemma record_usage_Ok env e d b d' :
  Inv d → record_usage env e d = Ok (b, d') →
  Inv d' ∧ ∃ d1 ac, accounts_only d d1 ∧ accounts d1 !! ue_project_id e = Some ac ∧
  (d1 = d ∨ accounts d !! ue_project_id e = None ∧ ac_enforce_balance ac = false ∧
            accounts d1 = <[ue_project_id e := ac]> (accounts d)) ∧
  if b then ∃ cost u, 0 ≤ cost ∧ Inv d1 ∧ ac_id ac = account_id (ac_project_id ac) ∧
         (ue_event_id e ∉ (us_event_id <$> usage_events d)) ∧
         record_new_usage env ac e cost d1 = Ok (u, d')
  else (ue_event_id e ∈ (us_event_id <$> usage_events d)) ∧ d' = d1.
Proof.
  intros HI Hrun. unfold record_usage in Hrun. tx_inv Hrun.
  eapply usage_cost_nonneg_Ok in Htx as [-> Hcost]; [|done].
  match goal with H : ensure_account_for_project _ _ _ = Ok (?x, ?y) |- _ =>
    rename x into ac, y into d1; eapply ensure_account_Ok in H as (HI1 & Hac & Ho & Hnew); [|done] end.
  match goal with H : lock_account _ _ = _ |- _ => apply lock_account_Ok in H as [-> _] end.
  destruct (co_account _ (inv_config _ _ HI1) _ _ Hac) as (Hp & Hid & _).
  assert (usage_events d1 = usage_events d) as Eu by (by destruct Ho as [x ->]).
  rewrite Eu in Hrun. destruct (str_in _ _) eqn:Hknown; tx_inv Hrun.
  - match goal with H : rolled_back _ _ = _ |- _ => apply rolled_back_Ok in H as -> end. apply str_in_elem in Hknown.
    split; [done|]. by exists d1, ac.
  - assert (ue_event_id e ∉ (us_event_id <$> usage_events d)) as Hfresh.
    { rewrite <- str_in_elem. by rewrite Hknown. }
    assert (ac_id ac = account_id (ac_project_id ac)) as Haid by congruence.
    match goal with H : record_new_usage _ _ _ _ _ = _ |- _ =>
      pose proof (record_new_usage_Ok _ _ _ _ _ _ _ HI1 Hcost Haid H) as [HI' _] end.
    split; [done|].
    exists d1, ac. do 3 (split; [done|]). by eexists _, _.
Qed.

Lemma insert_payment_Ok p dup d u d' :
  insert_payment p dup d = Ok (u, d') →
  payments d !! py_id p = None ∧ d' = set_payments (<[py_id p := p]> (payments d)) d.
Proof.
  intros Hrun. unfold insert_payment in Hrun. tx_inv Hrun.
  match goal with H : _ || _ = false |- _ => apply orb_false_iff in H as [Hd _] end.
  split; [by apply is_some_false|done].
Qed.

Lemma insert_refund_Ok r dup d u d' :
  insert_refund r dup d = Ok (u, d') →
  refunds d !! rf_id r = None ∧ d' = set_refunds (<[rf_id r := r]> (refunds d)) d.
Proof.
  intros Hrun. unfold insert_refund in Hrun. tx_inv Hrun.
  match goal with H : is_some _ = false |- _ => apply is_some_false in H end. done.
Qed.

(** Posting to the account of a project, after other tables were written. *)
Lemma post_to_project env pr ac tenant kind rt ri idem desc delta counter d u d' :
  Inv d → accounts d !! pr = Some ac → counter ≠ "customer_balance"%string →
  insert_balanced_entries env ac tenant kind rt ri idem desc delta counter d = Ok (u, d') →
  Inv d' ∧ bookkeeping d d' ∧
  (∀ a, booked a d' = booked a d + (if decide (a = account_id pr) then delta else 0)) ∧
  (ac_enforce_balance ac = true → delta < 0 →
     0 ≤ booked (account_id pr) d - held (account_id pr) d + delta).
Proof.
  intros HI Hac Hc Hrun.
  destruct (co_account _ (inv_config _ _ HI) _ _ Hac) as (Hp & Hid & _).
  apply (Inv_focus (account_id pr) "" 0) in HI.
  eapply insert_balanced_entries_Ok in Hrun as (HI' & Hb & Hbook & l & Hl & Henf);
    [|exact HI|simpl; congruence..|done].
  rewrite Hp, Hac in Hl. injection Hl as <-. rewrite Hid in *.
  split; [by apply Inv_focus in HI'|]. split; [done|]. split; [done|].
  intros He Hneg. specialize (Henf He Hneg). simpl in Henf. lia.
Qed.

(** What a top-up commits. *)
Record captured (env : Env) (order_id payment_id provider reference : string)
    (d : Db) (payment : Payment) (d' : Db) : Prop := {
  cp_inv : Inv d';
  cp_order : ∃ order, orders d !! order_id = Some order ∧ od_status order = "pending"%string ∧
    payment = mkPayment payment_id (od_id order) provider reference (od_amount order)
      (od_currency order) "succeeded" (Some (env_now env)) (env_now env) ∧
    orders d' = <[od_id order := paid_order env order]> (orders d) ∧
    (∀ a, booked a d' = booked a d +
       (if decide (a = account_id (od_project_id order))
        then od_amount order * MICROS_PER_MINOR_UNIT else 0)) ∧
    (∀ ac, accounts d !! od_project_id order = Some ac → ac_enforce_balance ac = true →
       od_amount order * MICROS_PER_MINOR_UNIT < 0 →
       0 ≤ booked (account_id (od_project_id order)) d - held (account_id (od_project_id order)) d
           + od_amount order * MICROS_PER_MINOR_UNIT);
  cp_new : payments d !! payment_id = None;
  cp_payments : payments d' = <[payment_id := payment]> (payments d);
  cp_refunds : refunds d' = refunds d;
  cp_reservations : reservations d' = reservations d;
  cp_accounts : ∃ ac pr, accounts d' = accounts d ∨
    accounts d !! pr = None ∧ ac_enforce_balance ac = false ∧ accounts d' = <[pr := ac]> (accounts d) }.

Lemma bookkeeping_outside d d' : bookkeeping d d' →
  orders d' = orders d ∧ payments d' = payments d ∧ refunds d' = refunds d ∧
  checkouts d' = checkouts d ∧ receipts d' = receipts d.
Proof. by intros (b & k & s & t & e & v & j & ->). Qed.

Lemma capture_payment_Ok env order_id r idem d payment d' :
  Inv d → capture_payment env order_id r idem d = Ok (payment, d') →
  (payments d !! cap_id r = Some payment ∧ py_order_id payment = order_id ∧ d' = d)
  ∨ captured env order_id (cap_id r) (cap_provider r) (cap_provider_reference r) d payment d'.
Proof.
  intros HI Hrun. unfold capture_payment, lock_order in Hrun. tx_inv Hrun.
  destruct (payments d !! cap_id r) as [existing|] eqn:Hex; tx_inv Hrun.
  - left. match goal with H : negb _ = false |- _ =>
      rewrite negb_false_iff, !andb_true_iff, !str_eqb_eq in H end. naive_solver.
  - right.
    match goal with H : orders _ !! _ = Some ?o |- _ => rename o into order, H into Horder end.
    match goal with H : negb (str_eqb (od_status _) _) = false |- _ =>
      apply negb_false_iff, str_eqb_eq in H; rename H into Hpend end.
    match goal with H : ensure_account_for_project _ _ _ = Ok (?x, ?y) |- _ =>
      rename x into ac, y into d1;
      eapply ensure_account_Ok in H as (HI1 & Hac & [acs Ho] & Hnew); [|done] end.
    match goal with H : insert_payment _ _ _ = _ |- _ =>
      apply insert_payment_Ok in H as [Hfresh ->] end.
    match goal with H : mark_paid _ _ _ = _ |- _ => apply modify_Ok in H as -> end.
    match goal with H : checked_mul _ _ = Some _ |- _ => apply checked_mul_Some in H as [-> _] end.
    assert (accounts d1 = acs ∧ orders d1 = orders d ∧ payments d1 = payments d ∧
            refunds d1 = refunds d ∧ reservations d1 = reservations d ∧
            (∀ a, held a d1 = held a d) ∧ ∀ a, booked a d1 = booked a d)
      as (_ & Eo & Ep & Ef & Er & Eh & Ebk) by (by subst d1).
    match goal with H : insert_balanced_entries _ _ _ _ _ _ _ _ _ _ ?x = _ |- _ =>
      set (dm := x) in H;
      assert (outside d1 dm) as Hout by
        (etransitivity; [apply outside_payments|apply outside_orders]);
      eapply post_to_project in H as (HI4 & Hb & Hbook & Henf);
        [|by eapply Inv_outside|exact Hac|done] end.
    destruct (bookkeeping_outside _ _ Hb) as (Eo' & Ep' & Ef' & _).
    destruct (bookkeeping_same _ _ Hb) as (Er' & _ & Ea' & _).
    split; simpl in *; rewrite ?Eo', ?Ep', ?Ef', ?Er', ?Ea'; simpl;
      rewrite ?Eo, ?Ep, ?Ef, ?Er in *; try done.
    + exists order. do 4 (split; [done|]). split.
      * intros a'. rewrite Hbook. change (booked a' dm) with (booked a' d1). by rewrite Ebk.
      * intros ac' Hac' Hen Hneg. destruct Hnew as [->|(Hn & _)]; [|congruence].
        rewrite Hac in Hac'. injection Hac' as <-. by apply Henf.
    + exists ac, (od_project_id order).
      destruct Hnew as [->|(? & ? & ?)]; [by left|by right].
Qed.

(** What a manual refund commits. *)
Record refunded_by (env : Env) (r : CreateRefundRequest) (d : Db) (refund : Refund) (d' : Db)
    : Prop := {
  rb_inv : Inv d';
  rb_payment : ∃ payment order,
    payments d !! crf_payment_id r = Some payment ∧
    py_provider payment ≠ "alipay"%string ∧ 0 < money_amount (crf_amount r) ∧
    orders d !! py_order_id payment = Some order ∧
    saturating_add_i64 (wrap_i64 (refunded (py_id payment) ["succeeded"%string] d))
      (money_amount (crf_amount r)) ≤ py_amount payment ∧
    refund = mkRefund (crf_id r) (crf_payment_id r) (money_amount (crf_amount r))
      (money_currency (crf_amount r)) (crf_reason r) "succeeded" None (env_now env)
      (Some (env_now env)) ∧
    (∀ a, booked a d' = booked a d -
       (if decide (a = account_id (od_project_id order))
        then money_amount (crf_amount r) * MICROS_PER_MINOR_UNIT else 0)) ∧
    (∀ ac, accounts d !! od_project_id order = Some ac → ac_enforce_balance ac = true →
       0 ≤ booked (account_id (od_project_id order)) d - held (account_id (od_project_id order)) d
           - money_amount (crf_amount r) * MICROS_PER_MINOR_UNIT);
  rb_new : refunds d !! crf_id r = None;
  rb_refunds : refunds d' = <[crf_id r := refund]> (refunds d);
  rb_payments : payments d' = payments d;
  rb_orders : orders d' = orders d;
  rb_reservations : reservations d' = reservations d;
  rb_accounts : ∃ ac pr, accounts d' = accounts d ∨
    accounts d !! pr = None ∧ ac_enforce_balance ac = false ∧ accounts d' = <[pr := ac]> (accounts d) }.

Lemma create_refund_Ok env r idem d refund d' :
  Inv d → create_refund env r idem d = Ok (refund, d') →
  (refunds d !! crf_id r = Some refund ∧ d' = d) ∨ refunded_by env r d refund d'.
Proof.
  intros HI Hrun. unfold create_refund, lock_order, lock_payment in Hrun. tx_inv Hrun.
  match goal with H : (_ <=? 0) || _ = false |- _ =>
    apply orb_false_iff in H as [Hpos%Z.leb_gt _] end.
  destruct (refunds d !! crf_id r) as [existing|] eqn:Hex; tx_inv Hrun; [by left|right].
  match goal with H : payments _ !! _ = Some ?o |- _ => rename o into payment, H into Hpay end.
  match goal with H : orders _ !! _ = Some ?o |- _ => rename o into order, H into Horder end.
  match goal with H : str_eqb (py_provider _) _ = false |- _ =>
    apply str_eqb_neq in H; rename H into Hprov end.
  match goal with H : (py_amount _ <? _) = false |- _ =>
    apply Z.ltb_ge in H; rename H into Hcum end.
  match goal with H : ensure_account_for_project _ _ _ = Ok (?x, ?y) |- _ =>
    rename x into ac, y into d1;
    eapply ensure_account_Ok in H as (HI1 & Hac & [acs Ho] & Hnew); [|done] end.
  match goal with H : insert_refund _ _ _ = _ |- _ =>
    apply insert_refund_Ok in H as [Hfresh ->] end.
  match goal with H : checked_mul _ _ = Some _ |- _ => apply checked_mul_Some in H as [-> _] end.
  assert (orders d1 = orders d ∧ payments d1 = payments d ∧
          refunds d1 = refunds d ∧ reservations d1 = reservations d ∧
          (∀ a, booked a d1 = booked a d) ∧ ∀ a, held a d1 = held a d)
    as (Eo & Ep & Ef & Er & Ebk & Eh) by (by subst d1).
  match goal with H : insert_balanced_entries _ _ _ _ _ _ _ _ _ _ ?x = _ |- _ =>
    set (dm := x) in H;
    assert (outside d1 dm) as Hout by apply outside_refunds;
    eapply post_to_project in H as (HI4 & Hb & Hbook & Henf);
      [|by eapply Inv_outside|exact Hac|done] end.
  destruct (bookkeeping_outside _ _ Hb) as (Eo' & Ep' & Ef' & _).
  destruct (bookkeeping_same _ _ Hb) as (Er' & _ & Ea' & _).
  split; simpl in *; rewrite ?Eo', ?Ep', ?Ef', ?Er', ?Ea'; simpl;
    rewrite ?Eo, ?Ep, ?Ef, ?Er in *; try done.
  - exists payment, order. do 6 (split; [done|]). split.
    + intros a'. rewrite Hbook. change (booked a' dm) with (booked a' d1). rewrite Ebk.
      case_decide; lia.
    + intros ac' Hac' Hen. destruct Hnew as [->|(Hn & _)]; [|congruence].
      rewrite Hac in Hac'. injection Hac' as <-.
      assert (0 < MICROS_PER_MINOR_UNIT) by done.
      specialize (Henf Hen ltac:(nia)).
      change (booked _ dm) with (booked (account_id (od_project_id order)) d) in Henf.
      change (held _ dm) with (held (account_id (od_project_id order)) d) in Henf. lia.
  - exists ac, (od_project_id order).
    destruct Hnew as [->|(? & ? & ?)]; [by left|by right].
Qed.

Lemma create_order_Ok env r d o d' :
  create_order env r d = Ok (o, d') →
  orders d !! cor_id r = None ∧ 0 < money_amount (cor_amount r) ∧
  o = mkOrder (cor_id r) (cor_tenant_id r) (cor_project_id r) "top_up"
    (money_amount (cor_amount r)) "CNY" "pending" (cor_description r) (env_now env) (env_now env) ∧
  d' = set_orders (<[cor_id r := o]> (orders d)) d.
Proof.
  intros Hrun. unfold create_order in Hrun. tx_inv Hrun.
  match goal with H : validate_money _ = Ok _ |- _ => apply validate_money_Ok in H as [-> _] end.
  match goal with H : is_some _ = false |- _ => apply is_some_false in H end.
  match goal with H : (_ <=? 0) = false |- _ => apply Z.leb_gt in H end. done.
Qed.

Lemma create_order_Inv env r d o d' :
  Inv d → create_order env r d = Ok (o, d') → Inv d'.
Proof.
  intros HI (_ & _ & _ & ->)%create_order_Ok. eapply Inv_outside; [done|apply outside_orders].
Qed.

Lemma capture_payment_Inv env order_id r idem d a d' :
  Inv d → capture_payment env order_id r idem d = Ok (a, d') → Inv d'.
Proof.
  intros HI [(_ & _ & ->)|Hc]%capture_payment_Ok; [done|apply Hc|done].
Qed.

Lemma create_refund_Inv env r idem d a d' :
  Inv d → create_refund env r idem d = Ok (a, d') → Inv d'.
Proof. intros HI [(_ & ->)|Hc]%create_refund_Ok; [done|apply Hc|done]. Qed.

Lemma record_usage_Inv env e d b d' :
  Inv d → record_usage env e d = Ok (b, d') → Inv d'.
Proof. intros HI [HI' _]%record_usage_Ok; done. Qed.
End operations.
