(* ===== verification/Routes.v ===== *)
(** * Routes: route policies, releases and serving endpoints

    [put_route_policy] of [crates/control-plane/src/repository.rs],
    [releases.rs], and the serving endpoints of [catalog.rs].  A policy is
    written by compare-and-swap on its revision, together with its entry in
    the history that a rollback reads. *)

From S2P Require Import Prelude Domain Models Routing Fleet Store Books Catalog Wallet.
Local Open Scope Z_scope.

(** ** Route policies *)

(** The insert of a first revision, or the compare-and-swap on the current one. *)
Definition put_route_row (env : Env) (project model : string) (request : PutRoutePolicy) : Tx unit :=
  row ← registry (λ r, routes r !! (project, model));
  (if pr_expected_revision request =? 0 then fail_if (is_some row) duplicate_row
   else fail_if (negb (match row with
                       | Some r => ro_revision r =? pr_expected_revision request
                       | None => false
                       end)) (Conflict "route policy revision changed; reload before saving")) ;;
  write_registry (λ r, put_routes (<[(project, model) :=
    mkRouteRow (pr_expected_revision request + 1) (pr_spec request) (env_now env)]> (routes r)) r).

Definition insert_route_revision (project model : string) (revision : Z) (row : RouteRevision)
    : Tx unit :=
  dup ← registry (λ r, is_some (route_revisions r !! (project, model, revision)));
  fail_if dup Database ;;
  write_registry (λ r,
    put_route_revisions (<[(project, model, revision) := row]> (route_revisions r)) r).

Definition put_route_policy (env : Env) (project : Project) (model : string)
    (request : PutRoutePolicy) (pools : list RoutePool) (actor operation : string)
    : Tx RoutePolicy :=
  lift_text (spec_validate_pools (pr_spec request) model pools) ;;
  _ ← active_model model;
  fail_if (negb ((0 <=? pr_expected_revision request) && (pr_expected_revision request <? i64_max)))
    (Invalid "unknown model or invalid expected_revision") ;;
  let revision := pr_expected_revision request + 1 in
  put_route_row env (prj_id project) model request ;;
  insert_route_revision (prj_id project) model revision
    (mkRouteRevision (pr_spec request) actor operation (env_now env)) ;;
  mret (mkRoutePolicy (prj_tenant_id project) (prj_id project) model revision (pr_spec request)).

(** ** Releases *)

Record HistoryQuery := mkHistoryQuery { hq_before : option Z; hq_limit : option Z }.

(** The recorded revisions of a policy, newest first. *)
Definition route_history_rows (project model : string) (before : option Z) (r : Registry)
    : list (Z * RouteRevision) :=
  reverse (order_by fst (omap (λ e : string * string * Z * RouteRevision,
    if str_eqb e.1.1.1 project && str_eqb e.1.1.2 model
       && match before with Some b => e.1.2 <? b | None => true end
    then Some (e.1.2, e.2) else None) (map_to_list (route_revisions r)))).

Definition route_history (project model : string) (query : HistoryQuery)
    : Tx (option Z * list (Z * RouteRevision)) :=
  let limit := default 20 (hq_limit query) in
  fail_if (negb ((1 <=? limit) && (limit <=? 100))
           || match hq_before query with Some v => v <=? 0 | None => false end)
    (Invalid "invalid release history page") ;;
  rows ← registry (λ r, take (Z.to_nat (limit + 1)) (route_history_rows project model (hq_before query) r));
  let more := limit <? Z.of_nat (length rows) in
  let rows := take (Z.to_nat limit) rows in
  mret (if more then option_map fst (last rows) else None, rows).

(** The policy a release action asks for. *)
Definition next_spec (project model : string) (action : ReleaseAction) (current : RoutePolicySpec)
    : Tx RoutePolicySpec :=
  match action with
  | Pause _ => mret (spec_pause current)
  | Promote _ => lift_text (spec_promote current)
  | Rollback expected target_revision =>
      fail_if ((target_revision <=? 0) || (expected <=? target_revision))
        (Invalid "rollback requires an earlier recorded revision") ;;
      target ← registry (λ r, route_revisions r !! (project, model, target_revision));
      target ← found target NotFound;
      mret (rh_spec target)
  end.

Definition release_action (env : Env) (project : Project) (model : string) (action : ReleaseAction)
    (pools : list RoutePool) (actor : string) : Tx RoutePolicy :=
  let expected := ReleaseAction_expected_revision action in
  current ← registry (λ r, routes r !! (prj_id project, model));
  current ← found current NotFound;
  fail_if ((expected <=? 0) || negb (expected =? ro_revision current))
    (Conflict "route policy revision changed") ;;
  next ← next_spec (prj_id project) model action (ro_spec current);
  put_route_policy env project model (mkPutRoute expected next) pools actor
    (ReleaseAction_name action).

(** ** Serving endpoints *)

(** An address or a model revision that a managed pool serves. *)
Definition aliases_managed (value : ServingEndpoint) (pool : ManagedPool) : bool :=
  let managed := mp_endpoint pool in
  str_eqb (se_address value) (se_address managed)
  || (str_eqb (se_model value) (se_model managed) && str_eqb (se_revision value) (se_revision managed)).

Definition put_endpoint_row (env : Env) (id : string) (expected : Z) (value : ServingEndpoint)
    : Tx unit :=
  previous ← registry (λ r, endpoints r !! id);
  (if expected =? 0 then fail_if (is_some previous) duplicate_row
   else
     previous ← found previous NotFound;
     fail_if (negb (er_generation previous =? expected)
              || negb (str_eqb (se_model (er_definition previous)) (se_model value))
              || negb (str_eqb (se_revision (er_definition previous)) (se_revision value)))
       (Conflict "endpoint generation or immutable model revision changed")) ;;
  write_registry (λ r, put_endpoints (<[id :=
    mkEndpointRow (expected + 1) value (env_now env)]> (endpoints r)) r).

Definition put_serving_endpoint (env : Env) (id : string) (expected : Z) (value : ServingEndpoint)
    : Tx Z :=
  lift_text (ServingEndpoint_validate value) ;;
  fail_if (negb (str_eqb (se_id value) id) || managed id
           || negb ((0 <=? expected) && (expected <? i64_max)))
    (Invalid "invalid endpoint ID or generation") ;;
  _ ← active_model (se_model value);
  aliased ← registry (λ r, existsb (aliases_managed value) (map_to_list (pools r)).*2);
  fail_if aliased
    (Conflict "managed serving entries cannot be aliased through legacy routing") ;;
  put_endpoint_row env id expected value ;;
  mret (expected + 1).

Definition serving_endpoints (r : Registry) : list ServingEndpoint :=
  er_definition <$> (order_by_text fst (map_to_list (endpoints r))).*2.

Definition pool_of_endpoint (e : ServingEndpoint) : RoutePool :=
  mkRoutePool (se_id e) (se_model e) (se_revision e).

(** The pools a policy may name, later sources replacing earlier ones of the
    same identifier. *)
Definition route_pools (bootstrap : list RoutePool) : Tx (list RoutePool) :=
  registry (λ r,
    let add := λ m (p : RoutePool), <[rp_id p := p]> m in
    let m := foldl add (∅ : gmap string RoutePool) bootstrap in
    let m := foldl add m (pool_of_endpoint <$> serving_endpoints r) in
    let m := foldl add m (pool_of_endpoint ∘ mp_endpoint <$>
      filter (λ p, mp_state p ≠ PoolRetired) (map_to_list (pools r)).*2) in
    (order_by_text fst (map_to_list m)).*2).

(** ** What a put writes *)

Lemma put_route_policy_Ok env project model request pools actor operation d policy d' :
  let k := (prj_id project, model) in
  let e := pr_expected_revision request in
  put_route_policy env project model request pools actor operation d = Ok (policy, d') →
  spec_validate_pools (pr_spec request) model pools = Ok tt ∧ 0 ≤ e < i64_max ∧
  (if e =? 0 then routes (control d) !! k = None
   else ro_revision <$> routes (control d) !! k = Some e) ∧
  route_revisions (control d) !! (k, e + 1) = None ∧
  policy = mkRoutePolicy (prj_tenant_id project) (prj_id project) model (e + 1) (pr_spec request) ∧
  control d' =
    put_route_revisions (<[(k, e + 1) := mkRouteRevision (pr_spec request) actor operation (env_now env)]>
      (route_revisions (control d)))
    (put_routes (<[k := mkRouteRow (e + 1) (pr_spec request) (env_now env)]> (routes (control d)))
      (control d)) ∧
  d' = set_control (control d') d.
Proof.
  intros k e Hrun. unfold put_route_policy, put_route_row, insert_route_revision, registry,
    write_registry in Hrun. tx_inv Hrun.
  repeat match goal with
  | H : lift_text _ _ = Ok _ |- _ => apply lift_text_Ok in H as [? ->]
  | H : active_model _ _ = Ok _ |- _ => apply active_model_Ok in H as [-> _]
  | u : () |- _ => destruct u
  end.
  rewrite negb_false_iff, andb_true_iff, Z.leb_le, Z.ltb_lt in *. subst k e.
  destruct (pr_expected_revision request =? 0) eqn:He;
    match goal with H : fail_if _ _ _ = Ok _ |- _ => tx_inv H end;
    rewrite ?is_some_false in *; split_and!; try done; try lia.
  destruct (routes _ !! _) as [row|]; [|done]. simpl.
  rewrite negb_false_iff, Z.eqb_eq in *. congruence.
Qed.

(** ** The history of a policy *)

(** A policy is its newest recorded revision; its revisions are numbered from
    one without a gap, and every one of them passed validation. *)
Record Routes_ok (r : Registry) : Prop := {
  rk_current k row : routes r !! k = Some row →
    rh_spec <$> route_revisions r !! (k, ro_revision row) = Some (ro_spec row);
  rk_history k v : is_Some (route_revisions r !! (k, v)) ↔
    ∃ row, routes r !! k = Some row ∧ 1 ≤ v ≤ ro_revision row;
  rk_valid k v h : route_revisions r !! (k, v) = Some h → spec_validate (rh_spec h) = Ok tt }.

Lemma empty_routes_ok : Routes_ok empty_registry.
Proof.
  split; simpl; [intros k row []%lookup_empty_Some| |intros k v h []%lookup_empty_Some].
  intros k v. rewrite lookup_empty. split; [by intros []|].
  intros (row & []%lookup_empty_Some & _).
Qed.

Lemma put_route_policy_ok env project model request pools actor operation d policy d' :
  Routes_ok (control d) →
  put_route_policy env project model request pools actor operation d = Ok (policy, d') →
  Routes_ok (control d').
Proof.
  intros [Hc Hh Hv] (Hp & He & Hrow & Hnew & _ & -> & _)%put_route_policy_Ok.
  set (k := (prj_id project, model)) in *. set (e := pr_expected_revision request) in *.
  unfold spec_validate_pools in Hp. apply unit_bind_Ok in Hp as [Hp _].
  assert (Hold : ∀ row, routes (control d) !! k = Some row → ro_revision row = e).
  { intros row E. rewrite E in Hrow. destruct (e =? 0); [done|]. by injection Hrow. }
  split; simpl.
  - intros k' row [[<- <-]|[Hne Hk]]%lookup_insert_Some; simpl; [by rewrite lookup_insert_eq|].
    rewrite lookup_insert_ne by congruence. by apply Hc.
  - intros k' v. destruct (decide (k = k')) as [<-|Hne].
    + rewrite lookup_insert_eq. destruct (decide (v = e + 1)) as [->|Hv'].
      * rewrite lookup_insert_eq. split; [|done]. intros _. eexists. split; [done|]. simpl. lia.
      * rewrite lookup_insert_ne by congruence. rewrite Hh. split.
        -- intros (row & E & Hr). rewrite (Hold _ E) in Hr. eexists. split; [done|]. simpl. lia.
        -- intros (row & [= <-] & Hr). simpl in Hr. destruct (Z.eqb_spec e 0); [lia|].
           destruct (routes (control d) !! k) as [row|]; [|done]. injection Hrow as Hrow.
           exists row. split; [done|]. lia.
    + rewrite !lookup_insert_ne by congruence. apply Hh.
  - intros k' v h [[_ <-]|[_ Hk]]%lookup_insert_Some; [done|]. by eapply Hv.
Qed.

Lemma put_route_policy_only env project model request pools actor operation d policy d' :
  put_route_policy env project model request pools actor operation d = Ok (policy, d') →
  d' = set_control (control d') d.
Proof. by intros (_ & _ & _ & _ & _ & _ & ?)%put_route_policy_Ok. Qed.

Lemma put_route_policy_run env project model request pools actor operation d m :
  let k := (prj_id project, model) in
  let e := pr_expected_revision request in
  spec_validate_pools (pr_spec request) model pools = Ok tt → active_model model d = Ok (m, d) →
  0 < e < i64_max → ro_revision <$> routes (control d) !! k = Some e →
  route_revisions (control d) !! (k, e + 1) = None →
  is_ok (put_route_policy env project model request pools actor operation d) = true.
Proof.
  intros k e Hs Hm He Hrow Hnew. unfold put_route_policy, put_route_row, insert_route_revision,
    registry, write_registry, mbind, tx_bind, gets, modify. rewrite Hs. simpl. rewrite Hm.
  fold e k. destruct (Z.leb_spec 0 e); [|lia]. destruct (Z.ltb_spec e i64_max); [|lia]. simpl.
  destruct (Z.eqb_spec e 0); [lia|]. destruct (routes (control d) !! k) as [row|]; [|done].
  injection Hrow as ->. rewrite Z.eqb_refl. simpl. by rewrite Hnew.
Qed.

(** A rollback never fails for want of history.  Every earlier revision of
    a policy is recorded with the specification it had; rolling back to it
    succeeds as long as its pools are still registered and the model is on
    sale, makes its specification current under the next revision number, and
    rewrites nothing of the history. *)
Theorem rollback_restores env project model pools actor d row t m :
  let k := (prj_id project, model) in
  Routes_ok (control d) → routes (control d) !! k = Some row →
  1 ≤ t < ro_revision row → ro_revision row < i64_max → active_model model d = Ok (m, d) →
  ∃ h, route_revisions (control d) !! (k, t) = Some h ∧
    (all_registered model pools (spec_pools (rh_spec h)) = Ok tt →
     ∃ policy d',
       release_action env project model (Rollback (ro_revision row) t) pools actor d = Ok (policy, d') ∧
       rt_spec policy = rh_spec h ∧ rt_revision policy = ro_revision row + 1 ∧
       routes (control d') !! k = Some (mkRouteRow (ro_revision row + 1) (rh_spec h) (env_now env)) ∧
       ∀ k' v, (k', v) ≠ (k, ro_revision row + 1) →
         route_revisions (control d') !! (k', v) = route_revisions (control d) !! (k', v)).
Proof.
  intros k [Hc Hh Hv] Hrow Ht Hmax Hm.
  destruct (proj2 (Hh k t)) as [h E]; [exists row; split; [done|lia]|].
  exists h. split; [done|]. intros Hreg. set (request := mkPutRoute (ro_revision row) (rh_spec h)).
  assert (Hrun : release_action env project model (Rollback (ro_revision row) t) pools actor d =
    put_route_policy env project model request pools actor "rollback" d).
  { unfold release_action, next_spec, registry, mbind, tx_bind, gets. simpl. fold k. rewrite Hrow.
    simpl. rewrite Z.eqb_refl. destruct (Z.leb_spec (ro_revision row) 0); [lia|]. simpl.
    destruct (Z.leb_spec t 0); [lia|]. destruct (Z.leb_spec (ro_revision row) t); [lia|]. simpl.
    by rewrite E. }
  assert (Hok := put_route_policy_run env project model request pools actor "rollback" d m).
  destruct (put_route_policy _ _ _ _ _ _ _ d) as [[policy d']|e] eqn:Hput.
  2: { discriminate Hok; try done; simpl; try lia.
       - unfold spec_validate_pools. apply unit_bind_Ok. split; [by eapply Hv|done].
       - by fold k; rewrite Hrow.
       - fold k. apply eq_None_not_Some. rewrite Hh. intros (row' & E' & Hr). simplify_eq. lia. }
  exists policy, d'. split; [done|]. clear Hok.
  apply put_route_policy_Ok in Hput as (_ & _ & _ & _ & -> & -> & _). simpl. fold k.
  split_and!; [done..|by rewrite lookup_insert_eq|].
  intros k' v Hne. by rewrite lookup_insert_ne by congruence.
Qed.
