(* ===== verification/Clusters.v ===== *)
(** * Clusters: member clusters, their credentials and their deliveries

    [crates/control-plane/src/clusters.rs]: an operator registers a cluster
    and rotates or revokes its credential; the agent of the cluster polls for
    the newest desired revision under a lease and reports what it applied.
    Desired revisions are written by [put_cluster_desired] (Pools.v). *)

From S2P Require Import Prelude Store Fleet.
Local Open Scope Z_scope.

(** ** Names, credentials and the audit log *)

Definition byte_at (s : string) (n : nat) : option ascii := String.get n s.

Definition name (value : string) : bool :=
  negb (is_empty value) && (str_len value <=? 63)
  && match byte_at value 0 with Some b => is_ascii_alphanumeric b | None => false end
  && match byte_at value (String.length value - 1) with
     | Some b => is_ascii_alphanumeric b | None => false end
  && bytes_all (λ b, is_ascii_lowercase b || is_ascii_digit b || Ascii.eqb b "-") value.

Definition audit (env : Env) (n : nat) (actor action id : string) (payload : Json) : Tx unit :=
  insert_operation_audit (mkOperationAudit (env_uuid env n) actor action id payload (env_now env)).

Record RegisterCluster := mkRegister {
  rc_id : string; rc_namespace : string; rc_credential_days : Z }.
Record RotateCredential := mkRotate { rt_expected_epoch : Z; rt_credential_days : Z }.

Definition seconds (n : Z) : Z := n * 1000000.
Definition days (n : Z) : Z := seconds (n * 86400).

Section clusters.
(** The hexadecimal SHA-256 digest of a text. *)
Variable hash : string → string.

(** A new credential; [token] is the encoded entropy. *)
Definition credential (days : Z) (token : string) : Tx (string * string) :=
  fail_if (negb ((1 <=? days) && (days <=? 90)))
    (Invalid "cluster credentials expire in 1..90 days") ;;
  mret (hash token, token).

Definition find_cluster (id : string) (e : ServiceError) : Tx Cluster :=
  row ← registry (λ r, clusters r !! id);
  found row e.
Definition put_cluster (id : string) (c : Cluster) : Tx unit :=
  write_registry (λ r, put_clusters (<[id := c]> (clusters r)) r).

Definition lapsed (time : Z) (until : option Z) : bool :=
  match until with Some t => t <=? time | None => true end.

Definition authenticated (env : Env) (id token : string) : Tx Cluster :=
  row ← find_cluster id Unauthorized;
  fail_if (is_some (cl_revoked_at row) || (cl_expires_at row <=? env_now env)
           || negb (str_eqb (cl_credential_hash row) (hash token))) Unauthorized ;;
  mret row.

(** ** The operator *)

Definition register_cluster (env : Env) (request : RegisterCluster) (token actor : string)
    : Tx (Cluster * string) :=
  fail_if (negb (name (rc_id request) && name (rc_namespace request)))
    (Invalid "invalid cluster identity or namespace") ;;
  pair ← credential (rc_credential_days request) token;
  old ← registry (λ r, clusters r !! rc_id request);
  fail_if (is_some old) (Conflict "cluster identity already exists") ;;
  let row := mkCluster (rc_id request) (rc_namespace request) pair.1 1
    (env_now env + days (rc_credential_days request)) None 0 0 0 None None None None
    (env_now env) (env_now env) in
  put_cluster (rc_id request) row ;;
  audit env 0 actor "cluster.register" (rc_id request) (JObj [("credential_epoch", JNum 1)]) ;;
  mret (row, pair.2).

Definition rotate_cluster_credential (env : Env) (id : string) (request : RotateCredential)
    (token actor : string) : Tx (Cluster * string) :=
  pair ← credential (rt_credential_days request) token;
  row ← find_cluster id NotFound;
  fail_if (negb (cl_credential_epoch row =? rt_expected_epoch request))
    (Conflict "cluster credential version changed") ;;
  epoch ← found (checked_add (cl_credential_epoch row) 1) (Invalid "credential epoch exhausted");
  let row := set_cl_updated_at (env_now env) (set_cl_lease_until None (set_cl_delivery_lease None
    (set_cl_revoked_at None (set_cl_expires_at (env_now env + days (rt_credential_days request))
    (set_cl_credential_epoch epoch (set_cl_credential_hash pair.1 row)))))) in
  put_cluster id row ;;
  audit env 0 actor "cluster.credential_rotated" id (JObj [("credential_epoch", JNum epoch)]) ;;
  mret (row, pair.2).

Definition revoke_cluster (env : Env) (id actor : string) : Tx unit :=
  row ← find_cluster id NotFound;
  if is_some (cl_revoked_at row) then mret tt
  else
    put_cluster id (set_cl_lease_until None (set_cl_delivery_lease None
      (set_cl_revoked_at (Some (env_now env)) row))) ;;
    audit env 0 actor "cluster.revoked" id (JObj [("resources_deleted", JBool false)]).

(** ** The agent of the cluster *)

(** The delivery of the newest revision, or nothing new. *)
Definition next_delivery (env : Env) (id : string) (row : Cluster) : Tx (option ClusterDelivery) :=
  if cl_acknowledged_version row <? cl_desired_version row then
    revision ← registry (λ r, cluster_revisions r !! (id, cl_desired_version row));
    revision ← found revision (Conflict "desired revision missing");
    mret (Some (mkDelivery id (cl_namespace row) (cl_desired_version row) (cv_sha256 revision)
      (env_uuid env 0) 60 (cv_payload revision)))
  else mret None.

(** The answer carries the delivery and the seconds to wait. *)
Definition poll_cluster (env : Env) (id token : string) : Tx (option ClusterDelivery * Z) :=
  row ← authenticated env id token;
  let time := env_now env in
  if negb (lapsed time (cl_lease_until row)) then mret (None, 5)
  else
    delivery ← next_delivery env id row;
    let row := set_cl_heartbeat_at (Some time) row in
    let row := match delivery with
      | Some d => set_cl_lease_until (Some (time + seconds 60))
          (set_cl_delivery_lease (Some (dl_lease d)) (set_cl_delivery_version (dl_version d) row))
      | None => row
      end in
    put_cluster id row ;;
    mret (delivery, 15).

Definition report_codes : list string :=
  ["invalid_spec"; "ownership_conflict"; "identity_mismatch"; "kubernetes_unavailable"; "apply_timeout"].

(** A report that was applied has no error code, one that was rejected has one. *)
Definition report_ok (report : ClusterReport) : bool :=
  let outcome := cr_outcome report in
  negb (negb (str_in outcome ["applied"; "rejected"])
        || match cr_error_code report with Some code => negb (str_in code report_codes) | None => false end
        || (str_eqb outcome "applied" && is_some (cr_error_code report))
        || (str_eqb outcome "rejected" && negb (is_some (cr_error_code report)))).

(** Whether a report of [version] under [lease] is too late. *)
Definition stale_delivery (time : Z) (row : Cluster) (report : ClusterReport) : bool :=
  negb (cl_delivery_version row =? cr_version report)
  || negb (bool_decide (cl_delivery_lease row = Some (cr_lease report)))
  || lapsed time (cl_lease_until row)
  || (cr_version report <? cl_acknowledged_version row).

(** [true] is the answer to a duplicate. *)
Definition report_cluster (env : Env) (id token : string) (report : ClusterReport) : Tx bool :=
  fail_if (negb (report_ok report)) (Invalid "invalid cluster report") ;;
  row ← authenticated env id token;
  revision ← registry (λ r, cluster_revisions r !! (id, cr_version report));
  revision ← found revision NotFound;
  fail_if (negb (str_eqb (cv_sha256 revision) (cr_sha256 report)))
    (Conflict "report digest differs from desired state") ;;
  let applied := str_eqb (cr_outcome report) "applied" in
  if (cl_acknowledged_version row =? cr_version report) && applied then mret true
  else
    fail_if (stale_delivery (env_now env) row report) (Conflict "stale or expired cluster delivery") ;;
    let row := if applied then set_cl_acknowledged_version (cr_version report) row else row in
    put_cluster id (set_cl_updated_at (env_now env) (set_cl_last_error (cr_error_code report)
      (set_cl_heartbeat_at (Some (env_now env)) (set_cl_lease_until None
      (set_cl_delivery_lease None row))))) ;;
    audit env 0 ("cluster:" +:+ id) (if applied then "cluster.ack" else "cluster.nack") id
      (JObj [("version", JNum (cr_version report)); ("sha256", JStr (cr_sha256 report));
             ("error_code", json_opt JStr (cr_error_code report))]) ;;
    mret false.
End clusters.
