(* ===== verification/Pools.v ===== *)
(** * Pools: managed pools, their drain and their scaling

    [crates/control-plane/src/managed_pools.rs], [scaling.rs], the idle
    evidence of [gateway_proofs.rs] and [put_cluster_desired] of
    [clusters.rs].  A pool is bound to one deployment of a cluster; it is
    active, draining or drained under a generation number, and its deployment
    may only change once every gateway that was ever sent to it has proved
    that it no longer is. *)

From S2P Require Import Prelude Models Routing Fleet Store Catalog Clusters.
Local Open Scope Z_scope.

(** ** Access to the tables *)

Definition json_path (a b : string) (j : Json) : Json := json_get b (json_get a j).

Definition find_pool (id : string) : Tx ManagedPool :=
  row ← registry (λ r, pools r !! id);
  found row NotFound.
Definition put_pool (p : ManagedPool) : Tx unit :=
  write_registry (λ r, put_pools (<[mp_id p := p]> (pools r)) r).

(** The views of a pool, by session. *)
Definition views_of (pool : string) (r : Registry) : list (string * PoolView) :=
  omap (λ e : string * string * PoolView,
    if str_eqb e.1.1 pool then Some (e.1.2, e.2) else None) (map_to_list (views r)).

(** A participant that may still have requests in flight. *)
Definition blocking (generation : Z) (v : PoolView) : bool :=
  negb (vw_active_requests v =? 0)
  || (negb (vw_retired v) && (vw_acknowledged_generation v <? generation)).
Definition blocked (p : ManagedPool) (r : Registry) : bool :=
  existsb (λ e, blocking (mp_generation p) e.2) (views_of (mp_id p) r).

Definition next_generation (p : ManagedPool) : Tx Z :=
  found (checked_add (mp_generation p) 1) (Invalid "pool generation exhausted").

(** ** Binding a pool *)

Definition managed_scaling (spec : Json) : bool :=
  json_eqb (json_path "autoscaling" "managed" spec) (JBool true).

Definition spec_supported (spec : Json) (serving_service : string) : bool :=
  (json_eqb (json_get "autoscaling" spec) JNull || managed_scaling spec)
  && json_eqb (json_path "runtime" "protocol" spec) (JStr "openai")
  && json_eqb (json_path "serving" "endpointPickerService" spec) (JStr serving_service).

Definition same_release (a b : ServingEndpoint) : bool :=
  str_eqb (se_model a) (se_model b) && str_eqb (se_revision a) (se_revision b).

(** The entry a binding asks for must be its own. *)
Definition check_dedicated (endpoint : ServingEndpoint) (deployment : string)
    (legacy : list RoutePool) : Tx unit :=
  fail_if (existsb (λ p, str_eqb (rp_id p) deployment
      || (str_eqb (rp_model p) (se_model endpoint) && str_eqb (rp_revision p) (se_revision endpoint)))
      legacy)
    (Conflict "managed pool must not reuse a legacy model revision or entry") ;;
  exposed ← registry (λ r, existsb (λ old,
      str_eqb (se_address old) (se_address endpoint) || same_release old endpoint)
    (er_definition <$> (map_to_list (endpoints r)).*2));
  fail_if exposed (Conflict "serving entry is already exposed through the legacy catalog") ;;
  taken ← registry (λ r, existsb (λ old, str_eqb (se_address (mp_endpoint old)) (se_address endpoint))
    (map_to_list (pools r)).*2);
  fail_if taken (Conflict "managed entries must be dedicated to one pool").

(** The endpoint of a new pool, from the model of its specification. *)
Definition binding_endpoint (id : string) (request : PoolBinding) (spec : Json) : Tx ServingEndpoint :=
  model ← found (json_as_str (json_path "model" "id" spec)) (Invalid "model ID missing");
  fail_if (managed_scaling spec && negb (pb_traffic_protocol request =? 2))
    (Invalid "automatic scaling requires a v2 fenced serving entry") ;;
  active_model model ;;
  revision ← found (json_as_str (json_path "model" "revision" spec)) (Invalid "model revision missing");
  mret (mkServingEndpoint id model revision (pb_address request) (pb_tls request)
    (pb_server_name request)).

Definition named (name : string) (d : DesiredDeployment) : bool := str_eqb (dd_name d) name.

(** The specification of a deployment in the newest desired revision. *)
Definition desired_spec (cluster : Cluster) (deployment : string) : Tx Json :=
  desired ← registry (λ r, cluster_revisions r !! (cl_id cluster, cl_desired_version cluster));
  desired ← found desired NotFound;
  found (List.find (named deployment) (cv_payload desired) ≫= dd_spec) NotFound.

(** The insert, with the primary key and the unique index on the deployment. *)
Definition insert_pool (p : ManagedPool) : Tx unit :=
  dup ← registry (λ r, existsb (λ old, str_eqb (mp_id old) (mp_id p)
      || (str_eqb (mp_cluster_id old) (mp_cluster_id p) && str_eqb (mp_deployment old) (mp_deployment p)))
    (map_to_list (pools r)).*2);
  fail_if dup duplicate_row ;;
  put_pool p.

Definition bind_pool (env : Env) (request : PoolBinding) (actor : string) (legacy : list RoutePool)
    : Tx string :=
  fail_if (negb (name (pb_cluster_id request) && name (pb_deployment request)
                 && name (pb_serving_service request)))
    (Invalid "invalid cluster, deployment or serving Service name") ;;
  fail_if (negb ((1 <=? pb_traffic_protocol request) && (pb_traffic_protocol request <=? 2)))
    (Invalid "unknown traffic protocol") ;;
  cluster ← find_cluster (pb_cluster_id request) NotFound;
  let time := env_now env in
  fail_if (is_some (cl_revoked_at cluster) || (cl_expires_at cluster <=? time)
           || negb (pb_expected_desired_version request =? cl_desired_version cluster))
    (Conflict "cluster credential or desired version changed") ;;
  spec ← desired_spec cluster (pb_deployment request);
  fail_if (negb (spec_supported spec (pb_serving_service request)))
    (Invalid "managed drain currently requires manual replicas and a pool-specific combined Envoy/EPP entry") ;;
  let id := "managed-" +:+ env_uuid env 0 in
  endpoint ← binding_endpoint id request spec;
  lift_text (ServingEndpoint_validate endpoint) ;;
  check_dedicated endpoint (pb_deployment request) legacy ;;
  insert_pool (mkPool id (cl_id cluster) (pb_deployment request) 1 PoolPending request endpoint spec
    (pb_expected_desired_version request) None None None None "not_ready" None time None None) ;;
  audit env 1 actor "pool.bound" id (JObj [("generation", JNum 1); ("state", JStr "pending")]) ;;
  mret id.

(** ** Status and transitions *)

Record PoolStatus := mkPoolStatus {
  ps_row : ManagedPool;
  ps_participants : list (string * PoolView);
  ps_blocked : Z;
  ps_can_finish_drain : bool }.

Definition managed_pool_status (id : string) : Tx PoolStatus :=
  row ← find_pool id;
  participants ← registry (λ r, order_by_text fst (views_of id r));
  let blocked := Z.of_nat (length
    (filter (λ e, blocking (mp_generation row) e.2 = true) participants)) in
  mret (mkPoolStatus row participants blocked
    (bool_decide (mp_state row = PoolDraining) && (blocked =? 0)
     && negb (is_some (mp_scale_operation row)))).

Definition state_text (s : PoolState) : string :=
  match s with
  | PoolPending => "pending" | PoolActive => "active" | PoolDraining => "draining"
  | PoolDrained => "drained" | PoolRetired => "retired"
  end.

(** The state an action leads to. *)
Definition transition_state (row : ManagedPool) (action : string) (time : Z) : Tx PoolState :=
  let invalid := Conflict "invalid pool state or missing fresh readiness proof" in
  if str_eqb action "drain" && bool_decide (mp_state row = PoolActive ∨ mp_state row = PoolPending)
  then mret PoolDraining
  else if str_eqb action "finish-drain" && bool_decide (mp_state row = PoolDraining) then
    missing ← registry (blocked row);
    fail_if missing
      (Conflict "gateway ACK or in-flight completion is missing; offline is not drained") ;;
    mret PoolDrained
  else if str_eqb action "activate" && bool_decide (mp_state row = PoolDrained)
          && negb (lapsed time (mp_ready_until row))
  then mret PoolActive
  else throw invalid.

Definition pool_transition (env : Env) (id : string) (expected : Z) (action actor : string)
    : Tx (Z * PoolState) :=
  row ← find_pool id;
  fail_if (negb (mp_generation row =? expected)) (Conflict "pool generation changed") ;;
  fail_if (is_some (mp_scale_operation row))
    (Conflict "automatic scaling operation is in progress") ;;
  state ← transition_state row action (env_now env);
  generation ← (if str_eqb action "finish-drain" then mret (mp_generation row)
                else next_generation row);
  put_pool (set_mp_observation_until None (set_mp_observation_nonce None
    (set_mp_updated_at (env_now env) (set_mp_state state (set_mp_generation generation row))))) ;;
  audit env 0 actor ("pool." +:+ action) id
    (JObj [("generation", JNum generation); ("state", JStr (state_text state))]) ;;
  mret (generation, state).

(** ** Idle evidence *)

(** The latest termination among the sessions, at least [after]. *)
Fixpoint latest_fence (sessions_ : list string) (after : option Z) : Tx (option Z) :=
  match sessions_ with
  | [] => mret after
  | id :: rest =>
      row ← registry (λ r, sessions r !! id);
      row ← found row (Invalid "gateway evidence missing");
      proof ← found (sn_proof row) (Invalid "gateway termination time missing");
      latest_fence rest (Some (match after with
        | Some old => Z.max old (tm_observed_at proof)
        | None => tm_observed_at proof
        end))
  end.

(** The sessions whose work on a pool is unknown. *)
Definition unknown_work (pool : string) (r : Registry) : list string :=
  (filter (λ e, (vw_active_requests e.2 <? 0) = true) (views_of pool r)).*1.

Definition idle_after (pool : string) : Tx (option Z) :=
  unknown ← registry (unknown_work pool);
  latest_fence unknown None.

(** The unknown work of a pool is known to be over. *)
Definition clear_unknown (pool : string) (m : gmap (string * string) PoolView)
    : gmap (string * string) PoolView :=
  map_imap (λ k v, Some (
    if str_eqb k.1 pool && vw_retired v && (vw_active_requests v <? 0)
    then mkView (vw_delivered_generation v) (vw_acknowledged_generation v) 0 (vw_retired v)
           (vw_reported_at v)
    else v)) m.

Definition confirm_idle (env : Env) (pool : ManagedPool) : Tx unit :=
  fail_if (bool_decide (mp_state pool ≠ PoolDraining))
    (Conflict "provider idle evidence requires a closed pool") ;;
  fail_if (negb (pb_traffic_protocol (mp_binding pool) =? 2))
    (Conflict "orphan drain requires a v2 authorization-fenced entry") ;;
  after ← idle_after (mp_id pool);
  match after with
  | None => mret tt
  | Some _ =>
      write_registry (λ r, put_views (clear_unknown (mp_id pool) (views r)) r) ;;
      audit env 1 "member-agent" "pool.orphans_drained" (mp_id pool)
        (JObj [("financial_holds_unchanged", JBool true)])
  end.

(** ** Desired revisions *)

Definition desired_json (l : list DesiredDeployment) : Json :=
  JArr ((λ d, JObj ([("name", JStr (dd_name d)); ("spec", json_opt id (dd_spec d));
                    ("delete_uid", json_opt JStr (dd_delete_uid d))]
    ++ match dd_expected_uid d with Some uid => [("expected_uid", JStr uid)] | None => [] end)) <$> l).

(** The first deployment of a name, replaced. *)
Fixpoint update_named (name : string) (f : DesiredDeployment → DesiredDeployment)
    (l : list DesiredDeployment) : list DesiredDeployment :=
  match l with
  | [] => []
  | d :: l => if str_eqb (dd_name d) name then f d :: l else d :: update_named name f l
  end.

Definition set_expected_uid (uid : option string) (d : DesiredDeployment) : DesiredDeployment :=
  mkDesired (dd_name d) (dd_spec d) (dd_delete_uid d) uid.

Section desired.
Variable hash : string → string.
Variable json_bytes : Json → string.

Definition payload_bytes (l : list DesiredDeployment) : string := json_bytes (desired_json l).
Definition max_payload : Z := 256 * 1024.

(** A new revision of the cluster [row], made the newest. *)
Definition insert_revision (env : Env) (row : Cluster) (version : Z) (l : list DesiredDeployment)
    (actor : string) : Tx unit :=
  dup ← registry (λ r, is_some (cluster_revisions r !! (cl_id row, version)));
  fail_if dup Database ;;
  write_registry (λ r, put_cluster_revisions (<[(cl_id row, version) :=
    mkRevision l (hash (payload_bytes l)) actor (env_now env)]> (cluster_revisions r)) r) ;;
  put_cluster (cl_id row) (set_cl_updated_at (env_now env) (set_cl_desired_version version row)).

(** ** Scaling *)

Definition replicas (spec : Json) : option Z := json_as_i64 (json_get "replicas" spec).
Definition i32_of (z : Z) : option Z := if (-2147483648 <=? z) && (z <=? i32_max) then Some z else None.

(** The deployments of the newest revision with one of them rescaled. *)
Definition rescaled (row : ManagedPool) (uid : string) (spec : Json) (l : list DesiredDeployment)
    : list DesiredDeployment :=
  let item := mkDesired (mp_deployment row) (Some spec) None (Some uid) in
  if existsb (named (mp_deployment row)) l then update_named (mp_deployment row) (λ _, item) l
  else l ++ [item].

(** [apply]: write the desired revision that carries out a scale operation. *)
Definition apply_scale (env : Env) (cluster : Cluster) (row : ManagedPool) (from target : Z)
    (up : bool) : Tx bool :=
  if negb (cl_desired_version cluster =? cl_acknowledged_version cluster) then mret false
  else
    uid ← found (mp_deployment_uid row) (Conflict "deployment UID evidence missing");
    previous ← registry (λ r, cluster_revisions r !! (cl_id cluster, cl_desired_version cluster));
    previous ← found previous (Conflict "desired revision missing");
    let spec := json_put "replicas" (JNum target) (mp_expected_spec row) in
    let deployments := rescaled row uid spec (cv_payload previous) in
    fail_if (max_payload <? str_len (payload_bytes deployments)) (Invalid "scale payload too large") ;;
    version ← found (checked_add (cl_desired_version cluster) 1) (Invalid "desired version exhausted");
    insert_revision env cluster version deployments "keda" ;;
    let op := mkScale ScaleApplying target from (mp_desired_version row) up in
    let row := set_mp_observation_until None (set_mp_observation_nonce None
      (set_mp_scale_operation (Some op) (set_mp_desired_version version
      (set_mp_expected_spec spec row)))) in
    row ← (if up then mret row
           else generation ← next_generation row;
                mret (set_mp_generation generation (set_mp_ready_until None
                  (set_mp_state PoolDrained row))));
    put_pool (set_mp_updated_at (env_now env) row) ;;
    audit env 2 "keda" "pool.scale_applied" (mp_id row)
      (JObj [("replicas", JNum target); ("desired_version", JNum version);
             ("drain_required", JBool (negb up))]) ;;
    mret true.

Definition evidence_ok (e : ScaleEvidence) (minimum maximum : Z) : bool :=
  negb (is_empty (sv_uid e) || (128 <? str_len (sv_uid e))
        || is_empty (sv_resource_version e) || (128 <? str_len (sv_resource_version e))
        || (sv_replicas e <? minimum) || (maximum <? sv_replicas e)).

(** An operation that is being applied ends when the deployment runs it. *)
Definition finish_scale (env : Env) (cluster : Cluster) (row : ManagedPool) (op : ScaleOperation)
    (applied : Z) (ready : bool) : Tx unit :=
  if ready && (applied =? so_target op) && (mp_desired_version row <=? cl_acknowledged_version cluster)
  then
    let next := set_mp_scale_operation None row in
    next ← (if so_up op then mret next
            else generation ← next_generation row;
                 mret (set_mp_generation generation (set_mp_state PoolActive next)));
    put_pool next ;;
    audit env 2 "keda" "pool.scale_completed" (mp_id row) (JObj [("replicas", JNum (so_target op))])
  else mret tt.

(** A drain for scaling: demand recovers, or it waits, or it is carried out. *)
Definition continue_scale (env : Env) (cluster : Cluster) (row : ManagedPool) (op : ScaleOperation)
    (target current : Z) (ready : bool) : Tx bool :=
  fail_if (bool_decide (mp_state row ≠ PoolDraining) || bool_decide (so_phase op ≠ ScaleDraining))
    (Conflict "scaling operation state changed") ;;
  if (current <=? target) && ready then
    generation ← next_generation row;
    put_pool (set_mp_generation generation (set_mp_scale_operation None
      (set_mp_state PoolActive row))) ;;
    audit env 2 "keda" "pool.scale_cancelled" (mp_id row)
      (JObj [("reason", JStr "demand_recovered")]) ;;
    mret false
  else
    waiting ← registry (blocked row);
    if waiting || negb ready then mret false
    else apply_scale env cluster row current target false.

(** A recommendation for a pool that is not being scaled. *)
Definition start_scale (env : Env) (cluster : Cluster) (row : ManagedPool) (evidence : ScaleEvidence)
    (current : Z) (ready : bool) : Tx bool :=
  if bool_decide (mp_state row ≠ PoolActive) || negb ready || (sv_replicas evidence =? current)
  then mret false
  else if current <? sv_replicas evidence then
    apply_scale env cluster row current (sv_replicas evidence) true
  else
    let op := mkScale ScaleDraining (sv_replicas evidence) current (mp_desired_version row) false in
    generation ← next_generation row;
    put_pool (set_mp_generation generation (set_mp_state PoolDraining
      (set_mp_scale_operation (Some op) row))) ;;
    audit env 2 "keda" "pool.scale_draining" (mp_id row)
      (JObj [("from", JNum current); ("target", JNum (sv_replicas evidence));
             ("recommendation_uid", JStr (sv_uid evidence))]) ;;
    mret false.

Definition reconcile (env : Env) (cluster : Cluster) (row : ManagedPool)
    (evidence : option ScaleEvidence) (applied : Z) (ready : bool) : Tx bool :=
  if negb (managed_scaling (mp_expected_spec row)) then mret false
  else match mp_scale_operation row with
  | Some (mkScale ScaleApplying _ _ _ _ as op) =>
      finish_scale env cluster row op applied ready ;; mret false
  | operation =>
      match evidence with
      | None => mret false
      | Some evidence =>
          let limit key := json_as_i64 (json_path "autoscaling" key (mp_expected_spec row)) in
          fail_if (negb (evidence_ok evidence (default 1 (limit "minReplicas"))
                           (default 0 (limit "maxReplicas"))))
            (Invalid "invalid KEDA recommendation evidence") ;;
          current ← found (replicas (mp_expected_spec row) ≫= i32_of)
            (Invalid "stored replica count invalid");
          match operation with
          | Some op => continue_scale env cluster row op (sv_replicas evidence) current ready
          | None => start_scale env cluster row evidence current ready
          end
      end
  end.

(** ** Observations *)

Definition pools_of (cluster : string) (r : Registry) : list ManagedPool :=
  filter (λ p, str_eqb (mp_cluster_id p) cluster = true) (map_to_list (pools r)).*2.

(** The task for one pool, under a fresh nonce. *)
Definition observation_task (env : Env) (n : nat) (cluster : Cluster) (row : ManagedPool)
    : Tx (option ObservationTask) :=
  if cl_acknowledged_version cluster <? mp_desired_version row then mret None
  else
    let nonce := env_uuid env n in
    after ← idle_after (mp_id row);
    put_pool (set_mp_observation_until (Some (env_now env + seconds 60))
      (set_mp_observation_nonce (Some nonce) (set_mp_idle_requested_after after row))) ;;
    mret (Some (mkTask (pb_traffic_protocol (mp_binding row)) after (mp_id row) (mp_generation row)
      nonce (mp_desired_version row) (mp_deployment row) (pb_serving_service (mp_binding row))
      (mp_deployment_uid row) (mp_expected_spec row))).

Fixpoint observation_loop (env : Env) (n : nat) (cluster : Cluster) (rows : list ManagedPool)
    : Tx (list ObservationTask) :=
  match rows with
  | [] => mret []
  | row :: rows =>
      task ← observation_task env n cluster row;
      rest ← observation_loop env (S n) cluster rows;
      mret (match task with Some t => t :: rest | None => rest end)
  end.

Definition observation_tasks (env : Env) (id token : string) : Tx (list ObservationTask) :=
  cluster ← authenticated hash env id token;
  rows ← registry (λ r, take 100 (order_by mp_updated_at
    (filter (λ p, mp_state p ≠ PoolRetired) (pools_of id r))));
  observation_loop env 0 cluster rows.

Definition observation_codes : list string :=
  ["ok"; "not_ready"; "spec_drift"; "identity_mismatch"; "kubernetes_unavailable"].

Definition bad_uid (uid : string) : bool := is_empty uid || (128 <? str_len uid).

Definition observation_ok (report : PoolObservation) : bool :=
  negb (negb (str_in (po_code report) observation_codes)
        || negb (Bool.eqb (po_ready report) (str_eqb (po_code report) "ok"))
        || match po_deployment_uid report with Some uid => bad_uid uid | None => false end
        || (po_ready report && negb (is_some (po_deployment_uid report)))).

(** The report answers the task that was last handed out, in time. *)
Definition observation_current (time : Z) (cluster : Cluster) (row : ManagedPool)
    (report : PoolObservation) : bool :=
  (mp_generation row =? po_generation report)
  && bool_decide (mp_observation_nonce row = Some (po_nonce report))
  && negb (lapsed time (mp_observation_until row))
  && (mp_desired_version row <=? cl_acknowledged_version cluster).

(** Idle evidence must be newer than every termination known now. *)
Definition check_idle (row : ManagedPool) (report : PoolObservation) : Tx unit :=
  if po_idle report then
    let stale := Conflict "provider idle proof predates the termination fence" in
    fail_if (negb (is_some (po_idle_after report))
             || bool_decide (po_idle_after report ≠ mp_idle_requested_after row)) stale ;;
    current ← idle_after (mp_id row);
    fail_if (bool_decide (po_idle_after report ≠ current)) stale
  else mret tt.

(** A first ready pool becomes the default of a model that has none. *)
Definition make_default (env : Env) (row : ManagedPool) : Tx unit :=
  if pb_make_default (mp_binding row) then
    let model := se_model (mp_endpoint row) in
    entry ← gets (λ d, catalog d !! model);
    match entry with
    | Some (mkCatalogRow revision true None definition _) =>
        fail_if (negb (in_i64 (revision + 1))) Database ;;
        modify (λ d, set_catalog (<[model :=
          mkCatalogRow (revision + 1) true (Some (mp_id row)) definition (env_now env)]> (catalog d)) d)
    | _ => mret tt
    end
  else mret tt.

(** The row after the observation, before its state is considered. *)
Definition observed_row (time : Z) (report : PoolObservation) (row : ManagedPool) : ManagedPool :=
  let row := set_mp_ready_until (if po_ready report then Some (time + seconds 45) else None)
    (set_mp_observation_until None (set_mp_observation_nonce None
    (set_mp_observation_code (po_code report) (set_mp_observed_at (Some time) row)))) in
  if is_some (po_deployment_uid report) && negb (is_some (mp_deployment_uid row))
  then set_mp_deployment_uid (po_deployment_uid report) row else row.

(** A pending pool that is ready is registered; no other state changes. *)
Definition register_ready (env : Env) (id : string) (ready : bool) (row : ManagedPool)
    : Tx ManagedPool :=
  if ready && bool_decide (mp_state row = PoolPending) then
    generation ← next_generation row;
    audit env 0 ("cluster:" +:+ id) "pool.registered" (mp_id row)
      (JObj [("generation", JNum generation)]) ;;
    make_default env row ;;
    mret (set_mp_generation generation (set_mp_state PoolActive row))
  else mret row.

Definition observe_pool (env : Env) (id token : string) (report : PoolObservation) : Tx bool :=
  fail_if (negb (observation_ok report)) (Invalid "invalid readiness observation") ;;
  cluster ← authenticated hash env id token;
  row ← find_pool (po_pool_id report);
  let time := env_now env in
  fail_if (negb (str_eqb (mp_cluster_id row) id)) Forbidden ;;
  fail_if (negb (observation_current time cluster row report))
    (Conflict "stale observation generation or lease") ;;
  check_idle row report ;;
  fail_if (match po_deployment_uid report, mp_deployment_uid row with
           | Some uid, Some old => negb (str_eqb old uid)
           | _, _ => false
           end) (Conflict "deployment identity was replaced; rebind explicitly") ;;
  row ← register_ready env id (po_ready report) (observed_row time report row);
  let row := set_mp_updated_at time row in
  put_pool row ;;
  (if po_idle report then confirm_idle env row else mret tt) ;;
  reconcile env cluster row (po_scaling report) (po_applied_replicas report) (po_ready report).

(** ** The guard of desired revisions *)

(** What a change of the deployment of a drained pool may be. *)
Definition check_change (row : ManagedPool) (uid : string) (item : DesiredDeployment) : Tx unit :=
  match dd_spec item with
  | Some spec =>
      fail_if (negb (json_eqb (json_put "replicas" (json_get "replicas" (mp_expected_spec row)) spec)
                       (mp_expected_spec row))
               || match replicas spec with
                  | Some n => negb ((0 <=? n) && (n <=? 10000))
                  | None => true
                  end)
        (Invalid "managed pool model/runtime identity is immutable; create a new deployment for a new revision")
  | None =>
      fail_if (bool_decide (dd_delete_uid item ≠ Some uid))
        (Conflict "delete UID differs from observed deployment")
  end.

(** The new expectation of a drained pool, or its retirement. *)
Definition change_pool (env : Env) (version generation : Z) (item : DesiredDeployment)
    (row : ManagedPool) : ManagedPool :=
  let row := set_mp_observation_until None (set_mp_observation_nonce None (set_mp_ready_until None
    (set_mp_desired_version version (set_mp_generation generation row)))) in
  set_mp_updated_at (env_now env) (match dd_spec item with
    | Some spec => set_mp_expected_spec spec row
    | None => set_mp_state PoolRetired row
    end).

Definition guard_pool (env : Env) (version : Z) (deployments : list DesiredDeployment)
    (row : ManagedPool) : Tx (list DesiredDeployment) :=
  let bind_uid uid := update_named (mp_deployment row) (set_expected_uid uid) deployments in
  match List.find (named (mp_deployment row)) deployments with
  | None => mret deployments
  | Some item =>
      if bool_decide (mp_state row = PoolRetired) then
        fail_if (is_some (dd_spec item) || bool_decide (dd_delete_uid item ≠ mp_deployment_uid row))
          (Conflict "retired pool cannot be resurrected; use a new deployment identity") ;;
        mret deployments
      else if bool_decide (dd_spec item = Some (mp_expected_spec row)) then
        mret (bind_uid (mp_deployment_uid row))
      else
        fail_if (bool_decide (mp_state row ≠ PoolDrained))
          (Conflict "managed deployment must finish pool drain before mutation") ;;
        fail_if (is_some (mp_scale_operation row))
          (Conflict "automatic scaling owns the pending replica change") ;;
        uid ← found (mp_deployment_uid row) (Conflict "deployment identity proof missing");
        check_change row uid item ;;
        generation ← next_generation row;
        put_pool (change_pool env version generation item row) ;;
        mret (if is_some (dd_spec item) then bind_uid (Some uid) else deployments)
  end.

Fixpoint guard_loop (env : Env) (version : Z) (deployments : list DesiredDeployment)
    (rows : list ManagedPool) : Tx (list DesiredDeployment) :=
  match rows with
  | [] => mret deployments
  | row :: rows =>
      deployments ← guard_pool env version deployments row;
      guard_loop env version deployments rows
  end.

Definition guard_desired (env : Env) (id : string) (version : Z) (deployments : list DesiredDeployment)
    : Tx (list DesiredDeployment) :=
  rows ← registry (λ r, order_by_text mp_id (pools_of id r));
  guard_loop env version deployments rows.

(** One requested deployment; [names] are those before it. *)
Definition desired_item_ok (names : list string) (item : DesiredDeployment) : bool :=
  negb (negb (name (dd_name item)) || str_in (dd_name item) names
        || match dd_expected_uid item with Some uid => bad_uid uid | None => false end
        || (negb (is_some (dd_spec item)) && is_some (dd_expected_uid item))
        || match dd_spec item with
           | Some spec => negb (json_is_object spec) || is_some (dd_delete_uid item)
           | None => match dd_delete_uid item with Some uid => bad_uid uid | None => true end
           end).

Fixpoint desired_items_ok (names : list string) (l : list DesiredDeployment) : bool :=
  match l with
  | [] => true
  | item :: l => desired_item_ok names item && desired_items_ok (dd_name item :: names) l
  end.

Definition put_cluster_desired (env : Env) (id : string) (request : DesiredState) (actor : string)
    : Tx (Z * string) :=
  fail_if ((ds_expected_version request <? 0) || (100 <? Z.of_nat (length (ds_deployments request))))
    (Invalid "invalid desired-state version or size") ;;
  fail_if (negb (desired_items_ok [] (ds_deployments request)))
    (Invalid "desired deployments require unique names, specs, or explicit UID-bound deletion") ;;
  fail_if (max_payload <? str_len (payload_bytes (ds_deployments request)))
    (Invalid "desired state exceeds 256 KiB") ;;
  row ← find_cluster id NotFound;
  fail_if (is_some (cl_revoked_at row)) (Conflict "cluster is revoked") ;;
  fail_if (negb (cl_desired_version row =? ds_expected_version request))
    (Conflict "desired state version changed; reload") ;;
  version ← found (checked_add (cl_desired_version row) 1) (Invalid "desired version exhausted");
  deployments ← guard_desired env id version (ds_deployments request);
  fail_if (max_payload <? str_len (payload_bytes deployments)) (Invalid "desired state exceeds 256 KiB") ;;
  insert_revision env row version deployments actor ;;
  let digest := hash (payload_bytes deployments) in
  audit env 0 actor "cluster.desired_updated" id
    (JObj [("version", JNum version); ("sha256", JStr digest)]) ;;
  mret (version, digest).
End desired.
