(* ===== verification/Snapshot.v ===== *)
(** * Snapshot: what a gateway is told

    [gateway_snapshot], [list_route_policies] and [project_balance] of
    [crates/control-plane/src/repository.rs], and [catalog_snapshot] of
    [catalog.rs]: the active keys with what they may spend, the route
    policies, and the catalog. *)

From S2P Require Import Prelude Domain Models Routing Fleet Store Books Catalog Projection.
From S2P Require Import Ledger Wallet Routes.
Local Open Scope Z_scope.

(** ** Data *)

Record GatewayKey := mkGatewayKey {
  gk_id : string;
  gk_tenant_id : string;
  gk_project_id : string;
  gk_secret_hash : string;
  gk_scopes : list string;
  gk_allowed_models : list string;
  gk_expires_at : option Z;
  gk_rate_limit_rpm : Z;
  gk_rate_limit_tpm : Z;
  gk_monthly_budget : Money;
  gk_current_month_spend : Money;
  gk_balance_enforced : bool;
  gk_available_balance : Money }.

Record GatewaySnapshot := mkGatewaySnapshot {
  gs_generated_at : Z;
  gs_keys : list GatewayKey;
  gs_route_policies : list RoutePolicy;
  gs_catalog : CatalogSnapshot;
  gs_traffic : option TrafficSnapshot }.

(** ** Operations *)

Definition catalog_model (row : CatalogRow) : CatalogModel :=
  mkCatalogModel (ca_revision row) (ca_enabled row) (ca_default_pool row) (ca_definition row).

Definition catalog_models (d : Db) : list CatalogModel :=
  catalog_model <$> (order_by_text fst (map_to_list (catalog d))).*2.

Definition catalog_snapshot : Tx CatalogSnapshot :=
  models ← gets catalog_models;
  endpoints ← registry serving_endpoints;
  mret (mkCatalogSnapshot models endpoints).

(** The policies in the order of their project and model. *)
Fixpoint route_policies (l : list (string * string * RouteRow)) : Tx (list RoutePolicy) :=
  match l with
  | [] => mret []
  | (project, model, row) :: l =>
      owner ← gets (λ d, projects d !! project);
      owner ← found owner NotFound;
      rest ← route_policies l;
      mret (mkRoutePolicy (pj_tenant_id owner) project model (ro_revision row) (ro_spec row) :: rest)
  end.

Definition list_route_policies : Tx (list RoutePolicy) :=
  rows ← registry (λ r, order_by_text (λ e, e.1.1) (order_by_text (λ e, e.1.2) (map_to_list (routes r))));
  route_policies rows.

(** Whether the balance is enforced, and the balance. *)
Definition project_balance (env : Env) (project : string) : Tx (bool * Z) :=
  ac ← ensure_account_for_project env project;
  row ← gets (λ d, balances d !! ac_id ac);
  match row with
  | Some row => mret (ac_enforce_balance ac, ba_balance_microunits row)
  | None =>
      _ ← lock_account project;
      row ← account env (ac_id ac);
      mret (ac_enforce_balance ac, ba_balance_microunits row)
  end.

Section snapshot.
Context `{Calendar}.
(** The base64 text of a stored secret hash. *)
Variable base64 : string → string.

(** The cached balance of a project, or the projection made now. *)
Definition key_balance (env : Env) (project : string) : Tx (bool * Z) :=
  cached ← gets (λ d, ac ← accounts d !! project;
    row ← balances d !! ac_id ac;
    mret (ac_enforce_balance ac, ba_balance_microunits row));
  match cached with Some value => mret value | None => project_balance env project end.

Definition gateway_key (env : Env) (row : ApiKeyRow) : Tx GatewayKey :=
  balance ← key_balance env (ak_project_id row);
  spent ← projected_spend env (ak_project_id row) (ak_id row) (month_floor (env_now env));
  mret (mkGatewayKey (ak_id row) (ak_tenant_id row) (ak_project_id row) (base64 (ak_secret_hash row))
    (ak_scopes row) (ak_allowed_models row) (ak_expires_at row) (ak_rate_limit_rpm row)
    (ak_rate_limit_tpm row) (mkMoney (ak_currency row) (ak_monthly_budget_amount row))
    (mkMoney (ak_currency row) (ceil_minor_units spent)) balance.1
    (mkMoney (ak_currency row) (floor_minor_units balance.2))).

Fixpoint gateway_keys (env : Env) (rows : list ApiKeyRow) : Tx (list GatewayKey) :=
  match rows with
  | [] => mret []
  | row :: rows =>
      key ← gateway_key env row;
      keys ← gateway_keys env rows;
      mret (key :: keys)
  end.

(** The keys that may be used now. *)
Definition active_keys (now : Z) (d : Db) : list ApiKeyRow :=
  filter (λ row, key_status (ak_revoked_at row) (ak_expires_at row) now = Active)
    (order_by_text ak_id (map_to_list (api_keys d)).*2).

Definition gateway_snapshot (env : Env) : Tx GatewaySnapshot :=
  rows ← gets (active_keys (env_now env));
  keys ← gateway_keys env rows;
  policies ← list_route_policies;
  catalog ← catalog_snapshot;
  mret (mkGatewaySnapshot (env_now env) keys policies catalog None).
End snapshot.
