(* ===== verification/Traffic.v ===== *)
(** * Traffic: gateway sessions, their snapshots and reports

    [crates/control-plane/src/traffic.rs] and the tasks and proofs of
    [gateway_proofs.rs].  A gateway incarnation fetches numbered snapshots
    that say which pools accept and reports what it has in flight on the one
    it runs; a cluster agent proves that an incarnation was bound, has
    terminated, or was never used. *)

From S2P Require Import Prelude Domain Models Routing Fleet Store Catalog Clusters Pools Snapshot.
Local Open Scope Z_scope.

Definition put_session (id : string) (s : Session) : Tx unit :=
  write_registry (λ r, put_sessions (<[id := s]> (sessions r)) r).
Definition put_view (pool session : string) (v : PoolView) : Tx unit :=
  write_registry (λ r, put_views (<[(pool, session) := v]> (views r)) r).
Definition find_session (id : string) (e : ServiceError) : Tx Session :=
  row ← registry (λ r, sessions r !! id);
  found row e.

(** ** Identity of a gateway pod *)

Definition validate_identity (env : Env) (identity : GatewayIdentity) : Tx unit :=
  fail_if (negb (name (gi_cluster_id identity) && name (gi_namespace identity)
                 && name (gi_pod identity)) || bad_uid (gi_pod_uid identity))
    (Invalid "invalid gateway pod identity") ;;
  row ← find_cluster (gi_cluster_id identity) Forbidden;
  fail_if (negb (str_eqb (cl_namespace row) (gi_namespace identity)) || is_some (cl_revoked_at row)
           || (cl_expires_at row <=? env_now env)) Forbidden.

Section traffic.
(** A library's digest and its test of a UUID, and the deployment's switch
    [XSCOPE_REQUIRE_GATEWAY_IDENTITY]. *)
Variable hash : string → string.
Variable is_uuid : string → bool.
Variable attribution_required : bool.

(** ** Snapshots *)

Definition new_session (identity : option GatewayIdentity) (time : Z) : Session :=
  mkSession 0 false "" None [] [] time identity None None None None
    (gi_cluster_id <$> identity) false.

(** Insert the session unless it is there, and read it. *)
Definition open_session (env : Env) (id : string) (identity : option GatewayIdentity) : Tx Session :=
  row ← registry (λ r, sessions r !! id);
  match row with
  | Some row => mret row
  | None =>
      let row := new_session identity (env_now env) in
      put_session id row ;;
      mret row
  end.

(** The desired version a pool is known to run. *)
Definition required_version (p : ManagedPool) : Z :=
  match mp_scale_operation p with
  | Some op => if so_up op then so_previous_version op else mp_desired_version p
  | None => mp_desired_version p
  end.

Definition identity_valid (time : Z) (all : gmap string Cluster) (p : ManagedPool) : bool :=
  match all !! mp_cluster_id p with
  | Some c => negb (is_some (cl_revoked_at c)) && (time <? cl_expires_at c)
              && (required_version p <=? cl_acknowledged_version c)
  | None => false
  end.

Definition pool_accepting (time : Z) (ready : bool) (all : gmap string Cluster) (p : ManagedPool)
    : bool :=
  bool_decide (mp_state p = PoolActive) && ready && identity_valid time all p
  && negb (lapsed time (mp_ready_until p)).

(** A participant is recorded before an accepting snapshot leaves. *)
Definition expose (session : string) (accepting : bool) (p : ManagedPool) : Tx PoolControl :=
  previous ← registry (λ r, views r !! (mp_id p, session));
  match previous with
  | Some v => put_view (mp_id p) session (mkView (mp_generation p) (vw_acknowledged_generation v)
                (vw_active_requests v) (vw_retired v) (vw_reported_at v))
  | None =>
      if accepting then put_view (mp_id p) session (mkView (mp_generation p) 0 0 false None)
      else mret tt
  end ;;
  mret (mkControl (mp_id p) (mp_generation p) accepting).

Fixpoint expose_all (session : string) (accepting : ManagedPool → bool) (l : list ManagedPool)
    : Tx (list PoolControl) :=
  match l with
  | [] => mret []
  | p :: l =>
      control ← expose session (accepting p) p;
      rest ← expose_all session accepting l;
      mret (control :: rest)
  end.

(** Grants of the session that expired two minutes ago are deleted, the new
    one names the pools that accept. *)
Definition put_grant (env : Env) (session token : string) (controls : list PoolControl) : Tx unit :=
  let time := env_now env in
  write_registry (λ r, put_grants (filter (λ g : string * Grant,
      negb (str_eqb (gt_session_id g.2) session && (gt_expires_at g.2 <? time - seconds 120)) = true)
    (grants r)) r) ;;
  dup ← registry (λ r, is_some (grants r !! hash token));
  fail_if dup Database ;;
  write_registry (λ r, put_grants (<[hash token := mkGrant session (time + seconds LEASE_SECONDS)
    (list_to_map ((λ c, (pc_id c, pc_generation c)) <$>
       reverse (filter (λ c, pc_accepting c = true) controls)))]> (grants r)) r).

Definition push_endpoints (l : list ServingEndpoint) (c : CatalogSnapshot) : CatalogSnapshot :=
  mkCatalogSnapshot (cs_models c) (cs_endpoints c ++ l).

(** [snapshot] is what [gateway_snapshot] returned before; the nonce is drawn,
    and [token] is the encoded entropy of the admission token. *)
Definition traffic_snapshot (env : Env) (id : string) (identity : option GatewayIdentity)
    (snapshot : GatewaySnapshot) (token : string) : Tx GatewaySnapshot :=
  fail_if (negb (is_uuid id)) (Invalid "invalid gateway incarnation") ;;
  match identity with Some identity => validate_identity env identity | None => mret tt end ;;
  all ← registry (λ r, order_by_text mp_id (map_to_list (pools r)).*2);
  let time := env_now env in
  row ← open_session env id identity;
  fail_if (sn_closed row) (Conflict "gateway incarnation was permanently retired") ;;
  fail_if (bool_decide (sn_identity row ≠ identity)) (Conflict "gateway incarnation identity changed") ;;
  let ready := (is_some (sn_identity row) && is_some (sn_runtime row))
    || (negb attribution_required && negb (is_some (sn_identity row))) in
  sequence ← found (checked_add (sn_sequence row) 1) (Invalid "gateway sequence exhausted");
  let nonce := env_uuid env 0 in
  put_session id (set_sn_delivered_at time (set_sn_delivered_routes
    ((λ p, (rt_project_id p, rt_model p, rt_revision p)) <$> gs_route_policies snapshot)
    (set_sn_reported None (set_sn_nonce nonce (set_sn_sequence sequence row))))) ;;
  known ← registry clusters;
  controls ← expose_all id (pool_accepting time ready known) all;
  put_grant env id token controls ;;
  mret (mkGatewaySnapshot (gs_generated_at snapshot) (gs_keys snapshot) (gs_route_policies snapshot)
    (push_endpoints (mp_endpoint <$> all) (gs_catalog snapshot))
    (Some (mkSnapshot token id sequence nonce LEASE_SECONDS controls))).

(** ** Authorization at a serving entry

    The headers of the request, absent or not valid text as [None]. *)
Definition authorize_serving (env : Env) (session_id token pool_id : option string) : Tx unit :=
  session_id ← found session_id Forbidden;
  token ← found token Forbidden;
  pool_id ← found pool_id Forbidden;
  let time := env_now env in
  fail_if (negb (str_len token =? 43) || negb (is_uuid session_id)) Forbidden ;;
  grant ← registry (λ r, grants r !! hash token);
  grant ← found grant Forbidden;
  fail_if (negb (str_eqb (gt_session_id grant) session_id) || (gt_expires_at grant <=? time))
    Forbidden ;;
  session ← find_session session_id Forbidden;
  fail_if (sn_closed session || (is_some (sn_identity session) && negb (is_some (sn_runtime session))))
    Forbidden ;;
  pool ← registry (λ r, pools r !! pool_id);
  pool ← found pool Forbidden;
  fail_if (bool_decide (gt_pools grant !! pool_id ≠ Some (mp_generation pool))) Forbidden ;;
  fail_if (bool_decide (mp_state pool ≠ PoolActive) || lapsed time (mp_ready_until pool)) Forbidden ;;
  cluster ← find_cluster (mp_cluster_id pool) Forbidden;
  fail_if (is_some (cl_revoked_at cluster) || (cl_expires_at cluster <=? time)) Forbidden ;;
  fail_if (attribution_required && negb (is_some (sn_runtime session))) Forbidden.

(** ** Reports *)

Definition counts_ok (report : TrafficReport) : bool :=
  forallb (λ n, (n <=? 1000000) && (negb (tp_closed report) || (n =? 0)))
    (map_to_list (tp_active report)).*2.

Definition traffic_report_ok (report : TrafficReport) : bool :=
  is_uuid (tp_session_id report) && (0 <? tp_sequence report)
  && (Z.of_nat (size (tp_active report)) <=? 10000) && counts_ok report.

(** The pools a session has a view of. *)
Definition views_by (session : string) (r : Registry) : list (string * PoolView) :=
  omap (λ e : string * string * PoolView,
    if str_eqb e.1.2 session then Some (e.1.1, e.2) else None) (map_to_list (views r)).

Fixpoint acknowledge_views (env : Env) (report : TrafficReport) (l : list (string * PoolView))
    : Tx unit :=
  match l with
  | [] => mret tt
  | (pool, v) :: l =>
      count ← found (tp_active report !! pool)
        (Invalid "ACK must include every exposed pool, including zero counts");
      put_view pool (tp_session_id report) (mkView (vw_delivered_generation v)
        (vw_delivered_generation v) count (tp_closed report) (Some (env_now env))) ;;
      acknowledge_views env report l
  end.

(** [true] is the answer to a duplicate. *)
Definition traffic_report (env : Env) (report : TrafficReport) : Tx bool :=
  fail_if (negb (traffic_report_ok report)) (Invalid "invalid gateway ACK") ;;
  let id := tp_session_id report in
  row ← find_session id NotFound;
  fail_if (negb (sn_sequence row =? tp_sequence report) || negb (str_eqb (sn_nonce row) (tp_nonce report)))
    (Conflict "stale gateway ACK") ;;
  if sn_closed row then
    fail_if (negb (tp_closed report) || bool_decide (sn_reported row ≠ Some report))
      (Conflict "retired gateway cannot publish a late ACK") ;;
    mret true
  else
    match sn_reported row with
    | Some previous =>
        fail_if (bool_decide (previous ≠ report))
          (Conflict "ACK sequence is bound to a different report") ;;
        mret true
    | None =>
        exposed ← registry (views_by id);
        acknowledge_views env report exposed ;;
        put_session id (set_sn_reported (Some report) (set_sn_closed (tp_closed report)
          (set_sn_acknowledged_routes (sn_delivered_routes row) row))) ;;
        mret false
    end.

(** ** Route acknowledgements *)

Record RouteAck := mkRouteAck {
  ra_session_id : string; ra_acknowledged : bool; ra_retired : bool; ra_delivered_at : Z }.

Definition delivers (project model : string) (r : RouteVersion) : bool :=
  str_eqb r.1.1 project && str_eqb r.1.2 model.

Definition route_ack (project model : string) (revision : Z) (e : string * Session)
    : option RouteAck :=
  let s := e.2 in
  if existsb (delivers project model) (sn_delivered_routes s) then
    Some (mkRouteAck e.1
      (sn_closed s || existsb (λ r, delivers project model r && (revision <=? r.2))
                        (sn_acknowledged_routes s))
      (sn_closed s) (sn_delivered_at s))
  else None.

(** The revision, whether every session that was sent the policy has
    acknowledged it, and those sessions. *)
Definition route_acks (project model : string) : Tx (Z * bool * list RouteAck) :=
  policy ← registry (λ r, routes r !! (project, model));
  policy ← found policy NotFound;
  acks ← registry (λ r, omap (route_ack project model (ro_revision policy))
    (order_by_text fst (map_to_list (sessions r))));
  mret (ro_revision policy, negb (is_nil acks) && forallb ra_acknowledged acks, acks).

(** ** Termination proofs *)

Definition proof_candidates (id : string) (r : Registry) : list (string * Session) :=
  take 100 (order_by (λ e, sn_delivered_at e.2) (filter (λ e : string * Session,
    bool_decide (sn_gateway_cluster_id e.2 = Some id) && negb (sn_proof_complete e.2) = true)
    (map_to_list (sessions r)))).

(** The sessions of the cluster that are still open. *)
Definition open_sessions (id : string) (r : Registry) : list Session :=
  filter (λ s, bool_decide (sn_gateway_cluster_id s = Some id) && negb (sn_closed s) = true)
    (map_to_list (sessions r)).*2.

Definition same_pod (identity : GatewayIdentity) (s : Session) : bool :=
  match sn_identity s with
  | Some i => str_eqb (gi_pod_uid i) (gi_pod_uid identity)
  | None => false
  end.

Fixpoint proof_loop (env : Env) (n : nat) (open : list Session) (rows : list (string * Session))
    : Tx (list GatewayProofTask) :=
  match rows with
  | [] => mret []
  | (id, row) :: rows =>
      identity ← found (sn_identity row) (Invalid "gateway identity missing");
      let nonce := env_uuid env n in
      put_session id (set_sn_proof_until (Some (env_now env + seconds 60))
        (set_sn_proof_nonce (Some nonce) row)) ;;
      rest ← proof_loop env (S n) open rows;
      mret (mkProofTask (sn_closed row && negb (existsb (same_pod identity) open)) id nonce identity
        (sn_runtime row) (sn_closed row) :: rest)
  end.

Definition gateway_proof_tasks (env : Env) (id token : string) : Tx (list GatewayProofTask) :=
  authenticated hash env id token ;;
  rows ← registry (proof_candidates id);
  open ← registry (open_sessions id);
  proof_loop env 0 open rows.

Definition proof_outcomes : list string := ["bound"; "terminated"; "unknown"; "unbound"; "cleaned"].

Definition runtime_ok (runtime : GatewayRuntime) : bool :=
  negb (is_empty (gr_container_id runtime) || (256 <? str_len (gr_container_id runtime))
        || negb (name (gr_node runtime)) || bad_uid (gr_node_uid runtime)).

(** Retire every view of a session, with unknown work in flight. *)
Definition retire_views (session : string) (m : gmap (string * string) PoolView)
    : gmap (string * string) PoolView :=
  map_imap (λ k v, Some (
    if str_eqb k.2 session
    then mkView (vw_delivered_generation v) (vw_acknowledged_generation v) (-1) true (vw_reported_at v)
    else v)) m.

(** The session after a proof of each kind. *)
Definition prove_bound (proof : GatewayProof) (row : Session) : Tx Session :=
  runtime ← found (gp_runtime proof) (Invalid "container attestation missing");
  fail_if (sn_closed row || negb (runtime_ok runtime)) (Invalid "invalid container attestation") ;;
  fail_if (match sn_runtime row with Some old => bool_decide (old ≠ runtime) | None => false end)
    (Conflict "container attestation is immutable") ;;
  mret (set_sn_runtime (Some runtime) row).

Definition prove_terminated (env : Env) (id : string) (proof : GatewayProof) (row : Session)
    : Tx Session :=
  fail_if (negb (is_some (sn_runtime row)) || bool_decide (sn_runtime row ≠ gp_runtime proof))
    (Conflict "termination must match the attested container and node") ;;
  if sn_closed row then mret row
  else
    write_registry (λ r, put_views (retire_views (gp_session_id proof) (views r)) r) ;;
    audit env 0 ("cluster:" +:+ id) "gateway.container_terminated" (gp_session_id proof)
      (JObj [("provider_usage_not_inferred", JBool true)]) ;;
    mret (set_sn_proof (Some (mkTermination (env_now env) (gp_runtime proof)))
      (set_sn_closed true row)).

Definition prove_unbound (proof : GatewayProof) (row : Session) : Tx Session :=
  used ← registry (λ r, negb (is_nil (views_by (gp_session_id proof) r)));
  fail_if (is_some (sn_runtime row) || used)
    (Conflict "gateway has granted traffic; termination evidence required") ;;
  mret (set_sn_proof_complete true (set_sn_closed true row)).

Definition prove_cleaned (row : Session) : Tx Session :=
  fail_if (negb (sn_closed row)) (Conflict "gateway is not retired") ;;
  mret (set_sn_proof_complete true row).

Definition gateway_proof (env : Env) (id token : string) (proof : GatewayProof) : Tx unit :=
  fail_if (negb (str_in (gp_outcome proof) proof_outcomes))
    (Invalid "unknown termination proof outcome") ;;
  authenticated hash env id token ;;
  row ← find_session (gp_session_id proof) NotFound;
  fail_if (bool_decide (sn_gateway_cluster_id row ≠ Some id)) Forbidden ;;
  fail_if (bool_decide (sn_proof_nonce row ≠ Some (gp_nonce proof))
           || lapsed (env_now env) (sn_proof_until row)) (Conflict "stale gateway proof") ;;
  let row := set_sn_proof_until None (set_sn_proof_nonce None row) in
  let kind outcome := str_eqb (gp_outcome proof) outcome in
  row ← (if kind "bound" then prove_bound proof row
         else if kind "terminated" then prove_terminated env id proof row
         else if kind "unbound" then prove_unbound proof row
         else if kind "cleaned" then prove_cleaned row
         else mret row);
  put_session (gp_session_id proof) row.
End traffic.
