(* ===== verification/Control.v ===== *)
(** * Control: the operations on the registry

    The operations of Routes, Clusters, Pools and Traffic as one type, each
    with what it needs from the request, and what they do to the fleet: the
    pools, the gateway sessions and the views. *)

From S2P Require Import Prelude Domain Models Routing Fleet Store Catalog Wallet Routes.
From S2P Require Import Clusters Pools Snapshot Traffic.
Local Open Scope Z_scope.

Inductive control_op :=
| PutRoute (project : Project) (model : string) (request : PutRoutePolicy) (pools : list RoutePool)
    (actor operation : string)
| ReleaseRoute (project : Project) (model : string) (action : ReleaseAction) (pools : list RoutePool)
    (actor : string)
| PutEndpoint (id : string) (expected : Z) (value : ServingEndpoint)
| RegisterMember (request : RegisterCluster) (token actor : string)
| RotateMember (id : string) (request : RotateCredential) (token actor : string)
| RevokeMember (id actor : string)
| PollMember (id token : string)
| ReportMember (id token : string) (report : ClusterReport)
| PutDesired (id : string) (request : DesiredState) (actor : string)
| BindPool (request : PoolBinding) (actor : string) (legacy : list RoutePool)
| TransitionPool (id : string) (expected : Z) (action actor : string)
| TakeTasks (id token : string)
| ObservePool (id token : string) (report : PoolObservation)
| SendSnapshot (id : string) (identity : option GatewayIdentity) (snapshot : GatewaySnapshot)
    (token : string)
| AcceptReport (report : TrafficReport)
| TakeProofTasks (id token : string)
| AcceptProof (id token : string) (proof : GatewayProof).

Class ControlLibraries := {
  digest : string → string;
  document_bytes : Json → string;
  is_uuid : string → bool;
  attribution_required : bool }.

Definition ignore {A} (m : Tx A) : Tx unit := _ ← m; mret tt.

Section control.
Context `{ControlLibraries}.

Definition run_control (env : Env) (o : control_op) : Tx unit :=
  match o with
  | PutRoute project model request pools actor operation =>
      ignore (put_route_policy env project model request pools actor operation)
  | ReleaseRoute project model action pools actor =>
      ignore (release_action env project model action pools actor)
  | PutEndpoint id expected value => ignore (put_serving_endpoint env id expected value)
  | RegisterMember request token actor => ignore (register_cluster digest env request token actor)
  | RotateMember id request token actor =>
      ignore (rotate_cluster_credential digest env id request token actor)
  | RevokeMember id actor => revoke_cluster env id actor
  | PollMember id token => ignore (poll_cluster digest env id token)
  | ReportMember id token report => ignore (report_cluster digest env id token report)
  | PutDesired id request actor => ignore (put_cluster_desired digest document_bytes env id request actor)
  | BindPool request actor legacy => ignore (bind_pool env request actor legacy)
  | TransitionPool id expected action actor => ignore (pool_transition env id expected action actor)
  | TakeTasks id token => ignore (observation_tasks digest env id token)
  | ObservePool id token report => ignore (observe_pool digest document_bytes env id token report)
  | SendSnapshot id identity snapshot token =>
      ignore (traffic_snapshot digest is_uuid attribution_required env id identity snapshot token)
  | AcceptReport report => ignore (traffic_report is_uuid env report)
  | TakeProofTasks id token => ignore (gateway_proof_tasks digest env id token)
  | AcceptProof id token proof => gateway_proof digest env id token proof
  end.
End control.

Lemma ignore_Ok {A} (m : Tx A) d u d' : ignore m d = Ok (u, d') → ∃ a, m d = Ok (a, d').
Proof. intros Hrun. unfold ignore in Hrun. tx_inv Hrun. by eexists. Qed.

(** ** The fleet *)

Definition fleet (d : Db) : gmap string ManagedPool * gmap string Session
    * gmap (string * string) PoolView :=
  (pools (control d), sessions (control d), views (control d)).

Definition is_idle (s : PoolState) : bool :=
  match s with PoolDrained | PoolRetired => true | _ => false end.

(** A pool that no request can be using. *)
Definition settled (r : Registry) (p : ManagedPool) : Prop :=
  is_idle (mp_state p) = true ∨ mp_state p = PoolDraining ∧ blocked p r = false.

(** A deployment that only grows. *)
Definition scaled_up (spec spec' : Json) : Prop :=
  ∃ current target, replicas spec = Some current ∧ current < target ∧
    spec' = json_put "replicas" (JNum target) spec.

(** How a pool may change: activating and draining it take a new generation,
    it becomes idle only from a drain that nothing blocks, and its deployment
    changes only then, unless it grows. *)
Record evolves (r : Registry) (p p' : ManagedPool) : Prop := {
  ev_id : mp_id p' = mp_id p;
  ev_binding : mp_binding p' = mp_binding p;
  ev_generation : mp_generation p ≤ mp_generation p';
  ev_active : mp_generation p' = mp_generation p →
    (mp_state p' = PoolActive ↔ mp_state p = PoolActive);
  ev_idle : is_idle (mp_state p') = true → settled r p;
  ev_spec : mp_expected_spec p' = mp_expected_spec p ∨
    scaled_up (mp_expected_spec p) (mp_expected_spec p') ∨ settled r p;
  ev_deployment : mp_deployment p' = mp_deployment p }.

(** One row of the fleet changes. *)
Inductive fleet_step : relation Db :=
| FleetSame d d' : fleet d' = fleet d → fleet_step d d'
| FleetPool d d' p p' :
    pools (control d) !! mp_id p = Some p → evolves (control d) p p' →
    fleet d' = (<[mp_id p := p']> (pools (control d)), sessions (control d), views (control d)) →
    fleet_step d d'
| FleetBind d d' p :
    pools (control d) !! mp_id p = None → mp_state p = PoolPending → mp_generation p = 1 →
    name (mp_deployment p) = true →
    fleet d' = (<[mp_id p := p]> (pools (control d)), sessions (control d), views (control d)) →
    fleet_step d d'
| FleetSession d d' id s s' :
    sessions (control d) !! id = Some s → sn_sequence s' = sn_sequence s → sn_proof s' = sn_proof s →
    sn_closed s' = sn_closed s →
    fleet d' = (pools (control d), <[id := s']> (sessions (control d)), views (control d)) →
    fleet_step d d'.

Abbreviation fleet_steps := (rtc fleet_step).

Lemma same_fleet d d' : fleet d' = fleet d → fleet_steps d d'.
Proof. intros E. by apply rtc_once, FleetSame. Qed.

Lemma preserves_fleet {A} (m : Tx A) : preserves fleet m → respects fleet_steps m.
Proof. intros Hm d a d' Hrun. by eapply same_fleet, Hm. Qed.

Lemma set_control_fleet f d :
  pools (f (control d)) = pools (control d) → sessions (f (control d)) = sessions (control d) →
  views (f (control d)) = views (control d) → same fleet d (set_control (f (control d)) d).
Proof. intros E1 E2 E3. unfold same, fleet. simpl. by rewrite E1, E2, E3. Qed.

(** ** Operations that leave the fleet alone *)

#[local] Hint Unfold registry write_registry insert_operation_audit audit find_cluster put_cluster
  authenticated credential insert_revision put_route_row insert_route_revision put_endpoint_row
  next_spec next_delivery lift_text active_model ignore : frame.

Lemma quiet_operations `{ControlLibraries} env o :
  match o with
  | PutRoute _ _ _ _ _ _ | ReleaseRoute _ _ _ _ _ | PutEndpoint _ _ _ | RegisterMember _ _ _
  | RotateMember _ _ _ _ | RevokeMember _ _ | PollMember _ _ | ReportMember _ _ _ => True
  | _ => False
  end → preserves fleet (run_control env o).
Proof.
  destruct o; intros Ho; try done; clear Ho; cbn [run_control];
    unfold release_action, put_route_policy, put_serving_endpoint, register_cluster,
      rotate_cluster_credential, revoke_cluster, poll_cluster, report_cluster; frame.
Qed.

(** ** Pools are stored under their identifier *)

Definition keyed (d : Db) : Prop := ∀ k p, pools (control d) !! k = Some p → mp_id p = k.

Lemma fleet_inv d' ps ss vs : fleet d' = (ps, ss, vs) →
  pools (control d') = ps ∧ sessions (control d') = ss ∧ views (control d') = vs.
Proof. unfold fleet. naive_solver. Qed.

Lemma keyed_step d d' : keyed d → fleet_step d d' → keyed d'.
Proof.
  intros Hk Hs. destruct Hs as [? ? E|? ? p p' Hp [Hid _ _ _ _ _ _] E|? ? p _ _ _ _ E|? ? ? ? ? _ _ _ _ E];
    apply fleet_inv in E as (E & _ & _); intros k q; rewrite E; [apply Hk| | |apply Hk].
  - intros [[<- <-]|[_ ?]]%lookup_insert_Some; [done|by apply Hk].
  - intros [[<- <-]|[_ ?]]%lookup_insert_Some; [done|by apply Hk].
Qed.

Lemma keyed_steps d d' : keyed d → fleet_steps d d' → keyed d'.
Proof. intros Hk Hs. induction Hs; eauto using keyed_step. Qed.

Lemma find_pool_Ok id (d : Db) p d' :
  find_pool id d = Ok (p, d') ↔ pools (control d) !! id = Some p ∧ d' = d.
Proof.
  unfold find_pool. rewrite tx_bind_Ok. setoid_rewrite registry_Ok.
  setoid_rewrite found_Ok. naive_solver.
Qed.

Lemma put_pool_step d p p' u d' :
  pools (control d) !! mp_id p = Some p → evolves (control d) p p' →
  put_pool p' d = Ok (u, d') → fleet_step d d'.
Proof.
  intros Hp He Hrun. unfold put_pool in Hrun. tx_inv Hrun.
  eapply FleetPool; [done..|]. unfold fleet. simpl. by rewrite (ev_id _ _ _ He).
Qed.

Lemma next_generation_Ok p d g d' :
  next_generation p d = Ok (g, d') ↔ d' = d ∧ g = mp_generation p + 1 ∧
    i64_min ≤ mp_generation p + 1 ≤ i64_max.
Proof. unfold next_generation. rewrite found_Ok, checked_add_Some. naive_solver. Qed.

Lemma audit_fleet env n actor action id payload : preserves fleet (audit env n actor action id payload).
Proof. frame. Qed.
#[local] Hint Resolve audit_fleet : frame.

Lemma audit_steps env n actor action id payload d u d' :
  audit env n actor action id payload d = Ok (u, d') → fleet_steps d d'.
Proof. intros Hrun. by eapply same_fleet, audit_fleet. Qed.

Lemma fleet_pools d d' : fleet d' = fleet d → pools (control d') = pools (control d).
Proof. unfold fleet. naive_solver. Qed.

Lemma insert_revision_fleet hash bytes env row version l actor :
  preserves fleet (insert_revision hash bytes env row version l actor).
Proof. frame. Qed.
#[local] Hint Resolve insert_revision_fleet : frame.

(** ** Binding, transitions and tasks *)

Lemma insert_pool_step p d u d' :
  keyed d → mp_state p = PoolPending → mp_generation p = 1 → name (mp_deployment p) = true → insert_pool p d = Ok (u, d') →
  fleet_step d d'.
Proof.
  intros Hk Hs Hg Hname Hrun. unfold insert_pool, put_pool in Hrun. tx_inv Hrun.
  apply (FleetBind d _ p); [|done..]. apply eq_None_not_Some. intros [old Hold].
  match goal with H : existsb _ _ = false |- _ => apply not_true_iff_false in H; apply H end.
  apply existsb_exists. exists old. split.
  - apply list_elem_of_In, list_elem_of_fmap. eexists (_, old). split; [done|].
    by apply elem_of_map_to_list.
  - apply orb_true_iff. left. apply str_eqb_eq. by apply Hk.
Qed.

Lemma bind_pool_steps env request actor legacy d id d' :
  keyed d → bind_pool env request actor legacy d = Ok (id, d') → fleet_steps d d'.
Proof.
  intros Hk Hrun. unfold bind_pool in Hrun. tx_inv Hrun.
  assert (name (pb_deployment request) = true) as Hname.
  { match goal with H : negb (_ && name (pb_deployment _) && _) = false |- _ =>
      apply negb_false_iff, andb_true_iff in H as [H _]; by apply andb_true_iff in H as [_ H] end. }
  match goal with H : audit _ _ _ _ _ _ _ = _ |- _ => apply audit_steps in H as Ha end.
  match goal with H : insert_pool _ ?d0 = Ok (_, ?d1) |- _ =>
    assert (fleet_steps d d0) as Hpre; [|apply insert_pool_step in H as Hins; [|by eapply keyed_steps|done..]] end.
  - repeat match goal with
    | |- fleet_steps ?a ?a => reflexivity
    | H : ?m ?a = Ok (_, ?b) |- fleet_steps ?a _ => transitivity b;
        [eapply preserves_fleet; [|exact H]; unfold desired_spec, binding_endpoint, check_dedicated; frame|]
    end.
  - etrans; [exact Hpre|]. etrans; [by apply rtc_once|done].
Qed.

(** What an action does, and when. *)
Lemma transition_state_Ok row action time d s d' :
  transition_state row action time d = Ok (s, d') ↔
  d' = d ∧
  (action = "drain"%string ∧ (mp_state row = PoolActive ∨ mp_state row = PoolPending) ∧
     s = PoolDraining ∨
   action = "finish-drain"%string ∧ mp_state row = PoolDraining ∧
     blocked row (control d) = false ∧ s = PoolDrained ∨
   action = "activate"%string ∧ mp_state row = PoolDrained ∧
     lapsed time (mp_ready_until row) = false ∧ s = PoolActive).
Proof.
  unfold transition_state.
  destruct (str_eqb action "drain") eqn:E1; [apply str_eqb_eq in E1 as ->|apply str_eqb_neq in E1].
  { simpl. case_bool_decide; rewrite ?tx_ret_Ok, ?throw_Ok; naive_solver. }
  destruct (str_eqb action "finish-drain") eqn:E2; [apply str_eqb_eq in E2 as ->|apply str_eqb_neq in E2].
  { simpl. case_bool_decide; simpl; [|rewrite throw_Ok; naive_solver].
    rewrite tx_bind_Ok. setoid_rewrite registry_Ok. setoid_rewrite tx_bind_Ok.
    setoid_rewrite fail_if_Ok. setoid_rewrite tx_ret_Ok. naive_solver. }
  destruct (str_eqb action "activate") eqn:E3; [apply str_eqb_eq in E3 as ->|apply str_eqb_neq in E3].
  { simpl. case_bool_decide; simpl; [|rewrite throw_Ok; naive_solver].
    destruct (lapsed time (mp_ready_until row)); simpl; rewrite ?throw_Ok, ?tx_ret_Ok; naive_solver. }
  simpl. rewrite throw_Ok. naive_solver.
Qed.

Lemma pool_transition_steps env id expected action actor d a d' :
  keyed d → pool_transition env id expected action actor d = Ok (a, d') → fleet_steps d d'.
Proof.
  intros Hk Hrun. unfold pool_transition in Hrun. tx_inv Hrun.
  match goal with H : find_pool _ _ = _ |- _ => apply find_pool_Ok in H as [Hp ->] end.
  match goal with H : audit _ _ _ _ _ _ _ = _ |- _ => apply audit_steps in H as Ha end.
  match goal with H : transition_state _ _ _ _ = _ |- _ =>
    apply transition_state_Ok in H as [-> Hst] end.
  etrans; [|exact Ha]. apply rtc_once. pose proof (Hk _ _ Hp) as Hid. subst id.
  match goal with H : (if str_eqb ?act "finish-drain" then _ else _) _ = Ok (?g, ?d0) |- _ =>
    assert (d0 = d ∧ (if str_eqb act "finish-drain" then g = mp_generation a0
                      else g = mp_generation a0 + 1)) as [-> Hg];
    [destruct (str_eqb act "finish-drain"); [tx_inv H|apply next_generation_Ok in H as (-> & -> & _)]; done|]
  end.
  eapply put_pool_step; [exact Hp| |eassumption].
  destruct Hst as [(-> & Hs & ->)|[(-> & Hs & Hb & ->)|(-> & Hs & _ & ->)]]; simpl in Hg; subst;
    (split; simpl; [done|done|lia| | |by left|done]).
  - lia.
  - done.
  - rewrite Hs. done.
  - intros _. by right.
  - lia.
  - done.
Qed.

(** ** Loops over pools *)

(** A step that writes no pool but [p]. *)
Definition pool_move (p : ManagedPool) : relation Db := λ d d',
  fleet_steps d d' ∧ ∀ k, k ≠ mp_id p → pools (control d') !! k = pools (control d) !! k.

Lemma pool_move_same p d d' : fleet d' = fleet d → pool_move p d d'.
Proof. intros E. split; [by apply same_fleet|]. by rewrite (fleet_pools _ _ E). Qed.

Lemma put_pool_move d p p' u d' :
  pools (control d) !! mp_id p = Some p → evolves (control d) p p' →
  put_pool p' d = Ok (u, d') → pool_move p d d'.
Proof.
  intros Hp He Hrun. split; [by eapply rtc_once, put_pool_step|].
  unfold put_pool in Hrun. tx_inv Hrun. intros k Hne. simpl.
  by rewrite lookup_insert_ne by (rewrite (ev_id _ _ _ He); congruence).
Qed.

(** Rows that are all different and all current. *)
Definition current (d : Db) (l : list ManagedPool) : Prop :=
  NoDup (mp_id <$> l) ∧ ∀ p, p ∈ l → pools (control d) !! mp_id p = Some p.

Lemma current_move d d' p l : current d (p :: l) → pool_move p d d' → current d' l.
Proof.
  intros [[Hout Hnd]%NoDup_cons Hc] [_ Hk]. split; [done|]. intros q Hq.
  rewrite Hk; [apply Hc; by right|]. intros E. apply Hout. rewrite <- E. by apply list_elem_of_fmap_2.
Qed.

Lemma current_sublist d l k : l `sublist_of` k → current d k → current d l.
Proof.
  intros Hs [Hnd Hc]. split; [by eapply sublist_NoDup, fmap_sublist|].
  intros p Hp. apply Hc. by eapply elem_of_sublist.
Qed.

Lemma current_perm d l k : l ≡ₚ k → current d k → current d l.
Proof. intros Hp [Hnd Hc]. split; [by rewrite Hp|]. intros p. rewrite Hp. apply Hc. Qed.

Lemma pools_of_current d id : keyed d → current d (pools_of id (control d)).
Proof.
  intros Hk. apply (current_sublist _ _ (map_to_list (pools (control d))).*2), conj.
  - apply sublist_filter.
  - replace (mp_id <$> (map_to_list (pools (control d))).*2) with (map_to_list (pools (control d))).*1;
      [apply NoDup_fst_map_to_list|].
    rewrite <- list_fmap_compose. apply list_fmap_ext. intros i [k p] Hp. simpl. symmetry.
    apply Hk, elem_of_map_to_list. by eapply list_elem_of_lookup_2.
  - intros p ([k q] & -> & Hq%elem_of_map_to_list)%list_elem_of_fmap. simpl.
    by rewrite (Hk _ _ Hq).
Qed.

Lemma elem_of_views_of pool s v r : (s, v) ∈ views_of pool r ↔ views r !! (pool, s) = Some v.
Proof.
  unfold views_of. rewrite list_elem_of_omap. split.
  - intros ([[q t] w] & Hin%elem_of_map_to_list & Heq). simpl in Heq.
    destruct (str_eqb q pool) eqn:E; [|done]. apply str_eqb_eq in E as ->. by injection Heq as -> ->.
  - intros Hv. exists (pool, s, v). split; [by apply elem_of_map_to_list|]. simpl. by rewrite str_eqb_refl.
Qed.

(** Idle evidence must be at least as new as every termination. *)
Lemma latest_fence_Ok l after d x d' :
  latest_fence l after d = Ok (x, d') →
  d' = d ∧ (∀ t, after = Some t → ∃ m, x = Some m ∧ t ≤ m) ∧
  ∀ s, s ∈ l → ∃ row t m, sessions (control d) !! s = Some row ∧ sn_proof row = Some t ∧
    x = Some m ∧ tm_observed_at t ≤ m.
Proof.
  revert after d. induction l as [|s l IH]; intros after d Hrun; simpl in Hrun; tx_inv Hrun.
  - split; [done|]. split; [|by intros s ?%elem_of_nil]. intros t ->. eauto with lia.
  - apply IH in Hrun as (-> & Ha & Hl). split; [done|].
    destruct (Ha _ eq_refl) as (m & -> & Hm). split.
    + intros t ->. exists m. split; [done|lia].
    + intros s' [->|Hs]%elem_of_cons; [|by apply Hl].
      do 3 eexists. split; [done|]. split; [done|]. split; [done|].
      destruct after; lia.
Qed.

Lemma idle_after_Ok pool d x d' :
  idle_after pool d = Ok (x, d') →
  d' = d ∧ ∀ s v, views (control d) !! (pool, s) = Some v → vw_active_requests v < 0 →
    ∃ row t m, sessions (control d) !! s = Some row ∧ sn_proof row = Some t ∧
      x = Some m ∧ tm_observed_at t ≤ m.
Proof.
  intros Hrun. unfold idle_after in Hrun. tx_inv Hrun.
  apply latest_fence_Ok in Hrun as (-> & _ & Hl). split; [done|]. intros s v Hv Hneg.
  apply Hl. unfold unknown_work. apply list_elem_of_fmap. exists (s, v). split; [done|].
  apply list_elem_of_filter. split; [by apply Z.ltb_lt|by apply elem_of_views_of].
Qed.

Section loops.
Context `{ControlLibraries}.

Lemma observation_task_move env n cluster row d t d' :
  pools (control d) !! mp_id row = Some row →
  observation_task env n cluster row d = Ok (t, d') → pool_move row d d'.
Proof.
  intros Hp Hrun. unfold observation_task in Hrun.
  destruct (_ <? _); tx_inv Hrun; [by apply pool_move_same|].
  match goal with Hi : idle_after _ _ = _ |- _ => apply idle_after_Ok in Hi as [-> _] end.
  eapply put_pool_move; [done| |eassumption]. split; simpl; [done|done|lia|done|by left|by left|done].
Qed.

Lemma observation_loop_steps env n cluster rows d t d' :
  current d rows → observation_loop env n cluster rows d = Ok (t, d') → fleet_steps d d'.
Proof.
  revert n d t. induction rows as [|row rows IH]; intros n d t Hc Hrun; simpl in Hrun; tx_inv Hrun;
    [done|].
  match goal with Ht : observation_task _ _ _ _ _ = _ |- _ =>
    apply observation_task_move in Ht as Hm; [|by apply Hc; left] end.
  etrans; [apply Hm|]. eapply IH; [|done]. by eapply current_move.
Qed.

Lemma authenticated_Ok hash env id token d c d' :
  authenticated hash env id token d = Ok (c, d') → d' = d ∧ clusters (control d) !! id = Some c.
Proof. intros Hrun. unfold authenticated, find_cluster in Hrun. by tx_inv Hrun. Qed.

Lemma observation_tasks_steps env id token d t d' :
  keyed d → observation_tasks digest env id token d = Ok (t, d') → fleet_steps d d'.
Proof.
  intros Hk Hrun. unfold observation_tasks in Hrun. tx_inv Hrun.
  match goal with Ha : authenticated _ _ _ _ _ = _ |- _ => apply authenticated_Ok in Ha as [-> _] end.
  eapply observation_loop_steps; [|done]. eapply current_sublist; [apply sublist_take|].
  eapply current_perm; [apply order_by_perm|].
  eapply current_sublist; [apply sublist_filter|by apply pools_of_current].
Qed.
End loops.

(** ** Desired revisions and scaling *)

Section changes.
Context `{ControlLibraries}.

Lemma find_cluster_Ok id e d c d' :
  find_cluster id e d = Ok (c, d') ↔ clusters (control d) !! id = Some c ∧ d' = d.
Proof.
  unfold find_cluster. rewrite tx_bind_Ok. setoid_rewrite registry_Ok.
  setoid_rewrite found_Ok. naive_solver.
Qed.

Lemma check_change_Ok row uid item d u d' : check_change row uid item d = Ok (u, d') → d' = d.
Proof. unfold check_change. intros Hrun. destruct (dd_spec item); by tx_inv Hrun. Qed.

Lemma guard_pool_move env version l row d k d' :
  pools (control d) !! mp_id row = Some row →
  guard_pool env version l row d = Ok (k, d') → pool_move row d d'.
Proof.
  intros Hp Hrun. unfold guard_pool in Hrun.
  destruct (List.find _ _) as [item|]; [|tx_inv Hrun; by apply pool_move_same].
  case_bool_decide as Hret; [tx_inv Hrun; by apply pool_move_same|].
  case_bool_decide as Hsame; [tx_inv Hrun; by apply pool_move_same|]. tx_inv Hrun.
  match goal with Hc : check_change _ _ _ _ = _ |- _ => apply check_change_Ok in Hc as -> end.
  match goal with Hg : next_generation _ _ = _ |- _ => apply next_generation_Ok in Hg as (-> & -> & _) end.
  match goal with Hd : bool_decide (mp_state row ≠ PoolDrained) = false |- _ =>
    apply bool_decide_eq_false, dec_stable in Hd as Hs end.
  eapply put_pool_move; [done| |eassumption]. assert (settled (control d) row) as Hset.
  { left. by rewrite Hs. }
  unfold change_pool. destruct (dd_spec item); split; simpl; try done; try lia; by right; right.
Qed.

Lemma guard_loop_steps env version l rows d k d' :
  current d rows → guard_loop env version l rows d = Ok (k, d') → fleet_steps d d'.
Proof.
  revert l d. induction rows as [|row rows IH]; intros l d Hc Hrun; simpl in Hrun; tx_inv Hrun; [done|].
  match goal with Hg : guard_pool _ _ _ _ _ = _ |- _ =>
    apply guard_pool_move in Hg as Hm; [|by apply Hc; left] end.
  etrans; [apply Hm|]. eapply IH; [|done]. by eapply current_move.
Qed.

Lemma put_desired_steps env id request actor d a d' :
  keyed d → put_cluster_desired digest document_bytes env id request actor d = Ok (a, d') →
  fleet_steps d d'.
Proof.
  intros Hk Hrun. unfold put_cluster_desired, guard_desired in Hrun. tx_inv Hrun.
  match goal with Hc : find_cluster _ _ _ = _ |- _ => apply find_cluster_Ok in Hc as [_ ->] end.
  match goal with Ha : audit _ _ _ _ _ _ _ = _ |- _ => apply audit_steps in Ha end.
  match goal with Hi : insert_revision _ _ _ _ _ _ _ _ = _ |- _ =>
    eapply preserves_fleet in Hi; [|apply insert_revision_fleet] end.
  match goal with Hg : guard_loop _ _ _ _ _ = _ |- _ => apply guard_loop_steps in Hg end.
  - by repeat (etrans; [eassumption|]).
  - eapply current_perm; [apply order_by_text_perm|by apply pools_of_current].
Qed.

Lemma fleet_pool_step d d1 d' p p' u :
  fleet d1 = fleet d → pools (control d) !! mp_id p = Some p → evolves (control d) p p' →
  put_pool p' d1 = Ok (u, d') → fleet_steps d d'.
Proof.
  intros E Hp He Hrun. apply rtc_once. unfold put_pool in Hrun. tx_inv Hrun.
  eapply FleetPool; [done..|]. apply fleet_inv in E as (E1 & E2 & E3).
  unfold fleet. simpl. by rewrite E1, E2, E3, (ev_id _ _ _ He).
Qed.

(** The conditions under which a scale operation is carried out. *)
Lemma apply_scale_steps env cluster row from target (up : bool) d a d' :
  pools (control d) !! mp_id row = Some row →
  (if up then mp_state row = PoolActive ∧ replicas (mp_expected_spec row) = Some from ∧ from < target
   else settled (control d) row ∧ mp_state row = PoolDraining) →
  apply_scale digest document_bytes env cluster row from target up d = Ok (a, d') → fleet_steps d d'.
Proof.
  intros Hp Hup Hrun. unfold apply_scale in Hrun. destruct (negb _); tx_inv Hrun; [done|].
  match goal with Ha : audit _ _ _ _ _ _ _ = _ |- _ => apply audit_steps in Ha end.
  match goal with Hi : insert_revision _ _ _ _ _ _ _ _ = _ |- _ => apply insert_revision_fleet in Hi end.
  etrans; [|eassumption]. destruct up.
  - match goal with Hr : mret _ _ = Ok _ |- _ => tx_inv Hr end.
    eapply fleet_pool_step; [eassumption|exact Hp| |eassumption].
    destruct Hup as (Hs & Hr & Hlt). split; simpl; try done; try lia.
    + intros Hi. by rewrite Hs in Hi.
    + right. left. by exists from, target.
  - match goal with Hr : (_ ≫= _) _ = Ok _ |- _ => tx_inv Hr end.
    match goal with Hg : next_generation _ _ = _ |- _ => apply next_generation_Ok in Hg as (-> & -> & _) end.
    eapply fleet_pool_step; [eassumption|exact Hp| |eassumption].
    destruct Hup as [Hset Hs]. split; simpl; try done; try lia; by right; right.
Qed.
End changes.

Section scaling.
Context `{ControlLibraries}.

Lemma activate_evolves r p : ∀ p', mp_id p' = mp_id p → mp_state p' = PoolActive →
  mp_binding p' = mp_binding p → mp_generation p' = mp_generation p + 1 →
  mp_expected_spec p' = mp_expected_spec p → mp_deployment p' = mp_deployment p → evolves r p p'.
Proof. intros p' Hi Hs Hb Hg He Hd. split; rewrite ?Hi, ?Hs, ?Hg; try done; try lia; by left. Qed.

Lemma finish_scale_steps env cluster row op applied ready d u d' :
  pools (control d) !! mp_id row = Some row →
  finish_scale env cluster row op applied ready d = Ok (u, d') → fleet_steps d d'.
Proof.
  intros Hp Hrun. unfold finish_scale in Hrun. destruct (_ && _); tx_inv Hrun; [|done].
  match goal with Ha : audit _ _ _ _ _ _ _ = _ |- _ => apply audit_steps in Ha end.
  etrans; [|eassumption]. apply rtc_once. destruct (so_up op).
  - match goal with Hr : mret _ _ = Ok _ |- _ => tx_inv Hr end.
    eapply put_pool_step; [exact Hp| |eassumption]. split; simpl; [done|done|lia|done|by left|by left|done].
  - match goal with Hr : (_ ≫= _) _ = Ok _ |- _ => tx_inv Hr end.
    match goal with Hg : next_generation _ _ = _ |- _ => apply next_generation_Ok in Hg as (-> & -> & _) end.
    eapply put_pool_step; [exact Hp| |eassumption]. by apply activate_evolves.
Qed.

Lemma continue_scale_steps env cluster row op target current ready d a d' :
  pools (control d) !! mp_id row = Some row →
  continue_scale digest document_bytes env cluster row op target current ready d = Ok (a, d') →
  fleet_steps d d'.
Proof.
  intros Hp Hrun. unfold continue_scale in Hrun. tx_inv Hrun.
  match goal with Hb : _ || _ = false |- _ =>
    apply orb_false_iff in Hb as [Hs%bool_decide_eq_false%dec_stable _] end.
  destruct (_ && ready); tx_inv Hrun.
  - match goal with Ha : audit _ _ _ _ _ _ _ = _ |- _ => apply audit_steps in Ha end.
    match goal with Hg : next_generation _ _ = _ |- _ => apply next_generation_Ok in Hg as (-> & -> & _) end.
    etrans; [|eassumption]. apply rtc_once.
    eapply put_pool_step; [exact Hp| |eassumption]. by apply activate_evolves.
  - destruct (blocked row (control _)) eqn:Hb; simpl in Hrun; [by tx_inv Hrun|].
    destruct ready; simpl in Hrun; [|by tx_inv Hrun].
    eapply apply_scale_steps; [done| |exact Hrun]. split; [by right|done].
Qed.

Lemma start_scale_steps env cluster row evidence current ready d a d' :
  pools (control d) !! mp_id row = Some row → replicas (mp_expected_spec row) = Some current →
  start_scale digest document_bytes env cluster row evidence current ready d = Ok (a, d') →
  fleet_steps d d'.
Proof.
  intros Hp Hc Hrun. unfold start_scale in Hrun.
  destruct (bool_decide _ || _ || _) eqn:Hb; [by tx_inv Hrun|].
  apply orb_false_iff in Hb as [[Hs%bool_decide_eq_false%dec_stable _]%orb_false_iff _].
  destruct (Z.ltb_spec current (sv_replicas evidence)).
  { by eapply apply_scale_steps; [done| |exact Hrun]. }
  tx_inv Hrun.
  match goal with Ha : audit _ _ _ _ _ _ _ = _ |- _ => apply audit_steps in Ha end.
  match goal with Hg : next_generation _ _ = _ |- _ => apply next_generation_Ok in Hg as (-> & -> & _) end.
  etrans; [|eassumption]. apply rtc_once. eapply put_pool_step; [exact Hp| |eassumption].
  split; simpl; [done|done|lia|lia|done|by left|done].
Qed.

Lemma reconcile_steps env cluster row evidence applied ready d a d' :
  pools (control d) !! mp_id row = Some row →
  reconcile digest document_bytes env cluster row evidence applied ready d = Ok (a, d') →
  fleet_steps d d'.
Proof.
  intros Hp Hrun. unfold reconcile in Hrun. destruct (negb _); [by tx_inv Hrun|].
  destruct (mp_scale_operation row) as [[[] target from previous up]|].
  2: { tx_inv Hrun. by eapply finish_scale_steps. }
  all: destruct evidence as [evidence|]; [|by tx_inv Hrun]; tx_inv Hrun;
    match goal with Hc : (replicas _ ≫= _) = Some _ |- _ =>
      apply bind_Some in Hc as (z & Hz & Hc); unfold i32_of in Hc; destruct (_ && _);
      [injection Hc as ->|done] end.
  - by eapply continue_scale_steps.
  - by eapply start_scale_steps.
Qed.
End scaling.

(** ** Observations *)

(** The unknown work on a pool is over: every termination among it is older
    than the evidence. *)
Definition idle_step (pool : string) (after : Z) : relation Db := λ d d',
  (∀ s v, views (control d) !! (pool, s) = Some v → vw_active_requests v < 0 →
     ∃ row t, sessions (control d) !! s = Some row ∧ sn_proof row = Some t ∧ tm_observed_at t ≤ after) ∧
  (∃ p, pools (control d) !! pool = Some p ∧ pb_traffic_protocol (mp_binding p) = 2) ∧
  fleet d' = (pools (control d), sessions (control d), clear_unknown pool (views (control d))).

Section observe.
Context `{ControlLibraries}.

Lemma make_default_fleet env row : preserves fleet (make_default env row).
Proof. unfold make_default. frame. Qed.

Lemma register_ready_Ok env id ready row d row' d' :
  register_ready env id ready row d = Ok (row', d') →
  fleet d' = fleet d ∧ mp_id row' = mp_id row ∧ mp_expected_spec row' = mp_expected_spec row ∧
  mp_binding row' = mp_binding row ∧ mp_deployment row' = mp_deployment row ∧
  (mp_state row' = mp_state row ∧ mp_generation row' = mp_generation row ∨
   mp_state row = PoolPending ∧ mp_state row' = PoolActive ∧
   mp_generation row' = mp_generation row + 1).
Proof.
  intros Hrun. unfold register_ready in Hrun.
  destruct (ready && bool_decide _) eqn:E; [|tx_inv Hrun; split_and!; [done..|by left]].
  apply andb_true_iff in E as [_ E%bool_decide_eq_true]. tx_inv Hrun.
  match goal with Hg : next_generation _ _ = _ |- _ => apply next_generation_Ok in Hg as (-> & -> & _) end.
  match goal with Ha : audit _ _ _ _ _ _ _ = _, Hm : make_default _ _ _ = _ |- _ =>
    apply audit_fleet in Ha; apply make_default_fleet in Hm end.
  unfold same in *. split; [congruence|]. simpl. split_and!; try done. by right.
Qed.

Lemma observed_row_same time report row :
  mp_id (observed_row time report row) = mp_id row ∧
  mp_binding (observed_row time report row) = mp_binding row ∧
  mp_state (observed_row time report row) = mp_state row ∧
  mp_generation (observed_row time report row) = mp_generation row ∧
  mp_expected_spec (observed_row time report row) = mp_expected_spec row ∧
  mp_deployment (observed_row time report row) = mp_deployment row.
Proof. unfold observed_row. by destruct (_ && _). Qed.

Lemma confirm_idle_Ok env pool d u d' :
  confirm_idle env pool d = Ok (u, d') →
  fleet d' = fleet d ∨
  pb_traffic_protocol (mp_binding pool) = 2 ∧
  fleet d' = (pools (control d), sessions (control d), clear_unknown (mp_id pool) (views (control d))).
Proof.
  intros Hrun. unfold confirm_idle in Hrun. tx_inv Hrun.
  match goal with Hi : idle_after _ _ = Ok (?x, _) |- _ =>
    apply idle_after_Ok in Hi as [-> _]; destruct x end; tx_inv Hrun; [|by left].
  right. match goal with Hs : negb (_ =? 2) = false |- _ =>
    apply negb_false_iff, Z.eqb_eq in Hs end. split; [done|].
  match goal with Ha : audit _ _ _ _ _ _ _ = _ |- _ => by apply audit_fleet in Ha as -> end.
Qed.

Lemma check_idle_Ok row report d u d' :
  check_idle row report d = Ok (u, d') →
  d' = d ∧ (po_idle report = true → ∃ after, po_idle_after report = Some after ∧
    ∀ s v, views (control d) !! (mp_id row, s) = Some v → vw_active_requests v < 0 →
      ∃ w t, sessions (control d) !! s = Some w ∧ sn_proof w = Some t ∧ tm_observed_at t ≤ after).
Proof.
  intros Hrun. unfold check_idle in Hrun. destruct (po_idle report); [|by tx_inv Hrun]. tx_inv Hrun.
  match goal with Hx : idle_after _ _ = _ |- _ => apply idle_after_Ok in Hx as [-> Hall] end.
  split; [done|]. intros _.
  repeat match goal with
  | Hb : bool_decide _ = false |- _ => apply bool_decide_eq_false, dec_stable in Hb
  | Hb : _ || _ = false |- _ => apply orb_false_iff in Hb as [? ?]
  end.
  destruct (po_idle_after report) as [after|]; [|done]. exists after. split; [done|].
  intros s v Hv Hneg. destruct (Hall s v Hv Hneg) as (w & t & m & Hw & Ht & Hm & Hle).
  exists w, t. split; [done|]. split; [done|]. congruence.
Qed.

(** An observation moves the pool, accepts idle evidence if it brings any,
    and reconciles the scale. *)
Lemma observe_pool_Ok env id token report d a d' :
  keyed d → observe_pool digest document_bytes env id token report d = Ok (a, d') →
  ∃ d1 d2, fleet_steps d d1 ∧
    (fleet d2 = fleet d1 ∨ po_idle report = true ∧ ∃ after, po_idle_after report = Some after ∧
       idle_step (po_pool_id report) after d1 d2) ∧
    fleet_steps d2 d'.
Proof.
  intros Hk Hrun. unfold observe_pool in Hrun. tx_inv Hrun.
  match goal with Ha : authenticated _ _ _ _ _ = _ |- _ => apply authenticated_Ok in Ha as [-> _] end.
  match goal with Hf : find_pool _ _ = Ok (?p, _) |- _ =>
    apply find_pool_Ok in Hf as [Hp ->]; rename p into row end.
  pose proof (Hk _ _ Hp) as Hid. rewrite <- Hid in Hp |- *.
  match goal with Hi : check_idle _ _ _ = _ |- _ => apply check_idle_Ok in Hi as [-> Hidle] end.
  match goal with Hr : register_ready _ _ _ (observed_row ?t report _) _ = Ok (?x, ?d2),
    Hu : put_pool _ ?d2 = Ok (_, ?d3), Hc : _ ?d3 = Ok (_, ?d4) |- _ =>
    apply register_ready_Ok in Hr as (F2 & I2 & S2 & B2 & D2 & Hst);
    destruct (observed_row_same t report row) as (O1 & O5 & O2 & O3 & O4 & O6);
    exists d3, d4; rename Hu into Hput; rename Hc into Hconf; set (next := set_mp_updated_at t x) in *
  end.
  assert (evolves (control d) row next) as He.
  { destruct Hst as [[G1 G2]|(Hpend & G1 & G2)]; rewrite ?O2, ?O3 in *;
      split; unfold next; simpl; rewrite ?I2, ?S2, ?B2, ?D2, ?O1, ?O4, ?O5, ?O6, ?G1, ?G2; try done; try lia; by left. }
  assert (mp_id next = mp_id row) as Hn by apply He.
  assert (fleet d8 = (<[mp_id row := next]> (pools (control d)), sessions (control d), views (control d)))
    as Hfleet.
  { unfold put_pool in Hput. tx_inv Hput. apply fleet_inv in F2 as (E1 & E2 & E3).
    unfold fleet. simpl. rewrite E1, E2, E3. by rewrite <- Hn. }
  assert (fleet d9 = fleet d8 ∨ po_idle report = true ∧ pb_traffic_protocol (mp_binding row) = 2 ∧ fleet d9 =
    (pools (control d8), sessions (control d8), clear_unknown (mp_id row) (views (control d8)))) as Hc.
  { destruct (po_idle report); [|tx_inv Hconf; by left].
    apply confirm_idle_Ok in Hconf as [?|[Hp2 ?]]; [by left|]. rewrite Hn in *.
    rewrite (ev_binding _ _ _ He) in Hp2. by right. }
  pose proof (fleet_inv _ _ _ _ Hfleet) as (E1 & E2 & E3). split; [|split].
  - by eapply rtc_once, FleetPool.
  - destruct Hc as [?|(Hi & Hp2 & Hc)]; [by left|right]. split; [done|].
    destruct (Hidle Hi) as (after & Ha & Hall). exists after. split; [done|].
    split; [rewrite E2, E3; exact Hall|]. split; [|done].
    exists next. rewrite E1, lookup_insert_eq. split; [done|]. by rewrite (ev_binding _ _ _ He).
  - eapply reconcile_steps; [|exact Hrun]. rewrite Hn.
    assert (pools (control d9) = pools (control d8)) as ->.
    { destruct Hc as [Hc|(_ & _ & Hc)]; by apply fleet_inv in Hc as (? & _). }
    by rewrite E1, lookup_insert_eq.
Qed.
End observe.
