(* ===== verification/Sessions.v ===== *)
(** * Sessions: what snapshots, reports and proofs do to the fleet *)

From S2P Require Import Prelude Domain Models Routing Fleet Store Catalog Routes.
From S2P Require Import Clusters Pools Snapshot Traffic Control.
Local Open Scope Z_scope.

(** ** Proof tasks *)

Lemma put_session_Ok id s d u d' :
  put_session id s d = Ok (u, d') →
  fleet d' = (pools (control d), <[id := s]> (sessions (control d)), views (control d)).
Proof. intros Hrun. unfold put_session in Hrun. by tx_inv Hrun. Qed.

Lemma find_session_Ok id e d s d' :
  find_session id e d = Ok (s, d') ↔ sessions (control d) !! id = Some s ∧ d' = d.
Proof.
  unfold find_session. rewrite tx_bind_Ok. setoid_rewrite registry_Ok.
  setoid_rewrite found_Ok. naive_solver.
Qed.

(** Sessions that are all different and all current. *)
Definition current_sessions (d : Db) (l : list (string * Session)) : Prop :=
  NoDup l.*1 ∧ ∀ e, e ∈ l → sessions (control d) !! e.1 = Some e.2.

Lemma proof_loop_steps env n open l d t d' :
  current_sessions d l → proof_loop env n open l d = Ok (t, d') → fleet_steps d d'.
Proof.
  revert n d t. induction l as [|[id s] l IH]; intros n d t [Hnd Hc] Hrun; simpl in Hrun; tx_inv Hrun;
    [done|].
  match goal with Hp : put_session _ _ _ = _ |- _ => apply put_session_Ok in Hp as Hf end.
  apply NoDup_cons in Hnd as [Hout Hnd]. etrans; [apply rtc_once|eapply IH; [|eassumption]].
  - eapply FleetSession; [apply (Hc (id, s)); by left|..|exact Hf]; done.
  - split; [done|]. intros [k r] Hin. simpl. apply fleet_inv in Hf as (_ & -> & _).
    rewrite lookup_insert_ne; [apply (Hc (k, r)); by right|].
    intros <-. apply Hout. by apply (list_elem_of_fmap_2 fst _ (id, r)).
Qed.

Lemma proof_tasks_steps hash env id token d t d' :
  gateway_proof_tasks hash env id token d = Ok (t, d') → fleet_steps d d'.
Proof.
  intros Hrun. unfold gateway_proof_tasks in Hrun. tx_inv Hrun.
  match goal with Ha : authenticated _ _ _ _ _ = _ |- _ => apply authenticated_Ok in Ha as [-> _] end.
  eapply proof_loop_steps; [|eassumption].
  unfold proof_candidates. split.
  - eapply sublist_NoDup; [|apply fmap_sublist, sublist_take]. rewrite order_by_perm.
    eapply sublist_NoDup; [|apply fmap_sublist, sublist_filter]. apply NoDup_fst_map_to_list.
  - intros [k s] Hin. eapply elem_of_sublist in Hin; [|apply sublist_take].
    rewrite order_by_perm in Hin. apply list_elem_of_filter in Hin as [_ Hin].
    by apply elem_of_map_to_list.
Qed.

(** ** Proofs *)

(** A proof changes its session; one of termination also retires its views. *)
Lemma gateway_proof_Ok hash env id token proof d u d' :
  gateway_proof hash env id token proof d = Ok (u, d') →
  ∃ row row', sessions (control d) !! gp_session_id proof = Some row ∧
    sn_sequence row' = sn_sequence row ∧ (sn_closed row = true → sn_closed row' = true) ∧
    (sn_proof row' = sn_proof row ∧
     fleet d' = (pools (control d), <[gp_session_id proof := row']> (sessions (control d)),
                 views (control d)) ∨
     gp_outcome proof = "terminated"%string ∧
     sn_proof row' = Some (mkTermination (env_now env) (gp_runtime proof)) ∧ sn_closed row' = true ∧
     fleet d' = (pools (control d), <[gp_session_id proof := row']> (sessions (control d)),
                 retire_views (gp_session_id proof) (views (control d)))).
Proof.
  intros Hrun. unfold gateway_proof in Hrun. tx_inv Hrun.
  match goal with Ha : authenticated _ _ _ _ _ = _ |- _ => apply authenticated_Ok in Ha as [-> _] end.
  match goal with Hf : find_session _ _ _ = Ok (?s, _) |- _ =>
    apply find_session_Ok in Hf as [Hs ->]; rename s into row end.
  apply put_session_Ok in Hrun.
  match goal with Hk : (if str_eqb _ _ then _ else _) _ = Ok (?s, _) |- _ =>
    rename Hk into Hkind; exists row, s; split; [done|] end.
  set (row1 := set_sn_proof_until None (set_sn_proof_nonce None row)) in *.
  repeat case_match.
  - unfold prove_bound in Hkind. tx_inv Hkind. eauto.
  - unfold prove_terminated in Hkind. tx_inv Hkind. destruct (sn_closed row1); tx_inv Hkind; [by eauto|].
    match goal with Ha : audit _ _ _ _ _ _ _ = _ |- _ => apply audit_fleet in Ha end.
    match goal with Ht : str_eqb (gp_outcome proof) "terminated" = true |- _ => apply str_eqb_eq in Ht end.
    split; [done|]. split; [done|]. right. split; [done|]. split; [done|]. split; [done|].
    match goal with Ha : same fleet _ _ |- _ => apply fleet_inv in Ha as (E1 & E2 & E3) end.
    rewrite Hrun, E1, E2, E3. done.
  - unfold prove_unbound in Hkind. tx_inv Hkind. eauto.
  - unfold prove_cleaned in Hkind. tx_inv Hkind. eauto.
  - tx_inv Hkind. eauto.
Qed.

(** ** Reports *)

Lemma elem_of_views_by session p v r : (p, v) ∈ views_by session r ↔ views r !! (p, session) = Some v.
Proof.
  unfold views_by. rewrite list_elem_of_omap. split.
  - intros ([[q t] w] & Hin%elem_of_map_to_list & Heq). simpl in Heq.
    destruct (str_eqb t session) eqn:E; [|done]. apply str_eqb_eq in E as ->. by injection Heq as -> ->.
  - intros Hv. exists (p, session, v). split; [by apply elem_of_map_to_list|]. simpl. by rewrite str_eqb_refl.
Qed.

Lemma views_by_NoDup session r : NoDup (views_by session r).*1.
Proof.
  unfold views_by. pose proof (NoDup_fst_map_to_list (views r)) as Hnd. revert Hnd.
  induction (map_to_list (views r)) as [|[[p s] v] l IH]; intros Hnd; [constructor|].
  apply NoDup_cons in Hnd as [Hout Hnd]. simpl.
  destruct (str_eqb s session) eqn:E; [|by apply IH]. apply str_eqb_eq in E as ->.
  apply NoDup_cons. split; [|by apply IH]. intros Hin. apply Hout. simpl.
  apply list_elem_of_fmap in Hin as ([q w] & Hq & Hin). simpl in Hq. subst q.
  apply list_elem_of_omap in Hin as ([[q t] w'] & Hin & Heq). simpl in Heq.
  destruct (str_eqb t session) eqn:E; [|done]. apply str_eqb_eq in E as ->. injection Heq as <- <-.
  by apply (list_elem_of_fmap_2 fst _ (q, session, w')).
Qed.

(** What an accepted report makes of a view. *)
Definition acknowledged_view (now : Z) (report : TrafficReport) (pool : string) (v : PoolView)
    : PoolView :=
  mkView (vw_delivered_generation v) (vw_delivered_generation v)
    (default 0 (tp_active report !! pool)) (tp_closed report) (Some now).

Definition acknowledged_views (now : Z) (report : TrafficReport) (m m' : gmap (string * string) PoolView)
    : Prop :=
  ∀ p s, m' !! (p, s) = if decide (s = tp_session_id report)
                        then acknowledged_view now report p <$> m !! (p, s) else m !! (p, s).

Lemma put_view_Ok p s v d u d' :
  put_view p s v d = Ok (u, d') →
  fleet d' = (pools (control d), sessions (control d), <[(p, s) := v]> (views (control d))).
Proof. intros Hrun. unfold put_view in Hrun. by tx_inv Hrun. Qed.

Lemma acknowledge_views_Ok env report l d u d' :
  NoDup l.*1 → (∀ p v, (p, v) ∈ l → views (control d) !! (p, tp_session_id report) = Some v) →
  acknowledge_views env report l d = Ok (u, d') →
  pools (control d') = pools (control d) ∧ sessions (control d') = sessions (control d) ∧
  (∀ p, p ∈ l.*1 → is_Some (tp_active report !! p)) ∧
  ∀ p s, views (control d') !! (p, s) =
    if decide (s = tp_session_id report ∧ p ∈ l.*1)
    then acknowledged_view (env_now env) report p <$> views (control d) !! (p, s)
    else views (control d) !! (p, s).
Proof.
  revert d. induction l as [|[p v] l IH]; intros d Hnd Hl Hrun; simpl in Hrun; tx_inv Hrun.
  { split_and!; [done..| |]; [by intros p ?%elem_of_nil|]. intros p s.
    destruct (decide _) as [[_ ?%elem_of_nil]|_]; done. }
  match goal with Hc : tp_active report !! p = Some ?n, Hp : put_view _ _ _ _ = Ok (_, ?d1) |- _ =>
    rename Hc into Hn; apply put_view_Ok, fleet_inv in Hp as (E1 & E2 & E3); rename d1 into d1 end.
  apply NoDup_cons in Hnd as [Hout Hnd]. pose proof (Hl p v ltac:(by left)) as Hv.
  apply IH in Hrun as (F1 & F2 & F3 & F4); [|done|].
  2: { intros q w Hq. rewrite E3, lookup_insert_ne; [by apply Hl; right|].
       intros [= <-]. apply Hout. by apply (list_elem_of_fmap_2 fst _ (p, w)). }
  split; [congruence|]. split; [congruence|]. split.
  { intros q [->|Hq]%elem_of_cons; [by eexists|by apply F3]. }
  intros q s. rewrite F4, E3. simpl. destruct (decide ((p, tp_session_id report) = (q, s))) as [[= <- <-]|Hne].
  - rewrite decide_False by naive_solver. rewrite decide_True by set_solver.
    rewrite lookup_insert_eq, Hv. simpl. unfold acknowledged_view. by rewrite Hn.
  - rewrite lookup_insert_ne by done. destruct (decide (s = _ ∧ q ∈ l.*1)) as [[-> Hq]|Hq].
    + rewrite decide_True; [done|]. split; [done|by right].
    + rewrite decide_False; [done|]. intros [-> [->|?]%elem_of_cons]; naive_solver.
Qed.

(** A report is a duplicate, or it acknowledges every view of its session. *)
Lemma traffic_report_Ok is_uuid env report d a d' :
  traffic_report is_uuid env report d = Ok (a, d') →
  fleet d' = fleet d ∨
  ∃ row row', sessions (control d) !! tp_session_id report = Some row ∧
    sn_sequence row = tp_sequence report ∧ sn_sequence row' = sn_sequence row ∧
    sn_proof row' = sn_proof row ∧ sn_closed row = false ∧ counts_ok report = true ∧
    pools (control d') = pools (control d) ∧
    sessions (control d') = <[tp_session_id report := row']> (sessions (control d)) ∧
    acknowledged_views (env_now env) report (views (control d)) (views (control d')).
Proof.
  intros Hrun. unfold traffic_report in Hrun. tx_inv Hrun.
  match goal with Hf : find_session _ _ _ = Ok (?s, _) |- _ =>
    apply find_session_Ok in Hf as [Hs ->]; rename s into row end.
  destruct (sn_closed row) eqn:Hclosed; [tx_inv Hrun; by left|].
  destruct (sn_reported row); tx_inv Hrun; [by left|right].
  match goal with Hp : put_session _ _ _ = _ |- _ => apply put_session_Ok, fleet_inv in Hp as (E1 & E2 & E3) end.
  match goal with Ha : acknowledge_views _ _ _ _ = _ |- _ =>
    apply acknowledge_views_Ok in Ha as (F1 & F2 & F3 & F4) end.
  2: { apply views_by_NoDup. }
  2: { intros p v. by rewrite elem_of_views_by. }
  match goal with Hr : negb (traffic_report_ok _ _) = false |- _ =>
    unfold traffic_report_ok in Hr; apply negb_false_iff, andb_true_iff in Hr as [_ Hcounts] end.
  match goal with Hr : negb (_ =? _) || _ = false |- _ =>
    apply orb_false_iff in Hr as [Hseq%negb_false_iff%Z.eqb_eq _] end.
  eexists row, _. split; [done|]. split; [done|].
  split; [|split; [|split; [done|split; [done|split; [|split]]]]].
  4: { by rewrite E2, F2. }
  1, 2: done.
  - congruence.
  - intros p s. rewrite E3, F4. destruct (decide (s = _)) as [->|Hne].
    + destruct (decide _) as [_|Hout]; [done|].
      destruct (views (control d) !! (p, _)) as [v|] eqn:Hv; [|done]. destruct Hout. split; [done|].
      apply (list_elem_of_fmap_2 fst _ (p, v)). by apply elem_of_views_by.
    + rewrite decide_False by naive_solver. done.
Qed.

(** ** Snapshots *)

(** What a snapshot makes of the view of a pool by its session. *)
Definition delivered_view (accepting : bool) (p : ManagedPool) (v : option PoolView) : option PoolView :=
  match v with
  | Some v => Some (mkView (mp_generation p) (vw_acknowledged_generation v) (vw_active_requests v)
                (vw_retired v) (vw_reported_at v))
  | None => if accepting then Some (mkView (mp_generation p) 0 0 false None) else None
  end.

Lemma expose_Ok session accepting p d c d' :
  expose session accepting p d = Ok (c, d') →
  c = mkControl (mp_id p) (mp_generation p) accepting ∧
  pools (control d') = pools (control d) ∧ sessions (control d') = sessions (control d) ∧
  ∀ q s, views (control d') !! (q, s) =
    if decide (s = session ∧ q = mp_id p) then delivered_view accepting p (views (control d) !! (q, s))
    else views (control d) !! (q, s).
Proof.
  intros Hrun. unfold expose in Hrun. tx_inv Hrun. split; [done|].
  destruct (views (control d) !! (mp_id p, session)) as [v|] eqn:Hv; [|destruct accepting].
  - match goal with Hp : put_view _ _ _ _ = _ |- _ => apply put_view_Ok, fleet_inv in Hp as (E1 & E2 & E3) end.
    split; [done|]. split; [done|]. intros q s. rewrite E3. destruct (decide _) as [[-> ->]|Hne].
    + by rewrite lookup_insert_eq, Hv.
    + rewrite lookup_insert_ne; [done|naive_solver].
  - match goal with Hp : put_view _ _ _ _ = _ |- _ => apply put_view_Ok, fleet_inv in Hp as (E1 & E2 & E3) end.
    split; [done|]. split; [done|]. intros q s. rewrite E3. destruct (decide _) as [[-> ->]|Hne].
    + by rewrite lookup_insert_eq, Hv.
    + rewrite lookup_insert_ne; [done|naive_solver].
  - match goal with Hp : mret _ _ = Ok _ |- _ => tx_inv Hp end.
    split; [done|]. split; [done|]. intros q s. destruct (decide _) as [[-> ->]|Hne]; [by rewrite Hv|done].
Qed.

Lemma expose_all_Ok session accepting l d c d' :
  NoDup (mp_id <$> l) → expose_all session accepting l d = Ok (c, d') →
  c = (λ p, mkControl (mp_id p) (mp_generation p) (accepting p)) <$> l ∧
  pools (control d') = pools (control d) ∧ sessions (control d') = sessions (control d) ∧
  (∀ q s, s ≠ session ∨ q ∉ mp_id <$> l → views (control d') !! (q, s) = views (control d) !! (q, s)) ∧
  ∀ p, p ∈ l → views (control d') !! (mp_id p, session) =
    delivered_view (accepting p) p (views (control d) !! (mp_id p, session)).
Proof.
  revert d c. induction l as [|p l IH]; intros d c Hnd Hrun; simpl in Hrun; tx_inv Hrun.
  { split_and!; try done. by intros p ?%elem_of_nil. }
  apply NoDup_cons in Hnd as [Hout Hnd].
  match goal with He : expose _ _ _ _ = _, Hr : expose_all _ _ _ _ = _ |- _ =>
    apply expose_Ok in He as (-> & E1 & E2 & E3); apply IH in Hr as (-> & F1 & F2 & F3 & F4); [|done] end.
  split; [done|]. split; [congruence|]. split; [congruence|]. split.
  - intros q s Hq. rewrite F3 by set_solver. rewrite E3, decide_False; [done|].
    intros [-> ->]. destruct Hq as [?|Hq]; [done|]. apply Hq. by left.
  - intros q [->|Hq]%elem_of_cons.
    + rewrite F3 by auto. by rewrite E3, decide_True.
    + rewrite F4 by done. f_equal. rewrite E3, decide_False; [done|].
      intros [_ E]. apply Hout. rewrite <- E. by apply list_elem_of_fmap_2.
Qed.

Definition all_pools (d : Db) : list ManagedPool := order_by_text mp_id (map_to_list (pools (control d))).*2.

Lemma all_pools_spec d : keyed d →
  NoDup (mp_id <$> all_pools d) ∧
  ∀ p, p ∈ all_pools d ↔ pools (control d) !! mp_id p = Some p.
Proof.
  intros Hk. unfold all_pools. split.
  - rewrite order_by_text_perm.
    replace (mp_id <$> (map_to_list (pools (control d))).*2) with (map_to_list (pools (control d))).*1;
      [apply NoDup_fst_map_to_list|].
    rewrite <- list_fmap_compose. apply list_fmap_ext. intros i [k p] Hp. simpl. symmetry.
    apply Hk, elem_of_map_to_list. by eapply list_elem_of_lookup_2.
  - intros p. rewrite elem_of_order_by_text, list_elem_of_fmap. split.
    + intros ([k q] & -> & Hq%elem_of_map_to_list). simpl. by rewrite (Hk _ _ Hq).
    + intros Hp. exists (mp_id p, p). split; [done|]. by apply elem_of_map_to_list.
Qed.

Definition sequence_of (o : option Session) : Z := match o with Some s => sn_sequence s | None => 0 end.

(** A snapshot that leaves says of every pool whether it accepts, which only
    an active pool does; its session is one number further. *)
Record delivered (d : Db) (id : string) (s : TrafficSnapshot) (d' : Db) : Prop := {
  dv_session : ts_session_id s = id;
  dv_sequence : ts_sequence s = sequence_of (sessions (control d) !! id) + 1;
  dv_row : ∃ row, sessions (control d') = <[id := row]> (sessions (control d)) ∧
    sn_sequence row = ts_sequence s ∧ sn_proof row = (sessions (control d) !! id ≫= sn_proof) ∧
    (∀ old, sessions (control d) !! id = Some old → sn_closed old = false);
  dv_pools : pools (control d') = pools (control d);
  dv_controls : ∃ accepting : ManagedPool → bool,
    (∀ p, accepting p = true → mp_state p = PoolActive) ∧
    ts_pools s = (λ p, mkControl (mp_id p) (mp_generation p) (accepting p)) <$> all_pools d ∧
    (∀ q t, t ≠ id ∨ q ∉ mp_id <$> all_pools d →
       views (control d') !! (q, t) = views (control d) !! (q, t)) ∧
    ∀ p, p ∈ all_pools d → views (control d') !! (mp_id p, id) =
      delivered_view (accepting p) p (views (control d) !! (mp_id p, id)) }.

Lemma open_session_Ok env id identity d s d' :
  open_session env id identity d = Ok (s, d') →
  pools (control d') = pools (control d) ∧ views (control d') = views (control d) ∧
  (∀ row, <[id := row]> (sessions (control d')) = <[id := row]> (sessions (control d))) ∧
  sn_sequence s = sequence_of (sessions (control d) !! id) ∧
  sn_proof s = (sessions (control d) !! id ≫= sn_proof) ∧
  (∀ old, sessions (control d) !! id = Some old → s = old).
Proof.
  intros Hrun. unfold open_session in Hrun. tx_inv Hrun.
  destruct (sessions (control d) !! id) as [row|] eqn:Hs; tx_inv Hrun; [split_and!; try done; congruence|].
  match goal with Hp : put_session _ _ _ = _ |- _ => apply put_session_Ok, fleet_inv in Hp as (-> & -> & ->) end.
  split_and!; try done. intros row. by rewrite insert_insert_eq.
Qed.

Lemma put_grant_fleet hash env id token l : preserves fleet (put_grant hash env id token l).
Proof. unfold put_grant, registry, write_registry. frame. Qed.

Lemma validate_identity_same env i d u d' : validate_identity env i d = Ok (u, d') → d' = d.
Proof. intros Hrun. unfold validate_identity, find_cluster in Hrun. by tx_inv Hrun. Qed.

Lemma traffic_snapshot_Ok hash uuid required env id identity snapshot token d g d' :
  keyed d →
  traffic_snapshot hash uuid required env id identity snapshot token d = Ok (g, d') →
  ∃ s, gs_traffic g = Some s ∧ delivered d id s d'.
Proof.
  intros Hk Hrun. unfold traffic_snapshot in Hrun. tx_inv Hrun.
  match goal with Hi : match identity with Some _ => _ | None => _ end _ = Ok (_, ?d1) |- _ =>
    assert (d1 = d) as ->; [destruct identity; [by eapply validate_identity_same|by tx_inv Hi]|clear Hi] end.
  match goal with Ho : open_session _ _ _ _ = Ok (?s, _) |- _ =>
    apply open_session_Ok in Ho as (O1 & O2 & O3 & O4 & O5 & O6); rename s into row end.
  match goal with Hc : checked_add _ _ = Some _ |- _ => apply checked_add_Some in Hc as [-> _] end.
  match goal with Hp : put_session _ _ _ = _ |- _ => apply put_session_Ok, fleet_inv in Hp as (P1 & P2 & P3) end.
  match goal with He : expose_all _ ?acc _ _ = _, Hg : put_grant _ _ _ _ _ _ = _ |- _ =>
    apply put_grant_fleet in Hg as (G1 & G2 & G3)%fleet_inv;
    apply expose_all_Ok in He as (-> & E1 & E2 & E3 & E4); [|by apply all_pools_spec];
    set (accepting := acc) in * end.
  eexists. split; [done|]. split; simpl.
  - done.
  - by rewrite O4.
  - eexists. rewrite G2, E2, P2, O3. split; [done|]. split; [simpl; by rewrite O4|]. split; [done|].
    intros old Hold. by rewrite <- (O6 _ Hold).
  - congruence.
  - exists accepting. split; [|split; [done|]].
    + intros p Ha. unfold accepting, pool_accepting in Ha. rewrite !andb_true_iff in Ha.
      destruct Ha as [[[Ha _] _] _]. by apply bool_decide_eq_true in Ha.
    + split.
      * intros q t Hq. by rewrite G3, E3, P3, O2.
      * intros p Hp. by rewrite G3, E4, P3, O2.
Qed.
