(* ===== verification/Registry.v ===== *)
(** * Registry: what the operations on the registry write

    Besides the registry itself they only append to the operator's audit log,
    and name the default pool of a model; and they keep the history of every
    route policy. *)

From S2P Require Import Prelude Domain Models Routing Fleet Store Catalog Wallet Routes.
From S2P Require Import Clusters Pools Snapshot Traffic Control.
Local Open Scope Z_scope.

(** Entries of the catalog keep their definition. *)
Definition same_definitions (c c' : gmap string CatalogRow) : Prop :=
  ∀ id row', c' !! id = Some row' → ∃ row, c !! id = Some row ∧ ca_definition row' = ca_definition row.

Record registry_writes (d d' : Db) : Prop := {
  rw_rest : ∃ ct oa co, d' = set_catalog ct (set_operation_audits oa (set_control co d));
  rw_catalog : same_definitions (catalog d) (catalog d');
  rw_routes : Routes_ok (control d) → Routes_ok (control d') }.

#[export] Instance registry_writes_preorder : PreOrder registry_writes.
Proof.
  split.
  - intros d. split; [|intros id row Hr; by exists row|done].
    exists (catalog d), (operation_audits d), (control d). by destruct d.
  - intros d1 d2 d3 [(a & b & c & ->) C1 R1] [(a' & b' & c' & ->) C2 R2]. split; [|..|auto].
    + by exists a', b', c'.
    + intros id row Hr. destruct (C2 id row Hr) as (x & Hx & Ex). destruct (C1 id x Hx) as (y & Hy & Ey).
      exists y. split; [done|congruence].
Qed.

Lemma same_definitions_refl c : same_definitions c c.
Proof. intros id row Hr. by exists row. Qed.

Lemma writes_registry f :
  (∀ r, routes (f r) = routes r ∧ route_revisions (f r) = route_revisions r) →
  respects registry_writes (write_registry f).
Proof.
  intros Hf d u d' Hrun. apply write_registry_Ok in Hrun as ->. destruct (Hf (control d)) as [E1 E2].
  split; [|apply same_definitions_refl|].
  - exists (catalog d), (operation_audits d), (f (control d)). by destruct d.
  - intros [R1 R2 R3]. split; simpl; rewrite ?E1, ?E2; done.
Qed.

Lemma writes_audit a : respects registry_writes (insert_operation_audit a).
Proof.
  intros d u d' Hrun. unfold insert_operation_audit in Hrun. tx_inv Hrun.
  split; [|apply same_definitions_refl|done].
  exists (catalog d), (operation_audits d ++ [a]), (control d). by destruct d.
Qed.

Lemma writes_default env row : respects registry_writes (make_default env row).
Proof.
  intros d u d' Hrun. unfold make_default in Hrun.
  destruct (pb_make_default _); [|tx_inv Hrun; reflexivity]. tx_inv Hrun.
  destruct (catalog d !! se_model (mp_endpoint row)) as [[rev [] [p|] def t]|] eqn:Hr;
    tx_inv Hrun; try reflexivity. split; [|..|done].
  - eexists _, (operation_audits d), (control d). by destruct d.
  - simpl. intros id r [[<- <-]|[_ Hid]]%lookup_insert_Some; [by eexists|by exists r].
Qed.

(** ** Every operation on the registry *)

#[local] Hint Resolve writes_audit writes_default : frame.
#[local] Hint Extern 4 (respects registry_writes (write_registry _)) =>
  apply writes_registry; intros; split; reflexivity : frame.
#[local] Hint Unfold registry audit find_cluster put_cluster authenticated credential insert_revision
  put_endpoint_row next_delivery lift_text active_model ignore find_pool put_pool
  next_generation desired_spec binding_endpoint check_dedicated insert_pool transition_state
  idle_after confirm_idle check_idle register_ready check_change finish_scale continue_scale
  start_scale apply_scale reconcile put_session put_view find_session validate_identity
  open_session expose put_grant prove_bound prove_terminated prove_unbound prove_cleaned
  observation_task guard_pool guard_desired : frame.

Lemma writes_fence l after : respects registry_writes (latest_fence l after).
Proof. revert after. induction l; intros after; simpl; frame. Qed.
#[local] Hint Resolve writes_fence : frame.

Lemma writes_tasks env n cluster rows : respects registry_writes (observation_loop env n cluster rows).
Proof. revert n. induction rows; intros n; simpl; frame. Qed.
Lemma writes_guard env version l rows : respects registry_writes (guard_loop env version l rows).
Proof. revert l. induction rows; intros l; simpl; frame. Qed.
Lemma writes_expose session accepting l : respects registry_writes (expose_all session accepting l).
Proof. induction l; simpl; frame. Qed.
Lemma writes_acknowledge env report l : respects registry_writes (acknowledge_views env report l).
Proof. induction l as [|[p v] l IH]; simpl; frame. Qed.
Lemma writes_proofs env n open rows : respects registry_writes (proof_loop env n open rows).
Proof. revert n. induction rows as [|[id row] rows IH]; intros n; simpl; frame. Qed.
#[local] Hint Resolve writes_tasks writes_guard writes_expose writes_acknowledge writes_proofs : frame.

Lemma writes_policy env project model request pools actor operation :
  respects registry_writes (put_route_policy env project model request pools actor operation).
Proof.
  intros d policy d' Hrun. pose proof (put_route_policy_only _ _ _ _ _ _ _ _ _ _ Hrun) as E. split.
  - exists (catalog d), (operation_audits d), (control d'). rewrite E. by destruct d.
  - rewrite E. apply same_definitions_refl.
  - intros Hr. by eapply put_route_policy_ok.
Qed.
#[local] Hint Resolve writes_policy : frame.

Lemma control_writes `{ControlLibraries} env o : respects registry_writes (run_control env o).
Proof.
  destruct o; cbn [run_control]; unfold release_action, next_spec, put_serving_endpoint,
    register_cluster, rotate_cluster_credential, revoke_cluster, poll_cluster, report_cluster,
    put_cluster_desired, bind_pool, pool_transition, observation_tasks, observe_pool,
    traffic_snapshot, traffic_report, gateway_proof_tasks, gateway_proof; frame.
Qed.
