(* ===== verification/Gate.v ===== *)
(** * Gate: the traffic gate of one gateway

    [crates/gateway/src/traffic.rs]: the gate runs the snapshot it installed
    last, admits a request to a pool under that snapshot's generation, counts
    it until its permit is dropped, and reports its counts.  One lock guards
    the state, so every method is one step; a poisoned lock is not modelled. *)

From S2P Require Import Prelude Fleet.
Local Open Scope Z_scope.

(** [State] *)
Record Gate := mkGate {
  ga_snapshot : option TrafficSnapshot;
  ga_controls : gmap string PoolControl;
  ga_deadline : option Z;
  ga_active : gmap string Z;
  ga_closed : bool }.

Definition Gate_default : Gate := mkGate None ∅ None ∅ false.

(** ** Installing a snapshot *)

Fixpoint valid_pools (ids : list string) (l : list PoolControl) : bool :=
  match l with
  | [] => true
  | p :: l => managed (pc_id p) && (0 <? pc_generation p) && negb (str_in (pc_id p) ids)
              && valid_pools (pc_id p :: ids) l
  end.

Definition controls_of (s : TrafficSnapshot) : gmap string PoolControl :=
  list_to_map ((λ p, (pc_id p, p)) <$> ts_pools s).

(** No pool may vanish or go back. *)
Definition keeps_pools (previous : TrafficSnapshot) (controls : gmap string PoolControl) : bool :=
  forallb (λ old, match controls !! pc_id old with
                  | Some p => pc_generation old <=? pc_generation p
                  | None => false
                  end) (ts_pools previous).

Definition count_zero (m : gmap string Z) (p : PoolControl) : gmap string Z :=
  match m !! pc_id p with Some _ => m | None => <[pc_id p := 0]> m end.

Section gate.
Variable is_uuid : string → bool.
(** [Traffic::session_id] *)
Variable session_id : string.

Definition valid_grant (s : TrafficSnapshot) : bool :=
  str_eqb (ts_session_id s) session_id && (0 <? ts_sequence s)
  && (ts_lease_seconds s =? LEASE_SECONDS) && is_uuid (ts_nonce s)
  && (Z.of_nat (length (ts_pools s)) <=? 10000).

Definition install (s : TrafficSnapshot) (fetched_at : Z) (g : Gate) : result string Gate :=
  require (valid_grant s) "invalid traffic grant" ;;
  require (valid_pools [] (ts_pools s)) "invalid traffic pool" ;;
  let controls := controls_of s in
  require (match ga_snapshot g with Some old => ts_sequence old <? ts_sequence s | None => true end)
    "stale traffic grant" ;;
  require (match ga_snapshot g with Some old => keeps_pools old controls | None => true end)
    "traffic grant removed or rewound a participant" ;;
  Ok (mkGate (Some s) controls (Some (fetched_at + LEASE_SECONDS * 1000000))
        (foldl count_zero (ga_active g) (ts_pools s)) (ga_closed g)).

(** ** Requests *)

Definition gate_lapsed (now : Z) (g : Gate) : bool :=
  match ga_deadline g with Some t => t <=? now | None => true end.

Definition admits (pool : string) (generation : Z) (g : Gate) : bool :=
  match ga_controls g !! pool with
  | Some p => (pc_generation p =? generation) && pc_accepting p
  | None => false
  end.

Definition count_of (pool : string) (g : Gate) : Z := default 0 (ga_active g !! pool).

Definition set_count (pool : string) (n : Z) (g : Gate) : Gate :=
  mkGate (ga_snapshot g) (ga_controls g) (ga_deadline g) (<[pool := n]> (ga_active g)) (ga_closed g).

(** A request that enters holds a permit for its pool. *)
Definition enter (now : Z) (pool : string) (generation : Z) (g : Gate) : result string Gate :=
  require (negb (ga_closed g || gate_lapsed now g || negb (admits pool generation g)))
    "pool is unready, draining, or traffic grant expired" ;;
  require (count_of pool g <? u64_max) "active request count exhausted" ;;
  Ok (set_count pool (count_of pool g + 1) g).

(** [Permit::drop] *)
Definition leave (pool : string) (g : Gate) : Gate :=
  match ga_active g !! pool with
  | Some n => set_count pool (Z.max 0 (n - 1)) g
  | None => g
  end.

(** ** Reports *)

Definition report (g : Gate) : option TrafficReport :=
  s ← ga_snapshot g;
  mret (mkReport (ga_closed g) session_id (ts_sequence s) (ts_nonce s) (ga_active g)).

Definition admission_headers (now : Z) (g : Gate) : option (string * string) :=
  if ga_closed g || gate_lapsed now g then None
  else s ← ga_snapshot g;
       if is_empty (ts_admission_token s) then None else Some (session_id, ts_admission_token s).

Definition close (g : Gate) : Gate :=
  mkGate (ga_snapshot g) (ga_controls g) (ga_deadline g) (ga_active g) true.
End gate.

(** ** What the methods do *)

Lemma count_zero_default m p q : default 0 (count_zero m p !! q) = default 0 (m !! q).
Proof.
  unfold count_zero. destruct (m !! pc_id p) eqn:E; [done|].
  destruct (decide (q = pc_id p)) as [->|Hne]; [by rewrite lookup_insert_eq, E|].
  by rewrite lookup_insert_ne.
Qed.

Lemma count_zero_all l m q : default 0 (foldl count_zero m l !! q) = default 0 (m !! q).
Proof. revert m. induction l as [|p l IH]; intros m; simpl; [done|]. by rewrite IH, count_zero_default. Qed.

Lemma install_Ok is_uuid session s time g g' :
  install is_uuid session s time g = Ok g' →
  ts_session_id s = session ∧ 0 < ts_sequence s ∧ ga_snapshot g' = Some s ∧
  ga_controls g' = controls_of s ∧ ga_closed g' = ga_closed g ∧
  (∀ p, count_of p g' = count_of p g) ∧
  (∀ old, ga_snapshot g = Some old → ts_sequence old < ts_sequence s).
Proof.
  unfold install. rewrite !require_bind_Ok. intros (Hv & _ & Hseq & _ & [= <-]).
  unfold valid_grant in Hv. rewrite !andb_true_iff, str_eqb_eq, Z.ltb_lt in Hv.
  split_and!; try apply Hv; try done.
  - intros p. apply count_zero_all.
  - intros old Hold. rewrite Hold in Hseq. by apply Z.ltb_lt.
Qed.

Lemma enter_Ok now p n g g' :
  enter now p n g = Ok g' ↔
  ga_closed g = false ∧ gate_lapsed now g = false ∧ admits p n g = true ∧
  count_of p g < u64_max ∧ g' = set_count p (count_of p g + 1) g.
Proof.
  unfold enter. rewrite !require_bind_Ok, negb_true_iff, !orb_false_iff, negb_false_iff, Z.ltb_lt.
  naive_solver.
Qed.

Lemma count_of_set p q n g : count_of q (set_count p n g) = if decide (q = p) then n else count_of q g.
Proof.
  unfold count_of, set_count. simpl. case_decide; subst; [by rewrite lookup_insert_eq|].
  by rewrite lookup_insert_ne.
Qed.

Lemma count_of_leave p q g : 0 < count_of p g →
  count_of q (leave p g) = if decide (q = p) then count_of p g - 1 else count_of q g.
Proof.
  intros Hpos. unfold leave. destruct (ga_active g !! p) as [n|] eqn:E.
  - rewrite count_of_set. case_decide; [|done]. unfold count_of in *. rewrite E in *. simpl in *. lia.
  - unfold count_of in Hpos. rewrite E in Hpos. simpl in Hpos. lia.
Qed.

Lemma leave_same p g : ga_snapshot (leave p g) = ga_snapshot g ∧
  ga_controls (leave p g) = ga_controls g ∧ ga_closed (leave p g) = ga_closed g.
Proof. unfold leave. by destruct (ga_active g !! p). Qed.

(** What admits is a control of the installed snapshot. *)
Lemma admits_control p n g s :
  ga_controls g = controls_of s → admits p n g = true →
  ∃ c, c ∈ ts_pools s ∧ pc_id c = p ∧ pc_accepting c = true.
Proof.
  unfold admits, controls_of. intros -> Ha.
  destruct (_ !! p) as [c|] eqn:E; [|done]. apply andb_true_iff in Ha as [_ Ha].
  apply elem_of_list_to_map_2, list_elem_of_fmap in E as (c' & [= -> <-] & Hc). by exists c.
Qed.
