(* ===== verification/Keys.v ===== *)
(** * Keys: the credentials a gateway accepts

    [crates/gateway/src/auth.rs]: a gateway replaces its keys by every
    snapshot of the control plane that it can validate, together with the
    traffic grant in it, and keeps the ones it has otherwise.  The hash and
    the base64 text are functions of libraries; fetching is I/O. *)

From S2P Require Import Prelude Http Domain Models Routing Fleet Store Books Catalog Projection.
From S2P Require Import Ledger Wallet Routes Snapshot Gate.
Local Open Scope string_scope.
Local Open Scope Z_scope.

(** ** Data *)

Record Principal := mkPrincipal {
  pn_traffic : option TrafficSnapshot;
  pn_catalog : option CatalogSnapshot;
  pn_route_policies : list RoutePolicy;
  pn_api_key_id : string;
  pn_tenant_id : string;
  pn_project_id : string;
  pn_scopes : list string;
  pn_allowed_models : list string;
  pn_rate_limit_rpm : Z;
  pn_rate_limit_tpm : Z;
  pn_monthly_budget_amount : Z;
  pn_current_month_spend_amount : Z;
  pn_balance_enforced : bool;
  pn_available_balance_amount : Z }.

Definition route_policy (p : Principal) (model : string) : option RoutePolicy :=
  find (λ policy, str_eqb (rt_model policy) model) (pn_route_policies p).
Definition has_scope (p : Principal) (scope : string) : bool :=
  existsb (λ candidate, str_eqb candidate scope) (pn_scopes p).
Definition allows_model (p : Principal) (model : string) : bool :=
  existsb (λ candidate, str_eqb candidate model) (pn_allowed_models p).
Definition budget_exhausted (p : Principal) : bool :=
  (0 <? pn_monthly_budget_amount p)
  && (pn_monthly_budget_amount p <=? pn_current_month_spend_amount p).
Definition funds_exhausted (p : Principal) : bool :=
  pn_balance_enforced p && (pn_available_balance_amount p <=? 0).

Record Credential := mkCredential {
  cd_principal : Principal;
  cd_secret_hash : string;
  cd_expires_at : option Z }.

Record RateWindow := mkRateWindow { rw_minute : Z; rw_count : Z }.

(** The snapshot as a gateway reads it; older control planes send neither
    policies nor a catalog. *)
Record GatewaySnapshot := mkGatewayKeys {
  sn_traffic : option TrafficSnapshot;
  sn_keys : list GatewayKey;
  sn_route_policies : list RoutePolicy;
  sn_catalog : option CatalogSnapshot }.

Inductive SnapshotError := InvalidRoutePolicy | InvalidCatalog | InvalidTraffic | InvalidDigest (id : string).

Record ApiKeyConfig := mkApiKeyConfig {
  kc_id : string; kc_tenant_id : string; kc_project_id : string; kc_secret : string }.

(** The document of the control plane, read: rates are [u64] here. *)
Definition received (s : Snapshot.GatewaySnapshot) : option GatewaySnapshot :=
  if forallb (λ k, (0 <=? gk_rate_limit_rpm k) && (0 <=? gk_rate_limit_tpm k)) (gs_keys s) then
    Some (mkGatewayKeys (gs_traffic s) (gs_keys s) (gs_route_policies s) (Some (gs_catalog s)))
  else None.

(** ** Key sets *)

Section keys.
Variable (hash : string → string) (base64_decode : string → option string).

Definition from_static (configs : list ApiKeyConfig) : list Credential :=
  (λ c, mkCredential (mkPrincipal None None [] (kc_id c) (kc_tenant_id c) (kc_project_id c)
     ["chat.completions"] ["xscope-demo"] 600 600000 0 0 false 0) (hash (kc_secret c)) None) <$> configs.

Fixpoint check_policies (seen : list (string * string * string)) (l : list RoutePolicy) : bool :=
  match l with
  | [] => true
  | p :: l =>
      let identity := (rt_tenant_id p, rt_project_id p, rt_model p) in
      (0 <? rt_revision p) && is_ok (spec_validate (rt_spec p))
      && negb (bool_decide (identity ∈ seen)) && check_policies (identity :: seen) l
  end.

Definition policies_of (s : GatewaySnapshot) (key : GatewayKey) : list RoutePolicy :=
  filter (λ p, rt_tenant_id p = gk_tenant_id key ∧ rt_project_id p = gk_project_id key)
    (sn_route_policies s).

Definition credential (s : GatewaySnapshot) (key : GatewayKey) : result SnapshotError Credential :=
  digest ← ok_or (base64_decode (gk_secret_hash key)) (InvalidDigest (gk_id key));
  require (str_len digest =? 32) (InvalidDigest (gk_id key)) ;;
  mret (mkCredential
    (mkPrincipal (sn_traffic s) (sn_catalog s) (policies_of s key) (gk_id key) (gk_tenant_id key)
       (gk_project_id key) (gk_scopes key) (gk_allowed_models key) (gk_rate_limit_rpm key)
       (gk_rate_limit_tpm key) (money_amount (gk_monthly_budget key))
       (money_amount (gk_current_month_spend key)) (gk_balance_enforced key)
       (money_amount (gk_available_balance key)))
    digest (gk_expires_at key)).

Fixpoint credentials (s : GatewaySnapshot) (l : list GatewayKey) : result SnapshotError (list Credential) :=
  match l with
  | [] => mret []
  | key :: l => c ← credential s key; rest ← credentials s l; mret (c :: rest)
  end.

Definition from_snapshot (s : GatewaySnapshot) : result SnapshotError (list Credential) :=
  require (match sn_catalog s with Some c => is_ok (CatalogSnapshot_validate c) | None => true end)
    InvalidCatalog ;;
  require (check_policies [] (sn_route_policies s)) InvalidRoutePolicy ;;
  credentials s (sn_keys s).

(** ** The dynamic key set *)

Record DynamicKeySet := mkKeySet {
  ks_traffic : Gate;
  ks_current : list Credential;
  ks_rate_windows : gmap string RateWindow }.

Definition key_set (configs : list ApiKeyConfig) : DynamicKeySet :=
  mkKeySet Gate_default (from_static configs) ∅.

Definition no_keys (k : DynamicKeySet) : bool := is_nil (ks_current k).
Definition has_catalog (k : DynamicKeySet) : bool :=
  match ks_current k with c :: _ => is_some (pn_catalog (cd_principal c)) | [] => false end.

Definition authenticate (now : Z) (authorization : option string) (k : DynamicKeySet) : option Principal :=
  header ← authorization;
  secret ← strip_prefix "Bearer " header;
  let candidate := hash secret in
  cd_principal <$> find (λ c, negb (expired_at (cd_expires_at c) now)
                              && str_eqb (cd_secret_hash c) candidate) (ks_current k).

(** [now] in seconds. *)
Definition check_rate_limit (now : Z) (p : Principal) (k : DynamicKeySet) : bool * DynamicKeySet :=
  let minute := Z.quot now 60 in
  let window := default (mkRateWindow 0 0) (ks_rate_windows k !! pn_api_key_id p) in
  let window := if rw_minute window =? minute then window else mkRateWindow minute 0 in
  let put w := mkKeySet (ks_traffic k) (ks_current k) (<[pn_api_key_id p := w]> (ks_rate_windows k)) in
  if pn_rate_limit_rpm p <=? rw_count window then (false, put window)
  else (true, put (mkRateWindow minute (rw_count window + 1))).

Section refresh.
Variable (is_uuid : string → bool) (session_id : string).

(** One round of [spawn_refresh] with what was fetched; the report that is
    sent, if any. *)
Definition refresh (fetched : option GatewaySnapshot) (fetched_at : Z) (k : DynamicKeySet)
    : option TrafficReport * DynamicKeySet :=
  match fetched with
  | None => (None, k)
  | Some snapshot =>
      match from_snapshot snapshot with
      | Err _ => (None, k)
      | Ok current =>
          match sn_traffic snapshot with
          | None => (report session_id (ks_traffic k), mkKeySet (ks_traffic k) current (ks_rate_windows k))
          | Some grant =>
              match install is_uuid session_id grant fetched_at (ks_traffic k) with
              | Err _ => (None, k)
              | Ok gate => (report session_id gate, mkKeySet gate current (ks_rate_windows k))
              end
          end
      end
  end.
End refresh.

(** ** What they accept *)

Lemma credential_Ok s key c : credential s key = Ok c →
  base64_decode (gk_secret_hash key) = Some (cd_secret_hash c) ∧ cd_expires_at c = gk_expires_at key ∧
  cd_principal c = mkPrincipal (sn_traffic s) (sn_catalog s) (policies_of s key) (gk_id key)
    (gk_tenant_id key) (gk_project_id key) (gk_scopes key) (gk_allowed_models key)
    (gk_rate_limit_rpm key) (gk_rate_limit_tpm key) (money_amount (gk_monthly_budget key))
    (money_amount (gk_current_month_spend key)) (gk_balance_enforced key)
    (money_amount (gk_available_balance key)).
Proof.
  unfold credential. intros (digest & Hd%ok_or_Ok & Hrun)%result_bind_Ok.
  apply require_bind_Ok in Hrun as [_ [= <-]]. done.
Qed.

Lemma credentials_Ok s l cs : credentials s l = Ok cs → Forall2 (λ key c, credential s key = Ok c) l cs.
Proof.
  revert cs. induction l as [|key l IH]; intros cs; simpl; [intros [= <-]; constructor|].
  intros (c & Hc & Hrun)%result_bind_Ok. apply result_bind_Ok in Hrun as (rest & Hr & [= <-]).
  constructor; [done|by apply IH].
Qed.

Lemma from_snapshot_Ok s cs : from_snapshot s = Ok cs →
  match sn_catalog s with Some c => is_ok (CatalogSnapshot_validate c) = true | None => True end ∧
  check_policies [] (sn_route_policies s) = true ∧
  Forall2 (λ key c, credential s key = Ok c) (sn_keys s) cs.
Proof.
  unfold from_snapshot. rewrite !require_bind_Ok. intros (Hc & Hp & Hk%credentials_Ok).
  destruct (sn_catalog s); done.
Qed.

Lemma authenticate_Some now authorization k p : authenticate now authorization k = Some p →
  ∃ secret c, authorization = Some ("Bearer " +:+ secret) ∧ c ∈ ks_current k ∧
    cd_secret_hash c = hash secret ∧ expired_at (cd_expires_at c) now = false ∧ p = cd_principal c.
Proof.
  unfold authenticate. intros (header & -> & Hrun)%bind_Some.
  apply bind_Some in Hrun as (secret & Hs%strip_prefix_Some & Hrun).
  apply fmap_Some in Hrun as (c & [Hin Hc]%find_some & ->).
  apply andb_true_iff in Hc as [He%negb_true_iff Hh%str_eqb_eq].
  exists secret, c. split; [congruence|]. split; [by apply list_elem_of_In|]. done.
Qed.
End keys.

(** ** What a snapshot tells *)

Section snapshot.
Context `{Calendar}.
Variable (hash : string → string) (base64 : string → string) (base64_decode : string → option string).
Hypothesis decode_encode : ∀ s, base64_decode (base64 s) = Some s.

(** A key of the snapshot is a row as it was read. *)
Definition key_of_row (row : ApiKeyRow) (key : GatewayKey) : Prop :=
  gk_id key = ak_id row ∧ gk_tenant_id key = ak_tenant_id row ∧ gk_project_id key = ak_project_id row ∧
  gk_secret_hash key = base64 (ak_secret_hash row) ∧ gk_scopes key = ak_scopes row ∧
  gk_allowed_models key = ak_allowed_models row ∧ gk_expires_at key = ak_expires_at row ∧
  gk_rate_limit_rpm key = ak_rate_limit_rpm row ∧ gk_rate_limit_tpm key = ak_rate_limit_tpm row ∧
  money_amount (gk_monthly_budget key) = ak_monthly_budget_amount row.

Lemma gateway_keys_Ok env rows d keys d' :
  gateway_keys base64 env rows d = Ok (keys, d') → Forall2 key_of_row rows keys.
Proof.
  revert d keys d'. induction rows as [|row rows IH]; intros d keys d' Hrun; simpl in Hrun.
  - tx_inv Hrun. constructor.
  - tx_inv Hrun. constructor; [|by eapply IH].
    unfold gateway_key in Htx. tx_inv Htx. done.
Qed.

Lemma gateway_snapshot_keys env d s d' :
  gateway_snapshot base64 env d = Ok (s, d') → Forall2 key_of_row (active_keys (env_now env) d) (gs_keys s).
Proof.
  intros Hrun. unfold gateway_snapshot in Hrun. tx_inv Hrun. by eapply gateway_keys_Ok.
Qed.

Lemma active_keys_elem now d row : row ∈ active_keys now d ↔
  (∃ id, api_keys d !! id = Some row) ∧ key_status (ak_revoked_at row) (ak_expires_at row) now = Active.
Proof.
  unfold active_keys. rewrite list_elem_of_filter, elem_of_order_by_text, list_elem_of_fmap. split.
  - intros [Hs ([id r] & -> & Hin%elem_of_map_to_list)]. split; [by exists id|done].
  - intros [[id Hid] Hs]. split; [done|]. exists (id, row). split; [done|]. by apply elem_of_map_to_list.
Qed.

(** A credential came from a row. *)
Lemma credential_row env d s d' snapshot cs :
  gateway_snapshot base64 env d = Ok (s, d') → received s = Some snapshot →
  from_snapshot base64_decode snapshot = Ok cs →
  Forall2 (λ row c, cd_secret_hash c = ak_secret_hash row ∧ cd_expires_at c = ak_expires_at row ∧
    pn_api_key_id (cd_principal c) = ak_id row ∧ pn_tenant_id (cd_principal c) = ak_tenant_id row ∧
    pn_project_id (cd_principal c) = ak_project_id row ∧ pn_scopes (cd_principal c) = ak_scopes row ∧
    pn_allowed_models (cd_principal c) = ak_allowed_models row ∧
    pn_rate_limit_rpm (cd_principal c) = ak_rate_limit_rpm row ∧
    pn_rate_limit_tpm (cd_principal c) = ak_rate_limit_tpm row ∧
    pn_monthly_budget_amount (cd_principal c) = ak_monthly_budget_amount row ∧
    pn_catalog (cd_principal c) = Some (gs_catalog s)) (active_keys (env_now env) d) cs.
Proof using Type decode_encode.
  intros Hs%gateway_snapshot_keys Hr (_ & _ & Hc)%from_snapshot_Ok.
  assert (sn_keys snapshot = gs_keys s ∧ sn_catalog snapshot = Some (gs_catalog s)) as [Ek Ec].
  { unfold received in Hr. destruct (forallb _ _); by simplify_eq. }
  rewrite Ek in Hc. clear Ek Hr. revert cs Hc Hs. generalize (active_keys (env_now env) d) (gs_keys s).
  intros rows keys cs Hc Hs. revert cs Hc. induction Hs as [|row key rows keys Hrow _ IH]; intros cs Hc.
  - apply Forall2_nil_inv_l in Hc as ->. constructor.
  - apply Forall2_cons_inv_l in Hc as (c & cs' & Hc & Hcs & ->). constructor; [|by apply IH].
    apply credential_Ok in Hc as (Hh & He & Hp).
    destruct Hrow as (R1 & R2 & R3 & R4 & R5 & R6 & R7 & R8 & R9 & R10).
    rewrite R4, decode_encode in Hh. rewrite Hp. simpl. rewrite He. by injection Hh as <-.
Qed.

(** C30: a gateway accepts exactly the keys of the control plane.  Once it
    runs the keys of a snapshot, a bearer text authenticates only as a key
    that the control plane had issued and neither revoked nor let expire when
    it took the snapshot, and that has not expired since; the caller acts
    with the tenant, project, scopes, models and limits of that key; and the
    secret of every such key authenticates. *)
Theorem snapshot_authenticates env d s d' snapshot cs k :
  gateway_snapshot base64 env d = Ok (s, d') → received s = Some snapshot →
  from_snapshot base64_decode snapshot = Ok cs → ks_current k = cs →
  (∀ now authorization p, authenticate hash now authorization k = Some p →
     ∃ secret id row, authorization = Some ("Bearer " +:+ secret) ∧
       api_keys d !! id = Some row ∧ ak_secret_hash row = hash secret ∧
       key_status (ak_revoked_at row) (ak_expires_at row) (env_now env) = Active ∧
       expired_at (ak_expires_at row) now = false ∧
       pn_api_key_id p = ak_id row ∧ pn_tenant_id p = ak_tenant_id row ∧
       pn_project_id p = ak_project_id row ∧ pn_scopes p = ak_scopes row ∧
       pn_allowed_models p = ak_allowed_models row ∧ pn_rate_limit_rpm p = ak_rate_limit_rpm row ∧
       pn_rate_limit_tpm p = ak_rate_limit_tpm row ∧
       pn_monthly_budget_amount p = ak_monthly_budget_amount row) ∧
  (∀ now secret id row, api_keys d !! id = Some row → ak_secret_hash row = hash secret →
     key_status (ak_revoked_at row) (ak_expires_at row) (env_now env) = Active →
     expired_at (ak_expires_at row) now = false →
     is_Some (authenticate hash now (Some ("Bearer " +:+ secret)) k)).
Proof using Type decode_encode.
  intros Hs Hr Hc <-. pose proof (credential_row _ _ _ _ _ _ Hs Hr Hc) as Hrows. split.
  - intros now authorization p (secret & c & -> & Hin & Hh & He & ->)%authenticate_Some.
    apply list_elem_of_lookup in Hin as [i Hi].
    destruct (Forall2_lookup_r _ _ _ _ _ Hrows Hi)
      as (row & Hrow & R1 & R2 & R3 & R4 & R5 & R6 & R7 & R8 & R9 & R10 & _).
    apply list_elem_of_lookup_2, active_keys_elem in Hrow as [[id Hid] Hact].
    exists secret, id, row. rewrite R2 in He. rewrite R1 in Hh. done.
  - intros now secret id row Hid Hh Hact He.
    assert (row ∈ active_keys (env_now env) d) as [i Hi]%list_elem_of_lookup
      by (apply active_keys_elem; split; [by exists id|done]).
    destruct (Forall2_lookup_l _ _ _ _ _ Hrows Hi) as (c & Hci & R1 & R2 & _).
    unfold authenticate, mbind, option_bind. rewrite strip_prefix_app.
    destruct (find _ (ks_current k)) as [c'|] eqn:Hf; [by eexists|].
    eapply List.find_none in Hf; [|by apply list_elem_of_In, list_elem_of_lookup_2 with i].
    rewrite R2, He, R1, Hh, str_eqb_refl in Hf. done.
Qed.
End snapshot.
