(* ===== verification/Stream.v ===== *)
(** * Stream: metering an answer without buffering it

    [crates/gateway/src/streaming.rs]: the usage of a streamed answer is read
    off its events as they pass.  The decoder of server-sent events and the
    parser of their documents belong to libraries; what the gateway relies on
    is that the decoder reads a stream the same however it is cut. *)

From S2P Require Import Prelude.
Local Open Scope string_scope.
Local Open Scope Z_scope.

(** ** The codec *)

Inductive SseEvent := Message (data : string) | Control.

Class SseCodec := {
  sse_decoder : Type;
  sse_fresh : sse_decoder;
  sse_next : sse_decoder → string → option (result string SseEvent) * sse_decoder * string;
  sse_clear : sse_decoder → sse_decoder;
  (* a number that is no integer is read as some other value *)
  parse_json : string → option Json }.

Class SseLaws `{SseCodec} := {
  sse_progress d b f d' b' : sse_next d b = (Some f, d', b') → (String.length b' < String.length b)%nat;
  sse_frame d a b f d' a' : sse_next d a = (Some f, d', a') → sse_next d (a +:+ b) = (Some f, d', a' +:+ b);
  sse_more d a b d' a' : sse_next d a = (None, d', a') → sse_next d (a +:+ b) = sse_next d' b }.

(** ** The usage of a completion *)

Record CompletionUsage := mkCompletion { cu_prompt_tokens : Z; cu_completion_tokens : Z }.
#[export] Instance CompletionUsage_eq_dec : EqDecision CompletionUsage.
Proof. solve_decision. Defined.

Definition json_u64 (j : Json) : option Z :=
  match j with JNum n => if (0 <=? n) && (n <=? u64_max) then Some n else None | _ => None end.

(** [Deserialize for CompletionUsage], which reads a sequence as well. *)
Definition json_completion_usage (j : Json) : option CompletionUsage :=
  match j with
  | JObj _ =>
      prompt ← json_u64 (json_get "prompt_tokens" j);
      completion ← json_u64 (json_get "completion_tokens" j);
      mret (mkCompletion prompt completion)
  | JArr [a; b] => prompt ← json_u64 a; completion ← json_u64 b; mret (mkCompletion prompt completion)
  | _ => None
  end.

#[global] Arguments json_completion_usage : simpl never.

(** [s.trim() == word], for a word without white space. *)
Fixpoint trims_to (word s : string) : bool :=
  match s with
  | EmptyString => false
  | String c s' =>
      (String.prefix word s && is_blank (String.substring (String.length word) (String.length s) s))
      || (is_blank (String c EmptyString) && trims_to word s')
      || match s' with
         | String d s'' =>
             (is_blank (String c (String d EmptyString)) && trims_to word s'')
             || match s'' with
                | String e s3 => is_blank (String c (String d (String e EmptyString))) && trims_to word s3
                | EmptyString => false
                end
         | EmptyString => false
         end
  end.

(** ** The meter *)

Section meter.
Context `{SseCodec}.

Record StreamMeter := mkMeter {
  sm_decoder : sse_decoder;
  sm_usage : option CompletionUsage;
  sm_done : bool;
  sm_invalid : bool }.

Definition StreamMeter_default : StreamMeter := mkMeter sse_fresh None false false.

Definition with_decoder (d : sse_decoder) (m : StreamMeter) : StreamMeter :=
  mkMeter d (sm_usage m) (sm_done m) (sm_invalid m).

(** The body of the loop of [decode], for a message. *)
Definition meter_event (data : string) (m : StreamMeter) : result string StreamMeter :=
  if sm_done m then Err "SSE event received after [DONE]"
  else if trims_to "[DONE]" data then
    Ok (mkMeter (sm_decoder m) (sm_usage m) true (sm_invalid m))
  else
    value ← ok_or (parse_json data) "invalid JSON in provider SSE event";
    require (bool_decide (json_get "error" value = JNull)) "provider returned an SSE error event" ;;
    match json_get "usage" value with
    | JNull => mret m
    | usage =>
        usage ← ok_or (json_completion_usage usage) "invalid usage in provider SSE event";
        require (match sm_usage m with Some previous => bool_decide (previous = usage) | None => true end)
          "conflicting final usage in provider SSE stream" ;;
        mret (mkMeter (sm_decoder m) (Some usage) (sm_done m) (sm_invalid m))
    end.

Fixpoint decode (fuel : nat) (buffer : string) (m : StreamMeter) : result string unit * StreamMeter :=
  match fuel with
  | O => (Ok tt, m)
  | S fuel =>
      match sse_next (sm_decoder m) buffer with
      | (None, d, _) => (Ok tt, with_decoder d m)
      | (Some frame, d, buffer) =>
          let m := with_decoder d m in
          match frame with
          | Err e => (Err e, m)
          | Ok Control => decode fuel buffer m
          | Ok (Message data) =>
              match meter_event data m with
              | Err e => (Err e, m)
              | Ok m => decode fuel buffer m
              end
          end
      end
  end.

Definition observe (bytes : string) (m : StreamMeter) : result string unit * StreamMeter :=
  if sm_invalid m then (Err "stream metering already failed", m)
  else
    let (r, m) := decode (S (String.length bytes)) bytes m in
    match r with
    | Ok _ => (r, m)
    | Err _ => (r, mkMeter (sse_clear (sm_decoder m)) None (sm_done m) true)
    end.

(** The chunks of an answer. *)
Definition observe_all (chunks : list string) (m : StreamMeter) : StreamMeter :=
  foldl (λ m chunk, (observe chunk m).2) m chunks.

(** ** The reference: what a whole stream says *)

(** The frames of a stream. *)
Fixpoint frames (fuel : nat) (d : sse_decoder) (buffer : string) : list (result string SseEvent) :=
  match fuel with
  | O => []
  | S fuel =>
      match sse_next d buffer with
      | (None, _, _) => []
      | (Some frame, d, buffer) => frame :: frames fuel d buffer
      end
  end.

Definition stream_frames (stream : string) : list (result string SseEvent) :=
  frames (S (String.length stream)) sse_fresh stream.

(** What a message reports: nothing that counts, the end, or a usage. *)
Inductive Report := Silent | Done | Usage (u : CompletionUsage) | Broken.
Definition message_report (data : string) : Report :=
  if trims_to "[DONE]" data then Done
  else match parse_json data with
       | None => Broken
       | Some value =>
           if bool_decide (json_get "error" value ≠ JNull) then Broken
           else match json_get "usage" value with
                | JNull => Silent
                | usage => from_option Usage Broken (json_completion_usage usage)
                end
       end.
Definition frame_report (frame : result string SseEvent) : Report :=
  match frame with
  | Err _ => Broken
  | Ok Control => Silent
  | Ok (Message data) => message_report data
  end.
Definition is_message (frame : result string SseEvent) : bool :=
  match frame with Ok (Message _) => true | _ => false end.

(** A stream that can be billed: nothing is broken, no message follows the
    end, and every usage reported is the same. *)
Record sound (l : list (result string SseEvent)) : Prop := {
  so_read f : f ∈ l → frame_report f ≠ Broken;
  so_end l1 l2 f g : l = (l1 ++ f :: l2)%list → frame_report f = Done → g ∈ l2 → is_message g = false;
  so_usage f g u v : f ∈ l → g ∈ l → frame_report f = Usage u → frame_report g = Usage v → u = v }.

(** ** What the meter keeps of the frames *)

(** Reading frame by frame; [None] when the stream is given up. *)
Definition scan_frame (s : option (option CompletionUsage * bool)) (f : result string SseEvent)
    : option (option CompletionUsage * bool) :=
  '(usage, finished) ← s;
  if is_message f && finished then None
  else match frame_report f with
       | Silent => Some (usage, finished)
       | Done => Some (usage, true)
       | Usage u => if decide (usage = None ∨ usage = Some u) then Some (Some u, finished) else None
       | Broken => None
       end.
Definition scan (l : list (result string SseEvent)) (s : option CompletionUsage * bool)
    : option (option CompletionUsage * bool) := foldl scan_frame (Some s) l.

Lemma scan_None l : foldl scan_frame None l = None.
Proof. by induction l. Qed.

(** What a meter reports of itself. *)
Definition summary (m : StreamMeter) : option CompletionUsage * bool := (sm_usage m, sm_done m).

Lemma meter_event_scan data m :
  (summary <$> (match meter_event data m with Ok m => Some m | Err _ => None end))
    = scan_frame (Some (summary m)) (Ok (Message data)).
Proof.
  unfold meter_event, scan_frame, summary. simpl. destruct (sm_done m) eqn:Hd; [done|]. simpl.
  unfold message_report. destruct (trims_to "[DONE]" data); [done|].
  destruct (parse_json data) as [value|]; [|done]. simpl.
  destruct (decide (json_get "error" value = JNull)) as [He|He].
  2: { by rewrite (bool_decide_eq_false_2 (_ = _)), (bool_decide_eq_true_2 (_ ≠ _)). }
  rewrite (bool_decide_eq_true_2 (_ = _)), (bool_decide_eq_false_2 (_ ≠ _)) by (rewrite ?He; tauto).
  simpl. destruct (json_get "usage" value); simpl; [by rewrite Hd|try done..];
    (destruct (json_completion_usage _) as [u|]; simpl; [|done]);
    destruct (sm_usage m) as [v|]; simpl; repeat case_bool_decide; repeat case_decide; simpl;
    rewrite ?Hd; naive_solver.
Qed.

Lemma meter_event_kept data m m' : meter_event data m = Ok m' →
  sm_decoder m' = sm_decoder m ∧ sm_invalid m' = sm_invalid m.
Proof.
  unfold meter_event. destruct (sm_done m); [done|]. destruct (trims_to _ _); [by intros [= <-]|].
  intros (value & _ & Hrun)%result_bind_Ok. apply require_bind_Ok in Hrun as [_ Hrun].
  destruct (json_get _ _); [by injection Hrun as <-|..];
    apply result_bind_Ok in Hrun as (u & _ & Hrun); apply require_bind_Ok in Hrun as [_ [= <-]]; done.
Qed.

Lemma decode_scan fuel b m :
  match decode fuel b m with
  | (Ok _, m') => scan (frames fuel (sm_decoder m) b) (summary m) = Some (summary m') ∧
      sm_invalid m' = sm_invalid m
  | (Err _, m') => scan (frames fuel (sm_decoder m) b) (summary m) = None
  end.
Proof.
  revert b m. induction fuel as [|fuel IH]; intros b m; simpl; [done|].
  destruct (sse_next (sm_decoder m) b) as [[[f|] d] b'] eqn:E; [|done].
  destruct f as [[data|]|e]; simpl; [| |apply scan_None].
  - pose proof (meter_event_scan data (with_decoder d m)) as Hm.
    destruct (meter_event data (with_decoder d m)) as [m1|e] eqn:Hev; simpl in Hm.
    + destruct (meter_event_kept _ _ _ Hev) as [Ed Ei]. simpl in Ed, Ei. specialize (IH b' m1).
      rewrite Ed, Ei in IH. unfold scan in *. simpl. change (summary (with_decoder d m)) with (summary m) in Hm.
      rewrite <- Hm. exact IH.
    + unfold scan. simpl. change (summary (with_decoder d m)) with (summary m) in Hm.
      rewrite <- Hm. apply scan_None.
  - exact (IH b' (with_decoder d m)).
Qed.

(** ** What can be billed *)

Lemma sound_snoc l f : sound (l ++ [f])%list ↔
  sound l ∧ frame_report f ≠ Broken ∧ (∀ g, g ∈ l → frame_report g = Done → is_message f = false) ∧
  (∀ g u v, g ∈ l → frame_report g = Usage u → frame_report f = Usage v → u = v).
Proof.
  split.
  - intros [S1 S2 S3]. split_and!; [split|..].
    + intros g Hg. apply S1. set_solver.
    + intros l1 l2 g h -> Hd Hh. apply (S2 l1 (l2 ++ [f])%list g); [by rewrite <- app_assoc|done|set_solver].
    + intros g h u v Hg Hh. apply S3; set_solver.
    + apply S1. set_solver.
    + intros g Hg Hd. apply list_elem_of_split in Hg as (l1 & l2 & ->).
      apply (S2 l1 (l2 ++ [f])%list g); [by rewrite <- app_assoc|done|set_solver].
    + intros g u v Hg. apply (S3 g f u v); set_solver.
  - intros ([S1 S2 S3] & F1 & F2 & F3). split.
    + intros g [Hg|Hg%list_elem_of_singleton]%elem_of_app; [by apply S1|by subst].
    + intros l1 l2 g h El Hd Hh. destruct l2 as [|x l2] using rev_ind; [by apply elem_of_nil in Hh|].
      clear IHl2. rewrite app_comm_cons, app_assoc in El. apply app_inj_tail in El as [El <-].
      apply elem_of_app in Hh as [Hh|Hh%list_elem_of_singleton]; [by eapply S2|]. subst h.
      apply (F2 g); [rewrite El; set_solver|done].
    + intros g h u v [Hg|Hg%list_elem_of_singleton]%elem_of_app [Hh|Hh%list_elem_of_singleton]%elem_of_app Eg Eh.
      * exact (S3 _ _ _ _ Hg Hh Eg Eh).
      * rewrite Hh in Eh. exact (F3 _ _ _ Hg Eg Eh).
      * rewrite Hg in Eg. symmetry. exact (F3 _ _ _ Hh Eh Eg).
      * congruence.
Qed.

Lemma report_snoc l f r : (∃ g, g ∈ (l ++ [f])%list ∧ frame_report g = r) ↔
  (∃ g, g ∈ l ∧ frame_report g = r) ∨ frame_report f = r.
Proof. setoid_rewrite elem_of_app. setoid_rewrite list_elem_of_singleton. naive_solver. Qed.

(** The reading of sound frames, and no other, succeeds. *)
Lemma scan_sound l :
  (∀ r, scan l (None, false) = Some r → sound l ∧
     (r.2 = true ↔ ∃ f, f ∈ l ∧ frame_report f = Done) ∧
     (∀ u, r.1 = Some u ↔ ∃ f, f ∈ l ∧ frame_report f = Usage u)) ∧
  (sound l → is_Some (scan l (None, false))).
Proof.
  induction l as [|f l [IH1 IH2]] using rev_ind.
  { split; [|intros _; by eexists]. intros r [= <-]. split_and!; [split|..]; simpl.
    - intros f Hf. by apply elem_of_nil in Hf.
    - intros [|? l1] l2 f g; done.
    - intros f g u v Hf. by apply elem_of_nil in Hf.
    - split; [done|]. intros (f & Hf & _). by apply elem_of_nil in Hf.
    - intros u. split; [done|]. intros (f & Hf & _). by apply elem_of_nil in Hf. }
  unfold scan in *. rewrite foldl_app. simpl. setoid_rewrite report_snoc.
  destruct (foldl scan_frame (Some (None, false)) l) as [[usage finished]|] eqn:E.
  - destruct (IH1 _ eq_refl) as (Hs & Hd & Hu). simpl in Hd, Hu. simpl. split.
    + intros r. destruct (is_message f && finished) eqn:Hm; [done|].
      assert (∀ g, g ∈ l → frame_report g = Done → is_message f = false) as Hend.
      { intros g Hg Hdone. destruct finished; [by destruct (is_message f)|].
        assert (false = true) by (apply Hd; by exists g). done. }
      destruct (frame_report f) as [| |u|] eqn:Hf; [..|done].
      * intros [= <-]. rewrite sound_snoc, Hf. split_and!; try done; simpl; [rewrite Hd|intros u; rewrite Hu]; intuition congruence.
      * intros [= <-]. rewrite sound_snoc, Hf. split_and!; try done; simpl; [by tauto|]. intros u. rewrite Hu. intuition congruence.
      * case_decide as Hcase; [|done]. intros [= <-]. rewrite sound_snoc, Hf. split_and!; try done; simpl.
        -- intros g v w Hg Hv [= <-].
           assert (usage = Some v) by (apply Hu; by exists g). destruct Hcase; congruence.
        -- rewrite Hd. intuition congruence.
        -- intros v. rewrite <- Hu. destruct Hcase as [->| ->]; intuition congruence.
    + intros (_ & F1 & F2 & F3)%sound_snoc. destruct (is_message f && finished) eqn:Hm.
      * apply andb_true_iff in Hm as [Hm ->]. destruct (proj1 Hd eq_refl) as (g & Hg & Hdone).
        specialize (F2 g Hg Hdone). congruence.
      * destruct (frame_report f) as [| |u|] eqn:Hf; [by eexists..| |done].
        rewrite decide_True; [by eexists|]. destruct usage as [v|]; [|by left]. right.
        destruct (proj1 (Hu v) eq_refl) as (g & Hg & Hv). f_equal. by eapply F3.
  - simpl. split; [done|]. intros (Hs & _)%sound_snoc. by apply IH2 in Hs as [? ?].
Qed.
End meter.

(** ** The cuts do not matter *)

Section laws.
Context `{SseLaws}.
#[local] Set Default Proof Using "Type*".

Lemma decode_fuel n b m : (String.length b < n)%nat →
  decode n b m = decode (S (String.length b)) b m.
Proof.
  revert b m. induction n as [n IH] using lt_wf_ind. intros b m Hn.
  destruct n as [|n]; [lia|]. simpl. destruct (sse_next (sm_decoder m) b) as [[[f|] d] b'] eqn:E; [|done].
  apply sse_progress in E. destruct f as [[data|]|]; [|rewrite (IH n), (IH (String.length b)) by lia; done|done].
  destruct (meter_event data (with_decoder d m)); [|done]. rewrite (IH n), (IH (String.length b)) by lia. done.
Qed.

Lemma length_append a b : String.length (a +:+ b) = (String.length a + String.length b)%nat.
Proof. induction a as [|c a IH]; simpl; [done|by rewrite IH]. Qed.

(** A stream that is cut in two. *)
Lemma decode_app a b m :
  decode (S (String.length (a +:+ b))) (a +:+ b) m =
  match decode (S (String.length a)) a m with
  | (Ok _, m) => decode (S (String.length b)) b m
  | failed => failed
  end.
Proof.
  remember (String.length a) as n eqn:En. revert a m En. induction n as [n IH] using lt_wf_ind.
  intros a m ->. simpl. destruct (sse_next (sm_decoder m) a) as [[[f|] d] a'] eqn:E.
  - rewrite (sse_frame _ _ b _ _ _ E). apply sse_progress in E as Hlen.
    assert (∀ m', decode (String.length (a +:+ b)) (a' +:+ b) m' =
      match decode (String.length a) a' m' with
      | (Ok _, m) => decode (S (String.length b)) b m | failed => failed end) as Hrest.
    { intros m'. rewrite decode_fuel by (rewrite !length_append; lia).
      rewrite (decode_fuel (String.length a)) by lia. apply (IH (String.length a')); done. }
    destruct f as [[data|]|]; [|apply Hrest|done].
    destruct (meter_event data (with_decoder d m)); [apply Hrest|done].
  - rewrite (sse_more _ _ b _ _ E). simpl. destruct (sse_next d b) as [[[f|] d'] b'] eqn:E'; [|done].
    apply sse_progress in E' as Hlen.
    assert (∀ m', decode (String.length (a +:+ b)) b' m' = decode (String.length b) b' m') as Hrest.
    { intros m'. rewrite decode_fuel by (rewrite length_append; lia). by rewrite (decode_fuel (String.length b)) by lia. }
    destruct f as [[data|]|]; [|apply Hrest|done].
    change (with_decoder d' (with_decoder d m)) with (with_decoder d' m).
    destruct (meter_event data (with_decoder d' m)); [apply Hrest|done].
Qed.

Lemma observe_app a b m : sm_invalid m = false →
  (observe b (observe a m).2).2 = (observe (a +:+ b) m).2.
Proof.
  intros Hm. unfold observe at 2 3. rewrite Hm, decode_app.
  pose proof (decode_scan (S (String.length a)) a m) as Hs.
  destruct (decode (S (String.length a)) a m) as [[[]|e] m']; [|done].
  destruct Hs as [_ Hi]. unfold observe. simpl. by rewrite Hi, Hm.
Qed.

Lemma observe_stuck m chunks : sm_invalid m = true → observe_all chunks m = m.
Proof.
  intros Hm. induction chunks as [|c chunks IH]; [done|]. simpl. unfold observe at 1. by rewrite Hm.
Qed.

Definition joined (chunks : list string) : string := foldr String.append EmptyString chunks.

Lemma append_nil_r a : a +:+ EmptyString = a.
Proof. induction a as [|c a IH]; [done|]. change (String c (a +:+ EmptyString) = String c a). congruence. Qed.

Lemma observe_joined chunks a m : sm_invalid m = false →
  observe_all (a :: chunks) m = (observe (a +:+ joined chunks) m).2.
Proof.
  revert a m. induction chunks as [|c chunks IH]; intros a m Hm; [unfold joined; simpl foldr; by rewrite append_nil_r|].
  rewrite <- (observe_app a (joined (c :: chunks))) by done.
  change (observe_all (a :: c :: chunks) m) with (observe_all (c :: chunks) (observe a m).2).
  destruct (sm_invalid (observe a m).2) eqn:Hi; [|by apply IH].
  rewrite observe_stuck by done. unfold observe at 2. by rewrite Hi.
Qed.

(** C31: an answer is metered by what it says, not by how it arrives.  However
    the network cuts a streamed answer into chunks, the meter accepts it if
    and only if all of it can be billed (every event can be read, none
    follows the end marker, and all the usages reported are the same); its
    usage is the one that was reported, and none when the answer is not
    accepted; and it knows whether the answer came to its end. *)
Theorem metering_exact a chunks :
  let m := observe_all (a :: chunks) StreamMeter_default in
  let l := stream_frames (a +:+ joined chunks) in
  (sm_invalid m = false ↔ sound l) ∧
  (∀ u, sm_usage m = Some u ↔ sound l ∧ ∃ f, f ∈ l ∧ frame_report f = Usage u) ∧
  (sound l → (sm_done m = true ↔ ∃ f, f ∈ l ∧ frame_report f = Done)).
Proof.
  intros m l. unfold m. rewrite observe_joined by done. unfold observe. change (sm_invalid StreamMeter_default) with false. cbv iota.
  pose proof (decode_scan (S (String.length (a +:+ joined chunks))) (a +:+ joined chunks)
    StreamMeter_default) as Hs.
  change (frames _ _ _) with l in Hs. destruct (scan_sound l) as [H1 H2].
  destruct (decode _ _ _) as [[[]|e] m']; simpl.
  - destruct Hs as [Hs Hi]. destruct (H1 _ Hs) as (Hl & Hd & Hu). simpl in Hd, Hu.
    split; [by rewrite Hi|]. split; [|done]. intros u. rewrite Hu. naive_solver.
  - assert (¬ sound l) as Hno by (intros [r Hr]%H2; unfold summary in Hs; simpl in Hs; congruence).
    split; [done|]. split; [|done]. intros u. split; [done|by intros [? _]].
Qed.
End laws.

(** ** A codec of lines *)

Definition newline : string := String (ascii_of_nat 10) EmptyString.

Fixpoint split_line (s : string) : option (string * string) :=
  match s with
  | EmptyString => None
  | String c s =>
      if Ascii.eqb c (ascii_of_nat 10) then Some (EmptyString, s)
      else '(line, rest) ← split_line s; Some (String c line, rest)
  end.

Definition line_frame (line : string) : result string SseEvent :=
  if String.prefix "data: " line then Ok (Message (String.substring 6 (String.length line) line)) else Ok Control.

(** One line is one event; the words [two] and [three] are documents. *)
#[export] Instance line_codec : SseCodec := {|
  sse_decoder := string;
  sse_fresh := EmptyString;
  sse_next d b := match split_line b with
                  | Some (line, rest) => (Some (line_frame (d +:+ line)), EmptyString, rest)
                  | None => (None, d +:+ b, EmptyString)
                  end;
  sse_clear _ := EmptyString;
  parse_json s :=
    if str_eqb s "two" then Some (JObj [("usage", JObj [("prompt_tokens", JNum 2); ("completion_tokens", JNum 3)])])
    else if str_eqb s "three" then Some (JObj [("usage", JArr [JNum 3; JNum 3])])
    else if str_eqb s "text" then Some (JObj [("usage", JNull)]) else None |}.

Lemma split_line_app a b : split_line (a +:+ b) =
  match split_line a with
  | Some (line, rest) => Some (line, rest +:+ b)
  | None => '(line, rest) ← split_line b; Some (a +:+ line, rest)
  end.
Proof.
  induction a as [|c a IH].
  - change (EmptyString +:+ b) with b. simpl. by destruct (split_line b) as [[]|].
  - change (String c a +:+ b) with (String c (a +:+ b)). simpl. destruct (Ascii.eqb c _); [done|].
    rewrite IH. destruct (split_line a) as [[]|]; [done|]. by destruct (split_line b) as [[]|].
Qed.

Lemma append_assoc a b c : (a +:+ b) +:+ c = a +:+ (b +:+ c).
Proof.
  induction a as [|x a IH]; [done|]. change (String x ((a +:+ b) +:+ c) = String x (a +:+ (b +:+ c))).
  congruence.
Qed.

#[export] Instance line_laws : SseLaws.
Proof.
  split; simpl; intros d.
  - intros b. destruct (split_line b) as [[line rest]|] eqn:E; [|done]. intros f d' b' [= _ _ <-].
    revert line E. induction b as [|c b IH]; intros line; simpl; [done|].
    destruct (Ascii.eqb c _); [intros [= _ <-]; lia|].
    destruct (split_line b) as [[line' rest']|] eqn:E'; [|done]. intros [= _ ->].
    specialize (IH _ eq_refl). lia.
  - intros a b f d' a'. rewrite split_line_app. destruct (split_line a) as [[]|]; [|done].
    by intros [= <- <- <-].
  - intros a b d' a'. rewrite split_line_app. destruct (split_line a) as [[]|]; [done|].
    intros [= <- _]. destruct (split_line b) as [[]|]; simpl; by rewrite append_assoc.
Qed.

(** An answer in pieces; one that changes its mind. *)
Example pieces_metered :
  let m := observe_all ["data: te"; "xt" +:+ newline +:+ "data: tw"; "o" +:+ newline; "data: [DONE] " +:+ newline]
             StreamMeter_default in
  (sm_usage m, sm_done m, sm_invalid m) = (Some (mkCompletion 2 3), true, false).
Proof. vm_compute. reflexivity. Qed.
Example conflict_refused :
  let m := observe_all ["data: two" +:+ newline; "data: three" +:+ newline; "data: two" +:+ newline]
             StreamMeter_default in
  (sm_usage m, sm_invalid m) = (None, true).
Proof. vm_compute. reflexivity. Qed.

Lemma metering_exact_witness :
  sound (stream_frames ("data: t" +:+ joined ["wo"; newline])).
Proof.
  apply (proj1 (metering_exact "data: t" ["wo"; newline])). vm_compute. reflexivity.
Defined.
