(* ===== verification/Quota.v ===== *)
(** * Quota: the rate limits that the gateways share

    [crates/gateway/src/quota.rs]: two scripts that run in one hash store, the
    worker that retries them once when an answer is lost, and an abstract
    meter of one key and minute that the scripts implement.  The store is a
    service; [HashStore] has its commands with their documented laws.  A
    number of the hash stands for its decimal text; the scripts compute with
    numbers below two to the 53, which their language keeps exactly. *)

From stdpp Require Import pretty.
From S2P Require Import Prelude.
Local Open Scope Z_scope.

(** ** The store *)

(** The commands of the store: the hash of a key, and when the key expires. *)
Class HashStore (St : Type) := {
  server_time : St → Z;
  hget : St → string → string → option Z;
  hash_exists : St → string → bool;
  hset : string → string → Z → St → St;
  expire_at : string → Z → St → St;
  deadline : St → string → option Z;
  advance : Z → St → St }.

(** What is documented of them.  [advance] is time that passes. *)
Class HashStoreLaws (St : Type) `{HashStore St} := {
  hget_hset s k f v k' f' :
    hget (hset k f v s) k' f' = if decide (k = k' ∧ f = f') then Some v else hget s k' f';
  deadline_hset s k f v k' : deadline (hset k f v s) k' = deadline s k';
  time_hset s k f v : server_time (hset k f v s) = server_time s;
  hget_expire s k t k' f : server_time s < t → hget (expire_at k t s) k' f = hget s k' f;
  deadline_expire s k t k' : server_time s < t → hash_exists s k = true →
    deadline (expire_at k t s) k' = if decide (k = k') then Some t else deadline s k';
  time_expire s k t : server_time (expire_at k t s) = server_time s;
  exists_hget s k : hash_exists s k = true ↔ ∃ f, is_Some (hget s k f);
  time_advance s t : server_time (advance t s) = Z.max t (server_time s);
  hget_advance s t k f : hget (advance t s) k f =
    match deadline s k with
    | Some e => if e <=? Z.max t (server_time s) then None else hget s k f
    | None => hget s k f
    end;
  deadline_advance s t k : deadline (advance t s) k =
    match deadline s k with
    | Some e => if e <=? Z.max t (server_time s) then None else Some e
    | None => None
    end }.

(** ** Commands *)

Inductive QuotaDenial := RequestsPerMinute | TokensPerMinute.

Record QuotaReservation := mkQuota { qr_key : string; qr_id : string; qr_reserved_tokens : Z }.

Inductive QuotaDecision := Allowed (r : QuotaReservation) | Denied (d : QuotaDenial).

Inductive QuotaError := Unavailable | Timeout | Redis (message : string).

Inductive Command :=
| ReserveQuota (key id : string) (expires_at rpm tpm tokens : Z)
| SettleQuota (r : QuotaReservation) (actual_tokens : Z).

Inductive CommandResult := ReservedResult (d : QuotaDecision) | SettledResult.

Definition reserved_field (id : string) : string := "r:" +:+ id.
Definition settled_field (id : string) : string := "s:" +:+ id.

Section scripts.
Context {St : Type} `{HashStore St}.

(** [RESERVE_SCRIPT], which the store runs in one step. *)
Definition reserve_script (key id : string) (rpm tpm requested expires : Z) (s : St)
    : result string (list Z) * St :=
  match hget s key (reserved_field id) with
  | Some prior =>
      if prior =? requested then (Ok [1; 0], s) else (Err "reservation payload conflict"%string, s)
  | None =>
      if expires <=? server_time s then (Err "quota window expired"%string, s)
      else
        let requests := default 0 (hget s key "requests") in
        let tokens := default 0 (hget s key "tokens") in
        if rpm <? requests + 1 then (Ok [0; 1; requests; tokens], s)
        else if tpm <? tokens + requested then (Ok [0; 2; requests; tokens], s)
        else
          (Ok [1; 0; requests + 1; tokens + requested],
           expire_at key expires (hset key (reserved_field id) requested
             (hset key "tokens" (tokens + requested) (hset key "requests" (requests + 1) s))))
  end.

(** [SETTLE_SCRIPT] *)
Definition settle_script (key id : string) (expected actual : Z) (s : St) : result string Z * St :=
  if negb (hash_exists s key) then (Ok 0, s)
  else match hget s key (reserved_field id) with
  | None => (Err "unknown or conflicting reservation"%string, s)
  | Some reserved =>
      if negb (reserved =? expected) then (Err "unknown or conflicting reservation"%string, s)
      else match hget s key (settled_field id) with
      | Some prior =>
          if prior =? actual then (Ok 0, s) else (Err "settlement payload conflict"%string, s)
      | None =>
          let tokens := default 0 (hget s key "tokens") in
          let tokens := Z.max 0 (tokens - reserved + actual) in
          (Ok tokens, hset key (settled_field id) actual (hset key "tokens" tokens s))
      end
  end.

Definition execute (c : Command) (s : St) : result QuotaError CommandResult * St :=
  match c with
  | ReserveQuota key id expires rpm tpm tokens =>
      let (r, s) := reserve_script key id rpm tpm tokens expires s in
      (match r with
       | Ok (1 :: _) => Ok (ReservedResult (Allowed (mkQuota key id tokens)))
       | Ok (0 :: 1 :: _) => Ok (ReservedResult (Denied RequestsPerMinute))
       | Ok (0 :: 2 :: _) => Ok (ReservedResult (Denied TokensPerMinute))
       | Ok _ => Err (Redis "unexpected Redis script response")
       | Err e => Err (Redis e)
       end, s)
  | SettleQuota r actual =>
      let (v, s) := settle_script (qr_key r) (qr_id r) (qr_reserved_tokens r) actual s in
      (match v with Ok _ => Ok SettledResult | Err e => Err (Redis e) end, s)
  end.

(** ** The worker

    An attempt reaches the store and is answered, or it is answered and the
    answer is lost, or it does not reach the store; before it, other commands
    and time may go by. *)
Inductive wire := Answered | AnswerLost | NotSent.
Inductive action := Elapse (t : Z) | Perform (c : Command).

Definition act (s : St) (a : action) : St :=
  match a with Elapse t => advance t s | Perform c => (execute c s).2 end.

Record attempt := mkAttempt { at_before : list action; at_wire : wire; at_cancelled : bool }.

Definition try_once (a : attempt) (c : Command) (s : St) : result QuotaError CommandResult * St :=
  let s := foldl act s (at_before a) in
  match at_wire a with
  | Answered => execute c s
  | AnswerLost => (Err (Redis "no answer"), (execute c s).2)
  | NotSent => (Err (Redis "no connection"), s)
  end.

(** The loop of the worker over its attempts, of which there are two; [last] is the outcome so far. *)
Fixpoint worker (last : result QuotaError CommandResult) (l : list attempt) (c : Command) (s : St)
    : result QuotaError CommandResult * St :=
  match l with
  | [] => (last, s)
  | a :: l =>
      if at_cancelled a then (last, s)
      else
        let (r, s) := try_once a c s in
        if is_ok r then (r, s) else worker r l c s
  end.

(** ** The manager

    The channel to the worker may be full, and the caller gives up after two
    seconds, whatever the worker does then. *)
Inductive channel := Full | GivenUp | Replied.

Definition quota_key (api_key : string) (minute : Z) : string :=
  "xscope:quota:{" +:+ api_key +:+ "}:" +:+ pretty minute.

Definition send (ch : channel) (l : list attempt) (c : Command) (s : St)
    : result QuotaError CommandResult * St :=
  match ch with
  | Full => (Err Unavailable, s)
  | GivenUp => (Err Timeout, (worker (Err Unavailable) (take 2 l) c s).2)
  | Replied => worker (Err Unavailable) (take 2 l) c s
  end.

(** [QuotaManager::reserve]; [now] in seconds.  Without a store there is no
    decision. *)
Definition quota_reserve (distributed : bool) (ch : channel) (l : list attempt)
    (api_key id : string) (rpm tpm now requested : Z) (s : St)
    : result QuotaError (option QuotaDecision) * St :=
  if negb distributed then (Ok None, s)
  else
    let minute := now / 60 in
    let (r, s) := send ch l
      (ReserveQuota (quota_key api_key minute) id ((minute + 2) * 60) rpm tpm requested) s in
    (match r with
     | Ok (ReservedResult d) => Ok (Some d)
     | Ok SettledResult => Err Unavailable
     | Err e => Err e
     end, s).

(** [QuotaManager::settle] *)
Definition quota_settle (distributed : bool) (ch : channel) (l : list attempt)
    (r : QuotaReservation) (actual : Z) (s : St) : result QuotaError unit * St :=
  if negb distributed then (Ok tt, s)
  else
    let (v, s) := send ch l (SettleQuota r actual) s in
    (match v with
     | Ok SettledResult => Ok tt
     | Ok (ReservedResult _) => Err Unavailable
     | Err e => Err e
     end, s).
End scripts.

(** ** The meter of one key and minute *)

Record Charge := mkCharge { ch_reserved : Z; ch_actual : option Z }.
Abbreviation Window := (gmap string Charge).

(** What a request counts for: its estimate, then what it used. *)
Definition charge (c : Charge) : Z := default (ch_reserved c) (ch_actual c).
Definition used (w : Window) : Z := msum charge w.
(** What it counts for, as far as its estimate goes. *)
Definition estimated (c : Charge) : Z := Z.min (ch_reserved c) (charge c).

Definition meter (now : Z) (c : Command) (w : Window) : result QuotaError CommandResult * Window :=
  match c with
  | ReserveQuota key id expires rpm tpm tokens =>
      let yes := Ok (ReservedResult (Allowed (mkQuota key id tokens))) in
      match w !! id with
      | Some ch =>
          (if ch_reserved ch =? tokens then yes else Err (Redis "reservation payload conflict"), w)
      | None =>
          if expires <=? now then (Err (Redis "quota window expired"), w)
          else if rpm <? Z.of_nat (size w) + 1 then (Ok (ReservedResult (Denied RequestsPerMinute)), w)
          else if tpm <? used w + tokens then (Ok (ReservedResult (Denied TokensPerMinute)), w)
          else (yes, <[id := mkCharge tokens None]> w)
      end
  | SettleQuota r actual =>
      if decide (w = ∅) then (Ok SettledResult, w)
      else match w !! qr_id r with
      | None => (Err (Redis "unknown or conflicting reservation"), w)
      | Some ch =>
          if negb (ch_reserved ch =? qr_reserved_tokens r)
          then (Err (Redis "unknown or conflicting reservation"), w)
          else match ch_actual ch with
          | Some prior =>
              (if prior =? actual then Ok SettledResult
               else Err (Redis "settlement payload conflict"), w)
          | None => (Ok SettledResult, <[qr_id r := mkCharge (ch_reserved ch) (Some actual)]> w)
          end
      end
  end.

Definition command_key (c : Command) : string :=
  match c with ReserveQuota key _ _ _ _ _ => key | SettleQuota r _ => qr_key r end.

(** A command on a key that expires at [e], under limits [R] and [T]. *)
Definition within (e R T : Z) (c : Command) : Prop :=
  match c with
  | ReserveQuota _ _ expires rpm tpm tokens => expires = e ∧ rpm ≤ R ∧ tpm ≤ T ∧ 0 ≤ tokens
  | SettleQuota _ actual => 0 ≤ actual
  end.

(** What holds of every window. *)
Record metered (R T : Z) (w : Window) : Prop := {
  mw_positive id c : w !! id = Some c → 0 ≤ ch_reserved c ∧ 0 ≤ charge c;
  mw_requests : Z.of_nat (size w) ≤ Z.max 0 R;
  mw_tokens : msum estimated w ≤ Z.max 0 T }.

Lemma metered_empty R T : metered R T ∅.
Proof. split; [intros id c []%lookup_empty_Some| |]; rewrite ?map_size_empty, ?msum_empty; lia. Qed.

Lemma meter_metered e R T now c w : within e R T c → metered R T w → metered R T (meter now c w).2.
Proof.
  intros Hc [P1 P2 P3]. destruct c as [key id expires rpm tpm tokens|r actual]; simpl in *.
  - destruct (w !! id) eqn:Hid; [done|]. destruct (expires <=? now); [done|].
    destruct (Z.ltb_spec rpm (Z.of_nat (size w) + 1)); [done|].
    destruct (Z.ltb_spec tpm (used w + tokens)); [done|]. simpl.
    assert (msum estimated w ≤ used w) as Hle.
    { unfold msum, used, msum. apply zsum_le. intros x _. unfold estimated. lia. }
    split.
    + intros i ch [[_ <-]|[_ Hi]]%lookup_insert_Some; [unfold charge; simpl; lia|by eapply P1].
    + rewrite map_size_insert_None by done. lia.
    + rewrite msum_insert_new by done. unfold estimated at 2, charge. simpl. lia.
  - destruct (decide (w = ∅)); [done|]. destruct (w !! qr_id r) as [ch|] eqn:Hid; [|done].
    destruct (ch_reserved ch =? qr_reserved_tokens r); [|done]. simpl.
    destruct (ch_actual ch) eqn:Ha; [done|]. simpl. destruct (P1 _ _ Hid) as [Q1 Q2]. split.
    + intros i x [[_ <-]|[_ Hi]]%lookup_insert_Some; [unfold charge; simpl; lia|by eapply P1].
    + rewrite map_size_insert_Some by done. done.
    + rewrite (msum_insert_old _ _ _ _ _ Hid). unfold estimated, charge in *.
      rewrite Ha in *. simpl in *. lia.
Qed.

(** ** The scripts implement the meter *)

Section refinement.
#[local] Set Default Proof Using "Type*".
Context {St : Type} `{HashStoreLaws St}.

(** The hash of a key that expires at [e] shows a window. *)
Record shows (e : Z) (key : string) (s : St) (w : Window) : Prop := {
  sh_reserved id : hget s key (reserved_field id) = ch_reserved <$> w !! id;
  sh_settled id : hget s key (settled_field id) = w !! id ≫= ch_actual;
  sh_requests : default 0 (hget s key "requests") = Z.of_nat (size w);
  sh_tokens : default 0 (hget s key "tokens") = used w;
  sh_blank f : w = ∅ → hget s key f = None;
  sh_deadline : w ≠ ∅ → deadline s key = Some e }.

Lemma shows_exists e key s w : shows e key s w → hash_exists s key = negb (bool_decide (w = ∅)).
Proof.
  intros Hs. apply eq_true_iff_eq. rewrite exists_hget, negb_true_iff, bool_decide_eq_false. split.
  - intros [f [v Hf]] ->. by rewrite (sh_blank _ _ _ _ Hs) in Hf.
  - intros (id & c & Hc)%map_choose. exists (reserved_field id).
    rewrite (sh_reserved _ _ _ _ Hs), Hc. by eexists.
Qed.

Lemma reserved_ne_settled i j : reserved_field i ≠ settled_field j.
Proof. done. Qed.
Lemma reserved_field_inj i j : reserved_field i = reserved_field j ↔ i = j.
Proof. split; [intros E; by injection E|by intros ->]. Qed.
Lemma settled_field_inj i j : settled_field i = settled_field j ↔ i = j.
Proof. split; [intros E; by injection E|by intros ->]. Qed.

Lemma hget_same s k f v : hget (hset k f v s) k f = Some v.
Proof. rewrite hget_hset. by rewrite decide_True. Qed.
Lemma hget_other s k f v k' f' : (k, f) ≠ (k', f') → hget (hset k f v s) k' f' = hget s k' f'.
Proof. intros Hne. rewrite hget_hset, decide_False; [done|]. intros [-> ->]. done. Qed.

(** Reads of a hash that was written to, at known fields. *)
Ltac read_hash := repeat first
  [ rewrite hget_same
  | rewrite hget_other by (first [done | intros E; injection E; done | congruence]) ].

Lemma shows_add e key s w id tokens :
  shows e key s w → server_time s < e → w !! id = None →
  shows e key (expire_at key e (hset key (reserved_field id) tokens
    (hset key "tokens" (used w + tokens) (hset key "requests" (Z.of_nat (size w) + 1) s))))
    (<[id := mkCharge tokens None]> w).
Proof.
  intros Hs Ht Hid.
  split; rewrite ?hget_expire by (by rewrite !time_hset); try intros i;
    rewrite ?hget_expire by (by rewrite !time_hset).
  - destruct (decide (id = i)) as [<-|Hne].
    + rewrite lookup_insert_eq. by read_hash.
    + rewrite lookup_insert_ne by done. rewrite hget_other by (intros [= ?]; done).
      read_hash. apply Hs.
  - read_hash. rewrite (sh_settled _ _ _ _ Hs). destruct (decide (id = i)) as [<-|Hne].
    + by rewrite lookup_insert_eq, Hid.
    + by rewrite lookup_insert_ne.
  - read_hash. simpl. rewrite map_size_insert_None by done. lia.
  - read_hash. simpl. unfold used. by rewrite msum_insert_new.
  - intros Hw. by apply insert_non_empty in Hw.
  - rewrite deadline_expire; [by rewrite decide_True|by rewrite !time_hset|].
    apply exists_hget. exists (reserved_field id). by read_hash.
Qed.

Lemma shows_settle e key s w id c actual :
  shows e key s w → w !! id = Some c → ch_actual c = None → 0 ≤ used w - ch_reserved c + actual →
  shows e key (hset key (settled_field id) actual
    (hset key "tokens" (Z.max 0 (used w - ch_reserved c + actual)) s))
    (<[id := mkCharge (ch_reserved c) (Some actual)]> w).
Proof.
  intros Hs Hid Ha Hu. split; try intros i.
  - read_hash. rewrite (sh_reserved _ _ _ _ Hs). destruct (decide (id = i)) as [<-|Hne].
    + by rewrite lookup_insert_eq, Hid.
    + by rewrite lookup_insert_ne.
  - destruct (decide (id = i)) as [<-|Hne].
    + rewrite lookup_insert_eq. by read_hash.
    + rewrite lookup_insert_ne by done. rewrite hget_other by (intros [= ?]; done).
      read_hash. apply Hs.
  - read_hash. rewrite map_size_insert_Some by done. apply Hs.
  - read_hash. simpl. unfold used in *. rewrite (msum_insert_old _ _ _ _ _ Hid). unfold charge at 3 4.
    rewrite Ha. simpl. lia.
  - intros Hw. by apply insert_non_empty in Hw.
  - rewrite !deadline_hset. apply (sh_deadline _ _ _ _ Hs). intros ->.
    by apply lookup_empty_Some in Hid.
Qed.

(** A command on the key is a step of its meter. *)
Lemma execute_meter e R T key c s w :
  shows e key s w → metered R T w → command_key c = key → within e R T c →
  (execute c s).1 = (meter (server_time s) c w).1 ∧
  shows e key (execute c s).2 (meter (server_time s) c w).2 ∧
  server_time (execute c s).2 = server_time s.
Proof.
  intros Hs Hm <- Hc. destruct c as [key id expires rpm tpm tokens|r actual]; simpl in *.
  - unfold reserve_script. rewrite (sh_reserved _ _ _ _ Hs), (sh_requests _ _ _ _ Hs),
      (sh_tokens _ _ _ _ Hs). destruct Hc as (-> & _ & _ & _).
    destruct (w !! id) as [ch|] eqn:Hid; simpl; [by destruct (ch_reserved ch =? tokens)|].
    destruct (Z.leb_spec e (server_time s)); [done|].
    destruct (rpm <? Z.of_nat (size w) + 1); [done|].
    destruct (tpm <? used w + tokens); [done|]. simpl. split; [done|].
    split; [by apply shows_add|]. by rewrite time_expire, !time_hset.
  - unfold settle_script. rewrite (shows_exists _ _ _ _ Hs), negb_involutive.
    case_bool_decide as Hw; [by rewrite decide_True|]. rewrite decide_False by done.
    rewrite (sh_reserved _ _ _ _ Hs), (sh_settled _ _ _ _ Hs), (sh_tokens _ _ _ _ Hs).
    destruct (w !! qr_id r) as [ch|] eqn:Hid; simpl; [|done].
    destruct (ch_reserved ch =? qr_reserved_tokens r); simpl; [|done].
    destruct (ch_actual ch) as [prior|] eqn:Ha; simpl; [by destruct (prior =? actual)|].
    split; [done|]. split; [|by rewrite !time_hset]. apply shows_settle; try done.
    pose proof (msum_lookup_le charge w (qr_id r) ch (λ k a Hk, proj2 (mw_positive _ _ _ Hm k a Hk)) Hid).
    unfold used, charge in *. rewrite Ha in *. simpl in *. lia.
Qed.

Lemma execute_time c s : server_time (execute c s).2 = server_time s.
Proof.
  destruct c; simpl; unfold reserve_script, settle_script; repeat case_match; simplify_eq/=;
    by rewrite ?time_expire, ?time_hset.
Qed.

Lemma shows_same e key s s' w :
  (∀ f, hget s' key f = hget s key f) → (deadline s' key = deadline s key) →
  shows e key s w → shows e key s' w.
Proof. intros Hf Hd [S1 S2 S3 S4 S5 S6]. split; intros; rewrite ?Hf, ?Hd; auto. Qed.

Lemma deadline_added s k f v t k' :
  server_time s < t → k ≠ k' → deadline (expire_at k t (hset k f v s)) k' = deadline s k'.
Proof.
  intros Ht Hne. rewrite deadline_expire; [by rewrite decide_False, deadline_hset|by rewrite time_hset|].
  apply exists_hget. exists f. by read_hash.
Qed.

(** Hashes of other keys do not interfere. *)
Lemma execute_other e key c s w :
  command_key c ≠ key → shows e key s w → shows e key (execute c s).2 w.
Proof.
  intros Hne. apply shows_same; [intros f|];
    (destruct c; simpl in *; unfold reserve_script, settle_script; repeat case_match; simplify_eq/=;
     rewrite ?hget_expire by (rewrite !time_hset; lia); repeat rewrite hget_other by congruence;
     rewrite ?deadline_added, ?deadline_hset by (rewrite ?time_hset; first [done | lia]); done).
Qed.

Lemma advance_meter e key t s w :
  shows e key s w →
  shows e key (advance t s) (if e <=? Z.max t (server_time s) then ∅ else w).
Proof.
  intros Hs. destruct (decide (w = ∅)) as [->|Hw].
  - assert (∀ f, hget (advance t s) key f = None) as Hf.
    { intros f. rewrite hget_advance, (sh_blank _ _ _ _ Hs) by done. by repeat case_match. }
    destruct (e <=? Z.max t (server_time s)); split; intros; rewrite ?Hf, ?lookup_empty; try done.
  - pose proof (sh_deadline _ _ _ _ Hs Hw) as Hd. destruct (e <=? Z.max t (server_time s)) eqn:He.
    + assert (∀ f, hget (advance t s) key f = None) as Hf.
      { intros f. by rewrite hget_advance, Hd, He. }
      split; intros; rewrite ?Hf, ?lookup_empty; done.
    + apply (shows_same e key s); [intros f; by rewrite hget_advance, Hd, He| |done].
      by rewrite deadline_advance, Hd, He.
Qed.

(** ** Histories of the store *)

(** A window after the actions, of every gateway, that came by. *)
Definition meter_act (e : Z) (key : string) (m : Z * Window) (a : action) : Z * Window :=
  match a with
  | Elapse t => (Z.max t m.1, if e <=? Z.max t m.1 then ∅ else m.2)
  | Perform c => (m.1, if decide (command_key c = key) then (meter m.1 c m.2).2 else m.2)
  end.

Definition allowed_action (e R T : Z) (key : string) (a : action) : Prop :=
  match a with Elapse _ => True | Perform c => command_key c = key → within e R T c end.

Record follows (e R T : Z) (key : string) (s : St) (m : Z * Window) : Prop := {
  fo_time : server_time s = m.1;
  fo_shows : shows e key s m.2;
  fo_metered : metered R T m.2 }.

Lemma follows_act e R T key s m a :
  allowed_action e R T key a → follows e R T key s m →
  follows e R T key (act s a) (meter_act e key m a).
Proof.
  intros Ha [Ht Hs Hm]. destruct a as [t|c]; simpl in *.
  - rewrite <- Ht. split; simpl; [apply time_advance|by apply advance_meter|].
    case_match; [apply metered_empty|done].
  - case_decide as Hk.
    + destruct (execute_meter e R T key c s m.2) as (_ & H2 & H3); [done..|by apply Ha|].
      rewrite Ht in H2. split; simpl; [by rewrite H3|done|]. eapply meter_metered; [by apply Ha|done].
    + split; simpl; [by rewrite execute_time|by apply execute_other|done].
Qed.

Lemma follows_acts e R T key s m l :
  Forall (allowed_action e R T key) l → follows e R T key s m →
  follows e R T key (foldl act s l) (foldl (meter_act e key) m l).
Proof.
  intros Hl. revert s m. induction Hl as [|a l Ha _ IH]; intros s m Hf; [done|].
  simpl. by apply IH, follows_act.
Qed.

(** ** Retries *)

(** A command took effect: a request was admitted, or a settlement met its window. *)
Definition took (c : Command) (r : result QuotaError CommandResult) (w : Window) : Prop :=
  match c with
  | ReserveQuota _ _ _ _ _ _ => ∃ q, r = Ok (ReservedResult (Allowed q))
  | SettleQuota _ _ => r = Ok SettledResult ∧ w ≠ ∅
  end.

(** The window shows that it did. *)
Definition recorded (c : Command) (w : Window) : Prop :=
  match c with
  | ReserveQuota _ id _ _ _ tokens => ch_reserved <$> w !! id = Some tokens
  | SettleQuota q actual => w !! qr_id q = Some (mkCharge (qr_reserved_tokens q) (Some actual))
  end.

Lemma meter_took now c w : took c (meter now c w).1 w → recorded c (meter now c w).2.
Proof.
  destruct c as [key id expires rpm tpm tokens|q actual]; simpl.
  - destruct (w !! id) as [ch|] eqn:Hid; simpl.
    + destruct (Z.eqb_spec (ch_reserved ch) tokens) as [<-|]; [by rewrite Hid|by intros [? ?]].
    + repeat case_match; simpl; try (by intros [? ?]). by rewrite lookup_insert_eq.
  - intros [Hr Hw]. revert Hr. rewrite decide_False by done. destruct (w !! qr_id q) as [[n o]|] eqn:Hid; [|done]. simpl.
    destruct (Z.eqb_spec n (qr_reserved_tokens q)) as [->|]; [|done]. simpl. destruct o as [prior|]; simpl.
    + destruct (Z.eqb_spec prior actual) as [->|]; done.
    + intros _. by rewrite lookup_insert_eq.
Qed.

Lemma meter_untaken now c w : ¬ took c (meter now c w).1 w → (meter now c w).2 = w.
Proof.
  destruct c as [key id expires rpm tpm tokens|q actual]; simpl.
  - repeat case_match; simpl; try done. intros Hn. exfalso. apply Hn. by eexists.
  - repeat case_match; simpl; try done. intros Hn. exfalso. by apply Hn.
Qed.

(** A command that is recorded answers the same and changes nothing. *)
Lemma meter_recorded now c w : recorded c w →
  took c (meter now c w).1 w ∧ (meter now c w).2 = w.
Proof.
  destruct c as [key id expires rpm tpm tokens|q actual]; simpl.
  - intros (ch & Hid & ->)%fmap_Some. rewrite Hid, Z.eqb_refl. split; [by eexists|done].
  - intros Hid. assert (w ≠ ∅) as Hw by (intros ->; by apply lookup_empty_Some in Hid).
    rewrite decide_False by done. rewrite Hid. simpl. by rewrite !Z.eqb_refl.
Qed.

Lemma took_same c r w r' w' : took c r w → took c r' w' → r' = r ∨ ∃ q q',
  r = Ok (ReservedResult (Allowed q)) ∧ r' = Ok (ReservedResult (Allowed q')).
Proof. destruct c; simpl; [intros [q ->] [q' ->]; right; by exists q, q'|by intros [-> _] [-> _]; left]. Qed.

Lemma meter_allowed now c w q : (meter now c w).1 = Ok (ReservedResult (Allowed q)) →
  ∃ key id expires rpm tpm tokens, c = ReserveQuota key id expires rpm tpm tokens ∧ q = mkQuota key id tokens ∧
    (w !! id = None → now < expires ∧ Z.of_nat (size w) + 1 ≤ rpm ∧ used w + tokens ≤ tpm).
Proof.
  destruct c as [key id expires rpm tpm tokens|q' actual]; simpl.
  - intros Hr. exists key, id, expires, rpm, tpm, tokens. split; [done|].
    destruct (w !! id); simpl in *; [case_match; by simplify_eq|].
    destruct (Z.leb_spec expires now); [done|]. destruct (Z.ltb_spec rpm (Z.of_nat (size w) + 1)); [done|].
    destruct (Z.ltb_spec tpm (used w + tokens)); [done|]. by injection Hr as <-.
  - intros Hr. repeat case_match; simplify_eq/=.
Qed.

(** A window is empty when its time is over. *)
Definition timely (e : Z) (m : Z * Window) : Prop := e ≤ m.1 → m.2 = ∅.

Lemma meter_late e R T now c : within e R T c → e ≤ now → (meter now c ∅).2 = ∅.
Proof.
  intros Hc He. destruct c as [key id expires rpm tpm tokens|q actual]; simpl in *; [|by rewrite decide_True].
  rewrite lookup_empty. destruct Hc as [-> _]. by destruct (Z.leb_spec e now); [|lia].
Qed.

Lemma timely_act e R T key m a : allowed_action e R T key a → timely e m → timely e (meter_act e key m a).
Proof.
  intros Ha Hm He. destruct a as [t|c]; simpl in *; [by destruct (Z.leb_spec e (Z.max t m.1)); [|lia]|].
  case_decide as Hk; [|by apply Hm]. rewrite (Hm He). by eapply meter_late; [apply Ha|].
Qed.
Lemma timely_acts e R T key m l : Forall (allowed_action e R T key) l → timely e m →
  timely e (foldl (meter_act e key) m l).
Proof. intros Hl. revert m. induction Hl; intros m Hm; [done|]. simpl. by eapply IHHl, timely_act. Qed.

Lemma meter_keeps now c c' w : recorded c w → recorded c (meter now c' w).2.
Proof.
  intros Hr. assert (∀ id ch, w !! id = Some ch → ∃ o, (meter now c' w).2 !! id = Some (mkCharge (ch_reserved ch) o) ∧
    (∀ x, ch_actual ch = Some x → o = Some x)) as Hkeep.
  { intros id [n o] Hid. destruct c' as [key' id' e' rpm tpm tokens|q' actual']; simpl.
    - destruct (w !! id') as [ch'|] eqn:Hid'; simpl; [by exists o|]. repeat case_match; simpl; try by exists o.
      rewrite lookup_insert_ne by congruence. by exists o.
    - case_decide; simpl; [by exists o|]. destruct (w !! qr_id q') as [[n' o']|] eqn:Hid'; simpl; [|by exists o].
      destruct (n' =? _); simpl; [|by exists o]. destruct o' as [prior|]; simpl; [by exists o|].
      destruct (decide (qr_id q' = id)) as [<-|]; [|rewrite lookup_insert_ne by done; by exists o].
      rewrite Hid in Hid'. injection Hid' as [= -> ->]. rewrite lookup_insert_eq. by eexists. }
  destruct c as [key id expires rpm tpm tokens|q actual]; simpl in *.
  - apply fmap_Some in Hr as (ch & Hid & ->). destruct (Hkeep _ _ Hid) as (o & -> & _). done.
  - destruct (Hkeep _ _ Hr) as (o & -> & Ho). simpl in *. by rewrite (Ho actual).
Qed.

(** A command stays recorded until the time of its window is over. *)
Lemma recorded_acts e key c m l : recorded c m.2 →
  let m' := foldl (meter_act e key) m l in m'.1 < e → recorded c m'.2.
Proof.
  revert m. induction l as [|a l IH]; intros m Hr m' He; [exact Hr|]. apply IH; [|exact He].
  assert (∀ n, n.1 ≤ (foldl (meter_act e key) n l).1) as Hmono.
  { clear. induction l as [|[t|c] l IH]; intros n; simpl; [lia| |exact (IH _)].
    etrans; [|apply IH]. simpl. lia. }
  pose proof (Hmono (meter_act e key m a)) as Hle. subst m'. simpl in He. destruct a as [t|c']; simpl in *.
  - destruct (Z.leb_spec e (Z.max t m.1)); [lia|done].
  - case_decide; [by apply meter_keeps|done].
Qed.

(** A command that took effect is not counted again when it is sent again. *)
Lemma meter_resent e R T key now c w l : within e R T c → timely e (now, w) → Forall (allowed_action e R T key) l →
  took c (meter now c w).1 w →
  let m := foldl (meter_act e key) (now, (meter now c w).2) l in
  (meter m.1 c m.2).2 = m.2 ∧ (m.1 < e → (meter m.1 c m.2).1 = (meter now c w).1).
Proof.
  intros Hc Hw Hl Ht m. pose proof (meter_took _ _ _ Ht) as Hr.
  assert (timely e m) as Hm.
  { eapply timely_acts; [exact Hl|]. intros He. simpl in *. rewrite (Hw He : w = ∅). by eapply meter_late. }
  destruct (Z.lt_ge_cases m.1 e) as [He|He].
  - pose proof (recorded_acts e key c (now, (meter now c w).2) l Hr He) as Hr'. fold m in Hr'.
    destruct (meter_recorded m.1 c _ Hr') as [Ht' Hs]. split; [exact Hs|]. intros _.
    destruct (took_same _ _ _ _ _ Ht Ht') as [->|(q & q' & H1 & H2)]; [done|]. rewrite H1, H2.
    apply meter_allowed in H1 as (? & ? & ? & ? & ? & ? & E1 & -> & _).
    apply meter_allowed in H2 as (? & ? & ? & ? & ? & ? & E2 & -> & _). congruence.
  - rewrite (Hm He). split; [by eapply meter_late|lia].
Qed.

(** C29: The gateways share one limit.  Whatever the gateways do to the shared
    store, retries of lost answers included, the window of a key holds at most
    its number of requests, and at most its number of tokens, counting a
    request for its estimate and, once it is settled, for what it used as far
    as the estimate goes.  A command is answered as an exact meter of the
    window answers it; a request that is newly admitted fits with all that the
    others count for at that moment.  A command whose answer is lost and that
    is sent again, after anything that others did in between, counts at most
    once: what took effect the first time changes nothing the second time, and
    has the same answer until the minute is over; what did not take effect the
    first time had left no trace. *)
Theorem quota_shared e R T key (s : St) l c between :
  (∀ f, hget s key f = None) → Forall (allowed_action e R T key) l →
  command_key c = key → within e R T c → Forall (allowed_action e R T key) between →
  let s' := foldl act s l in
  let w := (foldl (meter_act e key) (server_time s, ∅) l).2 in
  let first := meter (server_time s') c w in
  let m := foldl (meter_act e key) (server_time s', first.2) between in
  let second := meter m.1 c m.2 in
  let v := send Replied [mkAttempt [] AnswerLost false; mkAttempt between Answered false] c s' in
  (Z.of_nat (size w) ≤ Z.max 0 R ∧ msum estimated w ≤ Z.max 0 T) ∧
  ((execute c s').1 = first.1 ∧ shows e key (execute c s').2 first.2) ∧
  (∀ q, first.1 = Ok (ReservedResult (Allowed q)) → w !! qr_id q = None →
     Z.of_nat (size w) + 1 ≤ R ∧ used w + qr_reserved_tokens q ≤ T) ∧
  (v.1 = second.1 ∧ shows e key v.2 second.2) ∧
  (took c first.1 w → second.2 = m.2 ∧ (m.1 < e → second.1 = first.1)) ∧
  (¬ took c first.1 w → first.2 = w).
Proof.
  intros Hb Hl Hk Hc Hbetween s' w first m second v.
  assert (follows e R T key s (server_time s, ∅)) as Hf.
  { split; [done| |apply metered_empty]. split; intros; simpl; rewrite ?Hb, ?lookup_empty; done. }
  pose proof (timely_acts e R T key (server_time s, ∅) l Hl (λ _, eq_refl)) as Hw.
  apply (follows_acts _ _ _ _ _ _ l Hl) in Hf as [Ht Hs Hm]. fold s' w in Ht, Hs, Hm.
  destruct (execute_meter e R T key c s' w) as (E1 & E2 & E3); [done..|].
  assert (follows e R T key (execute c s').2 (server_time s', first.2)) as Hf.
  { split; [exact E3|exact E2|by eapply meter_metered]. }
  apply (follows_acts _ _ _ _ _ _ between Hbetween) in Hf as [Ft Fs Fm]. fold m in Ft, Fs, Fm.
  destruct (execute_meter e R T key c _ m.2 Fs Fm Hk Hc) as (G1 & G2 & _). rewrite Ft in G1, G2.
  split; [split; apply Hm|]. split; [done|]. split; [|split; [|split]].
  - intros q Hq Hnew. apply meter_allowed in Hq as (? & ? & ? & ? & ? & ? & -> & -> & Hq). simpl in *.
    destruct (Hq Hnew) as (_ & H1 & H2). destruct Hc as (_ & H3 & H4 & _). lia.
  - unfold v, send, worker, try_once. simpl.
    destruct (execute c (foldl act (execute c s').2 between)) as [r s2]. simpl in *. by destruct (is_ok r).
  - intros Htook. by apply (meter_resent e R T key); [|rewrite Ht; destruct (foldl _ _ l)| |].
  - apply meter_untaken.
Qed.
End refinement.

(** ** A store in memory *)

Record Memory := mkMemory {
  me_time : Z; me_hashes : gmap string (gmap string Z); me_deadlines : gmap string Z }.

Definition memory_exists (s : Memory) (k : string) : bool :=
  negb (bool_decide (default ∅ (me_hashes s !! k) = ∅)).

Definition expired (t : Z) (s : Memory) (k : string) : bool :=
  match me_deadlines s !! k with Some e => e <=? t | None => false end.

#[export] Instance memory_store : HashStore Memory := {
  server_time := me_time;
  hget s k f := me_hashes s !! k ≫= lookup f;
  hash_exists := memory_exists;
  hset k f v s := mkMemory (me_time s)
    (<[k := <[f := v]> (default ∅ (me_hashes s !! k))]> (me_hashes s)) (me_deadlines s);
  expire_at k t s :=
    if negb (memory_exists s k) then s
    else if t <=? me_time s then
      mkMemory (me_time s) (delete k (me_hashes s)) (delete k (me_deadlines s))
    else mkMemory (me_time s) (me_hashes s) (<[k := t]> (me_deadlines s));
  deadline s k := me_deadlines s !! k;
  advance t s :=
    let t := Z.max t (me_time s) in
    mkMemory t (filter (λ x, negb (expired t s x.1) = true) (me_hashes s))
      (filter (λ x, negb (x.2 <=? t) = true) (me_deadlines s)) }.

#[export] Instance memory_laws : HashStoreLaws Memory.
Proof.
  split; simpl; try done.
  - intros s k f v k' f'. destruct (decide (k = k')) as [<-|Hk].
    + rewrite lookup_insert_eq. simpl. destruct (decide (f = f')) as [<-|Hf].
      * by rewrite lookup_insert_eq, decide_True.
      * rewrite lookup_insert_ne, decide_False by naive_solver.
        by destruct (me_hashes s !! k) eqn:E; simpl; rewrite ?lookup_empty.
    + by rewrite lookup_insert_ne, decide_False by naive_solver.
  - intros s k t k' f Ht. destruct (memory_exists s k); simpl; [|done].
    by destruct (Z.leb_spec t (me_time s)); [lia|].
  - intros s k t k' Ht ->. simpl. destruct (Z.leb_spec t (me_time s)); [lia|]. simpl.
    rewrite lookup_insert. by destruct (decide (k = k')).
  - intros s k t. destruct (memory_exists s k); simpl; [|done]. by destruct (t <=? me_time s).
  - intros s k. unfold memory_exists. rewrite negb_true_iff, bool_decide_eq_false. split.
    + intros (f & v & Hv)%map_choose. exists f.
      destruct (me_hashes s !! k); simpl in *; [by eexists|by rewrite lookup_empty in Hv].
    + intros [f [v Hv]] He. destruct (me_hashes s !! k); simpl in *; [|done]. subst.
      by rewrite lookup_empty in Hv.
  - intros s t k f. rewrite map_lookup_filter. unfold expired.
    destruct (me_hashes s !! k) as [m|] eqn:E; simpl.
    + case_guard as Hg; simpl; destruct (me_deadlines s !! k) as [e|]; simpl in *; try done;
        destruct (e <=? _); done.
    + destruct (me_deadlines s !! k) as [e|]; [|done]. by case_match.
  - intros s t k. rewrite map_lookup_filter. destruct (me_deadlines s !! k) as [e|]; simpl; [|done].
    case_guard as Hg; simpl in *; destruct (e <=? _); done.
Qed.

(** Two requests a minute and a hundred tokens: the third request, and the one
    that asks for too much, are denied; a retry is not. *)
Definition sample_key : string := quota_key "key-1" 1.
Definition ask (id : string) (tokens : Z) : Command := ReserveQuota sample_key id 180 2 100 tokens.
Definition sample_actions : list action :=
  [Elapse 61; Perform (ask "a" 60); Perform (ask "b" 50); Perform (SettleQuota (mkQuota sample_key "a" 60) 20);
   Perform (ask "b" 50)].

Example quota_answers :
  (λ c, (execute c (foldl act (mkMemory 60 ∅ ∅) sample_actions)).1) <$>
    [ask "a" 60; ask "b" 50; ask "b" 40; ask "c" 1; ReserveQuota sample_key "d" 180 3 100 31]
  = [Ok (ReservedResult (Allowed (mkQuota sample_key "a" 60)));
     Ok (ReservedResult (Allowed (mkQuota sample_key "b" 50)));
     Err (Redis "reservation payload conflict");
     Ok (ReservedResult (Denied RequestsPerMinute));
     Ok (ReservedResult (Denied TokensPerMinute))].
Proof. vm_compute. reflexivity. Qed.

(** The answer to [b] is lost, [a] is settled and a third request is denied, and [b] is sent again. *)
Definition sample_between : list action :=
  [Perform (SettleQuota (mkQuota sample_key "a" 60) 20); Perform (ask "c" 1); Elapse 90].

Lemma quota_shared_witness :
  let s := foldl act (mkMemory 60 ∅ ∅) [Elapse 61; Perform (ask "a" 60)] in
  (execute (ask "b" 40) s).1 = Ok (ReservedResult (Allowed (mkQuota sample_key "b" 40))) ∧
  (send Replied [mkAttempt [] AnswerLost false; mkAttempt sample_between Answered false] (ask "b" 40) s).1
    = Ok (ReservedResult (Allowed (mkQuota sample_key "b" 40))).
Proof.
  intros s. split; [vm_compute; reflexivity|].
  pose proof (quota_shared 180 2 100 sample_key (mkMemory 60 ∅ ∅) [Elapse 61; Perform (ask "a" 60)] (ask "b" 40)
    sample_between) as Hq.
  destruct Hq as (_ & _ & _ & [Hv _] & Hsame & _).
  - intros f. reflexivity.
  - repeat (first [apply Forall_nil | apply Forall_cons; split]); simpl; try exact I; intros _; lia.
  - reflexivity.
  - simpl. lia.
  - repeat (first [apply Forall_nil | apply Forall_cons; split]); simpl; try exact I; intros _; lia.
  - etransitivity; [exact Hv|]. etransitivity; [apply Hsame|vm_compute; reflexivity].
    + exists (mkQuota sample_key "b" 40). vm_compute. reflexivity.
    + vm_compute. reflexivity.
Defined.
