(* ===== verification/World.v ===== *)
(** * World: the control plane and its gateways, step by step

    Every interleaving of the control plane, the gateways and the serving
    entries.  A snapshot or a report that left its sender may arrive at any
    time, any number of times, or never; a gateway may stop at any moment, and
    what it had in flight is then served by the entry, or arrives there late.
    Three things are taken from the outside world, and say what the agent of a
    cluster attests: a termination is only proved for a gateway that stopped,
    idle evidence for a pool was taken when its entry served nothing that a
    stopped gateway had sent, and the clock does not go back. *)

From S2P Require Import Prelude Domain Models Routing Fleet Store Routes.
From S2P Require Import Clusters Pools Snapshot Traffic Control Gate.
Local Open Scope Z_scope.

(** A request: the session of its gateway and its pool. *)
Abbreviation request := (string * string)%type.

Record World := mkWorld {
  w_db : Db;
  w_gates : gmap string Gate;
  w_dead : gset string;
  w_flight : list request;          (* requests that hold a permit *)
  w_late : list request;            (* of stopped gateways, not yet at the entry *)
  w_orphans : list request;         (* of stopped gateways, served by the entry *)
  w_sent : list TrafficSnapshot;
  w_reports : list TrafficReport;
  w_idle : list (string * Z);       (* idle evidence: pool and time *)
  w_now : Z }.

Definition initial : World := mkWorld empty_db ∅ ∅ [] [] [] [] [] [] 0.

Definition gate (w : World) (s : string) : Gate := default Gate_default (w_gates w !! s).

Definition put_gate (s : string) (g : Gate) (flight : list request) (reports : list TrafficReport)
    (w : World) : World :=
  mkWorld (w_db w) (<[s := g]> (w_gates w)) (w_dead w) flight (w_late w) (w_orphans w) (w_sent w)
    reports (w_idle w) (w_now w).

Definition put_db (d : Db) (now : Z) (sent : list TrafficSnapshot) (w : World) : World :=
  mkWorld d (w_gates w) (w_dead w) (w_flight w) (w_late w) (w_orphans w) sent (w_reports w)
    (w_idle w) now.

Definition put_entry (late orphans : list request) (w : World) : World :=
  mkWorld (w_db w) (w_gates w) (w_dead w) (w_flight w) late orphans (w_sent w) (w_reports w)
    (w_idle w) (w_now w).

Section world.
Context `{ControlLibraries}.

(** What the outside world must have done before an operation is called. *)
Definition attested (w : World) (o : control_op) : Prop :=
  match o with
  | AcceptReport report => report ∈ w_reports w
  | ObservePool _ _ report => po_idle report = true → ∃ after t,
      po_idle_after report = Some after ∧ (po_pool_id report, t) ∈ w_idle w ∧ after < t
  | AcceptProof _ _ proof =>
      gp_outcome proof = "terminated"%string → gp_session_id proof ∈ w_dead w
  | SendSnapshot _ _ _ _ => False
  | _ => True
  end.

(** What the entry of a pool asks before it serves: the entries of the second
    protocol are fenced by [authorize_serving]. *)
Definition admitted_late (w : World) (s p : string) : Prop :=
  ∀ pool, pools (control (w_db w)) !! p = Some pool → pb_traffic_protocol (mp_binding pool) = 2 →
    ∃ env token u d', authorize_serving digest is_uuid attribution_required env
      (Some s) token (Some p) (w_db w) = Ok (u, d').

Inductive world_step (w : World) : World → Prop :=
| StepElsewhere d' now :
    w_now w ≤ now → control d' = control (w_db w) → world_step w (put_db d' now (w_sent w) w)
| StepControl env o u d' :
    w_now w ≤ env_now env → attested w o → run_control env o (w_db w) = Ok (u, d') →
    world_step w (put_db d' (env_now env) (w_sent w) w)
| StepSnapshot env id identity snapshot token g s d' :
    w_now w ≤ env_now env →
    traffic_snapshot digest is_uuid attribution_required env id identity snapshot token (w_db w)
      = Ok (g, d') →
    gs_traffic g = Some s → world_step w (put_db d' (env_now env) (s :: w_sent w) w)
| StepInstall s snapshot time g :
    s ∉ w_dead w → snapshot ∈ w_sent w → install is_uuid s snapshot time (gate w s) = Ok g →
    world_step w (put_gate s g (w_flight w) (w_reports w) w)
| StepEnter s now p generation g :
    s ∉ w_dead w → enter now p generation (gate w s) = Ok g →
    world_step w (put_gate s g ((s, p) :: w_flight w) (w_reports w) w)
| StepLeave s p l k :
    s ∉ w_dead w → w_flight w = l ++ (s, p) :: k →
    world_step w (put_gate s (leave p (gate w s)) (l ++ k) (w_reports w) w)
| StepReport s r :
    s ∉ w_dead w → report s (gate w s) = Some r →
    world_step w (put_gate s (gate w s) (w_flight w) (r :: w_reports w) w)
| StepClose s :
    s ∉ w_dead w → world_step w (put_gate s (close (gate w s)) (w_flight w) (w_reports w) w)
| StepStop s late orphans :
    s ∉ w_dead w → filter (λ x, x.1 = s) (w_flight w) ≡ₚ late ++ orphans →
    world_step w (mkWorld (w_db w) (w_gates w) ({[s]} ∪ w_dead w)
      (filter (λ x, x.1 ≠ s) (w_flight w)) (late ++ w_late w) (orphans ++ w_orphans w)
      (w_sent w) (w_reports w) (w_idle w) (w_now w))
| StepLate s p l k :
    w_late w = l ++ (s, p) :: k → admitted_late w s p →
    world_step w (put_entry (l ++ k) ((s, p) :: w_orphans w) w)
| StepLost x l k :
    w_late w = l ++ x :: k → world_step w (put_entry (l ++ k) (w_orphans w) w)
| StepServed x l k :
    w_orphans w = l ++ x :: k → world_step w (put_entry (w_late w) (l ++ k) w)
| StepIdle p t :
    w_now w ≤ t → (∀ s, (s, p) ∉ w_orphans w) →
    world_step w (mkWorld (w_db w) (w_gates w) (w_dead w) (w_flight w) (w_late w) (w_orphans w)
      (w_sent w) (w_reports w) ((p, t) :: w_idle w) t).

Definition reachable (w : World) : Prop := rtc world_step initial w.

(** ** The invariant *)

Definition occ (x : request) (l : list request) : nat := length (filter (λ y, y = x) l).

(** All that a session may still have on a pool. *)
Definition load (w : World) (s p : string) : nat :=
  (occ (s, p) (w_flight w) + occ (s, p) (w_late w) + occ (s, p) (w_orphans w))%nat.

(** A gateway that admits nothing any more. *)
Definition stopped (w : World) (s : string) : Prop := s ∈ w_dead w ∨ ga_closed (gate w s) = true.

Definition accepts (p : string) (s : TrafficSnapshot) : Prop :=
  ∃ c, c ∈ ts_pools s ∧ pc_id c = p ∧ pc_accepting c = true.

Definition installed (g : Gate) : Z :=
  match ga_snapshot g with Some s => ts_sequence s | None => 0 end.

(** No snapshot that the gateway runs or may still install accepts. *)
Definition refused (w : World) (s p : string) : Prop :=
  ∀ snapshot, snapshot ∈ w_sent w → ts_session_id snapshot = s →
    installed (gate w s) ≤ ts_sequence snapshot → ¬ accepts p snapshot.

(** The session is retired and the entry of the pool asks. *)
Definition fenced (w : World) (s p : string) : Prop :=
  (∃ row, sessions (control (w_db w)) !! s = Some row ∧ sn_closed row = true) ∧
  ∃ pool, pools (control (w_db w)) !! p = Some pool ∧ pb_traffic_protocol (mp_binding pool) = 2.

(** The session has nothing on the pool, and cannot get anything on it. *)
Record quiet (w : World) (s p : string) : Prop := {
  qu_flight : occ (s, p) (w_flight w) = 0%nat;
  qu_orphans : occ (s, p) (w_orphans w) = 0%nat;
  qu_late : occ (s, p) (w_late w) = 0%nat ∨ fenced w s p;
  qu_closed : stopped w s ∨ refused w s p }.

Record safe (w : World) : Prop := {
  sf_keyed : keyed (w_db w);
  sf_positive k p : pools (control (w_db w)) !! k = Some p → 1 ≤ mp_generation p;
  sf_sequence s row : sessions (control (w_db w)) !! s = Some row → 0 ≤ sn_sequence row;
  (* what was sent *)
  sf_session s : s ∈ w_sent w → ∃ row, sessions (control (w_db w)) !! ts_session_id s = Some row ∧
    0 < ts_sequence s ≤ sn_sequence row;
  sf_unique s t : s ∈ w_sent w → t ∈ w_sent w → ts_session_id s = ts_session_id t →
    ts_sequence s = ts_sequence t → s = t;
  sf_distinct s : s ∈ w_sent w → NoDup (pc_id <$> ts_pools s);
  sf_control s c : s ∈ w_sent w → c ∈ ts_pools s →
    ∃ p, pools (control (w_db w)) !! pc_id c = Some p ∧ pc_generation c ≤ mp_generation p ∧
      (pc_accepting c = true → pc_generation c = mp_generation p → mp_state p = PoolActive);
  sf_recorded s p : s ∈ w_sent w → accepts p s →
    is_Some (views (control (w_db w)) !! (p, ts_session_id s));
  sf_loaded s p : load w s p ≠ 0%nat → is_Some (views (control (w_db w)) !! (p, s));
  (* views *)
  sf_view p s v : views (control (w_db w)) !! (p, s) = Some v →
    ∃ row pool snapshot c, sessions (control (w_db w)) !! s = Some row ∧
      pools (control (w_db w)) !! p = Some pool ∧
      vw_acknowledged_generation v ≤ vw_delivered_generation v ≤ mp_generation pool ∧
      snapshot ∈ w_sent w ∧ ts_session_id snapshot = s ∧ ts_sequence snapshot = sn_sequence row ∧
      c ∈ ts_pools snapshot ∧ pc_id c = p ∧ pc_generation c = vw_delivered_generation v;
  sf_unknown p s v : views (control (w_db w)) !! (p, s) = Some v → vw_active_requests v < 0 →
    ∃ row t, sessions (control (w_db w)) !! s = Some row ∧ sn_proof row = Some t;
  sf_quiet p s v pool : views (control (w_db w)) !! (p, s) = Some v →
    pools (control (w_db w)) !! p = Some pool → vw_active_requests v = 0 →
    vw_retired v = true ∨
      mp_generation pool ≤ vw_acknowledged_generation v ∧ mp_state pool ≠ PoolActive →
    quiet w s p;
  sf_retired p s v : views (control (w_db w)) !! (p, s) = Some v → vw_retired v = true → stopped w s;
  (* terminations *)
  sf_proof s row t : sessions (control (w_db w)) !! s = Some row → sn_proof row = Some t →
    s ∈ w_dead w ∧ sn_closed row = true ∧ tm_observed_at t ≤ w_now w ∧
    ∀ p pool at_, (p, at_) ∈ w_idle w → tm_observed_at t < at_ →
      pools (control (w_db w)) !! p = Some pool → pb_traffic_protocol (mp_binding pool) = 2 →
      occ (s, p) (w_orphans w) = 0%nat;
  sf_evidence p t : (p, t) ∈ w_idle w → t ≤ w_now w;
  (* idle pools *)
  sf_idle p pool s : pools (control (w_db w)) !! p = Some pool → is_idle (mp_state pool) = true →
    quiet w s p;
  (* gates *)
  sf_installed s snapshot : ga_snapshot (gate w s) = Some snapshot →
    snapshot ∈ w_sent w ∧ ts_session_id snapshot = s ∧ ga_controls (gate w s) = controls_of snapshot;
  sf_none s : ga_snapshot (gate w s) = None → ga_controls (gate w s) = ∅;
  sf_count s p : s ∉ w_dead w → count_of p (gate w s) = Z.of_nat (occ (s, p) (w_flight w));
  sf_alone s p : s ∉ w_dead w → occ (s, p) (w_late w) = 0%nat ∧ occ (s, p) (w_orphans w) = 0%nat;
  sf_dead s p : s ∈ w_dead w → occ (s, p) (w_flight w) = 0%nat;
  (* reports *)
  sf_report r : r ∈ w_reports w →
    (∃ snapshot, snapshot ∈ w_sent w ∧ ts_session_id snapshot = tp_session_id r ∧
       ts_sequence snapshot = tp_sequence r ∧
       tp_sequence r ≤ installed (gate w (tp_session_id r)) ∧
       ∀ p, ¬ accepts p snapshot → installed (gate w (tp_session_id r)) = tp_sequence r →
         Z.of_nat (load w (tp_session_id r) p) ≤ default 0 (tp_active r !! p)) ∧
    (∀ p n, tp_active r !! p = Some n → 0 ≤ n) ∧
    (tp_closed r = true → stopped w (tp_session_id r) ∧
       ∀ p, Z.of_nat (load w (tp_session_id r) p) ≤ default 0 (tp_active r !! p)) }.
End world.
