(* ===== verification/Safety.v ===== *)
(** * Safety: the invariant of the world holds at every step *)

From S2P Require Import Prelude Domain Models Routing Fleet Store Routes.
From S2P Require Import Clusters Pools Snapshot Traffic Control Sessions Gate World.
Local Open Scope Z_scope.

(** ** Counting requests *)

Lemma occ_cons x y l : occ x (y :: l) = ((if decide (y = x) then 1 else 0) + occ x l)%nat.
Proof. unfold occ. rewrite filter_cons. by destruct (decide (y = x)). Qed.
Lemma occ_app x l k : occ x (l ++ k) = (occ x l + occ x k)%nat.
Proof. unfold occ. by rewrite filter_app, length_app. Qed.
Lemma occ_perm x l k : l ≡ₚ k → occ x l = occ x k.
Proof. intros Hp. unfold occ. by rewrite Hp. Qed.
Lemma occ_middle x y l k :
  occ x (l ++ y :: k) = ((if decide (y = x) then 1 else 0) + occ x (l ++ k))%nat.
Proof. rewrite !occ_app, occ_cons. lia. Qed.
Lemma occ_zero x l : occ x l = 0%nat ↔ x ∉ l.
Proof.
  induction l as [|y l IH]; [split; [by intros _ ?%elem_of_nil|done]|].
  rewrite occ_cons, not_elem_of_cons, <- IH. destruct (decide (y = x)); [|split; intros; [split|]; naive_solver].
  split; [done|]. by intros [? _].
Qed.
Lemma occ_filter s p l (P : request → Prop) `{!∀ x, Decision (P x)} :
  occ (s, p) (filter P l) = (if decide (P (s, p)) then occ (s, p) l else 0)%nat.
Proof.
  induction l as [|y l IH]; [by destruct (decide _)|]. rewrite filter_cons, occ_cons.
  destruct (decide (P y)) as [Hy|Hy]; rewrite ?occ_cons, IH;
    destruct (decide (y = (s, p))) as [->|Hne]; repeat case_decide; try done; lia.
Qed.

Section safety.
Context `{ControlLibraries}.

(** ** Steps of the gates *)

(** A world in which only the gates and their requests moved. *)
Lemma quiet_kept w w' s p :
  control (w_db w') = control (w_db w) →
  w_sent w' = w_sent w → occ (s, p) (w_flight w') = 0%nat → occ (s, p) (w_orphans w') = 0%nat →
  (occ (s, p) (w_late w') ≤ occ (s, p) (w_late w))%nat → (stopped w s → stopped w' s) →
  installed (gate w s) ≤ installed (gate w' s) → quiet w s p → quiet w' s p.
Proof.
  intros Ed Es Hf Ho Hl Hs Hi [Q1 Q2 Q3 Q4]. split; [done|done| |].
  - destruct Q3 as [Q3|Q3]; [left; lia|right]. unfold fenced in *. by rewrite Ed.
  - destruct Q4 as [Q4|Q4]; [left; auto|right]. intros t Ht Hid Hle. rewrite Es in Ht.
    apply Q4; [done|done|lia].
Qed.

Lemma gate_put s g l r w t : gate (put_gate s g l r w) t = if decide (t = s) then g else gate w t.
Proof.
  unfold gate, put_gate. simpl. destruct (decide (t = s)) as [->|Hne].
  - by rewrite lookup_insert_eq.
  - by rewrite lookup_insert_ne.
Qed.

(** A step of one gate: it keeps or raises what is installed, and only ever
    closes. *)
Lemma safe_gate w s g l r :
  safe w → s ∉ w_dead w →
  installed (gate w s) ≤ installed g → (ga_closed (gate w s) = true → ga_closed g = true) →
  (* requests *)
  (∀ p, count_of p g = Z.of_nat (occ (s, p) l)) →
  (∀ t p, t ≠ s → occ (t, p) l = occ (t, p) (w_flight w)) →
  (∀ p, (occ (s, p) l ≤ occ (s, p) (w_flight w))%nat ∨
     (occ (s, p) l = S (occ (s, p) (w_flight w)) ∧ ga_closed (gate w s) = false ∧
      ga_snapshot g = ga_snapshot (gate w s) ∧
      ∃ snapshot, ga_snapshot g = Some snapshot ∧ accepts p snapshot)) →
  (* what is installed *)
  (∀ snapshot, ga_snapshot g = Some snapshot → snapshot ∈ w_sent w ∧ ts_session_id snapshot = s ∧
     ga_controls g = controls_of snapshot) →
  (ga_snapshot g = None → ga_controls g = ∅) →
  (* reports *)
  (∀ x, x ∈ r → x ∈ w_reports w ∨ report s (gate w s) = Some x ∧ g = gate w s ∧ l = w_flight w) →
  safe (put_gate s g l r w).
Proof.
  intros Hs Hdead Hinst Hclose Hcount Hother Hmove Hnew Hnone Hrep. set (w' := put_gate s g l r w).
  assert (∀ t, gate w' t = if decide (t = s) then g else gate w t) as Hg by apply gate_put.
  assert (∀ t, stopped w t → stopped w' t) as Hstop.
  { intros t [Ht|Ht]; [by left|right]. rewrite Hg. case_decide; subst; auto. }
  assert (∀ t, installed (gate w t) ≤ installed (gate w' t)) as Hle.
  { intros t. rewrite Hg. case_decide; subst; [done|lia]. }
  assert (∀ p, quiet w s p → occ (s, p) l = 0%nat) as Hzero.
  { intros p [Q1 _ _ Q4]. destruct (Hmove p) as [Hm|(_ & Hopen & Hsame & t & Ht & Hacc)]; [lia|].
    destruct Q4 as [[?|Hc]|Q4]; [done|congruence|]. exfalso.
    destruct (Hnew _ Ht) as (Hsent & Hid & _). apply (Q4 t Hsent Hid); [|done].
    unfold installed. rewrite <- Hsame, Ht. lia. }
  assert (∀ t p, quiet w t p → quiet w' t p) as Hquiet.
  { intros t p Hq. apply (quiet_kept w); try done; [|apply Hq|by apply Hstop].
    simpl. destruct (decide (t = s)) as [->|Hne]; [by apply Hzero|]. rewrite Hother by done. apply Hq. }
  assert (∀ p, installed g = installed (gate w s) → (occ (s, p) l ≤ occ (s, p) (w_flight w))%nat ∨
    ga_closed (gate w s) = false ∧ ∃ t, t ∈ w_sent w ∧ ts_session_id t = s ∧
      ts_sequence t = installed (gate w s) ∧ accepts p t) as Hgrow.
  { intros p Hi. destruct (Hmove p) as [?|(_ & Hopen & Hsame & t & Ht & Hacc)]; [by left|right].
    split; [done|]. destruct (Hnew _ Ht) as (Hsent & Hid & _). exists t. split_and!; try done.
    rewrite <- Hi. unfold installed. by rewrite Ht. }
  split; try apply Hs.
  - intros t p Hload. destruct (decide (load w t p = 0%nat)) as [Hz|Hnz]; [|by apply (sf_loaded w Hs)].
    unfold load in *. simpl in Hload. destruct (decide (t = s)) as [->|Hne]; [|rewrite Hother in Hload by done; lia].
    destruct (Hmove p) as [Hm|(_ & _ & _ & t & Ht & Hacc)]; [lia|].
    destruct (Hnew _ Ht) as (Hsent & <- & _). by apply (sf_recorded w Hs).
  - intros p t v pool Hv Hp Ha Hr. by apply Hquiet, (sf_quiet w Hs p t v pool).
  - intros p t v Hv Hr. by eapply Hstop, (sf_retired w Hs).
  - intros p pool t Hp Hi. by apply Hquiet, (sf_idle w Hs p pool).
  - intros t x. rewrite Hg. case_decide; subst; [apply Hnew|apply (sf_installed w Hs)].
  - intros t. rewrite Hg. case_decide; subst; [apply Hnone|apply (sf_none w Hs)].
  - intros t p Ht. rewrite Hg. simpl. case_decide; subst; [done|]. rewrite Hother by done.
    by apply (sf_count w Hs).
  - intros t p Ht. simpl. rewrite Hother by (intros ->; done). by apply (sf_dead w Hs).
  - intros x Hx. destruct (Hrep x Hx) as [Hold|(Hnewr & -> & ->)].
    + destruct (sf_report w Hs x Hold) as ((t & Ht & Hid & Hseq & Hi & Hl) & Hn & Hc).
      split; [|split; [done|]].
      * exists t. split_and!; try done; [by etrans|]. intros p Hna Heq.
        assert (installed (gate w' (tp_session_id x)) = installed (gate w (tp_session_id x))) as E.
        { pose proof (Hle (tp_session_id x)). lia. }
        rewrite E in Heq. specialize (Hl p Hna Heq). unfold load in *. simpl.
        destruct (decide (tp_session_id x = s)) as [Es|Hne]; [|by rewrite Hother].
        rewrite Es in *. rewrite Hg, decide_True in E by done.
        destruct (Hgrow p E) as [?|(_ & u & Hu & Huid & Huseq & Hacc)]; [lia|].
        destruct Hna. assert (t = u) as ->; [|done]. eapply (sf_unique w Hs); try done; congruence.
      * intros Hclosed. destruct (Hc Hclosed) as [Hst Hcl]. split; [by apply Hstop|].
        intros p. specialize (Hcl p). unfold load in *. simpl.
        destruct (decide (tp_session_id x = s)) as [Es|Hne]; [|by rewrite Hother].
        rewrite Es in *. destruct (Hmove p) as [?|(_ & Hopen & _)]; [lia|].
        destruct Hst as [?|?]; [done|congruence].
    + unfold report in Hnewr. destruct (ga_snapshot (gate w s)) as [t|] eqn:Ht; [|done].
      injection Hnewr as <-. simpl. destruct (Hnew _ eq_refl) as (Hsent & Hid & _).
      assert (installed (gate w' s) = ts_sequence t) as Hi.
      { rewrite Hg, decide_True by done. unfold installed. by rewrite Ht. }
      assert (∀ p, Z.of_nat (load w' s p) ≤ default 0 (ga_active (gate w s) !! p)) as Hload.
      { intros p. unfold load. simpl. destruct (sf_alone w Hs s p Hdead) as [-> ->].
        rewrite Nat.add_0_r, Nat.add_0_r, <- Hcount. done. }
      split; [|split].
      * exists t. split_and!; try done. lia.
      * intros p n Hn. specialize (Hcount p). unfold count_of in Hcount. rewrite Hn in Hcount.
        simpl in Hcount. lia.
      * intros Hc. split; [|done]. right. by rewrite Hg, decide_True.
Qed.

Lemma same_requests w s : safe w → s ∉ w_dead w → (∀ p, count_of p (gate w s) = Z.of_nat (occ (s, p) (w_flight w))).
Proof. intros Hs Hd p. by apply (sf_count w Hs). Qed.

Lemma safe_install w s snapshot time g :
  safe w → s ∉ w_dead w → snapshot ∈ w_sent w → install is_uuid s snapshot time (gate w s) = Ok g →
  safe (put_gate s g (w_flight w) (w_reports w) w).
Proof.
  intros Hs Hd Hsent (Hid & Hpos & Hsn & Hc & Hcl & Hn & Hold)%install_Ok.
  apply safe_gate; try done.
  - unfold installed. rewrite Hsn. destruct (ga_snapshot (gate w s)) eqn:E; [|lia].
    specialize (Hold _ eq_refl). lia.
  - by rewrite Hcl.
  - intros p. rewrite Hn. by apply same_requests.
  - intros p. by left.
  - intros x Hx. rewrite Hsn in Hx. by injection Hx as <-.
  - congruence.
  - intros x Hx. by left.
Qed.

Lemma safe_enter w s now p n g :
  safe w → s ∉ w_dead w → enter now p n (gate w s) = Ok g →
  safe (put_gate s g ((s, p) :: w_flight w) (w_reports w) w).
Proof.
  intros Hs Hd (Hopen & _ & Ha & _ & ->)%enter_Ok.
  destruct (ga_snapshot (gate w s)) as [t|] eqn:Ht.
  2: { unfold admits in Ha. by rewrite (sf_none w Hs s Ht), lookup_empty in Ha. }
  destruct (sf_installed w Hs s t Ht) as (Hsent & Hid & Hc).
  apply safe_gate; try done.
  - intros q. rewrite count_of_set, occ_cons, (same_requests w s Hs Hd), (same_requests w s Hs Hd).
    destruct (decide (q = p)) as [->|Hne]; [rewrite decide_True by done; lia|].
    rewrite decide_False by congruence. lia.
  - intros u q Hne. rewrite occ_cons, decide_False by congruence. done.
  - intros q. rewrite occ_cons. destruct (decide (q = p)) as [->|Hne].
    + right. rewrite decide_True by done. split_and!; try done. exists t. split; [done|].
      by eapply admits_control.
    + left. rewrite decide_False by congruence. done.
  - intros x Hx. simpl in Hx. rewrite Ht in Hx. by injection Hx as <-.
  - simpl. by rewrite Ht.
  - intros x Hx. by left.
Qed.

(** A step that leaves what is installed alone and adds no request. *)
Lemma safe_gate_same w s g l :
  safe w → s ∉ w_dead w → ga_snapshot g = ga_snapshot (gate w s) →
  ga_controls g = ga_controls (gate w s) → (ga_closed (gate w s) = true → ga_closed g = true) →
  (∀ p, count_of p g = Z.of_nat (occ (s, p) l)) →
  (∀ t p, t ≠ s → occ (t, p) l = occ (t, p) (w_flight w)) →
  (∀ p, (occ (s, p) l ≤ occ (s, p) (w_flight w))%nat) → safe (put_gate s g l (w_reports w) w).
Proof.
  intros Hs Hd E1 E2 E3 Hc Ho Hm. apply safe_gate; try done.
  - unfold installed. by rewrite E1.
  - intros p. by left.
  - intros x. rewrite E1, E2. apply (sf_installed w Hs).
  - rewrite E1, E2. apply (sf_none w Hs).
  - intros x Hx. by left.
Qed.

Lemma safe_leave w s p l k :
  safe w → s ∉ w_dead w → w_flight w = l ++ (s, p) :: k →
  safe (put_gate s (leave p (gate w s)) (l ++ k) (w_reports w) w).
Proof.
  intros Hs Hd Hl. destruct (leave_same p (gate w s)) as (E1 & E2 & E3).
  assert (∀ x, occ x (w_flight w) = ((if decide ((s, p) = x) then 1 else 0) + occ x (l ++ k))%nat) as Hocc.
  { intros x. by rewrite Hl, occ_middle. }
  apply safe_gate_same; try done; [by rewrite E3|..].
  - intros q. rewrite count_of_leave; rewrite !(same_requests w s Hs Hd), !Hocc.
    2: { rewrite decide_True by done. lia. }
    destruct (decide (q = p)) as [->|Hne]; [rewrite decide_True by done; lia|].
    rewrite decide_False by congruence. lia.
  - intros t q Hne. rewrite Hocc, decide_False by congruence. done.
  - intros q. rewrite Hocc. lia.
Qed.

Lemma safe_close w s :
  safe w → s ∉ w_dead w → safe (put_gate s (close (gate w s)) (w_flight w) (w_reports w) w).
Proof. intros Hs Hd. apply safe_gate_same; try done. intros p. by apply (sf_count w Hs). Qed.

Lemma safe_report w s r :
  safe w → s ∉ w_dead w → report s (gate w s) = Some r →
  safe (put_gate s (gate w s) (w_flight w) (r :: w_reports w) w).
Proof.
  intros Hs Hd Hr. apply safe_gate; try done.
  - intros p. by apply (sf_count w Hs).
  - intros p. by left.
  - apply (sf_installed w Hs).
  - apply (sf_none w Hs).
  - intros x [->|Hx]%elem_of_cons; [by right|by left].
Qed.

(** ** Steps of the entries *)

Lemma authorize_serving_open hash uuid required env s token p d u d' :
  authorize_serving hash uuid required env (Some s) token p d = Ok (u, d') →
  ∃ row, sessions (control d) !! s = Some row ∧ sn_closed row = false.
Proof.
  intros Hrun. unfold authorize_serving in Hrun. tx_inv Hrun. simplify_eq.
  match goal with Hf : find_session _ _ _ = Ok (?r, _), Hc : sn_closed ?r || _ = false |- _ =>
    apply find_session_Ok in Hf as [Hf _]; apply orb_false_iff in Hc as [Hc _]; by exists r end.
Qed.

Lemma admitted_not_fenced w s p : admitted_late w s p → ¬ fenced w s p.
Proof.
  intros Ha [(row & Hrow & Hclosed) (pool & Hp & H2)].
  destruct (Ha pool Hp H2) as (env & token & u & d' & Hrun).
  apply authorize_serving_open in Hrun as (row' & Hrow' & Hopen). congruence.
Qed.

(** Requests of stopped gateways arrive, are served or get lost. *)
Lemma safe_entry w late orphans :
  safe w → (∀ x, (occ x late ≤ occ x (w_late w))%nat) →
  (∀ x, (occ x late + occ x orphans ≤ occ x (w_late w) + occ x (w_orphans w))%nat) →
  (∀ s p, (occ (s, p) orphans ≤ occ (s, p) (w_orphans w))%nat ∨
     occ (s, p) (w_late w) ≠ 0%nat ∧ ¬ fenced w s p) →
  safe (put_entry late orphans w).
Proof.
  intros Hs Hl Hlo Ho. set (w' := put_entry late orphans w).
  assert (∀ t p, quiet w t p → quiet w' t p) as Hquiet.
  { intros t p Hq. pose proof Hq as [Q1 Q2 Q3 _]. specialize (Hl (t, p)). specialize (Hlo (t, p)).
    apply (quiet_kept w); try done. simpl. destruct (Ho t p) as [?|[Hnz Hnf]]; [lia|].
    by destruct Q3. }
  assert (∀ t p, (load w' t p ≤ load w t p)%nat) as Hload.
  { intros t p. specialize (Hlo (t, p)). unfold load. simpl. lia. }
  split; try apply Hs.
  - intros t p Hnz. apply (sf_loaded w Hs). specialize (Hload t p). lia.
  - intros p t v pool Hv Hp Ha Hr. by apply Hquiet, (sf_quiet w Hs p t v pool).
  - intros t row pf Hrow Hpf. destruct (sf_proof w Hs t row pf Hrow Hpf) as (P1 & P2 & P3 & P4).
    split_and!; try done. intros p pool at_ Hat Hlt Hp H2. specialize (P4 p pool at_ Hat Hlt Hp H2).
    simpl. destruct (Ho t p) as [?|[_ Hnf]]; [lia|]. destruct Hnf. split; [by exists row|by exists pool].
  - intros p pool t Hp Hi. by apply Hquiet, (sf_idle w Hs p pool).
  - intros t p Ht. destruct (sf_alone w Hs t p Ht) as [A1 A2]. specialize (Hl (t, p)).
    specialize (Hlo (t, p)). simpl. lia.
  - intros r Hr. destruct (sf_report w Hs r Hr) as ((t & R1 & R2 & R3 & R4 & R5) & R6 & R7).
    split; [|split; [done|]].
    + exists t. split_and!; try done. intros p Hna Hi. etrans; [|by apply R5].
      apply Nat2Z.inj_le, Hload.
    + intros Hc. destruct (R7 Hc) as [Hst Hcl]. split; [done|]. intros p.
      etrans; [apply Nat2Z.inj_le, Hload|apply Hcl].
Qed.

Lemma safe_late w s p l k :
  safe w → w_late w = l ++ (s, p) :: k → admitted_late w s p →
  safe (put_entry (l ++ k) ((s, p) :: w_orphans w) w).
Proof.
  intros Hs Hl Ha. apply safe_entry; [done|..]; rewrite Hl.
  - intros x. rewrite occ_middle. lia.
  - intros x. rewrite occ_middle, occ_cons. lia.
  - intros t q. rewrite occ_middle, occ_cons. destruct (decide ((s, p) = (t, q))) as [[= <- <-]|Hne].
    + right. split; [lia|by apply admitted_not_fenced].
    + left. lia.
Qed.

Lemma safe_lost w x l k :
  safe w → w_late w = l ++ x :: k → safe (put_entry (l ++ k) (w_orphans w) w).
Proof.
  intros Hs Hl. apply safe_entry; [done|..]; rewrite Hl; [..|intros; by left];
    intros y; rewrite occ_middle; lia.
Qed.

Lemma safe_served w x l k :
  safe w → w_orphans w = l ++ x :: k → safe (put_entry (w_late w) (l ++ k) w).
Proof.
  intros Hs Hl. apply safe_entry; [done|done|..]; rewrite Hl; [intros y|intros t p; left];
    rewrite occ_middle; lia.
Qed.

(** A gateway stops. *)
Lemma safe_stop w s late orphans :
  safe w → s ∉ w_dead w → filter (λ x, x.1 = s) (w_flight w) ≡ₚ late ++ orphans →
  safe (mkWorld (w_db w) (w_gates w) ({[s]} ∪ w_dead w) (filter (λ x, x.1 ≠ s) (w_flight w))
    (late ++ w_late w) (orphans ++ w_orphans w) (w_sent w) (w_reports w) (w_idle w) (w_now w)).
Proof.
  intros Hs Hd Hp. set (w' := mkWorld _ _ _ _ _ _ _ _ _ _).
  assert (∀ t p, (occ (t, p) late + occ (t, p) orphans)%nat =
    if decide (t = s) then occ (t, p) (w_flight w) else 0%nat) as Hsplit.
  { intros t p. rewrite <- occ_app, <- (occ_perm _ _ _ Hp), occ_filter. done. }
  assert (∀ t p, load w' t p = load w t p) as Hload.
  { intros t p. specialize (Hsplit t p). unfold load. simpl. rewrite occ_filter, !occ_app. simpl.
    destruct (decide (t = s)), (decide (t ≠ s)); try done; lia. }
  assert (∀ t, stopped w t → stopped w' t) as Hstop.
  { intros t [Ht|Ht]; [left; simpl; set_solver|by right]. }
  assert (∀ t p, quiet w t p → quiet w' t p) as Hquiet.
  { intros t p Hq. pose proof Hq as [Q1 Q2 Q3 _]. specialize (Hsplit t p).
    apply (quiet_kept w); simpl; rewrite ?occ_filter, ?occ_app; try done; try lia;
      destruct (decide (t = s)); try lia.
    - by destruct (decide _).
    - by destruct (decide _).
    - by apply Hstop.
    - by apply Hstop. }
  split; try apply Hs.
  - intros t p. rewrite Hload. apply (sf_loaded w Hs).
  - intros p t v pool Hv Hpool Ha Hr. by apply Hquiet, (sf_quiet w Hs p t v pool).
  - intros p t v Hv Hr. by eapply Hstop, (sf_retired w Hs).
  - intros t row pf Hrow Hpf. destruct (sf_proof w Hs t row pf Hrow Hpf) as (P1 & P2 & P3 & P4).
    split_and!; try done; [simpl; set_solver|]. intros p pool at_ Hat Hlt Hpool H2.
    specialize (P4 p pool at_ Hat Hlt Hpool H2). specialize (Hsplit t p). simpl. rewrite occ_app.
    destruct (decide (t = s)); [by subst|lia].
  - intros p pool t Hpool Hi. by apply Hquiet, (sf_idle w Hs p pool).
  - intros t p Ht. simpl in *. rewrite occ_filter, decide_True by set_solver.
    apply (sf_count w Hs). set_solver.
  - intros t p Ht. simpl in *. destruct (sf_alone w Hs t p) as [A1 A2]; [set_solver|].
    specialize (Hsplit t p). rewrite !occ_app, A1, A2. destruct (decide (t = s)); [set_solver|lia].
  - intros t p Ht. simpl. rewrite occ_filter. destruct (decide _) as [Hne|]; [|done]. simpl in Hne.
    apply (sf_dead w Hs). simpl in Ht. set_solver.
  - intros r Hr. destruct (sf_report w Hs r Hr) as ((t & R1 & R2 & R3 & R4 & R5) & R6 & R7).
    split; [|split; [done|]].
    + exists t. split_and!; try done. intros p Hna Hi. rewrite Hload. by apply R5.
    + intros Hc. destruct (R7 Hc) as [Hst Hcl]. split; [by apply Hstop|]. intros p. by rewrite Hload.
Qed.

(** Idle evidence is taken. *)
Lemma safe_idle w p t :
  safe w → w_now w ≤ t → (∀ s, (s, p) ∉ w_orphans w) →
  safe (mkWorld (w_db w) (w_gates w) (w_dead w) (w_flight w) (w_late w) (w_orphans w)
    (w_sent w) (w_reports w) ((p, t) :: w_idle w) t).
Proof.
  intros Hs Ht Hno. set (w' := mkWorld _ _ _ _ _ _ _ _ _ _).
  assert (∀ s q, quiet w s q → quiet w' s q) as Hquiet.
  { intros s q Hq. by apply (quiet_kept w); try apply Hq. }
  split; try apply Hs.
  - intros q s v pool Hv Hp Ha Hr. by apply Hquiet, (sf_quiet w Hs q s v pool).
  - intros s row pf Hrow Hpf. destruct (sf_proof w Hs s row pf Hrow Hpf) as (P1 & P2 & P3 & P4).
    simpl. split_and!; try done; [lia|]. intros q pool at_ [[= -> ->]|Hat]%elem_of_cons Hlt Hq H2.
    + by apply occ_zero.
    + by apply (P4 q pool at_).
  - intros q u [[= -> ->]|Hu]%elem_of_cons; simpl; [done|]. etrans; [by eapply (sf_evidence w Hs)|done].
  - intros q pool s Hp Hi. by apply Hquiet, (sf_idle w Hs q pool).
Qed.
End safety.
