(* ===== verification/Drain.v ===== *)
(** * Drain: a drained pool serves nothing

    The operations of the control plane keep the invariant of the world, and
    with it every reachable world is safe. *)

From S2P Require Import Prelude Domain Models Routing Fleet Store Routes.
From S2P Require Import Clusters Pools Snapshot Traffic Control Sessions Gate World Safety.
Local Open Scope Z_scope.

Section drain.
Context `{ControlLibraries}.

(** ** Changes of the database *)

Lemma quiet_db w d now s p :
  (fenced w s p → fenced (put_db d now (w_sent w) w) s p) →
  quiet w s p → quiet (put_db d now (w_sent w) w) s p.
Proof. intros Hf [Q1 Q2 Q3 Q4]. split; try done. destruct Q3; [by left|right; auto]. Qed.

(** Nothing of the fleet changes, and time may pass. *)
Lemma safe_same w d now :
  safe w → fleet d = fleet (w_db w) → w_now w ≤ now → safe (put_db d now (w_sent w) w).
Proof.
  intros Hs (E1 & E2 & E3)%fleet_inv Ht. set (w' := put_db _ _ _ _).
  assert (∀ s p, quiet w s p → quiet w' s p) as Hquiet.
  { intros s p. apply quiet_db. unfold fenced. simpl. by rewrite E1, E2. }
  split; simpl; rewrite ?E1, ?E2, ?E3; try apply Hs.
  - intros k p. simpl. rewrite E1. apply (sf_keyed w Hs).
  - intros p s v pool Hv Hp Ha Hr. by apply Hquiet, (sf_quiet w Hs p s v pool).
  - intros s row t Hrow Hpf. destruct (sf_proof w Hs s row t Hrow Hpf) as (? & ? & ? & P4).
    split_and!; try done. lia.
  - intros p t Hp. etrans; [by eapply (sf_evidence w Hs)|done].
  - intros p pool s Hp Hi. by apply Hquiet, (sf_idle w Hs p pool).
Qed.

(** A pool that no participant blocks has no request anywhere. *)
Lemma settled_quiet w p pool s :
  safe w → pools (control (w_db w)) !! p = Some pool → settled (control (w_db w)) pool → quiet w s p.
Proof.
  intros Hs Hp [Hi|[Hd Hb]]; [by apply (sf_idle w Hs p pool)|].
  destruct (views (control (w_db w)) !! (p, s)) as [v|] eqn:Hv.
  - assert (blocking (mp_generation pool) v = false) as Hbl.
    { apply not_true_iff_false. intros Ht. apply not_true_iff_false in Hb. destruct Hb.
      unfold blocked. rewrite (sf_keyed w Hs _ _ Hp). apply existsb_exists. exists (s, v).
      split; [|done]. by apply list_elem_of_In, elem_of_views_of. }
    unfold blocking in Hbl. apply orb_false_iff in Hbl as [Ha%negb_false_iff%Z.eqb_eq Hr].
    apply (sf_quiet w Hs p s v pool); try done. apply andb_false_iff in Hr as [Hr|Hr].
    + left. by apply negb_false_iff.
    + right. apply Z.ltb_ge in Hr. split; [done|]. by rewrite Hd.
  - assert (load w s p = 0%nat) as Hz.
    { destruct (decide (load w s p = 0%nat)) as [?|Hnz]; [done|].
      apply (sf_loaded w Hs) in Hnz as [v Hv']. congruence. }
    unfold load in Hz. split; try lia. right. intros t Ht Hid _ Hacc.
    destruct (sf_recorded w Hs t p Ht Hacc) as [v Hv']. rewrite Hid in Hv'. congruence.
Qed.

Lemma evolves_refl r p : evolves r p p.
Proof. split; try done; [|by left]. intros Hi. by left. Qed.

(** Pool rows appear or change. *)
Lemma safe_pools w d ps :
  safe w → keyed d →
  fleet d = (ps, sessions (control (w_db w)), views (control (w_db w))) →
  (∀ k p, pools (control (w_db w)) !! k = Some p → is_Some (ps !! k)) →
  (∀ k p', ps !! k = Some p' →
     match pools (control (w_db w)) !! k with
     | Some p => evolves (control (w_db w)) p p'
     | None => mp_state p' = PoolPending ∧ mp_generation p' = 1
     end) →
  safe (put_db d (w_now w) (w_sent w) w).
Proof.
  intros Hs Hk (E1 & E2 & E3)%fleet_inv Hkeep Hnew. set (w' := put_db _ _ _ _).
  assert (∀ k p, pools (control (w_db w)) !! k = Some p → ∃ p', ps !! k = Some p' ∧
    evolves (control (w_db w)) p p') as Hev.
  { intros k p Hp. destruct (Hkeep k p Hp) as [p' Hp']. exists p'. split; [done|].
    specialize (Hnew k p' Hp'). by rewrite Hp in Hnew. }
  assert (∀ k p p', pools (control (w_db w)) !! k = Some p → ps !! k = Some p' →
    evolves (control (w_db w)) p p') as Hev'.
  { intros k p p' Hp Hp'. destruct (Hev k p Hp) as (q & Hq & ?). by simplify_eq. }
  assert (∀ s p, quiet w s p → quiet w' s p) as Hquiet.
  { intros s p. apply quiet_db. unfold fenced. simpl. rewrite E1, E2.
    intros [Hrow (pool & Hpool & H2)]. split; [done|].
    destruct (Hev _ _ Hpool) as (pool' & Hp' & He). exists pool'. split; [done|].
    by rewrite (ev_binding _ _ _ He). }
  split; simpl; rewrite ?E1, ?E2, ?E3; try apply Hs; try done.
  - intros k p' Hp'. specialize (Hnew k p' Hp').
    destruct (pools _ !! k) as [p|] eqn:Hp; [|lia].
    pose proof (sf_positive w Hs k p Hp). pose proof (ev_generation _ _ _ Hnew). lia.
  - intros t c Ht Hc. destruct (sf_control w Hs t c Ht Hc) as (p & Hp & Hg & Ha).
    destruct (Hev _ _ Hp) as (p' & Hp' & He). exists p'. split; [done|].
    pose proof (ev_generation _ _ _ He). split; [lia|]. intros Hacc Heq.
    apply (ev_active _ _ _ He); [lia|]. apply Ha; [done|lia].
  - intros p s v Hv.
    destruct (sf_view w Hs p s v Hv) as (row & pool & t & c & V1 & V2 & V3 & V4).
    destruct (Hev _ _ V2) as (pool' & Hp' & He). pose proof (ev_generation _ _ _ He).
    exists row, pool', t, c. split_and!; try apply V4; try done; lia.
  - intros p s v pool' Hv Hp' Ha Hr.
    destruct (sf_view w Hs p s v Hv) as (row & pool & t & c & V1 & V2 & V3 & V4).
    pose proof (Hev' _ _ _ V2 Hp') as He. apply Hquiet, (sf_quiet w Hs p s v pool); try done.
    destruct Hr as [?|[Hg Hst]]; [by left|right]. pose proof (ev_generation _ _ _ He).
    split; [lia|]. intros Hact. apply Hst, (ev_active _ _ _ He); [lia|done].
  - intros s row t Hrow Hpf. destruct (sf_proof w Hs s row t Hrow Hpf) as (P1 & P2 & P3 & P4).
    split_and!; try done. intros p pool' at_ Hat Hlt Hp' H2. specialize (Hnew p pool' Hp').
    destruct (pools _ !! p) as [pool|] eqn:Hp.
    + apply (P4 p pool at_); try done. by rewrite <- (ev_binding _ _ _ Hnew).
    + destruct (decide (load w s p = 0%nat)) as [Hz|Hnz]; [unfold load in Hz; lia|].
      apply (sf_loaded w Hs) in Hnz as [v Hv].
      destruct (sf_view w Hs p s v Hv) as (? & ? & ? & ? & _ & ? & _). congruence.
  - intros p pool' s Hp' Hi. specialize (Hnew p pool' Hp').
    destruct (pools _ !! p) as [pool|] eqn:Hp.
    + apply Hquiet. eapply settled_quiet; [done..|]. by apply (ev_idle _ _ _ Hnew).
    + destruct Hnew as [Hst _]. by rewrite Hst in Hi.
Qed.

(** A session row changes, but not what it was sent; its proof stays, or is
    the one of a termination now. *)
Lemma safe_session w d now id row row' :
  safe w → w_now w ≤ now → sessions (control (w_db w)) !! id = Some row →
  sn_sequence row' = sn_sequence row →
  (sn_proof row' = sn_proof row ∨ id ∈ w_dead w ∧ sn_closed row' = true ∧
     ∃ t, sn_proof row' = Some t ∧ tm_observed_at t = now) →
  (sn_closed row = true → sn_closed row' = true) →
  fleet d = (pools (control (w_db w)), <[id := row']> (sessions (control (w_db w))),
    views (control (w_db w))) →
  safe (put_db d now (w_sent w) w).
Proof.
  intros Hs Hnow Hrow Hseq Hpf Hcl (E1 & E2 & E3)%fleet_inv. set (w' := put_db _ _ _ _).
  assert (∀ s r, sessions (control (w_db w)) !! s = Some r → ∃ r', sessions (control d) !! s = Some r' ∧
    sn_sequence r' = sn_sequence r ∧ (is_Some (sn_proof r) → is_Some (sn_proof r')) ∧
    (sn_closed r = true → sn_closed r' = true)) as Hup.
  { intros s r Hr. rewrite E2. destruct (decide (s = id)) as [->|Hne].
    - rewrite lookup_insert_eq. simplify_eq. exists row'. split_and!; try done.
      destruct Hpf as [->|(_ & _ & t & -> & _)]; [done|by eexists].
    - rewrite lookup_insert_ne by done. by exists r. }
  assert (∀ s p, quiet w s p → quiet w' s p) as Hquiet.
  { intros s p. apply quiet_db. unfold fenced. simpl. rewrite E1.
    intros [(r & Hr & Hc) Hpool]. split; [|done]. destruct (Hup s r Hr) as (r' & ? & _ & _ & ?).
    exists r'. auto. }
  split; simpl; rewrite ?E1, ?E3; try apply Hs.
  - intros k p. simpl. rewrite E1. apply (sf_keyed w Hs).
  - intros s r. rewrite E2. intros [[<- <-]|[_ Hr]]%lookup_insert_Some; [rewrite Hseq|];
      by eapply (sf_sequence w Hs).
  - intros t Ht. destruct (sf_session w Hs t Ht) as (r & Hr & Hlt).
    destruct (Hup _ _ Hr) as (r' & Hr' & Hq & _). exists r'. by rewrite Hq.
  - intros p s v Hv. destruct (sf_view w Hs p s v Hv) as (r & pool & t & c & V1 & V).
    destruct (Hup _ _ V1) as (r' & Hr' & Hs' & _). exists r', pool, t, c. by rewrite Hs'.
  - intros p s v Hv Hneg. destruct (sf_unknown w Hs p s v Hv Hneg) as (r & t & Hr & Ht).
    destruct (Hup _ _ Hr) as (r' & Hr' & _ & Hp' & _). rewrite Ht in Hp'.
    destruct (Hp' ltac:(by eexists)) as [t' Ht']. by exists r', t'.
  - intros p s v pool Hv Hp Ha Hr. by apply Hquiet, (sf_quiet w Hs p s v pool).
  - intros s r t Hr Ht.
    assert ((∃ r0, sessions (control (w_db w)) !! s = Some r0 ∧ sn_proof r0 = Some t) ∨
      s ∈ w_dead w ∧ sn_closed r = true ∧ tm_observed_at t = now) as [(r0 & Hr0 & Ht0)|(D1 & D2 & D3)].
    { rewrite E2 in Hr. apply lookup_insert_Some in Hr as [[<- <-]|[_ ?]]; [|left; by exists r].
      destruct Hpf as [Hpf|(? & ? & t' & Ht' & ?)]; [left; exists row; by rewrite <- Hpf|right].
      simplify_eq. done. }
    + destruct (sf_proof w Hs s r0 t Hr0 Ht0) as (P1 & P2 & P3 & P4).
      destruct (Hup _ _ Hr0) as (r' & Hr' & _ & _ & Hc'). simplify_eq. split_and!; auto. lia.
    + split_and!; try done; [lia|]. intros p pool at_ Hat Hlt. apply (sf_evidence w Hs) in Hat. lia.
  - intros p t Hp. etrans; [by eapply (sf_evidence w Hs)|done].
  - intros p pool s Hp Hi. by apply Hquiet, (sf_idle w Hs p pool).
Qed.

(** ** Steps of the fleet *)

Lemma safe_fleet_step w d : safe w → fleet_step (w_db w) d → safe (put_db d (w_now w) (w_sent w) w).
Proof.
  intros Hs Hst. pose proof (keyed_step _ _ (sf_keyed w Hs) Hst) as Hk. inversion Hst; subst.
  - by apply safe_same.
  - eapply safe_pools; [done..| |].
    + intros k q Hq. destruct (decide (k = mp_id p)) as [->|Hne]; [by rewrite lookup_insert_eq|].
      by rewrite lookup_insert_ne.
    + intros k q [[<- <-]|[Hne Hq]]%lookup_insert_Some.
      * match goal with Hp : pools _ !! mp_id p = Some p |- _ => by rewrite Hp end.
      * rewrite Hq. apply evolves_refl.
  - eapply safe_pools; [done..| |].
    + intros k q Hq. destruct (decide (k = mp_id p)) as [->|Hne]; [by rewrite lookup_insert_eq|].
      by rewrite lookup_insert_ne.
    + intros k q [[<- <-]|[Hne Hq]]%lookup_insert_Some.
      * match goal with Hp : pools _ !! mp_id p = None |- _ => by rewrite Hp end.
      * rewrite Hq. apply evolves_refl.
  - eapply safe_session; [done|done|eassumption|done|by left| |eassumption]. congruence.
Qed.

Lemma safe_fleet_steps w d : safe w → fleet_steps (w_db w) d → safe (put_db d (w_now w) (w_sent w) w).
Proof.
  intros Hs Hst. remember (w_db w) as d0 eqn:E. revert w Hs E.
  induction Hst as [d0|d0 d1 d2 H1 _ IH]; intros w Hs ->; [by apply safe_same|].
  apply (IH (put_db d1 (w_now w) (w_sent w) w)); [by apply safe_fleet_step|done].
Qed.

(** Views change, but not what they were sent. *)
Lemma safe_views w d vs :
  safe w → fleet d = (pools (control (w_db w)), sessions (control (w_db w)), vs) →
  (∀ k, is_Some (views (control (w_db w)) !! k) → is_Some (vs !! k)) →
  (∀ p s v', vs !! (p, s) = Some v' → ∃ v, views (control (w_db w)) !! (p, s) = Some v ∧
     vw_delivered_generation v' = vw_delivered_generation v ∧
     vw_acknowledged_generation v' ≤ vw_delivered_generation v ∧
     (vw_active_requests v' < 0 → ∃ row t, sessions (control (w_db w)) !! s = Some row ∧
        sn_proof row = Some t) ∧
     (vw_retired v' = true → stopped w s) ∧
     ∀ pool, pools (control (w_db w)) !! p = Some pool → vw_active_requests v' = 0 →
       vw_retired v' = true ∨
         mp_generation pool ≤ vw_acknowledged_generation v' ∧ mp_state pool ≠ PoolActive →
       quiet w s p) →
  safe (put_db d (w_now w) (w_sent w) w).
Proof.
  intros Hs (E1 & E2 & E3)%fleet_inv Hkeep Hv. set (w' := put_db _ _ _ _).
  assert (∀ s q, quiet w s q → quiet w' s q) as Hquiet.
  { intros s q. apply quiet_db. unfold fenced. simpl. by rewrite E1, E2. }
  split; simpl; rewrite ?E1, ?E2, ?E3; try apply Hs.
  - intros k q. simpl. rewrite E1. apply (sf_keyed w Hs).
  - intros x q Hx Ha. by eapply Hkeep, (sf_recorded w Hs).
  - intros s q Hl. by eapply Hkeep, (sf_loaded w Hs).
  - intros q s v' Hq. destruct (Hv _ _ _ Hq) as (v & Hold & D1 & D2 & _).
    destruct (sf_view w Hs q s v Hold) as (r & x & y & c & V1 & V2 & V3 & V).
    exists r, x, y, c. rewrite D1. split_and!; try apply V; try done; lia.
  - intros q s v' Hq. by destruct (Hv _ _ _ Hq) as (v & _ & _ & _ & ? & _).
  - intros q s v' x Hq Hx Ha Hr. destruct (Hv _ _ _ Hq) as (v & _ & _ & _ & _ & _ & Hqu).
    by eapply Hquiet, Hqu.
  - intros q s v' Hq. by destruct (Hv _ _ _ Hq) as (v & _ & _ & _ & _ & ? & _).
  - intros q x s Hq Hi. by apply Hquiet, (sf_idle w Hs q x).
Qed.

(** What [safe_views] asks, for a view that stays. *)
Lemma view_stays w p s v :
  safe w → views (control (w_db w)) !! (p, s) = Some v →
  ∃ v0, views (control (w_db w)) !! (p, s) = Some v0 ∧
    vw_delivered_generation v = vw_delivered_generation v0 ∧
    vw_acknowledged_generation v ≤ vw_delivered_generation v0 ∧
    (vw_active_requests v < 0 → ∃ row t, sessions (control (w_db w)) !! s = Some row ∧
       sn_proof row = Some t) ∧
    (vw_retired v = true → stopped w s) ∧
    ∀ pool, pools (control (w_db w)) !! p = Some pool → vw_active_requests v = 0 →
      vw_retired v = true ∨
        mp_generation pool ≤ vw_acknowledged_generation v ∧ mp_state pool ≠ PoolActive →
      quiet w s p.
Proof.
  intros Hs Hv. destruct (sf_view w Hs p s v Hv) as (r & x & y & c & _ & _ & V3 & _).
  exists v. split_and!; try done; [lia|..].
  - by apply (sf_unknown w Hs p).
  - by apply (sf_retired w Hs p s v).
  - intros pool Hp Ha Hr. by apply (sf_quiet w Hs p s v pool).
Qed.

(** Idle evidence clears the unknown work of a pool. *)
Lemma safe_idle_step w d p after t :
  safe w → idle_step p after (w_db w) d → (p, t) ∈ w_idle w → after < t →
  safe (put_db d (w_now w) (w_sent w) w).
Proof.
  intros Hs (Hall & (pool & Hpool & H2) & Hf) Hat Hlt.
  eapply safe_views; [done|exact Hf|..]; unfold clear_unknown.
  - intros k [v Hk]. rewrite map_lookup_imap, Hk. by eexists.
  - intros q s v'. rewrite map_lookup_imap.
    destruct (views (control (w_db w)) !! (q, s)) as [v|] eqn:Hq; [|done]. simpl. intros [= <-].
    destruct (str_eqb q p && vw_retired v && (vw_active_requests v <? 0)) eqn:E.
    2: { rewrite <- Hq. by apply view_stays. }
    rewrite !andb_true_iff, str_eqb_eq, Z.ltb_lt in E. simpl in E. destruct E as [[-> Hr] Ha].
    exists v. destruct (sf_view w Hs p s v Hq) as (r1 & p1 & t1 & c1 & _ & _ & V3 & _). simpl.
    split_and!; try done; [lia|by intros _; apply (sf_retired w Hs p s v)|]. intros _ _ _ _.
    destruct (Hall s v Hq Ha) as (row & pf & Hrow & Hpf & Hle).
    destruct (sf_proof w Hs s row pf Hrow Hpf) as (P1 & P2 & _ & P4). split.
    + by apply (sf_dead w Hs).
    + apply (P4 p pool t); try done. lia.
    + right. split; [by exists row|by exists pool].
    + by left; left.
Qed.

(** ** Reports and proofs *)

Lemma NoDup_same_key {A B} (f : A → B) l x y :
  NoDup (f <$> l) → x ∈ l → y ∈ l → f x = f y → x = y.
Proof.
  induction l as [|a l IH]; [by intros _ ?%elem_of_nil|].
  intros [Hout Hnd]%NoDup_cons [->|Hx]%elem_of_cons [->|Hy]%elem_of_cons Heq; [done|..|by apply IH].
  - destruct Hout. rewrite Heq. by apply list_elem_of_fmap_2.
  - destruct Hout. rewrite <- Heq. by apply list_elem_of_fmap_2.
Qed.

(** The database with another session row. *)
Definition with_session (id : string) (row : Session) (d : Db) : Db :=
  set_control (put_sessions (<[id := row]> (sessions (control d))) (control d)) d.

Lemma load_zero w s p : Z.of_nat (load w s p) ≤ 0 →
  occ (s, p) (w_flight w) = 0%nat ∧ occ (s, p) (w_late w) = 0%nat ∧ occ (s, p) (w_orphans w) = 0%nat.
Proof. unfold load. lia. Qed.

(** A report of nothing in flight, on a snapshot that does not accept or from
    a closed gateway, is true. *)
Lemma report_quiet w r row p v pool :
  safe w → r ∈ w_reports w → sessions (control (w_db w)) !! tp_session_id r = Some row →
  sn_sequence row = tp_sequence r → views (control (w_db w)) !! (p, tp_session_id r) = Some v →
  pools (control (w_db w)) !! p = Some pool → default 0 (tp_active r !! p) = 0 →
  tp_closed r = true ∨ mp_generation pool ≤ vw_delivered_generation v ∧ mp_state pool ≠ PoolActive →
  quiet w (tp_session_id r) p.
Proof.
  intros Hs Hr Hrow Hseq Hv Hpool Hzero Hwhy.
  destruct (sf_report w Hs r Hr) as ((t & R1 & R2 & R3 & R4 & R5) & _ & R7).
  destruct Hwhy as [Hc|[Hg Hst]].
  { destruct (R7 Hc) as [Hstop Hl]. specialize (Hl p). rewrite Hzero in Hl.
    apply load_zero in Hl as (? & ? & ?). split; auto. }
  destruct (sf_view w Hs p _ v Hv) as (row' & pool' & u & c & V1 & V2 & V3 & V4 & V5 & V6 & V7 & V8 & V9).
  simplify_eq. assert (u = t) as ->.
  { apply (sf_unique w Hs); try done; congruence. }
  assert (¬ accepts (pc_id c) t) as Hna.
  { intros (c' & Hc' & Hid & Hacc).
    assert (c' = c) as ->.
    { eapply NoDup_same_key; [apply (sf_distinct w Hs t R1)|done..]. }
    destruct (sf_control w Hs t c R1 V7) as (q & Hq & Hle & Hact). simplify_eq.
    apply Hst, Hact; [done|lia]. }
  assert (installed (gate w (tp_session_id r)) = tp_sequence r) as Hi.
  { destruct (sf_session w Hs t R1) as (row' & _ & Hpos).
    unfold installed in *. destruct (ga_snapshot _) as [x|] eqn:Hx; [|lia].
    destruct (sf_installed w Hs _ x Hx) as (Hsent & Hid & _).
    destruct (sf_session w Hs x Hsent) as (row2 & Hrow2 & Hlt). rewrite Hid in Hrow2. simplify_eq. lia. }
  specialize (R5 _ Hna Hi). rewrite Hzero in R5. apply load_zero in R5 as (? & ? & ?).
  split; auto. right. intros x Hx Hid Hle. assert (x = t) as ->; [|done].
  destruct (sf_session w Hs x Hx) as (row' & Hrow' & Hlt). rewrite Hid in Hrow'. simplify_eq.
  apply (sf_unique w Hs); try done; [congruence|lia].
Qed.

Lemma safe_accept w env r a d :
  safe w → r ∈ w_reports w → w_now w ≤ env_now env →
  traffic_report is_uuid env r (w_db w) = Ok (a, d) → safe (put_db d (env_now env) (w_sent w) w).
Proof.
  intros Hs Hr Hnow [Hf|(row & row' & Hrow & Hseq & Hseq' & Hpf & Hopen & Hc & E1 & E2 & Hv)]%traffic_report_Ok;
    [by apply safe_same|].
  set (d1 := with_session (tp_session_id r) row' (w_db w)).
  set (w1 := put_db d1 (env_now env) (w_sent w) w).
  assert (safe w1) as Hs1 by (eapply safe_session; [done|done|exact Hrow|done|by left|congruence|done]).
  apply (safe_views w1 d (views (control d))); [done|unfold fleet; by rewrite E1, E2|..].
  - intros [p s] [v Hk]. rewrite Hv. change (views (control (w_db w1))) with (views (control (w_db w))) in Hk.
    case_decide; rewrite Hk; by eexists.
  - intros p s v'. rewrite Hv. change (views (control (w_db w1))) with (views (control (w_db w))).
    case_decide as Hid; [|intros Hk; by apply (view_stays w1)]. subst s.
    destruct (views (control (w_db w)) !! (p, tp_session_id r)) as [v|] eqn:Hk; [|done].
    intros [= <-]. exists v. simpl. split; [done|]. split; [done|]. split; [done|].
    assert (0 ≤ default 0 (tp_active r !! p)) as Hpos.
    { destruct (tp_active r !! p) as [n|] eqn:Hn; [|done]. by apply (sf_report w Hs r Hr) in Hn. }
    split; [lia|]. split.
    + intros Hcl. by apply (sf_report w1 Hs1 r Hr).
    + intros pool Hp Hz Hwhy. eapply (report_quiet w1 r row'); try done.
      * simpl. by rewrite lookup_insert_eq.
      * congruence.
Qed.

Lemma safe_proof w hash env id token proof u d :
  safe w → w_now w ≤ env_now env →
  (gp_outcome proof = "terminated"%string → gp_session_id proof ∈ w_dead w) →
  gateway_proof hash env id token proof (w_db w) = Ok (u, d) →
  safe (put_db d (env_now env) (w_sent w) w).
Proof.
  intros Hs Hnow Hdead (row & row' & Hrow & Hseq & Hcl & [[Hpf Hf]|(Ho & Hpf & Hc & Hf)])%gateway_proof_Ok.
  { eapply safe_session; [done|done|exact Hrow|done|by left|done|exact Hf]. }
  set (s := gp_session_id proof) in *. pose proof (Hdead Ho) as Hd.
  set (d1 := with_session s row' (w_db w)). set (w1 := put_db d1 (env_now env) (w_sent w) w).
  assert (safe w1) as Hs1.
  { eapply safe_session; [done|done|exact Hrow|done| |done|done]. right. split_and!; try done.
    eexists. by split. }
  apply (safe_views w1 d (retire_views s (views (control (w_db w))))); [done|exact Hf|..];
    unfold retire_views; change (views (control (w_db w1))) with (views (control (w_db w))).
  - intros k [v Hk]. rewrite map_lookup_imap, Hk. by eexists.
  - intros p t v'. rewrite map_lookup_imap.
    destruct (views (control (w_db w)) !! (p, t)) as [v|] eqn:Hv; [|done]. simpl. intros [= <-].
    destruct (str_eqb t s) eqn:E; [|rewrite <- Hv; by apply (view_stays w1)].
    apply str_eqb_eq in E as ->. exists v.
    destruct (sf_view w Hs p s v Hv) as (r1 & p1 & t1 & c1 & _ & _ & V3 & _). simpl.
    split_and!; try done; [lia|..].
    + intros _. exists row'. eexists. split; [by rewrite lookup_insert_eq|done].
    + by left.
Qed.

(** ** Snapshots *)

Section snapshot.
Context (w : World) (id : string) (s : TrafficSnapshot) (d : Db) (now : Z).
Hypotheses (Hs : safe w) (Hnow : w_now w ≤ now) (Hd : delivered (w_db w) id s d).
Let w' : World := put_db d now (s :: w_sent w) w.

Lemma sent_accepts p : accepts p s → ∃ pool, pools (control (w_db w)) !! p = Some pool ∧
  mp_state pool = PoolActive ∧ is_Some (views (control d) !! (p, id)).
Proof using Hs Hd.
  intros (c & Hc & <- & Hacc). destruct (dv_controls _ _ _ _ Hd) as (acc & Ha & Hp & _ & Hv).
  rewrite Hp in Hc. apply list_elem_of_fmap in Hc as (q & -> & Hq). simpl in *.
  exists q. split; [by apply all_pools_spec; [apply (sf_keyed w Hs)|]|]. split; [by apply Ha|].
  rewrite Hv, Hacc by done. unfold delivered_view. by destruct (views _ !! _); eexists.
Qed.

Lemma sent_views p t v' : views (control d) !! (p, t) = Some v' →
  (views (control (w_db w)) !! (p, t) = Some v' ∧ t ≠ id) ∨
  t = id ∧ ∃ q, q ∈ all_pools (w_db w) ∧ mp_id q = p ∧ vw_delivered_generation v' = mp_generation q ∧
    ((∃ v, views (control (w_db w)) !! (p, t) = Some v ∧
        vw_acknowledged_generation v' = vw_acknowledged_generation v ∧
        vw_active_requests v' = vw_active_requests v ∧ vw_retired v' = vw_retired v) ∨
     vw_acknowledged_generation v' = 0 ∧ vw_active_requests v' = 0 ∧ vw_retired v' = false).
Proof using Hs Hd.
  intros Hv. destruct (dv_controls _ _ _ _ Hd) as (acc & _ & _ & Hother & Hmine).
  destruct (decide (t = id)) as [->|Hne].
  2: { left. split; [|done]. rewrite <- Hother; auto. }
  right. split; [done|]. destruct (decide (p ∈ mp_id <$> all_pools (w_db w))) as [Hin|Hout].
  - apply list_elem_of_fmap in Hin as (q & -> & Hq). exists q. split; [done|]. split; [done|].
    rewrite Hmine in Hv by done. unfold delivered_view in Hv.
    destruct (views (control (w_db w)) !! (mp_id q, id)) as [v|] eqn:Hold.
    + injection Hv as <-. split; [done|]. left. by exists v.
    + destruct (acc q); [|done]. injection Hv as <-. split; [done|]. by right.
  - rewrite Hother in Hv by auto.
    destruct (sf_view w Hs p id v' Hv) as (_ & pool & _ & _ & _ & Hp & _). destruct Hout.
    apply list_elem_of_fmap. exists pool. rewrite (sf_keyed w Hs _ _ Hp). split; [done|].
    apply all_pools_spec; [apply (sf_keyed w Hs)|]. by rewrite (sf_keyed w Hs _ _ Hp).
Qed.

Lemma sent_keeps k : is_Some (views (control (w_db w)) !! k) → is_Some (views (control d) !! k).
Proof using Hs Hd.
  destruct k as [p t]. intros [v Hv]. destruct (dv_controls _ _ _ _ Hd) as (acc & _ & _ & Hother & Hmine).
  destruct (decide (t = id ∧ p ∈ mp_id <$> all_pools (w_db w))) as [[-> Hin]|Hout].
  - apply list_elem_of_fmap in Hin as (q & -> & Hq). rewrite Hmine, Hv by done. by eexists.
  - rewrite Hother; [by eexists|]. destruct (decide (t = id)); [right|by left]. naive_solver.
Qed.

Lemma sent_quiet t p : (t = id → stopped w t ∨ ¬ accepts p s) → quiet w t p → quiet w' t p.
Proof using Hs Hd.
  intros Ha [Q1 Q2 Q3 Q4]. destruct (dv_row _ _ _ _ Hd) as (row & Er & _ & _ & Hopen).
  split; [done|done| |].
  - destruct Q3 as [?|[(r & Hr & Hc) Hp]]; [by left|right]. split; simpl.
    + exists r. rewrite Er, lookup_insert_ne; [done|]. intros <-. apply Hopen in Hr. congruence.
    + by rewrite (dv_pools _ _ _ _ Hd).
  - destruct Q4 as [?|Q4]; [by left|]. destruct (decide (t = id)) as [->|Hne].
    + destruct (Ha eq_refl) as [?|Hna]; [by left|right]. intros x [->|Hx]%elem_of_cons Hid Hle; [done|].
      by apply Q4.
    + right. intros x [->|Hx]%elem_of_cons Hid Hle; [|by apply Q4].
      destruct Hne. by rewrite <- Hid, (dv_session _ _ _ _ Hd).
Qed.

Lemma safe_snapshot : safe w'.
Proof using Hs Hnow Hd.
  destruct (dv_row _ _ _ _ Hd) as (row & Er & Hseq & Hpf & Hopen).
  pose proof (dv_pools _ _ _ _ Hd) as Ep. pose proof (dv_sequence _ _ _ _ Hd) as Es.
  pose proof (dv_session _ _ _ _ Hd) as Hid.
  assert (∀ r, sessions (control (w_db w)) !! id = Some r → sequence_of (sessions (control (w_db w)) !! id)
    = sn_sequence r ∧ 0 ≤ sn_sequence r) as Hold.
  { intros r Hr. rewrite Hr. split; [done|]. by apply (sf_sequence w Hs id). }
  assert (0 ≤ sequence_of (sessions (control (w_db w)) !! id)) as Hpos.
  { destruct (sessions (control (w_db w)) !! id) as [r|] eqn:Hr; [|done]. by apply (sf_sequence w Hs id). }
  assert (∀ t r, sessions (control (w_db w)) !! t = Some r → t ≠ id → sessions (control d) !! t = Some r) as Hkept.
  { intros t r Hr Hne. by rewrite Er, lookup_insert_ne. }
  assert (sessions (control d) !! id = Some row) as Hmine by (by rewrite Er, lookup_insert_eq).
  assert (∀ x, x ∈ w_sent w → ts_session_id x = id → ts_sequence x < ts_sequence s) as Hlater.
  { intros x Hx Hxid. destruct (sf_session w Hs x Hx) as (r & Hr & Hlt). rewrite Hxid in Hr.
    destruct (Hold r Hr). lia. }
  split; simpl; rewrite ?Ep; try apply Hs.
  - intros k q. simpl. rewrite Ep. apply (sf_keyed w Hs).
  - intros t r. rewrite Er. intros [[<- <-]|[_ Hr]]%lookup_insert_Some; [lia|].
    by apply (sf_sequence w Hs t).
  - intros x [->|Hx]%elem_of_cons; [rewrite Hid; exists row; split; [done|lia]|].
    destruct (sf_session w Hs x Hx) as (r & Hr & Hlt).
    destruct (decide (ts_session_id x = id)) as [Hxid|Hne]; [|exists r; split; [by apply Hkept|done]].
    rewrite Hxid in *. exists row. split; [done|]. destruct (Hold r Hr). lia.
  - intros x y [->|Hx]%elem_of_cons [->|Hy]%elem_of_cons Hxy Hsy; [done|..].
    + assert (ts_session_id y = id) as Hy' by congruence. pose proof (Hlater y Hy Hy'). lia.
    + assert (ts_session_id x = id) as Hx' by congruence. pose proof (Hlater x Hx Hx'). lia.
    + by apply (sf_unique w Hs).
  - intros x [->|Hx]%elem_of_cons; [|by apply (sf_distinct w Hs)].
    destruct (dv_controls _ _ _ _ Hd) as (acc & _ & -> & _). rewrite <- list_fmap_compose.
    apply (all_pools_spec (w_db w)). apply (sf_keyed w Hs).
  - intros x c [->|Hx]%elem_of_cons Hc; [|by apply (sf_control w Hs x)].
    destruct (dv_controls _ _ _ _ Hd) as (acc & Ha & Hp & _). rewrite Hp in Hc.
    apply list_elem_of_fmap in Hc as (q & -> & Hq). exists q. simpl.
    split; [by apply all_pools_spec; [apply (sf_keyed w Hs)|]|]. split; [done|]. intros Hacc _. by apply Ha.
  - intros x p [->|Hx]%elem_of_cons Ha.
    + rewrite Hid. by apply sent_accepts in Ha as (_ & _ & _ & ?).
    + by apply sent_keeps, (sf_recorded w Hs).
  - intros t p Hl. by apply sent_keeps, (sf_loaded w Hs).
  - intros p t v' Hv. destruct (sent_views p t v' Hv) as [[Hv0 Hne]|(-> & q & Hq & <- & Hg & Hack)].
    + destruct (sf_view w Hs p t v' Hv0) as (r & pool & x & c & V1 & V2 & V3 & V4 & V5).
      exists r, pool, x, c. split; [by apply Hkept|]. split; [done|]. split; [done|].
      split; [by right|done].
    + assert (pools (control (w_db w)) !! mp_id q = Some q) as Hp
        by (by apply all_pools_spec; [apply (sf_keyed w Hs)|]).
      destruct (dv_controls _ _ _ _ Hd) as (acc & _ & Hc & _).
      exists row, q, s, (mkControl (mp_id q) (mp_generation q) (acc q)). rewrite Hg.
      split; [done|]. split; [done|]. split.
      { split; [|done]. pose proof (sf_positive w Hs _ _ Hp).
        destruct Hack as [(v & Hv0 & -> & _)|(-> & _)]; [|lia].
        destruct (sf_view w Hs _ _ v Hv0) as (r & pool & x & c & _ & V2 & V3 & _). simplify_eq. lia. }
      split; [by left|]. split; [done|]. split; [done|]. split; [|done].
      rewrite Hc. by apply (list_elem_of_fmap_2 (λ p, mkControl (mp_id p) (mp_generation p) (acc p))).
  - intros p t v' Hv Hneg. destruct (sent_views p t v' Hv) as [[Hv0 Hne]|(-> & q & Hq & <- & Hg & Hack)].
    + destruct (sf_unknown w Hs p t v' Hv0 Hneg) as (r & x & Hr & Hx). exists r, x. auto.
    + destruct Hack as [(v & Hv0 & _ & Ha & _)|(_ & Ha & _)]; [|lia]. rewrite Ha in Hneg.
      destruct (sf_unknown w Hs _ id v Hv0 Hneg) as (r & x & Hr & Hx). exists row, x.
      split; [done|]. by rewrite Hpf, Hr.
  - intros p t v' pool Hv Hp Ha Hr.
    destruct (sent_views p t v' Hv) as [[Hv0 Hne]|(-> & q & Hq & <- & Hg & Hack)].
    + apply sent_quiet; [done|]. by apply (sf_quiet w Hs p t v' pool).
    + destruct Hack as [(v & Hv0 & A1 & A2 & A3)|(A1 & _ & A3)].
      * rewrite A1, A2, A3 in *. apply sent_quiet; [|by apply (sf_quiet w Hs _ id v pool)]. intros _.
        destruct Hr as [Hr|[_ Hst]]; [left; by apply (sf_retired w Hs _ id v Hv0)|right].
        intros (pool' & Hp' & Hact & _)%sent_accepts. simplify_eq.
      * rewrite A3 in Hr. destruct Hr as [?|[Hr _]]; [done|].
        pose proof (sf_positive w Hs _ _ Hp). lia.
  - intros p t v' Hv Hr. destruct (sent_views p t v' Hv) as [[Hv0 Hne]|(-> & q & Hq & <- & Hg & Hack)].
    + by apply (sf_retired w Hs p t v').
    + destruct Hack as [(v & Hv0 & _ & _ & A3)|(_ & _ & A3)]; [|congruence]. rewrite A3 in Hr.
      exact (sf_retired w Hs _ _ _ Hv0 Hr).
  - intros t r x Hr Hx. destruct (decide (t = id)) as [Ht|Hne].
    + rewrite Ht, Hmine in Hr. injection Hr as <-. rewrite Hpf in Hx. destruct (sessions (control (w_db w)) !! id) as [r0|] eqn:Hr0; [|done].
      destruct (sf_proof w Hs id r0 x Hr0 Hx) as (_ & Hc & _). specialize (Hopen r0 eq_refl). congruence.
    + rewrite Er, lookup_insert_ne in Hr by done.
      destruct (sf_proof w Hs t r x Hr Hx) as (P1 & P2 & P3 & P4). split_and!; try done. lia.
  - intros p t Hp. etrans; [by eapply (sf_evidence w Hs)|done].
  - intros p pool t Hp Hi. apply sent_quiet; [|by apply (sf_idle w Hs p pool)].
    intros _. right. intros (pool' & Hp' & Hact & _)%sent_accepts. simplify_eq. by rewrite Hact in Hi.
  - intros t x Hx. destruct (sf_installed w Hs t x Hx) as (? & ? & ?). split; [by right|done].
  - intros r Hr. destruct (sf_report w Hs r Hr) as ((x & R1 & R2) & R3). split; [|done].
    exists x. split; [by right|done].
Qed.
End snapshot.

(** ** Every reachable world is safe *)

Lemma safe_time w t : safe w → w_now w ≤ t → safe (put_db (w_db w) t (w_sent w) w).
Proof. intros Hs Ht. by apply safe_same. Qed.

(** An operation that moves rows of the fleet one by one. *)
Lemma safe_steps w t d :
  safe w → w_now w ≤ t → fleet_steps (w_db w) d → safe (put_db d t (w_sent w) w).
Proof.
  intros Hs Ht Hst. apply (safe_fleet_steps (put_db (w_db w) t (w_sent w) w)); [by apply safe_time|done].
Qed.

Lemma safe_observe w env id token report a d :
  safe w → w_now w ≤ env_now env → attested w (ObservePool id token report) →
  observe_pool digest document_bytes env id token report (w_db w) = Ok (a, d) →
  safe (put_db d (env_now env) (w_sent w) w).
Proof.
  intros Hs Ht Hatt Hrun.
  apply observe_pool_Ok in Hrun as (d1 & d2 & H1 & H2 & H3); [|apply (sf_keyed w Hs)].
  pose proof (safe_steps w _ d1 Hs Ht H1) as Hs1.
  assert (safe (put_db d2 (env_now env) (w_sent w) w)) as Hs2.
  { destruct H2 as [H2|(Hi & after & Ha & H2)].
    - by apply (safe_same (put_db d1 (env_now env) (w_sent w) w)).
    - destruct (Hatt Hi) as (after' & t & Ha' & Hin & Hlt). simplify_eq.
      by eapply (safe_idle_step (put_db d1 (env_now env) (w_sent w) w)). }
  by apply (safe_fleet_steps (put_db d2 (env_now env) (w_sent w) w)).
Qed.

Lemma safe_control w env o u d :
  safe w → w_now w ≤ env_now env → attested w o → run_control env o (w_db w) = Ok (u, d) →
  safe (put_db d (env_now env) (w_sent w) w).
Proof.
  intros Hs Ht Hatt Hrun. pose proof (sf_keyed w Hs) as Hk.
  pose proof (quiet_operations env o) as Hquiet.
  destruct o; try (apply safe_steps; [done|done|by eapply (preserves_fleet _ (Hquiet I))]);
    clear Hquiet; cbn [run_control] in Hrun; try apply ignore_Ok in Hrun as [a Hrun].
  - by eapply safe_steps, put_desired_steps.
  - by eapply safe_steps, bind_pool_steps.
  - by eapply safe_steps, pool_transition_steps.
  - by eapply safe_steps, observation_tasks_steps.
  - by eapply safe_observe.
  - done.
  - by eapply safe_accept.
  - by eapply safe_steps, proof_tasks_steps.
  - by eapply safe_proof.
Qed.

Lemma safe_step w w' : safe w → world_step w w' → safe w'.
Proof.
  intros Hs Hst. destruct Hst.
  - apply safe_same; [done| |done]. unfold fleet. by match goal with E : control _ = _ |- _ => rewrite E end.
  - by eapply safe_control.
  - match goal with Hrun : traffic_snapshot _ _ _ _ _ _ _ _ _ = _, Hg : gs_traffic _ = Some _ |- _ =>
      apply traffic_snapshot_Ok in Hrun as (s' & Hs' & Hd); [|apply (sf_keyed w Hs)]; simplify_eq end.
    by eapply safe_snapshot.
  - by eapply safe_install.
  - by eapply safe_enter.
  - by apply safe_leave.
  - by apply safe_report.
  - by apply safe_close.
  - by apply safe_stop.
  - by apply safe_late.
  - by eapply safe_lost.
  - by eapply safe_served.
  - by apply safe_idle.
Qed.

Lemma initial_safe : safe initial.
Proof.
  split; try done; simpl; try (by intros; by set_solver).
Qed.

Lemma safe_run w w' : safe w → rtc world_step w w' → safe w'.
Proof. intros Hs Hr. induction Hr; eauto using safe_step. Qed.

Lemma reachable_safe w : reachable w → safe w.
Proof. apply safe_run, initial_safe. Qed.

(** ** Deployments change only when nothing uses them *)

Definition unused (w : World) (p : string) : Prop :=
  ∀ s, ((s, p) ∉ w_flight w) ∧ ((s, p) ∉ w_orphans w).

Lemma quiet_unused w p : (∀ s, quiet w s p) → unused w p.
Proof. intros Hq s. rewrite <- !occ_zero. by destruct (Hq s). Qed.

(** From one database to another, every deployment only grows, or is unused. *)
Definition specs_fenced (w : World) : relation Db := λ d d',
  ∀ p pool, pools (control d) !! p = Some pool → ∃ pool', pools (control d') !! p = Some pool' ∧
    (rtc scaled_up (mp_expected_spec pool) (mp_expected_spec pool') ∨ unused w p).

#[local] Instance specs_fenced_preorder w : PreOrder (specs_fenced w).
Proof.
  split; [intros d p pool Hp; exists pool; split; [done|left; apply rtc_refl]|].
  intros d1 d2 d3 H1 H2 p pool Hp. destruct (H1 p pool Hp) as (q & Hq & Hg).
  destruct (H2 p q Hq) as (r & Hr & Hg'). exists r. split; [done|].
  destruct Hg as [Hg|?]; [|by right]. destruct Hg' as [Hg'|?]; [left|by right]. by etrans.
Qed.

Lemma same_specs_fenced w d d' : pools (control d') = pools (control d) → specs_fenced w d d'.
Proof. intros E p pool Hp. exists pool. rewrite E. split; [done|left; apply rtc_refl]. Qed.

Lemma step_specs_fenced w d : safe w → fleet_step (w_db w) d → specs_fenced w (w_db w) d.
Proof.
  intros Hs Hst. inversion Hst; subst;
    match goal with E : fleet _ = _ |- _ => apply fleet_inv in E as (Hps & _ & _) end.
  - by apply same_specs_fenced.
  - intros k q Hq. rewrite Hps. destruct (decide (k = mp_id p)) as [->|Hne].
    2: { exists q. rewrite lookup_insert_ne by done. split; [done|left; apply rtc_refl]. }
    exists p'. rewrite lookup_insert_eq. split; [done|]. simplify_eq.
    match goal with He : evolves _ _ _ |- _ => destruct (ev_spec _ _ _ He) as [->|[Hup|Hset]] end.
    + left. apply rtc_refl.
    + left. by apply rtc_once.
    + right. apply quiet_unused. intros s. by eapply settled_quiet.
  - intros k q Hq. exists q. rewrite Hps, lookup_insert_ne; [split; [done|left; apply rtc_refl]|]. congruence.
  - by apply same_specs_fenced.
Qed.

Lemma steps_specs_fenced w d : safe w → fleet_steps (w_db w) d → specs_fenced w (w_db w) d.
Proof.
  intros Hs Hst. remember (w_db w) as d0 eqn:E. revert w Hs E.
  induction Hst as [d0|d0 d1 d2 H1 _ IH]; intros w Hs ->; [reflexivity|].
  etrans; [by apply step_specs_fenced|].
  exact (IH (put_db d1 (w_now w) (w_sent w) w) (safe_fleet_step w d1 Hs H1) eq_refl).
Qed.

Lemma observe_specs_fenced w env id token report a d :
  safe w → w_now w ≤ env_now env → attested w (ObservePool id token report) →
  observe_pool digest document_bytes env id token report (w_db w) = Ok (a, d) →
  specs_fenced w (w_db w) d.
Proof.
  intros Hs Ht Hatt Hrun.
  apply observe_pool_Ok in Hrun as (d1 & d2 & H1 & H2 & H3); [|apply (sf_keyed w Hs)].
  etrans; [by apply steps_specs_fenced|].
  assert (pools (control d2) = pools (control d1)) as E.
  { destruct H2 as [H2|(_ & after & _ & _ & _ & H2)]; by apply fleet_inv in H2 as (? & _). }
  etrans; [by apply same_specs_fenced|].
  pose proof (safe_steps w _ d1 Hs Ht H1) as Hs1.
  apply (steps_specs_fenced (put_db d2 (env_now env) (w_sent w) w)); [|done].
  destruct H2 as [H2|(Hi & after & Ha & H2)].
  - by apply (safe_same (put_db d1 (env_now env) (w_sent w) w)).
  - destruct (Hatt Hi) as (after' & t & Ha' & Hin & Hlt). simplify_eq.
    by eapply (safe_idle_step (put_db d1 (env_now env) (w_sent w) w)).
Qed.

Lemma control_specs_fenced w env o u d :
  safe w → w_now w ≤ env_now env → attested w o → run_control env o (w_db w) = Ok (u, d) →
  specs_fenced w (w_db w) d.
Proof.
  intros Hs Ht Hatt Hrun. pose proof (sf_keyed w Hs) as Hk.
  pose proof (quiet_operations env o) as Hquiet.
  destruct o; try (apply steps_specs_fenced; [done|by eapply (preserves_fleet _ (Hquiet I))]);
    clear Hquiet; cbn [run_control] in Hrun; try apply ignore_Ok in Hrun as [a Hrun].
  - by eapply steps_specs_fenced, put_desired_steps.
  - by eapply steps_specs_fenced, bind_pool_steps.
  - by eapply steps_specs_fenced, pool_transition_steps.
  - by eapply steps_specs_fenced, observation_tasks_steps.
  - by eapply observe_specs_fenced.
  - done.
  - apply same_specs_fenced. apply traffic_report_Ok in Hrun as
      [Hf|(row & row' & _ & _ & _ & _ & _ & _ & E & _)]; [by apply fleet_pools|done].
  - by eapply steps_specs_fenced, proof_tasks_steps.
  - apply same_specs_fenced. apply gateway_proof_Ok in Hrun as
      (row & row' & _ & _ & _ & [[_ Hf]|(_ & _ & _ & Hf)]); by apply fleet_inv in Hf as (? & _).
Qed.

(** C11: a running deployment is never taken from under its requests.  Whatever
    operation of the control plane commits in a reachable world, the expected
    deployment of a pool stays, or only its replicas grow, or no gateway has a
    request to the pool in flight and its entry serves none that a stopped
    gateway left behind. *)
Theorem deployment_changes_fenced w env o u d p pool pool' :
  reachable w → w_now w ≤ env_now env → attested w o → run_control env o (w_db w) = Ok (u, d) →
  pools (control (w_db w)) !! p = Some pool → pools (control d) !! p = Some pool' →
  rtc scaled_up (mp_expected_spec pool) (mp_expected_spec pool') ∨
  ∀ s, ((s, p) ∉ w_flight w) ∧ ((s, p) ∉ w_orphans w).
Proof.
  intros Hr Ht Hatt Hrun Hp Hp'.
  destruct (control_specs_fenced w env o u d (reachable_safe w Hr) Ht Hatt Hrun p pool Hp)
    as (q & Hq & Hg). by simplify_eq.
Qed.

(** C10: a drained pool serves nothing.  In every reachable interleaving of the
    control plane, the gateways and the entries (snapshots and reports late,
    lost or repeated, gateways stopping at any moment), once a pool is drained
    or retired no gateway has a request to it in flight, its entry serves none
    that a stopped gateway left behind, no running gateway can admit another
    under any generation, and a request still on its way from a stopped
    gateway is refused. *)
Theorem drained_pools_quiet w p pool s :
  reachable w → pools (control (w_db w)) !! p = Some pool →
  mp_state pool = PoolDrained ∨ mp_state pool = PoolRetired →
  ((s, p) ∉ w_flight w) ∧ ((s, p) ∉ w_orphans w) ∧
  (∀ now n g, s ∉ w_dead w → enter now p n (gate w s) ≠ Ok g) ∧
  ((s, p) ∈ w_late w → ¬ admitted_late w s p).
Proof.
  intros Hr Hp Hst. pose proof (reachable_safe w Hr) as Hs.
  assert (quiet w s p) as [Q1 Q2 Q3 Q4].
  { apply (sf_idle w Hs p pool s Hp). by destruct Hst as [-> | ->]. }
  rewrite <- !occ_zero. split_and!; try done.
  - intros now n g Hd (Hopen & _ & Ha & _)%enter_Ok. destruct Q4 as [[?|?]|Q4]; [done|congruence|].
    destruct (ga_snapshot (gate w s)) as [t|] eqn:Ht.
    + destruct (sf_installed w Hs s t Ht) as (Hsent & Hid & Hc).
      apply (Q4 t Hsent Hid); [unfold installed; by rewrite Ht|]. by eapply admits_control.
    + unfold admits in Ha. by rewrite (sf_none w Hs s Ht), lookup_empty in Ha.
  - intros Hl. destruct Q3 as [Q3|Hf]; [by apply occ_zero in Q3|].
    intros Ha. by eapply admitted_not_fenced.
Qed.
End drain.
