(* ===== verification/Rollout.v ===== *)
(** * Rollout: a scheduler for the world, and a pool from bind to drain

    [drive] carries out one event when it is possible, so a list of events is
    an interleaving that evaluates; every world it reaches is reachable.  The
    script binds a pool, serves a request through a gateway, drains the pool
    and rescales its deployment, and the theorems of Drain.v apply to it. *)

From S2P Require Import Prelude Domain Models Routing Fleet Store Catalog Routes.
From S2P Require Import Clusters Pools Snapshot Traffic Control Sessions Gate World Safety Drain.
Local Open Scope Z_scope.

(** ** Events *)

Inductive event :=
| Boot (env : Env)
| Call (env : Env) (o : control_op)
| Fetch (env : Env) (id : string) (token : string)
| Install (s : string) (n : nat) (time : Z)
| Admit (s : string) (now : Z) (p : string) (generation : Z)
| Finish (s p : string)
| Post (s : string)
| Deliver (env : Env) (n : nat)
| Shut (s : string).

Section drive.
Context `{ControlLibraries}.

(** The operations that need no attestation. *)
Definition unattested (o : control_op) : bool :=
  match o with
  | AcceptReport _ | SendSnapshot _ _ _ _ => false
  | ObservePool _ _ report => negb (po_idle report)
  | AcceptProof _ _ proof => negb (str_eqb (gp_outcome proof) "terminated")
  | _ => true
  end.

Definition no_snapshot : GatewaySnapshot := mkGatewaySnapshot 0 [] [] (mkCatalogSnapshot [] []) None.

Definition gate_event (w : World) (s : string) (r : result string Gate) (flight : list request)
    : option World :=
  match r with
  | Ok g => if decide (s ∈ w_dead w) then None else Some (put_gate s g flight (w_reports w) w)
  | Err _ => None
  end.

(** The request that leaves, removed. *)
Fixpoint remove_request (x : request) (l : list request) : option (list request) :=
  match l with
  | [] => None
  | y :: l => if decide (y = x) then Some l else cons y <$> remove_request x l
  end.

Definition call_event (w : World) (env : Env) (o : control_op) : option World :=
  if w_now w <=? env_now env then
    match run_control env o (w_db w) with
    | Ok (_, d) => Some (put_db d (env_now env) (w_sent w) w)
    | Err _ => None
    end
  else None.

Definition drive (w : World) (e : event) : option World :=
  match e with
  | Boot env => Some (put_db (commit (bootstrap_catalog env) (w_db w)) (w_now w) (w_sent w) w)
  | Call env o => if unattested o then call_event w env o else None
  | Fetch env id token =>
      if w_now w <=? env_now env then
        match traffic_snapshot digest is_uuid attribution_required env id None no_snapshot token (w_db w) with
        | Ok (g, d) => s ← gs_traffic g; Some (put_db d (env_now env) (s :: w_sent w) w)
        | Err _ => None
        end
      else None
  | Install s n time =>
      snapshot ← w_sent w !! n;
      gate_event w s (install is_uuid s snapshot time (gate w s)) (w_flight w)
  | Admit s now p generation =>
      gate_event w s (enter now p generation (gate w s)) ((s, p) :: w_flight w)
  | Finish s p =>
      flight ← remove_request (s, p) (w_flight w);
      gate_event w s (Ok (leave p (gate w s))) flight
  | Post s =>
      r ← report s (gate w s);
      if decide (s ∈ w_dead w) then None
      else Some (put_gate s (gate w s) (w_flight w) (r :: w_reports w) w)
  | Deliver env n =>
      r ← w_reports w !! n;
      call_event w env (AcceptReport r)
  | Shut s => gate_event w s (Ok (close (gate w s))) (w_flight w)
  end.

Definition play (w : World) (l : list event) : option World :=
  foldl (λ o e, w ← o; drive w e) (Some w) l.

(** ** The scheduler follows the steps of the world *)

Lemma remove_request_Some x l k : remove_request x l = Some k → ∃ a b, l = a ++ x :: b ∧ k = a ++ b.
Proof.
  revert k. induction l as [|y l IH]; intros k Hk; simpl in Hk; [done|].
  destruct (decide (y = x)) as [->|Hne].
  - injection Hk as <-. by exists [], l.
  - destruct (remove_request x l) as [r|]; [|done]. injection Hk as <-.
    destruct (IH r eq_refl) as (a & b & -> & ->). by exists (y :: a), b.
Qed.

Lemma gate_event_Some w s r flight w' :
  gate_event w s r flight = Some w' →
  ∃ g, r = Ok g ∧ (s ∉ w_dead w) ∧ w' = put_gate s g flight (w_reports w) w.
Proof. unfold gate_event. destruct r as [g|]; [|done]. case_decide; naive_solver. Qed.

Lemma call_event_Some w env o w' : attested w o → call_event w env o = Some w' → world_step w w'.
Proof.
  unfold call_event. intros Ha Hw. destruct (Z.leb_spec (w_now w) (env_now env)); [|done].
  destruct (run_control env o (w_db w)) as [[u d]|] eqn:Hrun; [|done]. injection Hw as <-.
  by eapply StepControl.
Qed.

Lemma unattested_ok w o : unattested o = true → attested w o.
Proof.
  destruct o; try done; simpl.
  - intros Hi%negb_true_iff Ht. congruence.
  - intros Ho%negb_true_iff%str_eqb_neq Ht. congruence.
Qed.

Lemma bootstrap_control env : preserves control (bootstrap_catalog env).
Proof. unfold bootstrap_catalog. frame. Qed.

Lemma drive_step w e w' : drive w e = Some w' → world_step w w'.
Proof.
  destruct e as [env|env o|env id token|s n time|s now p g|s p|s|env n|s]; cbn [drive]; intros Hw.
  - injection Hw as <-. apply StepElsewhere; [done|]. unfold commit.
    destruct (bootstrap_catalog env (w_db w)) as [[u d]|] eqn:Hrun; [|done].
    by apply bootstrap_control in Hrun.
  - destruct (unattested o) eqn:Ho; [|done]. by eapply call_event_Some, Hw; apply unattested_ok.
  - destruct (Z.leb_spec (w_now w) (env_now env)); [|done].
    destruct (traffic_snapshot _ _ _ _ _ _ _ _ _) as [[gs d]|] eqn:Hrun; [|done].
    apply bind_Some in Hw as (snapshot & Hs & [= <-]). by eapply StepSnapshot.
  - apply bind_Some in Hw as (snapshot & Hs%list_elem_of_lookup_2 & Hw).
    apply gate_event_Some in Hw as (g & Hg & Hd & ->). by eapply StepInstall.
  - apply gate_event_Some in Hw as (g' & Hg & Hd & ->). by eapply StepEnter.
  - apply bind_Some in Hw as (flight & Hf & Hw). apply remove_request_Some in Hf as (a & b & Hl & ->).
    apply gate_event_Some in Hw as (g' & [= <-] & Hd & ->). by eapply StepLeave.
  - apply bind_Some in Hw as (r & Hr & Hw). case_decide; [done|]. injection Hw as <-. by apply StepReport.
  - apply bind_Some in Hw as (r & Hr%list_elem_of_lookup_2 & Hw). by eapply call_event_Some, Hw.
  - apply gate_event_Some in Hw as (g' & [= <-] & Hd & ->). by apply StepClose.
Qed.

Lemma play_reachable w l w' : play w l = Some w' → rtc world_step w w'.
Proof.
  unfold play. revert w. induction l as [|e l IH]; intros w Hw; simpl in Hw; [by injection Hw as <-|].
  destruct (drive w e) as [w1|] eqn:He.
  - eapply rtc_l; [by eapply drive_step|]. by apply IH.
  - exfalso. clear -Hw. by induction l.
Qed.
End drive.

(** ** A script *)

#[local] Instance demo_control : ControlLibraries := {|
  digest s := s; document_bytes _ := "{}"; is_uuid s := negb (is_empty s); attribution_required := false |}.

Definition spec_of (replicas : Z) : Json :=
  JObj [("model", JObj [("id", JStr DEFAULT_MODEL_ID); ("revision", JStr "r1")]);
        ("replicas", JNum replicas);
        ("runtime", JObj [("protocol", JStr "openai")]);
        ("serving", JObj [("endpointPickerService", JStr "epp")])].

Definition desired (expected replicas : Z) : DesiredState :=
  mkDesiredState expected [mkDesired "model-a" (Some (spec_of replicas)) None None].

Definition tick (t : Z) (id : string) : Env := mkEnv t (λ n, match n with 0%nat => id | _ => id +:+ "x" end).

Definition demo_binding : PoolBinding :=
  mkBinding 2 false "cluster-1" "model-a" "epp" "entry.example:8443" false "" 1.

Definition demo_pool : string := "managed-p1".

Definition observed (nonce : string) : PoolObservation :=
  mkObservation None 2 None false demo_pool 1 nonce (Some "uid-1") true "ok".

Definition serving_script : list event :=
  [Boot (tick 0 "b");
   Call (tick 1 "c1") (RegisterMember (mkRegister "cluster-1" "serving" 30) "token-1" "operator");
   Call (tick 2 "c2") (PutDesired "cluster-1" (desired 0 2) "operator");
   Call (tick 3 "c3") (PollMember "cluster-1" "token-1");
   Call (tick 4 "c4") (ReportMember "cluster-1" "token-1" (mkClusterReport 1 "{}" "c3" "applied" None));
   Call (tick 5 "p1") (BindPool demo_binding "operator" []);
   Call (tick 6 "n1") (TakeTasks "cluster-1" "token-1");
   Call (tick 7 "c7") (ObservePool "cluster-1" "token-1" (observed "n1"));
   Fetch (tick 8 "s1") "gateway-1" "admission-1";
   Install "gateway-1" 0 100;
   Admit "gateway-1" 200 demo_pool 2].

Definition drain_script : list event :=
  [Call (tick 9 "d1") (TransitionPool demo_pool 2 "drain" "operator");
   Fetch (tick 10 "s2") "gateway-1" "admission-2";
   Install "gateway-1" 0 300;
   Finish "gateway-1" demo_pool;
   Post "gateway-1";
   Deliver (tick 11 "r1") 0;
   Call (tick 12 "d2") (TransitionPool demo_pool 3 "finish-drain" "operator")].

Definition served_world : World := default initial (play initial serving_script).
Definition drained_world : World := default initial (play initial (serving_script ++ drain_script)).

Definition state_of (w : World) (p : string) : option PoolState :=
  mp_state <$> pools (control (w_db w)) !! p.

Example served : (state_of served_world demo_pool, w_flight served_world)
  = (Some PoolActive, [("gateway-1", demo_pool)]).
Proof. vm_compute. reflexivity. Qed.

Example drained : (state_of drained_world demo_pool, w_flight drained_world) = (Some PoolDrained, []).
Proof. vm_compute. reflexivity. Qed.

(** A drain does not finish while the request is in flight, nor before the
    gateway reports on the draining snapshot. *)
Example too_early :
  play served_world
    [Call (tick 9 "d1") (TransitionPool demo_pool 2 "drain" "operator");
     Call (tick 12 "d2") (TransitionPool demo_pool 3 "finish-drain" "operator")] = None ∧
  play served_world
    [Call (tick 9 "d1") (TransitionPool demo_pool 2 "drain" "operator");
     Fetch (tick 10 "s2") "gateway-1" "admission-2";
     Install "gateway-1" 0 300;
     Post "gateway-1";
     Deliver (tick 11 "r1") 0;
     Call (tick 12 "d2") (TransitionPool demo_pool 3 "finish-drain" "operator")] = None.
Proof. vm_compute. by split. Qed.

Lemma drained_reachable : reachable drained_world.
Proof.
  apply (play_reachable initial (serving_script ++ drain_script)). unfold drained_world.
  assert (is_some (play initial (serving_script ++ drain_script)) = true) as H by (vm_compute; reflexivity).
  by destruct (play initial (serving_script ++ drain_script)).
Qed.

Lemma drained_pools_quiet_witness :
  reachable drained_world ∧ state_of drained_world demo_pool = Some PoolDrained ∧
  ("gateway-1"%string, demo_pool) ∉ w_flight drained_world.
Proof.
  split; [exact drained_reachable|].
  assert (state_of drained_world demo_pool = Some PoolDrained) as Hst by (vm_compute; reflexivity).
  split; [exact Hst|]. unfold state_of in Hst.
  destruct (pools (control (w_db drained_world)) !! demo_pool) as [pool|] eqn:Hp; [|discriminate Hst].
  apply (f_equal (default PoolPending)) in Hst. simpl in Hst.
  exact (proj1 (drained_pools_quiet drained_world demo_pool pool "gateway-1" drained_reachable Hp
    (or_introl Hst))).
Defined.

(** The drained deployment is scaled down. *)
Definition rescale : control_op := PutDesired "cluster-1" (desired 1 1) "operator".

Lemma deployment_changes_fenced_witness :
  ∃ u d pool pool', run_control (tick 13 "c13") rescale (w_db drained_world) = Ok (u, d) ∧
    pools (control (w_db drained_world)) !! demo_pool = Some pool ∧
    pools (control d) !! demo_pool = Some pool' ∧
    replicas (mp_expected_spec pool) = Some 2 ∧ replicas (mp_expected_spec pool') = Some 1 ∧
    (rtc scaled_up (mp_expected_spec pool) (mp_expected_spec pool') ∨
     ∀ s, ((s, demo_pool) ∉ w_flight drained_world) ∧ ((s, demo_pool) ∉ w_orphans drained_world)).
Proof.
  assert ((λ r, match r with Ok (_, d) => mp_expected_spec <$> pools (control d) !! demo_pool | Err _ => None end)
    (run_control (tick 13 "c13") rescale (w_db drained_world)) = Some (spec_of 1)) as Hrun
    by (vm_compute; reflexivity).
  assert (mp_expected_spec <$> pools (control (w_db drained_world)) !! demo_pool = Some (spec_of 2))
    as Hspec by (vm_compute; reflexivity).
  assert (w_now drained_world ≤ env_now (tick 13 "c13")) as Ht by (vm_compute; discriminate).
  destruct (run_control (tick 13 "c13") rescale (w_db drained_world)) as [[u d]|] eqn:E; [|discriminate Hrun].
  destruct (pools (control d) !! demo_pool) as [pool'|] eqn:Hp'; [|discriminate Hrun].
  destruct (pools (control (w_db drained_world)) !! demo_pool) as [pool|] eqn:Hp; [|discriminate Hspec].
  exists u, d, pool, pool'. split; [exact eq_refl|]. split; [exact eq_refl|]. split; [exact Hp'|].
  injection Hrun as Hrun. injection Hspec as Hspec. rewrite Hrun, Hspec.
  split; [exact eq_refl|]. split; [exact eq_refl|]. rewrite <- Hrun, <- Hspec.
  exact (deployment_changes_fenced drained_world (tick 13 "c13") rescale u d demo_pool pool pool'
    drained_reachable Ht I E Hp Hp').
Defined.
