(* ===== verification/Maintenance.v ===== *)
(** * Maintenance: the check and the rebuild of projections

    [Repository::projection_check] of
    [crates/control-plane/src/billing_projection.rs]: compare the stored rows of
    one account, key and month with history, and on request write them again
    from history. *)

From S2P Require Import Prelude Domain Models Store Books Projection Ledger Reservations.
Local Open Scope Z_scope.

Definition balance_json (b : Balance) : Json :=
  JObj [("balance_microunits", JNum (ba_balance_microunits b));
        ("held_microunits", JNum (ba_held_microunits b)); ("updated_at", JNum (ba_updated_at b))].
Definition key_hold_json (k : KeyHold) : Json :=
  JObj [("held_microunits", JNum (kh_held_microunits k)); ("updated_at", JNum (kh_updated_at k))].
Definition month_spend_json (m : MonthSpend) : Json :=
  JObj [("spent_microunits", JNum (ms_spent_microunits m)); ("updated_at", JNum (ms_updated_at m))].

(** The stored rows, as the answer reports them. *)
Definition stored_json (a : option Balance) (k : option KeyHold) (m : option MonthSpend) : Json :=
  JObj [("account", json_opt balance_json a); ("key", json_opt key_hold_json k);
        ("month", json_opt month_spend_json m)].

Definition rebuilt_json (month : Z) (before : Json) (booked held key_held spent : Z) : Json :=
  JObj [("month", JNum month); ("before", before); ("balance", JNum booked); ("held", JNum held);
        ("key_held", JNum key_held); ("spent", JNum spent)].

Definition rows_agree (a : option Balance) (k : option KeyHold) (m : option MonthSpend)
    (booked held key_held spent : Z) : bool :=
  match a with
  | Some v => (ba_balance_microunits v =? booked) && (ba_held_microunits v =? held)
  | None => false
  end
  && match k with Some v => kh_held_microunits v =? key_held | None => false end
  && match m with Some v => ms_spent_microunits v =? spent | None => false end.

Section check.
Context `{Calendar}.

Definition write_rows (env : Env) (owner key : string) (month booked held key_held spent : Z)
    : Tx unit :=
  _ ← account env owner;
  put_balance owner (mkBalance booked held (env_now env)) ;;
  _ ← key_hold env key;
  put_key_hold key (mkKeyHold key_held (env_now env)) ;;
  _ ← monthly env key month;
  put_month_spend key month (mkMonthSpend spent (env_now env)).

Definition projection_check (env : Env) (project key : string) (month : Z) (rebuild : bool)
    : Tx bool :=
  fail_if (negb (month_floor month =? month))
    (Invalid "month must be the first UTC calendar day") ;;
  owner ← lock_account project;
  row ← gets (λ d, api_keys d !! key);
  _ ← found (row ≫= λ r, if str_eqb (ak_project_id r) project then Some r else None) NotFound;
  sums ← historical_balance_and_held (ac_id owner);
  key_held ← historical_key_hold key;
  spent ← historical_spend key month;
  a ← gets (λ d, balances d !! ac_id owner);
  k ← gets (λ d, key_holds d !! key);
  m ← gets (λ d, month_spends d !! (key, month));
  (if rebuild then
     write_rows env (ac_id owner) key month sums.1 sums.2 key_held spent ;;
     append_event env (ac_id owner) "projection.rebuilt" key
       (rebuilt_json month (stored_json a k m) sums.1 sums.2 key_held spent)
   else mret tt) ;;
  mret (rows_agree a k m sums.1 sums.2 key_held spent).

(** ** Properties *)

(** Each lookup writes at most its own table. *)
Lemma account_shape env a d row d' :
  account env a d = Ok (row, d') → ∃ v, d' = set_balances v d.
Proof.
  intros Hrun. unfold account, historical_balance_and_held in Hrun. tx_inv Hrun.
  destruct (balances d !! a); tx_inv Hrun; [exists (balances d); by destruct d|].
  match goal with H : put_balance _ _ _ = _ |- _ => apply modify_Ok in H as -> end. by eexists.
Qed.
Lemma key_hold_shape env k d row d' :
  key_hold env k d = Ok (row, d') → ∃ v, d' = set_key_holds v d.
Proof.
  intros Hrun. unfold key_hold, historical_key_hold in Hrun. tx_inv Hrun.
  destruct (key_holds d !! k); tx_inv Hrun; [exists (key_holds d); by destruct d|].
  match goal with H : put_key_hold _ _ _ = _ |- _ => apply modify_Ok in H as -> end. by eexists.
Qed.
Lemma monthly_shape env k m d row d' :
  monthly env k m d = Ok (row, d') → ∃ v, d' = set_month_spends v d.
Proof.
  intros Hrun. unfold monthly, historical_spend in Hrun. tx_inv Hrun.
  destruct (month_spends d !! (k, m)); tx_inv Hrun; [exists (month_spends d); by destruct d|].
  match goal with H : put_month_spend _ _ _ _ = _ |- _ => apply modify_Ok in H as -> end.
  by eexists.
Qed.

(** The three rows hold exactly what was written, whatever was there before. *)
Lemma write_rows_Ok env owner key month b h kh s d u d' :
  write_rows env owner key month b h kh s d = Ok (u, d') →
  projection_only d d' ∧
  balances d' !! owner = Some (mkBalance b h (env_now env)) ∧
  key_holds d' !! key = Some (mkKeyHold kh (env_now env)) ∧
  month_spends d' !! (key, month) = Some (mkMonthSpend s (env_now env)).
Proof.
  intros Hrun. unfold write_rows in Hrun. tx_inv Hrun.
  apply account_shape in Htx as [v1 ->]. apply modify_Ok in Htx0 as ->.
  apply key_hold_shape in Htx1 as [v2 ->]. apply modify_Ok in Htx2 as ->.
  apply monthly_shape in Htx3 as [v3 ->]. apply modify_Ok in Hrun as ->. simpl.
  split; [by eexists _, _, _|]. rewrite !lookup_insert_eq. done.
Qed.

(** The check reports what history says. *)
Lemma projection_check_Ok env project key month rebuild d b d' :
  projection_check env project key month rebuild d = Ok (b, d') →
  ∃ owner e, accounts d !! project = Some owner ∧ month_floor month = month ∧
    month_next month = Some e ∧
    b = rows_agree (balances d !! ac_id owner) (key_holds d !! key)
          (month_spends d !! (key, month))
          (booked (ac_id owner) d) (held (ac_id owner) d) (key_held key d)
          (period_spent key month e d) ∧
    if rebuild then ∃ u1 d1 u2,
      write_rows env (ac_id owner) key month (booked (ac_id owner) d) (held (ac_id owner) d)
        (key_held key d) (period_spent key month e d) d = Ok (u1, d1) ∧
      append_event env (ac_id owner) "projection.rebuilt" key
        (rebuilt_json month (stored_json (balances d !! ac_id owner) (key_holds d !! key)
           (month_spends d !! (key, month)))
          (booked (ac_id owner) d) (held (ac_id owner) d) (key_held key d)
          (period_spent key month e d)) d1 = Ok (u2, d')
    else d' = d.
Proof.
  intros Hrun.
  unfold projection_check, historical_balance_and_held, historical_key_hold, historical_spend,
    lock_account in Hrun. tx_inv Hrun.
  match goal with H : negb (_ =? _) = false |- _ => apply negb_false_iff, Z.eqb_eq in H end.
  eexists _, _. split; [done|]. split; [done|]. split; [done|]. split; [done|].
  destruct rebuild; tx_inv Htx; [|done]. by eexists _, _, _.
Qed.

Lemma log_only_rows d d' : log_only d d' →
  balances d' = balances d ∧ key_holds d' = key_holds d ∧ month_spends d' = month_spends d ∧
  usage_events d' = usage_events d ∧ accounts d' = accounts d.
Proof. by intros (e & j & ->). Qed.

Lemma append_event_log env a kind agg payload d u d' :
  append_event env a kind agg payload d = Ok (u, d') → log_only d d'.
Proof.
  intros Hrun. unfold append_event, insert_event in Hrun. tx_inv Hrun.
  apply schedule_Ok in Hrun as (j & -> & _). by eexists _, _.
Qed.

(** The rebuild repairs.  From any database at all (the stored rows may
    be wrong or missing) a committed rebuild leaves rows that equal history
    for the account, the key and the month, and it changes nothing but
    projection rows and the event log. *)
Theorem rebuild_repairs env project key month d b d' :
  projection_check env project key month true d = Ok (b, d') →
  ∃ owner, accounts d !! project = Some owner ∧
  balances d' !! ac_id owner =
    Some (mkBalance (booked (ac_id owner) d') (held (ac_id owner) d') (env_now env)) ∧
  key_holds d' !! key = Some (mkKeyHold (key_held key d') (env_now env)) ∧
  month_spends d' !! (key, month) = Some (mkMonthSpend (month_spent key month d') (env_now env)) ∧
  ∃ d1, projection_only d d1 ∧ log_only d1 d'.
Proof.
  intros (owner & e & Hac & Hm & He & _ & u1 & d1 & u2 & Hw & Hlog)%projection_check_Ok.
  apply write_rows_Ok in Hw as (Ho & Hb & Hk & Hs). apply append_event_log in Hlog as Hl.
  destruct (projection_only_history _ _ Ho) as (E1 & E2 & E3 & E4).
  destruct (log_only_history _ _ Hl) as (F1 & F2 & F3).
  destruct (log_only_rows _ _ Hl) as (G1 & G2 & G3 & G4 & _).
  exists owner. split; [done|].
  rewrite G1, G2, G3, F1, F2, F3, E1, E2, E3, Hb, Hk, Hs.
  rewrite (period_spent_month _ _ _ _ Hm He). unfold month_spent at 2. rewrite G4.
  change (zsum (month_spend key month) (usage_events d1)) with (month_spent key month d1).
  rewrite E4. split; [done|]. split; [done|]. split; [done|]. by exists d1.
Qed.

Lemma write_rows_Inv env owner key month d u d' :
  Inv d → month_floor month = month →
  write_rows env owner key month (booked owner d) (held owner d) (key_held key d)
    (month_spent key month d) d = Ok (u, d') → Inv d'.
Proof.
  intros HI Hm Hrun. apply (Inv_focus owner key month) in HI.
  set (p := settled_at_rest owner key month) in *.
  unfold write_rows in Hrun. tx_inv Hrun.
  eapply (account_Ok _ p) in Htx as (HI1 & Ho1 & _); [|done..].
  eapply (put_balance_Ok p) with (q := p) in Htx0 as (HI2 & Ho2 & _); simpl; history Ho1;
    try done; try lia.
  eapply (key_hold_Ok _ p) in Htx1 as (HI3 & Ho3 & _); [|done..].
  eapply (put_key_hold_Ok p) with (x := 0) in Htx2 as (HI4 & Ho4 & _); [|exact HI3|done|].
  2:{ simpl. history Ho3. history Ho2. history Ho1. lia. }
  eapply (monthly_Ok _ p) in Htx3 as (HI5 & Ho5 & _); [|done..].
  eapply (put_month_spend_Ok p) with (x := 0) in Hrun as (HI6 & Ho6 & _); [|done..|].
  2:{ simpl. history Ho5. history Ho4. history Ho3. history Ho2. history Ho1. lia. }
  by apply Inv_focus in HI6.
Qed.

Lemma projection_check_Inv env project key month rebuild d b d' :
  Inv d → projection_check env project key month rebuild d = Ok (b, d') → Inv d'.
Proof.
  intros HI (owner & e & Hac & Hm & He & -> & Hd')%projection_check_Ok.
  destruct rebuild; [|by subst]. destruct Hd' as (u1 & d1 & u2 & Hw & Hlog).
  rewrite (period_spent_month _ _ _ _ Hm He) in Hw.
  apply write_rows_Inv in Hw as HI1; [|done..].
  eapply append_event_Ok in Hlog as [HI' _]; [exact HI'|exact HI1|done].
Qed.

(** In a database that satisfies the invariant the check finds the stored
    rows consistent whenever they exist, and rebuilding changes no amount. *)
Theorem check_consistent env project key month rebuild d b d' :
  Inv d → projection_check env project key month rebuild d = Ok (b, d') →
  Inv d' ∧ ∃ owner, accounts d !! project = Some owner ∧
  (is_Some (balances d !! ac_id owner) → is_Some (key_holds d !! key) →
   is_Some (month_spends d !! (key, month)) → b = true).
Proof.
  intros HI Hrun. split; [by eapply projection_check_Inv|].
  apply projection_check_Ok in Hrun as (owner & e & Hac & Hm & He & -> & _).
  pose proof (proj1 (Projected_rest _ _ _ _) (inv_projected _ _ HI)) as (Pb & Pk & Ps).
  exists owner. split; [done|]. intros [a Ha] [k Hk] [s Hs]. rewrite Ha, Hk, Hs.
  destruct (Pb _ _ Ha) as [B1 B2]. destruct (Ps _ _ _ Hs) as [_ S1].
  unfold rows_agree. rewrite B1, B2, (Pk _ _ Hk), S1, (period_spent_month _ _ _ _ Hm He).
  by rewrite !Z.eqb_refl.
Qed.
End check.
