(* ===== verification/Lifecycle.v ===== *)
(** * Lifecycle: what each operation does to reservations and to money

    One description of the committed effect of every operation of the money
    protocol: [Moves] a reservation along its state machine, [Admits] a new
    one, [Posts] to the ledger, or leaves money alone.  The theorems of
    [Billing] are read off these effects. *)

From S2P Require Import Prelude Domain Models Store Books Catalog Projection Ledger Reservations.
From S2P Require Import Review Wallet Maintenance.
Local Open Scope Z_scope.

(** ** The state machine *)

Inductive transition : ReservationState → ReservationState → Prop :=
| t_stay s : transition s s
| t_dispatch : transition Reserved Dispatched
| t_release : transition Reserved Released
| t_settle : transition Dispatched Settled
| t_waive s : is_held s = true → transition s Waived.

Lemma terminal_stays s s' : is_held s = false → transition s s' → s' = s.
Proof. intros Hs Ht. inversion Ht; subst; try done. congruence. Qed.

(** Everything but the state columns is the same. *)
Definition same_terms (r r' : Reservation) : Prop :=
  r' = with_state r (rv_state r') (rv_settled_microunits r') (rv_completion r') (rv_updated_at r').

(** The money of an account that no reservation holds. *)
Definition available (a : string) (d : Db) : Z := booked a d - held a d.

(** What is held is a matter of the reservations alone. *)
Lemma held_rows a m d d' : reservations d' = m → held a d' = held a (set_reservations m d).
Proof. intros <-. done. Qed.

Definition settled_amount (r : Reservation) : Z := default 0 (rv_settled_microunits r).

Record moves (id : string) (r r' : Reservation) (d d' : Db) : Prop := {
  mv_old : reservations d !! id = Some r;
  mv_new : reservations d' = <[id := r']> (reservations d);
  mv_terms : same_terms r r';
  mv_pending : is_held (rv_state r) = true;
  mv_step : transition (rv_state r) (rv_state r');
  mv_booked a : booked a d' = booked a d -
    (if decide (a = rv_billing_account_id r) then settled_amount r' - settled_amount r else 0);
  mv_accounts : accounts d' = accounts d }.

(** New postpaid accounts may appear; no other account row changes. *)
Definition accounts_grow (d d' : Db) : Prop :=
  accounts d' = accounts d ∨
  ∃ pr ac, accounts d !! pr = None ∧ ac_enforce_balance ac = false ∧
    accounts d' = <[pr := ac]> (accounts d).

Record posts (a : string) (delta : Z) (d d' : Db) : Prop := {
  po_reservations : reservations d' = reservations d;
  po_booked b : booked b d' = booked b d + (if decide (b = a) then delta else 0);
  po_accounts : accounts_grow d d';
  po_guard pr ac : accounts d !! pr = Some ac → ac_id ac = a → ac_enforce_balance ac = true →
    delta < 0 → 0 ≤ available a d + delta }.

(** A reservation was waived by an approved review. *)
Definition waived_by_review (d : Db) (id : string) : Prop :=
  ∃ wid w, reviews d !! wid = Some w ∧ rw_reservation_id w = id ∧ rw_state w = ReviewWaived.

Inductive effect `{Calendar} (d d' : Db) : Prop :=
| Moves id r r' : moves id r r' d d' →
    (rv_state r' = Waived → waived_by_review d' id) → effect d d'
| Admits env ac request row : accounts d !! rr_project_id request = Some ac →
    admitted env ac request d row d' → effect d d'
| Posts a delta : posts a delta d d' → effect d d'
| Repolicies project row : reservations d' = reservations d →
    ledger_entries d' = ledger_entries d →
    accounts d' = <[project := row]> (accounts d) →
    (∀ ac, accounts d !! project = Some ac → ac_tenant_id row = ac_tenant_id ac) → effect d d'.

(** ** Reviews *)

#[export] Hint Unfold lock_account put_balance put_key_hold put_month_spend account key_hold
  historical_balance_and_held historical_key_hold historical_spend monthly balance_and_held
  change_hold change_balance change_spend schedule insert_event append_event
  insert_ledger_transaction insert_ledger_entry post_entries check_debit insert_balanced_entries
  create_billing_account ensure_account_for_project find_reservation update_reservation
  insert_reservation insert_usage check_available check_budget reserve_new active_model
  historical_price settle_usage settle_write usage_cost record_new_usage
  insert_payment insert_refund mark_paid lock_order lock_payment write_rows append_audit : frame.

(** An approved review agrees with the reservation it closed. *)
Definition review_closed (d : Db) (w : Review) : Prop :=
  match rw_state w with
  | ReviewSettled | ReviewWaived =>
      (rw_state w = ReviewWaived ↔ is_waiver (rw_evidence w) = true) ∧
      ∃ r, reservations d !! rw_reservation_id w = Some r ∧ closes (rw_evidence w) r
  | _ => True
  end.

(** A decided review never changes again, and a new decision is closed. *)
Record reviews_evolve (d d' : Db) : Prop := {
  re_decided id w : reviews d !! id = Some w → rw_state w ≠ ReviewSubmitted →
    reviews d' !! id = Some w;
  re_new id w : reviews d' !! id = Some w → reviews d !! id = Some w ∨ review_closed d' w }.

Lemma reviews_kept d d' : reviews d' = reviews d → reviews_evolve d d'.
Proof. intros E. split; intros id w Hw; rewrite ?E in *; auto. Qed.

Lemma respects_rolled_back {A} R `{!PreOrder R} (m : Tx A) : respects R (rolled_back m).
Proof. intros d u d' ->%rolled_back_Ok. reflexivity. Qed.
#[export] Hint Resolve respects_rolled_back : frame.

Section reviews.
Context `{Calendar}.

Lemma reserve_reviews env r : preserves reviews (reserve_money env r).
Proof. unfold reserve_money. frame. Qed.
Lemma dispatch_reviews env p id : preserves reviews (dispatch_money env p id).
Proof. unfold dispatch_money. frame. Qed.
Lemma release_reviews env p id r : preserves reviews (release_money env p id r).
Proof. unfold release_money. frame. Qed.
Lemma unresolved_reviews env p id r : preserves reviews (unresolved_money env p id r).
Proof. unfold unresolved_money. frame. Qed.
Lemma settle_reviews env p id r : preserves reviews (settle_money env p id r).
Proof. unfold settle_money, settle_locked. frame. Qed.
Lemma record_usage_reviews env e : preserves reviews (record_usage env e).
Proof. unfold record_usage. frame. Qed.
Lemma capture_reviews env o r k : preserves reviews (capture_payment env o r k).
Proof. unfold capture_payment. frame. Qed.
Lemma refund_reviews env r k : preserves reviews (create_refund env r k).
Proof. unfold create_refund. frame. Qed.
Lemma check_reviews env p k m b : preserves reviews (projection_check env p k m b).
Proof. unfold projection_check. frame. Qed.
End reviews.

Section effects.
Context `{Calendar}.

Lemma admitted_rows env ac request d row d' :
  admitted env ac request d row d' →
  reservations d' = <[rr_id request := row]> (reservations d) ∧
  ledger_entries d' = ledger_entries d ∧ accounts d' = accounts d.
Proof. intros [_ _ _ _ _ (d1 & (b & k & s & ->) & e & j & ->)]. done. Qed.

Lemma moves_relabel d d2 id r state completion now :
  Inv d → reservations d !! id = Some r → is_held (rv_state r) = true →
  transition (rv_state r) state →
  log_only (set_reservations (<[id := with_state r state (rv_settled_microunits r) completion now]>
    (reservations d)) d) d2 →
  moves id r (with_state r state (rv_settled_microunits r) completion now) d d2.
Proof.
  intros HI Hr Hs Ht (e & j & ->). split; try done.
  intros a. change (booked a _) with (booked a d). simpl. unfold settled_amount. simpl.
  case_decide; lia.
Qed.

Lemma no_posting d d' : d' = d → posts "" 0 d d'.
Proof.
  intros ->. split; [done| |by left|lia]. intros b. case_decide; lia.
Qed.

Lemma dispatch_money_effect env project id d row d' :
  Inv d → dispatch_money env project id d = Ok (row, d') →
  Inv d' ∧ rv_state row = Dispatched ∧
  (reservations d !! id = Some row ∧ d' = d ∨
   ∃ r, rv_state r = Reserved ∧ moves id r row d d').
Proof.
  intros HI Hrun. unfold dispatch_money in Hrun. tx_inv Hrun.
  apply lock_account_Ok in Htx as [-> Hac]. apply find_reservation_Ok in Htx0 as (-> & Hr & Hp).
  destruct (rv_state a0) eqn:Hs; tx_inv Hrun; [|by split; [|split; [|left]]].
  eapply relabel_row in Htx as (HI' & -> & Hl); try done; rewrite ?Hs; try done;
    [|reservation_kind].
  split; [done|]. split; [done|]. right. exists a0. split; [done|].
  apply moves_relabel; try done; rewrite Hs; [done|constructor].
Qed.

Lemma unresolved_money_effect env project id request d row d' :
  Inv d → unresolved_money env project id request d = Ok (row, d') →
  Inv d' ∧ (reservations d !! id = Some row ∧ d' = d ∨
   ∃ r, rv_state r = Dispatched ∧ rv_state row = Dispatched ∧ moves id r row d d').
Proof.
  intros HI Hrun. unfold unresolved_money in Hrun. tx_inv Hrun.
  apply lock_account_Ok in Htx as [-> Hac]. apply find_reservation_Ok in Htx0 as (-> & Hr & Hp).
  destruct (rv_state a1) eqn:Hs; tx_inv Hrun; try by split; [|left].
  destruct (rv_completion a1) eqn:Hc; tx_inv Hrun; [by split; [|left]|].
  eapply relabel_row in Htx as (HI' & -> & Hl); try done; rewrite ?Hs; try done;
    [|reservation_kind].
  split; [done|]. right. exists a1. split; [done|]. split; [done|].
  apply moves_relabel; try done; rewrite Hs; [done|constructor].
Qed.

Lemma moves_free d dm d2 id r state completion now :
  reservations d !! id = Some r → projection_only d dm → is_held (rv_state r) = true →
  transition (rv_state r) state →
  log_only (set_reservations (<[id := with_state r state (rv_settled_microunits r) completion now]>
    (reservations dm)) dm) d2 →
  moves id r (with_state r state (rv_settled_microunits r) completion now) d d2.
Proof.
  intros Hr (b & k & s & ->) Hs Ht (e & j & ->). split; try done.
  intros a. change (booked a _) with (booked a d). simpl. unfold settled_amount. simpl.
  case_decide; lia.
Qed.

Lemma release_money_effect env project id reason d row d' :
  Inv d → release_money env project id reason d = Ok (row, d') →
  Inv d' ∧ rv_state row = Released ∧
  (reservations d !! id = Some row ∧ d' = d ∨
   ∃ r, rv_state r = Reserved ∧ moves id r row d d').
Proof.
  intros HI Hrun. unfold release_money in Hrun. tx_inv Hrun.
  apply lock_account_Ok in Htx as [-> Hac]. apply find_reservation_Ok in Htx0 as (-> & Hr & Hp).
  destruct (rv_state a1) eqn:Hs; tx_inv Hrun; [|by split; [|split; [|left]]].
  assert (is_held (rv_state a1) = true) as Hh by (by rewrite Hs).
  unshelve epose proof (free_row _ _ _ _ _ _ _ _ _ _ _ _ _ _ _ _ HI Hac Hr eq_refl Hh _ _ _
    Htx Htx0 Htx1) as (HI' & -> & (dm & Ho & Hl)); [done..|reservation_kind|].
  split; [done|]. split; [done|]. right. exists a1. split; [done|].
  eapply moves_free; try done. rewrite Hs. constructor.
Qed.

Lemma settled_by_moves env ac project id row request d row' d' :
  Inv d → accounts d !! project = Some ac → reservations d !! id = Some row →
  rv_project_id row = project → rv_state row = Dispatched →
  settled_by env ac row request d row' d' → moves id row row' d d'.
Proof.
  intros HI Hac Hr Hp Hs [S1 S2 (amount & ->) S4 S5 S6].
  destruct (locked_row _ _ _ _ _ _ HI Hac Hr Hp) as (Ha & Hid & _).
  destruct (S2 amount eq_refl) as (_ & _ & Hbook & _).
  pose proof (ro_settled _ _ _ (inv_reservations _ _ HI _ _ Hr)) as R6. rewrite Hs in R6.
  split; try done.
  - by rewrite S4, Hid.
  - by rewrite Hs.
  - simpl. rewrite Hs. constructor.
  - intros a. rewrite Hbook, Ha. unfold settled_amount. rewrite R6. simpl.
    case_decide; lia.
Qed.

Lemma settle_locked_effect env ac project id row request d row' d' :
  Inv d → accounts d !! project = Some ac → reservations d !! id = Some row →
  rv_project_id row = project →
  settle_locked env ac row request d = Ok (row', d') →
  Inv d' ∧ rv_state row' = Settled ∧ rv_completion row' = Some (settle_json request) ∧
  (row' = row ∧ d' = d ∨ rv_state row = Dispatched ∧ moves id row row' d d').
Proof.
  intros HI Hac Hr Hp [(Hs & Hc & -> & ->)|(Hs & Hsb)]%(settle_locked_Ok _ _ _ _ _ _ _ _ _ HI Hac Hr Hp).
  - split; [done|]. split; [done|]. split; [done|by left].
  - pose proof (settled_by_moves _ _ _ _ _ _ _ _ _ HI Hac Hr Hp Hs Hsb).
    destruct Hsb as [S1 _ (amount & ->) _ _ _].
    split; [done|]. split; [done|]. split; [done|by right].
Qed.

Lemma settle_money_effect env project id request d row d' :
  Inv d → settle_money env project id request d = Ok (row, d') →
  Inv d' ∧ rv_state row = Settled ∧ rv_completion row = Some (settle_json request) ∧
  (reservations d !! id = Some row ∧ d' = d ∨
   ∃ r, rv_state r = Dispatched ∧ moves id r row d d').
Proof.
  intros HI Hrun. unfold settle_money in Hrun. tx_inv Hrun.
  apply lock_account_Ok in Htx as [-> Hac]. apply find_reservation_Ok in Htx0 as (-> & Hr & Hp).
  eapply settle_locked_effect in Hrun as (HI' & Hs & Hc & [[-> ->]|[Hd Hm]]); try done.
  - split; [done|]. split; [done|]. split; [done|by left].
  - split; [done|]. split; [done|]. split; [done|]. right. by eexists.
Qed.

Lemma approve_review_effect env ac project id actor w d u d' :
  Inv d → accounts d !! project = Some ac →
  approve_review env ac project id actor w d = Ok (u, d') →
  d' = d ∨ ∃ r r', moves (rw_reservation_id w) r r' d d'.
Proof.
  intros HI Hac Hrun. unfold approve_review in Hrun. tx_inv Hrun.
  apply find_reservation_Ok in Htx as (-> & Hr & Hp).
  destruct (rw_evidence w) as [ev|wr]; tx_inv Hrun.
  - eapply settle_locked_effect in Htx as (_ & _ & _ & [[_ ->]|[_ Hm]]); try done;
      [by left|right; by eexists _, _].
  - match goal with H : negb _ = false |- _ => apply negb_false_iff in H; rename H into Hheld end.
    destruct (locked_row _ _ _ _ _ _ HI Hac Hr eq_refl) as (_ & Hid & _).
    rewrite Hid in *.
    unshelve epose proof (free_row _ _ _ _ _ _ _ _ _ _ _ _ _ _ _ _ HI Hac Hr eq_refl Hheld _ _ _
      Htx Htx0 Hrun) as (HI' & -> & (dm & Ho & Hl)); [done..|reservation_kind|].
    right. eexists _, _. eapply moves_free; try done. by constructor.
Qed.

(** Bookkeeping of other tables around a move. *)
Lemma moves_after id r r' d d0 d' :
  moves id r r' d d0 → reservations d' = reservations d0 → ledger_entries d' = ledger_entries d0 →
  accounts d' = accounts d0 → moves id r r' d d'.
Proof.
  intros [M1 M2 M3 M4 M5 M6 M7] Er El Ea. split; try done; try congruence.
  intros a. rewrite <- M6. unfold booked. by rewrite El.
Qed.

Lemma posts_nothing d d' :
  reservations d' = reservations d → ledger_entries d' = ledger_entries d →
  accounts_grow d d' → posts "" 0 d d'.
Proof.
  intros Er El Ha. split; try done. intros b. unfold booked. rewrite El.
  case_decide; lia.
Qed.

Lemma decided_closed env actor request w r d :
  str_eqb (dr_action request) "approve" = true →
  reservations d !! rw_reservation_id w = Some r → closes (rw_evidence w) r →
  review_closed d (decided env actor request w).
Proof.
  intros Ha Hr Hc. unfold review_closed. simpl. rewrite Ha. unfold final_state. simpl.
  destruct (rw_evidence w); simpl; (split; [done|by exists r]).
Qed.

Lemma decide_effect env project id actor subject request d a d' :
  Inv d → decide_billing_review env project id actor subject request d = Ok (a, d') →
  effect d d' ∧ reviews_evolve d d'.
Proof.
  intros HI Hrun. apply decide_billing_review_Ok in Hrun as (_ & w & Hde); [|done].
  destruct Hde as [[Hw Hp] _ _ [(_ & -> & _)|(Hs & Ew & Heff)] Htrace].
  { split; [by eapply Posts, no_posting|by apply reviews_kept]. }
  destruct (Htrace Hs) as (d0 & Happ & Er & El & Ea).
  destruct (str_eqb _ _) eqn:Haction.
  - destruct Heff as (r & r' & Hr & Er' & Hcloses). destruct Happ as (ac & u & Hac & Happ).
    assert (Hclosed : review_closed d' (decided env actor request w)).
    { eapply decided_closed; [done| |done]. rewrite Er'. apply lookup_insert_eq. }
    split; [|split; rewrite Ew; intros id' w'].
    + apply approve_review_effect in Happ as [->|(x & x' & Hm)]; [| |done..].
      * eapply Posts, posts_nothing; [done..|by left].
      * eapply moves_after in Hm; [|done..]. eapply Moves; [exact Hm|]. intros Hwaived.
        destruct Hm as [_ M2 _ _ _ _ _]. rewrite Er' in M2.
        apply (f_equal (.!! rw_reservation_id w)) in M2. rewrite !lookup_insert_eq in M2.
        injection M2 as <-. exists id, (decided env actor request w).
        rewrite Ew, lookup_insert_eq. split; [done|]. split; [done|]. simpl. rewrite Haction.
        destruct (rw_evidence w); [destruct Hcloses; congruence|done].
    + intros Hw' Hdec. rewrite lookup_insert_ne; [done|]. intros <-. congruence.
    + intros [[<- <-]|[_ Hw']]%lookup_insert_Some; auto.
  - destruct Heff as [Er' El']. split; [|split; rewrite Ew; intros id' w'].
    + eapply Posts, posts_nothing; [done..|]. left. by subst d0.
    + intros Hw' Hdec. rewrite lookup_insert_ne; [done|]. intros <-. congruence.
    + intros [[<- <-]|[_ Hw']]%lookup_insert_Some; [right|by left].
      unfold review_closed. simpl. by rewrite Haction.
Qed.

Lemma submit_review_effect hash env project id actor subject evidence waiver d a d' :
  Inv d → submit_review hash env project id actor subject evidence waiver d = Ok (a, d') →
  effect d d' ∧ reviews_evolve d d'.
Proof.
  intros HI Hrun. unfold submit_review in Hrun. tx_inv Hrun.
  apply lock_account_Ok in Htx as [-> Hac].
  destruct (reviews d !! evidence_id evidence) eqn:Hrev; tx_inv Hrun.
  { split; [by eapply Posts, no_posting|by apply reviews_kept]. }
  apply find_reservation_Ok in Htx as (-> & Hr & Hp).
  eapply write_review in Htx0 as (_ & _ & Ew & Er & Ea & El); try done; simpl.
  - split; [eapply Posts, posts_nothing; [done..|by left]|].
    split; rewrite Ew; simpl; intros id' w'.
    + intros Hw' Hdec. rewrite lookup_insert_ne; [done|]. intros <-. congruence.
    + intros [[<- <-]|[_ Hw']]%lookup_insert_Some; [by right|by left].
  - split; simpl; try done. by eexists.
  - intros old Hold. congruence.
  - unfold REVIEW_KINDS. set_solver.
Qed.

Lemma accounts_only_posts d d1 : (d1 = d ∨ ∃ pr ac, accounts d !! pr = None ∧
    ac_enforce_balance ac = false ∧ accounts d1 = <[pr := ac]> (accounts d)) →
  accounts_grow d d1.
Proof. intros [->|Hn]; [by left|by right]. Qed.

Lemma capture_payment_effect env order_id r idem d payment d' :
  Inv d → capture_payment env order_id r idem d = Ok (payment, d') → effect d d'.
Proof.
  intros HI Hrun.
  apply capture_payment_Ok in Hrun as [(_ & _ & ->)|Hc]; [by eapply Posts, no_posting| |done].
  destruct Hc as [C1 (o & Ho & _ & _ & _ & Hb & Hg) C3 C4 C5 C6 (ac & pr & C7)].
  eapply Posts. split; [done|exact Hb| |].
  - destruct C7 as [C7|C7]; [by left|right; by exists pr, ac].
  - intros pr' ac' Hac' Hid Hen Hneg.
    destruct (co_account _ (inv_config _ _ HI) _ _ Hac') as (Hp & Hid' & _).
    rewrite Hid in Hid'. apply account_id_inj in Hid' as <-.
    unfold available. specialize (Hg _ Hac' Hen Hneg). lia.
Qed.

Lemma create_refund_effect env r idem d refund d' :
  Inv d → create_refund env r idem d = Ok (refund, d') → effect d d'.
Proof.
  intros HI Hrun.
  apply create_refund_Ok in Hrun as [(_ & ->)|Hc]; [by eapply Posts, no_posting| |done].
  destruct Hc as [C1 (p & o & _ & _ & Hpos & Ho & _ & _ & Hb & Hg) C3 C4 C5 C6 C7 (ac & pr & C8)].
  eapply (Posts _ _ (account_id (od_project_id o))
    (- (money_amount (crf_amount r) * MICROS_PER_MINOR_UNIT))). split; [done| | |].
  - intros b. rewrite Hb. case_decide; lia.
  - destruct C8 as [C8|C8]; [by left|right; by exists pr, ac].
  - intros pr' ac' Hac' Hid Hen Hneg.
    destruct (co_account _ (inv_config _ _ HI) _ _ Hac') as (Hp & Hid' & _).
    rewrite Hid in Hid'. apply account_id_inj in Hid' as <-.
    unfold available. specialize (Hg _ Hac' Hen). lia.
Qed.

Lemma record_usage_effect env e d b d' :
  Inv d → record_usage env e d = Ok (b, d') → effect d d'.
Proof.
  intros HI Hrun.
  apply record_usage_Ok in Hrun as (_ & d1 & ac & [acs Ho] & Hac & Hnew & Hb); [|done].
  assert (Hgrow : accounts_grow d d1).
  { destruct Hnew as [->|Hn]; [by left|right; by eexists _, _]. }
  destruct b.
  - destruct Hb as (cost & u & Hpos & HI1 & Hid & _ & Hrec).
    apply record_new_usage_Ok in Hrec as (_ & Hbook & _ & Er & Ea & _ & Hg); [|done..].
    eapply (Posts _ _ (ac_id ac) (- cost)). split.
    + by rewrite Er, Ho.
    + intros a. rewrite Hbook. subst d1. change (booked a _) with (booked a d).
      case_decide; lia.
    + destruct Hgrow as [E|(pr & x & G1 & G2 & G3)]; [left; congruence|].
      right. exists pr, x. split; [done|]. split; [done|]. congruence.
    + intros pr' ac' Hac' Hacid Hen Hneg.
      destruct (co_account _ (inv_config _ _ HI) _ _ Hac') as (Hp' & Hid' & _).
      assert (Hsame : accounts d1 !! ac_project_id ac = Some ac').
      { destruct (co_account _ (inv_config _ _ HI1) _ _ Hac) as (Hp1 & _).
        assert (account_id pr' = account_id (ac_project_id ac)) as Hpr%account_id_inj by congruence.
        destruct Hnew as [->|(Hn & _)]; congruence. }
      destruct (Hg ltac:(lia)) as (l & Hl & Henf). rewrite Hsame in Hl. injection Hl as <-.
      specialize (Henf Hen). unfold available. subst d1.
      change (booked _ (set_accounts _ d)) with (booked (ac_id ac) d) in Henf.
      change (held _ (set_accounts _ d)) with (held (ac_id ac) d) in Henf. lia.
  - destruct Hb as [_ ->]. eapply Posts, posts_nothing; [by subst d1..|done].
Qed.

Lemma reserve_money_effect env request d row d' :
  Inv d → reserve_money env request d = Ok (row, d') →
  (d' = d ∧ reservations d !! rr_id request = Some row ∧ rv_spec row = request) ∨
  ∃ ac, accounts d !! rr_project_id request = Some ac ∧ admitted env ac request d row d'.
Proof.
  intros HI Hrun.
  apply reserve_money_Ok in Hrun as (ac & Hac & _ & [(? & ? & ->)|Had]); [by left| |done].
  right. by exists ac.
Qed.

Lemma projection_check_effect env project key month rebuild d b d' :
  projection_check env project key month rebuild d = Ok (b, d') → effect d d'.
Proof.
  intros (owner & e & _ & _ & _ & _ & Hd')%projection_check_Ok.
  destruct rebuild; [|subst; by eapply Posts, no_posting].
  destruct Hd' as (u1 & d1 & u2 & Hw & Hlog).
  apply write_rows_Ok in Hw as ((b1 & k1 & s1 & ->) & _).
  apply append_event_log in Hlog as (v & j & ->).
  eapply Posts, posts_nothing; [done..|by left].
Qed.
End effects.
