(* ===== verification/Payments.v ===== *)
(** * Payments: exact amounts and verified provider evidence

    [crates/payments/src/lib.rs] and [alipay.rs]: the decimal amounts of the
    provider protocol, and the checks that turn a signed notification or a
    signed response into a [VerifiedTrade] or a [VerifiedRefund].  RSA, SHA-256,
    form and JSON decoding and HTTP are libraries and stay parameters. *)

From Stdlib Require OrderedTypeEx.
From S2P Require Import Prelude Domain Models.
Local Open Scope Z_scope.

Inductive PaymentError :=
| PayInvalid (message : string)
| PayUnavailable
| PayRejected
| PaySignature.

(** ** Amounts *)

(** [split_once(sep)] *)
Fixpoint split_once (sep : ascii) (s : string) : option (string * string) :=
  match s with
  | EmptyString => None
  | String c s' =>
      if Ascii.eqb c sep then Some (EmptyString, s')
      else match split_once sep s' with
           | Some (a, b) => Some (String c a, b)
           | None => None
           end
  end.

Definition AMOUNT_MAX : Z := 10000000000.
Definition amount_in_bounds (minor : Z) : bool := (1 <=? minor) && (minor <=? AMOUNT_MAX).

Definition parse_amount (value : string) : result PaymentError Z :=
  let parts := default (value, EmptyString) (split_once "." value) in
  let whole := parts.1 in
  let fraction := parts.2 in
  require
    (negb (is_empty whole || (9 <? str_len whole) || negb (bytes_all is_ascii_digit whole)
           || (2 <? str_len fraction) || negb (bytes_all is_ascii_digit fraction)
           || (contains_byte "." value && is_empty fraction)))
    (PayInvalid "invalid CNY decimal amount") ;;
  yuan ← ok_or (parse_unsigned i64_max whole) (PayInvalid "amount overflow");
  cents ← (if is_empty fraction then Ok 0
           else ok_or (parse_unsigned i64_max fraction) (PayInvalid "invalid cents"));
  let amount := yuan * 100 + (if str_len fraction =? 1 then cents * 10 else cents) in
  require (amount_in_bounds amount) (PayInvalid "amount outside provider bounds") ;;
  Ok amount.

Definition digit (n : Z) : ascii := ascii_of_N (Z.to_N (48 + n)).

(** [format!("{}", n)] of a nonnegative number below [10 ^ fuel]. *)
Fixpoint print_digits (fuel : nat) (n : Z) (acc : string) : string :=
  match fuel with
  | O => acc
  | S fuel =>
      if n <? 10 then String (digit n) acc
      else print_digits fuel (n / 10) (String (digit (n mod 10)) acc)
  end.
Definition print_unsigned (n : Z) : string := print_digits 20 n EmptyString.

(** [format!("{:02}", n)] of a number below a hundred. *)
Definition print_cents (n : Z) : string :=
  String (digit (n / 10)) (String (digit (n mod 10)) EmptyString).

Definition format_amount (minor : Z) : result PaymentError string :=
  require (amount_in_bounds minor) (PayInvalid "amount outside provider bounds") ;;
  Ok (print_unsigned (minor / 100) +:+ String "." (print_cents (minor mod 100))).

(** The [identifier] of the provider protocol. *)
Definition trade_identifier (value : string) : bool :=
  negb (is_empty value) && (str_len value <=? 64)
  && bytes_all (λ c, is_ascii_alphanumeric c || one_of ["_"; "-"]%char c) value.

(** ** Evidence *)

Record AlipayConfig := mkAlipayConfig {
  al_app_id : string; al_seller_id : string; al_environment : string; al_notify_url : string }.

Record VerifiedTrade := mkVerifiedTrade {
  vt_order : string; vt_trade : string; vt_amount : Z; vt_state : string;
  vt_proof : string; vt_evidence : Json }.

Record VerifiedRefund := mkVerifiedRefund {
  vr_order : string; vr_trade : string; vr_request : string; vr_amount : Z; vr_evidence : Json }.

Definition VerifiedTrade_paid (t : VerifiedTrade) : bool :=
  str_in (vt_state t) ["TRADE_SUCCESS"; "TRADE_FINISHED"].

(** A [BTreeMap<String, String>]: an association list in the order of its
    keys; [bt_insert] also tells whether the key was there. *)
Fixpoint bt_insert (k v : string) (m : list (string * string)) : bool * list (string * string) :=
  match m with
  | [] => (false, [(k, v)])
  | (l, w) :: m' =>
      match String.compare k l with
      | Eq => (true, (k, v) :: m')
      | Lt => (false, (k, v) :: m)
      | Gt => let r := bt_insert k v m' in (r.1, (l, w) :: r.2)
      end
  end.

Fixpoint bt_get (k : string) (m : list (string * string)) : option string :=
  match m with
  | [] => None
  | (l, w) :: m => if str_eqb k l then Some w else bt_get k m
  end.

Fixpoint join (sep : string) (l : list string) : string :=
  match l with
  | [] => EmptyString
  | [s] => s
  | s :: l => s +:+ sep +:+ join sep l
  end.

(** The fields a signature covers: all but the signature itself, its type in
    a notification, and empty values. *)
Definition signed_field (notification : bool) (field : string * string) : bool :=
  negb (str_eqb field.1 "sign") && negb (notification && str_eqb field.1 "sign_type")
  && negb (is_empty field.2).

Definition canonical (values : list (string * string)) (notification : bool) : string :=
  join "&" ((λ f, f.1 +:+ "=" +:+ f.2) <$> filter (λ f, signed_field notification f = true) values).

Fixpoint contains_text (sub s : string) : bool :=
  String.prefix sub s ||
  match s with EmptyString => false | String _ s => contains_text sub s end.

(** [U+FFFD] in UTF-8. *)
Definition REPLACEMENT : string :=
  String "239" (String "191" (String "189" EmptyString)).

Definition ascii_lowercase (c : ascii) : ascii :=
  if is_ascii_uppercase c then ascii_of_N (byte_code c + 32) else c.
Fixpoint str_lowercase (s : string) : string :=
  match s with
  | EmptyString => EmptyString
  | String c s => String (ascii_lowercase c) (str_lowercase s)
  end.
Definition eq_ignore_ascii_case (a b : string) : bool :=
  str_eqb (str_lowercase a) (str_lowercase b).

Fixpoint collect_fields (fields values : list (string * string))
    : result PaymentError (list (string * string)) :=
  match fields with
  | [] => Ok values
  | (key, value) :: fields =>
      let inserted := bt_insert key value values in
      require
        (negb (is_empty key || (128 <? str_len key)
               || negb (bytes_all (λ c, is_ascii_alphanumeric c || Ascii.eqb c "_") key)
               || contains_text REPLACEMENT value || inserted.1))
        (PayInvalid "duplicate or invalid notification field") ;;
      collect_fields fields inserted.2
  end.

Record RefundReply := mkRefundReply {
  rr_out_trade_no : string; rr_trade_no : string; rr_out_request_no : string;
  rr_refund_amount : string; rr_refund_status : option string }.
Record TradeReply := mkTradeReply {
  tr_out_trade_no : string; tr_trade_no : string; tr_total_amount : string;
  tr_trade_status : string }.
Record CheckoutReply := mkCheckoutReply { cr_out_trade_no : string; cr_qr_code : string }.
Record Packet := mkPacket {
  pk_sign : string;
  pk_precreate : option string;
  pk_query : option string;
  pk_refund : option string;
  pk_refund_query : option string }.
Record SignedResponse := mkSignedResponse { sg_raw : string; sg_signature : string }.

(** The libraries the protocol calls. *)
Class ProviderLibraries := {
  sha256_hex : string → string;
  rsa_verify : string → string → bool;
  form_decode : string → option (list (string * string));
  json_text : string → option string;
  json_packet : string → option Packet;
  json_code : string → option string;
  json_refund : string → option RefundReply;
  json_trade : string → option TradeReply;
  json_checkout : string → option CheckoutReply }.

Section alipay.
Context `{ProviderLibraries} (config : AlipayConfig).

Definition Alipay_profile : string :=
  sha256_hex (al_environment config +:+ ":" +:+ al_app_id config +:+ ":" +:+ al_seller_id config).

Definition TRADE_STATES : list string :=
  ["WAIT_BUYER_PAY"; "TRADE_SUCCESS"; "TRADE_FINISHED"; "TRADE_CLOSED"].

Definition verified_trade (order trade : string) (amount : Z) (state proof : string)
    : result PaymentError VerifiedTrade :=
  require (trade_identifier order && trade_identifier trade && str_in state TRADE_STATES)
    (PayInvalid "invalid trade identity or state") ;;
  Ok (mkVerifiedTrade order trade amount state (sha256_hex proof) JNull).

Definition with_evidence (t : VerifiedTrade) (evidence : Json) : VerifiedTrade :=
  mkVerifiedTrade (vt_order t) (vt_trade t) (vt_amount t) (vt_state t) (vt_proof t) evidence.

Definition evidence_json (protocol content signature : string) : Json :=
  JObj [("protocol", JStr protocol); ("signed_content", JStr content);
        ("signature", JStr signature)].

Definition get_field (values : list (string * string)) (name : string)
    : result PaymentError string :=
  ok_or (bt_get name values) (PayInvalid "notification field missing").

Definition verify_signature (content signature : string) : result PaymentError unit :=
  require (rsa_verify content signature) PaySignature.

(** The comparisons of the source stop at the first mismatch. *)
Definition check_merchant (values : list (string * string)) : result PaymentError unit :=
  let mismatch := PayInvalid "notification merchant, charset or algorithm mismatch" in
  sign_type ← get_field values "sign_type";
  require (str_eqb sign_type "RSA2") mismatch ;;
  charset ← get_field values "charset";
  require (eq_ignore_ascii_case charset "utf-8") mismatch ;;
  app ← get_field values "app_id";
  require (str_eqb app (al_app_id config)) mismatch ;;
  seller ← get_field values "seller_id";
  require (str_eqb seller (al_seller_id config)) mismatch.

Definition verify_notification (bytes : string) : result PaymentError VerifiedTrade :=
  require (str_len bytes <=? 65536) (PayInvalid "payment callback exceeds bound") ;;
  fields ← ok_or (form_decode bytes) (PayInvalid "invalid notification form");
  values ← collect_fields fields [];
  check_merchant values ;;
  let content := canonical values true in
  sign ← get_field values "sign";
  verify_signature content sign ;;
  order ← get_field values "out_trade_no";
  trade ← get_field values "trade_no";
  total ← get_field values "total_amount";
  amount ← parse_amount total;
  status ← get_field values "trade_status";
  verified ← verified_trade order trade amount status content;
  Ok (with_evidence verified (evidence_json "alipay.notify.rsa2" content sign)).

Definition packet_body (method : string) (p : Packet) : option string :=
  if str_eqb method "alipay.trade.precreate" then pk_precreate p
  else if str_eqb method "alipay.trade.query" then pk_query p
  else if str_eqb method "alipay.trade.refund" then pk_refund p
  else if str_eqb method "alipay.trade.fastpay.refund.query" then pk_refund_query p
  else None.

Definition response (method bytes : string) : result PaymentError SignedResponse :=
  packet ← ok_or (json_packet bytes) (PayInvalid "invalid signed provider response");
  raw ← ok_or (packet_body method packet) PayRejected;
  verify_signature raw (pk_sign packet) ;;
  code ← ok_or (json_code raw) (PayInvalid "invalid payment response code");
  require (str_eqb code "10000") PayRejected ;;
  Ok (mkSignedResponse raw (pk_sign packet)).

(** An amount is a JSON string or a JSON number, read from its own text. *)
Definition decimal (raw : string) : result PaymentError Z :=
  if String.prefix (String "034" EmptyString) raw then
    text ← ok_or (json_text raw) (PayInvalid "invalid amount string");
    parse_amount text
  else parse_amount raw.

(** The reply of [precreate], [query] and [query_refund], after [request]
    returned the signed response. *)
Definition precreate_reply (order : string) (raw : SignedResponse) : result PaymentError string :=
  reply ← ok_or (json_checkout (sg_raw raw)) (PayInvalid "invalid checkout response");
  require (str_eqb (cr_out_trade_no reply) order
           && String.prefix "https://qr.alipay.com/" (cr_qr_code reply)
           && (str_len (cr_qr_code reply) <=? 2048)) (PayInvalid "checkout binding mismatch") ;;
  Ok (cr_qr_code reply).

Definition query_reply (order : string) (raw : SignedResponse) : result PaymentError VerifiedTrade :=
  reply ← ok_or (json_trade (sg_raw raw)) (PayInvalid "invalid trade response");
  require (str_eqb (tr_out_trade_no reply) order) (PayInvalid "trade query binding mismatch") ;;
  amount ← decimal (tr_total_amount reply);
  trade ← verified_trade (tr_out_trade_no reply) (tr_trade_no reply) amount
            (tr_trade_status reply) (sg_raw raw);
  Ok (with_evidence trade (evidence_json "alipay.trade.query.rsa2" (sg_raw raw) (sg_signature raw))).

Definition verified_refund (raw : SignedResponse) (order trade request : string) (amount : Z)
    : result PaymentError VerifiedRefund :=
  reply ← ok_or (json_refund (sg_raw raw)) (PayInvalid "invalid refund query");
  require (str_eqb (rr_out_trade_no reply) order && str_eqb (rr_trade_no reply) trade
           && str_eqb (rr_out_request_no reply) request)
    (PayInvalid "refund evidence binding mismatch") ;;
  refunded ← decimal (rr_refund_amount reply);
  require (refunded =? amount) (PayInvalid "refund evidence binding mismatch") ;;
  require (bool_decide (rr_refund_status reply = Some "REFUND_SUCCESS"%string)) PayUnavailable ;;
  Ok (mkVerifiedRefund order trade request amount
        (evidence_json "alipay.refund.query.rsa2" (sg_raw raw) (sg_signature raw))).

Definition verify_refund_response (bytes order trade request : string) (amount : Z)
    : result PaymentError VerifiedRefund :=
  require (str_len bytes <=? 262144) (PayInvalid "refund evidence exceeds bound") ;;
  raw ← response "alipay.trade.fastpay.refund.query" bytes;
  verified_refund raw order trade request amount.
End alipay.

(** ** Amounts are exact *)

Lemma digit_code n : 0 ≤ n < 10 → Z.of_N (byte_code (digit n)) = 48 + n.
Proof.
  intros Hn. unfold digit, byte_code. rewrite N_ascii_embedding by lia. lia.
Qed.

Lemma digit_is_digit n : 0 ≤ n < 10 → is_ascii_digit (digit n) = true.
Proof.
  intros Hn. pose proof (digit_code n Hn). unfold is_ascii_digit, in_range.
  apply andb_true_iff. rewrite !N.leb_le. lia.
Qed.

Lemma digit_neq n c : 0 ≤ n < 10 → is_ascii_digit c = false → Ascii.eqb (digit n) c = false.
Proof.
  intros Hn Hc. apply Ascii.eqb_neq. intros E. pose proof (digit_is_digit n Hn). congruence.
Qed.

Lemma parse_digit max acc n s :
  0 ≤ n < 10 → acc * 10 + n ≤ max →
  parse_digits max acc (String (digit n) s) = parse_digits max (acc * 10 + n) s.
Proof.
  intros Hn Hmax. simpl. rewrite digit_is_digit, digit_code by done.
  replace (acc * 10 + (48 + n - 48)) with (acc * 10 + n) by lia.
  by rewrite (proj2 (Z.leb_le _ _)).
Qed.

(** The digits of [n] read back as [n]. *)
Lemma parse_print max fuel n s :
  0 ≤ n < 10 ^ Z.of_nat fuel → n ≤ max →
  parse_digits max 0 (print_digits fuel n s) = parse_digits max n s.
Proof.
  revert n s. induction fuel as [|fuel IH]; intros n s Hn Hmax; [simpl in *; by replace n with 0 by lia|].
  rewrite Nat2Z.inj_succ, Z.pow_succ_r in Hn by lia. cbn [print_digits].
  destruct (Z.ltb_spec n 10).
  - rewrite parse_digit by lia. f_equal.
  - pose proof (Z.div_mod n 10). pose proof (Z.mod_pos_bound n 10).
    rewrite IH by lia. rewrite parse_digit by lia. f_equal. lia.
Qed.

Lemma print_length fuel k n s :
  0 ≤ n < 10 ^ Z.of_nat k → (1 ≤ k)%nat →
  (String.length (print_digits fuel n s) ≤ k + String.length s)%nat.
Proof.
  revert k n s. induction fuel as [|fuel IH]; intros k n s Hn Hk; simpl; [lia|].
  destruct (Z.ltb_spec n 10); simpl; [lia|].
  destruct k as [|[|k]]; [lia|simpl in Hn; lia|].
  rewrite Nat2Z.inj_succ, Z.pow_succ_r in Hn by lia.
  pose proof (Z.div_mod n 10). pose proof (Z.mod_pos_bound n 10).
  specialize (IH (S k) (n / 10) (String (digit (n mod 10)) s)). simpl in IH. lia.
Qed.

Lemma print_all_digits fuel n s :
  0 ≤ n → bytes_all is_ascii_digit s = true →
  bytes_all is_ascii_digit (print_digits fuel n s) = true.
Proof.
  revert n s. induction fuel as [|fuel IH]; intros n s Hn Hs; simpl; [done|].
  pose proof (Z.div_mod n 10). pose proof (Z.mod_pos_bound n 10).
  destruct (Z.ltb_spec n 10); simpl.
  - by rewrite digit_is_digit by lia.
  - apply IH; [lia|]. simpl. by rewrite digit_is_digit by lia.
Qed.

Lemma print_head fuel n s : 0 ≤ n → (0 < fuel)%nat →
  ∃ k s', 0 ≤ k < 10 ∧ print_digits fuel n s = String (digit k) s'.
Proof.
  revert n s. induction fuel as [|fuel IH]; intros n s Hn Hf; [lia|]. simpl.
  pose proof (Z.div_mod n 10). pose proof (Z.mod_pos_bound n 10).
  destruct (Z.ltb_spec n 10); [by exists n, s|].
  destruct fuel; [simpl; exists (n mod 10), s; split; [lia|done]|]. apply IH; lia.
Qed.

Lemma parse_unsigned_print max n : 0 ≤ n < 10 ^ 20 → n ≤ max →
  parse_unsigned max (print_unsigned n) = Some n.
Proof.
  intros Hn Hmax. unfold parse_unsigned, print_unsigned.
  pose proof (parse_print max 20 n EmptyString Hn Hmax) as Hp.
  destruct (print_head 20 n EmptyString) as (k & s & Hk & Hs); [lia..|]. rewrite Hs in *.
  rewrite digit_neq by done. exact Hp.
Qed.

Lemma split_once_app sep a b :
  contains_byte sep a = false → split_once sep (a +:+ String sep b) = Some (a, b).
Proof.
  induction a as [|c a IH]; simpl; [by rewrite Ascii.eqb_refl|].
  intros [Hc Ha]%orb_false_iff. by rewrite Ascii.eqb_sym, Hc, (IH Ha).
Qed.

Lemma digits_without c s :
  is_ascii_digit c = false → bytes_all is_ascii_digit s = true → contains_byte c s = false.
Proof.
  intros Hc. induction s as [|d s IH]; simpl; [done|]. intros [Hd Hs]%andb_true_iff.
  rewrite (IH Hs), orb_false_r. apply Ascii.eqb_neq. congruence.
Qed.

Lemma contains_byte_app c a b : contains_byte c (a +:+ b) = contains_byte c a || contains_byte c b.
Proof. induction a as [|d a IH]; simpl; [done|]. by rewrite IH, orb_assoc. Qed.

Lemma parse_cents n : 0 ≤ n < 100 → parse_unsigned i64_max (print_cents n) = Some n.
Proof.
  intros Hn. pose proof (Z.div_mod n 10). pose proof (Z.mod_pos_bound n 10).
  unfold parse_unsigned, print_cents. rewrite digit_neq by (done || lia). cbn [is_empty].
  rewrite !parse_digit by (unfold i64_max; lia). simpl. f_equal. lia.
Qed.

Lemma amount_in_bounds_spec m : amount_in_bounds m = true ↔ 1 ≤ m ≤ AMOUNT_MAX.
Proof. unfold amount_in_bounds. rewrite andb_true_iff, !Z.leb_le. done. Qed.

Lemma parse_amount_bounds s m : parse_amount s = Ok m → 1 ≤ m ≤ AMOUNT_MAX.
Proof.
  intros Hm. unfold parse_amount in Hm.
  apply require_bind_Ok in Hm as [_ Hm]. apply result_bind_Ok in Hm as (y & _ & Hm).
  apply result_bind_Ok in Hm as (c & _ & Hm). apply require_bind_Ok in Hm as [Hb Hm].
  injection Hm as <-. by apply amount_in_bounds_spec.
Qed.

(** C37: amounts cross the provider boundary without rounding: every amount in
    bounds is printed as a decimal that parses back to it, nothing else is
    printed, and whatever parses is in bounds. *)
Theorem amount_roundtrip :
  (∀ m, 1 ≤ m ≤ AMOUNT_MAX → ∃ s, format_amount m = Ok s ∧ parse_amount s = Ok m) ∧
  (∀ m s, format_amount m = Ok s → 1 ≤ m ≤ AMOUNT_MAX) ∧
  (∀ s m, parse_amount s = Ok m → 1 ≤ m ≤ AMOUNT_MAX).
Proof.
  split; [|split; [|apply parse_amount_bounds]].
  2:{ intros m s Hm. apply require_bind_Ok in Hm as [Hb _]. by apply amount_in_bounds_spec. }
  intros m Hm. pose proof (proj2 (amount_in_bounds_spec m) Hm) as Hb.
  unfold AMOUNT_MAX in Hm.
  pose proof (Z.div_mod m 100). pose proof (Z.mod_pos_bound m 100).
  assert (0 ≤ m / 100 < 10 ^ 9) as Hq by lia.
  unfold format_amount. rewrite Hb. eexists. split; [reflexivity|].
  set (whole := print_unsigned (m / 100)). set (cents := print_cents (m mod 100)).
  assert (Hw : bytes_all is_ascii_digit whole = true) by (apply print_all_digits; [lia|done]).
  assert (Hc : bytes_all is_ascii_digit cents = true).
  { pose proof (Z.div_mod (m mod 100) 10). pose proof (Z.mod_pos_bound (m mod 100) 10).
    simpl. by rewrite !digit_is_digit by lia. }
  assert (Hlen : str_len whole ≤ 9).
  { pose proof (print_length 20 9 (m / 100) EmptyString). unfold str_len, whole, print_unsigned.
    simpl String.length in *. lia. }
  assert (Hhead : is_empty whole = false).
  { destruct (print_head 20 (m / 100) EmptyString) as (k & s & _ & Hs); [lia..|].
    unfold whole, print_unsigned. by rewrite Hs. }
  unfold parse_amount. rewrite split_once_app by by apply digits_without. cbn [default from_option id fst snd].
  change (is_empty cents) with false. change (2 <? str_len cents) with false.
  change (str_len cents =? 1) with false.
  rewrite Hhead, Hw, Hc, contains_byte_app, (proj2 (Z.ltb_ge 9 _)), andb_false_r by done.
  cbn [orb negb require].
  unfold whole. rewrite parse_unsigned_print by (unfold i64_max; lia).
  unfold cents. rewrite parse_cents by lia. cbn [ok_or mbind result_bind]. replace (m / 100 * 100 + m mod 100) with m by lia. by rewrite Hb.
Qed.

(** ** Evidence is bound to its signature *)

Abbreviation key_lt := OrderedTypeEx.String_as_OT.lts.

Lemma compare_lt a b : String.compare a b = Lt ↔ key_lt a b.
Proof. apply OrderedTypeEx.String_as_OT.cmp_lt. Qed.
Lemma key_lt_trans a b c : key_lt a b → key_lt b c → key_lt a c.
Proof. apply OrderedTypeEx.String_as_OT.lt_trans. Qed.
Lemma key_lt_irrefl a : ¬ key_lt a a.
Proof. intros Ha. by apply (OrderedTypeEx.String_as_OT.lt_not_eq a a). Qed.

(** A map in key order. *)
Definition bt_sorted (m : list (string * string)) : Prop := StronglySorted key_lt m.*1.

Lemma bt_insert_new k v m m' :
  bt_insert k v m = (false, m') → bt_sorted m → bt_sorted m' ∧ m' ≡ₚ (k, v) :: m.
Proof.
  unfold bt_sorted. revert m'. induction m as [|[l w] m IH]; simpl; intros m'.
  { intros [= <-] _. split; [|done]. repeat constructor. }
  intros Hins Hs. apply StronglySorted_inv in Hs as [Hs Hall].
  destruct (String.compare k l) eqn:E; [done|..].
  - injection Hins as <-. apply compare_lt in E. split; [|done]. simpl.
    constructor; [by constructor|]. constructor; [done|].
    eapply Forall_impl; [exact Hall|]. intros x Hx. by eapply key_lt_trans.
  - destruct (bt_insert k v m) as [b m1]. simpl in Hins. injection Hins as -> <-.
    destruct (IH m1 eq_refl Hs) as [Hs1 Hp1].
    assert (key_lt l k) as Hlk.
    { apply compare_lt. rewrite String.compare_antisym, E. done. }
    split; [|rewrite Hp1; apply Permutation_swap]. simpl. constructor; [done|].
    rewrite Hp1. simpl. by constructor.
Qed.

Lemma sorted_NoDup m : bt_sorted m → NoDup m.*1.
Proof.
  unfold bt_sorted. induction 1 as [|k l Hl IH Hall]; constructor; [|done].
  intros Hin. rewrite Forall_forall in Hall. exact (key_lt_irrefl _ (Hall _ Hin)).
Qed.

Lemma collect_fields_Ok fields values m :
  collect_fields fields values = Ok m → bt_sorted values → bt_sorted m ∧ m ≡ₚ fields ++ values.
Proof.
  revert values. induction fields as [|[k v] fields IH]; simpl; intros values Hrun Hs.
  { by injection Hrun as <-. }
  apply require_bind_Ok in Hrun as [Hok Hrun]. apply negb_true_iff in Hok.
  apply orb_false_iff in Hok as [_ Hnew].
  destruct (bt_insert k v values) as [b values'] eqn:E. simpl in *. subst b.
  apply bt_insert_new in E as [Hs' Hp]; [|done].
  destruct (IH _ Hrun Hs') as [Hm Hpm]. split; [done|].
  by rewrite Hpm, Hp, Permutation_middle.
Qed.

Lemma bt_get_elem k m v : bt_get k m = Some v → (k, v) ∈ m.
Proof.
  induction m as [|[l w] m IH]; simpl; [done|]. destruct (str_eqb k l) eqn:E.
  - intros [= <-]. apply str_eqb_eq in E as ->. by left.
  - intros Hk. right. by apply IH.
Qed.

Section verified.
Context `{ProviderLibraries} (config : AlipayConfig).

Lemma get_field_Ok values name v : get_field values name = Ok v → (name, v) ∈ values.
Proof. unfold get_field. rewrite ok_or_Ok. apply bt_get_elem. Qed.

Lemma check_merchant_Ok values u : check_merchant config values = Ok u →
  ("sign_type", "RSA2")%string ∈ values ∧ ("app_id"%string, al_app_id config) ∈ values ∧
  ("seller_id"%string, al_seller_id config) ∈ values.
Proof.
  unfold check_merchant. rewrite result_bind_Ok. intros (t & Ht & Hrun).
  apply require_bind_Ok in Hrun as [->%str_eqb_eq Hrun].
  apply result_bind_Ok in Hrun as (c & _ & Hrun). apply require_bind_Ok in Hrun as [_ Hrun].
  apply result_bind_Ok in Hrun as (a & Ha & Hrun).
  apply require_bind_Ok in Hrun as [->%str_eqb_eq Hrun].
  apply result_bind_Ok in Hrun as (s & Hs & Hrun). apply require_Ok, str_eqb_eq in Hrun as ->.
  split; [|split]; by apply get_field_Ok.
Qed.

Lemma verified_trade_Ok order trade amount state proof t :
  verified_trade order trade amount state proof = Ok t →
  t = mkVerifiedTrade order trade amount state (sha256_hex proof) JNull ∧
  trade_identifier order = true ∧ trade_identifier trade = true ∧ state ∈ TRADE_STATES.
Proof.
  unfold verified_trade. rewrite require_bind_Ok, !andb_true_iff, str_in_elem.
  intros [[[Ho Ht] Hs] Heq]. injection Heq as <-. done.
Qed.

(** C36: only signed evidence becomes a verified trade.  The fields of an
    accepted notification have distinct names, their canonical text (the
    fields in key order, without signature and signature type) carries a
    valid signature, they name this merchant, and the order, the trade, the
    state and the amount of the result are the signed ones. *)
Theorem notification_authentic bytes t :
  verify_notification config bytes = Ok t →
  ∃ fields values sign total,
    form_decode bytes = Some fields ∧ values ≡ₚ fields ∧ NoDup values.*1 ∧ bt_sorted values ∧
    ("sign"%string, sign) ∈ fields ∧ rsa_verify (canonical values true) sign = true ∧
    ("sign_type", "RSA2")%string ∈ fields ∧ ("app_id"%string, al_app_id config) ∈ fields ∧
    ("seller_id"%string, al_seller_id config) ∈ fields ∧
    ("out_trade_no"%string, vt_order t) ∈ fields ∧ ("trade_no"%string, vt_trade t) ∈ fields ∧
    ("trade_status"%string, vt_state t) ∈ fields ∧ vt_state t ∈ TRADE_STATES ∧
    ("total_amount"%string, total) ∈ fields ∧ parse_amount total = Ok (vt_amount t) ∧
    1 ≤ vt_amount t ≤ AMOUNT_MAX ∧ vt_proof t = sha256_hex (canonical values true).
Proof.
  unfold verify_notification. rewrite require_bind_Ok. intros [_ Hrun].
  apply result_bind_Ok in Hrun as (fields & Hf%ok_or_Ok & Hrun).
  apply result_bind_Ok in Hrun as (values & Hv & Hrun).
  apply result_bind_Ok in Hrun as (u & Hm & Hrun).
  apply result_bind_Ok in Hrun as (sign & Hsign & Hrun).
  apply require_bind_Ok in Hrun as [Hrsa Hrun].
  apply result_bind_Ok in Hrun as (order & Ho & Hrun).
  apply result_bind_Ok in Hrun as (trade & Ht & Hrun).
  apply result_bind_Ok in Hrun as (total & Htot & Hrun).
  apply result_bind_Ok in Hrun as (amount & Ham & Hrun).
  apply result_bind_Ok in Hrun as (status & Hst & Hrun).
  apply result_bind_Ok in Hrun as (verified & Hver & Hrun).
  apply verified_trade_Ok in Hver as (-> & _ & _ & Hstate). injection Hrun as <-. simpl.
  apply collect_fields_Ok in Hv as [Hs Hp]; [|constructor]. rewrite app_nil_r in Hp.
  apply check_merchant_Ok in Hm as (M1 & M2 & M3).
  apply get_field_Ok in Hsign, Ho, Ht, Htot, Hst. rewrite Hp in M1, M2, M3, Hsign, Ho, Ht, Htot, Hst.
  exists fields, values, sign, total. repeat (split; [done || by apply sorted_NoDup|]).
  split; [by eapply parse_amount_bounds|done].
Qed.

Lemma decimal_bounds raw m : decimal raw = Ok m → 1 ≤ m ≤ AMOUNT_MAX.
Proof.
  unfold decimal. case_match; [rewrite result_bind_Ok; intros (t & _ & Ht)|intros Ht];
    by eapply parse_amount_bounds.
Qed.

(** Offline refund evidence is accepted only if the provider signed it
    and it is about exactly this order, trade, refund request and amount,
    with the final status. *)
Theorem refund_evidence_authentic bytes order trade request amount r :
  verify_refund_response bytes order trade request amount = Ok r →
  r = mkVerifiedRefund order trade request amount (vr_evidence r) ∧ 1 ≤ amount ≤ AMOUNT_MAX ∧
  ∃ packet raw reply, json_packet bytes = Some packet ∧ pk_refund_query packet = Some raw ∧
    rsa_verify raw (pk_sign packet) = true ∧ json_code raw = Some "10000"%string ∧
    json_refund raw = Some reply ∧ rr_out_trade_no reply = order ∧ rr_trade_no reply = trade ∧
    rr_out_request_no reply = request ∧ decimal (rr_refund_amount reply) = Ok amount ∧
    rr_refund_status reply = Some "REFUND_SUCCESS"%string.
Proof.
  unfold verify_refund_response. rewrite require_bind_Ok. intros [_ Hrun].
  apply result_bind_Ok in Hrun as (raw & Hraw & Hrun). unfold response in Hraw.
  apply result_bind_Ok in Hraw as (packet & Hp%ok_or_Ok & Hraw).
  apply result_bind_Ok in Hraw as (body & Hb%ok_or_Ok & Hraw).
  apply require_bind_Ok in Hraw as [Hrsa Hraw].
  apply result_bind_Ok in Hraw as (code & Hc%ok_or_Ok & Hraw).
  apply require_bind_Ok in Hraw as [->%str_eqb_eq Hraw]. injection Hraw as <-.
  unfold verified_refund in Hrun. simpl in Hrun.
  apply result_bind_Ok in Hrun as (reply & Hr%ok_or_Ok & Hrun).
  apply require_bind_Ok in Hrun as [Hids Hrun].
  rewrite !andb_true_iff, !str_eqb_eq in Hids. destruct Hids as [[I1 I2] I3].
  apply result_bind_Ok in Hrun as (refunded & Hd & Hrun).
  apply require_bind_Ok in Hrun as [->%Z.eqb_eq Hrun].
  apply require_bind_Ok in Hrun as [Hst%bool_decide_eq_true Hrun]. injection Hrun as <-.
  split; [done|]. split; [by eapply decimal_bounds|]. exists packet, body, reply. done.
Qed.
End verified.
