(* ===== verification/Alipay.v ===== *)
(** * Alipay: checkouts, verified credits and provider refunds

    [crates/control-plane/src/payment_service.rs] and [refund_service.rs].
    A checkout binds an order to one merchant before the provider is called;
    a verified trade credits it once; a refund debits the wallet into
    [refund_pending] before any money moves, and verified provider evidence
    clears it.  Calls to the provider are arguments of the transactions that
    follow them; no lock is held while a call runs. *)

From S2P Require Import Prelude Domain Models Store Books Projection Ledger Reservations Wallet.
From S2P Require Import Lifecycle Payments.
Local Open Scope Z_scope.

Definition provider_error (e : PaymentError) : ServiceError :=
  match e with
  | PayInvalid _ | PaySignature => Invalid "invalid or unverified payment provider evidence"
  | PayRejected => Conflict "provider rejected the operation; query current state"
  | PayUnavailable => Dependency "payment outcome unknown; query before retrying"
  end.
Definition lift_provider {A} (r : result PaymentError A) : Tx A :=
  match r with Ok a => mret a | Err e => throw (provider_error e) end.

(** The merchant a handler speaks for. *)
Record Provider := mkProvider { pv_profile : string; pv_environment : string }.

(** ** Checkout *)

Definition checkout_json (state qr environment : string) : Json :=
  JObj [("state", JStr state); ("qr_code", JStr qr); ("environment", JStr environment)].

Definition put_checkout (id : string) (row : Checkout) : Tx unit :=
  modify (λ d, set_checkouts (<[id := row]> (checkouts d)) d).

Definition checkout_with (row : Checkout) (state : string) (qr : option string) (now : Z) : Checkout :=
  mkCheckout (ck_profile row) (ck_environment row) state qr (ck_created_at row) now.

(** Before the call: bind the order, or answer with the stored code.  [None]
    says that the provider is to be called. *)
Definition alipay_checkout_open (env : Env) (id : string) (provider : Provider)
    : Tx (option Json * Z) :=
  order ← lock_order id;
  fail_if (negb (str_eqb (od_status order) "pending") || negb (str_eqb (od_currency order) "CNY"))
    (Conflict "checkout requires a pending CNY order") ;;
  _ ← lift_provider (format_amount (od_amount order));
  prior ← gets (λ d, checkouts d !! id);
  match prior with
  | Some prior =>
      fail_if (negb (str_eqb (ck_profile prior) (pv_profile provider)))
        (Conflict "order bound to another payment merchant/environment") ;;
      mret (option_map (λ qr, checkout_json (ck_state prior) qr (ck_environment prior))
              (ck_qr_code prior), od_amount order)
  | None =>
      put_checkout id (mkCheckout (pv_profile provider) (pv_environment provider) "creating" None
        (env_now env) (env_now env)) ;;
      mret (None, od_amount order)
  end.

(** After the call, whose outcome is [qr]. *)
Definition alipay_checkout_store (env : Env) (id : string) (provider : Provider)
    (qr : result PaymentError string) : Tx Json :=
  qr ← lift_provider qr;
  _ ← lock_order id;
  row ← gets (λ d, checkouts d !! id);
  row ← found row NotFound;
  let state := if str_eqb (ck_state row) "creating" then "pending"%string else ck_state row in
  put_checkout id (checkout_with row state (Some qr) (env_now env)) ;;
  mret (checkout_json state qr (pv_environment provider)).

(** ** Credit *)

Definition put_receipt (id : string) (row : Receipt) : Tx unit :=
  modify (λ d, set_receipts (<[id := row]> (receipts d)) d).

Definition observed_json (credited : bool) : Json :=
  JObj [("observed", JBool true); ("credited", JBool credited)].
Definition sandbox_json : Json :=
  JObj [("observed", JBool true); ("environment", JStr "sandbox"); ("credited", JBool false)].
Definition credited_json (duplicate : bool) (payment_id : string) : Json :=
  JObj [("credited", JBool true); ("duplicate", JBool duplicate); ("payment_id", JStr payment_id)].

Section provider.
Context `{ProviderLibraries}.

Definition receipt_id (provider : Provider) (order_id proof : string) : string :=
  sha256_hex (pv_profile provider +:+ ":" +:+ order_id +:+ ":" +:+ proof).
Definition alipay_payment_id (provider : Provider) (trade_id : string) : string :=
  "alipay-" +:+ sha256_hex (pv_profile provider +:+ ":" +:+ trade_id).

Definition keep_receipt (env : Env) (provider : Provider) (order : Order) (trade : VerifiedTrade)
    : Tx unit :=
  let id := receipt_id provider (od_id order) (vt_proof trade) in
  known ← gets (λ d, receipts d !! id);
  match known with
  | Some _ => mret tt
  | None =>
      put_receipt id (mkReceipt (od_id order) (pv_profile provider) (vt_trade trade)
        (vt_state trade) (vt_amount trade) (vt_proof trade) (vt_evidence trade) (env_now env))
  end.

(** The first credit of a paid trade. *)
Definition credit_trade (env : Env) (provider : Provider) (order : Order) (checkout : Checkout)
    (trade : VerifiedTrade) (payment_id : string) : Tx Json :=
  account ← lock_account (od_project_id order);
  insert_payment (mkPayment payment_id (od_id order) "alipay" (vt_trade trade) (od_amount order)
    "CNY" "succeeded" (Some (env_now env)) (env_now env)) Database ;;
  amount ← found (checked_mul (od_amount order) MICROS_PER_MINOR_UNIT) (Invalid "credit overflow");
  insert_balanced_entries env account (od_tenant_id order) "top_up" "payment" payment_id
    ("alipay:" +:+ payment_id) "Verified Alipay credit" amount "cash_clearing" ;;
  mark_paid env order ;;
  put_checkout (od_id order) (checkout_with checkout "paid" (ck_qr_code checkout) (env_now env)) ;;
  mret (credited_json false payment_id).

Definition accept_alipay_trade (env : Env) (provider : Provider) (trade : VerifiedTrade)
    : Tx Json :=
  order ← lock_order (vt_order trade);
  checkout ← gets (λ d, checkouts d !! od_id order);
  checkout ← found checkout (Conflict "no checkout was initiated for this order");
  fail_if (negb (str_eqb (ck_profile checkout) (pv_profile provider))
           || negb (str_eqb (ck_environment checkout) (pv_environment provider))
           || negb (str_eqb (od_currency order) "CNY")
           || negb (od_amount order =? vt_amount trade))
    (Conflict "verified trade does not match bound checkout amount or merchant") ;;
  keep_receipt env provider order trade ;;
  if negb (str_eqb (pv_environment provider) "production") then mret sandbox_json
  else
    let payment_id := alipay_payment_id provider (vt_trade trade) in
    if negb (VerifiedTrade_paid trade) then
      (if str_eqb (vt_state trade) "TRADE_CLOSED" && str_eqb (od_status order) "pending"
       then put_checkout (od_id order)
              (checkout_with checkout "closed" (ck_qr_code checkout) (env_now env))
       else mret tt) ;;
      mret (observed_json false)
    else
      existing ← gets (λ d, payments d !! payment_id);
      match existing with
      | Some existing =>
          fail_if (negb (str_eqb (py_order_id existing) (od_id order))
                   || negb (py_amount existing =? od_amount order)
                   || negb (str_eqb (py_status existing) "succeeded"))
            (Conflict "provider trade already belongs to another payment") ;;
          mret (credited_json true payment_id)
      | None =>
          fail_if (negb (str_eqb (od_status order) "pending"))
            (Conflict "order already paid with different evidence") ;;
          credit_trade env provider order checkout trade payment_id
      end.

(** ** Refunds *)

Definition refund_request_ok (r : CreateRefundRequest) : bool :=
  negb (is_empty (crf_id r) || (64 <? str_len (crf_id r))
        || negb (bytes_all (λ c, is_ascii_alphanumeric c || one_of ["-"; "_"]%char c) (crf_id r))
        || is_blank (crf_reason r) || (256 <? str_len (crf_reason r))
        || negb (str_eqb (money_currency (crf_amount r)) "CNY")).

Definition refund_json (id state : string) (duplicate : bool) : Json :=
  JObj [("id", JStr id); ("state", JStr state); ("duplicate", JBool duplicate)].

Definition lock_checkout (id : string) : Tx Checkout :=
  row ← gets (λ d, checkouts d !! id);
  found row NotFound.

(** The debit that precedes any external money movement. *)
Definition hold_refund (env : Env) (r : CreateRefundRequest) (payment : Payment) (order : Order)
    : Tx Json :=
  sum ← gets (refunded (py_id payment) ["pending"; "succeeded"]);
  prior ← total sum;
  fail_if (match checked_add prior (money_amount (crf_amount r)) with
           | Some n => py_amount payment <? n
           | None => true
           end) (Conflict "refund total exceeds captured amount") ;;
  account ← lock_account (od_project_id order);
  bh ← balance_and_held env (ac_id account);
  debit ← found (checked_mul (money_amount (crf_amount r)) MICROS_PER_MINOR_UNIT)
            (Invalid "refund overflow");
  fail_if (match checked_sub bh.1 bh.2 with
           | Some available => available <? debit
           | None => true
           end) (InsufficientFunds "refund would consume spent or reserved balance") ;;
  insert_refund (mkRefund (crf_id r) (py_id payment) (money_amount (crf_amount r)) "CNY"
    (crf_reason r) "pending" None (env_now env) None) Database ;;
  insert_balanced_entries env account (od_tenant_id order) "refund_pending" "refund" (crf_id r)
    ("refund-hold:" +:+ crf_id r) "Alipay refund funds pending provider evidence" (- debit)
    "refund_pending" ;;
  mret (refund_json (crf_id r) "pending" false).

Definition prepare_alipay_refund (env : Env) (r : CreateRefundRequest) (provider : Provider)
    : Tx Json :=
  fail_if (negb (refund_request_ok r)) (Invalid "invalid refund ID, reason or currency") ;;
  _ ← lift_provider (format_amount (money_amount (crf_amount r)));
  payment ← lock_payment (crf_payment_id r);
  order ← lock_order (py_order_id payment);
  checkout ← lock_checkout (od_id order);
  fail_if (negb (str_eqb (py_provider payment) "alipay")
           || negb (str_eqb (py_status payment) "succeeded")
           || negb (str_eqb (py_currency payment) "CNY")
           || negb (str_eqb (ck_profile checkout) (pv_profile provider))
           || negb (str_eqb (ck_environment checkout) "production")
           || negb (str_eqb (pv_environment provider) "production"))
    (Conflict "refund requires captured production Alipay payment and matching merchant") ;;
  prior ← gets (λ d, refunds d !! crf_id r);
  match prior with
  | Some prior =>
      fail_if (negb (str_eqb (rf_payment_id prior) (py_id payment))
               || negb (rf_amount prior =? money_amount (crf_amount r))
               || negb (str_eqb (rf_currency prior) (money_currency (crf_amount r)))
               || negb (str_eqb (rf_reason prior) (crf_reason r)))
        (Conflict "refund ID already bound to another request") ;;
      mret (refund_json (rf_id prior) (rf_status prior) true)
  | None => hold_refund env r payment order
  end.

(** The clearing entries, from [refund_pending] to [cash_clearing]. *)
Definition clear_refund (env : Env) (account : Account) (order : Order) (row : Refund) : Tx string :=
  let transaction_id := "txn-" +:+ env_uuid env 0 in
  insert_ledger_transaction
    (mkLedgerTransaction transaction_id (od_tenant_id order) "refund_settled" "refund" (rf_id row)
       ("refund-settle:" +:+ rf_id row) (rf_currency row) "Verified Alipay refund clearing"
       (env_now env)) Database ;;
  amount ← found (checked_mul (rf_amount row) MICROS_PER_MINOR_UNIT) (Invalid "refund overflow");
  insert_ledger_entry
    (mkLedgerEntry ("entry-" +:+ env_uuid env 1) transaction_id (ac_id account)
       "refund_pending" (- amount) (rf_currency row) (env_now env)) ;;
  insert_ledger_entry
    (mkLedgerEntry ("entry-" +:+ env_uuid env 2) transaction_id (ac_id account)
       "cash_clearing" amount (rf_currency row) (env_now env)) ;;
  mret transaction_id.

Definition insert_receipt (id : string) (row : Receipt) : Tx unit :=
  dup ← gets (λ d, is_some (receipts d !! id));
  fail_if dup Database ;;
  put_receipt id row.

Definition mark_refunded (env : Env) (row : Refund) (trade : string) : Tx unit :=
  modify (λ d, set_refunds (<[rf_id row :=
    mkRefund (rf_id row) (rf_payment_id row) (rf_amount row) (rf_currency row) (rf_reason row)
      "succeeded" (Some trade) (rf_created_at row) (Some (env_now env))]> (refunds d)) d).

(** [serde_json::to_vec] of the evidence, in a library. *)
Variable json_bytes : Json → string.

Definition settle_refund (env : Env) (provider : Provider) (order : Order) (row : Refund)
    (proof : VerifiedRefund) : Tx Json :=
  account ← lock_account (od_project_id order);
  let digest := sha256_hex (json_bytes (vr_evidence proof)) in
  insert_receipt ("refund-" +:+ digest)
    (mkReceipt (od_id order) (pv_profile provider) (vr_trade proof) "REFUND_SUCCESS"
       (rf_amount row) digest (vr_evidence proof) (env_now env)) ;;
  transaction_id ← clear_refund env account order row;
  append_event env (ac_id account) "ledger.posted" transaction_id
    (JObj [("kind", JStr "refund_settled"); ("reference_type", JStr "refund");
           ("reference_id", JStr (rf_id row)); ("customer_delta_microunits", JNum 0);
           ("currency", JStr "CNY")]) ;;
  mark_refunded env row (vr_trade proof) ;;
  mret (refund_json (rf_id row) "succeeded" false).

Definition complete_alipay_refund (env : Env) (provider : Provider) (proof : VerifiedRefund)
    : Tx Json :=
  row ← gets (λ d, refunds d !! vr_request proof);
  row ← found row NotFound;
  payment ← lock_payment (rf_payment_id row);
  order ← lock_order (py_order_id payment);
  checkout ← lock_checkout (od_id order);
  fail_if (negb (str_eqb (pv_environment provider) "production")
           || negb (str_eqb (ck_environment checkout) "production")
           || negb (rf_amount row =? vr_amount proof)
           || negb (str_eqb (py_provider_reference payment) (vr_trade proof))
           || negb (str_eqb (od_id order) (vr_order proof))
           || negb (str_eqb (ck_profile checkout) (pv_profile provider))
           || negb (str_eqb (py_provider payment) "alipay"))
    (Conflict "refund evidence does not match durable request") ;;
  if str_eqb (rf_status row) "succeeded" then mret (refund_json (rf_id row) "succeeded" true)
  else
    fail_if (negb (str_eqb (rf_status row) "pending")) (Conflict "refund no longer pending") ;;
    settle_refund env provider order row proof.

(** Submit to the provider ([submitted] is the outcome of that call) or query
    it ([queried]) and complete. *)
Definition alipay_refund_operation (env : Env) (id : string) (provider : Provider) (submit : bool)
    (submitted : result PaymentError unit) (queried : result PaymentError VerifiedRefund)
    : Tx Json :=
  row ← gets (λ d, refunds d !! id);
  row ← found row NotFound;
  payment ← lock_payment (rf_payment_id row);
  checkout ← lock_checkout (py_order_id payment);
  fail_if (negb (str_eqb (py_provider payment) "alipay")
           || negb (str_eqb (pv_environment provider) "production")
           || negb (str_eqb (ck_profile checkout) (pv_profile provider)))
    (Conflict "refund merchant mismatch") ;;
  if str_eqb (rf_status row) "succeeded" then mret (refund_json id "succeeded" true)
  else
    fail_if (negb (str_eqb (rf_status row) "pending")) (Conflict "refund is not pending") ;;
    if submit then
      lift_provider submitted ;;
      mret (JObj [("id", JStr id); ("state", JStr "pending"); ("query_after_seconds", JNum 10)])
    else
      verified ← lift_provider queried;
      complete_alipay_refund env provider verified.

Definition import_refund_evidence (env : Env) (config : AlipayConfig) (id bytes : string) : Tx Json :=
  row ← gets (λ d, refunds d !! id);
  row ← found row NotFound;
  payment ← lock_payment (rf_payment_id row);
  proof ← lift_provider (verify_refund_response bytes (py_order_id payment)
            (py_provider_reference payment) id (rf_amount row));
  complete_alipay_refund env (mkProvider (Alipay_profile config) (al_environment config)) proof.
End provider.

(** ** Every operation keeps the books *)

#[export] Hint Unfold lift_provider put_checkout put_receipt keep_receipt credit_trade hold_refund
  lock_checkout clear_refund insert_receipt mark_refunded settle_refund : frame.

Lemma lift_provider_Ok {A} (r : result PaymentError A) d a d' :
  lift_provider r d = Ok (a, d') ↔ r = Ok a ∧ d' = d.
Proof. destruct r; simpl; rewrite ?tx_ret_Ok, ?throw_Ok; naive_solver. Qed.

(** [pay_inv H] opens a transaction that also lifts provider results. *)
Ltac pay_inv H := tx_inv H; repeat match goal with
  | H1 : lift_provider _ _ = Ok _ |- _ => apply lift_provider_Ok in H1 as [? ->]
  | H1 : lock_order _ _ = Ok _ |- _ => unfold lock_order in H1; tx_inv H1
  | H1 : lock_payment _ _ = Ok _ |- _ => unfold lock_payment in H1; tx_inv H1
  | H1 : lock_checkout _ _ = Ok _ |- _ => unfold lock_checkout in H1; tx_inv H1
  end.

(** Only checkouts and receipts were written. *)
Definition evidence_only (d d' : Db) : Prop :=
  ∃ ck rc, d' = set_checkouts ck (set_receipts rc d).

#[export] Instance evidence_only_preorder : PreOrder evidence_only.
Proof.
  split; [intros []; by do 2 eexists|].
  intros d1 d2 d3 (a & b & ->) (a' & b' & ->). by exists a', b'.
Qed.

Lemma evidence_receipts v d : evidence_only d (set_receipts v d).
Proof. exists (checkouts d), v. by destruct d. Qed.
Lemma evidence_checkouts v d : evidence_only d (set_checkouts v d).
Proof. exists v, (receipts d). by destruct d. Qed.

(** Postings write neither orders nor payments nor refunds. *)
Lemma insert_balanced_entries_frame env ac tenant kind rt ri idem desc delta counter d u d' :
  insert_balanced_entries env ac tenant kind rt ri idem desc delta counter d = Ok (u, d') →
  orders d' = orders d ∧ payments d' = payments d ∧ refunds d' = refunds d ∧
  usage_events d' = usage_events d.
Proof.
  intros Hrun.
  assert (Hp : preserves (λ d, (orders d, payments d, refunds d, usage_events d))
    (insert_balanced_entries env ac tenant kind rt ri idem desc delta counter)) by frame.
  specialize (Hp _ _ _ Hrun). by injection Hp.
Qed.

Lemma outside_same d d' : outside d d' →
  reservations d' = reservations d ∧ ledger_entries d' = ledger_entries d ∧
  accounts d' = accounts d ∧ reviews d' = reviews d.
Proof. by intros (a & b & c & e & f & g & h & i & j & ->). Qed.

Section correctness.
Context `{Calendar}.

Lemma outside_commits d d' : Inv d → outside d d' → Inv d' ∧ posts "" 0 d d'.
Proof.
  intros HI Ho. split; [by eapply Inv_outside|].
  apply outside_same in Ho as (Er & El & Ea & _). apply posts_nothing; [done..|by left].
Qed.

(** Post to a project's account between writes to tables outside the books. *)
Lemma post_commits env pr ac tenant kind rt ri idem desc delta counter d dm u d1 d' :
  Inv d → accounts d !! pr = Some ac → outside d dm → counter ≠ "customer_balance"%string →
  insert_balanced_entries env ac tenant kind rt ri idem desc delta counter dm = Ok (u, d1) →
  outside d1 d' → Inv d' ∧ posts (account_id pr) delta d d'.
Proof.
  intros HI Hac Ho Hc Hrun Ho'. pose proof (Inv_outside _ _ _ HI Ho) as HIm.
  destruct (outside_same _ _ Ho) as (Er & El & Ea & _).
  destruct (outside_same _ _ Ho') as (Er' & El' & Ea' & _).
  eapply post_to_project in Hrun as (HI1 & Hb & Hbook & Hg); [|done|by rewrite Ea|done].
  destruct (bookkeeping_same _ _ Hb) as (Er1 & _ & Ea1 & _).
  assert (∀ a, booked a dm = booked a d) as Eb by (intros a; unfold booked; by rewrite El).
  assert (∀ a, held a dm = held a d) as Eh by (intros a; unfold held; by rewrite Er).
  split; [by eapply Inv_outside|]. split.
  - congruence.
  - intros b. unfold booked at 1. rewrite El'. fold (booked b d1). by rewrite Hbook, Eb.
  - left. congruence.
  - intros pr' ac' Hac' Hid Hen Hneg.
    destruct (co_account _ (inv_config _ _ HI) _ _ Hac') as (_ & Hid' & _).
    rewrite Hid in Hid'. apply account_id_inj in Hid' as <-. rewrite Hac in Hac'.
    injection Hac' as <-. unfold available. rewrite <- Eb, <- Eh. by apply Hg.
Qed.

Lemma checkout_open_commits env id provider d a d' :
  alipay_checkout_open env id provider d = Ok (a, d') → outside d d'.
Proof.
  intros Hrun. unfold alipay_checkout_open in Hrun. pay_inv Hrun.
  destruct (checkouts d !! id); pay_inv Hrun; [done|].
  match goal with H1 : put_checkout _ _ _ = _ |- _ => apply modify_Ok in H1 as -> end.
  apply outside_checkouts.
Qed.

Lemma checkout_store_commits env id provider qr d a d' :
  alipay_checkout_store env id provider qr d = Ok (a, d') → outside d d'.
Proof.
  intros Hrun. unfold alipay_checkout_store, put_checkout in Hrun. pay_inv Hrun.
  apply outside_checkouts.
Qed.

Lemma projection_bookkeeping_same d d' : projection_only d d' →
  accounts d' = accounts d ∧ reservations d' = reservations d ∧ refunds d' = refunds d ∧
  payments d' = payments d ∧ orders d' = orders d ∧ usage_events d' = usage_events d.
Proof. by intros (b & k & s & ->). Qed.

Lemma posts_after_projection a delta d d1 d' :
  projection_only d d1 → posts a delta d1 d' → posts a delta d d'.
Proof.
  intros (b & k & s & ->) [P1 P2 P3 P4]. split; done.
Qed.

Context `{ProviderLibraries}.

Lemma evidence_outside d d' : evidence_only d d' → outside d d'.
Proof.
  intros (ck & rc & ->). etransitivity; [apply (outside_receipts rc)|apply outside_checkouts].
Qed.

Lemma keep_receipt_Ok env provider order trade d u d' :
  keep_receipt env provider order trade d = Ok (u, d') → evidence_only d d'.
Proof.
  intros Hrun. unfold keep_receipt, put_receipt in Hrun. tx_inv Hrun.
  destruct (receipts d !! _); tx_inv Hrun; [done|].
  apply evidence_receipts.
Qed.

(** An accepted trade is only recorded, or it is the first paid trade of a
    pending production order, for the amount of the order. *)
Lemma accept_trade_Ok env provider trade d a d' :
  accept_alipay_trade env provider trade d = Ok (a, d') →
  evidence_only d d' ∨
  ∃ order checkout dm, evidence_only d dm ∧
    orders d !! vt_order trade = Some order ∧ od_status order = "pending"%string ∧
    checkouts d !! od_id order = Some checkout ∧ ck_profile checkout = pv_profile provider ∧
    ck_environment checkout = "production"%string ∧ od_currency order = "CNY"%string ∧
    od_amount order = vt_amount trade ∧ VerifiedTrade_paid trade = true ∧
    payments d !! alipay_payment_id provider (vt_trade trade) = None ∧
    credit_trade env provider order checkout trade
      (alipay_payment_id provider (vt_trade trade)) dm = Ok (a, d').
Proof.
  intros Hrun. unfold accept_alipay_trade in Hrun. pay_inv Hrun.
  match goal with H1 : keep_receipt _ _ _ _ _ = Ok (_, ?x) |- _ =>
    rename x into dm; apply keep_receipt_Ok in H1 as Hev end.
  match goal with H1 : _ || _ || _ || _ = false |- _ =>
    rewrite !orb_false_iff, !negb_false_iff, !str_eqb_eq, Z.eqb_eq in H1;
    destruct H1 as [[[P1 P2] P3] P4] end.
  destruct (str_eqb (pv_environment provider) _) eqn:Hprod; simpl in Hrun;
    [|tx_inv Hrun; by left].
  apply str_eqb_eq in Hprod.
  destruct (VerifiedTrade_paid trade) eqn:Hpaid; simpl in Hrun.
  - tx_inv Hrun. assert (payments dm = payments d) as Ep by (by destruct Hev as (? & ? & ->)).
    rewrite Ep in Hrun. destruct (payments d !! _) eqn:Hnew; tx_inv Hrun; [by left|].
    match goal with H1 : negb _ = false |- _ => apply negb_false_iff, str_eqb_eq in H1 end.
    right. do 3 eexists. split; [exact Hev|]. repeat (split; [done || congruence|]). done.
  - left. tx_inv Hrun.
    match goal with H1 : (if _ then _ else _) _ = _ |- _ => destruct (_ && _) in H1; tx_inv H1 end;
    [|done].
    match goal with H1 : put_checkout _ _ _ = _ |- _ => apply modify_Ok in H1 as -> end.
    destruct Hev as (ck & rc & ->). by eexists _, rc.
Qed.

(** The row of a first credit. *)
Definition alipay_payment (env : Env) (order : Order) (trade : VerifiedTrade) (id : string) : Payment :=
  mkPayment id (od_id order) "alipay" (vt_trade trade) (od_amount order) "CNY" "succeeded"
    (Some (env_now env)) (env_now env).

Lemma outside_put_checkout id row d u d' : put_checkout id row d = Ok (u, d') → outside d d'.
Proof. intros ->%modify_Ok. apply outside_checkouts. Qed.

Lemma credit_trade_Ok env provider order checkout trade id d a d' :
  Inv d → credit_trade env provider order checkout trade id d = Ok (a, d') →
  Inv d' ∧ posts (account_id (od_project_id order)) (od_amount order * MICROS_PER_MINOR_UNIT) d d' ∧
  payments d !! id = None ∧
  payments d' = <[id := alipay_payment env order trade id]> (payments d) ∧
  orders d' = <[od_id order := paid_order env order]> (orders d) ∧ refunds d' = refunds d.
Proof.
  intros HI Hrun. unfold credit_trade in Hrun. tx_inv Hrun.
  match goal with H1 : lock_account _ _ = _ |- _ => apply lock_account_Ok in H1 as [-> Hac] end.
  match goal with H1 : insert_payment _ _ _ = _ |- _ =>
    apply insert_payment_Ok in H1 as [Hnew ->] end.
  match goal with H1 : checked_mul _ _ = Some _ |- _ => apply checked_mul_Some in H1 as [-> _] end.
  match goal with H1 : mark_paid _ _ _ = _ |- _ => apply modify_Ok in H1 as -> end.
  match goal with H1 : put_checkout _ _ _ = _ |- _ => apply modify_Ok in H1 as -> end.
  match goal with H1 : insert_balanced_entries _ _ _ _ _ _ _ _ _ _ _ = Ok (_, ?x) |- _ =>
    rename x into dp, H1 into Hpost end.
  pose proof (insert_balanced_entries_frame _ _ _ _ _ _ _ _ _ _ _ _ _ Hpost) as (Eo & Ep & Ef & _).
  eapply (post_commits _ (od_project_id order)) in Hpost as [HI' Hp];
    [|exact HI|exact Hac|apply outside_payments|done
     |etransitivity; [apply outside_orders|apply outside_checkouts]].
  split; [exact HI'|]. split; [exact Hp|]. split; [done|]. simpl. by rewrite Ep, Eo, Ef.
Qed.

(** What a refund hold commits. *)
Lemma hold_refund_Ok env r payment order d a d' :
  Inv d → hold_refund env r payment order d = Ok (a, d') →
  Inv d' ∧
  posts (account_id (od_project_id order))
    (- (money_amount (crf_amount r) * MICROS_PER_MINOR_UNIT)) d d' ∧
  money_amount (crf_amount r) * MICROS_PER_MINOR_UNIT
    ≤ available (account_id (od_project_id order)) d ∧
  refunded (py_id payment) ["pending"; "succeeded"] d + money_amount (crf_amount r)
    ≤ py_amount payment ∧
  refunds d !! crf_id r = None ∧
  refunds d' = <[crf_id r := mkRefund (crf_id r) (py_id payment) (money_amount (crf_amount r))
    "CNY" (crf_reason r) "pending" None (env_now env) None]> (refunds d) ∧
  payments d' = payments d ∧ orders d' = orders d.
Proof.
  intros HI Hrun. unfold hold_refund, balance_and_held in Hrun. tx_inv Hrun.
  match goal with H1 : lock_account _ _ = _ |- _ => apply lock_account_Ok in H1 as [-> Hac] end.
  destruct (co_account _ (inv_config _ _ HI) _ _ Hac) as (_ & Hid & _).
  match goal with H1 : match checked_add _ _ with _ => _ end = false |- _ =>
    destruct (checked_add _ _) eqn:Eadd in H1; [|done];
    apply checked_add_Some in Eadd as [-> _]; apply Z.ltb_ge in H1; rename H1 into Hcap end.
  match goal with H1 : checked_mul _ _ = Some _ |- _ => apply checked_mul_Some in H1 as [-> _] end.
  match goal with H1 : match checked_sub _ _ with _ => _ end = false |- _ =>
    destruct (checked_sub _ _) eqn:Esub in H1; [|done];
    apply checked_sub_Some in Esub as [-> _]; apply Z.ltb_ge in H1; rename H1 into Hav end.
  match goal with H1 : insert_refund _ _ ?x = _ |- _ =>
    rename x into d1; apply insert_refund_Ok in H1 as [Hnew ->] end.
  match goal with H1 : account _ ?a1 _ = Ok (?x, d1) |- _ =>
    rename x into row;
    eapply (account_Ok _ (settled_at_rest a1 "" 0)) in H1 as (HI1 & Ho1 & _ & Hb & Hh);
      [|by apply Inv_focus|done] end.
  apply Inv_focus in HI1. simpl in Hb, Hh, Hav.
  destruct (projection_bookkeeping_same _ _ Ho1) as (Ea & Er & Ef & Ep & Eo & Eu).
  match goal with H1 : insert_balanced_entries _ _ _ _ _ _ _ _ _ _ _ = _ |- _ =>
    rename H1 into Hpost end.
  pose proof (insert_balanced_entries_frame _ _ _ _ _ _ _ _ _ _ _ _ _ Hpost) as (Eo' & Ep' & Ef' & _).
  eapply (post_commits _ (od_project_id order)) in Hpost as [HI' Hp];
    [|exact HI1|by rewrite Ea|apply outside_refunds|done|reflexivity].
  split; [done|]. split; [by eapply posts_after_projection|].
  split; [unfold available; rewrite <- Hid; lia|]. split; [done|].
  simpl in Hnew. rewrite Ef in Hnew. split; [done|]. simpl in Ef'. rewrite Ef', Ef.
  split; [done|]. simpl in Ep', Eo'. split; congruence.
Qed.

(** The row of a completed refund. *)
Definition refunded_row (env : Env) (row : Refund) (trade : string) : Refund :=
  mkRefund (rf_id row) (rf_payment_id row) (rf_amount row) (rf_currency row) (rf_reason row)
    "succeeded" (Some trade) (rf_created_at row) (Some (env_now env)).

Lemma clear_refund_shape env ac order row d tid d' :
  clear_refund env ac order row d = Ok (tid, d') →
  ∃ t c k, d' = set_ledger_entries (ledger_entries d ++ [c; k])
                  (set_ledger_transactions (ledger_transactions d ++ [t]) d) ∧
    lt_id t = tid ∧ (tid ∉ (lt_id <$> ledger_transactions d)) ∧
    (lt_idempotency_key t ∉ (lt_idempotency_key <$> ledger_transactions d)) ∧
    c = mkLedgerEntry ("entry-" +:+ env_uuid env 1) tid (ac_id ac) "refund_pending"
          (- (rf_amount row * MICROS_PER_MINOR_UNIT)) (rf_currency row) (env_now env) ∧
    k = mkLedgerEntry ("entry-" +:+ env_uuid env 2) tid (ac_id ac) "cash_clearing"
          (rf_amount row * MICROS_PER_MINOR_UNIT) (rf_currency row) (env_now env).
Proof.
  intros Hrun. unfold clear_refund in Hrun. tx_inv Hrun.
  match goal with H1 : insert_ledger_transaction _ _ _ = _ |- _ =>
    apply insert_ledger_transaction_Ok in H1 as (-> & Hid & Hkey) end.
  repeat match goal with H1 : insert_ledger_entry _ _ = _ |- _ =>
    apply insert_ledger_entry_Ok in H1 as -> end.
  match goal with H1 : checked_mul _ _ = Some _ |- _ => apply checked_mul_Some in H1 as [-> _] end.
  eexists _, _, _. split; [by simpl; rewrite <- app_assoc|]. done.
Qed.

Lemma clear_refund_Ok env ac order row d tid d' :
  Inv d → clear_refund env ac order row d = Ok (tid, d') →
  Inv d' ∧ validate_event d' (mkEventRow (ac_id ac) 0 "ledger.posted" tid JNull 0) = Ok tt ∧
  (∀ a, booked a d' = booked a d) ∧
  ∃ t e, d' = set_ledger_entries e (set_ledger_transactions t d).
Proof.
  intros HI (t & c & k & Hd' & Hid & Hnew & Hkey & Hc & Hk)%clear_refund_shape.
  apply (Inv_focus (ac_id ac) "" 0) in HI. set (p := settled_at_rest (ac_id ac) "" 0) in *.
  assert (Hmoved : zsum (customer_amount (pd_account p)) [c; k] = 0).
  { subst c k. simpl. unfold customer_amount. simpl. rewrite str_eqb_refl. done. }
  destruct (ledger_pair_Ok p t c k d d' HI Hd') as (HI' & Hv & Hb);
    try (subst c k; simpl; congruence || lia); [by right|].
  rewrite Hmoved in *. rewrite <- Hid.
  split; [by apply Inv_focus in HI'|]. split; [exact Hv|]. split; [|by eexists _, _].
  intros a. rewrite Hb. case_decide; lia.
Qed.

Section complete.
Variable json_bytes : Json → string.

(** What a completed refund commits: a clearing between two platform
    accounts, no change of any customer balance. *)
Lemma settle_refund_Ok env provider order row proof d a d' :
  Inv d → settle_refund json_bytes env provider order row proof d = Ok (a, d') →
  Inv d' ∧ posts "" 0 d d' ∧
  refunds d' = <[rf_id row := refunded_row env row (vr_trade proof)]> (refunds d) ∧
  payments d' = payments d ∧ orders d' = orders d.
Proof.
  intros HI Hrun. unfold settle_refund in Hrun. tx_inv Hrun.
  match goal with H1 : lock_account _ _ = _ |- _ => apply lock_account_Ok in H1 as [-> Hac] end.
  match goal with H1 : insert_receipt _ _ _ = _ |- _ =>
    unfold insert_receipt, put_receipt in H1; tx_inv H1 end.
  match goal with H1 : clear_refund _ _ _ _ _ = _ |- _ =>
    apply clear_refund_Ok in H1 as (HI1 & Hv & Hb & t & e & Hd1);
      [|eapply Inv_outside; [exact HI|apply outside_receipts]] end.
  match goal with H1 : append_event _ _ _ _ _ _ = _ |- _ =>
    eapply append_event_Ok in H1 as (HI2 & ev & j & ->); [|exact HI1|exact Hv] end.
  match goal with H1 : mark_refunded _ _ _ _ = _ |- _ => apply modify_Ok in H1 as -> end.
  split; [eapply Inv_outside; [exact HI2|apply outside_refunds]|].
  match type of HI1 with Inv ?x => rename x into dc end.
  assert (Hbook : ∀ b, booked b dc = booked b d) by (intros b; rewrite Hb; done).
  clear Hb. subst dc. split; [|done]. split; [done| |by left|lia].
  intros b. transitivity (booked b d); [exact (Hbook b)|]. case_decide; lia.
Qed.

(** A completion is a replay, or clears the pending refund it is about. *)
Lemma complete_refund_Ok env provider proof d a d' :
  complete_alipay_refund json_bytes env provider proof d = Ok (a, d') →
  ∃ row payment order checkout,
    refunds d !! vr_request proof = Some row ∧ payments d !! rf_payment_id row = Some payment ∧
    orders d !! py_order_id payment = Some order ∧
    checkouts d !! od_id order = Some checkout ∧
    ck_environment checkout = "production"%string ∧ ck_profile checkout = pv_profile provider ∧
    rf_amount row = vr_amount proof ∧ py_provider_reference payment = vr_trade proof ∧
    od_id order = vr_order proof ∧ py_provider payment = "alipay"%string ∧
    ((rf_status row = "succeeded"%string ∧ d' = d) ∨
     (rf_status row = "pending"%string ∧
      settle_refund json_bytes env provider order row proof d = Ok (a, d'))).
Proof.
  intros Hrun. unfold complete_alipay_refund in Hrun. pay_inv Hrun.
  match goal with H1 : _ || _ = false |- _ =>
    rewrite !orb_false_iff, !negb_false_iff, !str_eqb_eq, Z.eqb_eq in H1;
    destruct H1 as [[[[[[P1 P2] P3] P4] P5] P6] P7] end.
  do 4 eexists. repeat (split; [done|]).
  destruct (str_eqb (rf_status _) "succeeded") eqn:Hs; tx_inv Hrun.
  - left. split; [by apply str_eqb_eq|done].
  - right. match goal with H1 : negb _ = false |- _ => apply negb_false_iff, str_eqb_eq in H1 end.
    done.
Qed.

Lemma prepare_refund_Ok env r provider d a d' :
  prepare_alipay_refund env r provider d = Ok (a, d') →
  ∃ payment order, payments d !! crf_payment_id r = Some payment ∧
    orders d !! py_order_id payment = Some order ∧ py_provider payment = "alipay"%string ∧
    1 ≤ money_amount (crf_amount r) ≤ AMOUNT_MAX ∧
    (d' = d ∨ hold_refund env r payment order d = Ok (a, d')).
Proof.
  intros Hrun. unfold prepare_alipay_refund in Hrun. pay_inv Hrun.
  match goal with H1 : negb (str_eqb (py_provider _) _) || _ || _ || _ || _ || _ = false |- _ =>
    rewrite !orb_false_iff, !negb_false_iff, !str_eqb_eq in H1;
    destruct H1 as [[[[[P1 P2] P3] P4] P5] P6] end.
  match goal with H1 : format_amount _ = Ok _ |- _ =>
    apply require_bind_Ok in H1 as [Hb%amount_in_bounds_spec _] end.
  do 2 eexists. do 4 (split; [done|]).
  destruct (refunds d !! crf_id r); tx_inv Hrun; [by left|by right].
Qed.
End complete.
End correctness.
