(* ===== verification/Trial.v ===== *)
(** * Trial: the trial balance of the wallet

    The platform accounts of a project agree with its business records at all
    times: the customer balance is what was topped up minus refunds and
    usage, the revenue account is the usage, the clearing account is the cash
    and the pending account is the refunds the provider has not confirmed.
    [Wallet_ok] is the invariant; [view] is all it reads. *)

From S2P Require Import Prelude Domain Models Store Books Catalog Projection Ledger Reservations.
From S2P Require Import Review Wallet Maintenance Lifecycle Payments Alipay.
Local Open Scope Z_scope.

(** ** Totals *)

Definition entry_amount (name a : string) (e : LedgerEntry) : Z :=
  if str_eqb (le_billing_account_id e) a && str_eqb (le_ledger_account e) name
  then le_amount_microunits e else 0.

(** The balance of a platform account in the books of a billing account. *)
Definition account_total (name a : string) (d : Db) : Z :=
  zsum (entry_amount name a) (ledger_entries d).

Definition payment_project (os : gmap string Order) (p : Payment) : option string :=
  od_project_id <$> os !! py_order_id p.
Definition refund_project (os : gmap string Order) (ps : gmap string Payment) (r : Refund)
    : option string := ps !! rf_payment_id r ≫= payment_project os.

Definition topped_up_by (os : gmap string Order) (project : string) (p : Payment) : Z :=
  if bool_decide (payment_project os p = Some project)
  then py_amount p * MICROS_PER_MINOR_UNIT else 0.
Definition refunded_to (os : gmap string Order) (ps : gmap string Payment) (project : string)
    (states : list string) (r : Refund) : Z :=
  if bool_decide (refund_project os ps r = Some project) && str_in (rf_status r) states
  then rf_amount r * MICROS_PER_MINOR_UNIT else 0.
Definition usage_of (project : string) (u : UsageRow) : Z :=
  if str_eqb (us_project_id u) project then us_cost_microunits u else 0.

Definition topped_up (project : string) (d : Db) : Z :=
  msum (topped_up_by (orders d) project) (payments d).
Definition refunds_of (project : string) (states : list string) (d : Db) : Z :=
  msum (refunded_to (orders d) (payments d) project states) (refunds d).
Definition consumed (project : string) (d : Db) : Z := zsum (usage_of project) (usage_events d).

(** The four platform accounts of a project against its records. *)
Record trial_balance (project : string) (d : Db) : Prop := {
  tb_customer : account_total "customer_balance" (account_id project) d =
    topped_up project d - refunds_of project ["pending"; "succeeded"] d - consumed project d;
  tb_revenue : account_total "usage_revenue" (account_id project) d = consumed project d;
  tb_clearing : account_total "cash_clearing" (account_id project) d =
    refunds_of project ["succeeded"] d - topped_up project d;
  tb_pending : account_total "refund_pending" (account_id project) d =
    refunds_of project ["pending"] d }.

Record Wallet_ok (d : Db) : Prop := {
  wk_order id o : orders d !! id = Some o → od_id o = id ∧ 0 < od_amount o;
  wk_payment id p : payments d !! id = Some p → py_id p = id ∧
    py_amount p * MICROS_PER_MINOR_UNIT ≤ i64_max ∧
    ∃ o, orders d !! py_order_id p = Some o ∧ od_status o = "paid"%string ∧
         od_amount o = py_amount p;
  wk_unique i j p q : payments d !! i = Some p → payments d !! j = Some q →
    py_order_id p = py_order_id q → i = j;
  wk_refund id r : refunds d !! id = Some r → rf_id r = id ∧ 0 < rf_amount r ∧
    (rf_status r = "succeeded"%string ∨ rf_status r = "pending"%string) ∧
    ∃ p, payments d !! rf_payment_id r = Some p ∧
         (rf_status r = "pending"%string → py_provider p = "alipay"%string);
  wk_cap id p : payments d !! id = Some p →
    refunded id ["pending"; "succeeded"] d ≤ py_amount p;
  wk_trial project : trial_balance project d }.

(** All the invariant reads. *)
Definition view (d : Db) := (orders d, payments d, refunds d, usage_events d, ledger_entries d).

Lemma Wallet_same d d' : Wallet_ok d → view d' = view d → Wallet_ok d'.
Proof.
  intros [W1 W2 W3 W4 W5 W6] [= E1 E2 E3 E4 E5]. split.
  - by rewrite E1.
  - by rewrite E1, E2.
  - by rewrite E2.
  - by rewrite E2, E3.
  - unfold refunded. by rewrite E2, E3.
  - intros project. destruct (W6 project).
    split; unfold account_total, topped_up, refunds_of, consumed; by rewrite ?E1, ?E2, ?E3, ?E4, ?E5.
Qed.

Lemma Wallet_respects {A} (m : Tx A) d a d' :
  preserves view m → Wallet_ok d → m d = Ok (a, d') → Wallet_ok d'.
Proof. intros Hm HW Hrun. eapply Wallet_same; [done|]. by eapply Hm. Qed.

(** ** Postings *)

(** Two entries of one account that move [delta] between two ledgers. *)
Record entry_pair (a to from : string) (delta : Z) (l : list LedgerEntry) : Prop := {
  ep_rows : ∃ c k, l = [c; k] ∧
    le_billing_account_id c = a ∧ le_ledger_account c = to ∧ le_amount_microunits c = delta ∧
    le_billing_account_id k = a ∧ le_ledger_account k = from ∧ le_amount_microunits k = - delta }.

Lemma entry_pair_total a to from delta l name b :
  entry_pair a to from delta l → zsum (entry_amount name b) l =
    (if str_eqb a b then
       (if str_eqb to name then delta else 0) - (if str_eqb from name then delta else 0)
     else 0).
Proof.
  intros [(c & k & -> & C1 & C2 & C3 & K1 & K2 & K3)]. simpl. unfold entry_amount.
  rewrite C1, C2, C3, K1, K2, K3. destruct (str_eqb a b), (str_eqb to name), (str_eqb from name);
    simpl; lia.
Qed.

Lemma post_pair env ac tenant kind rt ri idem desc delta counter d u d' :
  insert_balanced_entries env ac tenant kind rt ri idem desc delta counter d = Ok (u, d') →
  ∃ l, entry_pair (ac_id ac) "customer_balance" counter delta l ∧
    view d' = (orders d, payments d, refunds d, usage_events d, ledger_entries d ++ l).
Proof.
  intros Hrun. unfold insert_balanced_entries in Hrun. tx_inv Hrun.
  match goal with H : lock_account _ _ = _ |- _ => apply lock_account_Ok in H as [-> _] end.
  match goal with H : check_debit _ _ _ _ = _ |- _ =>
    assert (Hc : preserves view (check_debit env a0 delta)) by frame;
    apply Hc in H; rename H into E1 end.
  match goal with H : change_balance _ _ _ _ = _ |- _ =>
    assert (Hb : preserves view (change_balance env (ac_id ac) delta)) by frame;
    apply Hb in H; rename H into E2 end.
  match goal with H : append_event _ _ _ _ ?p _ = _ |- _ =>
    assert (He : ∀ t, preserves view (append_event env (ac_id ac) "ledger.posted" t p))
      by (intros t; frame); apply He in H; rename H into E3 end.
  match goal with H : post_entries _ _ _ _ _ _ _ _ _ _ _ = _ |- _ =>
    apply post_entries_shape in H as (t & c & k & -> & _ & _ & _ & _ & -> & ->) end.
  unfold same, view in *. simpl in E3. injection E1 as A1 A2 A3 A4 A5. injection E2 as B1 B2 B3 B4 B5.
  rewrite A1, A2, A3, A4, A5 in *. rewrite B1, B2, B3, B4, B5 in *.
  eexists. split; [|exact E3]. split. by eexists _, _.
Qed.

(** Comparisons of literal names. *)
Ltac compute_names := repeat match goal with
  | |- context [str_eqb (String ?a ?b) (String ?c ?d)] =>
      let x := constr:(str_eqb (String a b) (String c d)) in
      let v := eval vm_compute in x in change x with v
  end; cbv iota.

(** A charge of usage: the usage row, and the posting when it costs. *)
Record charged (project : string) (cost : Z) (d d' : Db) : Prop := {
  ch_view : ∃ u l, view d' = (orders d, payments d, refunds d, usage_events d ++ [u],
      ledger_entries d ++ l) ∧
    us_project_id u = project ∧ us_cost_microunits u = cost ∧
    (cost ≤ 0 ∧ l = [] ∨ entry_pair (account_id project) "customer_balance" "usage_revenue" (- cost) l) }.

Lemma total_app name a d l es :
  ledger_entries l = ledger_entries d ++ es →
  account_total name a l = account_total name a d + zsum (entry_amount name a) es.
Proof. unfold account_total. intros ->. apply zsum_app. Qed.

Lemma account_id_eqb p q : str_eqb (account_id p) (account_id q) = str_eqb p q.
Proof.
  destruct (str_eqb p q) eqn:E.
  - apply str_eqb_eq in E as ->. apply str_eqb_refl.
  - apply str_eqb_neq. intros Hp%account_id_inj. apply str_eqb_neq in E. done.
Qed.

Lemma charged_ok project cost d d' :
  Wallet_ok d → 0 ≤ cost → charged project cost d d' → Wallet_ok d'.
Proof.
  intros [W1 W2 W3 W4 W5 W6] Hpos [(u & l & [= E1 E2 E3 E4 E5] & Hu & Hc & Hl)]. split.
  - by rewrite E1.
  - by rewrite E1, E2.
  - by rewrite E2.
  - by rewrite E2, E3.
  - unfold refunded. by rewrite E2, E3.
  - intros q. destruct (W6 q) as [T1 T2 T3 T4].
    assert (consumed q d' = consumed q d + (if str_eqb project q then cost else 0)) as Hcons.
    { unfold consumed. rewrite E4, zsum_app. simpl. unfold usage_of at 2. rewrite Hu, Hc. lia. }
    assert (Hz : ∀ name, zsum (entry_amount name (account_id q)) l =
      if str_eqb project q then
        (if str_eqb "customer_balance" name then - cost else 0)
        - (if str_eqb "usage_revenue" name then - cost else 0)
      else 0).
    { intros name. destruct Hl as [[Hz ->]|Hp].
      - simpl. repeat case_match; lia.
      - rewrite (entry_pair_total _ _ _ _ _ _ _ Hp), account_id_eqb. done. }
    assert (topped_up q d' = topped_up q d) as Ht by (unfold topped_up; by rewrite E1, E2).
    assert (∀ s, refunds_of q s d' = refunds_of q s d) as Hr
      by (intros s; unfold refunds_of; by rewrite E1, E2, E3).
    split; rewrite (total_app _ _ _ _ _ E5), Hz, ?Hcons, ?Ht, ?Hr;
      compute_names; destruct (str_eqb project q); lia.
Qed.

(** ** Orders, payments and refunds *)

Definition projects_kept (os os' : gmap string Order) : Prop :=
  ∀ id, od_project_id <$> os' !! id = od_project_id <$> os !! id.

Lemma projects_kept_payment os os' p :
  projects_kept os os' → payment_project os' p = payment_project os p.
Proof. intros Hk. apply Hk. Qed.

Lemma projects_kept_refund os os' ps r :
  projects_kept os os' → refund_project os' ps r = refund_project os ps r.
Proof.
  intros Hk. unfold refund_project. destruct (ps !! rf_payment_id r) as [p|]; simpl; [|done].
  by apply projects_kept_payment.
Qed.

Lemma projects_kept_update id o o' os :
  os !! id = Some o → od_project_id o' = od_project_id o → projects_kept os (<[id := o']> os).
Proof.
  intros Ho Hp i. destruct (decide (i = id)) as [->|Hne].
  - rewrite lookup_insert_eq, Ho. simpl. by rewrite Hp.
  - by rewrite lookup_insert_ne.
Qed.

(** A new order has no payments. *)
Lemma order_ok id o d d' :
  Wallet_ok d → orders d !! id = None → od_id o = id → 0 < od_amount o →
  view d' = (<[id := o]> (orders d), payments d, refunds d, usage_events d, ledger_entries d) →
  Wallet_ok d'.
Proof.
  intros [W1 W2 W3 W4 W5 W6] Hnew Hid Hpos [= E1 E2 E3 E4 E5].
  assert (Hpp : ∀ k p, payments d !! k = Some p →
    payment_project (<[id := o]> (orders d)) p = payment_project (orders d) p).
  { intros k p Hp. destruct (W2 _ _ Hp) as (_ & _ & o' & Ho' & _).
    unfold payment_project. rewrite lookup_insert_ne; [done|]. congruence. }
  split.
  - rewrite E1. intros i o' [[<- <-]|[_ Ho']]%lookup_insert_Some; [done|by apply W1].
  - rewrite E1, E2. intros k p Hp. destruct (W2 _ _ Hp) as (? & ? & o' & Ho' & ?).
    split; [done|]. split; [done|]. exists o'. rewrite lookup_insert_ne; [done|congruence].
  - by rewrite E2.
  - by rewrite E2, E3.
  - unfold refunded. by rewrite E2, E3.
  - intros q. destruct (W6 q) as [T1 T2 T3 T4].
    assert (topped_up q d' = topped_up q d) as Ht.
    { unfold topped_up. rewrite E1, E2. apply msum_ext. intros k p Hp.
      unfold topped_up_by. by rewrite (Hpp k p Hp). }
    assert (∀ s, refunds_of q s d' = refunds_of q s d) as Hr.
    { intros s. unfold refunds_of. rewrite E1, E2, E3. apply msum_ext. intros k r Hr.
      destruct (W4 _ _ Hr) as (_ & _ & _ & p & Hp & _).
      unfold refunded_to, refund_project. rewrite Hp. simpl. by rewrite (Hpp _ _ Hp). }
    assert (consumed q d' = consumed q d) as Hc by (unfold consumed; by rewrite E4).
    split; rewrite ?Hc, ?Ht, ?Hr; unfold account_total; by rewrite E5.
Qed.

(** A first payment of an order. *)
Record credited (o o' : Order) (p : Payment) (d d' : Db) : Prop := {
  cd_order : orders d !! od_id o = Some o;
  cd_unpaid : od_status o ≠ "paid"%string;
  cd_paid : od_id o' = od_id o ∧ od_project_id o' = od_project_id o ∧
    od_amount o' = od_amount o ∧ od_status o' = "paid"%string;
  cd_new : payments d !! py_id p = None;
  cd_payment : py_order_id p = od_id o ∧ py_amount p = od_amount o ∧
    py_amount p * MICROS_PER_MINOR_UNIT ≤ i64_max;
  cd_view : ∃ l, view d' = (<[od_id o := o']> (orders d), <[py_id p := p]> (payments d),
      refunds d, usage_events d, ledger_entries d ++ l) ∧
    entry_pair (account_id (od_project_id o)) "customer_balance" "cash_clearing"
      (od_amount o * MICROS_PER_MINOR_UNIT) l }.

Lemma refunded_new_payment id d : Wallet_ok d → payments d !! id = None →
  refunded id ["pending"; "succeeded"] d = 0.
Proof.
  intros HW Hnew. unfold refunded. transitivity (msum (λ _ : Refund, 0) (refunds d)).
  - apply msum_ext. intros k r Hr. destruct (wk_refund _ HW _ _ Hr) as (_ & _ & _ & p & Hp & _).
    unfold refund_amount. destruct (str_eqb _ id) eqn:E; [|done].
    apply str_eqb_eq in E. congruence.
  - apply zsum_zero.
Qed.

Lemma credited_ok o o' p d d' : Wallet_ok d → credited o o' p d d' → Wallet_ok d'.
Proof.
  intros HW [C1 C2 (D1 & D2 & D3 & D4) C4 (P1 & P2 & P3) (l & [= E1 E2 E3 E4 E5] & Hl)].
  pose proof (refunded_new_payment _ _ HW C4) as Hzero.
  destruct HW as [W1 W2 W3 W4 W5 W6].
  destruct (W1 _ _ C1) as [_ Hpos].
  assert (Hkept : projects_kept (orders d) (<[od_id o := o']> (orders d)))
    by (by eapply projects_kept_update).
  assert (Hproj : payment_project (orders d) p = Some (od_project_id o)).
  { unfold payment_project. by rewrite P1, C1. }
  assert (Hfree : ∀ k q, payments d !! k = Some q → py_order_id q ≠ od_id o).
  { intros k q Hq Heq. destruct (W2 _ _ Hq) as (_ & _ & o2 & Ho2 & Hs & _). congruence. }
  split.
  - rewrite E1. intros i x [[<- <-]|[_ Hx]]%lookup_insert_Some; [|by apply W1].
    split; [done|lia].
  - rewrite E1, E2. intros i x [[<- <-]|[_ Hx]]%lookup_insert_Some.
    + split; [done|]. split; [done|]. exists o'. rewrite P1, lookup_insert_eq.
      split; [done|]. split; [done|]. congruence.
    + destruct (W2 _ _ Hx) as (? & ? & o2 & Ho2 & ?). split; [done|]. split; [done|].
      exists o2. rewrite lookup_insert_ne; [done|]. intros Heq. by apply (Hfree _ _ Hx).
  - rewrite E2. intros i j x y.
    intros [[<- <-]|[Hi Hx]]%lookup_insert_Some [[<- <-]|[Hj Hy]]%lookup_insert_Some Heq;
      [done| | |by eapply W3].
    + exfalso. apply (Hfree _ _ Hy). congruence.
    + exfalso. apply (Hfree _ _ Hx). congruence.
  - rewrite E2, E3. intros i r Hr. destruct (W4 _ _ Hr) as (? & ? & ? & x & Hx & ?).
    split; [done|]. split; [done|]. split; [done|]. exists x.
    rewrite lookup_insert_ne; [done|]. congruence.
  - rewrite E2. intros i x. unfold refunded. rewrite E3.
    change (msum _ (refunds d)) with (refunded i ["pending"; "succeeded"] d).
    intros [[<- <-]|[_ Hx]]%lookup_insert_Some; [|by apply W5]. lia.
  - intros q. destruct (W6 q) as [T1 T2 T3 T4].
    set (amount := od_amount o * MICROS_PER_MINOR_UNIT) in *.
    assert (topped_up q d' = topped_up q d + (if str_eqb (od_project_id o) q then amount else 0)) as Ht.
    { unfold topped_up. rewrite E1, E2, msum_insert_new by done.
      rewrite (msum_ext _ (topped_up_by (orders d) q)).
      2:{ intros k x _. unfold topped_up_by. by rewrite (projects_kept_payment _ _ _ Hkept). }
      f_equal. unfold topped_up_by. rewrite (projects_kept_payment _ _ _ Hkept), Hproj, P2.
      unfold str_eqb. repeat case_bool_decide; done || congruence. }
    assert (∀ s, refunds_of q s d' = refunds_of q s d) as Hr.
    { intros s. unfold refunds_of. rewrite E1, E2, E3. apply msum_ext. intros k r Hr.
      destruct (W4 _ _ Hr) as (_ & _ & _ & x & Hx & _). unfold refunded_to.
      rewrite (projects_kept_refund _ _ _ _ Hkept). unfold refund_project.
      rewrite lookup_insert_ne by congruence. done. }
    assert (consumed q d' = consumed q d) as Hc by (unfold consumed; by rewrite E4).
    split; rewrite (total_app _ _ _ _ _ E5), (entry_pair_total _ _ _ _ _ _ _ Hl), account_id_eqb,
      ?Hc, ?Ht, ?Hr; compute_names; destruct (str_eqb (od_project_id o) q); lia.
Qed.

(** A refund: the row and the debit of the customer. *)
Record debited (r : Refund) (p : Payment) (o : Order) (d d' : Db) : Prop := {
  db_new : refunds d !! rf_id r = None;
  db_amount : 0 < rf_amount r;
  db_payment : payments d !! rf_payment_id r = Some p;
  db_order : orders d !! py_order_id p = Some o;
  db_cap : refunded (rf_payment_id r) ["pending"; "succeeded"] d + rf_amount r ≤ py_amount p;
  db_view : ∃ counter l, view d' = (orders d, payments d, <[rf_id r := r]> (refunds d),
      usage_events d, ledger_entries d ++ l) ∧
    entry_pair (account_id (od_project_id o)) "customer_balance" counter
      (- (rf_amount r * MICROS_PER_MINOR_UNIT)) l ∧
    (rf_status r = "succeeded"%string ∧ counter = "cash_clearing"%string ∨
     rf_status r = "pending"%string ∧ counter = "refund_pending"%string ∧
     py_provider p = "alipay"%string) }.

Lemma debited_ok r p o d d' : Wallet_ok d → debited r p o d d' → Wallet_ok d'.
Proof.
  intros [W1 W2 W3 W4 W5 W6] [B1 B2 B3 B4 B5 (counter & l & [= E1 E2 E3 E4 E5] & Hl & Hs)].
  assert (Hproj : refund_project (orders d) (payments d) r = Some (od_project_id o)).
  { unfold refund_project, payment_project. by rewrite B3; simpl; rewrite B4. }
  split.
  - by rewrite E1.
  - by rewrite E1, E2.
  - by rewrite E2.
  - rewrite E2, E3. intros i x [[<- <-]|[_ Hx]]%lookup_insert_Some; [|by apply W4].
    split; [done|]. split; [done|]. split; [tauto|]. exists p. split; [done|].
    intros Hp. destruct Hs as [[Hs _]|(_ & _ & Hs)]; [congruence|done].
  - rewrite E2. intros i x Hx. unfold refunded. rewrite E3, msum_insert_new by done.
    fold (refunded i ["pending"; "succeeded"] d). unfold refund_amount at 1.
    specialize (W5 _ _ Hx). destruct (str_eqb (rf_payment_id r) i) eqn:Ei; simpl; [|lia].
    apply str_eqb_eq in Ei. subst i. rewrite B3 in Hx. injection Hx as <-.
    case_match; lia.
  - intros q. destruct (W6 q) as [T1 T2 T3 T4].
    set (amount := rf_amount r * MICROS_PER_MINOR_UNIT) in *.
    assert (topped_up q d' = topped_up q d) as Ht by (unfold topped_up; by rewrite E1, E2).
    assert (∀ s, refunds_of q s d' = refunds_of q s d +
      (if str_eqb (od_project_id o) q then (if str_in (rf_status r) s then amount else 0) else 0)) as Hr.
    { intros s. unfold refunds_of. rewrite E1, E2, E3, msum_insert_new by done. f_equal.
      unfold refunded_to. rewrite Hproj. unfold str_eqb.
      repeat case_bool_decide; simplify_eq; simpl; done || congruence. }
    assert (consumed q d' = consumed q d) as Hc by (unfold consumed; by rewrite E4).
    split; rewrite (total_app _ _ _ _ _ E5), (entry_pair_total _ _ _ _ _ _ _ Hl), account_id_eqb,
      ?Hc, ?Ht, ?Hr; destruct Hs as [[Hst ->]|(Hst & -> & _)]; rewrite ?Hst; unfold str_in; simpl existsb;
      compute_names; destruct (str_eqb (od_project_id o) q); simpl; lia.
Qed.

(** The provider confirmed a pending refund. *)
Record cleared (r r' : Refund) (p : Payment) (o : Order) (d d' : Db) : Prop := {
  cl_old : refunds d !! rf_id r = Some r;
  cl_pending : rf_status r = "pending"%string;
  cl_new : rf_id r' = rf_id r ∧ rf_payment_id r' = rf_payment_id r ∧
    rf_amount r' = rf_amount r ∧ rf_status r' = "succeeded"%string;
  cl_payment : payments d !! rf_payment_id r = Some p;
  cl_order : orders d !! py_order_id p = Some o;
  cl_view : ∃ l, view d' = (orders d, payments d, <[rf_id r := r']> (refunds d),
      usage_events d, ledger_entries d ++ l) ∧
    entry_pair (account_id (od_project_id o)) "refund_pending" "cash_clearing"
      (- (rf_amount r * MICROS_PER_MINOR_UNIT)) l }.

Lemma cleared_ok r r' p o d d' : Wallet_ok d → cleared r r' p o d d' → Wallet_ok d'.
Proof.
  intros [W1 W2 W3 W4 W5 W6]
    [B1 B2 (N1 & N2 & N3 & N4) B3 B4 (l & [= E1 E2 E3 E4 E5] & Hl)].
  assert (Hproj : refund_project (orders d) (payments d) r = Some (od_project_id o)).
  { unfold refund_project, payment_project. by rewrite B3; simpl; rewrite B4. }
  assert (Hproj' : refund_project (orders d) (payments d) r' = Some (od_project_id o)).
  { unfold refund_project. by rewrite N2. }
  split.
  - by rewrite E1.
  - by rewrite E1, E2.
  - by rewrite E2.
  - rewrite E2, E3. intros i x [[<- <-]|[_ Hx]]%lookup_insert_Some; [|by apply W4].
    destruct (W4 _ _ B1) as (_ & Hpos & _ & x & Hx & _).
    split; [done|]. split; [lia|]. split; [by left|]. exists x. rewrite N2. split; [done|]. congruence.
  - rewrite E2. intros i x Hx. unfold refunded. rewrite E3, (msum_insert_old _ _ _ _ r) by done.
    fold (refunded i ["pending"; "succeeded"] d). unfold refund_amount.
    rewrite N2, N3, N4, B2. specialize (W5 _ _ Hx).
    destruct (str_eqb (rf_payment_id r) i); simpl; lia.
  - intros q. destruct (W6 q) as [T1 T2 T3 T4].
    set (amount := rf_amount r * MICROS_PER_MINOR_UNIT) in *.
    assert (topped_up q d' = topped_up q d) as Ht by (unfold topped_up; by rewrite E1, E2).
    assert (∀ s, refunds_of q s d' = refunds_of q s d +
      (if str_eqb (od_project_id o) q then
         (if str_in "succeeded" s then amount else 0) - (if str_in "pending" s then amount else 0)
       else 0)) as Hr.
    { intros s. unfold refunds_of. rewrite E1, E2, E3, (msum_insert_old _ _ _ _ r) by done.
      unfold refunded_to. rewrite Hproj, Hproj', N3, N4, B2. fold amount. unfold str_eqb.
      repeat case_bool_decide; simplify_eq; simpl; try congruence; try lia. }
    assert (consumed q d' = consumed q d) as Hc by (unfold consumed; by rewrite E4).
    split; rewrite (total_app _ _ _ _ _ E5), (entry_pair_total _ _ _ _ _ _ _ Hl), account_id_eqb,
      ?Hc, ?Ht, ?Hr; unfold str_in; simpl existsb;
      compute_names; destruct (str_eqb (od_project_id o) q); simpl; lia.
Qed.

(** ** The operations *)

(** [view_step H]: the step [H] left the view alone. *)
Ltac view_step H :=
  match type of H with
  | ?m ?d = Ok (_, ?d') =>
      let Hp := fresh in
      assert (Hp : preserves view m) by frame; apply Hp in H; clear Hp; unfold same in H
  end.

(** Read a view through the steps that left it alone. *)
Ltac view_through := repeat match goal with
  | H : view ?d' = view _ |- _ => injection H as ?E ?E ?E ?E ?E;
      repeat match goal with E : _ d' = _ |- _ => rewrite E in *; clear E end
  end.

Lemma insert_usage_view u d v d' : insert_usage u d = Ok (v, d') →
  view d' = (orders d, payments d, refunds d, usage_events d ++ [u], ledger_entries d).
Proof. intros [-> _]%insert_usage_shape. done. Qed.

(** A payment of another provider has no pending refunds. *)
Lemma refunded_succeeded id p d :
  Wallet_ok d → payments d !! id = Some p → py_provider p ≠ "alipay"%string →
  refunded id ["succeeded"] d = refunded id ["pending"; "succeeded"] d.
Proof.
  intros HW Hp Hprov. unfold refunded. apply msum_ext. intros k r Hr.
  destruct (wk_refund _ HW _ _ Hr) as (_ & _ & Hst & q & Hq & Hpend).
  unfold refund_amount. destruct (str_eqb _ id) eqn:E; [|done]. apply str_eqb_eq in E.
  destruct Hst as [->|Hst]; [done|]. exfalso. apply Hprov. rewrite <- (Hpend Hst). congruence.
Qed.

Lemma refunded_nonneg id states d : Wallet_ok d → 0 ≤ refunded id states d.
Proof.
  intros HW. apply msum_nonneg. intros k r Hr. destruct (wk_refund _ HW _ _ Hr) as (_ & Hpos & _).
  unfold refund_amount. case_match; lia.
Qed.

(** The saturating sum of a manual refund is exact below the payment. *)
Lemma refund_cap_exact s amount cap :
  saturating_add_i64 (wrap_i64 s) amount ≤ cap → 0 ≤ s → s ≤ cap → 0 < amount →
  cap * MICROS_PER_MINOR_UNIT ≤ i64_max → s + amount ≤ cap.
Proof.
  unfold saturating_add_i64, i64_max, MICROS_PER_MINOR_UNIT. intros Hsat Hs Hcap Hpos Hmax.
  rewrite wrap_i64_id in Hsat by (unfold i64_min, i64_max; lia). unfold i64_min in Hsat. lia.
Qed.

Section operations.
Context `{Calendar}.

Lemma settle_usage_view env ac row request amount d u d' :
  settle_usage env ac row request amount d = Ok (u, d') →
  view d' = (orders d, payments d, refunds d,
             usage_events d ++ [settlement_usage env ac row request amount], ledger_entries d).
Proof.
  intros Hrun. unfold settle_usage in Hrun. tx_inv Hrun.
  view_step Htx. view_step Htx0. apply insert_usage_view in Htx1. view_step Hrun.
  rewrite Hrun, Htx1. view_through. done.
Qed.

Lemma pair_or_nothing env ac tenant usage idem amount d u d' :
  0 ≤ amount →
  (if 0 <? amount then
     insert_balanced_entries env ac tenant "usage" "usage_event" usage idem
       "Reserved model inference usage" (- amount) "usage_revenue"
   else mret tt) d = Ok (u, d') →
  ∃ l, view d' = (orders d, payments d, refunds d, usage_events d, ledger_entries d ++ l) ∧
    (amount ≤ 0 ∧ l = [] ∨
     entry_pair (ac_id ac) "customer_balance" "usage_revenue" (- amount) l).
Proof.
  intros Hpos Hrun. destruct (Z.ltb_spec 0 amount).
  - apply post_pair in Hrun as (l & Hl & Hv). exists l. auto.
  - tx_inv Hrun. exists []. rewrite app_nil_r. auto.
Qed.

Lemma settle_write_charged env ac row request amount d row' d' :
  ac_id ac = account_id (rv_project_id row) → 0 ≤ amount →
  settle_write env ac row request amount d = Ok (row', d') →
  charged (rv_project_id row) amount d d'.
Proof.
  intros Hac Hpos Hrun. unfold settle_write in Hrun. tx_inv Hrun.
  apply settle_usage_view in Htx. view_step Htx0.
  apply pair_or_nothing in Htx1 as (l & Hv & Hl); [|done]. view_step Htx2.
  rewrite Hv in Htx2. split.
  exists (settlement_usage env ac row request amount), l. rewrite Hac in Hl.
  split; [|done]. rewrite Htx2. view_through. injection Htx as -> -> -> -> ->. done.
Qed.

Lemma record_new_usage_charged env ac e cost d u d' :
  ac_id ac = account_id (ue_project_id e) → 0 ≤ cost →
  record_new_usage env ac e cost d = Ok (u, d') → charged (ue_project_id e) cost d d'.
Proof.
  intros Hac Hpos Hrun. unfold record_new_usage in Hrun. tx_inv Hrun.
  view_step Htx. apply insert_usage_view in Htx0. view_step Htx1.
  assert (∃ l, view d' = (orders d2, payments d2, refunds d2, usage_events d2, ledger_entries d2 ++ l) ∧
    (cost ≤ 0 ∧ l = [] ∨
     entry_pair (ac_id ac) "customer_balance" "usage_revenue" (- cost) l)) as (l & Hv & Hl).
  { destruct (Z.ltb_spec 0 cost).
    - apply post_pair in Hrun as (l & Hl & Hv). exists l. auto.
    - tx_inv Hrun. exists []. rewrite app_nil_r. auto. }
  split. exists (usage_row env e cost), l. rewrite Hac in Hl.
  split; [|done]. rewrite Hv. view_through. injection Htx0 as -> -> -> -> ->. done.
Qed.

Lemma settle_locked_wallet env ac project id row request d row' d' :
  Inv d → Wallet_ok d → accounts d !! project = Some ac → reservations d !! id = Some row →
  rv_project_id row = project →
  settle_locked env ac row request d = Ok (row', d') → Wallet_ok d'.
Proof.
  intros HI HW Hac Hr Hp Hrun. unfold settle_locked in Hrun. tx_inv Hrun.
  match goal with H : negb (settle_request_ok _) = false |- _ =>
    apply negb_false_iff, settle_request_ok_nonneg in H as [Hi Ho] end.
  destruct (rv_state row) eqn:Hs; tx_inv Hrun; [|done].
  match goal with H : usage_cost_microunits _ _ _ = Ok ?x |- _ =>
    rename x into amount, H into Hcost end.
  destruct (locked_row _ _ _ _ _ _ HI Hac Hr eq_refl) as (Ha & Hid & Haid).
  destruct (co_account _ (inv_config _ _ HI) _ _ Hac) as (Hpr & _).
  destruct (inv_reservations _ _ HI _ _ Hr) as [_ _ _ R4 _ _].
  eapply charged_ok, settle_write_charged; [exact HW| | |  |exact Hrun].
  - by eapply usage_cost_nonneg.
  - congruence.
  - by eapply usage_cost_nonneg.
Qed.

Lemma settle_money_wallet env project id request d row d' :
  Inv d → Wallet_ok d → settle_money env project id request d = Ok (row, d') → Wallet_ok d'.
Proof.
  intros HI HW Hrun. unfold settle_money in Hrun. tx_inv Hrun.
  apply lock_account_Ok in Htx as [-> Hac]. apply find_reservation_Ok in Htx0 as (-> & Hr & Hp).
  by eapply settle_locked_wallet.
Qed.

Lemma decide_wallet env project id actor subject request d a d' :
  Inv d → Wallet_ok d →
  decide_billing_review env project id actor subject request d = Ok (a, d') → Wallet_ok d'.
Proof.
  intros HI HW Hrun. unfold decide_billing_review in Hrun. tx_inv Hrun.
  apply lock_account_Ok in Htx as [-> Hac].
  match goal with H : _ ≫= _ = Some _ |- _ => apply filter_row_Some in H as [Hw <-] end.
  case_match; tx_inv Hrun; try done.
  assert (Wallet_ok d0) as HW0.
  { destruct (str_eqb _ "approve"); [|by tx_inv Htx].
    unfold approve_review in Htx. tx_inv Htx.
    match goal with H : find_reservation _ _ _ = _ |- _ =>
      apply find_reservation_Ok in H as (-> & Hr & Hp) end.
    destruct (rw_evidence _) as [ev|wr]; tx_inv Htx.
    - by eapply settle_locked_wallet.
    - repeat match goal with H : _ _ = Ok _ |- _ => view_step H end.
      eapply Wallet_same; [exact HW|]. congruence. }
  repeat match goal with H : _ d0 = Ok _ |- _ => view_step H | H : _ = Ok _ |- _ => view_step H end.
  eapply Wallet_same; [exact HW0|]. congruence.
Qed.

Lemma record_usage_wallet env e d b d' :
  Inv d → Wallet_ok d → record_usage env e d = Ok (b, d') → Wallet_ok d'.
Proof.
  intros HI HW Hrun. apply record_usage_Ok in Hrun as (_ & d1 & ac & [acs ->] & Hac & _ & Hb); [|done].
  assert (Wallet_ok (set_accounts acs d)) as HW1 by (by eapply Wallet_same).
  destruct b; [|by destruct Hb as [_ ->]].
  destruct Hb as (cost & u & Hpos & HI1 & _ & _ & Hrun).
  destruct (co_account _ (inv_config _ _ HI1) _ _ Hac) as (_ & Hid & _).
  eapply charged_ok; [exact HW1|exact Hpos|]. by eapply record_new_usage_charged.
Qed.

Lemma create_order_wallet env r d o d' :
  Wallet_ok d → create_order env r d = Ok (o, d') → Wallet_ok d'.
Proof.
  intros HW (Hnew & Hpos & -> & ->)%create_order_Ok. eapply (order_ok (cor_id r) _ d); [done|done| | |reflexivity]; done.
Qed.

Lemma capture_wallet env order_id r idem d p d' :
  Inv d → Wallet_ok d → capture_payment env order_id r idem d = Ok (p, d') → Wallet_ok d'.
Proof.
  intros HI HW Hrun. unfold capture_payment, lock_order in Hrun. tx_inv Hrun.
  destruct (payments d !! cap_id r) eqn:Hnew; tx_inv Hrun; [done|].
  match goal with H : orders _ !! _ = Some ?x |- _ => rename x into order, H into Horder end.
  match goal with H : negb (str_eqb _ _) = false |- _ =>
    apply negb_false_iff, str_eqb_eq in H; rename H into Hst end.
  match goal with H : ensure_account_for_project _ _ _ = Ok (?x, _) |- _ =>
    rename x into ac; eapply ensure_account_Ok in H as (HI1 & Hac & [acs ->] & _); [|done] end.
  destruct (co_account _ (inv_config _ _ HI1) _ _ Hac) as (_ & Hid & _).
  match goal with H : insert_payment _ _ _ = _ |- _ => apply insert_payment_Ok in H as [Hfresh ->] end.
  match goal with H : mark_paid _ _ _ = _ |- _ => apply modify_Ok in H as -> end.
  match goal with H : checked_mul _ _ = Some _ |- _ => apply checked_mul_Some in H as [-> Hmul] end.
  match goal with H : insert_balanced_entries _ _ _ _ _ _ _ _ _ _ _ = _ |- _ =>
    apply post_pair in H as (l & Hl & Hv) end.
  rewrite Hid in Hl. destruct (wk_order _ HW _ _ Horder) as [Hoid _]. simpl in Hv.
  eapply (credited_ok order (paid_order env order)); [exact HW|]. split; simpl; try done.
  - by rewrite Hoid.
  - congruence.
  - split; [done|split; [done|apply Hmul]].
  - by exists l.
Qed.

Lemma create_refund_wallet env r idem d x d' :
  Inv d → Wallet_ok d → create_refund env r idem d = Ok (x, d') → Wallet_ok d'.
Proof.
  intros HI HW Hrun. unfold create_refund, lock_order, lock_payment in Hrun. tx_inv Hrun.
  match goal with H : (_ <=? 0) || _ = false |- _ =>
    apply orb_false_iff in H as [Hpos%Z.leb_gt _] end.
  destruct (refunds d !! crf_id r) as [existing|] eqn:Hex; tx_inv Hrun; [done|].
  match goal with H : payments _ !! _ = Some ?o |- _ => rename o into payment, H into Hpay end.
  match goal with H : orders _ !! _ = Some ?o |- _ => rename o into order, H into Horder end.
  match goal with H : str_eqb (py_provider _) _ = false |- _ =>
    apply str_eqb_neq in H; rename H into Hprov end.
  match goal with H : (py_amount _ <? _) = false |- _ =>
    apply Z.ltb_ge in H; rename H into Hcum end.
  match goal with H : ensure_account_for_project _ _ _ = Ok (?x, _) |- _ =>
    rename x into ac; eapply ensure_account_Ok in H as (HI1 & Hac & [acs ->] & _); [|done] end.
  destruct (co_account _ (inv_config _ _ HI1) _ _ Hac) as (_ & Hid & _).
  match goal with H : insert_refund _ _ _ = _ |- _ => apply insert_refund_Ok in H as [Hfresh ->] end.
  match goal with H : checked_mul _ _ = Some _ |- _ => apply checked_mul_Some in H as [-> _] end.
  match goal with H : insert_balanced_entries _ _ _ _ _ _ _ _ _ _ _ = _ |- _ =>
    apply post_pair in H as (l & Hl & Hv) end.
  rewrite Hid in Hl. simpl in Hv, Hl.
  destruct (wk_payment _ HW _ _ Hpay) as (Hpid & Hmax & _). rewrite Hpid in *.
  assert (Hsum : refunded (crf_payment_id r) ["pending"; "succeeded"] d + money_amount (crf_amount r)
                 ≤ py_amount payment).
  { pose proof (wk_cap _ HW _ _ Hpay) as Hcap.
    rewrite <- (refunded_succeeded _ _ _ HW Hpay Hprov) in *.
    eapply refund_cap_exact; [exact Hcum|by apply refunded_nonneg|exact Hcap|exact Hpos|exact Hmax]. }
  eapply debited_ok; [exact HW|]. split; simpl; [done|done|exact Hpay|exact Horder| |].
  - exact Hsum.
  - exists "cash_clearing"%string, l. split; [exact Hv|]. split; [exact Hl|by left].
Qed.

Section alipay.
Context `{ProviderLibraries}.

Lemma credit_trade_wallet env provider order checkout trade id d a d' :
  Inv d → Wallet_ok d → orders d !! od_id order = Some order →
  od_status order = "pending"%string →
  credit_trade env provider order checkout trade id d = Ok (a, d') → Wallet_ok d'.
Proof.
  intros HI HW Horder Hst Hrun. unfold credit_trade in Hrun. tx_inv Hrun.
  match goal with H1 : lock_account _ _ = Ok (?x, _) |- _ =>
    rename x into ac; apply lock_account_Ok in H1 as [-> Hac] end.
  destruct (co_account _ (inv_config _ _ HI) _ _ Hac) as (_ & Hid & _).
  match goal with H1 : insert_payment _ _ _ = _ |- _ => apply insert_payment_Ok in H1 as [Hnew ->] end.
  match goal with H1 : checked_mul _ _ = Some _ |- _ => apply checked_mul_Some in H1 as [-> Hmul] end.
  match goal with H1 : mark_paid _ _ _ = _ |- _ => apply modify_Ok in H1 as -> end.
  match goal with H1 : put_checkout _ _ _ = _ |- _ => apply modify_Ok in H1 as -> end.
  match goal with H1 : insert_balanced_entries _ _ _ _ _ _ _ _ _ _ _ = Ok (_, ?x) |- _ =>
    rename x into dp; apply post_pair in H1 as (l & Hl & Hv) end.
  rewrite Hid in Hl. simpl in Hv. injection Hv as E1 E2 E3 E4 E5.
  eapply (credited_ok order (paid_order env order)); [exact HW|]. split; simpl; try done.
  - congruence.
  - split; [done|split; [done|apply Hmul]].
  - exists l. split; [|exact Hl]. unfold view. simpl. by rewrite E1, E2, E3, E4, E5.
Qed.

Lemma accept_wallet env provider trade d a d' :
  Inv d → Wallet_ok d → accept_alipay_trade env provider trade d = Ok (a, d') → Wallet_ok d'.
Proof.
  intros HI HW [Hev|(order & checkout & dm & Hev & Ho & Hst & _ & _ & _ & _ & _ & _ & _ & Hrun)]%accept_trade_Ok.
  - destruct Hev as (ck & rc & ->). by eapply Wallet_same.
  - pose proof (Inv_outside _ _ _ HI (evidence_outside _ _ Hev)) as HIm.
    destruct Hev as (ck & rc & ->). destruct (wk_order _ HW _ _ Ho) as [Hid _].
    eapply credit_trade_wallet; [exact HIm| | |exact Hst|exact Hrun].
    + by eapply Wallet_same.
    + simpl. by rewrite Hid.
Qed.

Lemma prepare_wallet env r provider d a d' :
  Inv d → Wallet_ok d → prepare_alipay_refund env r provider d = Ok (a, d') → Wallet_ok d'.
Proof.
  intros HI HW (payment & order & Hpay & Horder & Hprov & Hamount & [->|Hrun])%prepare_refund_Ok;
    [done|].
  pose proof (hold_refund_Ok _ _ _ _ _ _ _ HI Hrun) as (_ & _ & _ & Hcap & Hnew & _).
  destruct (wk_payment _ HW _ _ Hpay) as (Hpid & _). rewrite Hpid in Hcap.
  unfold hold_refund, balance_and_held in Hrun. tx_inv Hrun.
  match goal with H1 : lock_account _ _ = Ok (?x, _) |- _ =>
    rename x into ac; apply lock_account_Ok in H1 as [-> Hac] end.
  destruct (co_account _ (inv_config _ _ HI) _ _ Hac) as (_ & Hid & _).
  match goal with H1 : insert_refund _ _ _ = _ |- _ => apply insert_refund_Ok in H1 as [_ ->] end.
  match goal with H1 : checked_mul _ _ = Some _ |- _ => apply checked_mul_Some in H1 as [-> _] end.
  match goal with H1 : account _ _ _ = _ |- _ => view_step H1; injection H1 as A1 A2 A3 A4 A5 end.
  match goal with H1 : insert_balanced_entries _ _ _ _ _ _ _ _ _ _ _ = Ok (_, ?x) |- _ =>
    apply post_pair in H1 as (l & Hl & Hv) end.
  rewrite Hid in Hl. simpl in Hv. rewrite A1, A2, A3, A4, A5 in Hv.
  eapply (debited_ok (mkRefund (crf_id r) (py_id payment) (money_amount (crf_amount r)) "CNY"
    (crf_reason r) "pending" None (env_now env) None) payment order d); [exact HW|].
  split; simpl; [exact Hnew|lia| | |by rewrite Hpid|].
  - by rewrite Hpid.
  - exact Horder.
  - exists "refund_pending"%string, l. split; [exact Hv|]. split; [exact Hl|by right].
Qed.

Variable json_bytes : Json → string.

Lemma complete_wallet env provider proof d a d' :
  Inv d → Wallet_ok d →
  complete_alipay_refund json_bytes env provider proof d = Ok (a, d') → Wallet_ok d'.
Proof.
  intros HI HW (row & payment & order & checkout & Hrow & Hpay & Horder & _ & _ & _ & _ & _ & _ & _ &
    [[_ ->]|[Hst Hrun]])%complete_refund_Ok; [done|].
  destruct (wk_refund _ HW _ _ Hrow) as (Hid & Hpos & _ & _).
  unfold settle_refund in Hrun. tx_inv Hrun.
  match goal with H1 : lock_account _ _ = Ok (?x, _) |- _ =>
    rename x into ac; apply lock_account_Ok in H1 as [-> Hac] end.
  destruct (co_account _ (inv_config _ _ HI) _ _ Hac) as (_ & Haid & _).
  match goal with H1 : insert_receipt _ _ _ = _ |- _ => view_step H1; injection H1 as A1 A2 A3 A4 A5 end.
  match goal with H1 : append_event _ _ _ _ _ _ = _ |- _ => view_step H1; injection H1 as B1 B2 B3 B4 B5 end.
  match goal with H1 : mark_refunded _ _ _ _ = _ |- _ => apply modify_Ok in H1 as -> end.
  match goal with H1 : clear_refund _ _ _ _ _ = _ |- _ =>
    apply clear_refund_shape in H1 as (t & c & k & -> & _ & _ & _ & -> & ->) end.
  simpl in B1, B2, B3, B4, B5. rewrite A1, A2, A3, A4, A5 in *.
  eapply (cleared_ok row (refunded_row env row (vr_trade proof)) payment order d); [exact HW|].
  split; simpl; [by rewrite Hid|done|done|done|done|].
  eexists. split.
  - unfold view. simpl. by rewrite B1, B2, B3, B4, B5.
  - split. rewrite <- Haid. eexists _, _. split; [reflexivity|]. simpl.
    repeat (split; [done|]). lia.
Qed.
End alipay.
End operations.
