(* ===== verification/Worker.v ===== *)
(** * Worker: leased, exactly-once consumption of the event log

    [crates/control-plane/src/event_worker.rs].  A worker leases the events of
    one account, validates them against their sources and acknowledges them
    in the transaction that records their effects.  A lease is fenced by its
    epoch and token, its expiry and the acknowledged position. *)

From S2P Require Import Prelude Domain Models Store Books Projection Ledger Reservations Wallet.
Local Open Scope Z_scope.

(** ** Operations *)

Definition SECOND : Z := 1000000.

Record ClaimRequest := mkClaim { cl_limit : Z; cl_lease_seconds : Z }.
Record Lease := mkLease {
  ls_account : string;
  ls_epoch : Z;
  ls_token : string;
  ls_expected : Z;
  ls_through : Z }.
#[export] Instance Lease_eq_dec : EqDecision Lease.
Proof. solve_decision. Defined.

Definition backoff (attempt : Z) : Z :=
  Z.min (Z.shiftl 1 (Z.max 1 (Z.min attempt 8))) 300.

Definition next_attempt (j : Job) : Z := Z.min (jb_attempts j + 1) i32_max.

Definition put_job (account : string) (j : Job) : Tx unit :=
  modify (λ d, set_jobs (<[account := j]> (jobs d)) d).

Definition expired (until : option Z) (now : Z) : bool :=
  match until with Some until => until <=? now | None => true end.

Definition lease_mismatch (j : Job) (lease : Lease) (now : Z) : bool :=
  bool_decide (jb_state j ≠ JobRunning)
  || negb (jb_lease_epoch j =? ls_epoch lease)
  || bool_decide (jb_lease_token j ≠ Some (ls_token lease))
  || expired (jb_lease_until j) now
  || negb (jb_acknowledged j =? ls_expected lease)
  || (ls_through lease <=? ls_expected lease)
  || negb (jb_lease_through j =? ls_through lease)
  || (jb_target_sequence j <? ls_through lease).

Definition find_job (account : string) : Tx Job :=
  row ← gets (λ d, jobs d !! account);
  found row NotFound.

Definition locked (env : Env) (lease : Lease) : Tx Job :=
  row ← find_job (ls_account lease);
  fail_if (lease_mismatch row lease (env_now env))
    (Conflict "stale, expired, or mismatched worker lease") ;;
  mret row.

(** The work a claim may take: jobs with a backlog that are due, and leases
    that expired. *)
Definition claimable (now : Z) (j : Job) : bool :=
  (jb_acknowledged j <? jb_target_sequence j) && (jb_available_at j <=? now)
  && (bool_decide (jb_state j = JobPending)
      || bool_decide (jb_state j = JobRunning)
         && match jb_lease_until j with Some until => until <=? now | None => false end).

(** [ORDER BY available_at, billing_account_id LIMIT 1] over the rows that no
    other transaction has locked. *)
Definition job_before (a b : string * Job) : bool :=
  (jb_available_at a.2 <? jb_available_at b.2)
  || ((jb_available_at a.2 =? jb_available_at b.2) && String.leb a.1 b.1).

Definition first_job (l : list (string * Job)) : option (string * Job) :=
  foldr (λ a best, match best with
                   | Some b => Some (if job_before a b then a else b)
                   | None => Some a
                   end) None l.

Definition claim_candidates (now : Z) (skip : string → bool) (d : Db) : list (string * Job) :=
  filter (λ r, negb (skip r.1) && claimable now r.2 = true) (map_to_list (jobs d)).

(** [WHERE account AND from < sequence <= until ORDER BY sequence LIMIT n] *)
Definition event_batch (account : string) (from until limit : Z) (d : Db) : list EventRow :=
  take (Z.to_nat limit)
    (order_by ev_sequence
       (filter (λ e, (from <? ev_sequence e) && (ev_sequence e <=? until) = true)
          (account_events account d))).

(** A lease that ran out counts as a failed attempt. *)
Definition crashed_job (j : Job) (now : Z) : Job :=
  mkJob (jb_acknowledged j) (jb_target_sequence j) (jb_lease_epoch j) (jb_lease_through j)
    None None (now + SECOND * backoff (next_attempt j))
    (if 8 <=? next_attempt j then JobDead else JobPending)
    (next_attempt j) (Some "worker_crashed"%string) now.

Definition leased_job (j : Job) (lease : Lease) (until now : Z) : Job :=
  mkJob (jb_acknowledged j) (jb_target_sequence j) (ls_epoch lease) (ls_through lease)
    (Some (ls_token lease)) (Some until) (jb_available_at j) JobRunning
    (jb_attempts j) (jb_last_error j) now.

Definition claim_event_job (env : Env) (skip : string → bool) (r : ClaimRequest)
    : Tx (option (Lease * list EventRow)) :=
  fail_if (negb ((1 <=? cl_limit r) && (cl_limit r <=? 100)
                 && (1 <=? cl_lease_seconds r) && (cl_lease_seconds r <=? 60)))
    (Invalid "invalid event batch or lease duration") ;;
  let time := env_now env in
  candidate ← gets (λ d, first_job (claim_candidates time skip d));
  match candidate with
  | None => mret None
  | Some (account, row) =>
      match jb_state row with
      | JobRunning => put_job account (crashed_job row time) ;; mret None
      | _ =>
          events ← gets (event_batch account (jb_acknowledged row) (jb_target_sequence row)
                           (cl_limit r));
          final ← found (last events) (Conflict "job high watermark has no committed source events");
          epoch ← found (checked_add (jb_lease_epoch row) 1) (Invalid "lease epoch exhausted");
          let lease := mkLease account epoch (env_uuid env 0) (jb_acknowledged row)
                         (ev_sequence final) in
          put_job account
            (leased_job row lease (time + SECOND * cl_lease_seconds r) time) ;;
          mret (Some (lease, events))
      end
  end.

Definition insert_effect (account : string) (sequence : Z) (e : Effect) : Tx unit :=
  dup ← gets (λ d, is_some (effects d !! (account, sequence)));
  fail_if dup Database ;;
  modify (λ d, set_effects (<[(account, sequence) := e]> (effects d)) d).

Definition completed_job (j : Job) (acknowledged now : Z) : Job :=
  mkJob acknowledged (jb_target_sequence j) (jb_lease_epoch j) (jb_lease_through j) None None now
    (if acknowledged <? jb_target_sequence j then JobPending else JobIdle) 0 None now.

(** The document an event is hashed as. *)
Definition event_json (e : EventRow) : Json :=
  JObj [("billing_account_id", JStr (ev_billing_account_id e)); ("sequence", JNum (ev_sequence e));
        ("kind", JStr (ev_kind e)); ("aggregate_id", JStr (ev_aggregate_id e));
        ("payload", ev_payload e); ("created_at", JNum (ev_created_at e))].

Section complete.
(** SHA-256 over a serialized document, in a library. *)
Variable json_sha256 : Json → string.

Definition event_sha256 (e : EventRow) : string := json_sha256 (event_json e).

Definition event_effect (e : EventRow) (processed : Z) : Effect :=
  mkEffect (ev_kind e) (event_sha256 e) processed.

(** The loop over a batch: [expected] is the last sequence seen; the result
    is that of the batch and the effects not recorded before. *)
Fixpoint check_batch (d : Db) (processed expected : Z) (batch : list EventRow)
    : result ServiceError (Z * list (Z * Effect)) :=
  match batch with
  | [] => Ok (expected, [])
  | e :: batch =>
      expected ← ok_or (checked_add expected 1) (Invalid "event sequence exhausted");
      require (ev_sequence e =? expected) (Conflict "event source has a sequence gap") ;;
      validate_event d e ;;
      match effects d !! (ev_billing_account_id e, ev_sequence e) with
      | Some prior =>
          require (str_eqb (ef_payload_sha256 prior) (event_sha256 e))
            (Conflict "processed event changed") ;;
          check_batch d processed expected batch
      | None =>
          rest ← check_batch d processed expected batch;
          Ok (rest.1, (ev_sequence e, event_effect e processed) :: rest.2)
      end
  end.

Fixpoint insert_effects (account : string) (l : list (Z * Effect)) : Tx unit :=
  match l with
  | [] => mret tt
  | (sequence, e) :: l => insert_effect account sequence e ;; insert_effects account l
  end.

(** [processed] and [finished] are the later readings of the database clock.
    The answer says whether the completion was a duplicate. *)
Definition complete_event_job (env : Env) (processed finished : Z) (lease : Lease)
    : Tx (Z * bool) :=
  row ← find_job (ls_account lease);
  if (ls_through lease <=? jb_acknowledged row) && (ls_expected lease <? ls_through lease) then
    mret (jb_acknowledged row, true)
  else
    row ← locked env lease;
    batch ← gets (event_batch (ls_account lease) (jb_acknowledged row) (ls_through lease) 101);
    fail_if ((length batch =? 0)%nat || (100 <? length batch)%nat)
      (Conflict "invalid worker batch") ;;
    checked ← gets (λ d, check_batch d processed (jb_acknowledged row) batch);
    checked ← lift checked;
    fail_if (negb (checked.1 =? ls_through lease))
      (Conflict "event source did not reach requested boundary") ;;
    insert_effects (ls_account lease) checked.2 ;;
    fail_if (expired (jb_lease_until row) finished) (Conflict "lease expired during processing") ;;
    put_job (ls_account lease) (completed_job row checked.1 finished) ;;
    mret (checked.1, false).
End complete.

Definition failed_job (j : Job) (reason : string) (now : Z) : Job :=
  mkJob (jb_acknowledged j) (jb_target_sequence j) (jb_lease_epoch j) (jb_lease_through j)
    None None (now + SECOND * backoff (next_attempt j))
    (if 8 <=? next_attempt j then JobDead else JobPending)
    (next_attempt j) (Some reason) now.

Definition fail_event_job (env : Env) (lease : Lease) (reason : string) : Tx (JobState * Z * Z) :=
  fail_if (negb (str_in reason ["handler_failed"; "source_invalid"; "dependency_unavailable"]))
    (Invalid "invalid bounded failure code") ;;
  row ← locked env lease;
  let j := failed_job row reason (env_now env) in
  put_job (ls_account lease) j ;;
  mret (jb_state j, backoff (next_attempt row), next_attempt row).

Definition retried_job (j : Job) (now : Z) : Job :=
  mkJob (jb_acknowledged j) (jb_target_sequence j) (jb_lease_epoch j) (jb_lease_through j)
    (jb_lease_token j) (jb_lease_until j) now JobPending 0 (jb_last_error j) now.

Definition retry_event_job (env : Env) (account actor reason : string) : Tx unit :=
  fail_if (is_blank reason || (256 <? str_len reason)) (Invalid "retry requires a bounded reason") ;;
  row ← find_job account;
  fail_if (bool_decide (jb_state row ≠ JobDead))
    (Conflict "only dead jobs may be explicitly retried") ;;
  put_job account (retried_job row (env_now env)) ;;
  insert_operation_audit
    (mkOperationAudit (env_uuid env 0) actor "event_job.retry" account
       (JObj [("consumer", JStr "ledger.audit.v1"); ("reason", JStr reason)]) (env_now env)).

(** ** What other transactions do to the work *)

(** The log and the backlog may grow; positions and leases stay. *)
Definition job_kept (o o' : option Job) : Prop :=
  match o with
  | Some j => ∃ j', o' = Some j' ∧
      jb_acknowledged j' = jb_acknowledged j ∧ jb_lease_epoch j' = jb_lease_epoch j ∧
      jb_lease_through j' = jb_lease_through j ∧ jb_lease_token j' = jb_lease_token j ∧
      jb_lease_until j' = jb_lease_until j ∧
      (jb_state j' = jb_state j ∨ jb_state j = JobIdle ∧ jb_state j' = JobPending)
  | None => match o' with
            | Some j' => jb_acknowledged j' = 0 ∧ jb_lease_epoch j' = 0 ∧ jb_state j' = JobPending
            | None => True
            end
  end.

Record work_grows (d d' : Db) : Prop := {
  wg_effects : effects d' = effects d;
  wg_events a : account_events a d `prefix_of` account_events a d';
  wg_jobs a : job_kept (jobs d !! a) (jobs d' !! a) }.

Lemma job_kept_refl o : job_kept o o.
Proof. destruct o as [j|]; simpl; [|done]. exists j. naive_solver. Qed.

#[export] Instance work_grows_preorder : PreOrder work_grows.
Proof.
  split.
  - intros d. split; [done..|]. intros a. apply job_kept_refl.
  - intros d1 d2 d3 [E1 V1 J1] [E2 V2 J2]. split; [congruence|intros a; etrans; [apply V1|apply V2]|].
    intros a. specialize (J1 a). specialize (J2 a). unfold job_kept in *.
    destruct (jobs d1 !! a) as [j1|].
    + destruct J1 as (j2 & E & A1 & A2 & A3 & A4 & A5 & A6). rewrite E in J2.
      destruct J2 as (j3 & E3 & B1 & B2 & B3 & B4 & B5 & B6). exists j3.
      repeat (split; [congruence|]). destruct A6 as [A6|[A6 A7]], B6 as [B6|[B6 B7]];
        (left; congruence) || (right; split; congruence).
    + destruct (jobs d2 !! a) as [j2|]; [|done].
      destruct J2 as (j3 & -> & B1 & B2 & B3 & B4 & B5 & B6). destruct J1 as (A1 & A2 & A3).
      split; [congruence|]. split; [congruence|]. destruct B6 as [B6|[B6 B7]]; congruence.
Qed.

Definition work_of (d : Db) := (effects d, events d, jobs d).

Lemma work_same d d' : work_of d' = work_of d → work_grows d d'.
Proof.
  intros [= E1 E2 E3]. split; [done| |].
  - intros a. unfold account_events. by rewrite E2.
  - intros a. rewrite E3. apply job_kept_refl.
Qed.

Lemma respects_work {A} (m : Tx A) : preserves work_of m → respects work_grows m.
Proof. intros Hm d a d' Hrun. by eapply work_same, Hm. Qed.

Lemma schedule_work env a n : respects work_grows (schedule env a n).
Proof.
  intros d u d' ->%modify_Ok. split; [done..|]. intros b. simpl.
  destruct (decide (a = b)) as [->|Hne].
  - rewrite lookup_insert_eq. destruct (jobs d !! b) as [j|] eqn:E; simpl; [|done].
    eexists. split; [done|]. simpl. repeat (split; [done|]). destruct (jb_state j); auto.
  - rewrite lookup_insert_ne by done. apply job_kept_refl.
Qed.

Lemma insert_event_work e : respects work_grows (insert_event e).
Proof.
  intros d u d' Hrun. unfold insert_event in Hrun. tx_inv Hrun.
  split; [done| |intros a; apply job_kept_refl].
  intros a. rewrite account_events_app. apply prefix_app_r. done.
Qed.
#[export] Hint Resolve schedule_work insert_event_work : frame.
#[export] Hint Extern 5 (respects work_grows (modify _)) =>
  apply respects_modify; intros; apply work_same; exact eq_refl : frame.

(** ** Batches *)

Lemma seqZ_sorted m n : StronglySorted Z.le (seqZ m n).
Proof.
  destruct (decide (0 ≤ n)) as [Hn|Hn]; [|rewrite seqZ_nil by lia; constructor].
  revert m. pattern n. apply natlike_ind; [constructor| |done].
  intros k Hk IH m. rewrite seqZ_cons by lia. constructor.
  - replace (Z.pred (Z.succ k)) with k by lia. apply IH.
  - apply Forall_forall. intros x Hx%elem_of_seqZ. lia.
Qed.

(** A list of consecutively numbered rows splits at a number. *)
Lemma split_numbered {A} (f : A → Z) l m k :
  f <$> l = seqZ m (Z.of_nat (length l)) → 0 ≤ k ≤ Z.of_nat (length l) →
  f <$> take (Z.to_nat k) l = seqZ m k ∧
  f <$> drop (Z.to_nat k) l = seqZ (m + k) (Z.of_nat (length l) - k).
Proof.
  intros Hl Hk.
  replace (Z.of_nat (length l)) with (k + (Z.of_nat (length l) - k)) in Hl by lia.
  rewrite seqZ_app in Hl by lia. rewrite <- (take_drop (Z.to_nat k) l), fmap_app in Hl.
  apply app_inj_1 in Hl; [|rewrite length_fmap, length_take, length_seqZ; lia].
  by rewrite take_drop in Hl.
Qed.

(** The rows numbered in an interval. *)
Lemma filter_numbered {A} (f : A → Z) l from until :
  f <$> l = seqZ 1 (Z.of_nat (length l)) → 0 ≤ from ≤ until → until ≤ Z.of_nat (length l) →
  filter (λ x, (from <? f x) && (f x <=? until) = true) l =
    take (Z.to_nat (until - from)) (drop (Z.to_nat from) l).
Proof.
  intros Hl Hfu Hn. destruct (split_numbered f l 1 from Hl) as [H1 H2]; [lia|].
  set (l2 := drop (Z.to_nat from) l) in *.
  assert (Z.of_nat (length l2) = Z.of_nat (length l) - from) as Hlen.
  { unfold l2. rewrite length_drop. lia. }
  rewrite <- Hlen in H2. destruct (split_numbered f l2 (1 + from) (until - from) H2) as [H3 H4]; [lia|].
  rewrite <- (take_drop (Z.to_nat from) l) at 1. fold l2. rewrite filter_app.
  rewrite <- (take_drop (Z.to_nat (until - from)) l2) at 1. rewrite filter_app.
  assert (Hin : ∀ k, Forall (λ x, f x ∈ f <$> k) k).
  { intros k. apply Forall_forall. intros x Hx. by apply list_elem_of_fmap_2. }
  rewrite filter_none, filter_all, filter_none, app_nil_r; [done|..].
  - eapply Forall_impl; [apply Hin|]. intros x. simpl. rewrite H4, elem_of_seqZ, andb_false_iff, Z.leb_gt. lia.
  - eapply Forall_impl; [apply Hin|]. intros x. simpl.
    rewrite H3, elem_of_seqZ, andb_true_iff, Z.ltb_lt, Z.leb_le. lia.
  - eapply Forall_impl; [apply Hin|]. intros x. simpl. rewrite H1, elem_of_seqZ, andb_false_iff, Z.ltb_ge. lia.
Qed.

Section batches.
Context `{Calendar}.

Lemma event_batch_Ok p d a from until limit :
  Inv_at p d → 0 ≤ from ≤ until → until ≤ Z.of_nat (length (account_events a d)) → 0 ≤ limit →
  event_batch a from until limit d =
    take (Z.to_nat (Z.min limit (until - from))) (drop (Z.to_nat from) (account_events a d)) ∧
  ev_sequence <$> event_batch a from until limit d =
    seqZ (from + 1) (Z.min limit (until - from)).
Proof.
  intros HI Hfu Hn Hlim. pose proof (eo_sequence _ (inv_events _ _ HI) a) as Hs.
  set (l := account_events a d) in *.
  destruct (split_numbered ev_sequence l 1 from Hs) as [_ H2]; [lia|].
  replace (Z.of_nat (length l) - from) with (Z.of_nat (length (drop (Z.to_nat from) l))) in H2
    by (rewrite length_drop; lia).
  destruct (split_numbered ev_sequence (drop (Z.to_nat from) l) (1 + from) (until - from) H2)
    as [H3 _]; [rewrite length_drop; lia|].
  destruct (split_numbered ev_sequence (drop (Z.to_nat from) l) (1 + from)
    (Z.min limit (until - from)) H2) as [H4 _]; [rewrite length_drop; lia|].
  unfold event_batch. fold l. rewrite filter_numbered by done.
  rewrite order_by_sorted by (rewrite H3; apply seqZ_sorted).
  rewrite take_take. replace (Z.to_nat limit `min` Z.to_nat (until - from))%nat
    with (Z.to_nat (Z.min limit (until - from))) by lia.
  split; [done|]. rewrite H4. f_equal. lia.
Qed.

Lemma batch_events a from until limit d e :
  e ∈ event_batch a from until limit d →
  e ∈ events d ∧ ev_billing_account_id e = a ∧ from < ev_sequence e ≤ until.
Proof.
  intros He%elem_of_take. destruct He as (i & Hi & _). apply list_elem_of_lookup_2 in Hi.
  rewrite order_by_perm, list_elem_of_filter, andb_true_iff, Z.ltb_lt, Z.leb_le in Hi.
  destruct Hi as [Hr Hi]. unfold account_events in Hi. rewrite list_elem_of_filter in Hi.
  naive_solver.
Qed.
End batches.

(** ** Leases and positions *)

Lemma first_job_elem l x : first_job l = Some x → x ∈ l.
Proof.
  revert x. induction l as [|a l IH]; simpl; [done|]. intros x.
  change (foldr _ None l) with (first_job l). destruct (first_job l) as [b|].
  - intros [= <-]. destruct (job_before a b); [by left|right; by apply IH].
  - intros [= <-]. by left.
Qed.

(** What a claim did: nothing, or it counted an expired lease as a failure,
    or it leased the next events of a pending job. *)
Lemma claim_event_job_Ok env skip r d ans d' :
  claim_event_job env skip r d = Ok (ans, d') →
  (ans = None ∧ d' = d) ∨
  ∃ a j, jobs d !! a = Some j ∧ skip a = false ∧
    jb_acknowledged j < jb_target_sequence j ∧ jb_available_at j ≤ env_now env ∧
    ((ans = None ∧ jb_state j = JobRunning ∧
      (∃ until, jb_lease_until j = Some until ∧ until ≤ env_now env) ∧
      d' = set_jobs (<[a := crashed_job j (env_now env)]> (jobs d)) d) ∨
     (jb_state j = JobPending ∧ ∃ lease events final,
      ans = Some (lease, events) ∧ 1 ≤ cl_limit r ≤ 100 ∧
      events = event_batch a (jb_acknowledged j) (jb_target_sequence j) (cl_limit r) d ∧
      last events = Some final ∧
      lease = mkLease a (jb_lease_epoch j + 1) (env_uuid env 0) (jb_acknowledged j)
                (ev_sequence final) ∧
      d' = set_jobs (<[a := leased_job j lease (env_now env + SECOND * cl_lease_seconds r)
                              (env_now env)]> (jobs d)) d)).
Proof.
  intros Hrun. unfold claim_event_job in Hrun. tx_inv Hrun.
  match goal with H : negb _ = false |- _ =>
    rewrite negb_false_iff, !andb_true_iff, !Z.leb_le in H; destruct H as [[[L1 L2] _] _] end.
  destruct (first_job _) as [[acct j]|] eqn:Hf; [|tx_inv Hrun; by left].
  apply first_job_elem, list_elem_of_filter in Hf as [Hc Hj]. simpl in Hc.
  apply elem_of_map_to_list in Hj. rewrite andb_true_iff, negb_true_iff in Hc.
  destruct Hc as [Hskip Hc]. unfold claimable in Hc.
  rewrite !andb_true_iff, orb_true_iff, andb_true_iff, Z.ltb_lt, Z.leb_le, !bool_decide_eq_true in Hc.
  destruct Hc as [[Hback Hav] Hst]. right. exists acct, j. do 4 (split; [done|]).
  destruct Hst as [Hst|[Hst Huntil]]; rewrite Hst in Hrun; tx_inv Hrun.
  - right. split; [done|].
    match goal with H : checked_add _ _ = Some _ |- _ => apply checked_add_Some in H as [-> _] end.
    match goal with H : put_job _ _ _ = _ |- _ => apply modify_Ok in H as -> end.
    eexists _, _, _. do 2 (split; [done|]). do 2 (split; [done|]). done.
  - left. split; [done|]. split; [done|].
    match goal with H : put_job _ _ _ = _ |- _ => apply modify_Ok in H as -> end.
    destruct (jb_lease_until j) as [until|]; [|done]. apply Z.leb_le in Huntil. naive_solver.
Qed.

Lemma lease_mismatch_false j lease now :
  lease_mismatch j lease now = false ↔
  jb_state j = JobRunning ∧ jb_lease_epoch j = ls_epoch lease ∧
  jb_lease_token j = Some (ls_token lease) ∧
  (∃ until, jb_lease_until j = Some until ∧ now < until) ∧
  jb_acknowledged j = ls_expected lease ∧ ls_expected lease < ls_through lease ∧
  jb_lease_through j = ls_through lease ∧ ls_through lease ≤ jb_target_sequence j.
Proof.
  unfold lease_mismatch. rewrite !orb_false_iff, !bool_decide_eq_false, !negb_false_iff,
    !Z.eqb_eq, Z.leb_gt, Z.ltb_ge.
  assert (expired (jb_lease_until j) now = false ↔
          ∃ until, jb_lease_until j = Some until ∧ now < until) as ->.
  { unfold expired. destruct (jb_lease_until j) as [u|]; [rewrite Z.leb_gt|]; naive_solver. }
  split.
  - intros (((((((H1 & H2) & H3) & H4) & H5) & H6) & H7) & H8).
    apply dec_stable in H1, H3. done.
  - intros (H1 & H2 & H3 & H4 & H5 & H6 & H7 & H8). repeat split; try done; by intros Hn; apply Hn.
Qed.

Lemma locked_Ok env lease d j d' :
  locked env lease d = Ok (j, d') ↔
  d' = d ∧ jobs d !! ls_account lease = Some j ∧ lease_mismatch j lease (env_now env) = false.
Proof.
  unfold locked, find_job. split.
  - intros Hrun. by tx_inv Hrun.
  - intros (-> & Hj & Hm). unfold mbind, tx_bind, gets. rewrite Hj. simpl. by rewrite Hm.
Qed.

Section worker.
Context `{Calendar} (json_sha256 : Json → string).

(** The effects recorded for an account are exactly those of its acknowledged
    events, and a lease covers the next events, at most a hundred. *)
Record job_ok (d : Db) (a : string) (j : Job) : Prop := {
  jo_acknowledged s : is_Some (effects d !! (a, s)) ↔ 1 ≤ s ≤ jb_acknowledged j;
  jo_effect s f : effects d !! (a, s) = Some f → ∃ e, e ∈ account_events a d ∧
    ev_sequence e = s ∧ ef_kind f = ev_kind e ∧ ef_payload_sha256 f = event_sha256 json_sha256 e;
  jo_lease : jb_state j = JobRunning →
    is_Some (jb_lease_token j) ∧ is_Some (jb_lease_until j) ∧
    jb_acknowledged j < jb_lease_through j ≤ jb_acknowledged j + 100 ∧
    jb_lease_through j ≤ Z.of_nat (length (account_events a d)) }.

Definition Worker_ok (d : Db) : Prop := ∀ a,
  match jobs d !! a with
  | Some j => job_ok d a j
  | None => ∀ s, effects d !! (a, s) = None
  end.

Lemma prefix_elem (l k : list EventRow) e : l `prefix_of` k → e ∈ l → e ∈ k.
Proof. intros [x ->] He. apply elem_of_app. by left. Qed.

(** Growth of the log by other transactions keeps the worker's records. *)
Lemma work_grows_ok d d' : Worker_ok d → work_grows d d' → Worker_ok d'.
Proof.
  intros HW [E V J] a. specialize (HW a). specialize (J a). specialize (V a).
  destruct (jobs d !! a) as [j|].
  - destruct J as (j' & -> & A1 & A2 & A3 & A4 & A5 & A6). destruct HW as [W1 W2 W3].
    split; rewrite ?E, ?A1; [done| |].
    + intros s f Hf. destruct (W2 s f Hf) as (e & He & Hrest). exists e.
      split; [by eapply prefix_elem|done].
    + intros Hrun. rewrite A3, A4, A5. apply prefix_length in V.
      destruct W3 as (T1 & T2 & T3 & T4); [destruct A6 as [A6|[A6 A7]]; congruence|].
      split; [done|]. split; [done|]. split; [done|]. lia.
  - destruct (jobs d' !! a) as [j'|]; [|by rewrite E]. destruct J as (A1 & A2 & A3).
    split; rewrite ?E, ?A1.
    + intros s. rewrite HW. split; [by intros [? ?]|lia].
    + intros s f. by rewrite HW.
    + congruence.
Qed.

Lemma Inv_put_job p a j j' d :
  Inv_at p d → jobs d !! a = Some j → jb_target_sequence j' = jb_target_sequence j →
  0 ≤ jb_acknowledged j' ≤ jb_target_sequence j →
  Inv_at p (set_jobs (<[a := j']> (jobs d)) d).
Proof.
  intros [Hp Hr Hl He Hc Hw] Hj Ht Ha. split;
    [by destruct Hp; split|intros id r Hi; by destruct (Hr id r Hi); split
    |by destruct Hl; split| |by destruct Hc; split|intros id w Hi; by destruct (Hw id w Hi)].
  destruct He as [Es Ev Ej]. split; [done|done|]. intros b. simpl.
  change (account_events b (set_jobs _ d)) with (account_events b d).
  specialize (Ej b). destruct (decide (a = b)) as [->|Hne].
  - rewrite lookup_insert_eq. rewrite Hj in Ej. lia.
  - by rewrite lookup_insert_ne.
Qed.

(** A job row written without touching its position. *)
Lemma job_put_ok a j j' d :
  Worker_ok d → jobs d !! a = Some j → jb_acknowledged j' = jb_acknowledged j →
  jb_state j' ≠ JobRunning → Worker_ok (set_jobs (<[a := j']> (jobs d)) d).
Proof.
  intros HW Hj Ha Hs b. simpl. destruct (decide (a = b)) as [->|Hne].
  - rewrite lookup_insert_eq. specialize (HW b). rewrite Hj in HW. destruct HW as [W1 W2 W3].
    split; [by rewrite Ha|done|done].
  - rewrite lookup_insert_ne by done. specialize (HW b).
    destruct (jobs d !! b); [by destruct HW; split|done].
Qed.

Lemma job_bounds p d a j : Inv_at p d → jobs d !! a = Some j →
  jb_target_sequence j = Z.of_nat (length (account_events a d)) ∧
  0 ≤ jb_acknowledged j ≤ jb_target_sequence j.
Proof. intros HI Hj. pose proof (eo_job _ (inv_events _ _ HI) a) as He. by rewrite Hj in He. Qed.

Lemma last_numbered l m n final :
  ev_sequence <$> l = seqZ m n → last l = Some final → ev_sequence final = m + n - 1.
Proof.
  intros Hl Hf. apply last_Some in Hf as (k & ->). rewrite fmap_app in Hl. simpl in Hl.
  assert (Hlen := f_equal length Hl). rewrite length_app, length_fmap, length_seqZ in Hlen.
  simpl in Hlen. replace n with ((n - 1) + 1) in Hl by lia.
  rewrite seqZ_app in Hl by lia. apply app_inj_2 in Hl as [_ Hf]; [|done].
  rewrite seqZ_cons, seqZ_nil in Hf by lia. injection Hf as ->. lia.
Qed.

Lemma claim_ok env skip r d ans d' :
  Inv d → Worker_ok d → claim_event_job env skip r d = Ok (ans, d') → Inv d' ∧ Worker_ok d'.
Proof.
  intros HI HW [(_ & ->)|(a & j & Hj & _ & Hback & _ & Hcase)]%claim_event_job_Ok; [done|].
  destruct (job_bounds _ _ _ _ HI Hj) as [Ht Ha].
  destruct Hcase as [(_ & Hst & _ & ->)|(Hst & lease & evs & final & _ & Hlim & Hev & Hlast & -> & ->)].
  - split; [by eapply Inv_put_job|]. apply (job_put_ok _ j); try done.
    unfold crashed_job. simpl. by case_match.
  - split; [by eapply Inv_put_job|].
    edestruct (event_batch_Ok _ d a (jb_acknowledged j) (jb_target_sequence j) (cl_limit r) HI)
      as [_ Hs]; [lia..|]. rewrite <- Hev in Hs. pose proof (last_numbered _ _ _ _ Hs Hlast) as Hf.
    intros b. simpl. destruct (decide (a = b)) as [->|Hne].
    + rewrite lookup_insert_eq. specialize (HW b). rewrite Hj in HW. destruct HW as [W1 W2 W3].
      split; [done|done|]. intros _. simpl. split; [done|]. split; [done|].
      change (account_events b (set_jobs _ d)) with (account_events b d). lia.
    + rewrite lookup_insert_ne by done. specialize (HW b).
      destruct (jobs d !! b); [by destruct HW; split|done].
Qed.

(** ** Completion *)

Definition batch_effects (processed : Z) (batch : list EventRow) : list (Z * Effect) :=
  (λ e, (ev_sequence e, event_effect json_sha256 e processed)) <$> batch.

Definition fresh (d : Db) (e : EventRow) : Prop :=
  effects d !! (ev_billing_account_id e, ev_sequence e) = None.

Lemma check_batch_Ok d processed x batch y l :
  Forall (fresh d) batch → check_batch json_sha256 d processed x batch = Ok (y, l) →
  y = x + Z.of_nat (length batch) ∧ l = batch_effects processed batch.
Proof.
  intros Hf. revert x y l. induction Hf as [|e batch Hfe Hf IH]; simpl; intros x y l Hrun.
  { injection Hrun as <- <-. split; [lia|done]. }
  apply result_bind_Ok in Hrun as (x' & Hx & Hrun). apply ok_or_Ok, checked_add_Some in Hx as [-> _].
  apply require_bind_Ok in Hrun as [_ Hrun]. apply unit_bind_Ok in Hrun as [_ Hrun].
  rewrite Hfe in Hrun. apply result_bind_Ok in Hrun as ([y' l'] & Hrun & Hr).
  injection Hr as <- <-. apply IH in Hrun as [-> ->]. split; [simpl; lia|done].
Qed.

Lemma check_batch_succeeds d processed x batch :
  ev_sequence <$> batch = seqZ (x + 1) (Z.of_nat (length batch)) →
  0 ≤ x → x + Z.of_nat (length batch) ≤ i64_max →
  Forall (λ e, validate_event d e = Ok tt) batch → Forall (fresh d) batch →
  check_batch json_sha256 d processed x batch =
    Ok (x + Z.of_nat (length batch), batch_effects processed batch).
Proof.
  revert x. induction batch as [|e batch IH]; simpl; intros x Hs Hx Hmax Hv Hf.
  { f_equal. f_equal. lia. }
  rewrite Nat2Z.inj_succ, seqZ_cons in Hs by lia. injection Hs as He Hs.
  apply Forall_cons in Hv as [Hve Hv]. apply Forall_cons in Hf as [Hfe Hf].
  rewrite (proj2 (checked_add_Some x 1 (x + 1))) by (unfold i64_min; lia).
  unfold mbind, result_bind, ok_or. rewrite He, (proj2 (Z.eqb_eq _ _)) by lia.
  cbn [require]. rewrite Hve. unfold fresh in Hfe. rewrite He in Hfe. rewrite Hfe.
  rewrite IH; [|etrans; [exact Hs|f_equal; lia]|lia..|done|done].
  cbn [fst snd]. do 2 f_equal. lia.
Qed.

Definition with_effects (a : string) (l : list (Z * Effect)) (m : gmap (string * Z) Effect)
    : gmap (string * Z) Effect := foldl (λ m p, <[(a, p.1) := p.2]> m) m l.

Lemma with_effects_other a l m k : k.1 ≠ a → with_effects a l m !! k = m !! k.
Proof.
  revert m. induction l as [|p l IH]; simpl; intros m Hk; [done|].
  rewrite IH by done. rewrite lookup_insert_ne; [done|]. intros E. apply Hk. by rewrite <- E.
Qed.

Lemma with_effects_lookup a l m s :
  NoDup l.*1 → with_effects a l m !! (a, s) =
    match list_find (λ p, p.1 = s) l with Some (_, p) => Some p.2 | None => m !! (a, s) end.
Proof.
  revert m. induction l as [|p l IH]; simpl; intros m Hd; [done|].
  apply NoDup_cons in Hd as [Hp Hd]. rewrite IH by done. case_decide as Hs.
  - subst s. destruct (list_find _ l) as [[i q]|] eqn:E; simpl.
    + apply list_find_Some in E as (Hq & Heq & _). exfalso. apply Hp.
      apply list_elem_of_lookup_2 in Hq. rewrite <- Heq. by apply (list_elem_of_fmap_2 fst).
    + by rewrite lookup_insert_eq.
  - destruct (list_find _ l) as [[i q]|]; simpl; [done|].
    rewrite lookup_insert_ne; [done|]. congruence.
Qed.

Lemma insert_effects_run a l d :
  NoDup l.*1 → (∀ s, s ∈ l.*1 → effects d !! (a, s) = None) →
  insert_effects a l d = Ok (tt, set_effects (with_effects a l (effects d)) d).
Proof.
  revert d. induction l as [|[s e] l IH]; intros d Hd Hf; [by destruct d|].
  apply NoDup_cons in Hd as [Hs Hd]. simpl. unfold mbind at 1, tx_bind, insert_effect.
  unfold mbind, tx_bind, gets, fail_if, modify. rewrite Hf by (left; done). simpl.
  rewrite IH; [done|done|]. simpl. intros s' Hs'.
  rewrite lookup_insert_ne; [apply Hf; by right|]. intros [= ->]. done.
Qed.

(** The committed effect of a completion that is not a duplicate. *)
Definition completed (a : string) (j : Job) (through processed finished : Z) (d : Db) : Db :=
  set_jobs (<[a := completed_job j through finished]> (jobs d))
    (set_effects (with_effects a
       (batch_effects processed (event_batch a (jb_acknowledged j) through 101 d))
       (effects d)) d).

Lemma held_batch d a j lease now :
  Inv d → Worker_ok d → jobs d !! a = Some j →
  lease_mismatch j lease now = false →
  let batch := event_batch a (jb_acknowledged j) (ls_through lease) 101 d in
  ev_sequence <$> batch =
    seqZ (jb_acknowledged j + 1) (ls_through lease - jb_acknowledged j) ∧
  Z.of_nat (length batch) = ls_through lease - jb_acknowledged j ∧
  1 ≤ ls_through lease - jb_acknowledged j ≤ 100 ∧
  Forall (λ e, validate_event d e = Ok tt) batch ∧ Forall (fresh d) batch.
Proof.
  intros HI HW Hj (Hst & _ & _ & _ & Hack & Hex & Hthr & Htgt)%lease_mismatch_false.
  specialize (HW a). rewrite Hj in HW. destruct HW as [W1 _ W3].
  destruct (W3 Hst) as (_ & _ & Hle & Hlen). destruct (job_bounds _ _ _ _ HI Hj) as [Ht Ha].
  intros batch. edestruct (event_batch_Ok _ d a (jb_acknowledged j) (ls_through lease) 101 HI)
    as [_ Hs]; [lia..|]. fold batch in Hs. rewrite Z.min_r in Hs by lia.
  assert (Hl := f_equal length Hs). rewrite length_fmap, length_seqZ in Hl.
  split; [done|]. split; [lia|]. split; [lia|].
  split; apply Forall_forall; intros e He; destruct (batch_events _ _ _ _ _ _ He) as (Hin & Hb & Hr).
  - by apply (eo_source _ (inv_events _ _ HI)).
  - unfold fresh. rewrite Hb. destruct (effects d !! (a, ev_sequence e)) eqn:E; [|done].
    assert (is_Some (effects d !! (a, ev_sequence e))) as Hsome by (by rewrite E).
    apply W1 in Hsome. lia.
Qed.

Lemma batch_effects_sequences processed batch :
  (batch_effects processed batch).*1 = ev_sequence <$> batch.
Proof. unfold batch_effects. rewrite <- list_fmap_compose. done. Qed.

Lemma find_batch_effect processed batch s i p :
  list_find (λ p, p.1 = s) (batch_effects processed batch) = Some (i, p) →
  ∃ e, e ∈ batch ∧ ev_sequence e = s ∧ p.2 = event_effect json_sha256 e processed.
Proof.
  intros (Hi & Hs & _)%list_find_Some. apply list_elem_of_lookup_2, list_elem_of_fmap in Hi
    as (e & -> & He). by exists e.
Qed.

Lemma completed_ok d a j lease now processed finished :
  Inv d → Worker_ok d → jobs d !! a = Some j →
  lease_mismatch j lease now = false →
  Inv (completed a j (ls_through lease) processed finished d) ∧
  Worker_ok (completed a j (ls_through lease) processed finished d).
Proof.
  intros HI HW Hj Hm.
  destruct (held_batch _ _ _ _ _ HI HW Hj Hm) as (Hs & Hlen & Hle & Hv & Hf).
  apply lease_mismatch_false in Hm as (Hst & _ & _ & _ & Hack & Hex & Hthr & Htgt).
  destruct (job_bounds _ _ _ _ HI Hj) as [Ht Ha].
  set (batch := event_batch _ _ _ _ _) in *. split.
  - apply (Inv_put_job _ _ j _ (set_effects _ d)); [|done|done|simpl; lia].
    eapply Inv_outside; [exact HI|apply outside_effects].
  - assert (Hd : NoDup (batch_effects processed batch).*1).
    { rewrite batch_effects_sequences, Hs. apply NoDup_seqZ. }
    intros b. specialize (HW b). simpl. destruct (decide (a = b)) as [<-|Hne].
    + rewrite lookup_insert_eq. rewrite Hj in HW. destruct HW as [W1 W2 W3]. split.
      * intros s. simpl. fold batch. rewrite with_effects_lookup by done.
        destruct (list_find _ _) as [[i p]|] eqn:E.
        -- apply find_batch_effect in E as (e & He & <- & _).
           assert (ev_sequence e ∈ ev_sequence <$> batch) as Hin by (by apply list_elem_of_fmap_2).
           rewrite Hs, elem_of_seqZ in Hin. split; [lia|by eexists].
        -- rewrite W1. split; [lia|]. intros Hr.
           destruct (decide (s ≤ jb_acknowledged j)); [lia|]. exfalso.
           assert (s ∈ (batch_effects processed batch).*1) as Hin.
           { rewrite batch_effects_sequences, Hs, elem_of_seqZ. lia. }
           apply list_elem_of_fmap in Hin as (p & -> & Hp).
           apply list_find_None in E. rewrite Forall_forall in E. by apply (E p).
      * intros s f. simpl. fold batch. rewrite with_effects_lookup by done.
        destruct (list_find _ _) as [[i p]|] eqn:E; [|apply W2].
        apply find_batch_effect in E as (e & He & <- & Hp). intros [= <-]. exists e.
        destruct (batch_events _ _ _ _ _ _ He) as (Hin & Hb & _).
        split; [|rewrite Hp; done]. apply list_elem_of_filter. done.
      * simpl. by case_match.
    + rewrite lookup_insert_ne by done.
      assert (∀ s, effects (completed a j (ls_through lease) processed finished d) !! (b, s)
                   = effects d !! (b, s)) as Eb.
      { intros s. apply with_effects_other. simpl. congruence. }
      destruct (jobs d !! b) as [jb|].
      * destruct HW as [W1 W2 W3]. split; [intros s; rewrite Eb; apply W1| |done].
        intros s f. rewrite Eb. apply W2.
      * intros s. rewrite Eb. apply HW.
Qed.

Lemma complete_event_job_Ok env processed finished lease d ans d' :
  Inv d → Worker_ok d →
  complete_event_job json_sha256 env processed finished lease d = Ok (ans, d') →
  ∃ j, jobs d !! ls_account lease = Some j ∧
  ((ans = (jb_acknowledged j, true) ∧ d' = d ∧ ls_through lease ≤ jb_acknowledged j) ∨
   (ans = (ls_through lease, false) ∧ lease_mismatch j lease (env_now env) = false ∧
    expired (jb_lease_until j) finished = false ∧
    d' = completed (ls_account lease) j (ls_through lease) processed finished d)).
Proof.
  intros HI HW Hrun. unfold complete_event_job, find_job in Hrun. tx_inv Hrun.
  match goal with H : jobs _ !! _ = Some ?x |- _ => rename x into j, H into Hj end.
  exists j. split; [done|]. destruct (_ && _) eqn:Hdup.
  { tx_inv Hrun. left. apply andb_true_iff in Hdup as [Hle%Z.leb_le _]. done. }
  right. tx_inv Hrun.
  match goal with H : locked _ _ _ = _ |- _ => apply locked_Ok in H as (-> & Hj' & Hm) end.
  simplify_eq.
  destruct (held_batch _ _ _ _ _ HI HW Hj Hm) as (Hs & Hlen & Hle & Hv & Hf).
  match goal with H : check_batch _ _ _ _ _ = Ok ?x |- _ =>
    destruct x as [y l]; apply check_batch_Ok in H as [-> ->]; [|exact Hf] end.
  simpl in *.
  match goal with H : insert_effects _ _ _ = _ |- _ =>
    rewrite insert_effects_run in H; [injection H as _ <-| |] end.
  - match goal with H : put_job _ _ _ = _ |- _ => apply modify_Ok in H as -> end.
    replace (jb_acknowledged j + _) with (ls_through lease) by lia. done.
  - rewrite batch_effects_sequences, Hs. apply NoDup_seqZ.
  - intros s Hin. apply list_elem_of_fmap in Hin as (p & -> & Hp).
    apply list_elem_of_fmap in Hp as (e & -> & He). simpl.
    rewrite Forall_forall in Hf. specialize (Hf _ He). unfold fresh in Hf.
    destruct (batch_events _ _ _ _ _ _ He) as (_ & <- & _). done.
Qed.

Lemma complete_ok env processed finished lease d ans d' :
  Inv d → Worker_ok d →
  complete_event_job json_sha256 env processed finished lease d = Ok (ans, d') →
  Inv d' ∧ Worker_ok d'.
Proof.
  intros HI HW Hrun.
  apply complete_event_job_Ok in Hrun as (j & Hj & [(_ & -> & _)|(_ & Hm & _ & ->)]); [done| |done..].
  by eapply completed_ok.
Qed.

Lemma fail_ok env lease reason d ans d' :
  Inv d → Worker_ok d → fail_event_job env lease reason d = Ok (ans, d') → Inv d' ∧ Worker_ok d'.
Proof.
  intros HI HW Hrun. unfold fail_event_job in Hrun. tx_inv Hrun.
  match goal with H : locked _ _ _ = _ |- _ => apply locked_Ok in H as (-> & Hj & Hm) end.
  match goal with H : put_job _ _ _ = _ |- _ => apply modify_Ok in H as -> end.
  destruct (job_bounds _ _ _ _ HI Hj) as [Ht Ha].
  split; [by eapply Inv_put_job|]. eapply job_put_ok; try done.
  unfold failed_job. simpl. by case_match.
Qed.

Lemma retry_ok env account actor reason d u d' :
  Inv d → Worker_ok d → retry_event_job env account actor reason d = Ok (u, d') →
  Inv d' ∧ Worker_ok d'.
Proof.
  intros HI HW Hrun. unfold retry_event_job, find_job, insert_operation_audit in Hrun. tx_inv Hrun.
  match goal with H : jobs _ !! _ = Some ?x |- _ => rename x into j, H into Hj end.
  match goal with H : put_job _ _ _ = _ |- _ => apply modify_Ok in H as -> end.
  destruct (job_bounds _ _ _ _ HI Hj) as [Ht Ha].
  set (d1 := set_jobs _ d). assert (Inv d1) as HI1 by (by eapply Inv_put_job).
  assert (Worker_ok d1) as HW1 by (by eapply job_put_ok).
  split.
  - eapply Inv_outside; [exact HI1|apply outside_audits].
  - intros b. specialize (HW1 b). destruct (jobs d1 !! b) eqn:E; simpl in *; rewrite E; [|done].
    by destruct HW1; split.
Qed.

(** The worker never sticks.  In every database that satisfies the
    invariants, the holder of an unexpired lease can complete it: each event
    of the batch is there, in sequence, and valid against its source, so the
    completion commits, advances the position to the end of the lease and
    records one effect for every event of the batch. *)
Theorem complete_succeeds env processed finished lease d j :
  Inv d → Worker_ok d → jobs d !! ls_account lease = Some j →
  Z.of_nat (length (account_events (ls_account lease) d)) ≤ i64_max →
  lease_mismatch j lease (env_now env) = false →
  expired (jb_lease_until j) finished = false →
  ∃ d', complete_event_job json_sha256 env processed finished lease d
          = Ok ((ls_through lease, false), d') ∧
    Inv d' ∧ Worker_ok d' ∧
    (∃ j', jobs d' !! ls_account lease = Some j' ∧ jb_acknowledged j' = ls_through lease ∧
           jb_target_sequence j' = jb_target_sequence j) ∧
    (∀ s, is_Some (effects d' !! (ls_account lease, s)) ↔ 1 ≤ s ≤ ls_through lease).
Proof.
  intros HI HW Hj Hmax Hm Hexp. set (a := ls_account lease) in *.
  destruct (held_batch _ _ _ _ _ HI HW Hj Hm) as (Hs & Hlen & Hle & Hv & Hf).
  destruct (completed_ok _ _ _ _ _ processed finished HI HW Hj Hm) as [HI' HW'].
  exists (completed a j (ls_through lease) processed finished d).
  split; [|split; [done|split; [done|split]]].
  - pose proof (proj1 (lease_mismatch_false _ _ _) Hm) as (_ & _ & _ & _ & Hack & Hex & _ & Htgt).
    destruct (job_bounds _ _ _ _ HI Hj) as [Ht Ha].
    unfold complete_event_job, find_job, locked, find_job, put_job.
    unfold mbind, tx_bind, gets, fail_if, found, modify, lift. fold a. rewrite Hj. cbn [mret tx_ret].
    rewrite (proj2 (Z.leb_gt _ _)) by lia. cbn [andb]. rewrite Hj. cbn [mret tx_ret]. rewrite Hm.
    cbn [mret tx_ret].
    set (batch := event_batch a _ _ _ d) in *.
    rewrite (proj2 (Nat.eqb_neq (length batch) 0)) by lia.
    rewrite (proj2 (Nat.ltb_ge 100 (length batch))) by lia. cbn [orb mret tx_ret].
    rewrite check_batch_succeeds; [|rewrite Hs; f_equal; lia|lia..|done|done]. cbn [mret tx_ret fst snd].
    rewrite (proj2 (Z.eqb_eq _ _)) by lia. cbn [negb mret tx_ret].
    rewrite insert_effects_run; [| |].
    + cbn [mret tx_ret]. rewrite Hexp. cbn [mret tx_ret].
      replace (jb_acknowledged j + _) with (ls_through lease) by lia. done.
    + rewrite batch_effects_sequences, Hs. apply NoDup_seqZ.
    + intros s Hin. apply list_elem_of_fmap in Hin as (p & -> & Hp).
      apply list_elem_of_fmap in Hp as (e & -> & He). simpl.
      rewrite Forall_forall in Hf. specialize (Hf _ He). unfold fresh in Hf.
      destruct (batch_events _ _ _ _ _ _ He) as (_ & Hb & _). by rewrite Hb in Hf.
  - eexists. split; [apply lookup_insert_eq|done].
  - intros s. specialize (HW' a). unfold completed in HW' at 1. simpl in HW'.
    rewrite lookup_insert_eq in HW'. apply (jo_acknowledged _ _ _ HW').
Qed.

(** A lease is exclusive.  Whoever holds a lease that does not match the
    current one (an older epoch, another token, an expired or moved one)
    changes nothing: completing it fails or reports a duplicate, and failing
    it fails. *)
Theorem stale_lease_harmless env processed finished lease reason d j :
  Inv d → Worker_ok d → jobs d !! ls_account lease = Some j →
  lease_mismatch j lease (env_now env) = true →
  commit (complete_event_job json_sha256 env processed finished lease) d = d ∧
  commit (fail_event_job env lease reason) d = d.
Proof.
  intros HI HW Hj Hm. unfold commit. split.
  - destruct (complete_event_job _ _ _ _ _ _) as [[ans d']|e] eqn:E; [|done].
    apply complete_event_job_Ok in E as (j' & Hj' & [(_ & -> & _)|(_ & Hm' & _)]); [done| |done..].
    congruence.
  - destruct (fail_event_job _ _ _ _) as [[ans d']|e] eqn:E; [|done].
    unfold fail_event_job in E. tx_inv E.
    match goal with H : locked _ _ _ = _ |- _ => apply locked_Ok in H as (_ & Hj' & Hm') end.
    congruence.
Qed.
End worker.
