(* ===== verification/Feed.v ===== *)
(** * Feed: consumer cursors over the event log

    [crates/control-plane/src/billing_feed.rs].  A consumer polls pages of an
    account's events and acknowledges cumulatively; a page never skips an
    event and an acknowledgement never passes what was delivered. *)

From S2P Require Import Prelude Domain Store Books Reservations Wallet Worker.
Local Open Scope Z_scope.

(** ** Operations *)

Record AckRequest := mkAck { ak_expected_sequence : Z; ak_sequence : Z }.
Record PollRequest := mkPoll { pl_limit : Z; pl_ack : option AckRequest }.
Record Page := mkPage {
  pg_events : list EventRow; pg_acknowledged : Z; pg_delivered : Z; pg_has_more : bool }.

Definition acknowledged (row : Consumer) (ack : option AckRequest) : result ServiceError Z :=
  match ack with
  | None => Ok (cn_acknowledged row)
  | Some ack =>
      require (negb ((ak_sequence ack <? 0) || (ak_expected_sequence ack <? 0)))
        (Invalid "invalid ACK") ;;
      if ak_sequence ack =? cn_acknowledged row then Ok (cn_acknowledged row)
      else
        require (negb (negb (ak_expected_sequence ack =? cn_acknowledged row)
                       || (ak_sequence ack <? cn_acknowledged row)
                       || (cn_delivered row <? ak_sequence ack)))
          (Conflict "stale ACK or acknowledging events that were not delivered") ;;
        Ok (ak_sequence ack)
  end.

Definition find_account_id (project : string) : Tx string :=
  row ← gets (λ d, accounts d !! project);
  row ← found row NotFound;
  mret (ac_id row).

Definition cursor (account name : string) : Tx (option Consumer) :=
  gets (λ d, consumers d !! (account, name)).

Definition Page_changed (p : Page) (row : Consumer) : bool :=
  negb (pg_acknowledged p =? cn_acknowledged row) || negb (pg_delivered p =? cn_delivered row).

(** [WHERE account AND sequence > ack ORDER BY sequence LIMIT limit + 1] *)
Definition next_events (account : string) (ack limit : Z) (d : Db) : list EventRow :=
  take (Z.to_nat (limit + 1))
    (order_by ev_sequence (filter (λ e, (ack <? ev_sequence e) = true) (account_events account d))).

Definition page (account : string) (row : Consumer) (request : PollRequest) : Tx Page :=
  ack ← lift (acknowledged row (pl_ack request));
  events ← gets (next_events account ack (pl_limit request));
  let has_more := pl_limit request <? Z.of_nat (length events) in
  let events := if has_more then take (length events - 1) events else events in
  let delivered := match last events with
                   | Some e => Z.max (cn_delivered row) (ev_sequence e)
                   | None => cn_delivered row
                   end in
  mret (mkPage events ack delivered has_more).

Definition put_consumer (account name : string) (row : Consumer) : Tx unit :=
  modify (λ d, set_consumers (<[(account, name) := row]> (consumers d)) d).

(** The cursor row, registered on the first poll. *)
Definition register (env : Env) (account name : string) : Tx Consumer :=
  row ← cursor account name;
  match row with
  | Some row => mret row
  | None => put_consumer account name (mkConsumer 0 0 (env_now env)) ;;
            row ← cursor account name;
            found row NotFound
  end.

Definition poll_billing_events (env : Env) (project name : string) (request : PollRequest) : Tx Page :=
  fail_if (negb (identifier name) || negb ((1 <=? pl_limit request) && (pl_limit request <=? 100)))
    (Invalid "consumer or batch limit invalid") ;;
  account ← find_account_id project;
  row ← register env account name;
  initial ← page account row request;
  if negb (Page_changed initial row) then mret initial
  else
    row ← cursor account name;
    row ← found row NotFound;
    result ← page account row request;
    (if Page_changed result row
     then put_consumer account name
            (mkConsumer (pg_acknowledged result) (pg_delivered result) (env_now env))
     else mret tt) ;;
    mret result.

Definition ack_billing_events (env : Env) (project name : string) (request : AckRequest)
    : Tx Consumer :=
  fail_if (negb (identifier name)) (Invalid "invalid consumer") ;;
  account ← find_account_id project;
  row ← cursor account name;
  row ← found row NotFound;
  next ← lift (acknowledged row (Some request));
  if next =? cn_acknowledged row then mret row
  else
    row ← cursor account name;
    row ← found row NotFound;
    next ← lift (acknowledged row (Some request));
    if next =? cn_acknowledged row then mret row
    else
      let row := mkConsumer next (cn_delivered row) (env_now env) in
      put_consumer account name row ;;
      mret row.

(** *** Discovery of dispatched reservations *)

Record PendingRequest := mkPendingRequest {
  pn_limit : Z; pn_created_before : option Z; pn_after_created_at : option Z; pn_after_id : option string }.

(** [ORDER BY created_at, id] *)
Definition reservation_before (a b : Reservation) : bool :=
  (rv_created_at a <? rv_created_at b)
  || ((rv_created_at a =? rv_created_at b) && String.leb (rv_id a) (rv_id b)).
Fixpoint insert_reservation_by (a : Reservation) (l : list Reservation) : list Reservation :=
  match l with
  | [] => [a]
  | b :: l => if reservation_before a b then a :: b :: l else b :: insert_reservation_by a l
  end.
Definition order_reservations (l : list Reservation) : list Reservation :=
  foldr insert_reservation_by [] l.

Definition is_pending (account : string) (cutoff : Z) (r : PendingRequest) (row : Reservation) : bool :=
  str_eqb (rv_billing_account_id row) account && bool_decide (rv_state row = Dispatched)
  && (rv_created_at row <=? cutoff)
  && match pn_after_created_at r, pn_after_id r with
     | Some after, Some id =>
         (after <? rv_created_at row)
         || ((rv_created_at row =? after) && String.ltb id (rv_id row))
     | _, _ => true
     end.

(** The rows and the cursor of the next page. *)
Definition pending_reservations (env : Env) (project : string) (r : PendingRequest)
    : Tx (list Reservation * option (Z * string * Z)) :=
  fail_if (negb ((1 <=? pn_limit r) && (pn_limit r <=? 100))
           || xorb (is_some (pn_after_id r)) (is_some (pn_after_created_at r))
           || match pn_after_id r with Some id => negb (identifier id) | None => false end)
    (Invalid "invalid pending-reservation limit or cursor") ;;
  let cutoff := default (env_now env - 300 * SECOND) (pn_created_before r) in
  fail_if (env_now env <? cutoff) (Invalid "created_before must not be in the future") ;;
  account ← find_account_id project;
  rows ← gets (λ d, take (Z.to_nat (pn_limit r + 1))
    (order_reservations (filter (λ row, is_pending account cutoff r row = true)
       (map_to_list (reservations d)).*2)));
  let has_more := pn_limit r <? Z.of_nat (length rows) in
  let rows := if has_more then take (length rows - 1) rows else rows in
  let next := if has_more
              then option_map (λ row, (rv_created_at row, rv_id row, cutoff)) (last rows) else None in
  mret (rows, next).

(** ** Cursors *)

(** A cursor acknowledges only what was delivered, which is in the log. *)
Definition Feed_ok (d : Db) : Prop := ∀ a name row, consumers d !! (a, name) = Some row →
  0 ≤ cn_acknowledged row ≤ cn_delivered row ∧
  cn_delivered row ≤ Z.of_nat (length (account_events a d)).

Lemma acknowledged_Ok row ack next : acknowledged row ack = Ok next →
  next = cn_acknowledged row ∨
  (∃ r, ack = Some r ∧ next = ak_sequence r ∧ ak_expected_sequence r = cn_acknowledged row ∧
        cn_acknowledged row < next ≤ cn_delivered row).
Proof.
  unfold acknowledged. destruct ack as [r|]; [|intros [= <-]; by left].
  rewrite require_bind_Ok. intros [_ Hrun]. destruct (Z.eqb_spec (ak_sequence r) (cn_acknowledged row)).
  { injection Hrun as <-. by left. }
  apply require_bind_Ok in Hrun as [Hok Hrun]. injection Hrun as <-.
  rewrite negb_true_iff, !orb_false_iff, negb_false_iff, Z.eqb_eq, !Z.ltb_ge in Hok.
  right. exists r. destruct Hok as [[E1 E2] E3]. split; [done|]. split; [done|]. split; [done|]. lia.
Qed.

Section feed.
Context `{Calendar}.

Lemma next_events_Ok p a ack limit d :
  Inv_at p d → 0 ≤ ack ≤ Z.of_nat (length (account_events a d)) → 1 ≤ limit →
  next_events a ack limit d = take (Z.to_nat (limit + 1)) (drop (Z.to_nat ack) (account_events a d)).
Proof.
  intros HI Hack Hlim. pose proof (eo_sequence _ (inv_events _ _ HI) a) as Hs.
  set (l := account_events a d) in *. unfold next_events. fold l. f_equal.
  assert (filter (λ e, (ack <? ev_sequence e) = true) l = drop (Z.to_nat ack) l) as Hf.
  { transitivity (filter (λ e, (ack <? ev_sequence e) && (ev_sequence e <=? Z.of_nat (length l)) = true) l).
    - apply filter_same. intros e He.
      assert (ev_sequence e ∈ ev_sequence <$> l) as Hin by (by apply list_elem_of_fmap_2).
      rewrite Hs, elem_of_seqZ in Hin. rewrite (proj2 (Z.leb_le _ _)) by lia. by rewrite andb_true_r.
    - rewrite filter_numbered by (done || lia). apply take_ge. rewrite length_drop. lia. }
  rewrite Hf, order_by_sorted; [done|].
  destruct (split_numbered ev_sequence l 1 ack Hs) as [_ ->]; [lia|]. apply seqZ_sorted.
Qed.

(** A page is the next events after the acknowledged position. *)
Lemma page_Ok a row request d p d' :
  Inv d → 0 ≤ cn_acknowledged row ≤ cn_delivered row →
  cn_delivered row ≤ Z.of_nat (length (account_events a d)) → 1 ≤ pl_limit request →
  page a row request d = Ok (p, d') →
  d' = d ∧ acknowledged row (pl_ack request) = Ok (pg_acknowledged p) ∧
  cn_acknowledged row ≤ pg_acknowledged p ≤ cn_delivered row ∧
  pg_events p = take (Z.to_nat (pl_limit request))
                  (drop (Z.to_nat (pg_acknowledged p)) (account_events a d)) ∧
  pg_delivered p = Z.max (cn_delivered row) (pg_acknowledged p + Z.of_nat (length (pg_events p))) ∧
  pg_has_more p = (pg_acknowledged p + pl_limit request <? Z.of_nat (length (account_events a d))).
Proof.
  intros HI Hrow Hlen Hlim Hrun. unfold page in Hrun. tx_inv Hrun. simpl.
  match goal with H : acknowledged _ _ = Ok ?x |- _ => rename x into ack, H into Hack end.
  assert (cn_acknowledged row ≤ ack ≤ cn_delivered row) as Hr.
  { apply acknowledged_Ok in Hack as [->|(r & _ & -> & _ & Hr)]; lia. }
  split; [done|]. split; [done|]. split; [done|].
  rewrite (next_events_Ok _ _ _ _ _ HI) by lia.
  pose proof (eo_sequence _ (inv_events _ _ HI) a) as Hs.
  set (l := account_events a d) in *. set (k := drop (Z.to_nat ack) l).
  assert (Z.of_nat (length k) = Z.of_nat (length l) - ack) as Hk
    by (unfold k; rewrite length_drop; lia).
  destruct (split_numbered ev_sequence l 1 ack Hs) as [_ Hks]; [lia|]. fold k in Hks.
  rewrite <- Hk in Hks.
  set (events := if pl_limit request <? Z.of_nat (length (take _ k)) then _ else _).
  assert (events = take (Z.to_nat (pl_limit request)) k) as Hev.
  { unfold events. rewrite length_take. destruct (Z.ltb_spec (pl_limit request)
      (Z.of_nat (Z.to_nat (pl_limit request + 1) `min` length k))).
    - rewrite take_take. f_equal. lia.
    - rewrite !take_ge by lia. done. }
  rewrite Hev. split; [done|]. split.
  - destruct (last (take _ k)) as [e|] eqn:E.
    + destruct (split_numbered ev_sequence k (1 + ack) (Z.min (pl_limit request) (Z.of_nat (length k))) Hks)
        as [Hts _]; [lia|].
      replace (take (Z.to_nat (pl_limit request)) k)
        with (take (Z.to_nat (Z.min (pl_limit request) (Z.of_nat (length k)))) k) in *.
      2:{ destruct (Z.min_spec (pl_limit request) (Z.of_nat (length k))) as [[? ->]|[? ->]]; [done|].
          rewrite !take_ge by lia. done. }
      rewrite (last_numbered _ _ _ _ Hts E), length_take. lia.
    + apply last_None in E. rewrite E. simpl. lia.
  - rewrite length_take. destruct (Z.ltb_spec (pl_limit request)
      (Z.of_nat (Z.to_nat (pl_limit request + 1) `min` length k)));
      symmetry; rewrite ?Z.ltb_lt, ?Z.ltb_ge; lia.
Qed.

Lemma find_account_id_Ok project d a d' :
  find_account_id project d = Ok (a, d') ↔
  d' = d ∧ ∃ ac, accounts d !! project = Some ac ∧ a = ac_id ac.
Proof.
  unfold find_account_id. split.
  - intros Hrun. tx_inv Hrun. split; [done|]. by eexists.
  - intros (-> & ac & Hac & ->). unfold mbind, tx_bind, gets. by rewrite Hac.
Qed.

(** The position of a consumer: a new one starts before the first event. *)
Definition position (a name : string) (d : Db) : Z * Z :=
  match consumers d !! (a, name) with
  | Some row => (cn_acknowledged row, cn_delivered row)
  | None => (0, 0)
  end.

Lemma register_Ok env a name d row d' :
  register env a name d = Ok (row, d') →
  (cn_acknowledged row, cn_delivered row) = position a name d ∧
  d' = set_consumers (<[(a, name) := row]> (consumers d)) d.
Proof.
  unfold register, cursor, position. intros Hrun. tx_inv Hrun.
  destruct (consumers d !! (a, name)) as [r|] eqn:E; tx_inv Hrun.
  - split; [done|]. rewrite insert_id by done. by destruct d.
  - match goal with H : put_consumer _ _ _ _ = _ |- _ => apply modify_Ok in H as -> end.
    simpl in *. rewrite lookup_insert_eq in *. simplify_eq. done.
Qed.

Lemma Page_changed_false p row :
  Page_changed p row = false ↔
  pg_acknowledged p = cn_acknowledged row ∧ pg_delivered p = cn_delivered row.
Proof. unfold Page_changed. rewrite orb_false_iff, !negb_false_iff, !Z.eqb_eq. done. Qed.

(** What a poll commits and answers. *)
Record polled (a name : string) (request : PollRequest) (d : Db) (p : Page) (d' : Db) : Prop := {
  po_cursor : ∃ row, d' = set_consumers (<[(a, name) := row]> (consumers d)) d ∧
    cn_acknowledged row = pg_acknowledged p ∧ cn_delivered row = pg_delivered p;
  po_ack : (position a name d).1 ≤ pg_acknowledged p ≤ (position a name d).2;
  po_request : match pl_ack request with
    | None => pg_acknowledged p = (position a name d).1
    | Some r => pg_acknowledged p = ak_sequence r ∨ pg_acknowledged p = (position a name d).1
    end;
  po_events : pg_events p = take (Z.to_nat (pl_limit request))
    (drop (Z.to_nat (pg_acknowledged p)) (account_events a d));
  po_delivered : pg_delivered p =
    Z.max (position a name d).2 (pg_acknowledged p + Z.of_nat (length (pg_events p)));
  po_more : pg_has_more p =
    (pg_acknowledged p + pl_limit request <? Z.of_nat (length (account_events a d))) }.

Lemma Feed_position a name d : Feed_ok d →
  0 ≤ (position a name d).1 ≤ (position a name d).2 ∧
  (position a name d).2 ≤ Z.of_nat (length (account_events a d)).
Proof.
  intros HF. unfold position. destruct (consumers d !! (a, name)) as [row|] eqn:E; simpl; [|lia].
  by apply HF in E.
Qed.

Lemma poll_Ok env project name request d p d' :
  Inv d → Feed_ok d → poll_billing_events env project name request d = Ok (p, d') →
  ∃ ac, accounts d !! project = Some ac ∧ 1 ≤ pl_limit request ≤ 100 ∧
    polled (ac_id ac) name request d p d'.
Proof.
  intros HI HF Hrun. unfold poll_billing_events in Hrun. tx_inv Hrun.
  match goal with H : negb _ || _ = false |- _ =>
    rewrite orb_false_iff, !negb_false_iff, andb_true_iff, !Z.leb_le in H; destruct H as [_ Hlim] end.
  match goal with H : find_account_id _ _ = _ |- _ =>
    apply find_account_id_Ok in H as (-> & ac & Hac & ->) end.
  exists ac. split; [done|]. split; [done|]. set (acct := ac_id ac) in *.
  match goal with H : register _ _ _ _ = Ok (?r, _) |- _ =>
    rename r into row; apply register_Ok in H as [Hpos ->] end.
  destruct (Feed_position acct name d HF) as [Hp1 Hp2]. rewrite <- Hpos in Hp1, Hp2. simpl in Hp1, Hp2.
  match goal with H : page _ _ _ ?x = _ |- _ => set (d1 := x) in * end.
  assert (HI1 : Inv d1) by (eapply Inv_outside; [exact HI|apply outside_consumers]).
  assert (Hrow : consumers d1 !! (acct, name) = Some row) by apply lookup_insert_eq.
  assert (Hpage : ∀ q d2, page acct row request d1 = Ok (q, d2) →
    d2 = d1 ∧ ∀ row', cn_acknowledged row' = pg_acknowledged q → cn_delivered row' = pg_delivered q →
    polled acct name request d q (set_consumers (<[(acct, name) := row']> (consumers d)) d)).
  { intros q d2 Hq. eapply page_Ok in Hq as (-> & Hack & Hr & Hev & Hdel & Hmore); [|done..|lia].
    split; [done|]. intros row' R1 R2. split; rewrite <- ?Hpos; try done.
    - by exists row'.
    - apply acknowledged_Ok in Hack as [->|(r & -> & -> & _)]; [|by left].
      destruct (pl_ack request); simpl; auto. }
  match goal with H : page _ _ _ _ = Ok (?q, _) |- _ => apply Hpage in H as Hq end.
  destruct Hq as [-> Hq]. destruct (Page_changed _ row) eqn:Hch; simpl in Hrun; unfold cursor in Hrun; tx_inv Hrun.
  -    match goal with H : consumers d1 !! _ = Some ?r |- _ => rewrite Hrow in H; injection H as <- end.
    match goal with H : page _ _ _ _ = Ok (?q, _) |- _ => rename q into p'; apply Hpage in H as [-> Hq'] end.
    destruct (Page_changed p' row) eqn:Hch'.
    + match goal with H : put_consumer _ _ _ _ = _ |- _ => apply modify_Ok in H as -> end.
      unfold d1 at 1. simpl. rewrite insert_insert_eq. by apply Hq'.
    + match goal with H : mret _ _ = _ |- _ => apply tx_ret_Ok in H as [_ ->] end.
      apply Page_changed_false in Hch' as [E1 E2]. by apply Hq'.
  - apply Page_changed_false in Hch as [E1 E2]. by apply Hq.
Qed.

Lemma ack_Ok env project name r d row d' :
  ack_billing_events env project name r d = Ok (row, d') →
  ∃ ac old, accounts d !! project = Some ac ∧ consumers d !! (ac_id ac, name) = Some old ∧
    cn_delivered row = cn_delivered old ∧
    ((row = old ∧ d' = d) ∨
     (cn_acknowledged row = ak_sequence r ∧ ak_expected_sequence r = cn_acknowledged old ∧
      cn_acknowledged old < cn_acknowledged row ≤ cn_delivered old ∧
      d' = set_consumers (<[(ac_id ac, name) := row]> (consumers d)) d)).
Proof.
  intros Hrun. unfold ack_billing_events, cursor in Hrun. tx_inv Hrun.
  match goal with H : find_account_id _ _ = _ |- _ =>
    apply find_account_id_Ok in H as (-> & ac & Hac & ->) end.
  match goal with H : consumers _ !! _ = Some ?x |- _ => rename x into old, H into Hold end.
  exists ac, old. split; [done|]. split; [done|].
  match goal with H : acknowledged _ _ = Ok ?x |- _ => rename x into next, H into Hack end.
  destruct (next =? _) eqn:E; tx_inv Hrun; [split; [done|by left]|].
  assert (a1 = old) as -> by congruence. assert (a2 = next) as -> by congruence.
  rewrite E in Hrun. tx_inv Hrun.
  match goal with H : put_consumer _ _ _ _ = _ |- _ => apply modify_Ok in H as -> end.
  split; [done|]. right. apply Z.eqb_neq in E.
  apply acknowledged_Ok in Hack as [?|(r' & [= <-] & -> & He & Hr)]; [done|]. done.
Qed.

Lemma Feed_put a name row d :
  Feed_ok d → 0 ≤ cn_acknowledged row ≤ cn_delivered row →
  cn_delivered row ≤ Z.of_nat (length (account_events a d)) →
  Feed_ok (set_consumers (<[(a, name) := row]> (consumers d)) d).
Proof.
  intros HF Hr Hl a' name' row'. simpl.
  intros [[[= <- <-] <-]|[_ Hrow]]%lookup_insert_Some; [done|by apply (HF a' name')].
Qed.

Lemma polled_bounds a name request d p d' :
  Feed_ok d → polled a name request d p d' →
  0 ≤ pg_acknowledged p ≤ pg_delivered p ∧
  pg_delivered p ≤ Z.of_nat (length (account_events a d)).
Proof.
  intros HF [_ P2 _ P4 P5 _]. destruct (Feed_position a name d HF) as [F1 F2].
  apply (f_equal length) in P4. rewrite length_take, length_drop in P4. lia.
Qed.

Lemma poll_ok env project name request d p d' :
  Inv d → Feed_ok d → poll_billing_events env project name request d = Ok (p, d') →
  outside d d' ∧ Feed_ok d' ∧ events d' = events d.
Proof.
  intros HI HF Hrun. apply poll_Ok in Hrun as (ac & Hac & _ & Hp); [|done..].
  destruct (polled_bounds _ _ _ _ _ _ HF Hp) as [B1 B2].
  destruct Hp as [(row & -> & R1 & R2) _ _ _ _ _].
  split; [apply outside_consumers|]. split; [|done]. apply Feed_put; [done|lia..].
Qed.

Lemma ack_ok env project name r d row d' :
  Feed_ok d → ack_billing_events env project name r d = Ok (row, d') →
  outside d d' ∧ Feed_ok d' ∧ events d' = events d.
Proof.
  intros HF (ac & old & _ & Hold & Hd & [(_ & ->)|(_ & _ & Hr & ->)])%ack_Ok; [done|].
  apply HF in Hold as [F1 F2]. split; [apply outside_consumers|]. split; [|done].
  apply Feed_put; [done|lia..].
Qed.

(** A consumer that handles a page and acknowledges it with the next poll. *)
Fixpoint drain (fuel : nat) (env : Env) (project name : string) (limit : Z)
    (ack : option AckRequest) : Tx (list EventRow) :=
  match fuel with
  | O => mret []
  | S fuel =>
      p ← poll_billing_events env project name (mkPoll limit ack);
      rest ← drain fuel env project name limit
               (Some (mkAck (pg_acknowledged p)
                                 (pg_acknowledged p + Z.of_nat (length (pg_events p)))));
      mret (pg_events p ++ rest)
  end.

(** A poll never loses an event.  A page holds the next events after the
    acknowledged position, consecutively numbered and all of the account of
    the project; it says that there is more exactly when there is; and the
    cursor moves forward, acknowledging nothing that was not delivered. *)
Theorem poll_gapless env project name request d p d' :
  Inv d → Feed_ok d → poll_billing_events env project name request d = Ok (p, d') →
  Inv d' ∧ Feed_ok d' ∧ ∃ ac, accounts d !! project = Some ac ∧
  (ev_sequence <$> pg_events p) = seqZ (pg_acknowledged p + 1) (Z.of_nat (length (pg_events p))) ∧
  (∀ e, e ∈ pg_events p → e ∈ events d ∧ ev_billing_account_id e = ac_id ac) ∧
  (position (ac_id ac) name d).1 ≤ pg_acknowledged p ≤ (position (ac_id ac) name d).2 ∧
  position (ac_id ac) name d' = (pg_acknowledged p, pg_delivered p) ∧
  pg_acknowledged p + Z.of_nat (length (pg_events p)) ≤ pg_delivered p ∧
  (pg_has_more p = false →
     pg_acknowledged p + Z.of_nat (length (pg_events p)) =
       Z.of_nat (length (account_events (ac_id ac) d))).
Proof.
  intros HI HF Hrun. destruct (poll_ok _ _ _ _ _ _ _ HI HF Hrun) as (Ho & HF' & _).
  split; [by eapply Inv_outside|]. split; [done|].
  apply poll_Ok in Hrun as (ac & Hac & Hlim & Hp); [|done..]. exists ac. split; [done|].
  destruct (polled_bounds _ _ _ _ _ _ HF Hp) as [B1 B2].
  destruct (Feed_position (ac_id ac) name d HF) as [F1 F2].
  destruct Hp as [(row & -> & R1 & R2) P2 _ P4 P5 P6].
  pose proof (eo_sequence _ (inv_events _ _ HI) (ac_id ac)) as Hs.
  destruct (split_numbered ev_sequence _ 1 (pg_acknowledged p) Hs) as [_ H2]; [lia|].
  assert (Hlen := f_equal length P4). rewrite length_take, length_drop in Hlen.
  set (l := account_events (ac_id ac) d) in *. set (k := drop _ l) in *.
  assert (Z.of_nat (length k) = Z.of_nat (length l) - pg_acknowledged p) as Hk
    by (unfold k; rewrite length_drop; lia).
  rewrite <- Hk in H2.
  destruct (split_numbered ev_sequence k (1 + pg_acknowledged p)
    (Z.of_nat (length (pg_events p))) H2) as [H3 _]; [lia|].
  assert (take (Z.to_nat (Z.of_nat (length (pg_events p)))) k = pg_events p) as Htake.
  { rewrite P4. rewrite length_take, Nat2Z.id.
    destruct (Nat.min_spec (Z.to_nat (pl_limit request)) (length k)) as [[? ->]|[? ->]]; [done|].
    rewrite !take_ge by lia. done. }
  rewrite Htake in H3. split; [|split; [|split; [done|split; [|split; [lia|]]]]].
  - rewrite H3. f_equal. lia.
  - intros e He. rewrite P4 in He. apply elem_of_take in He as (i & Hi & _).
    apply list_elem_of_lookup_2 in Hi. unfold k in Hi.
    assert (e ∈ l) as [? ?]%list_elem_of_filter; [|done].
    rewrite <- (take_drop (Z.to_nat (pg_acknowledged p)) l), elem_of_app. by right.
  - unfold position. simpl. rewrite lookup_insert_eq. congruence.
  - rewrite P6. intros Hm%Z.ltb_ge. lia.
Qed.

Lemma page_runs a row request d next :
  acknowledged row (pl_ack request) = Ok next →
  ∃ p, page a row request d = Ok (p, d) ∧ pg_acknowledged p = next.
Proof.
  intros Hack. unfold page, mbind, tx_bind, gets, lift. rewrite Hack. by eexists.
Qed.

Lemma acknowledged_position row row' ack :
  cn_acknowledged row = cn_acknowledged row' → cn_delivered row = cn_delivered row' →
  acknowledged row ack = acknowledged row' ack.
Proof. unfold acknowledged. by intros -> ->. Qed.

Lemma poll_runs env project name request d ac next now :
  accounts d !! project = Some ac → identifier name = true → 1 ≤ pl_limit request ≤ 100 →
  acknowledged (mkConsumer (position (ac_id ac) name d).1 (position (ac_id ac) name d).2 now)
    (pl_ack request) = Ok next →
  ∃ p d', poll_billing_events env project name request d = Ok (p, d') ∧ pg_acknowledged p = next.
Proof.
  intros Hac Hid Hlim Hack. unfold poll_billing_events. rewrite Hid.
  rewrite (proj2 (Z.leb_le 1 _)), (proj2 (Z.leb_le _ 100)) by lia.
  rewrite (tx_bind_run _ _ d tt d) by done.
  rewrite (tx_bind_run _ _ d (ac_id ac) d)
    by (apply find_account_id_Ok; split; [done|by exists ac]).
  assert (∃ row d1, register env (ac_id ac) name d = Ok (row, d1)) as (row & d1 & Hreg).
  { unfold register, cursor, mbind, tx_bind, gets. destruct (consumers d !! _); [by eexists _, _|].
    simpl. rewrite lookup_insert_eq. by eexists _, _. }
  rewrite (tx_bind_run _ _ _ _ _ Hreg). apply register_Ok in Hreg as [Hpos ->].
  set (d1 := set_consumers _ d). rewrite <- Hpos in Hack.
  rewrite (acknowledged_position _ row) in Hack by done.
  destruct (page_runs (ac_id ac) row request d1 next Hack) as (p & Hp & Hn).
  rewrite (tx_bind_run _ _ _ _ _ Hp).
  destruct (Page_changed p row) eqn:Hch; simpl; [|by exists p, d1].
  rewrite (tx_bind_run _ _ d1 (Some row) d1)
    by (unfold cursor, gets; simpl; by rewrite lookup_insert_eq).
  rewrite (tx_bind_run _ _ d1 row d1) by done.
  rewrite (tx_bind_run _ _ _ _ _ Hp), Hch. by eexists _, _.
Qed.

Lemma drain_next a project name limit d ac fuel : 
  accounts d !! project = Some ac → a = ac_id ac → identifier name = true → 1 ≤ limit ≤ 100 →
  Inv d → Feed_ok d → ∀ env ack next,
  (∀ now, acknowledged (mkConsumer (position a name d).1 (position a name d).2 now) ack = Ok next) →
  Z.of_nat (length (account_events a d)) - next ≤ Z.of_nat fuel * limit →
  ∃ d', drain fuel env project name limit ack d =
    Ok (drop (Z.to_nat next) (account_events a d), d').
Proof.
  revert d. induction fuel as [|fuel IH]; intros d Hac -> Hid Hlim HI HF env ack next Hack Hfuel.
  { simpl. exists d. rewrite drop_ge by lia. done. }
  destruct (poll_runs env project name (mkPoll limit ack) d ac next 0) as (p & d1 & Hrun & Hn);
    [done..|].
  cbn [drain]. unfold mbind at 1, tx_bind. rewrite Hrun.
  destruct (poll_gapless _ _ _ _ _ _ _ HI HF Hrun) as
    (HI1 & HF1 & ac' & Hac' & _ & _ & Hpos & Hpos1 & Hdel & _).
  rewrite Hac in Hac'. injection Hac' as <-.
  apply poll_Ok in Hrun as (ac' & Hac' & _ & Hp); [|done..].
  rewrite Hac in Hac'. injection Hac' as <-.
  destruct (polled_bounds _ _ _ _ _ _ HF Hp) as [B1 B2].
  destruct Hp as [(row & Hd1 & _) _ _ P4 _ _]. simpl in P4. rewrite Hn in *.
  set (l := account_events (ac_id ac) d) in *.
  assert (account_events (ac_id ac) d1 = l) as El by (by subst d1).
  assert (Hlen := f_equal length P4). rewrite length_take, length_drop in Hlen.
  set (after := next + Z.of_nat (length (pg_events p))) in *.
  destruct (IH d1 ltac:(by subst d1) eq_refl Hid Hlim HI1 HF1 env (Some (mkAck next after)) after)
    as (d2 & Hd2).
  - intros now. rewrite Hpos1. unfold acknowledged. simpl.
    rewrite !(proj2 (Z.ltb_ge _ 0)) by lia. simpl.
    destruct (Z.eqb_spec after next) as [->|Hne]; [done|].
    rewrite Z.eqb_refl, !(proj2 (Z.ltb_ge _ _)) by lia. done.
  - rewrite El. lia.
  - exists d2. rewrite (tx_bind_run _ _ _ _ _ Hd2), El. unfold mret, tx_ret. do 2 f_equal.
    rewrite P4 at 1. unfold after. rewrite Z2Nat.inj_add, Nat2Z.id, <- drop_drop by lia.
    rewrite P4 at 1. rewrite length_take.
    destruct (Nat.min_spec (Z.to_nat limit) (length (drop (Z.to_nat next) l))) as [[_ ->]|[? ->]].
    + apply take_drop.
    + rewrite take_ge, (drop_ge (drop _ l)), app_nil_r by lia. done.
Qed.

(** C35: at-least-once delivery.  A consumer that keeps polling and
    acknowledges each page with the next poll receives every event after its
    acknowledged position, in order, after finitely many polls. *)
Theorem drain_delivers_all env project name limit fuel d ac :
  Inv d → Feed_ok d → accounts d !! project = Some ac → identifier name = true →
  1 ≤ limit ≤ 100 →
  Z.of_nat (length (account_events (ac_id ac) d)) ≤ Z.of_nat fuel * limit →
  ∃ d', drain fuel env project name limit None d =
    Ok (drop (Z.to_nat (position (ac_id ac) name d).1) (account_events (ac_id ac) d), d').
Proof.
  intros HI HF Hac Hid Hlim Hfuel. destruct (Feed_position (ac_id ac) name d HF).
  eapply drain_next; try done. lia.
Qed.
End feed.
