(* ===== verification/Billing.v ===== *)
(** * Billing: the service as a sequence of operations

    Every modelled operation of the control plane is a constructor of [op];
    [serve] commits it or rolls it back, and [service] is the database after
    a sequence of operations.  [healthy] is the invariant of the service. *)

From S2P Require Import Prelude Domain Models Store Books Catalog Projection Ledger Reservations.
From S2P Require Import Review Wallet Maintenance Lifecycle Payments Alipay Trial Worker Feed.
From S2P Require Import Fleet Routes Snapshot Control Registry.
Local Open Scope Z_scope.

(** ** Operations *)

Inductive op :=
| CreateProject (p : Project)
| IssueApiKey (r : ApiKeyRequest) (random : string)
| RevokeApiKey (id : string)
| PutCatalogModel (id : string) (r : PutModel)
| BootstrapCatalog
| EnsureAccount (project : string)
| UpdateBalancePolicy (project : string) (enforce : bool)
| Reserve (r : ReserveRequest)
| Dispatch (project id : string)
| Release (project id reason : string)
| Settle (project id : string) (r : SettleRequest)
| ReportUnresolved (project id : string) (r : UnresolvedRequest)
| SubmitEvidence (project id actor subject : string) (r : EvidenceRequest)
| SubmitWaiver (project id actor subject : string) (r : WaiverRequest)
| Decide (project id actor subject : string) (r : DecisionRequest)
| RecordUsage (e : UsageEvent)
| CreateOrder (r : CreateOrderRequest)
| CapturePayment (order : string) (r : CapturePaymentRequest) (idempotency_key : string)
| RefundManually (r : CreateRefundRequest) (idempotency_key : string)
| CheckProjection (project key : string) (month : Z) (rebuild : bool)
| ReadSpend (project key : string)
| ReadBalance (project : string)
| OpenCheckout (id : string) (p : Provider)
| StoreCheckout (id : string) (p : Provider) (qr : result PaymentError string)
| AcceptTrade (p : Provider) (t : VerifiedTrade)
| PrepareRefund (r : CreateRefundRequest) (p : Provider)
| OperateRefund (id : string) (p : Provider) (submit : bool)
    (submitted : result PaymentError unit) (queried : result PaymentError VerifiedRefund)
| ImportRefundEvidence (c : AlipayConfig) (id bytes : string)
| ClaimJob (skip : string → bool) (r : ClaimRequest)
| CompleteJob (processed finished : Z) (l : Lease)
| FailJob (l : Lease) (reason : string)
| RetryJob (account actor reason : string)
| PollFeed (project name : string) (r : PollRequest)
| AckFeed (project name : string) (r : AckRequest)
| OnRegistry (o : control_op).

Definition discard {A} (m : Tx A) : Tx unit := _ ← m; mret tt.

(** The libraries the service calls. *)
Class ServiceLibraries := {
  service_calendar :: Calendar;
  service_provider :: ProviderLibraries;
  secret_hash : string → string;
  json_bytes : Json → string;
  uuid_text : string → bool;
  identity_required : bool }.

Section service.
Context `{ServiceLibraries}.

(** The digest of a document. *)
Definition json_sha256 (j : Json) : string := sha256_hex (json_bytes j).

(** The same libraries, for the operations on the registry. *)
#[export] Instance control_libraries : ControlLibraries := {|
  digest := sha256_hex; document_bytes := json_bytes; is_uuid := uuid_text;
  attribution_required := identity_required |}.

Definition run (env : Env) (o : op) : Tx unit :=
  match o with
  | CreateProject p => discard (create_project env p)
  | IssueApiKey r random => discard (issue_api_key secret_hash env r random)
  | RevokeApiKey id => revoke_api_key env id
  | PutCatalogModel id r => discard (put_model env id r)
  | BootstrapCatalog => bootstrap_catalog env
  | EnsureAccount project => discard (ensure_account_for_project env project)
  | UpdateBalancePolicy project enforce => update_balance_policy env project enforce
  | Reserve r => discard (reserve_money env r)
  | Dispatch project id => discard (dispatch_money env project id)
  | Release project id reason => discard (release_money env project id reason)
  | Settle project id r => discard (settle_money env project id r)
  | ReportUnresolved project id r => discard (unresolved_money env project id r)
  | SubmitEvidence project id actor subject r =>
      discard (submit_billing_evidence json_sha256 env project id actor subject r)
  | SubmitWaiver project id actor subject r =>
      discard (submit_billing_waiver json_sha256 env project id actor subject r)
  | Decide project id actor subject r =>
      discard (decide_billing_review env project id actor subject r)
  | RecordUsage e => discard (record_usage env e)
  | CreateOrder r => discard (create_order env r)
  | CapturePayment order r k => discard (capture_payment env order r k)
  | RefundManually r k => discard (create_refund env r k)
  | CheckProjection project key month rebuild =>
      discard (projection_check env project key month rebuild)
  | ReadSpend project key =>
      discard (projected_spend env project key (month_floor (env_now env)))
  | ReadBalance project => discard (project_balance env project)
  | OpenCheckout id p => discard (alipay_checkout_open env id p)
  | StoreCheckout id p qr => discard (alipay_checkout_store env id p qr)
  | AcceptTrade p t => discard (accept_alipay_trade env p t)
  | PrepareRefund r p => discard (prepare_alipay_refund env r p)
  | OperateRefund id p submit submitted queried =>
      discard (alipay_refund_operation json_bytes env id p submit submitted queried)
  | ImportRefundEvidence c id bytes =>
      discard (import_refund_evidence json_bytes env c id bytes)
  | ClaimJob skip r => discard (claim_event_job env skip r)
  | CompleteJob processed finished l =>
      discard (complete_event_job json_sha256 env processed finished l)
  | FailJob l reason => discard (fail_event_job env l reason)
  | RetryJob account actor reason => retry_event_job env account actor reason
  | PollFeed project name r => discard (poll_billing_events env project name r)
  | AckFeed project name r => discard (ack_billing_events env project name r)
  | OnRegistry o => run_control env o
  end.

(** One request, and a sequence of them, each with its clock and random ids. *)
Definition serve (d : Db) (s : Env * op) : Db := commit (run s.1 s.2) d.
Definition serve_all (d : Db) (l : list (Env * op)) : Db := foldl serve d l.
Definition service (l : list (Env * op)) : Db := serve_all empty_db l.

(** ** The invariant of the service *)

(** Approved reviews agree with the reservations they closed, and only they
    waive a reservation. *)
Record Reviews_closed (d : Db) : Prop := {
  rc_review id w : reviews d !! id = Some w → review_closed d w;
  rc_waived id r : reservations d !! id = Some r → rv_state r = Waived → waived_by_review d id }.

Record healthy (d : Db) : Prop := {
  hl_inv : Inv d;
  hl_reviews : Reviews_closed d;
  hl_wallet : Wallet_ok d;
  hl_worker : Worker_ok json_sha256 d;
  hl_feed : Feed_ok d }.

(** What a committed operation does. *)
Record commits (d d' : Db) : Prop := {
  cm_inv : Inv d';
  cm_effect : effect d d';
  cm_reviews : reviews_evolve d d' }.

Lemma discard_Ok {A} (m : Tx A) d u d' : discard m d = Ok (u, d') → ∃ a, m d = Ok (a, d').
Proof. intros Hrun. unfold discard in Hrun. tx_inv Hrun. by eexists. Qed.

Lemma respects_discard {A} R `{!PreOrder R} (m : Tx A) : respects R m → respects R (discard m).
Proof. intros Hm d u d' [a Hrun]%discard_Ok. by eapply Hm. Qed.

(** ** Every committed operation is one of the effects *)

#[local] Hint Unfold discard create_project issue_api_key store_api_key revoke_api_key put_model
  put_catalog_row put_price lift_text bootstrap_catalog update_balance_policy projected_spend
  project_balance
  find_job put_job locked insert_operation_audit find_account_id cursor put_consumer register page
  put_review submit_review settle_locked approve_review : frame.

Definition money_tables (d : Db) := (reservations d, ledger_entries d, reviews d, accounts d).

Lemma check_models_respects R `{!PreOrder R} l : respects R (check_models l).
Proof. intros d u d' ->%check_models_same. reflexivity. Qed.
#[local] Hint Resolve check_models_respects : frame.

Lemma commits_nothing d d' :
  Inv d' → reservations d' = reservations d → ledger_entries d' = ledger_entries d →
  reviews d' = reviews d → accounts_grow d d' → commits d d'.
Proof.
  intros HI Er El Ew Ha. split; [done| |by apply reviews_kept].
  by eapply Posts, posts_nothing.
Qed.

Lemma commits_frame {A} (m : Tx A) d a d' :
  preserves money_tables m → m d = Ok (a, d') → Inv d' → commits d d'.
Proof.
  intros Hm Hrun HI. apply Hm in Hrun. injection Hrun as E1 E2 E3 E4.
  apply commits_nothing; [done..|by left].
Qed.

Lemma commits_outside d d' : Inv d → outside d d' → commits d d'.
Proof.
  intros HI Ho. pose proof (outside_same _ _ Ho) as (E1 & E2 & E3 & E4).
  apply commits_nothing; [by eapply Inv_outside|done..|by left].
Qed.

Lemma commits_moves d d' id r r' :
  Inv d' → moves id r r' d d' → rv_state r' ≠ Waived → reviews d' = reviews d → commits d d'.
Proof.
  intros HI Hm Hs Ew. split; [done| |by apply reviews_kept]. by eapply Moves.
Qed.

Lemma commits_posts a delta d d' : Inv d' → posts a delta d d' → reviews d' = reviews d → commits d d'.
Proof. intros HI Hp Ew. split; [done|by eapply Posts|by apply reviews_kept]. Qed.

Lemma ensure_commits env p d a d' :
  Inv d → ensure_account_for_project env p d = Ok (a, d') → commits d d'.
Proof.
  intros HI Hrun. eapply ensure_account_Ok in Hrun as (HI' & _ & [acs ->] & Hn); [|exact HI].
  apply commits_nothing; try done. destruct Hn as [Hn|(N1 & N2 & N3)].
  - left. by rewrite Hn.
  - right. by exists p, a.
Qed.

Lemma create_project_commits env v d a d' :
  Inv d → create_project env v d = Ok (a, d') → commits d d'.
Proof.
  intros HI Hrun. pose proof (create_project_Inv _ _ _ _ _ HI Hrun) as HI'.
  unfold create_project in Hrun. tx_inv Hrun.
  match goal with H0 : create_billing_account _ _ _ _ _ = _ |- _ =>
    unfold create_billing_account in H0; tx_inv H0 end.
  match goal with H0 : is_some (accounts _ !! _) = false |- _ => apply is_some_false in H0 end.
  apply commits_nothing; [done..|]. right. eexists _, _. split; [eassumption|]. split; [|reflexivity]. done.
Qed.

Lemma policy_commits env p b d u d' :
  Inv d → update_balance_policy env p b d = Ok (u, d') → commits d d'.
Proof.
  intros HI Hrun. pose proof (update_balance_policy_Inv _ _ _ _ _ _ HI Hrun) as HI'.
  unfold update_balance_policy in Hrun. tx_inv Hrun.
  eapply ensure_account_Ok in Htx as (HI1 & Hac & [acs ->] & Hn); [|done].
  destruct (co_account _ (inv_config _ _ HI1) _ _ Hac) as (Hp & _).
  split; [done| |by apply reviews_kept]. rewrite Hp.
  simpl in Hac, Hn. eapply (Repolicies _ _ p); [done|done|simpl|simpl; intros ac Hold].
  - destruct Hn as [Hn|(_ & _ & Hn)].
    + apply (f_equal accounts) in Hn. simpl in Hn. by rewrite Hn.
    + rewrite Hn. by rewrite insert_insert_eq.
  - destruct Hn as [Hn|(Hnone & _)]; [|congruence].
    apply (f_equal accounts) in Hn. simpl in Hn. rewrite Hn, Hold in Hac. by injection Hac as ->.
Qed.

Lemma projected_spend_Inv env p key d a d' :
  Inv d → projected_spend env p key (month_floor (env_now env)) d = Ok (a, d') → Inv d'.
Proof.
  intros HI Hrun. unfold projected_spend in Hrun. tx_inv Hrun.
  destruct (month_spends d !! _); tx_inv Hrun; [done|].
  match goal with H0 : lock_account _ _ = _ |- _ => apply lock_account_Ok in H0 as [-> _] end.
  match goal with H0 : monthly _ _ _ _ = _ |- _ =>
    eapply (monthly_Ok _ (settled_at_rest "" key (month_floor (env_now env)))) in H0 as (HI1 & _);
      [|by apply Inv_focus|done|done|apply month_floor_idem] end.
  by apply Inv_focus in HI1.
Qed.

Lemma balance_commits env p d a d' :
  Inv d → project_balance env p d = Ok (a, d') → commits d d'.
Proof.
  intros HI Hrun. unfold project_balance in Hrun. tx_inv Hrun.
  match goal with H0 : ensure_account_for_project _ _ _ = _ |- _ => rename H0 into Hens end.
  destruct (balances _ !! _); tx_inv Hrun; [by eapply ensure_commits|].
  match goal with H0 : lock_account _ _ = _ |- _ => apply lock_account_Ok in H0 as [-> _] end.
  eapply ensure_account_Ok in Hens as (HI0 & _ & [acs ->] & Hn); [|exact HI].
  match goal with H0 : account _ (ac_id ?y) _ = _ |- _ =>
    eapply (account_Ok _ (settled_at_rest (ac_id y) "" 0)) in H0 as (HI1 & (b & k & m & ->) & _);
      [|by apply Inv_focus|done] end.
  apply Inv_focus in HI1. apply commits_nothing; try done. destruct Hn as [Hn|(N1 & N2 & N3)].
  - left. by apply (f_equal accounts) in Hn.
  - right. by exists p, a0.
Qed.

Lemma insert_effects_respects R `{!PreOrder R} a l :
  (∀ s e, respects R (insert_effect a s e)) → respects R (insert_effects a l).
Proof.
  intros Hi. induction l as [|[s e] l IH]; simpl; [by apply respects_ret|].
  by apply respects_bind.
Qed.
Lemma insert_effects_money a l : preserves money_tables (insert_effects a l).
Proof. apply insert_effects_respects; [typeclasses eauto|]. intros s e. unfold insert_effect. frame. Qed.
#[local] Hint Resolve insert_effects_money : frame.

Lemma money_frames env :
  (∀ r random, preserves money_tables (issue_api_key secret_hash env r random)) ∧
  (∀ id, preserves money_tables (revoke_api_key env id)) ∧
  (∀ id r, preserves money_tables (put_model env id r)) ∧
  preserves money_tables (bootstrap_catalog env) ∧
  (∀ r, preserves money_tables (create_order env r)) ∧
  (∀ p k m, preserves money_tables (projected_spend env p k m)) ∧
  (∀ p k m b, preserves money_tables (projection_check env p k m b)) ∧
  (∀ skip r, preserves money_tables (claim_event_job env skip r)) ∧
  (∀ p f l, preserves money_tables (complete_event_job json_sha256 env p f l)) ∧
  (∀ l r, preserves money_tables (fail_event_job env l r)) ∧
  (∀ a b r, preserves money_tables (retry_event_job env a b r)).
Proof.
  repeat split; intros; unfold issue_api_key, create_order, projection_check, claim_event_job,
    complete_event_job, fail_event_job, retry_event_job; frame.
Qed.

Lemma reserve_commits env r d a d' :
  Inv d → reserve_money env r d = Ok (a, d') → commits d d'.
Proof.
  intros HI Hrun. pose proof (reserve_reviews _ _ _ _ _ Hrun) as Ew.
  destruct (reserve_money_effect _ _ _ _ _ HI Hrun) as [(-> & _)|(ac & Hac & Had)].
  - apply commits_outside; done.
  - split; [apply Had|by eapply Admits|by apply reviews_kept].
Qed.

Lemma dispatch_commits env p id d a d' :
  Inv d → dispatch_money env p id d = Ok (a, d') → commits d d'.
Proof.
  intros HI Hrun. pose proof (dispatch_reviews _ _ _ _ _ _ Hrun) as Ew.
  destruct (dispatch_money_effect _ _ _ _ _ _ HI Hrun) as (HI' & Hs & [[_ ->]|(r & _ & Hm)]);
    [by apply commits_outside|]. eapply commits_moves; try done. by rewrite Hs.
Qed.
Lemma release_commits env p id reason d a d' :
  Inv d → release_money env p id reason d = Ok (a, d') → commits d d'.
Proof.
  intros HI Hrun. pose proof (release_reviews _ _ _ _ _ _ _ Hrun) as Ew.
  destruct (release_money_effect _ _ _ _ _ _ _ HI Hrun) as (HI' & Hs & [[_ ->]|(r & _ & Hm)]);
    [by apply commits_outside|]. eapply commits_moves; try done. by rewrite Hs.
Qed.
Lemma settle_commits env p id r d a d' :
  Inv d → settle_money env p id r d = Ok (a, d') → commits d d'.
Proof.
  intros HI Hrun. pose proof (settle_reviews _ _ _ _ _ _ _ Hrun) as Ew.
  destruct (settle_money_effect _ _ _ _ _ _ _ HI Hrun) as (HI' & Hs & _ & [[_ ->]|(x & _ & Hm)]);
    [by apply commits_outside|]. eapply commits_moves; try done. by rewrite Hs.
Qed.
Lemma unresolved_commits env p id r d a d' :
  Inv d → unresolved_money env p id r d = Ok (a, d') → commits d d'.
Proof.
  intros HI Hrun. pose proof (unresolved_reviews _ _ _ _ _ _ _ Hrun) as Ew.
  destruct (unresolved_money_effect _ _ _ _ _ _ _ HI Hrun) as (HI' & [[_ ->]|(x & _ & Hs & Hm)]);
    [by apply commits_outside|]. eapply commits_moves; try done. by rewrite Hs.
Qed.

Lemma submit_commits env p id actor subject ev w d a d' :
  Inv d → submit_review json_sha256 env p id actor subject ev w d = Ok (a, d') → commits d d'.
Proof.
  intros HI Hrun. pose proof (submit_review_Inv _ _ _ _ _ _ _ _ _ _ _ HI Hrun) as HI'.
  by destruct (submit_review_effect _ _ _ _ _ _ _ _ _ _ _ HI Hrun).
Qed.
Lemma decide_commits env p id actor subject r d a d' :
  Inv d → decide_billing_review env p id actor subject r d = Ok (a, d') → commits d d'.
Proof.
  intros HI Hrun. pose proof (decide_billing_review_Inv _ _ _ _ _ _ _ _ _ HI Hrun) as HI'.
  by destruct (decide_effect _ _ _ _ _ _ _ _ _ HI Hrun).
Qed.

Lemma accept_commits env provider t d a d' :
  Inv d → accept_alipay_trade env provider t d = Ok (a, d') → commits d d'.
Proof.
  intros HI [Hev|(o & c & dm & Hev & _ & _ & _ & _ & _ & _ & _ & _ & _ & Hrun)]%accept_trade_Ok.
  - apply commits_outside; [done|by apply evidence_outside].
  - pose proof (Inv_outside _ _ _ HI (evidence_outside _ _ Hev)) as HIm.
    assert (Ew : preserves reviews (credit_trade env provider o c t
      (alipay_payment_id provider (vt_trade t)))) by frame.
    apply Ew in Hrun as Ew'. apply credit_trade_Ok in Hrun as (HI' & Hp & _); [|done].
    destruct Hev as (ck & rc & ->). eapply commits_posts; [done| |exact Ew'].
    destruct Hp as [P1 P2 P3 P4]. by split.
Qed.

Lemma prepare_commits env r provider d a d' :
  Inv d → prepare_alipay_refund env r provider d = Ok (a, d') → commits d d'.
Proof.
  intros HI (p & o & _ & _ & _ & _ & [->|Hrun])%prepare_refund_Ok; [by apply commits_outside|].
  assert (Ew : preserves reviews (hold_refund env r p o)) by frame.
  apply Ew in Hrun as Ew'. apply hold_refund_Ok in Hrun as (HI' & Hp & _); [|done].
  by eapply commits_posts.
Qed.

Lemma complete_refund_commits env provider proof d a d' :
  Inv d → complete_alipay_refund json_bytes env provider proof d = Ok (a, d') → commits d d'.
Proof.
  intros HI Hrun. assert (Ew : preserves reviews (complete_alipay_refund json_bytes env provider proof))
    by (unfold complete_alipay_refund; frame).
  apply Ew in Hrun as Ew'.
  apply complete_refund_Ok in Hrun as (row & p & o & c & _ & _ & _ & _ & _ & _ & _ & _ & _ & _ &
    [[_ ->]|[_ Hrun]]); [by apply commits_outside|].
  apply settle_refund_Ok in Hrun as (HI' & Hp & _); [|done]. by eapply commits_posts.
Qed.

Lemma operate_refund_cases env id p submit s q d a d' :
  alipay_refund_operation json_bytes env id p submit s q d = Ok (a, d') →
  d' = d ∨ ∃ proof, complete_alipay_refund json_bytes env p proof d = Ok (a, d').
Proof.
  intros Hrun. unfold alipay_refund_operation in Hrun. pay_inv Hrun.
  destruct (str_eqb _ "succeeded"); pay_inv Hrun; [by left|].
  destruct submit; pay_inv Hrun; [by left|right; by eexists].
Qed.
Lemma import_refund_cases env c id bytes d a d' :
  import_refund_evidence json_bytes env c id bytes d = Ok (a, d') →
  ∃ p proof, complete_alipay_refund json_bytes env p proof d = Ok (a, d').
Proof.
  intros Hrun. unfold import_refund_evidence in Hrun. pay_inv Hrun. by eexists _, _.
Qed.

(** What an operation on the registry writes is outside the books. *)
Lemma registry_commits d d' : Inv d → registry_writes d d' → commits d d'.
Proof.
  intros HI [(ct & oa & co & ->) Hct _]. simpl in Hct.
  set (d1 := set_operation_audits oa (set_control co d)).
  assert (outside d d1) as Ho.
  { by exists (orders d), (payments d), (refunds d), (checkouts d), (receipts d), (consumers d),
      (effects d), oa, co. }
  assert (Inv d1) as HI1 by (by eapply Inv_outside).
  apply commits_nothing; try done; [|by left]. apply Inv_set_catalog; [done|].
  destruct (inv_config _ _ HI1) as [Cj Ca Cc Cp Ck Cu Cs]. split; simpl; try done.
  intros id row' Hr. destruct (Hct id row' Hr) as (row & Hrow & ->). by apply (Cc id row).
Qed.

Lemma registry_tables d d' : registry_writes d d' →
  work_of d' = work_of d ∧ consumers d' = consumers d ∧ view d' = view d ∧ events d' = events d ∧
  accounts d' = accounts d.
Proof. by intros [(ct & oa & co & ->) _ _]. Qed.

Lemma registry_work env o : respects work_grows (run_control env o).
Proof. intros d u d' Hrun. apply work_same. by apply control_writes, registry_tables in Hrun as (? & _). Qed.
Lemma registry_consumers env o : preserves consumers (run_control env o).
Proof. intros d u d' Hrun. by apply control_writes, registry_tables in Hrun as (_ & ? & _). Qed.
Lemma registry_view env o : preserves view (run_control env o).
Proof. intros d u d' Hrun. by apply control_writes, registry_tables in Hrun as (_ & _ & ? & _). Qed.
Lemma registry_events env o : preserves events (run_control env o).
Proof. intros d u d' Hrun. by apply control_writes, registry_tables in Hrun as (_ & _ & _ & ? & _). Qed.
#[local] Hint Resolve registry_work registry_consumers registry_view registry_events : frame.

(** Every operation of the service that commits. *)
Lemma run_commits env o d u d' :
  Inv d → Worker_ok json_sha256 d → Feed_ok d → run env o d = Ok (u, d') → commits d d'.
Proof.
  intros HI HW HF Hrun.
  destruct (money_frames env) as (F1 & F2 & F3 & F4 & F5 & F6 & F7 & F8 & F9 & F10 & F11).
  destruct o; cbn [run] in Hrun; try apply discard_Ok in Hrun as [a Hrun].
  - by eapply create_project_commits.
  - eapply commits_frame; [apply F1|exact Hrun|]. by eapply issue_api_key_Inv.
  - eapply commits_frame; [apply F2|exact Hrun|]. by eapply revoke_api_key_Inv.
  - eapply commits_frame; [apply F3|exact Hrun|]. by eapply put_model_Inv.
  - eapply commits_frame; [apply F4|exact Hrun|]. by eapply bootstrap_catalog_Inv.
  - by eapply ensure_commits.
  - by eapply policy_commits.
  - by eapply reserve_commits.
  - by eapply dispatch_commits.
  - by eapply release_commits.
  - by eapply settle_commits.
  - by eapply unresolved_commits.
  - unfold submit_billing_evidence in Hrun. tx_inv Hrun. by eapply submit_commits.
  - unfold submit_billing_waiver in Hrun. tx_inv Hrun. by eapply submit_commits.
  - by eapply decide_commits.
  - split; [by eapply record_usage_Inv|by eapply record_usage_effect|].
    apply reviews_kept. by eapply record_usage_reviews.
  - eapply commits_frame; [apply F5|exact Hrun|]. by eapply create_order_Inv.
  - split; [by eapply capture_payment_Inv|by eapply capture_payment_effect|].
    apply reviews_kept. by eapply capture_reviews.
  - split; [by eapply create_refund_Inv|by eapply create_refund_effect|].
    apply reviews_kept. by eapply refund_reviews.
  - eapply commits_frame; [apply F7|exact Hrun|]. by eapply projection_check_Inv.
  - eapply commits_frame; [apply F6|exact Hrun|]. by eapply projected_spend_Inv.
  - by eapply balance_commits.
  - apply commits_outside; [done|by eapply checkout_open_commits].
  - apply commits_outside; [done|by eapply checkout_store_commits].
  - by eapply accept_commits.
  - by eapply prepare_commits.
  - apply operate_refund_cases in Hrun as [->|[proof Hrun]]; [by apply commits_outside|].
    by eapply complete_refund_commits.
  - apply import_refund_cases in Hrun as (p & proof & Hrun). by eapply complete_refund_commits.
  - eapply commits_frame; [apply F8|exact Hrun|]. by eapply claim_ok in Hrun as [? _].
  - eapply commits_frame; [apply F9|exact Hrun|]. by eapply complete_ok in Hrun as [? _].
  - eapply commits_frame; [apply F10|exact Hrun|]. by eapply fail_ok in Hrun as [? _].
  - eapply commits_frame; [apply F11|exact Hrun|]. by eapply retry_ok in Hrun as [? _].
  - eapply commits_outside; [done|]. by eapply poll_ok in Hrun as [? _].
  - eapply commits_outside; [done|]. by eapply ack_ok in Hrun as [? _].
  - eapply registry_commits; [done|by eapply control_writes].
Qed.

(** ** The other invariants *)

(** Account rows stay, whatever else appears. *)
Definition account_kept (project : string) : relation Db := λ d d',
  ∀ ac, accounts d !! project = Some ac → accounts d' !! project = Some ac.

#[local] Instance account_kept_preorder project : PreOrder (account_kept project).
Proof. split; unfold account_kept; [naive_solver|]. intros d1 d2 d3. naive_solver. Qed.

Definition is_worker (o : op) : bool :=
  match o with ClaimJob _ _ | CompleteJob _ _ _ | FailJob _ _ | RetryJob _ _ _ => true | _ => false end.
Definition is_feed (o : op) : bool :=
  match o with PollFeed _ _ _ | AckFeed _ _ _ => true | _ => false end.
Definition is_registry (o : op) : bool := match o with OnRegistry _ => true | _ => false end.
Definition moves_wallet (o : op) : bool :=
  match o with
  | Settle _ _ _ | Decide _ _ _ _ _ | RecordUsage _ | CreateOrder _ | CapturePayment _ _ _
  | RefundManually _ _ | AcceptTrade _ _ | PrepareRefund _ _ | OperateRefund _ _ _ _ _
  | ImportRefundEvidence _ _ _ => true
  | _ => false
  end.

#[local] Hint Unfold issue_api_key create_order projection_check claim_event_job
  complete_event_job fail_event_job retry_event_job poll_billing_events ack_billing_events
  reserve_money dispatch_money release_money settle_money unresolved_money
  submit_billing_evidence submit_billing_waiver decide_billing_review record_usage
  capture_payment create_refund alipay_checkout_open alipay_checkout_store accept_alipay_trade
  prepare_alipay_refund complete_alipay_refund alipay_refund_operation import_refund_evidence : frame.

Lemma insert_effects_consumers a l : preserves consumers (insert_effects a l).
Proof. apply insert_effects_respects; [typeclasses eauto|]. intros s e. unfold insert_effect. frame. Qed.
Lemma insert_effects_view a l : preserves view (insert_effects a l).
Proof. apply insert_effects_respects; [typeclasses eauto|]. intros s e. unfold insert_effect. frame. Qed.
Lemma insert_effects_events a l : preserves events (insert_effects a l).
Proof. apply insert_effects_respects; [typeclasses eauto|]. intros s e. unfold insert_effect. frame. Qed.
Lemma insert_effects_control a l : preserves control (insert_effects a l).
Proof. apply insert_effects_respects; [typeclasses eauto|]. intros s e. unfold insert_effect. frame. Qed.
#[local] Hint Resolve insert_effects_consumers insert_effects_view insert_effects_events
  insert_effects_control : frame.

Lemma run_work env o : is_worker o = false → respects work_grows (run env o).
Proof. destruct o; try done; intros _; cbn [run]; frame. Qed.
Lemma run_consumers env o : is_feed o = false → preserves consumers (run env o).
Proof. destruct o; try done; intros _; cbn [run]; frame. Qed.
Lemma run_view env o : moves_wallet o = false → preserves view (run env o).
Proof. destruct o; try done; intros _; cbn [run]; frame. Qed.
Lemma run_events env o : is_worker o = true → preserves events (run env o).
Proof. destruct o; try done; intros _; cbn [run]; frame. Qed.

Lemma run_keeps_registry env o : is_registry o = false → preserves control (run env o).
Proof. destruct o; try done; intros _; cbn [run]; frame. Qed.

(** *** Account rows *)

Lemma create_account_kept now p t e project :
  respects (account_kept project) (create_billing_account now p t e).
Proof.
  intros d a d' Hrun ac Hac. unfold create_billing_account in Hrun. tx_inv Hrun.
  match goal with H0 : is_some _ = false |- _ => apply is_some_false in H0 end.
  simpl. rewrite lookup_insert_ne; [done|congruence].
Qed.
#[local] Hint Resolve create_account_kept : frame.
#[local] Hint Extern 5 (respects (account_kept _) (modify _)) =>
  apply respects_modify; intros; intros ? ?; assumption : frame.

Lemma registry_accounts project env o : respects (account_kept project) (run_control env o).
Proof.
  intros d u d' Hrun ac Hac. apply control_writes, registry_tables in Hrun as (_ & _ & _ & _ & E).
  by rewrite E.
Qed.
#[local] Hint Resolve registry_accounts : frame.

Lemma insert_effects_accounts project a l : respects (account_kept project) (insert_effects a l).
Proof. apply insert_effects_respects; [typeclasses eauto|]. intros s e. unfold insert_effect. frame. Qed.
#[local] Hint Resolve insert_effects_accounts : frame.

Definition sets_policy (project : string) (o : op) : bool :=
  match o with UpdateBalancePolicy p _ => str_eqb p project | _ => false end.

Lemma run_accounts env o d u d' project :
  Inv d → sets_policy project o = false → run env o d = Ok (u, d') → account_kept project d d'.
Proof.
  intros HI Hp Hrun.
  destruct (match o with UpdateBalancePolicy _ _ => true | _ => false end) eqn:Ho.
  - destruct o as [| | | | | |p b| | | | | | | | | | | | | | | | | | | | | | | | | | | |]; try done.
    cbn [run] in Hrun. unfold update_balance_policy in Hrun. tx_inv Hrun.
    apply str_eqb_neq in Hp. eapply ensure_account_Ok in Htx as (HI1 & Hac & [acs ->] & Hn); [|done].
    destruct (co_account _ (inv_config _ _ HI1) _ _ Hac) as (Hpr & _). intros ac Hk. simpl.
    rewrite lookup_insert_ne by congruence. destruct Hn as [Hn|(_ & _ & Hn)].
    + apply (f_equal accounts) in Hn. simpl in Hn. by rewrite Hn.
    + simpl in Hn. by rewrite Hn, lookup_insert_ne by congruence.
  - assert (respects (account_kept project) (run env o)) as Hr; [|by eapply Hr].
    clear Hrun HI d d' u. destruct o; try done; cbn [run]; frame.
Qed.

Lemma run_wallet env o d u d' :
  Inv d → Wallet_ok d → run env o d = Ok (u, d') → Wallet_ok d'.
Proof.
  intros HI HW Hrun. destruct (moves_wallet o) eqn:Hmw.
  2:{ eapply Wallet_respects; [by apply run_view|done|exact Hrun]. }
  destruct o; try done; cbn [run] in Hrun; try apply discard_Ok in Hrun as [a Hrun].
  - by eapply settle_money_wallet.
  - by eapply decide_wallet.
  - by eapply record_usage_wallet.
  - by eapply create_order_wallet.
  - by eapply capture_wallet.
  - by eapply create_refund_wallet.
  - by eapply accept_wallet.
  - by eapply prepare_wallet.
  - apply operate_refund_cases in Hrun as [->|[proof Hrun]]; [done|]. by eapply complete_wallet.
  - apply import_refund_cases in Hrun as (p & proof & Hrun). by eapply complete_wallet.
Qed.

Lemma run_worker env o d u d' :
  Inv d → Worker_ok json_sha256 d → run env o d = Ok (u, d') → Worker_ok json_sha256 d'.
Proof.
  intros HI HW Hrun. destruct (is_worker o) eqn:Hw.
  2:{ eapply work_grows_ok; [exact HW|]. by eapply run_work. }
  destruct o; try done; cbn [run] in Hrun; try apply discard_Ok in Hrun as [a Hrun].
  - by eapply claim_ok.
  - by eapply complete_ok.
  - by eapply fail_ok.
  - by eapply retry_ok.
Qed.

(** The log of an account only grows. *)
Lemma run_log env o d u d' a :
  run env o d = Ok (u, d') → account_events a d `prefix_of` account_events a d'.
Proof.
  intros Hrun. destruct (is_worker o) eqn:Hw.
  - apply run_events in Hrun; [|done]. unfold account_events. by rewrite Hrun.
  - apply run_work in Hrun as [_ V _]; [|done]. apply V.
Qed.

Lemma run_feed env o d u d' : Inv d → Feed_ok d → run env o d = Ok (u, d') → Feed_ok d'.
Proof.
  intros HI HF Hrun. destruct (is_feed o) eqn:Hf.
  - destruct o; try done; cbn [run] in Hrun; apply discard_Ok in Hrun as [a Hrun].
    + by eapply poll_ok in Hrun as (_ & ? & _).
    + by eapply ack_ok in Hrun as (_ & ? & _).
  - pose proof (run_consumers _ _ Hf _ _ _ Hrun) as Ec. intros a name row Hrow.
    rewrite Ec in Hrow. apply HF in Hrow as [? ?]. split; [done|].
    pose proof (prefix_length _ _ (run_log _ _ _ _ _ a Hrun)). lia.
Qed.

(** What happened to a reservation that was there. *)
Lemma effect_row d d' id r : effect d d' → reservations d !! id = Some r →
  ∃ r', reservations d' !! id = Some r' ∧ same_terms r r' ∧ transition (rv_state r) (rv_state r') ∧
    (r' = r ∨ is_held (rv_state r) = true ∧ (rv_state r' = Waived → waived_by_review d' id)).
Proof.
  intros He Hr. assert (Hstay : reservations d' !! id = Some r → ∃ r', reservations d' !! id = Some r' ∧
    same_terms r r' ∧ transition (rv_state r) (rv_state r') ∧
    (r' = r ∨ is_held (rv_state r) = true ∧ (rv_state r' = Waived → waived_by_review d' id))).
  { intros Hs. exists r. split; [done|]. split; [by destruct r|]. split; [constructor|by left]. }
  destruct He as [id' x x' [M1 M2 M3 M4 M5 _ _] Hw|env ac request row _ Had
    |a delta [P _ _ _]|project row Er _ _ _].
  - destruct (decide (id = id')) as [->|Hne].
    + rewrite M1 in Hr. injection Hr as <-. exists x'. rewrite M2, lookup_insert_eq. auto 6.
    + apply Hstay. by rewrite M2, lookup_insert_ne.
  - apply Hstay. destruct (admitted_rows _ _ _ _ _ _ Had) as (E & _).
    rewrite E, lookup_insert_ne; [done|]. intros <-. destruct Had as [_ A _ _ _ _ _]. congruence.
  - apply Hstay. by rewrite P.
  - apply Hstay. by rewrite Er.
Qed.

(** A row in a final state stays, whatever the effect. *)
Lemma effect_terminal d d' id r :
  effect d d' → reservations d !! id = Some r → is_held (rv_state r) = false →
  reservations d' !! id = Some r.
Proof.
  intros He Hr Hs. destruct (effect_row _ _ _ _ He Hr) as (r' & Hr' & _ & _ & [->|[? _]]);
    [done|congruence].
Qed.

(** Where a row came from. *)
Lemma effect_origin d d' id r' : effect d d' → reservations d' !! id = Some r' →
  (∃ r, reservations d !! id = Some r) ∨
  ∃ env ac request, accounts d !! rr_project_id request = Some ac ∧ rr_id request = id ∧
    admitted env ac request d r' d'.
Proof.
  intros [id' x x' [M1 M2 _ _ _ _ _] _|env ac request row Hac Had|a delta [P _ _ _]|project row Er _ _ _] Hr'.
  - rewrite M2 in Hr'. apply lookup_insert_Some in Hr' as [[<- <-]|[_ Hr']]; eauto.
  - destruct (admitted_rows _ _ _ _ _ _ Had) as (E & _). rewrite E in Hr'.
    apply lookup_insert_Some in Hr' as [[<- <-]|[_ Hr']]; [right|left]; eauto 7.
  - rewrite P in Hr'. eauto.
  - rewrite Er in Hr'. eauto.
Qed.

Lemma closes_final evidence r : closes evidence r → is_held (rv_state r) = false.
Proof. destruct evidence; simpl; [intros [-> _]|intros ->]; done. Qed.

Lemma closed_stays d d' w : effect d d' → review_closed d w → review_closed d' w.
Proof.
  intros He. unfold review_closed.
  destruct (rw_state w); try done;
    intros (Hk & r & Hr & Hc); (split; [done|]); exists r; (split; [|done]);
    (eapply effect_terminal; [done..|by eapply closes_final]).
Qed.

Lemma reviews_closed_step d d' : Reviews_closed d → commits d d' → Reviews_closed d'.
Proof.
  intros [R1 R2] [_ He [V1 V2]]. split.
  - intros id w Hw. destruct (V2 _ _ Hw) as [Hold|?]; [|done].
    eapply closed_stays; [done|by eapply R1].
  - intros id r' Hr' Hs. destruct (effect_origin _ _ _ _ He Hr') as [[r Hr]|(env & ac & rq & _ & _ & Had)].
    + destruct (effect_row _ _ _ _ He Hr) as (x & Hx & _ & _ & [->|[_ Hw]]); rewrite Hr' in Hx;
        injection Hx as <-; [|by apply Hw].
      destruct (R2 _ _ Hr Hs) as (wid & w & Hw & Hid & Hst). exists wid, w.
      split; [|done]. apply V1; [done|congruence].
    + destruct Had as [_ _ (m & x & -> & _) _ _ _ _]. done.
Qed.

(** ** Every reachable database is healthy *)

Lemma run_healthy env o d u d' : healthy d → run env o d = Ok (u, d') → healthy d' ∧ commits d d'.
Proof.
  intros [H1 H2 H3 H4 H5] Hrun. pose proof (run_commits _ _ _ _ _ H1 H4 H5 Hrun) as Hc.
  split; [|done]. split.
  - apply Hc.
  - by eapply reviews_closed_step.
  - by eapply run_wallet.
  - by eapply run_worker.
  - by eapply run_feed.
Qed.

(** A request either commits or leaves the database alone. *)
Lemma serve_cases d s : serve d s = d ∨ ∃ u, run s.1 s.2 d = Ok (u, serve d s).
Proof.
  unfold serve, commit. destruct (run s.1 s.2 d) as [[u d']|e]; [right; by exists u|by left].
Qed.

Lemma serve_healthy d s : healthy d → healthy (serve d s).
Proof.
  intros Hd. destruct (serve_cases d s) as [->|[u Hrun]]; [done|]. by eapply run_healthy in Hrun as [? _].
Qed.

Lemma serve_all_healthy d l : healthy d → healthy (serve_all d l).
Proof.
  revert d. induction l as [|s l IH]; intros d Hd; [done|]. simpl. by apply IH, serve_healthy.
Qed.

Lemma empty_Inv : Inv empty_db.
Proof.
  split; [|done| | | |done].
  - by apply Projected_rest.
  - split; try constructor; intros x Hx; by apply elem_of_nil in Hx.
  - split; try done; intros x Hx; by apply elem_of_nil in Hx.
  - split; try done; try constructor; intros x Hx; by apply elem_of_nil in Hx.
Qed.

Lemma empty_Wallet : Wallet_ok empty_db.
Proof. split; try done. Qed.

Lemma empty_healthy : healthy empty_db.
Proof.
  split; [apply empty_Inv|by split|apply empty_Wallet|intros a|].
  - change (jobs empty_db) with (∅ : gmap string Job). rewrite lookup_empty.
    intros s. apply lookup_empty.
  - intros a name row Hr. change (consumers empty_db) with (∅ : gmap (string * string) Consumer) in Hr.
    by rewrite lookup_empty in Hr.
Qed.

Lemma service_healthy l : healthy (service l).
Proof. apply serve_all_healthy, empty_healthy. Qed.

(** Services compose: a run continues from where the one before stopped. *)
Lemma service_app l k : service (l ++ k) = serve_all (service l) k.
Proof. unfold service, serve_all. apply foldl_app. Qed.
End service.
