(* ===== verification/Owners.v ===== *)
(** * Owners: whose a row is never changes

    The console decides from a row who may act on it, before it acts in a
    transaction of its own.  That is safe because no operation of the service
    gives a project, a key, an order, a payment or a refund to somebody else,
    or removes it. *)

From S2P Require Import Prelude Domain Models Store Books Catalog Projection Ledger Reservations.
From S2P Require Import Review Wallet Maintenance Lifecycle Payments Alipay Trial Worker Feed.
From S2P Require Import Control Registry Billing.
Local Open Scope Z_scope.

(** Every row of [m] is in [m'], with the same [f]. *)
Definition rows_keep {A B} (f : A → B) (m m' : gmap string A) : Prop :=
  ∀ id x, m !! id = Some x → ∃ y, m' !! id = Some y ∧ f y = f x.

#[export] Instance rows_keep_preorder {A B} (f : A → B) : PreOrder (rows_keep f).
Proof.
  split; [intros m id x Hx; by exists x|]. intros m1 m2 m3 H1 H2 id x Hx.
  destruct (H1 _ _ Hx) as (y & Hy & Ey). destruct (H2 _ _ Hy) as (z & Hz & Ez).
  exists z. split; [done|congruence].
Qed.

Lemma rows_keep_new {A B} (f : A → B) m id x : m !! id = None → rows_keep f m (<[id := x]> m).
Proof. intros Hn i y Hy. exists y. rewrite lookup_insert_ne by congruence. done. Qed.
Lemma rows_keep_update {A B} (f : A → B) m id x y :
  m !! id = Some x → f y = f x → rows_keep f m (<[id := y]> m).
Proof.
  intros Hx E i z Hz. destruct (decide (i = id)) as [->|].
  - exists y. rewrite lookup_insert_eq. split; [done|congruence].
  - exists z. by rewrite lookup_insert_ne.
Qed.

(** The tenant and project of a row, or the row that it belongs to. *)
Record owners_kept (d d' : Db) : Prop := {
  ow_projects : rows_keep id (projects d) (projects d');
  ow_keys : rows_keep (λ k, (ak_tenant_id k, ak_project_id k)) (api_keys d) (api_keys d');
  ow_orders : rows_keep (λ o, (od_tenant_id o, od_project_id o)) (orders d) (orders d');
  ow_payments : rows_keep py_order_id (payments d) (payments d');
  ow_refunds : rows_keep rf_payment_id (refunds d) (refunds d') }.

#[export] Instance owners_kept_preorder : PreOrder owners_kept.
Proof.
  split; [intros d; split; reflexivity|].
  intros d1 d2 d3 [A1 A2 A3 A4 A5] [B1 B2 B3 B4 B5].
  split; (etransitivity; [eassumption|eassumption]).
Qed.

(** *** The two halves of the tables *)

Definition titles (d : Db) := (projects d, api_keys d).
Definition till (d : Db) := (orders d, payments d, refunds d).

Lemma kept_till d d' : titles d' = titles d → rows_keep (λ o, (od_tenant_id o, od_project_id o)) (orders d) (orders d') →
  rows_keep py_order_id (payments d) (payments d') → rows_keep rf_payment_id (refunds d) (refunds d') →
  owners_kept d d'.
Proof. intros [= E1 E2] ? ? ?. by split; rewrite ?E1, ?E2. Qed.
Lemma kept_titles d d' : till d' = till d → rows_keep id (projects d) (projects d') →
  rows_keep (λ k, (ak_tenant_id k, ak_project_id k)) (api_keys d) (api_keys d') → owners_kept d d'.
Proof. intros [= E1 E2 E3] ? ?. by split; rewrite ?E1, ?E2, ?E3. Qed.

Definition names_rows (o : op) : bool :=
  match o with CreateProject _ | IssueApiKey _ _ | RevokeApiKey _ => true | _ => false end.
Definition fills_till (o : op) : bool :=
  match o with
  | CreateOrder _ | CapturePayment _ _ _ | RefundManually _ _ | AcceptTrade _ _ | PrepareRefund _ _
  | OperateRefund _ _ _ _ _ | ImportRefundEvidence _ _ _ => true
  | _ => false
  end.

Section owners.
Context `{ServiceLibraries}.

#[local] Hint Unfold issue_api_key create_order projection_check claim_event_job
  complete_event_job fail_event_job retry_event_job poll_billing_events ack_billing_events
  reserve_money dispatch_money release_money settle_money unresolved_money
  submit_billing_evidence submit_billing_waiver decide_billing_review record_usage
  capture_payment create_refund alipay_checkout_open alipay_checkout_store accept_alipay_trade
  prepare_alipay_refund complete_alipay_refund alipay_refund_operation import_refund_evidence
  lift_text put_job put_consumer insert_operation_audit : frame.

Lemma insert_effects_titles a l : preserves titles (insert_effects a l).
Proof. apply insert_effects_respects; [typeclasses eauto|]. intros s e. unfold insert_effect. frame. Qed.
Lemma insert_effects_till a l : preserves till (insert_effects a l).
Proof. apply insert_effects_respects; [typeclasses eauto|]. intros s e. unfold insert_effect. frame. Qed.
Lemma check_models_frame {T} (f : Db → T) l : preserves f (check_models l).
Proof. apply check_models_respects. typeclasses eauto. Qed.

Lemma registry_titles env o : preserves titles (run_control env o).
Proof. intros d u d' Hrun. apply control_writes in Hrun as [(ct & oa & co & ->) _ _]. done. Qed.
Lemma registry_till env o : preserves till (run_control env o).
Proof. intros d u d' Hrun. apply control_writes in Hrun as [(ct & oa & co & ->) _ _]. done. Qed.
#[local] Hint Resolve insert_effects_titles insert_effects_till check_models_frame registry_titles
  registry_till : frame.

Lemma run_titles env o : names_rows o = false → preserves titles (run env o).
Proof. destruct o; try done; intros _; cbn [run]; frame. Qed.
Lemma run_till env o : fills_till o = false → preserves till (run env o).
Proof. destruct o; try done; intros _; cbn [run]; frame. Qed.

(** *** Orders, payments and refunds *)

(** The order is paid, and the payment is new. *)
Lemma credit_kept order o' p d d' :
  titles d' = titles d → orders d !! od_id order = Some order →
  od_tenant_id o' = od_tenant_id order → od_project_id o' = od_project_id order →
  payments d !! py_id p = None → orders d' = <[od_id order := o']> (orders d) →
  payments d' = <[py_id p := p]> (payments d) → refunds d' = refunds d → owners_kept d d'.
Proof.
  intros Ht Ho E1 E2 Hn Eo Ep Er. apply kept_till; [done|rewrite Eo|rewrite Ep|by rewrite Er].
  - eapply rows_keep_update; [done|]. by rewrite E1, E2.
  - by apply rows_keep_new.
Qed.

Lemma capture_kept env order_id r idem d p d' :
  Wallet_ok d → capture_payment env order_id r idem d = Ok (p, d') → owners_kept d d'.
Proof.
  intros HW Hrun.
  assert (titles d' = titles d) as Ht.
  { assert (preserves titles (capture_payment env order_id r idem)) as Hp by frame. by eapply Hp. }
  unfold capture_payment, lock_order in Hrun. tx_inv Hrun.
  destruct (payments d !! cap_id r) eqn:Hnew; tx_inv Hrun; [reflexivity|].
  match goal with Hx : orders _ !! _ = Some ?x |- _ => rename x into order, Hx into Horder end.
  match goal with Hx : ensure_account_for_project _ _ _ = Ok (_, ?y) |- _ =>
    assert (till y = till d) as [= T1 T2 T3] by
      (assert (preserves till (ensure_account_for_project env (od_project_id order))) as Hp by frame;
       by eapply Hp) end.
  match goal with Hx : insert_payment _ _ _ = _ |- _ => apply insert_payment_Ok in Hx as [Hfresh ->] end.
  match goal with Hx : mark_paid _ _ _ = _ |- _ => apply modify_Ok in Hx as -> end.
  match goal with Hx : insert_balanced_entries _ _ _ _ _ _ _ _ _ _ _ = _ |- _ =>
    apply insert_balanced_entries_frame in Hx as (E1 & E2 & E3 & _) end.
  destruct (wk_order _ HW _ _ Horder) as [Hid _]. simpl in *. subst order_id.
  rewrite T1 in E1. rewrite T2 in E2, Hfresh. rewrite T3 in E3.
  eapply (credit_kept order (paid_order env order)); [exact Ht|exact Horder|done|done| |exact E1|exact E2|exact E3].
  exact Hfresh.
Qed.

Lemma create_refund_kept env r idem d x d' :
  create_refund env r idem d = Ok (x, d') → owners_kept d d'.
Proof.
  intros Hrun.
  assert (titles d' = titles d) as Ht.
  { assert (preserves titles (create_refund env r idem)) as Hp by frame. by eapply Hp. }
  unfold create_refund, lock_order, lock_payment in Hrun. tx_inv Hrun.
  destruct (refunds d !! crf_id r) eqn:Hnew; tx_inv Hrun; [reflexivity|].
  match goal with Hx : ensure_account_for_project _ ?p _ = Ok (_, ?y) |- _ =>
    assert (till y = till d) as [= T1 T2 T3] by
      (assert (preserves till (ensure_account_for_project env p)) as Hp by frame; by eapply Hp) end.
  match goal with Hx : insert_refund _ _ _ = _ |- _ => apply insert_refund_Ok in Hx as [Hfresh ->] end.
  match goal with Hx : insert_balanced_entries _ _ _ _ _ _ _ _ _ _ _ = _ |- _ =>
    apply insert_balanced_entries_frame in Hx as (E1 & E2 & E3 & _) end.
  simpl in *. rewrite T1 in E1. rewrite T2 in E2. rewrite T3 in E3, Hfresh.
  apply kept_till; [done|by rewrite E1|by rewrite E2|rewrite E3]. by apply rows_keep_new.
Qed.

Lemma accept_kept env provider trade d a d' :
  Inv d → Wallet_ok d → accept_alipay_trade env provider trade d = Ok (a, d') → owners_kept d d'.
Proof.
  intros HI HW Hrun.
  assert (titles d' = titles d) as Ht.
  { assert (preserves titles (accept_alipay_trade env provider trade)) as Hp by frame. by eapply Hp. }
  apply accept_trade_Ok in Hrun as [(ck & rc & ->)|(order & checkout & dm & Hev & Ho & _ & _ & _ & _ & _ & _ & _ & _ & Hrun)].
  - by split.
  - pose proof (Inv_outside _ _ _ HI (evidence_outside _ _ Hev)) as HIm.
    destruct (wk_order _ HW _ _ Ho) as [Hid _]. destruct Hev as (ck & rc & ->).
    apply credit_trade_Ok in Hrun as (_ & _ & Hn & E1 & E2 & E3); [|done]. simpl in *.
    eapply (credit_kept order (paid_order env order)); [done|by rewrite Hid|done|done| |exact E2|exact E1|exact E3].
    exact Hn.
Qed.

Lemma prepare_kept env r provider d a d' :
  Inv d → prepare_alipay_refund env r provider d = Ok (a, d') → owners_kept d d'.
Proof.
  intros HI Hrun.
  assert (titles d' = titles d) as Ht.
  { assert (preserves titles (prepare_alipay_refund env r provider)) as Hp by frame. by eapply Hp. }
  apply prepare_refund_Ok in Hrun as (payment & order & _ & _ & _ & _ & [->|Hrun]); [reflexivity|].
  eapply hold_refund_Ok in Hrun as (_ & _ & _ & _ & Hn & E1 & E2 & E3); [|done].
  apply kept_till; [done|by rewrite E3|by rewrite E2|rewrite E1]. by apply rows_keep_new.
Qed.

Lemma complete_refund_kept env provider proof d a d' :
  Inv d → Wallet_ok d → complete_alipay_refund json_bytes env provider proof d = Ok (a, d') → owners_kept d d'.
Proof.
  intros HI HW Hrun.
  assert (titles d' = titles d) as Ht.
  { assert (preserves titles (complete_alipay_refund json_bytes env provider proof)) as Hp by frame.
    by eapply Hp. }
  apply complete_refund_Ok in Hrun as (row & payment & order & ck & Hrow & _ & _ & _ & _ & _ & _ & _ & _ & _ &
    [[_ ->]|[_ Hrun]]); [reflexivity|].
  destruct (wk_refund _ HW _ _ Hrow) as (Hid & _).
  eapply settle_refund_Ok in Hrun as (_ & _ & E1 & E2 & E3); [|done].
  apply kept_till; [done|by rewrite E3|by rewrite E2|rewrite E1].
  eapply rows_keep_update; [by rewrite Hid|done].
Qed.

(** *** Every operation *)

Lemma account_projects now p t e : preserves projects (create_billing_account now p t e).
Proof. frame. Qed.

Lemma run_owners env o d u d' : healthy d → run env o d = Ok (u, d') → owners_kept d d'.
Proof.
  intros Hd Hrun. pose proof (hl_inv _ Hd) as HI. pose proof (hl_wallet _ Hd) as HW.
  destruct (names_rows o) eqn:Hn.
  { pose proof (run_till env o ltac:(by destruct o) _ _ _ Hrun) as Ht.
    destruct o; try done; cbn [run] in Hrun; try apply discard_Ok in Hrun as [a Hrun]; (apply kept_titles; [exact Ht|..]).
    - unfold create_project in Hrun. tx_inv Hrun.
      match goal with Hx : create_billing_account _ _ _ _ _ = _ |- _ => apply account_projects in Hx as -> end.
      match goal with Hx : is_some _ = false |- _ => apply is_some_false in Hx end.
      simpl. by apply rows_keep_new.
    - assert (api_keys d' = api_keys d) as ->; [|reflexivity].
      assert (preserves api_keys (create_project env p)) as Hp; [|by eapply Hp]. frame.
    - assert (projects d' = projects d) as ->; [|reflexivity].
      assert (preserves projects (issue_api_key secret_hash env r random)) as Hp; [|by eapply Hp].
      unfold store_api_key. frame.
    - unfold issue_api_key, store_api_key in Hrun. tx_inv Hrun.
      match goal with Hx : check_models _ _ = Ok (_, ?y) |- _ =>
        assert (y = d) as -> by (by apply (check_models_respects eq) in Hx) end.
      simpl. apply rows_keep_new. by apply is_some_false.
    - unfold revoke_api_key in Hrun. tx_inv Hrun. reflexivity.
    - unfold revoke_api_key in Hrun. tx_inv Hrun. simpl.
      match goal with Hx : (_ ≫= _) = Some _ |- _ => apply bind_Some in Hx as (row & Hrow & Hx); case_match; [done|]; injection Hx as <- end.
      by eapply rows_keep_update. }
  destruct (fills_till o) eqn:Hf.
  2:{ pose proof (run_titles env o Hn _ _ _ Hrun) as Ht. pose proof (run_till env o Hf _ _ _ Hrun) as Hx.
      injection Hx as E1 E2 E3. apply kept_till; rewrite ?E1, ?E2, ?E3; done || reflexivity. }
  pose proof (run_titles env o Hn _ _ _ Hrun) as Ht.
  destruct o; try done; cbn [run] in Hrun; try apply discard_Ok in Hrun as [a Hrun].
  - apply create_order_Ok in Hrun as (Hnew & _ & _ & ->). apply kept_till; [done|..]; simpl; [|reflexivity..].
    by apply rows_keep_new.
  - by eapply capture_kept.
  - by eapply create_refund_kept.
  - by eapply accept_kept.
  - by eapply prepare_kept.
  - apply operate_refund_cases in Hrun as [->|[proof Hrun]]; [reflexivity|]. by eapply complete_refund_kept.
  - apply import_refund_cases in Hrun as (p & proof & Hrun). by eapply complete_refund_kept.
Qed.
End owners.
