(* ===== verification/Progress.v ===== *)
(** * Progress: when an operation of the money protocol succeeds

    [runs m d] says that [m] commits in [d].  The building blocks of the
    money path commit as long as the sums fit the width of a column and the
    identifiers they draw are new; from this follow the outcome tables of the
    operations and that known usage always settles. *)

From S2P Require Import Prelude Domain Models Store Books Catalog Projection Ledger Reservations.
From S2P Require Import Review Wallet Maintenance Lifecycle.
Local Open Scope Z_scope.

Definition runs {A} (m : Tx A) (d : Db) : Prop := ∃ a d', m d = Ok (a, d').

Lemma runs_bind {A B} (m : Tx A) (k : A → Tx B) d :
  runs m d → (∀ a d', m d = Ok (a, d') → runs (k a) d') → runs (m ≫= k) d.
Proof.
  intros (a & d1 & H1) Hk. destruct (Hk a d1 H1) as (b & d2 & H2).
  exists b, d2. apply tx_bind_Ok. eauto.
Qed.
Lemma runs_ret {A} (a : A) d : runs (mret a) d.
Proof. by eexists _, _. Qed.
Lemma runs_gets {A} (f : Db → A) d : runs (gets f) d.
Proof. by eexists _, _. Qed.
Lemma runs_modify f d : runs (modify f) d.
Proof. by eexists _, _. Qed.
Lemma runs_fail_if c e d : c = false → runs (fail_if c e) d.
Proof. intros ->. by eexists _, _. Qed.
Lemma runs_found {A} (a : A) o e d : o = Some a → runs (found o e) d.
Proof. intros ->. by eexists _, _. Qed.
Lemma runs_lift {A} (a : A) r d : r = Ok a → runs (lift r) d.
Proof. intros ->. by eexists _, _. Qed.
Lemma runs_total s d : i64_min ≤ s ≤ i64_max → runs (total s) d.
Proof. intros Hs. exists s, d. by apply total_Ok. Qed.

Create HintDb runs.
#[export] Hint Resolve runs_ret runs_gets runs_modify : runs.

(** One step that commits, with what it did put in the context. *)
Ltac run_step :=
  apply runs_bind; [eauto with runs|let H := fresh "Hrun" in intros ? ? H; tx_inv H].

Definition fits (z : Z) : Prop := i64_min ≤ z ≤ i64_max.

Section progress.
Context `{Calendar}.

Lemma account_runs env p a d :
  Inv_at p d → a = pd_account p → fits (booked a d) → fits (held a d) → runs (account env a) d.
Proof.
  intros HI -> Hb Hh. unfold account. run_step. destruct (balances d !! pd_account p); [apply runs_ret|].
  apply runs_bind; [|intros; run_step; apply runs_ret].
  unfold historical_balance_and_held. run_step.
  apply runs_bind; [by apply runs_total|]. intros x dx Hx. tx_inv Hx. run_step.
  apply runs_bind; [by apply runs_total|]. intros. apply runs_ret.
Qed.

Lemma key_hold_runs env p k d :
  Inv_at p d → k = pd_key p → fits (key_held k d) → runs (key_hold env k) d.
Proof.
  intros HI -> Hk. unfold key_hold. run_step. destruct (key_holds d !! pd_key p); [apply runs_ret|].
  apply runs_bind; [|intros; run_step; apply runs_ret].
  unfold historical_key_hold. run_step. by apply runs_total.
Qed.

Lemma monthly_runs env p k m d :
  Inv_at p d → k = pd_key p → m = pd_month p → month_floor m = m →
  is_Some (month_next m) → fits (month_spent k m d) → runs (monthly env k m) d.
Proof.
  intros HI -> -> Hm [e He] Hs. unfold monthly. run_step.
  destruct (month_spends d !! _); [apply runs_ret|].
  apply runs_bind; [|intros; run_step; apply runs_ret].
  unfold historical_spend. apply runs_bind; [by eapply runs_found|]. intros x dx Hx. tx_inv Hx.
  run_step. simplify_eq. rewrite (period_spent_month _ _ _ _ Hm) by done. by apply runs_total.
Qed.

Lemma add_runs v delta b d :
  fits (v + delta) → (b = true → 0 ≤ v + delta) → runs (lift (add v delta b)) d.
Proof. intros Hf Hb. eapply runs_lift. apply add_Ok. split; [reflexivity|]. done. Qed.

Lemma change_hold_runs env p a k delta d :
  Inv_at p d → a = pd_account p → k = pd_key p →
  fits (booked a d) → fits (held a d) → fits (key_held k d) →
  0 ≤ held a d + pd_held p + delta ≤ i64_max →
  0 ≤ key_held k d + pd_key_held p + delta ≤ i64_max →
  runs (change_hold env a k delta) d.
Proof.
  intros HI -> -> Hb Hh Hk Hhd Hkd. unfold change_hold.
  apply runs_bind; [by eapply account_runs|]. intros row d1 H1.
  eapply account_Ok in H1 as (HI1 & Ho1 & Hr1 & Hb1 & Hh1); [|done..].
  apply runs_bind; [apply add_runs; unfold fits, i64_min; lia|]. intros x dx Hx. tx_inv Hx.
  match goal with H0 : add _ _ _ = Ok _ |- _ => apply add_Ok in H0 as (-> & _) end.
  apply runs_bind; [apply runs_modify|]. intros u d2 H2.
  apply (put_balance_Ok p) with (q := mkPending (pd_account p) (pd_key p) (pd_month p)
    (pd_balance p) (pd_held p + delta) (pd_key_held p) (pd_spent p)) in H2 as (HI2 & Ho2 & _); simpl; history Ho1; try done; try lia.
  apply runs_bind; [eapply key_hold_runs; [exact HI2|done|]; history Ho2; by history Ho1|].
  intros kr d3 H3. eapply key_hold_Ok in H3 as (_ & _ & _ & Hk3); [|exact HI2|done].
  simpl in Hk3. history Ho2. history Ho1.
  apply runs_bind; [apply add_runs; unfold fits, i64_min; lia|]. intros y dy Hy. apply runs_modify.
Qed.

Lemma change_balance_runs env p a delta d :
  Inv_at p d → a = pd_account p → fits (booked a d) → fits (held a d) →
  fits (booked a d + pd_balance p + delta) → runs (change_balance env a delta) d.
Proof.
  intros HI -> Hb Hh Hd. unfold change_balance.
  apply runs_bind; [by eapply account_runs|]. intros row d1 H1.
  eapply account_Ok in H1 as (HI1 & Ho1 & Hr1 & Hb1 & Hh1); [|done..].
  apply runs_bind; [apply add_runs; [by rewrite Hb1|done]|]. intros. apply runs_modify.
Qed.

Lemma change_spend_runs env k m row delta d :
  0 ≤ ms_spent_microunits row + delta ≤ i64_max → runs (change_spend env k m row delta) d.
Proof.
  intros Hd. unfold change_spend.
  apply runs_bind; [apply add_runs; unfold fits, i64_min; lia|]. intros. apply runs_modify.
Qed.

Lemma append_runs env a kind aggregate payload d :
  ev_sequence <$> account_events a d = seqZ 1 (Z.of_nat (length (account_events a d))) →
  Z.of_nat (length (account_events a d)) < i64_max →
  runs (append_event env a kind aggregate payload) d.
Proof.
  intros Hs Hn. unfold append_event. run_step.
  rewrite last_sequence_gapless by done.
  apply runs_bind; [eapply runs_found, checked_add_Some; unfold i64_min; split; [reflexivity|lia]|].
  intros x dx Hx. tx_inv Hx.
  match goal with H0 : checked_add _ _ = Some _ |- _ => apply checked_add_Some in H0 as [-> _] end.
  apply runs_bind; [|intros; apply runs_modify]. unfold insert_event. run_step.
  apply runs_bind; [|intros; apply runs_modify]. apply runs_fail_if, not_true_iff_false.
  intros (e & He%list_elem_of_In & Heq%Z.eqb_eq)%existsb_exists. simpl in He.
  assert (ev_sequence e ∈ ev_sequence <$> account_events a d) as Hin by (by apply list_elem_of_fmap_2).
  rewrite Hs, elem_of_seqZ in Hin. simpl in Heq. lia.
Qed.

Lemma append_event_runs env p a kind aggregate payload d :
  Inv_at p d → Z.of_nat (length (account_events a d)) < i64_max →
  runs (append_event env a kind aggregate payload) d.
Proof. intros HI. apply append_runs. apply HI. Qed.

(** A row rewritten and logged. *)
Lemma log_row_runs env p r a kind aggregate payload d :
  Inv_at p d → Z.of_nat (length (account_events a d)) < i64_max →
  runs (row ← update_reservation r; append_event env a kind aggregate payload ;; mret row) d.
Proof.
  intros HI Hn. apply runs_bind; [unfold update_reservation; run_step; apply runs_ret|].
  intros row d1 Hup. unfold update_reservation in Hup. tx_inv Hup.
  apply runs_bind; [|intros; apply runs_ret].
  apply append_runs; [exact (eo_sequence _ (inv_events _ _ HI) a)|exact Hn].
Qed.

Lemma insert_usage_runs u d :
  us_event_id u ∉ (us_event_id <$> usage_events d) → runs (insert_usage u) d.
Proof.
  intros Hu. unfold insert_usage. run_step. apply runs_bind; [|intros; apply runs_modify].
  apply runs_fail_if, not_true_iff_false. by rewrite str_in_elem.
Qed.

(** The identifiers a posting draws are new. *)
Record fresh_ids (env : Env) (idem : string) (d : Db) : Prop := {
  fi_transaction : ("txn-" +:+ env_uuid env 0) ∉ lt_id <$> ledger_transactions d;
  fi_idempotency : idem ∉ lt_idempotency_key <$> ledger_transactions d;
  fi_customer : ("entry-customer-" +:+ env_uuid env 1) ∉ le_id <$> ledger_entries d;
  fi_counter : ("entry-counter-" +:+ env_uuid env 2) ∉ le_id <$> ledger_entries d }.

Lemma insert_ledger_entry_runs e d : le_id e ∉ le_id <$> ledger_entries d → runs (insert_ledger_entry e) d.
Proof.
  intros He. unfold insert_ledger_entry. run_step. apply runs_bind; [|intros; apply runs_modify].
  apply runs_fail_if, not_true_iff_false. by rewrite str_in_elem.
Qed.

Lemma post_entries_runs env ac tenant kind rt ri idem desc delta counter d :
  fresh_ids env idem d → runs (post_entries env ac tenant kind rt ri idem desc delta counter) d.
Proof.
  intros [F1 F2 F3 F4]. unfold post_entries. apply runs_bind.
  { unfold insert_ledger_transaction. run_step. apply runs_bind; [|intros; apply runs_modify].
    apply runs_fail_if, orb_false_iff. split; apply not_true_iff_false; by rewrite str_in_elem. }
  intros u d1 H1. apply insert_ledger_transaction_Ok in H1 as (-> & _).
  apply runs_bind; [by apply insert_ledger_entry_runs|]. intros v d2 ->%insert_ledger_entry_Ok.
  apply runs_bind; [|intros; apply runs_ret]. apply insert_ledger_entry_runs. simpl.
  rewrite fmap_app, elem_of_app. intros [Hin|Hin]; [done|].
  apply list_elem_of_singleton in Hin. discriminate.
Qed.

Lemma check_debit_runs env p ac delta d :
  Inv_at p d → ac_id ac = pd_account p → fits (booked (ac_id ac) d) → fits (held (ac_id ac) d) →
  (ac_enforce_balance ac = true → delta < 0 →
   let free := booked (ac_id ac) d + pd_balance p - (held (ac_id ac) d + pd_held p) in
   fits free ∧ 0 ≤ free + delta) →
  runs (check_debit env ac delta) d.
Proof.
  intros HI Ha Hb Hh Hf. unfold check_debit.
  destruct (Z.ltb_spec delta 0); simpl; [|apply runs_ret].
  destruct (ac_enforce_balance ac); [|apply runs_ret]. destruct Hf as [F1 F2]; [done|done|].
  apply runs_bind.
  { apply runs_bind; [by eapply account_runs|]. intros. apply runs_ret. }
  intros bh d1 H1. unfold balance_and_held in H1. tx_inv H1.
  eapply account_Ok in Htx as (_ & _ & _ & Hbal & Hheld); [|done..]. simpl.
  apply runs_fail_if, insufficient_false. rewrite Hbal, Hheld. unfold fits in *. lia.
Qed.

(** What a debit of an account needs: sums in range, free money when the
    balance is enforced, new identifiers and room in the log. *)
Record can_debit (env : Env) (p : Pending) (ac : Account) (idem : string) (amount : Z) (d : Db)
    : Prop := {
  cb_ids : fresh_ids env idem d;
  cb_booked : fits (booked (ac_id ac) d) ∧ fits (booked (ac_id ac) d + pd_balance p - amount);
  cb_held : fits (held (ac_id ac) d);
  cb_free : ac_enforce_balance ac = true →
    let free := booked (ac_id ac) d + pd_balance p - (held (ac_id ac) d + pd_held p) in
    fits free ∧ amount ≤ free;
  cb_log : Z.of_nat (length (account_events (ac_id ac) d)) + 1 < i64_max }.

Lemma debit_runs env p ac tenant kind rt ri idem desc amount counter d :
  Inv_at p d → ac_id ac = pd_account p → accounts d !! ac_project_id ac = Some ac →
  counter ≠ "customer_balance"%string → 0 < amount ≤ i64_max →
  can_debit env p ac idem amount d →
  runs (insert_balanced_entries env ac tenant kind rt ri idem desc (- amount) counter) d.
Proof.
  intros HI Ha Hac Hc Hamount [C1 [C2 C2'] C3 C4 C5]. unfold insert_balanced_entries.
  apply runs_bind; [apply runs_fail_if, Z.eqb_neq; unfold i64_min, i64_max in *; lia|].
  intros u0 d0 H0. tx_inv H0.
  apply runs_bind; [exists ac, d; by apply lock_account_Ok|].
  intros x d1 [-> Hx]%lock_account_Ok. rewrite Hac in Hx. injection Hx as <-.
  apply runs_bind.
  { eapply check_debit_runs; [exact HI|done|done|done|]. intros Hen _.
    destruct (C4 Hen) as [F1 F2]. split; [done|lia]. }
  intros u1 d2 H2. pose proof H2 as E2. apply (check_debit_Ok _ p) in H2 as (HI2 & Ho2 & _); [|done..].
  apply runs_bind.
  { eapply change_balance_runs; [exact HI2|done|..]; history Ho2; done. }
  intros u2 d3 H3. apply (change_balance_Ok _ p) in H3 as (HI3 & Ho3 & Hrow); [|done..].
  assert (Ho : projection_only d d3) by (by rewrite Ho2).
  destruct Ho as (b & k & s & ->).
  apply runs_bind; [apply post_entries_runs; by destruct C1; split|]. intros tid d4 H4.
  eapply post_entries_Ok in H4 as (HI4 & (t & e & ->) & _);
    [|exact HI3|done|done|simpl; by rewrite <- Ha].
  eapply append_event_runs; [exact HI4|]. change (account_events _ _) with (account_events (ac_id ac) d). lia.
Qed.

(** A posting logs one event. *)
Lemma posting_log env ac tenant kind rt ri idem desc delta counter d u d' :
  insert_balanced_entries env ac tenant kind rt ri idem desc delta counter d = Ok (u, d') →
  ∃ e, events d' = events d ++ [e].
Proof.
  intros Hrun. unfold insert_balanced_entries in Hrun. tx_inv Hrun.
  match goal with H0 : lock_account _ _ = _ |- _ => apply lock_account_Ok in H0 as [-> _] end.
  assert (∀ x, preserves events (check_debit env x delta)) as Hc by (intros x; frame).
  assert (preserves events (change_balance env (ac_id ac) delta)) as Hb by frame.
  assert (preserves events (post_entries env ac tenant kind rt ri idem desc delta counter)) as Hp by frame.
  repeat match goal with
  | H0 : check_debit _ _ _ _ = _ |- _ => apply Hc in H0
  | H0 : change_balance _ _ _ _ = _ |- _ => apply Hb in H0
  | H0 : post_entries _ _ _ _ _ _ _ _ _ _ _ = _ |- _ => apply Hp in H0
  end.
  unfold same in *. unfold append_event in Hrun. tx_inv Hrun.
  match goal with H0 : insert_event _ _ = _ |- _ => unfold insert_event in H0; tx_inv H0 end.
  match goal with H0 : schedule _ _ _ _ = _ |- _ => apply modify_Ok in H0 as -> end.
  simpl. eexists. f_equal. congruence.
Qed.

Lemma log_length_app a d d' e : events d' = events d ++ [e] →
  Z.of_nat (length (account_events a d')) ≤ Z.of_nat (length (account_events a d)) + 1.
Proof.
  intros E. unfold account_events. rewrite E, filter_app, length_app, filter_cons.
  case_decide; simpl; lia.
Qed.

(** The room a settlement needs. *)
Record can_settle (env : Env) (ac : Account) (row : Reservation) (d : Db) : Prop := {
  cs_ids : fresh_ids env ("reservation:" +:+ rv_id row) d;
  cs_usage : usage_id (rv_id row) ∉ us_event_id <$> usage_events d;
  cs_month : is_Some (month_next (month_floor (env_now env)));
  cs_booked : booked (ac_id ac) d ≤ i64_max ∧
    i64_min ≤ booked (ac_id ac) d - rv_reserved_microunits row;
  cs_held : held (ac_id ac) d ≤ i64_max ∧ key_held (rv_api_key_id row) d ≤ i64_max;
  cs_free : ac_enforce_balance ac = true → 0 ≤ available (ac_id ac) d;
  cs_spent : month_spent (rv_api_key_id row) (month_floor (env_now env)) d
    + rv_reserved_microunits row ≤ i64_max;
  cs_log : Z.of_nat (length (account_events (ac_id ac) d)) + 1 < i64_max }.

Lemma row_hold_le a d id r : Inv d → reservations d !! id = Some r → rv_billing_account_id r = a →
  0 ≤ row_hold r ≤ held a d ∧ row_hold r ≤ key_held (rv_api_key_id r) d.
Proof.
  intros HI Hr <-. assert (Hn : ∀ k x, reservations d !! k = Some x → 0 ≤ row_hold x).
  { intros k x Hx. destruct (inv_reservations _ _ HI _ _ Hx) as [_ _ _ R4 R5 _].
    pose proof (usage_cost_nonneg _ _ _ _ R4 R5). unfold row_hold. case_match; lia. }
  split; [split; [by eapply Hn|]|].
  - assert (account_hold (rv_billing_account_id r) r = row_hold r) as <-
      by (rewrite account_hold_row; by rewrite decide_True).
    eapply (msum_lookup_le (account_hold _)); [|exact Hr]. intros k x Hx. specialize (Hn k x Hx).
    rewrite account_hold_row. case_decide; lia.
  - assert (api_key_hold (rv_api_key_id r) r = row_hold r) as <-
      by (rewrite api_key_hold_row; by rewrite decide_True).
    eapply (msum_lookup_le (api_key_hold _)); [|exact Hr]. intros k x Hx. specialize (Hn k x Hx).
    rewrite api_key_hold_row. case_decide; lia.
Qed.

Lemma month_spent_nonneg k m d : Inv d → 0 ≤ month_spent k m d.
Proof.
  intros HI. apply zsum_nonneg. intros u Hu. unfold month_spend.
  pose proof (co_spend _ (inv_config _ _ HI) _ Hu). case_match; lia.
Qed.

Lemma settle_usage_runs env ac row request amount d :
  Inv d → reservations d !! rv_id row = Some row → rv_state row = Dispatched →
  rv_billing_account_id row = ac_id ac → 0 ≤ amount ≤ rv_reserved_microunits row →
  can_settle env ac row d → runs (settle_usage env ac row request amount) d.
Proof.
  intros HI Hr Hs Ha Hamount [_ C2 C3 [C4 C4'] [C5 C6] _ C7 _].
  destruct (row_hold_le _ _ _ _ HI Hr Ha) as [[P1 P2] P3].
  assert (row_hold row = rv_reserved_microunits row) as Hrow by (unfold row_hold; by rewrite Hs).
  pose proof (month_spent_nonneg (rv_api_key_id row) (month_floor (env_now env)) d HI) as P4.
  apply (Inv_focus (ac_id ac) (rv_api_key_id row) (month_floor (env_now env))) in HI.
  unfold settle_usage.
  apply runs_bind; [eapply monthly_runs; [exact HI|done|done|apply month_floor_idem|done|]; unfold fits, i64_min; lia|].
  intros m d1 H1. eapply monthly_Ok in H1 as (HI1 & Ho1 & _ & Hm); [|exact HI|done..|apply month_floor_idem].
  apply runs_bind.
  { eapply change_hold_runs; [exact HI1|done|done|..]; history Ho1; simpl; unfold fits, i64_min in *; lia. }
  intros u d2 H2. eapply change_hold_Ok in H2 as (_ & Ho2 & _); [|exact HI1|done..].
  apply runs_bind.
  { apply insert_usage_runs. destruct Ho1 as (? & ? & ? & ->), Ho2 as (? & ? & ? & ->). exact C2. }
  intros v d3 H3. apply change_spend_runs. simpl in Hm. lia.
Qed.

Lemma reserved_nonneg d id r : Inv d → reservations d !! id = Some r → 0 ≤ rv_reserved_microunits r.
Proof.
  intros HI Hr. destruct (inv_reservations _ _ HI _ _ Hr) as [_ _ _ R4 R5 _].
  by eapply usage_cost_nonneg.
Qed.

Lemma settle_write_runs env ac row request amount d :
  Inv d → accounts d !! ac_project_id ac = Some ac →
  reservations d !! rv_id row = Some row → rv_state row = Dispatched →
  rv_billing_account_id row = ac_id ac → ac_id ac = account_id (ac_project_id ac) →
  usage_cost_microunits (rv_price row) (sr_input_tokens request) (sr_output_tokens request)
    = Ok amount →
  0 ≤ amount ≤ rv_reserved_microunits row →
  can_settle env ac row d → runs (settle_write env ac row request amount) d.
Proof.
  intros HI Hac Hr Hs Ha Hid Hcost Hamount Hcan.
  pose proof (inv_reservations _ _ HI _ _ Hr) as [R1 R2 R3 R4 R5 R6].
  pose proof (settle_usage_runs env ac row request amount d HI Hr Hs Ha Hamount Hcan) as Huse.
  destruct Hcan as [C1 C2 C3 [C4 C4'] [C5 C6] C7 C8 C9].
  destruct (row_hold_le _ _ _ _ HI Hr Ha) as [[P1 P2] P3].
  assert (row_hold row = rv_reserved_microunits row) as Hrow by (unfold row_hold; by rewrite Hs).
  apply (Inv_focus (ac_id ac) (rv_api_key_id row) (month_floor (env_now env))) in HI.
  unfold settle_write. apply runs_bind; [done|]. intros u d1 H1.
  eapply settle_usage_Ok in H1 as (HI1 & dm & Ho1 & Ho2); [|exact HI|lia].
  destruct Ho1 as (b1 & k1 & s1 & ->), Ho2 as (b2 & k2 & s2 & ->).
  apply runs_bind.
  { unfold update_reservation. run_step. apply runs_ret. }
  intros row' d2 H2. pose proof (update_reservation_row _ _ _ _ H2) as ->.
  eapply update_reservation_Ok in H2 as (HI2 & _ & ->); [|exact HI1|..]; simpl; try done.
  2:{ intros old Hold. simpl in Hold. by simplify_eq. }
  2:{ split; simpl; try done. eexists amount, _. split; [done|]. split; [done|].
      split; [apply elem_of_app; right; by apply list_elem_of_singleton|].
      split_and!; try done. by exists request. }
  2,3: unfold row_hold, old_hold; simpl; rewrite Hr; simpl; unfold row_hold; rewrite Hs; simpl; lia.
  simpl in HI2.
  match type of HI2 with Inv_at ?x ?y => set (p := x) in *; set (dw := y) in * end.
  assert (held (ac_id ac) dw = held (ac_id ac) d - rv_reserved_microunits row) as Hheld.
  { unfold dw. match goal with |- held _ (set_reservations (<[_ := ?r]> _) ?x) = _ =>
      change (set_reservations _ x) with (set_reservations (<[rv_id row := r]> (reservations x)) x) end.
    rewrite held_put by (intros old Hold; simpl in Hold; by simplify_eq).
    rewrite decide_True by done. unfold old_hold. simpl. rewrite Hr. simpl.
    unfold row_hold. simpl. rewrite Hs. simpl.
    match goal with |- held _ ?x + _ = _ => change (held (ac_id ac) x) with (held (ac_id ac) d) end.
    lia. }
  assert (Hlog : runs (append_event env (ac_id ac) "reservation.settled" (rv_id row)
      (settled_json (usage_id (rv_id row)) amount)) dw).
  { eapply append_event_runs; [exact HI2|]. change (account_events _ dw) with (account_events (ac_id ac) d). lia. }
  destruct (Z.ltb_spec 0 amount).
  - apply runs_bind.
    + eapply debit_runs; [exact HI2|done|exact Hac|done|unfold i64_max in *; lia|].
      split; [by destruct C1; split| | | |].
      * change (booked _ dw) with (booked (ac_id ac) d). simpl. unfold fits, i64_min, i64_max in *. lia.
      * rewrite Hheld. unfold fits, i64_min in *. lia.
      * intros Hen. specialize (C7 Hen). unfold available in C7.
        change (booked _ dw) with (booked (ac_id ac) d). rewrite Hheld. simpl.
        unfold fits, i64_min, i64_max in *. lia.
      * change (account_events _ dw) with (account_events (ac_id ac) d). lia.
    + intros v d3 H3.
      apply posting_log in H3 as Hev. destruct Hev as [e Hev].
      apply (insert_balanced_entries_Ok _ p) in H3 as (HI3 & _); [|done..].
      apply runs_bind; [|intros; apply runs_ret]. eapply append_event_runs; [exact HI3|].
      pose proof (log_length_app (ac_id ac) _ _ _ Hev) as Hlen.
      change (account_events _ dw) with (account_events (ac_id ac) d) in Hlen. lia.
  - run_step. apply runs_bind; [exact Hlog|]. intros. apply runs_ret.
Qed.
End progress.
