(* ===== verification/Protocol.v ===== *)
(** * Protocol: what each operation of the money protocol answers

    Outcome of every operation in every state of a reservation, when it
    succeeds and what it commits then, and that retries are harmless. *)

From S2P Require Import Prelude Domain Models Store Books Catalog Projection Ledger Reservations.
From S2P Require Import Review Wallet Maintenance Lifecycle Progress.
Local Open Scope Z_scope.

(** ** Forward runs *)

Lemma find_reservation_run project id d r :
  reservations d !! id = Some r → rv_project_id r = project → find_reservation project id d = Ok (r, d).
Proof. intros. by apply find_reservation_Ok. Qed.
Lemma lock_account_run project d ac : accounts d !! project = Some ac → lock_account project d = Ok (ac, d).
Proof. intros. by apply lock_account_Ok. Qed.

(** What a request about a stored reservation meets first. *)
Definition owned (project id : string) (d : Db) (ac : Account) (row : Reservation) : Prop :=
  accounts d !! project = Some ac ∧ reservations d !! id = Some row ∧ rv_project_id row = project.

Section protocol.
Context `{Calendar}.

(** The two lookups at the head of the operations. *)
Lemma head_missing {B} project id d (k : Account → Reservation → Tx B) :
  (∀ ac row, ¬ owned project id d ac row) →
  (account ← lock_account project; row ← find_reservation project id; k account row) d = Err NotFound.
Proof.
  intros Hno. unfold lock_account, find_reservation, mbind, tx_bind, gets.
  destruct (accounts d !! project) as [ac|] eqn:Hac; simpl; [|done].
  destruct (reservations d !! id) as [row|] eqn:Hr; simpl; [|done].
  destruct (str_eqb _ _) eqn:Hp; simpl; [|done].
  apply str_eqb_eq in Hp. exfalso. by apply (Hno ac row).
Qed.

Lemma head_owned {B} project id d ac row (k : Account → Reservation → Tx B) :
  owned project id d ac row →
  (account ← lock_account project; row ← find_reservation project id; k account row) d = k ac row d.
Proof.
  intros (Hac & Hr & Hp). erewrite tx_bind_run by (by apply lock_account_run).
  by erewrite tx_bind_run by (by apply find_reservation_run).
Qed.

(** The hold and the balance of an account after a move. *)
Lemma moves_money id r r' d d' a :
  moves id r r' d d' →
  held a d' = held a d +
    (if decide (a = rv_billing_account_id r) then row_hold r' - row_hold r else 0).
Proof.
  intros [M1 M2 M3 _ _ _ _].
  rewrite (held_rows _ _ d _ M2).
  assert (rv_billing_account_id r' = rv_billing_account_id r ∧ rv_api_key_id r' = rv_api_key_id r ∧
          rv_project_id r' = rv_project_id r) as (A1 & A2 & A3) by (rewrite M3; done).
  rewrite held_put by (intros old Hold; rewrite M1 in Hold; injection Hold as <-; done).
  rewrite A1. unfold old_hold. by rewrite M1.
Qed.

(** A row logged under a new state keeps what it was. *)
Lemma log_row_shape env r a kind aggregate payload d row d' :
  (row ← update_reservation r; append_event env a kind aggregate payload ;; mret row) d = Ok (row, d') →
  row = r.
Proof. intros Hrun. tx_inv Hrun. by eapply update_reservation_row. Qed.

(** *** Dispatch *)

(** Dispatch, in every case.  An unknown account, reservation or a
    reservation of another project is not found; a dispatched one answers
    again without a change; a released, settled or waived one is a conflict;
    and a reserved one becomes dispatched, holding exactly what it held. *)
Theorem dispatch_outcome env project id d :
  Inv d → (∀ a, Z.of_nat (length (account_events a d)) < i64_max) →
  ((∀ ac row, ¬ owned project id d ac row) → dispatch_money env project id d = Err NotFound) ∧
  ∀ ac row, owned project id d ac row →
    match rv_state row with
    | Dispatched => dispatch_money env project id d = Ok (row, d)
    | Reserved => ∃ d', let row' := with_state row Dispatched (rv_settled_microunits row)
                          (rv_completion row) (env_now env) in
        dispatch_money env project id d = Ok (row', d') ∧
        reservations d' = <[id := row']> (reservations d) ∧
        (∀ a, booked a d' = booked a d ∧ held a d' = held a d)
    | _ => dispatch_money env project id d =
        Err (Conflict "only reserved requests may be dispatched")
    end.
Proof.
  intros HI Hroom. split; [apply head_missing|]. intros ac row Ho.
  pose proof (dispatch_money_effect env project id d) as Heff.
  unfold dispatch_money in *. rewrite (head_owned _ _ _ _ _ _ Ho) in *.
  destruct Ho as (Hac & Hr & Hp). destruct (rv_state row) eqn:Hs; try done.
  destruct (log_row_runs env _ (with_state row Dispatched (rv_settled_microunits row) (rv_completion row)
    (env_now env)) (ac_id ac) "reservation.dispatched" id (JObj []) d HI (Hroom _)) as (row' & d' & Hrun).
  destruct (Heff _ _ HI Hrun) as (_ & _ & [[Hr' _]|(r & _ & Hm)]).
  - apply log_row_shape in Hrun as ->. rewrite Hr in Hr'. injection Hr' as Hr'.
    by rewrite Hr' in Hs.
  - rewrite Hrun. apply log_row_shape in Hrun as ->. exists d'. split; [done|].
    pose proof (mv_old _ _ _ _ _ Hm) as Hold. rewrite Hr in Hold. injection Hold as <-.
    split; [apply Hm|]. intros a. rewrite (moves_money _ _ _ _ _ a Hm), (mv_booked _ _ _ _ _ Hm).
    unfold settled_amount, row_hold. simpl. rewrite Hs. simpl. case_decide; lia.
Qed.

(** *** Release *)

(** The room a release needs. *)
Definition can_release (ac : Account) (row : Reservation) (d : Db) : Prop :=
  fits (booked (ac_id ac) d) ∧ fits (held (ac_id ac) d) ∧ fits (key_held (rv_api_key_id row) d) ∧
  Z.of_nat (length (account_events (ac_id ac) d)) < i64_max.

(** Release, in every case.  Only the reason [not_dispatched] is accepted;
    a reservation that was dispatched, settled or waived keeps its money and
    the answer is a conflict; a released one answers again without a change;
    and a reserved one gives back exactly what it held to its account. *)
Theorem release_outcome env project id reason d :
  Inv d →
  (reason ≠ "not_dispatched"%string → release_money env project id reason d =
     Err (Invalid "only verified not_dispatched requests can be released")) ∧
  (reason = "not_dispatched"%string → (∀ ac row, ¬ owned project id d ac row) →
     release_money env project id reason d = Err NotFound) ∧
  ∀ ac row, reason = "not_dispatched"%string → owned project id d ac row →
    match rv_state row with
    | Released => release_money env project id reason d = Ok (row, d)
    | Reserved => can_release ac row d → ∃ row' d',
        release_money env project id reason d = Ok (row', d') ∧
        rv_state row' = Released ∧ same_terms row row' ∧
        reservations d' = <[id := row']> (reservations d) ∧
        (∀ a, booked a d' = booked a d ∧ held a d' = held a d -
           (if decide (a = ac_id ac) then rv_reserved_microunits row else 0))
    | _ => release_money env project id reason d = Err (Conflict
        "dispatched/settled requests cannot be released; reconcile unknown usage")
    end.
Proof.
  intros HI. split; [|split].
  { intros Hne. unfold release_money. rewrite (proj2 (str_eqb_neq _ _) Hne). done. }
  { intros -> Hno. unfold release_money. rewrite str_eqb_refl. simpl.
    erewrite tx_bind_run by done. by apply head_missing. }
  intros ac row -> Ho. pose proof (release_money_effect env project id "not_dispatched" d) as Heff.
  unfold release_money in *. erewrite tx_bind_run in Heff |- * by done.
  rewrite (head_owned _ _ _ _ _ _ Ho) in *. destruct Ho as (Hac & Hr & Hp).
  destruct (rv_state row) eqn:Hs; try done. intros (C1 & C2 & C3 & C4).
  destruct (locked_row _ _ _ _ _ _ HI Hac Hr Hp) as (Ha & Hid & _).
  destruct (row_hold_le _ _ _ _ HI Hr Ha) as [[P1 P2] P3].
  assert (row_hold row = rv_reserved_microunits row) as Hrow by (unfold row_hold; by rewrite Hs).
  pose proof HI as HIf. apply (Inv_focus (ac_id ac) (rv_api_key_id row) 0) in HIf.
  match goal with |- ∃ _ _, ?m d = _ ∧ _ => assert (Hruns : runs m d) end.
  { apply runs_bind.
    - eapply change_hold_runs; [exact HIf|done|done|done|done|done|..]; simpl; unfold fits in *; lia.
    - intros u d1 H1. eapply change_hold_Ok in H1 as (HI1 & (b & k & s & ->) & _); [|exact HIf|done..].
      eapply log_row_runs; [exact HI1|exact C4]. }
  destruct Hruns as (row' & d' & Hrun). exists row', d'. split; [done|].
  destruct (Heff _ _ HI Hrun) as (HI' & Hs' & [[Hr' _]|(r & _ & Hm)]).
  { rewrite Hr in Hr'. injection Hr' as ->. congruence. }
  pose proof (mv_old _ _ _ _ _ Hm) as Hold. rewrite Hr in Hold. injection Hold as <-.
  split; [done|]. split; [apply Hm|]. split; [apply Hm|]. intros a.
  rewrite (moves_money _ _ _ _ _ a Hm), (mv_booked _ _ _ _ _ Hm), Ha.
  destruct (inv_reservations _ _ HI _ _ Hr) as [_ _ _ _ _ R6]. rewrite Hs in R6.
  assert (rv_settled_microunits row' = None) as Hn.
  { assert (reservations d' !! id = Some row') as Hr' by (rewrite (mv_new _ _ _ _ _ Hm); apply lookup_insert_eq).
    destruct (inv_reservations _ _ HI' _ _ Hr') as [_ _ _ _ _ R6']. by rewrite Hs' in R6'. }
  unfold settled_amount. rewrite Hn, R6. simpl.
  assert (row_hold row' = 0) as -> by (unfold row_hold; by rewrite Hs').
  case_decide; lia.
Qed.

(** *** Settlement *)

Lemma settle_locked_runs env ac project id row request d :
  Inv d → owned project id d ac row → rv_state row = Dispatched →
  settle_request_ok request = true →
  sr_input_tokens request ≤ rr_input_token_limit (rv_spec row) →
  sr_output_tokens request ≤ rr_output_token_limit (rv_spec row) →
  can_settle env ac row d → runs (settle_locked env ac row request) d.
Proof.
  intros HI (Hac & Hr & Hp) Hs Hok Hi Ho Hcan.
  destruct (locked_row _ _ _ _ _ _ HI Hac Hr Hp) as (Ha & Hid & Haid).
  destruct (inv_reservations _ _ HI _ _ Hr) as [_ _ _ R4 R5 _].
  destruct (co_account _ (inv_config _ _ HI) _ _ Hac) as (Hproj & _).
  destruct (settle_request_ok_nonneg _ Hok) as [Hi0 Ho0].
  destruct (usage_cost_mono _ (sr_input_tokens request) (sr_output_tokens request) _ _ _ R4
    (conj Hi0 Hi) (conj Ho0 Ho) R5) as (amount & Hcost & Hrange).
  unfold settle_locked. rewrite Hok. apply runs_bind; [by apply runs_fail_if|].
  intros u0 d0 H0. tx_inv H0. rewrite Hs.
  apply runs_bind; [apply runs_fail_if, orb_false_iff; split; apply Z.ltb_ge; lia|].
  intros u1 d1 H1. tx_inv H1. rewrite Hcost. simpl.
  apply runs_bind; [apply runs_ret|]. intros x d2 H2. tx_inv H2.
  apply settle_write_runs; try done; by rewrite ?Hproj, ?Hid.
Qed.

(** C34: known usage settles.  When a request was dispatched and its usage is
    within the reserved limits, the settlement commits (given room in the
    64-bit sums, new identifiers and, for a prepaid account, that it is
    solvent): it costs exactly the price of the tokens used, at most the
    reserved amount, charges it to the account, and gives the whole hold
    back. *)
Theorem settlement_succeeds env ac project id row request d :
  Inv d → owned project id d ac row → rv_state row = Dispatched →
  settle_request_ok request = true →
  sr_input_tokens request ≤ rr_input_token_limit (rv_spec row) →
  sr_output_tokens request ≤ rr_output_token_limit (rv_spec row) →
  can_settle env ac row d →
  ∃ amount d', let row' := with_state row Settled (Some amount) (Some (settle_json request)) (env_now env) in
    settle_money env project id request d = Ok (row', d') ∧ Inv d' ∧
    usage_cost_microunits (rv_price row) (sr_input_tokens request) (sr_output_tokens request)
      = Ok amount ∧ 0 ≤ amount ≤ rv_reserved_microunits row ∧
    reservations d' = <[id := row']> (reservations d) ∧
    (∀ a, booked a d' = booked a d - (if decide (a = ac_id ac) then amount else 0)) ∧
    (∀ a, held a d' = held a d -
       (if decide (a = ac_id ac) then rv_reserved_microunits row else 0)).
Proof.
  intros HI Hown Hs Hok Hi Ho Hcan.
  destruct (settle_locked_runs _ _ _ _ _ _ _ HI Hown Hs Hok Hi Ho Hcan) as (row' & d' & Hrun).
  unfold settle_money. rewrite (head_owned _ _ _ _ _ _ Hown). destruct Hown as (Hac & Hr & Hp).
  destruct (locked_row _ _ _ _ _ _ HI Hac Hr Hp) as (Ha & Hid & _).
  pose proof (settle_locked_Ok _ _ _ _ _ _ _ _ _ HI Hac Hr Hp Hrun) as [(Hst & _)|(_ & Hsb)];
    [congruence|].
  pose proof (settled_by_moves _ _ _ _ _ _ _ _ _ HI Hac Hr Hp Hs Hsb) as Hm.
  destruct Hsb as [S1 S2 (amount & ->) S4 S5 S6]. destruct (S2 amount eq_refl) as (Hc & Hb & Hbook & _).
  exists amount, d'. split; [done|]. split; [done|]. split; [done|]. split; [done|].
  split; [by rewrite <- Hid|]. split; [done|]. intros a.
  rewrite (moves_money _ _ _ _ _ a Hm), Ha. unfold row_hold. simpl. rewrite Hs. simpl.
  case_decide; lia.
Qed.

(** A settlement answers only for usage it can price.  A request that is
    not final known usage is invalid; usage beyond the reserved limits is a
    conflict and the hold is kept for reconciliation; a reservation that was
    not dispatched is a conflict; and a settled one answers again exactly
    when the payload is the same. *)
Theorem settlement_refusals env ac project id row request d :
  owned project id d ac row →
  (settle_request_ok request = false → settle_money env project id request d =
     Err (Invalid "settlement requires known, nonnegative usage and a final outcome")) ∧
  (settle_request_ok request = true →
   match rv_state row with
   | Dispatched =>
       rr_input_token_limit (rv_spec row) < sr_input_tokens request ∨
       rr_output_token_limit (rv_spec row) < sr_output_tokens request →
       settle_money env project id request d = Err (Conflict
         "actual usage exceeds reserved bounds; hold retained for reconciliation")
   | Settled =>
       settle_money env project id request d =
         if decide (rv_completion row = Some (settle_json request)) then Ok (row, d)
         else Err (Conflict "settlement payload changed")
   | _ => settle_money env project id request d =
       Err (Conflict "settlement requires a dispatched reservation")
   end).
Proof.
  intros Hown. unfold settle_money. rewrite !(head_owned _ _ _ _ _ _ Hown). unfold settle_locked.
  split; intros Hok; rewrite Hok; [done|].
  destruct (rv_state row) eqn:Hs; try (by erewrite tx_bind_run).
  - intros Hb. erewrite tx_bind_run by done.
    assert (((rr_input_token_limit (rv_spec row) <? sr_input_tokens request)
      || (rr_output_token_limit (rv_spec row) <? sr_output_tokens request)) = true) as Hbig
      by (apply orb_true_iff; rewrite !Z.ltb_lt; done).
    rewrite Hbig. done.
  - erewrite tx_bind_run by done. case_decide as Hc.
    + rewrite bool_decide_eq_false_2 by (intros Hn; by apply Hn). by erewrite tx_bind_run.
    + by rewrite bool_decide_eq_true_2.
Qed.

(** *** Admission *)

(** What a new request has to be. *)
Record admissible (env : Env) (request : ReserveRequest) (ac : Account) (key : ApiKeyRow)
    (model : Model) (amount : Z) (d : Db) : Prop := {
  ra_request : reserve_request_ok request = true;
  ra_account : accounts d !! rr_project_id request = Some ac ∧
    ac_tenant_id ac = rr_tenant_id request ∧ ac_status ac = "active"%string ∧
    ac_currency ac = "CNY"%string;
  ra_key : api_keys d !! rr_api_key_id request = Some key ∧
    key_refused key request (env_now env) = false;
  ra_model : ∃ row, catalog d !! rr_model_id request = Some row ∧ ca_enabled row = true ∧
    ca_definition row = model;
  ra_context : context_refused model request = false;
  ra_unused : request_used (rr_project_id request) (rr_request_id request) d = false;
  ra_cost : usage_cost_microunits model (rr_input_token_limit request)
    (rr_output_token_limit request) = Ok amount;
  ra_balance : ac_enforce_balance ac = true → amount ≤ available (ac_id ac) d;
  ra_budget : 0 < ak_monthly_budget_amount key →
    ak_monthly_budget_amount key * MICROS_PER_MINOR_UNIT ≤ i64_max ∧
    month_spent (ak_id key) (month_floor (env_now env)) d + key_held (ak_id key) d + amount
      ≤ ak_monthly_budget_amount key * MICROS_PER_MINOR_UNIT }.

Definition new_reservation (env : Env) (ac : Account) (request : ReserveRequest) (model : Model)
    (amount : Z) : Reservation :=
  mkReservation (rr_id request) (ac_id ac) (rr_project_id request) (rr_tenant_id request)
    (rr_api_key_id request) (rr_request_id request) request model amount None Reserved None
    (env_now env) (env_now env).

Lemma reserve_head env request d :
  reserve_request_ok request = true →
  ∀ ac, accounts d !! rr_project_id request = Some ac → ac_tenant_id ac = rr_tenant_id request →
  reservations d !! rr_id request = None →
  reserve_money env request d = reserve_new env ac request d.
Proof.
  intros Hok ac Hac Ht Hn. unfold reserve_money. rewrite Hok. erewrite tx_bind_run by done.
  erewrite tx_bind_run by (by apply lock_account_run).
  rewrite (proj2 (str_eqb_eq _ _) Ht). erewrite tx_bind_run by done.
  erewrite tx_bind_run by done. by rewrite Hn.
Qed.

Lemma reserve_new_guarded env request d row d' :
  Inv d → reservations d !! rr_id request = None →
  reserve_money env request d = Ok (row, d') →
  ∃ ac key model amount, admissible env request ac key model amount d ∧
    row = new_reservation env ac request model amount ∧ Inv d' ∧
    reservations d' = <[rr_id request := row]> (reservations d) ∧
    (∀ a, booked a d' = booked a d ∧
          held a d' = held a d + (if decide (a = ac_id ac) then amount else 0)).
Proof.
  intros HI Hn Hrun.
  destruct (reserve_money_Ok _ _ _ _ _ HI Hrun) as (ac & Hac & Ht & [(Hr & _)|Had]); [congruence|].
  assert (Hok : reserve_request_ok request = true).
  { unfold reserve_money in Hrun. tx_inv Hrun. by apply negb_false_iff. }
  rewrite (reserve_head _ _ _ Hok _ Hac Ht Hn) in Hrun. unfold reserve_new in Hrun. tx_inv Hrun.
  match goal with H0 : api_keys _ !! _ = Some ?k |- _ => rename k into key, H0 into Hkey end.
  match goal with H0 : active_model _ _ = _ |- _ => apply active_model_Ok in H0 as (-> & Hmodel) end.
  match goal with H0 : usage_cost_microunits ?m _ _ = Ok ?x |- _ =>
    rename x into amount, m into model, H0 into Hcost end.
  destruct (admitted_rows _ _ _ _ _ _ Had) as (Er & El & _).
  pose proof Had as [_ _ (m0 & x0 & Erow & Hcost0) Hbal Hbud _ _].
  assert (m0 = model ∧ x0 = amount) as [-> ->].
  { match goal with H0 : insert_reservation _ _ = _ |- _ =>
      apply insert_reservation_Ok in H0 as [_ Hup%update_reservation_row] end.
    rewrite Hup in Erow. by injection Erow. }
  exists ac, key, model, amount. split; [|split; [done|split; [apply Had|split; [done|]]]].
  - match goal with H0 : negb (str_eqb (ac_status _) _) || _ = false |- _ =>
      apply orb_false_iff in H0 as [Hst%negb_false_iff%str_eqb_eq Hcu%negb_false_iff%str_eqb_eq] end.
    pose proof (co_key _ (inv_config _ _ HI) _ _ Hkey) as Hkid.
    split; try done.
    + intros Hen. specialize (Hbal Hen). rewrite Erow in Hbal. exact Hbal.
    + intros Hpos. specialize (Hbud _ Hkey Hpos). rewrite Erow in Hbud. simpl in Hbud.
      rewrite Hkid. split; [|exact Hbud].
      match goal with H0 : check_budget _ _ _ _ = _ |- _ => unfold check_budget in H0;
        rewrite (proj2 (Z.ltb_lt _ _) Hpos) in H0; tx_inv H0 end.
      match goal with H0 : checked_mul _ _ = Some _ |- _ => apply checked_mul_Some in H0 as [_ Hm] end.
      apply Hm.
  - intros b. rewrite (held_rows _ _ d _ Er). unfold booked. rewrite El. split; [done|].
    rewrite held_put by (intros old Hold; congruence).
    unfold old_hold. rewrite Hn, Erow. unfold row_hold. simpl. case_decide; lia.
Qed.

(** An admission is never free.  A request that is admitted under a new
    id came with an active account of its tenant, a live key of its project
    whose scopes and models allow it, an enabled model at the quoted price
    version with room for its tokens, and an identity that was never used;
    the price of its limits was available on a prepaid account and within
    the key's budget of the month; and exactly that amount is now held. *)
Theorem reserve_guarded env request d row d' :
  Inv d → reservations d !! rr_id request = None →
  reserve_money env request d = Ok (row, d') →
  ∃ ac key model amount, admissible env request ac key model amount d ∧
    row = new_reservation env ac request model amount ∧ Inv d' ∧
    reservations d' = <[rr_id request := row]> (reservations d) ∧
    (∀ a, booked a d' = booked a d ∧
          held a d' = held a d + (if decide (a = ac_id ac) then amount else 0)).
Proof. apply reserve_new_guarded. Qed.

(** The room an admission needs. *)
Record can_reserve (env : Env) (ac : Account) (key : ApiKeyRow) (amount : Z) (d : Db) : Prop := {
  cr_booked : fits (booked (ac_id ac) d) ∧ fits (available (ac_id ac) d);
  cr_held : held (ac_id ac) d + amount ≤ i64_max ∧ key_held (ak_id key) d + amount ≤ i64_max;
  cr_month : is_Some (month_next (month_floor (env_now env)));
  cr_spent : month_spent (ak_id key) (month_floor (env_now env)) d ≤ i64_max;
  cr_log : Z.of_nat (length (account_events (ac_id ac) d)) < i64_max }.

Lemma held_nonneg a d : Inv d → 0 ≤ held a d.
Proof.
  intros HI. apply msum_nonneg. intros k r Hr. pose proof (reserved_nonneg _ _ _ HI Hr).
  unfold account_hold. case_match; lia.
Qed.
Lemma key_held_nonneg k d : Inv d → 0 ≤ key_held k d.
Proof.
  intros HI. apply msum_nonneg. intros i r Hr. pose proof (reserved_nonneg _ _ _ HI Hr).
  unfold api_key_hold. case_match; lia.
Qed.

Lemma check_available_runs env p ac amount d :
  Inv_at p d → ac_id ac = pd_account p → pd_balance p = 0 → pd_held p = 0 → 0 ≤ amount →
  fits (booked (ac_id ac) d) → fits (held (ac_id ac) d) → fits (available (ac_id ac) d) →
  (ac_enforce_balance ac = true → amount ≤ available (ac_id ac) d) →
  runs (check_available env ac amount) d.
Proof.
  intros HI Ha Hb0 Hh0 Hpos Hb Hh Hav Hbal. unfold check_available.
  destruct (ac_enforce_balance ac); [|apply runs_ret]. specialize (Hbal eq_refl).
  apply runs_bind.
  { apply runs_bind; [by eapply account_runs|]. intros. apply runs_ret. }
  intros bh d1 H1. unfold balance_and_held in H1. tx_inv H1.
  eapply account_Ok in Htx as (_ & _ & _ & Hbr & Hhr); [|done..]. simpl.
  rewrite Hb0 in Hbr. rewrite Hh0 in Hhr. rewrite Z.add_0_r in Hbr, Hhr. rewrite Hbr, Hhr.
  apply runs_fail_if. unfold available, fits in *.
  assert (checked_sub (booked (ac_id ac) d) (held (ac_id ac) d) =
    Some (booked (ac_id ac) d - held (ac_id ac) d)) as -> by (by apply checked_sub_Some).
  simpl. assert (checked_sub (booked (ac_id ac) d - held (ac_id ac) d) amount =
    Some (booked (ac_id ac) d - held (ac_id ac) d - amount)) as ->
    by (apply checked_sub_Some; unfold i64_min in *; lia).
  apply Z.ltb_ge. lia.
Qed.

Lemma check_budget_runs env p key amount d :
  Inv_at p d → ak_id key = pd_key p → pd_month p = month_floor (env_now env) →
  pd_key_held p = 0 → pd_spent p = 0 → 0 ≤ amount →
  is_Some (month_next (month_floor (env_now env))) →
  0 ≤ month_spent (ak_id key) (month_floor (env_now env)) d ≤ i64_max →
  0 ≤ key_held (ak_id key) d ≤ i64_max →
  (0 < ak_monthly_budget_amount key →
    ak_monthly_budget_amount key * MICROS_PER_MINOR_UNIT ≤ i64_max ∧
    month_spent (ak_id key) (month_floor (env_now env)) d + key_held (ak_id key) d + amount
      ≤ ak_monthly_budget_amount key * MICROS_PER_MINOR_UNIT) →
  runs (check_budget env key amount) d.
Proof.
  intros HI Hk Hm Hh0 Hs0 Hpos Hnext Hs Hh Hb. unfold check_budget.
  destruct (Z.ltb_spec 0 (ak_monthly_budget_amount key)) as [Hbp|?]; [|apply runs_ret].
  destruct (Hb Hbp) as [Hfit Hle].
  apply runs_bind; [eapply monthly_runs; [exact HI|done|done|apply month_floor_idem|done|];
    unfold fits, i64_min; lia|].
  intros m d1 H1. eapply monthly_Ok in H1 as (HI1 & Ho1 & _ & Hms); [|exact HI|done..|apply month_floor_idem].
  apply runs_bind; [eapply key_hold_runs; [exact HI1|done|]; history Ho1; unfold fits, i64_min; lia|].
  intros kh d2 H2. eapply key_hold_Ok in H2 as (_ & _ & _ & Hkh); [|exact HI1|done].
  history Ho1. rewrite Hh0 in Hkh. rewrite Hs0 in Hms. rewrite Z.add_0_r in Hkh, Hms.
  apply runs_bind; [eapply runs_found, checked_mul_Some; split; [reflexivity|];
    unfold MICROS_PER_MINOR_UNIT, i64_min in *; lia|].
  intros b d3 H3. tx_inv H3.
  match goal with H0 : checked_mul _ _ = Some _ |- _ => apply checked_mul_Some in H0 as [-> _] end.
  apply runs_fail_if. unfold over_budget. rewrite Hms, Hkh.
  set (s := month_spent _ _ d) in *. set (h := key_held _ d) in *.
  assert (checked_add s h = Some (s + h)) as -> by (apply checked_add_Some; unfold i64_min; lia).
  simpl. assert (checked_add (s + h) amount = Some (s + h + amount)) as ->
    by (apply checked_add_Some; unfold i64_min; lia).
  apply Z.ltb_ge. lia.
Qed.

(** C33: an admission is never refused without a reason.  A request that meets
    every condition of an admission, under a new id and with room in the
    64-bit sums, is admitted at the price of its limits. *)
Theorem reserve_succeeds env request ac key model amount d :
  Inv d → reservations d !! rr_id request = None →
  admissible env request ac key model amount d → can_reserve env ac key amount d →
  ∃ d', reserve_money env request d = Ok (new_reservation env ac request model amount, d').
Proof.
  intros HI Hn [A1 (A2 & A3 & A4 & A5) (K1 & K2) (mrow & M1 & M2 & M3) A6 A7 A8 A9 A10]
    [[R1 R2] [R3 R4] R5 R6 R7].
  destruct (reserve_request_ok_nonneg _ A1) as [Hi Ho].
  destruct (co_account _ (inv_config _ _ HI) _ _ A2) as (_ & Haid & _).
  pose proof (co_key _ (inv_config _ _ HI) _ _ K1) as Hkid.
  destruct (co_catalog _ (inv_config _ _ HI) _ _ M1) as [[Hprice _]%Model_validate_Ok _].
  rewrite M3 in Hprice. pose proof (usage_cost_nonneg _ _ _ _ Hprice A8) as Hpos.
  pose proof (held_nonneg (ac_id ac) d HI). pose proof (key_held_nonneg (ak_id key) d HI).
  pose proof (month_spent_nonneg (ak_id key) (month_floor (env_now env)) d HI).
  assert (runs (reserve_money env request) d) as (row & d' & Hrun).
  { unfold runs. rewrite (reserve_head _ _ _ A1 _ A2 A3 Hn).
    apply (Inv_focus (ac_id ac) (ak_id key) (month_floor (env_now env))) in HI.
    unfold reserve_new. rewrite A4, A5. apply runs_bind; [by apply runs_fail_if|].
    intros u0 d0 Q0. tx_inv Q0. run_step. rewrite K1.
    apply runs_bind; [by eapply runs_found|]. intros k d1 Q1. tx_inv Q1. simplify_eq.
    apply runs_bind; [by apply runs_fail_if|]. intros u2 d2 Q2. tx_inv Q2.
    apply runs_bind; [eexists _, _; apply active_model_Ok; split; [reflexivity|by exists mrow]|].
    intros m d3 Q3. apply active_model_Ok in Q3 as (-> & mrow' & M1' & _ & <-). simplify_eq.
    apply runs_bind; [by apply runs_fail_if|]. intros u4 d4 Q4. tx_inv Q4. run_step.
    apply runs_bind; [by apply runs_fail_if|]. intros u5 d5 Q5. tx_inv Q5.
    rewrite A8. apply runs_bind; [apply runs_ret|]. intros x d6 Q6. tx_inv Q6. simplify_eq.
    apply runs_bind.
    { eapply check_available_runs; [exact HI|done..|lia|apply R1| |exact R2|exact A9].
      unfold fits, i64_min in *; lia. }
    intros u7 d7 Q7. eapply check_available_Ok in Q7 as (HI7 & Ho7 & _); [|exact HI|done..].
    apply runs_bind.
    { eapply check_budget_runs; [exact HI7|done..|lia|done| | |]; history Ho7; [lia|lia|exact A10]. }
    intros u8 d8 Q8. eapply check_budget_Ok in Q8 as (HI8 & Ho8 & _); [|exact HI7|done..].
    assert (projection_only d d8) as Hpo by (by rewrite Ho7).
    apply runs_bind.
    { eapply change_hold_runs; [exact HI8|done|done|..]; history Hpo; simpl;
        unfold fits, i64_min in *; lia. }
    intros u9 d9 Q9. eapply change_hold_Ok in Q9 as (HI9 & Ho9 & _); [|exact HI8|done..].
    assert (projection_only d d9) as (pb & pk & ps & ->) by (by rewrite Hpo).
    apply runs_bind.
    { unfold insert_reservation. run_step. apply runs_bind.
      - apply runs_fail_if, orb_false_iff. split; [by apply is_some_false|]. by apply orb_false_iff in A7 as [? _].
      - intros. unfold update_reservation. run_step. apply runs_ret. }
    intros r dr Qr. apply insert_reservation_Ok in Qr as [_ Qr]. unfold update_reservation in Qr. tx_inv Qr.
    apply runs_bind; [|intros; apply runs_ret].
    apply append_runs; [exact (eo_sequence _ (inv_events _ _ HI) (ac_id ac))|exact R7]. }
  exists d'. rewrite Hrun. f_equal. f_equal.
  destruct (reserve_new_guarded _ _ _ _ _ HI Hn Hrun) as (ac' & key' & model' & amount' & B & -> & _).
  destruct B as [_ (B1 & _) _ (mrow2 & N1 & _ & <-) _ _ B2 _ _]. rewrite M1 in N1. rewrite A2 in B1. injection B1 as <-. injection N1 as <-. rewrite M3 in *. rewrite A8 in B2. by injection B2 as <-.
Qed.

(** *** Retries *)

Lemma owned_kept project id d d' ac row row' :
  owned project id d ac row → accounts d' = accounts d →
  reservations d' = <[id := row']> (reservations d) → same_terms row row' →
  owned project id d' ac row'.
Proof.
  intros (Hac & Hr & Hp) Ea Er Ht. split; [by rewrite Ea|]. split; [rewrite Er; apply lookup_insert_eq|].
  by rewrite Ht.
Qed.

Lemma head_runs_owned {B} project id d (k : Account → Reservation → Tx B) b d' :
  (account ← lock_account project; row ← find_reservation project id; k account row) d = Ok (b, d') →
  ∃ ac row, owned project id d ac row.
Proof.
  intros Hrun. tx_inv Hrun.
  repeat match goal with
  | H0 : lock_account _ _ = _ |- _ => apply lock_account_Ok in H0 as [-> ?]
  | H0 : find_reservation _ _ _ = _ |- _ => apply find_reservation_Ok in H0 as (-> & ? & ?)
  end. by eexists _, _.
Qed.

Lemma retry_owned project id d d' ac row0 row :
  owned project id d ac row0 →
  (reservations d !! id = Some row ∧ d' = d ∨ ∃ r, moves id r row d d') →
  owned project id d' ac row.
Proof.
  intros Ho [[Hr ->]|(r & Hm)].
  - pose proof (proj1 (proj2 Ho)) as Hr0. rewrite Hr0 in Hr. by injection Hr as <-.
  - pose proof (mv_old _ _ _ _ _ Hm) as Hold. pose proof (proj1 (proj2 Ho)) as Hr0.
    rewrite Hr0 in Hold. injection Hold as <-.
    destruct Hm as [_ M2 M3 _ _ _ M7]. by apply (owned_kept _ _ d _ _ row0).
Qed.

(** The protocol is safe to retry.  Once a request was answered, the same
    request, at any later time, gets the same answer and changes nothing. *)
Theorem protocol_retries env env' d d' row :
  Inv d →
  (∀ request, reserve_money env request d = Ok (row, d') →
     reserve_money env' request d' = Ok (row, d')) ∧
  (∀ project id, dispatch_money env project id d = Ok (row, d') →
     dispatch_money env' project id d' = Ok (row, d')) ∧
  (∀ project id reason, release_money env project id reason d = Ok (row, d') →
     release_money env' project id reason d' = Ok (row, d')) ∧
  (∀ project id request, settle_money env project id request d = Ok (row, d') →
     settle_money env' project id request d' = Ok (row, d')).
Proof.
  intros HI. split; [|split; [|split]].
  - intros request Hrun.
    destruct (reserve_money_Ok _ _ _ _ _ HI Hrun) as (ac & Hac & Ht & Hcase).
    assert (reserve_request_ok request = true) as Hok.
    { unfold reserve_money in Hrun. tx_inv Hrun. by apply negb_false_iff. }
    assert (accounts d' !! rr_project_id request = Some ac ∧
            reservations d' !! rr_id request = Some row ∧ rv_spec row = request) as (Hac' & Hr' & Hspec).
    { destruct Hcase as [(Hr & Hs & ->)|Had]; [done|].
      destruct (admitted_rows _ _ _ _ _ _ Had) as (-> & _ & ->).
      destruct Had as [_ _ (m & x & -> & _) _ _ _ _]. split; [done|]. split; [apply lookup_insert_eq|done]. }
    unfold reserve_money. rewrite Hok. erewrite tx_bind_run by done.
    erewrite tx_bind_run by (by apply lock_account_run).
    rewrite (proj2 (str_eqb_eq _ _) Ht). erewrite tx_bind_run by done.
    erewrite tx_bind_run by done. rewrite Hr', Hspec.
    rewrite bool_decide_eq_false_2 by (intros Hn; by apply Hn). by erewrite tx_bind_run.
  - intros project id Hrun. pose proof (dispatch_money_effect _ _ _ _ _ _ HI Hrun) as (_ & Hs & Hc).
    unfold dispatch_money in *. apply head_runs_owned in Hrun as (ac & row0 & Ho).
    rewrite (head_owned _ _ _ ac row); [by rewrite Hs|].
    eapply retry_owned; [exact Ho|]. naive_solver.
  - intros project id reason Hrun.
    pose proof (release_money_effect _ _ _ _ _ _ _ HI Hrun) as (_ & Hs & Hc).
    unfold release_money in *. apply tx_bind_Ok in Hrun as (u & d1 & [Hreason ->]%fail_if_Ok & Hrun).
    apply head_runs_owned in Hrun as (ac & row0 & Ho). rewrite Hreason. erewrite tx_bind_run by done.
    rewrite (head_owned _ _ _ ac row); [by rewrite Hs|].
    eapply retry_owned; [exact Ho|]. naive_solver.
  - intros project id request Hrun.
    pose proof (settle_money_effect _ _ _ _ _ _ _ HI Hrun) as (_ & Hs & Hcomp & Hc).
    unfold settle_money in *. pose proof (head_runs_owned _ _ _ _ _ _ Hrun) as (ac & row0 & Ho).
    rewrite (head_owned _ _ _ _ _ _ Ho) in Hrun. unfold settle_locked in Hrun.
    apply tx_bind_Ok in Hrun as (u & d1 & [Hok ->]%fail_if_Ok & _).
    rewrite (head_owned _ _ _ ac row).
    + unfold settle_locked. rewrite Hok. erewrite tx_bind_run by done. rewrite Hs.
      rewrite bool_decide_eq_false_2 by (intros Hn; by apply Hn). by erewrite tx_bind_run.
    + eapply retry_owned; [exact Ho|]. naive_solver.
Qed.
End protocol.
