(* ===== verification/Service.v ===== *)
(** * Service: what holds whatever is requested

    The theorems about every sequence of operations of the service: the
    projections, the ledger, the event log and the wallet always agree, money
    that is held stays covered, and a reservation only moves forward. *)

From S2P Require Import Prelude Domain Models Store Books Catalog Projection Ledger Reservations.
From S2P Require Import Review Wallet Maintenance Lifecycle Payments Alipay Trial Worker Feed.
From S2P Require Import Billing.
Local Open Scope Z_scope.

(** ** Sequences of effects *)

(** A row that was changed without losing anything it must keep. *)
Record advanced (r r' : Reservation) : Prop := {
  av_terms : same_terms r r';
  av_step : rtc transition (rv_state r) (rv_state r');
  av_final : is_held (rv_state r) = false → r' = r }.

(** No operation of the sequence sets the balance policy of a project. *)
Definition keeps_policy (project : string) (l : list (Env * op)) : Prop :=
  Forall (λ s : Env * op, sets_policy project s.2 = false) l.

(** A row with a key that occurs once is all the rows with that key. *)
Lemma filter_unique {A} (f : A → string) (l : list A) a k :
  NoDup (f <$> l) → a ∈ l → f a = k → filter (λ x, f x = k) l = [a].
Proof.
  intros Hnd Ha <-. induction l as [|b l IH]; [by apply elem_of_nil in Ha|].
  apply NoDup_cons in Hnd as [Hout Hnd]. rewrite filter_cons.
  apply elem_of_cons in Ha as [->|Ha].
  - rewrite decide_True by done. f_equal. clear IH Hnd.
    induction l as [|c l IH]; [done|]. rewrite filter_cons, decide_False; [apply IH|]; set_solver.
  - rewrite decide_False; [by apply IH|]. intros Heq. apply Hout. rewrite Heq.
    by apply list_elem_of_fmap_2.
Qed.

Section service.
Context `{ServiceLibraries}.

Lemma serve_all_ind (R : relation Db) `{!PreOrder R} :
  (∀ d s, healthy d → R d (serve d s)) → ∀ d l, healthy d → R d (serve_all d l).
Proof.
  intros Hstep d l. revert d. induction l as [|s l IH]; intros d Hd; [reflexivity|].
  simpl. etrans; [by apply Hstep|]. by apply IH, serve_healthy.
Qed.

Lemma serve_effect d s : healthy d → serve d s = d ∨ commits d (serve d s).
Proof.
  intros Hd. destruct (serve_cases d s) as [?|[u Hrun]]; [by left|right].
  by eapply run_healthy in Hrun as [_ ?].
Qed.

(** *** Reservations *)

Lemma advanced_refl r : advanced r r.
Proof. split; [by destruct r|apply rtc_refl|done]. Qed.
Lemma same_terms_trans r1 r2 r3 : same_terms r1 r2 → same_terms r2 r3 → same_terms r1 r3.
Proof. unfold same_terms, with_state. intros E1 E2. rewrite E2, E1. done. Qed.
Lemma advanced_trans r1 r2 r3 : advanced r1 r2 → advanced r2 r3 → advanced r1 r3.
Proof.
  intros [T1 S1 F1] [T2 S2 F2]. split; [by eapply same_terms_trans|by etrans|].
  intros Hf. specialize (F1 Hf) as ->. by apply F2.
Qed.

Definition rows_advance (d d' : Db) : Prop := ∀ id r, reservations d !! id = Some r →
  ∃ r', reservations d' !! id = Some r' ∧ advanced r r'.

#[export] Instance rows_advance_preorder : PreOrder rows_advance.
Proof.
  split.
  - intros d id r Hr. exists r. split; [done|apply advanced_refl].
  - intros d1 d2 d3 H1 H2 id r Hr. destruct (H1 _ _ Hr) as (r2 & Hr2 & A2).
    destruct (H2 _ _ Hr2) as (r3 & Hr3 & A3). exists r3. split; [done|by eapply advanced_trans].
Qed.

Lemma effect_advances d d' : effect d d' → rows_advance d d'.
Proof.
  intros He id r Hr. destruct (effect_row _ _ _ _ He Hr) as (r' & Hr' & Ht & Hs & Hc).
  exists r'. split; [done|]. split; [done|by apply rtc_once|].
  intros Hf. destruct Hc as [?|[? _]]; [done|congruence].
Qed.

Lemma serve_all_advances d l : healthy d → rows_advance d (serve_all d l).
Proof.
  apply (serve_all_ind rows_advance). intros d' s Hd.
  destruct (serve_effect d' s Hd) as [->|Hc]; [reflexivity|]. apply effect_advances, Hc.
Qed.

(** *** Money *)

(** What a row still holds and what it settled for is within its amount. *)
Lemma row_claims d id r : reservation_ok d id r →
  0 ≤ rv_reserved_microunits r ∧ 0 ≤ settled_amount r ∧
  settled_amount r + row_hold r ≤ rv_reserved_microunits r ∧
  (is_held (rv_state r) = true → settled_amount r = 0).
Proof.
  intros [_ _ _ R4 R5 R6]. pose proof (usage_cost_nonneg _ _ _ _ R4 R5) as Hn.
  unfold settled_amount, row_hold.
  destruct (rv_state r); simpl in *; rewrite ?R6; simpl; try lia.
  destruct R6 as (x & u & -> & Hx & _). simpl. split; [lia|]. split; [lia|]. split; [lia|done].
Qed.

(** A move leaves an account with at least the money it had available. *)
Lemma moves_available id r r' d d' a :
  Inv d → Inv d' → moves id r r' d d' → available a d ≤ available a d'.
Proof.
  intros HI HI' [M1 M2 M3 M4 M5 M6 _]. unfold available. rewrite M6.
  rewrite (held_rows _ _ d _ M2).
  assert (rv_billing_account_id r' = rv_billing_account_id r ∧ rv_api_key_id r' = rv_api_key_id r ∧
          rv_project_id r' = rv_project_id r ∧ rv_reserved_microunits r' = rv_reserved_microunits r)
    as (A1 & A2 & A3 & A4) by (rewrite M3; done).
  rewrite held_put by (intros old Hold; rewrite M1 in Hold; injection Hold as <-; done).
  rewrite A1. case_decide; [|lia]. unfold old_hold. rewrite M1. simpl.
  destruct (row_claims _ _ _ (inv_reservations _ _ HI _ _ M1)) as (P1 & P2 & P3 & P4).
  assert (reservations d' !! id = Some r') as Hr' by (rewrite M2; apply lookup_insert_eq).
  destruct (row_claims _ _ _ (inv_reservations _ _ HI' _ _ Hr')) as (Q1 & Q2 & Q3 & Q4).
  specialize (P4 M4). assert (row_hold r = rv_reserved_microunits r) by (unfold row_hold; by rewrite M4).
  lia.
Qed.

Definition solvent (project : string) (d : Db) : Prop :=
  ∃ ac, accounts d !! project = Some ac ∧ ac_enforce_balance ac = true ∧
    0 ≤ available (account_id project) d.

(** An effect that keeps the account row keeps the account covered. *)
Lemma effect_solvent project d d' :
  Inv d → Inv d' → effect d d' → account_kept project d d' →
  solvent project d → solvent project d'.
Proof.
  intros HI HI' He Hk (ac & Hac & Hen & Hav). exists ac. split; [by apply Hk|]. split; [done|].
  destruct (co_account _ (inv_config _ _ HI) _ _ Hac) as (Hp & Hid & _).
  destruct He as [id r r' Hm _|env ac0 request row Hac0 Had|a delta [P1 P2 _ P4]|pr row Er El _ _].
  - pose proof (moves_available _ _ _ _ _ (account_id project) HI HI' Hm). lia.
  - destruct (admitted_rows _ _ _ _ _ _ Had) as (Er & El & _).
    destruct (co_account _ (inv_config _ _ HI) _ _ Hac0) as (Hp0 & Hid0 & _).
    destruct Had as [_ A2 (m & x & Erow & Hcost) A4 _ _ _].
    assert (held (account_id project) d' =
      held (account_id project) (set_reservations (<[rr_id request := row]> (reservations d)) d)) as Hh
      by (unfold held; simpl; by rewrite Er).
    unfold available, booked. rewrite El, Hh. fold (booked (account_id project) d).
    rewrite held_put by (intros old Hold; congruence).
    unfold available in Hav. case_decide as Ha; [|lia].
    assert (rv_billing_account_id row = ac_id ac0) as Hacc by (by rewrite Erow).
    assert (ac0 = ac) as ->.
    { assert (account_id project = account_id (rr_project_id request)) as E%account_id_inj
        by (rewrite Ha, Hacc; exact Hid0). congruence. }
    specialize (A4 Hen). rewrite Ha, Hacc in *. unfold old_hold. rewrite A2. simpl.
    unfold row_hold. rewrite Erow at 1. simpl. lia.
  - unfold available, held. rewrite P2, P1. fold (held (account_id project) d).
    case_decide as Ha; [|unfold available in Hav; lia]. subst a.
    destruct (Z.ltb_spec delta 0) as [Hneg|Hpos].
    + specialize (P4 _ _ Hac Hid Hen Hneg). unfold available in P4. lia.
    + unfold available in Hav. lia.
  - unfold available, booked, held in *. by rewrite Er, El.
Qed.

Lemma serve_all_solvent project d k :
  healthy d → keeps_policy project k → solvent project d → solvent project (serve_all d k).
Proof.
  intros Hd Hk. revert d Hd. induction Hk as [|s k Hs _ IH]; intros d Hd Hsol; [done|].
  simpl. apply IH; [by apply serve_healthy|].
  destruct (serve_cases d s) as [->|[u Hrun]]; [done|].
  pose proof (run_healthy _ _ _ _ _ Hd Hrun) as [Hd' Hc].
  eapply effect_solvent; [apply Hd|apply Hd'|apply Hc| |done].
  eapply run_accounts; [apply Hd|done|exact Hrun].
Qed.

(** *** The log and the reviews *)

Lemma serve_all_log d k a : healthy d → account_events a d `prefix_of` account_events a (serve_all d k).
Proof.
  intros Hd. revert d Hd. induction k as [|s k IH]; intros d Hd; simpl; [done|].
  etrans; [|by apply IH, serve_healthy].
  destruct (serve_cases d s) as [->|[u Hrun]]; [done|]. by eapply run_log.
Qed.

Definition decided_kept (d d' : Db) : Prop :=
  ∀ id w, reviews d !! id = Some w → rw_state w ≠ ReviewSubmitted → reviews d' !! id = Some w.
#[export] Instance decided_kept_preorder : PreOrder decided_kept.
Proof. split; unfold decided_kept; [naive_solver|]. intros d1 d2 d3. naive_solver. Qed.

Lemma serve_all_decided d k : healthy d → decided_kept d (serve_all d k).
Proof.
  apply (serve_all_ind decided_kept). intros d' s Hd.
  destruct (serve_effect d' s Hd) as [->|[_ _ [Hdec _]]]; [reflexivity|]. exact Hdec.
Qed.

(** ** Theorems of the service *)

(** C1: the books are right after any sequence of requests.  Every balance
    row holds the sum of the customer's ledger entries and of the live
    reservations of its account, every key row the live reservations of its
    key, and every month row the usage that the key spent in its month. *)
Theorem service_books l :
  (∀ a row, balances (service l) !! a = Some row →
     ba_balance_microunits row = booked a (service l) ∧
     ba_held_microunits row = held a (service l)) ∧
  (∀ k row, key_holds (service l) !! k = Some row →
     kh_held_microunits row = key_held k (service l)) ∧
  (∀ k m row, month_spends (service l) !! (k, m) = Some row →
     month_floor m = m ∧ ms_spent_microunits row = month_spent k m (service l)).
Proof. eapply Projected_rest, inv_projected, hl_inv, service_healthy. Qed.

Lemma zsum_le_transactions (es : list LedgerEntry) (ts : list LedgerTransaction) :
  NoDup (lt_id <$> ts) → (∀ e, e ∈ es → le_transaction_id e ∈ lt_id <$> ts) →
  zsum le_amount_microunits es =
  zsum (λ t, zsum le_amount_microunits (filter (λ e, le_transaction_id e = lt_id t) es)) ts.
Proof.
  intros Hnd Hin. induction es as [|e es IH].
  { simpl. induction ts as [|t ts IHt]; simpl; [done|]. rewrite <- IHt; [done| |set_solver].
    by apply NoDup_cons in Hnd as [_ ?]. }
  simpl zsum at 1. rewrite IH by set_solver. clear IH.
  assert (le_transaction_id e ∈ lt_id <$> ts) as He by set_solver. clear Hin.
  revert Hnd He. induction ts as [|t ts IH]; simpl; intros Hnd He; [by apply elem_of_nil in He|].
  apply NoDup_cons in Hnd as [Hout Hnd]. rewrite filter_cons. case_decide as Ht.
  - simpl. rewrite (zsum_ext (λ t0, zsum le_amount_microunits
      (filter (λ e0, le_transaction_id e0 = lt_id t0) (e :: es)))
      (λ t0, zsum le_amount_microunits (filter (λ e0, le_transaction_id e0 = lt_id t0) es)) ts); [lia|].
    intros t' Ht'. rewrite filter_cons_False; [done|]. intros Heq. apply Hout.
    rewrite <- Ht, Heq. by apply list_elem_of_fmap_2.
  - apply elem_of_cons in He as [He|He]; [done|]. rewrite <- IH by done. lia.
Qed.

(** C2: double entry.  The ledger is append-only pairs: every posted
    transaction has exactly two entries, of one account and of opposite
    amounts, every entry belongs to a transaction, and so all the entries of
    the service sum to zero. *)
Theorem service_double_entry l :
  (∀ t, t ∈ ledger_transactions (service l) → ∃ c k,
     transaction_entries (lt_id t) (service l) = [c; k] ∧
     le_billing_account_id c = le_billing_account_id k ∧
     le_amount_microunits c + le_amount_microunits k = 0) ∧
  (∀ e, e ∈ ledger_entries (service l) →
     le_transaction_id e ∈ lt_id <$> ledger_transactions (service l)) ∧
  zsum le_amount_microunits (ledger_entries (service l)) = 0.
Proof.
  destruct (inv_ledger _ _ (hl_inv _ (service_healthy l))) as [L1 L2 _ L4].
  split; [exact L4|]. split; [exact L1|].
  rewrite (zsum_le_transactions _ (ledger_transactions (service l))) by done.
  rewrite (zsum_ext _ (λ _, 0)).
  - apply zsum_zero.
  - intros t Ht. destruct (L4 _ Ht) as (c & k & E & _ & Hz). unfold transaction_entries in E.
    rewrite E. simpl. lia.
Qed.

(** C25: the event log is the history.  The events of every account are
    numbered from one without a gap, each of them agrees with the row it is
    about as the worker checks it, and later requests only append. *)
Theorem service_event_log l k a :
  ev_sequence <$> account_events a (service l) =
    seqZ 1 (Z.of_nat (length (account_events a (service l)))) ∧
  (∀ e, e ∈ events (service l) → validate_event (service l) e = Ok tt) ∧
  account_events a (service l) `prefix_of` account_events a (service (l ++ k)).
Proof.
  destruct (inv_events _ _ (hl_inv _ (service_healthy l))) as [E1 E2 _].
  split; [apply E1|]. split; [exact E2|]. rewrite service_app. apply serve_all_log, service_healthy.
Qed.

(** The trial balance.  In the books of every project the customer
    balance is what was topped up, less refunds and usage; the revenue is the
    usage; the cash is what came in less what was paid back; and the pending
    refunds are the refunds the provider has not confirmed. *)
Theorem service_trial_balance l project : trial_balance project (service l).
Proof. apply wk_trial, hl_wallet, service_healthy. Qed.

(** C24: payments and refunds.  An order is paid at most once, with its exact
    amount, and is then marked paid; and whatever was asked, a payment is
    never refunded for more than its amount. *)
Theorem service_refunds_bounded l id p :
  payments (service l) !! id = Some p →
  (∃ o, orders (service l) !! py_order_id p = Some o ∧ od_status o = "paid"%string ∧
        od_amount o = py_amount p) ∧
  (∀ j q, payments (service l) !! j = Some q → py_order_id q = py_order_id p → j = id) ∧
  0 ≤ refunded id ["pending"; "succeeded"] (service l) ≤ py_amount p.
Proof.
  intros Hp. pose proof (hl_wallet _ (service_healthy l)) as HW.
  destruct (wk_payment _ HW _ _ Hp) as (_ & _ & Ho). split; [exact Ho|]. split.
  - intros j q Hq Hj. by eapply (wk_unique _ HW).
  - split; [by apply refunded_nonneg|by apply (wk_cap _ HW)].
Qed.

(** C3: prepaid accounts stay solvent.  Once a project enforces its balance
    and what is held is covered, every further sequence of requests that does
    not change the policy keeps it so: reservations, settlements at the
    actual cost, usage, refunds and reviews never overdraw the account. *)
Theorem service_solvent l k project :
  solvent project (service l) → keeps_policy project k →
  solvent project (service (l ++ k)) ∧
  (∀ row, balances (service (l ++ k)) !! account_id project = Some row →
     ba_held_microunits row ≤ ba_balance_microunits row).
Proof.
  intros Hs Hk. assert (solvent project (service (l ++ k))) as Hs'.
  { rewrite service_app. by apply serve_all_solvent; [apply service_healthy| |]. }
  split; [done|]. intros row Hrow.
  pose proof (inv_projected _ _ (hl_inv _ (service_healthy (l ++ k)))) as Hp.
  apply Projected_rest in Hp as (Hb & _). apply Hb in Hrow as [-> ->].
  destruct Hs' as (ac & _ & _ & Hav). unfold available in Hav. lia.
Qed.

(** C21: reservations only move forward.  A reservation is never lost, its
    terms (owner, limits, price and reserved amount) never change, its state
    follows the state machine, and once it is released, settled or waived
    nothing about it changes any more. *)
Theorem service_lifecycle l k id r :
  reservations (service l) !! id = Some r →
  ∃ r', reservations (service (l ++ k)) !! id = Some r' ∧
    same_terms r r' ∧ rtc transition (rv_state r) (rv_state r') ∧
    (is_held (rv_state r) = false → r' = r).
Proof.
  intros Hr. rewrite service_app.
  destruct (serve_all_advances (service l) k (service_healthy l) id r Hr) as (r' & Hr' & [A1 A2 A3]).
  by exists r'.
Qed.

(** C20: a settled reservation is paid for exactly.  It settled for an amount
    within what it reserved, at which exactly one usage event, of its key and
    its request, is on record: the price of the reported tokens at the price
    that was frozen when it was reserved; a reservation in any other state has
    settled for nothing. *)
Theorem service_settled l id r :
  reservations (service l) !! id = Some r →
  match rv_state r with
  | Settled => ∃ amount, rv_settled_microunits r = Some amount ∧
      0 ≤ amount ≤ rv_reserved_microunits r ∧
      (∃ u, filter (λ u, us_event_id u = usage_id id) (usage_events (service l)) = [u] ∧
        us_cost_microunits u = amount ∧ us_api_key_id u = rv_api_key_id r ∧
        ∃ request, usage_reported request r u)
  | _ => rv_settled_microunits r = None
  end.
Proof.
  intros Hr. pose proof (hl_inv _ (service_healthy l)) as HI.
  pose proof (ro_settled _ _ _ (inv_reservations _ _ HI _ _ Hr)) as Hs.
  destruct (rv_state r); try done. destruct Hs as (x & u & Hx & Hb & Hu & Hid & Hk & Hc & Hq).
  exists x. split; [done|]. split; [done|]. exists u. split; [|done].
  by apply filter_unique; [apply (co_usage _ (inv_config _ _ HI))| |].
Qed.

(** C27: two people.  A decided review was decided by somebody else than its
    author, is never changed by later requests, and agrees with the
    reservation it closed: evidence settled it with exactly the proposed
    usage, and a waiver waived it. *)
Theorem service_reviews l k id w :
  reviews (service l) !! id = Some w → rw_state w ≠ ReviewSubmitted →
  reviews (service (l ++ k)) !! id = Some w ∧
  (∃ reviewer, rw_reviewed_by w = Some reviewer ∧ reviewer ≠ rw_submitted_by w) ∧
  review_closed (service (l ++ k)) w.
Proof.
  intros Hw Hs. assert (Hw' : reviews (service (l ++ k)) !! id = Some w).
  { rewrite service_app. by apply (serve_all_decided _ _ (service_healthy l)). }
  split; [done|]. pose proof (service_healthy (l ++ k)) as Hh. split.
  - pose proof (vo_people _ _ _ (inv_reviews _ _ (hl_inv _ Hh) _ _ Hw')) as Hp.
    by destruct (rw_state w).
  - by eapply rc_review; [apply Hh|].
Qed.

(** Money is only waived by review.  The hold of a waived reservation was
    given up by an approved loss waiver for this reservation, which one
    person submitted and another approved. *)
Theorem service_waivers l id r :
  reservations (service l) !! id = Some r → rv_state r = Waived →
  ∃ wid w reviewer, reviews (service l) !! wid = Some w ∧ rw_reservation_id w = id ∧
    rw_state w = ReviewWaived ∧ is_waiver (rw_evidence w) = true ∧
    rw_reviewed_by w = Some reviewer ∧ reviewer ≠ rw_submitted_by w.
Proof.
  intros Hr Hs. pose proof (service_healthy l) as Hh.
  destruct (rc_waived _ (hl_reviews _ Hh) _ _ Hr Hs) as (wid & w & Hw & Hid & Hst).
  pose proof (vo_people _ _ _ (inv_reviews _ _ (hl_inv _ Hh) _ _ Hw)) as Hp.
  pose proof (rc_review _ (hl_reviews _ Hh) _ _ Hw) as Hc. unfold review_closed in Hc.
  rewrite Hst in Hp, Hc. destruct Hp as (reviewer & Hrev & Hne). destruct Hc as [Hkind _].
  exists wid, w, reviewer. split; [done|]. split; [done|]. split; [done|].
  split; [by apply Hkind|done].
Qed.

(** C26: the worker handles every event exactly once.  For every account the
    recorded effects are those of the events up to its position, one each and
    of the same kind and content; the position is within the log, whose last
    event the job knows; and a lease covers at most a hundred next events. *)
Theorem service_worker l a j :
  jobs (service l) !! a = Some j →
  (∀ s, is_Some (effects (service l) !! (a, s)) ↔ 1 ≤ s ≤ jb_acknowledged j) ∧
  (∀ s f, effects (service l) !! (a, s) = Some f → ∃ e, e ∈ account_events a (service l) ∧
     ev_sequence e = s ∧ ef_kind f = ev_kind e ∧ ef_payload_sha256 f = event_sha256 json_sha256 e) ∧
  0 ≤ jb_acknowledged j ≤ jb_target_sequence j ∧
  jb_target_sequence j = Z.of_nat (length (account_events a (service l))) ∧
  (jb_state j = JobRunning → jb_acknowledged j < jb_lease_through j ≤ jb_acknowledged j + 100 ∧
     jb_lease_through j ≤ jb_target_sequence j).
Proof.
  intros Hj. pose proof (service_healthy l) as Hh. pose proof (hl_worker _ Hh a) as Hw.
  rewrite Hj in Hw. destruct Hw as [W1 W2 W3].
  destruct (job_bounds _ _ _ _ (hl_inv _ Hh) Hj) as [Ht Ha].
  split; [exact W1|]. split; [exact W2|]. split; [exact Ha|]. split; [exact Ht|].
  intros Hs. destruct (W3 Hs) as (_ & _ & H3 & H4). rewrite Ht. done.
Qed.
End service.
