(* ===== verification/Live.v ===== *)
(** * Live: the whole service among its gateways

    [live_step] interleaves the requests of the service, on the money and on
    the registry alike, with the gateways and the entries of World.v.  Every
    history of it is a history of the fleet and keeps the invariant of the
    service, so the theorems of Drain.v and of Service.v hold together. *)

From S2P Require Import Prelude Domain Models Routing Fleet Store Routes Clusters Pools Snapshot.
From S2P Require Import Traffic Control Sessions Registry Gate World Safety Drain Rollout Billing.
Local Open Scope Z_scope.

Section live.
Context `{ServiceLibraries}.

Definition attested_op (w : World) (o : op) : Prop :=
  match o with OnRegistry c => attested w c | _ => True end.

(** A request, committed or rolled back, at the time of its clock. *)
Definition serve_in (w : World) (s : Env * op) : World :=
  put_db (serve (w_db w) s) (env_now s.1) (w_sent w) w.

Inductive live_step (w : World) : World → Prop :=
| LiveServe s :
    w_now w ≤ env_now s.1 → attested_op w s.2 → live_step w (serve_in w s)
| LiveSnapshot env id identity snapshot token g s d' :
    w_now w ≤ env_now env →
    traffic_snapshot digest is_uuid attribution_required env id identity snapshot token (w_db w)
      = Ok (g, d') →
    gs_traffic g = Some s → live_step w (put_db d' (env_now env) (s :: w_sent w) w)
| LiveOutside w' : w_db w' = w_db w → world_step w w' → live_step w w'.

(** ** A live history is a history of the fleet *)

Lemma serve_in_step w s :
  w_now w ≤ env_now s.1 → attested_op w s.2 → world_step w (serve_in w s).
Proof.
  intros Ht Ha. unfold serve_in. destruct (serve_cases (w_db w) s) as [->|[u Hrun]].
  - by apply StepElsewhere.
  - destruct s as [env o]. simpl in *. destruct (is_registry o) eqn:Ho.
    + destruct o; try done. exact (StepControl w env _ u _ Ht Ha Hrun).
    + apply StepElsewhere; [done|]. by eapply run_keeps_registry.
Qed.

Lemma live_is_step w w' : live_step w w' → world_step w w'.
Proof. intros [s Ht Ha|env id i sn t g s d' Ht Hrun Hg|w1 _ Hs]; [by apply serve_in_step|by eapply StepSnapshot|done]. Qed.

Lemma live_reachable w : rtc live_step initial w → reachable w.
Proof. apply (rtc_subrel live_step world_step). exact live_is_step. Qed.

(** ** What the service keeps *)

Record kept (d : Db) : Prop := { kp_healthy : healthy d; kp_routes : Routes_ok (control d) }.

Lemma empty_kept : kept empty_db.
Proof. split; [apply empty_healthy|apply empty_routes_ok]. Qed.

Lemma serve_kept d s : kept d → kept (serve d s).
Proof.
  intros [Hh Hr]. split; [by apply serve_healthy|].
  destruct (serve_cases d s) as [->|[u Hrun]]; [done|]. destruct s as [env o].
  destruct (is_registry o) eqn:Ho.
  - destruct o; try done. apply control_writes in Hrun as [_ _ R]. by apply R.
  - apply run_keeps_registry in Hrun; [|done]. simpl in *. by rewrite Hrun.
Qed.

Lemma service_kept l : kept (service l).
Proof.
  assert (∀ k d, kept d → kept (serve_all d k)) as Hall; [|by apply Hall, empty_kept].
  induction k as [|s k IH]; intros d Hd; [done|]. simpl. by apply IH, serve_kept.
Qed.

(** A snapshot is one of the operations of the service. *)
Lemma snapshot_served env id identity snapshot token g d d' :
  traffic_snapshot digest is_uuid attribution_required env id identity snapshot token d = Ok (g, d') →
  d' = serve d (env, OnRegistry (SendSnapshot id identity snapshot token)).
Proof.
  intros Hrun. unfold serve, commit. cbn [run run_control fst snd]. unfold ignore, mbind, tx_bind.
  by rewrite Hrun.
Qed.

Lemma live_kept w w' : live_step w w' → kept (w_db w) → kept (w_db w').
Proof.
  intros [s _ _|env id i sn t g s d' _ Hrun _|w1 E _] Hk; simpl.
  - by apply serve_kept.
  - rewrite (snapshot_served _ _ _ _ _ _ _ _ Hrun). by apply serve_kept.
  - by rewrite E.
Qed.

Lemma live_all_kept w w' : rtc live_step w w' → kept (w_db w) → kept (w_db w').
Proof. induction 1; eauto using live_kept. Qed.

(** ** Requests one after the other *)

Fixpoint in_order (now : Z) (l : list (Env * op)) : bool :=
  match l with
  | [] => true
  | (env, o) :: l =>
      (now <=? env_now env) && match o with OnRegistry c => unattested c | _ => true end &&
      in_order (env_now env) l
  end.

Lemma live_requests l w : in_order (w_now w) l = true → rtc live_step w (foldl serve_in w l).
Proof.
  revert w. induction l as [|[env o] l IH]; intros w Hl; simpl in *; [done|].
  apply andb_prop in Hl as [[Ht%Z.leb_le Ho]%andb_prop Hl].
  eapply rtc_l; [|by apply IH]. apply LiveServe; [done|]. simpl. destruct o; try done.
  simpl. by apply unattested_ok.
Qed.

(** C28: the service is one system.  Whatever is requested of the service, on
    the money and on the registry, while its gateways and entries run on their
    own, every step is a step of the fleet (so what holds of the fleet holds of
    the running service), the books, the wallet, the event log, the worker and
    the feed stay healthy, and no route policy loses its history. *)
Theorem live_service w :
  rtc live_step initial w →
  reachable w ∧ healthy (w_db w) ∧ Routes_ok (control (w_db w)) ∧
  (∀ s w', w_now w ≤ env_now s.1 → attested_op w s.2 → w' = serve_in w s →
    world_step w w' ∧ (is_registry s.2 = false → control (w_db w') = control (w_db w)) ∧
    (is_registry s.2 = true → ledger_entries (w_db w') = ledger_entries (w_db w) ∧
      reservations (w_db w') = reservations (w_db w) ∧ events (w_db w') = events (w_db w))).
Proof.
  intros Hw. destruct (live_all_kept _ _ Hw empty_kept) as [Hh Hr].
  split; [by apply live_reachable|]. split; [done|]. split; [done|].
  intros s w' Ht Ha ->. split; [by apply serve_in_step|]. unfold serve_in. simpl.
  destruct (serve_cases (w_db w) s) as [->|[u Hrun]]; [by split_and!|]. destruct s as [env o].
  split; intros Ho; simpl in Ho.
  - by apply run_keeps_registry in Hrun.
  - destruct o; try done. apply control_writes in Hrun as [(ct & oa & co & ->) _ _]. done.
Qed.
End live.
