(* ===== verification/Platform.v ===== *)
(** * Platform: the people, the paperwork and the alerts beside the ledger

    The tables of [crates/entities] that only the console uses, and their
    operations: users and memberships, billing statements and tax requests
    ([repository.rs], [tax.rs]), audits ([audit.rs]) and alerts ([ops.rs]).
    [act] collects them with the operations of the service: every change of
    the platform is one of them. *)

From stdpp Require Import pretty.
From S2P Require Import Prelude Domain Models Store Books Catalog Projection Ledger Reservations.
From S2P Require Import Review Wallet Maintenance Lifecycle Payments Alipay Trial Worker Feed.
From S2P Require Import Snapshot Billing.
Local Open Scope string_scope.
Local Open Scope Z_scope.

(** ** Rows *)

Record UserRow := mkUserRow {
  ur_id : string;
  ur_external_subject : string;
  ur_username : string;
  ur_email : string;
  ur_status : string;
  ur_last_login_at : Z;
  ur_created_at : Z;
  ur_updated_at : Z }.

Record MembershipRow := mkMembershipRow {
  mb_id : string; mb_user_id : string; mb_tenant_id : string; mb_role : string; mb_created_at : Z }.

Record InvoiceRow := mkInvoiceRow {
  in_id : string;
  in_tenant_id : string;
  in_project_id : string;
  in_period_start : Z;
  in_period_end : Z;
  in_amount : Z;
  in_currency : string;
  in_status : string;
  in_title : string;
  in_issued_at : Z }.

Record TaxRow := mkTaxRow {
  tx_title : string; tx_taxpayer_id : option string; tx_state : string; tx_created_at : Z }.

Record AlertRow := mkAlertRow {
  al_id : string;
  al_name : string;
  al_severity : string;
  al_summary : string;
  al_state : string;
  al_starts_at : Z;
  al_ends_at : option Z;
  al_received_at : Z;
  al_acknowledged_by : option string;
  al_acknowledged_at : option Z }.

Record Platform := mkPlatform {
  core : Db;
  users : gmap string UserRow;
  memberships : gmap string MembershipRow;
  invoices : gmap string InvoiceRow;
  tax_requests : gmap string TaxRow;
  alerts : gmap string AlertRow }.

Definition empty_platform : Platform := mkPlatform empty_db ∅ ∅ ∅ ∅ ∅.

Definition set_core (v : Db) (p : Platform) : Platform :=
  mkPlatform v (users p) (memberships p) (invoices p) (tax_requests p) (alerts p).
Definition set_users (v : gmap string UserRow) (p : Platform) : Platform :=
  mkPlatform (core p) v (memberships p) (invoices p) (tax_requests p) (alerts p).
Definition set_memberships (v : gmap string MembershipRow) (p : Platform) : Platform :=
  mkPlatform (core p) (users p) v (invoices p) (tax_requests p) (alerts p).
Definition set_invoices (v : gmap string InvoiceRow) (p : Platform) : Platform :=
  mkPlatform (core p) (users p) (memberships p) v (tax_requests p) (alerts p).
Definition set_tax_requests (v : gmap string TaxRow) (p : Platform) : Platform :=
  mkPlatform (core p) (users p) (memberships p) (invoices p) v (alerts p).
Definition set_alerts (v : gmap string AlertRow) (p : Platform) : Platform :=
  mkPlatform (core p) (users p) (memberships p) (invoices p) (tax_requests p) v.

Definition rows {A} (m : gmap string A) : list A := (map_to_list m).*2.

(** ** Transactions of the platform *)

Definition PTx (A : Type) : Type := Platform → result ServiceError (A * Platform).
#[export] Instance ptx_ret : MRet PTx := λ A a p, Ok (a, p).
#[export] Instance ptx_bind : MBind PTx := λ A B k m p,
  match m p with Ok (a, q) => k a q | Err e => Err e end.
Definition pread {A} (f : Platform → result ServiceError A) : PTx A :=
  λ p, match f p with Ok a => Ok (a, p) | Err e => Err e end.
Definition pgets {A} (f : Platform → A) : PTx A := λ p, Ok (f p, p).
Definition pmodify (f : Platform → Platform) : PTx unit := λ p, Ok (tt, f p).
Definition pcheck {A} (r : result ServiceError A) : PTx A := pread (λ _, r).
Definition on_core {A} (m : Tx A) : PTx A :=
  λ p, match m (core p) with Ok (a, d) => Ok (a, set_core d p) | Err e => Err e end.

Definition settled {A} (m : PTx A) (p : Platform) : Platform :=
  match m p with Ok (_, q) => q | Err _ => p end.
Definition answered {A} (m : PTx A) (p : Platform) : result ServiceError A :=
  match m p with Ok (a, _) => Ok a | Err e => Err e end.

Lemma ptx_bind_Ok {A B} (m : PTx A) (k : A → PTx B) p b q :
  (m ≫= k) p = Ok (b, q) ↔ ∃ a p1, m p = Ok (a, p1) ∧ k a p1 = Ok (b, q).
Proof. unfold mbind, ptx_bind. destruct (m p) as [[a p1]|e]; naive_solver. Qed.
Lemma ptx_ret_Ok {A} (a b : A) p q : (mret a : PTx A) p = Ok (b, q) ↔ b = a ∧ q = p.
Proof. unfold mret, ptx_ret. naive_solver. Qed.
Lemma pgets_Ok {A} (f : Platform → A) p a q : pgets f p = Ok (a, q) ↔ a = f p ∧ q = p.
Proof. unfold pgets. naive_solver. Qed.
Lemma pmodify_Ok f p u q : pmodify f p = Ok (u, q) ↔ q = f p.
Proof. destruct u. unfold pmodify. naive_solver. Qed.
Lemma pread_Ok {A} (f : Platform → result ServiceError A) p a q : pread f p = Ok (a, q) ↔ f p = Ok a ∧ q = p.
Proof. unfold pread. destruct (f p); naive_solver. Qed.
Lemma pcheck_Ok {A} (r : result ServiceError A) p a q : pcheck r p = Ok (a, q) ↔ r = Ok a ∧ q = p.
Proof. apply pread_Ok. Qed.
Lemma on_core_Ok {A} (m : Tx A) p a q : on_core m p = Ok (a, q) ↔ ∃ d, m (core p) = Ok (a, d) ∧ q = set_core d p.
Proof. unfold on_core. destruct (m (core p)) as [[b d]|]; naive_solver. Qed.

Ltac ptx_step H :=
  lazymatch type of H with
  | mbind _ _ _ = Ok _ =>
      let a := fresh "a" in let p := fresh "p" in let H1 := fresh "Htx" in
      apply ptx_bind_Ok in H as (a & p & H1 & H); ptx_step H1; ptx_step H
  | mret _ _ = Ok _ => apply ptx_ret_Ok in H as [? ?]
  | pgets _ _ = Ok _ => apply pgets_Ok in H as [? ?]
  | pmodify _ _ = Ok _ => apply pmodify_Ok in H
  | pcheck _ _ = Ok _ => apply pcheck_Ok in H as [? ?]
  | pread _ _ = Ok _ => apply pread_Ok in H as [? ?]
  | on_core _ _ = Ok _ => let d := fresh "d" in apply on_core_Ok in H as (d & ? & ?)
  | _ => idtac
  end.
Ltac ptx_inv H := ptx_step H; subst.

(** ** Users and memberships *)

Record TenantMembership := mkTenantMembership { tm_tenant_id : string; tm_role : string }.
Record PlatformUser := mkPlatformUser {
  pu_id : string;
  pu_external_subject : string;
  pu_username : string;
  pu_email : string;
  pu_status : string;
  pu_last_login_at : Z;
  pu_created_at : Z;
  pu_updated_at : Z;
  pu_memberships : list TenantMembership }.

Definition memberships_of (user : string) (p : Platform) : list TenantMembership :=
  (λ m, mkTenantMembership (mb_tenant_id m) (mb_role m)) <$>
    order_by_text mb_tenant_id (filter (λ m, mb_user_id m = user) (rows (memberships p))).

Definition platform_user (row : UserRow) (p : Platform) : PlatformUser :=
  mkPlatformUser (ur_id row) (ur_external_subject row) (ur_username row) (ur_email row) (ur_status row)
    (ur_last_login_at row) (ur_created_at row) (ur_updated_at row) (memberships_of (ur_id row) p).

Definition list_users (p : Platform) : list PlatformUser :=
  (λ row, platform_user row p) <$> order_by_text ur_username (rows (users p)).

Definition find_membership (user tenant : string) (p : Platform) : option MembershipRow :=
  find (λ m, str_eqb (mb_user_id m) user && str_eqb (mb_tenant_id m) tenant) (rows (memberships p)).

(** The primary key, and the unique index on (user_id, tenant_id). *)
Definition insert_membership (row : MembershipRow) : PTx unit :=
  taken ← pgets (λ p, is_some (memberships p !! mb_id row)
                      || is_some (find_membership (mb_user_id row) (mb_tenant_id row) p));
  pcheck (require (negb taken) duplicate_row) ;;
  pmodify (λ p, set_memberships (<[mb_id row := row]> (memberships p)) p).

Definition set_role (id role : string) : PTx unit :=
  row ← pgets (λ p, memberships p !! id);
  row ← pcheck (ok_or row Database);
  pmodify (λ p, set_memberships
    (<[id := mkMembershipRow (mb_id row) (mb_user_id row) (mb_tenant_id row) role (mb_created_at row)]>
       (memberships p)) p).

(** Every row under its primary key: the update of an active model finds it. *)

Section identity.
(** The 22 characters of a hash that the ids are made of. *)
Variable stable_id : string → string.

Definition membership_id (user tenant : string) : string :=
  "membership-" +:+ stable_id (user +:+ ":" +:+ tenant).

(** The unique index on external_subject is kept by the lookup. *)
Definition sign_in (env : Env) (external_subject username email : string) : PTx UserRow :=
  existing ← pgets (λ p, find (λ u, str_eqb (ur_external_subject u) external_subject) (rows (users p)));
  match existing with
  | Some u =>
      let row := mkUserRow (ur_id u) (ur_external_subject u) username email (ur_status u) (env_now env)
        (ur_created_at u) (env_now env) in
      pmodify (λ p, set_users (<[ur_id u := row]> (users p)) p) ;;
      mret row
  | None =>
      let id := "user-" +:+ stable_id external_subject in
      let row := mkUserRow id external_subject username email "active" (env_now env) (env_now env)
        (env_now env) in
      taken ← pgets (λ p, is_some (users p !! id));
      pcheck (require (negb taken) duplicate_row) ;;
      pmodify (λ p, set_users (<[id := row]> (users p)) p) ;;
      mret row
  end.

Definition join (env : Env) (user tenant role : string) : PTx unit :=
  known ← pgets (find_membership user tenant);
  if is_some known then mret tt
  else insert_membership (mkMembershipRow (membership_id user tenant) user tenant role (env_now env)).

Definition sync_user (env : Env) (external_subject username email default_tenant_id : string)
    (default_role : option string) : PTx PlatformUser :=
  pcheck (require (negb (is_empty external_subject)) Unauthorized) ;;
  row ← sign_in env external_subject username email;
  match default_role with
  | Some role => join env (ur_id row) default_tenant_id role
  | None => mret tt
  end ;;
  pgets (platform_user row).
End identity.

(** ** Audits *)

Definition audit_operation (env : Env) (actor operation route : string) (payload : Json) : PTx string :=
  let id := env_uuid env 0 in
  on_core (insert_operation_audit (mkOperationAudit id actor operation route payload (env_now env))) ;;
  mret id.

(** ** Statements and tax requests *)

Record ProjectBilling := mkProjectBilling {
  pjb_project_id : string; pjb_requests : Z; pjb_input_tokens : Z; pjb_output_tokens : Z; pjb_cost : Z }.
Record BillingSummary := mkBillingSummary {
  bs_requests : Z; bs_input_tokens : Z; bs_output_tokens : Z; bs_total : Z;
  bs_projects : list ProjectBilling }.

(** Plain [i64] additions; a cost is rounded up to minor units. *)
Definition project_billing (events : list UsageRow) (project : string) : ProjectBilling :=
  let mine := filter (λ u, us_project_id u = project) events in
  mkProjectBilling project (Z.of_nat (length mine)) (wrap_i64 (zsum us_input_tokens mine))
    (wrap_i64 (zsum us_output_tokens mine)) (ceil_minor_units (wrap_i64 (zsum us_cost_microunits mine))).

Definition summarize (projects : list ProjectBilling) : BillingSummary :=
  mkBillingSummary (wrap_i64 (zsum pjb_requests projects)) (wrap_i64 (zsum pjb_input_tokens projects))
    (wrap_i64 (zsum pjb_output_tokens projects)) (wrap_i64 (zsum pjb_cost projects)) projects.

(** The usage of a period, of one project or of all. *)
Definition in_period (project : option string) (start finish : Z) (u : UsageRow) : bool :=
  (start <=? us_occurred_at u) && (us_occurred_at u <? finish)
  && match project with
     | Some id => is_empty id || str_eqb (us_project_id u) id
     | None => true
     end.

Definition billing_summary (project : option string) (start finish : Z) (p : Platform)
    : result ServiceError BillingSummary :=
  require (start <? finish) (Invalid "to must be after from") ;;
  let events := filter (λ u, in_period project start finish u = true) (usage_events (core p)) in
  let ids := order_by_text id (elements (list_to_set (C := gset string) (us_project_id <$> events))) in
  mret (summarize (project_billing events <$> ids)).

Record CreateInvoiceRequest := mkCreateInvoice {
  cir_id : string; cir_tenant_id : string; cir_project_id : string;
  cir_period_start : Z; cir_period_end : Z; cir_title : string }.

(** The primary key. *)
Definition insert_invoice (row : InvoiceRow) : PTx InvoiceRow :=
  taken ← pgets (λ p, is_some (invoices p !! in_id row));
  pcheck (require (negb taken) duplicate_row) ;;
  pmodify (λ p, set_invoices (<[in_id row := row]> (invoices p)) p) ;;
  mret row.

Record TaxRequest := mkTaxRequest { tr_title : string; tr_taxpayer_id : option string }.

(** A control character: C0, delete, or C1, which takes two bytes. *)
Fixpoint has_control (s : string) : bool :=
  match s with
  | EmptyString => false
  | String a s =>
      in_range 0 31 a || in_range 127 127 a
      || match s with String b _ => in_range 194 194 a && in_range 128 159 b | EmptyString => false end
      || has_control s
  end.

Definition taxpayer_ok (o : option string) : bool :=
  match o with
  | Some v => negb (is_empty v) && (str_len v <=? 32)
              && bytes_all (λ c, is_ascii_digit c || is_ascii_lowercase c || is_ascii_uppercase c) v
  | None => true
  end.

Definition request_tax_invoice (env : Env) (id : string) (r : TaxRequest) : PTx unit :=
  pcheck (require (negb (is_blank (tr_title r)) && (str_len (tr_title r) <=? 256)
                   && negb (has_control (tr_title r)) && taxpayer_ok (tr_taxpayer_id r))
    (Invalid "invalid bounded invoice title or taxpayer identity")) ;;
  invoice ← pgets (λ p, invoices p !! id);
  invoice ← pcheck (ok_or invoice NotFound);
  pcheck (require (str_eqb (in_currency invoice) "CNY" && (0 <? in_amount invoice))
    (Conflict "positive CNY billing statement required")) ;;
  prior ← pgets (λ p, tax_requests p !! id);
  match prior with
  | Some prior =>
      pcheck (require (str_eqb (tx_title prior) (tr_title r)
                       && bool_decide (tx_taxpayer_id prior = tr_taxpayer_id r))
        (Conflict "tax request identity already bound; provider correction workflow required"))
  | None =>
      pmodify (λ p, set_tax_requests (<[id :=
        mkTaxRow (tr_title r) (tr_taxpayer_id r) "pending_provider" (env_now env)]> (tax_requests p)) p)
  end.

(** The state, and when it was requested; nothing is ever issued. *)
Definition tax_request_status (id : string) (p : Platform) : string * option Z :=
  match tax_requests p !! id with
  | Some row => (tx_state row, Some (tx_created_at row))
  | None => ("not_requested", None)
  end.

(** ** Reconciliation *)

Record Settlement := mkSettlement { st_provider_reference : string; st_amount : Money }.
Record ReconcileRequest := mkReconcile {
  rq_tenant_id : string; rq_provider : string; rq_settlements : list Settlement }.
Record ReconciliationReport := mkReport {
  rp_matched : Z; rp_platform_only : list string; rp_provider_only : list string;
  rp_amount_mismatches : gmap string Z }.

(** A reference occurs once for a provider. *)
Definition platform_amounts (tenant provider : string) (p : Platform) : gmap string Z :=
  list_to_map (reverse ((λ y, (py_provider_reference y, py_amount y)) <$>
    filter (λ y, py_provider y = provider ∧ py_status y = "succeeded" ∧
                 od_tenant_id <$> orders (core p) !! py_order_id y = Some tenant) (rows (payments (core p))))).

Fixpoint provider_amounts (l : list Settlement) (m : gmap string Z) : result ServiceError (gmap string Z) :=
  match l with
  | [] => mret m
  | s :: l =>
      match validate_money (st_amount s) with
      | Ok _ => provider_amounts l (<[st_provider_reference s := money_amount (st_amount s)]> m)
      | Err e => Err (ServiceError_from e)
      end
  end.

Definition keys_in_order (m : gmap string Z) : list string := order_by_text id (map_to_list m).*1.

Definition reconcile (r : ReconcileRequest) (p : Platform) : result ServiceError ReconciliationReport :=
  require (negb (is_blank (rq_tenant_id r)) && negb (is_blank (rq_provider r)))
    (Invalid "tenant_id and provider are required") ;;
  let platform := platform_amounts (rq_tenant_id r) (rq_provider r) p in
  provider ← provider_amounts (rq_settlements r) ∅;
  mret (mkReport
    (Z.of_nat (size (filter (λ x, provider !! x.1 = Some x.2) platform)))
    (keys_in_order (filter (λ x, provider !! x.1 = None) platform))
    (keys_in_order (filter (λ x, platform !! x.1 = None) provider))
    (merge (λ a b, match a, b with
                   | Some a, Some b => if a =? b then None else Some (wrap_i64 (b - a))
                   | _, _ => None
                   end) platform provider)).

(** ** Alerts *)

Record Alert := mkAlert {
  at_status : string;
  at_labels : gmap string string;
  at_annotations : gmap string string;
  at_starts_at : Z;
  at_ends_at : Z;
  at_fingerprint : string }.
Record Webhook := mkWebhook { wh_alerts : list Alert; wh_truncated_alerts : Z }.

Definition bounded_fields (key value : Z) (m : gmap string string) : bool :=
  forallb (λ f, (str_len f.1 <=? key) && (str_len f.2 <=? value)) (map_to_list m).

Definition Alert_validate (now : Z) (a : Alert) : result ServiceError unit :=
  require (str_in (at_status a) ["firing"; "resolved"]
           && (str_len (at_fingerprint a) =? 16) && bytes_all is_ascii_hexdigit (at_fingerprint a)
           && match at_labels a !! "alertname" with
              | Some v => String.prefix "XScope" v && (str_len v <=? 128)
              | None => false
              end
           && (Z.of_nat (size (at_labels a)) <=? 32) && (Z.of_nat (size (at_annotations a)) <=? 16)
           && bounded_fields 128 2048 (at_labels a) && bounded_fields 128 4096 (at_annotations a)
           && (at_starts_at a <=? now + 300000000)
           && negb (str_eqb (at_status a) "resolved" && (at_ends_at a <? at_starts_at a)))
    (Invalid "invalid bounded XScope alert notification").

Section alerts.
Context `{ProviderLibraries}.

(** [timestamp_millis] of a time in microseconds. *)
Definition alert_id (a : Alert) : string :=
  sha256_hex (str_lowercase (at_fingerprint a) +:+ ":" +:+ pretty (at_starts_at a `div` 1000)).

(** One alert an id: the first, or the last that is resolved. *)
Fixpoint by_id (l : list Alert) (m : gmap string Alert) : gmap string Alert :=
  match l with
  | [] => m
  | a :: l =>
      by_id l (match m !! alert_id a with
               | Some _ => if str_eqb (at_status a) "resolved" then <[alert_id a := a]> m else m
               | None => <[alert_id a := a]> m
               end)
  end.

Definition severity_of (a : Alert) : string :=
  match at_labels a !! "severity" with
  | Some v => if str_in v ["critical"; "warning"; "info"] then v else "warning"
  | None => "warning"
  end.

Definition alert_row (env : Env) (id : string) (a : Alert) : AlertRow :=
  mkAlertRow id (default "" (at_labels a !! "alertname")) (severity_of a)
    (default "" (at_annotations a !! "summary")) (at_status a) (at_starts_at a)
    (if str_eqb (at_status a) "resolved" then Some (at_ends_at a) else None) (env_now env) None None.

(** Insert unless it is there; then a late [resolved] resolves it. *)
Definition upsert_alert (env : Env) (id : string) (a : Alert) (m : gmap string AlertRow) : gmap string AlertRow :=
  let old := default (alert_row env id a) (m !! id) in
  if str_eqb (at_status a) "resolved" && negb (str_eqb (al_state old) "resolved") then
    <[id := mkAlertRow (al_id old) (al_name old) (al_severity old) (al_summary old) "resolved"
       (al_starts_at old) (Some (at_ends_at a)) (env_now env) (al_acknowledged_by old)
       (al_acknowledged_at old)]> m
  else <[id := old]> m.

Definition receive_alerts (env : Env) (w : Webhook) : PTx unit :=
  pcheck (require ((Z.of_nat (length (wh_alerts w)) <=? 100) && (wh_truncated_alerts w =? 0))
    (Invalid "alert batch must contain at most 100 complete alerts")) ;;
  pcheck (foldr (λ a r, Alert_validate (env_now env) a ;; r) (Ok tt) (wh_alerts w)) ;;
  let batch := by_id (wh_alerts w) ∅ in
  pmodify (λ p, set_alerts
    (foldl (λ m x, upsert_alert env x.1 x.2 m) (alerts p) (order_by_text fst (map_to_list batch))) p).
End alerts.

Definition acknowledge_alert (env : Env) (id actor reason : string) : PTx unit :=
  pcheck (require (negb (is_blank reason) && (str_len reason <=? 1024))
    (Invalid "bounded acknowledgement reason required")) ;;
  row ← pgets (λ p, alerts p !! id);
  row ← pcheck (ok_or row NotFound);
  if is_some (al_acknowledged_at row) then mret tt
  else
    pmodify (λ p, set_alerts (<[id := mkAlertRow (al_id row) (al_name row) (al_severity row)
      (al_summary row) (al_state row) (al_starts_at row) (al_ends_at row) (al_received_at row)
      (Some actor) (Some (env_now env))]> (alerts p)) p) ;;
    on_core (insert_operation_audit (mkOperationAudit (env_uuid env 0) actor "alert.acknowledge" id
      (JObj [("reason", JStr reason)]) (env_now env))).

(** ** Pages *)

(** At most [limit] rows after a key, and the key of the last if there are more. *)
Definition page_of {A} (key : A → string) (after : option string) (limit : Z) (l : list A) : list A * option string :=
  let rest := filter (λ a, match after with Some k => String.ltb k (key a) | None => true end = true)
                (order_by_text key l) in
  let page := take (Z.to_nat limit) rest in
  (page, if limit <? Z.of_nat (length rest) then key <$> last page else None).

Record AlertQuery := mkAlertQuery { aq_after : option string; aq_state : option string }.

Definition ops_alerts (q : AlertQuery) (p : Platform) : result ServiceError (list AlertRow * option string) :=
  require (match aq_state q with Some v => str_in v ["firing"; "resolved"] | None => true end
           && match aq_after q with
              | Some v => (str_len v =? 64) && bytes_all is_ascii_hexdigit v
              | None => true
              end) (Invalid "invalid alert page") ;;
  mret (page_of al_id (aq_after q) 50
    (filter (λ a, match aq_state q with Some v => str_eqb (al_state a) v | None => true end = true) (rows (alerts p)))).

Record AuditQuery := mkAuditQuery { uq_after : option string; uq_limit : option Z }.

Definition list_operation_audits (is_uuid : string → bool) (q : AuditQuery) (p : Platform)
    : result ServiceError (list OperationAudit * option string) :=
  let limit := default 50 (uq_limit q) in
  require ((1 <=? limit) && (limit <=? 100)
           && match uq_after q with Some id => is_uuid id | None => true end)
    (Invalid "invalid audit page") ;;
  mret (page_of oa_id (uq_after q) limit (operation_audits (core p))).

(** ** Every change of the platform *)

(** The SHA-256 of the ids, the base64 text of a secret hash, and the
    libraries of the service. *)
Class PlatformLibraries := {
  platform_service :: ServiceLibraries;
  stable_id : string → string;
  base64 : string → string }.

Inductive act : Type → Type :=
| OnCore (o : op) : act unit
| AccountOf (project : string) : act Account
| BalanceOf (project : string) : act (bool * Z)
| SpendOf (project key : string) : act Z
| BeginCheckout (id : string) (p : Provider) : act (option Json * Z)
| SyncUser (external_subject username email default_tenant_id : string) (default_role : option string)
    : act PlatformUser
| InsertMembership (row : MembershipRow) : act unit
| SetRole (id role : string) : act unit
| AuditOperation (actor operation route : string) (payload : Json) : act string
| InsertInvoice (row : InvoiceRow) : act InvoiceRow
| RequestTaxInvoice (id : string) (r : TaxRequest) : act unit
| ReceiveAlerts (w : Webhook) : act unit
| AcknowledgeAlert (id actor reason : string) : act unit.

Section platform.
Context `{PlatformLibraries}.

Definition perform {A} (env : Env) (a : act A) : PTx A :=
  match a in act A return PTx A with
  | OnCore o => on_core (run env o)
  | AccountOf project => on_core (ensure_account_for_project env project)
  | BalanceOf project => on_core (project_balance env project)
  | SpendOf project key => on_core (projected_spend env project key (month_floor (env_now env)))
  | BeginCheckout id p => on_core (alipay_checkout_open env id p)
  | SyncUser subject username email tenant role => sync_user stable_id env subject username email tenant role
  | InsertMembership row => insert_membership row
  | SetRole id role => set_role id role
  | AuditOperation actor operation route payload => audit_operation env actor operation route payload
  | InsertInvoice row => insert_invoice row
  | RequestTaxInvoice id r => request_tax_invoice env id r
  | ReceiveAlerts w => receive_alerts env w
  | AcknowledgeAlert id actor reason => acknowledge_alert env id actor reason
  end.

(** A change that somebody makes. *)
Inductive change :=
| Change {A : Type} (env : Env) (a : act A).
Definition apply_change (p : Platform) (x : change) : Platform :=
  match x with Change env a => settled (perform env a) p end.
Definition changes (l : list change) (p : Platform) : Platform := foldl apply_change p l.

(** ** Programs

    A handler of the console is a sequence of statements, each a transaction
    of its own: what it read may have changed when it writes. *)

Inductive Program (A : Type) : Type :=
| Answer (r : result ServiceError A)
| Read {B : Type} (f : Platform → result ServiceError B) (k : result ServiceError B → Program A)
| Perform {B : Type} (env : Env) (a : act B) (k : result ServiceError B → Program A).
Arguments Answer {A} r.
Arguments Read {A B} f k.
Arguments Perform {A B} env a k.

Fixpoint program_bind {A B} (k : A → Program B) (m : Program A) : Program B :=
  match m with
  | Answer (Ok a) => k a
  | Answer (Err e) => Answer (Err e)
  | Read f c => Read f (λ r, program_bind k (c r))
  | Perform env a c => Perform env a (λ r, program_bind k (c r))
  end.
#[export] Instance program_ret : MRet Program := λ A a, Answer (Ok a).
#[export] Instance program_mbind : MBind Program := λ A B k m, program_bind k m.

(** The outcome of a program, whatever it is. *)
Fixpoint attempt {A} (m : Program A) : Program (result ServiceError A) :=
  match m with
  | Answer r => Answer (Ok r)
  | Read f c => Read f (λ r, attempt (c r))
  | Perform env a c => Perform env a (λ r, attempt (c r))
  end.

Definition reads {A} (f : Platform → result ServiceError A) : Program A := Read f Answer.
Definition performs {A} (env : Env) (a : act A) : Program A := Perform env a Answer.
Definition checks {A} (r : result ServiceError A) : Program A := Answer r.

(** A program alone: what it answers, and the platform after it. *)
Fixpoint alone {A} (m : Program A) (p : Platform) : result ServiceError A * Platform :=
  match m with
  | Answer r => (r, p)
  | Read f k => alone (k (f p)) p
  | Perform env a k => alone (k (answered (perform env a) p)) (settled (perform env a) p)
  end.

(** A change, with the platform it is made on. *)
Record performed := mkPerformed { pe_change : change; pe_before : Platform }.

(** A program among others: between its statements, and before the first,
    [others] may change the platform. *)
Section among.
Variable others : relation Platform.

Fixpoint among {A} (m : Program A) (p : Platform) (l : list performed) (r : result ServiceError A)
    (q : Platform) : Prop :=
  ∃ p1, rtc others p p1 ∧
  match m with
  | Answer r' => r = r' ∧ l = [] ∧ q = p1
  | Read f k => among (k (f p1)) p1 l r q
  | Perform env a k => ∃ l', l = mkPerformed (Change env a) p1 :: l' ∧
      among (k (answered (perform env a) p1)) (settled (perform env a) p1) l' r q
  end.
End among.

(** Anybody may change the platform by an act. *)
Definition anybody (p q : Platform) : Prop := ∃ x, q = apply_change p x.
End platform.
Arguments Answer {A} r.
Arguments Read {A B} f k.
Arguments Perform {A B} env a k.
