(* ===== verification/Lists.v ===== *)
(** * Lists: what the console reads

    The read-only queries of [crates/control-plane/src/repository.rs]: rows in
    the order of the source, as the console shows them. *)

From S2P Require Import Prelude Domain Models Routing Fleet Store Books Catalog Projection Ledger.
From S2P Require Import Reservations Wallet Platform.
Local Open Scope Z_scope.

Definition project_from_row (row : ProjectRow) : Project := mkProject (pj_id row) (pj_tenant_id row) (pj_name row).
Definition list_projects (p : Platform) : list Project :=
  project_from_row <$> order_by_text pj_id (rows (projects (core p))).

Definition get_project (id : string) (p : Platform) : result ServiceError Project :=
  ok_or (project_from_row <$> projects (core p) !! id) NotFound.

(** A key without its secret. *)
Record ApiKey := mkApiKey {
  ap_id : string; ap_tenant_id : string; ap_project_id : string; ap_name : string;
  ap_scopes : list string; ap_allowed_models : list string; ap_expires_at : option Z;
  ap_rate_limit_rpm : Z; ap_rate_limit_tpm : Z; ap_monthly_budget : Money;
  ap_created_at : Z; ap_revoked_at : option Z; ap_status : KeyStatus }.

Definition api_key_from_row (now : Z) (row : ApiKeyRow) : ApiKey :=
  mkApiKey (ak_id row) (ak_tenant_id row) (ak_project_id row) (ak_name row) (ak_scopes row)
    (ak_allowed_models row) (ak_expires_at row) (ak_rate_limit_rpm row) (ak_rate_limit_tpm row)
    (mkMoney (ak_currency row) (ak_monthly_budget_amount row)) (ak_created_at row) (ak_revoked_at row)
    (key_status (ak_revoked_at row) (ak_expires_at row) now).

Definition list_api_keys (now : Z) (p : Platform) : list ApiKey :=
  api_key_from_row now <$> order_by_text ak_id (rows (api_keys (core p))).

Definition newest_first {A} (f : A → Z) (l : list A) : list A := reverse (order_by f l).

Definition list_orders (p : Platform) : list Order := newest_first od_created_at (rows (orders (core p))).
Definition list_payments (p : Platform) : list Payment := newest_first py_created_at (rows (payments (core p))).
Definition list_refunds (p : Platform) : list Refund := newest_first rf_created_at (rows (refunds (core p))).
Definition list_invoices (p : Platform) : list InvoiceRow := newest_first in_issued_at (rows (invoices p)).
Definition list_ledger (p : Platform) : list (LedgerTransaction * list LedgerEntry) :=
  (λ t, (t, order_by_text le_id (filter (λ e, le_transaction_id e = lt_id t) (ledger_entries (core p))))) <$>
    newest_first lt_created_at (ledger_transactions (core p)).

Definition payment_order (id : string) (p : Platform) : result ServiceError Order :=
  ok_or (orders (core p) !! id) NotFound.
Definition find_payment (id : string) (p : Platform) : result ServiceError Payment :=
  ok_or (payments (core p) !! id) NotFound.
Definition refund_payment (id : string) (p : Platform) : result ServiceError Payment :=
  row ← ok_or (refunds (core p) !! id) NotFound;
  find_payment (rf_payment_id row) p.
Definition statement (id : string) (p : Platform) : result ServiceError InvoiceRow :=
  ok_or (invoices p !! id) NotFound.

(** A transaction of the service that only reads. *)
Definition queries {A} (m : Tx A) (p : Platform) : result ServiceError A :=
  match m (core p) with Ok (a, _) => Ok a | Err e => Err e end.

Definition find_by {A} (f : A → string) (id : string) (l : list A) : result ServiceError A :=
  ok_or (find (λ a, str_eqb (f a) id) l) NotFound.
