(* ===== verification/Console.v ===== *)
(** * Console: what people may do, and how

    [crates/control-plane/src/api.rs]: the handlers of the console with the
    checks they make before they act, and the middlewares in front of them:
    who signs in, what is recorded before and after, and the tokens of the
    internal routes.  A handler is a program (Platform.v): every statement is a
    transaction of its own.  What the network of the payment provider answers
    and the headers of the identity proxy are arguments; the texts of answers
    are left out where a handler only passes on what its operation returned. *)

From S2P Require Import Prelude Http Domain Models Routing Fleet Store Books Catalog Projection Ledger.
From S2P Require Import Reservations Review Wallet Routes Clusters Pools Snapshot Traffic Control.
From S2P Require Import Maintenance Lifecycle Payments Alipay Trial Worker Feed Billing Platform Lists.
Local Open Scope string_scope.
Local Open Scope Z_scope.

(** ** Who asks *)

Record Config := mkConfig {
  cf_internal_token : string;
  cf_alert_webhook_token : option string;
  cf_console_auth : bool;
  cf_default_tenant_id : string;
  cf_auto_join_default_tenant : bool;
  cf_bootstrap_admin_users : list string;
  cf_platform_admin_subjects : list string;
  cf_billing_reviewer_subjects : list string;
  cf_route_pools : list RoutePool;
  cf_alipay : option AlipayConfig }.

Record UserContext := mkUserContext { uc_user : PlatformUser; uc_auth_disabled : bool }.

Definition can_access (c : UserContext) (tenant : string) : bool :=
  uc_auth_disabled c || existsb (λ m, str_eqb (tm_tenant_id m) tenant) (pu_memberships (uc_user c)).
Definition is_owner (c : UserContext) : bool :=
  uc_auth_disabled c || existsb (λ m, str_eqb (tm_role m) "owner") (pu_memberships (uc_user c)).
Definition can_manage (c : UserContext) (tenant : string) : bool :=
  uc_auth_disabled c
  || existsb (λ m, str_eqb (tm_tenant_id m) tenant && str_eqb (tm_role m) "owner") (pu_memberships (uc_user c)).

Definition require_tenant (c : UserContext) (tenant : string) : result ServiceError unit :=
  require (can_access c tenant) Forbidden.
Definition require_owner (c : UserContext) : result ServiceError unit := require (is_owner c) Forbidden.
Definition require_tenant_owner (c : UserContext) (tenant : string) : result ServiceError unit :=
  require (can_manage c tenant) Forbidden.

Definition platform_admin (cfg : Config) (c : UserContext) : result ServiceError unit :=
  require (uc_auth_disabled c || str_in (pu_external_subject (uc_user c)) (cf_platform_admin_subjects cfg))
    Forbidden.
Definition is_billing_reviewer (cfg : Config) (c : UserContext) : bool :=
  negb (uc_auth_disabled c) && str_in (pu_external_subject (uc_user c)) (cf_billing_reviewer_subjects cfg).

Definition require_idempotency_key (h : Headers) : result ServiceError string :=
  let key := default "" (header_str "idempotency-key" h) in
  require ((16 <=? str_len key) && (str_len key <=? 128)) (Invalid "Idempotency-Key must be 16 to 128 bytes") ;;
  mret key.

Section console.
Context `{PlatformLibraries}.
Variable (cfg : Config).

(** The clock and the random identifiers of a statement. *)
Variable (env : nat → Env).

Definition authorize_project (c : UserContext) (project : string) : Program unit :=
  projects ← reads (λ p, Ok (Lists.list_projects p));
  project ← checks (find_by prj_id project projects);
  checks (require_tenant c (prj_tenant_id project)).
Definition authorize_project_owner (c : UserContext) (project : string) : Program unit :=
  projects ← reads (λ p, Ok (Lists.list_projects p));
  project ← checks (find_by prj_id project projects);
  checks (require_tenant_owner c (prj_tenant_id project)).
Definition authorize_billing_review_read (c : UserContext) (project : string) : Program unit :=
  if is_billing_reviewer cfg c then mret tt else authorize_project_owner c project.

Definition on_service (n : nat) (o : op) : Program unit := performs (env n) (OnCore o).
Definition on_registry (n : nat) (o : control_op) : Program unit := on_service n (OnRegistry o).

(** *** People *)

(** The users of the tenants that the caller manages, in these tenants. *)
Definition managed_users (c : UserContext) (l : list PlatformUser) : list PlatformUser :=
  filter (λ u, pu_memberships u ≠ [])
    ((λ u, mkPlatformUser (pu_id u) (pu_external_subject u) (pu_username u) (pu_email u) (pu_status u)
       (pu_last_login_at u) (pu_created_at u) (pu_updated_at u)
       (filter (λ m, can_manage c (tm_tenant_id m) = true) (pu_memberships u))) <$> l).

Definition list_users (c : UserContext) : Program (list PlatformUser) :=
  checks (require_owner c) ;;
  users ← reads (λ p, Ok (Platform.list_users p));
  mret (managed_users c users).

Definition owners_of (tenant : string) (p : Platform) : list MembershipRow :=
  filter (λ m, mb_tenant_id m = tenant ∧ mb_role m = "owner") (rows (memberships p)).

(** [Repository::update_membership]: statements without a transaction. *)
Definition change_membership (user tenant role : string) : Program PlatformUser :=
  checks (require (str_in role ["owner"; "member"]) (Invalid "membership role must be owner or member")) ;;
  _ ← reads (λ p, ok_or (users p !! user) NotFound);
  existing ← reads (λ p, Ok (find_membership user tenant p));
  match existing with
  | Some existing =>
      (if str_eqb (mb_role existing) "owner" && negb (str_eqb role "owner") then
         owners ← reads (λ p, Ok (owners_of tenant p));
         checks (require (1 <? Z.of_nat (length owners)) (Conflict "a tenant must keep at least one owner"))
       else mret tt) ;;
      performs (env 0) (SetRole (mb_id existing) role)
  | None =>
      performs (env 0) (InsertMembership
        (mkMembershipRow (membership_id stable_id user tenant) user tenant role (env_now (env 0))))
  end ;;
  users ← reads (λ p, Ok (Platform.list_users p));
  checks (find_by pu_id user users).

Definition update_membership (c : UserContext) (user tenant role : string) : Program PlatformUser :=
  checks (require_tenant_owner c tenant) ;;
  change_membership user tenant role.

(** *** Projects, keys and policies *)

Definition list_projects (c : UserContext) : Program (list Project) :=
  projects ← reads (λ p, Ok (Lists.list_projects p));
  mret (filter (λ project, can_access c (prj_tenant_id project) = true) projects).

Definition create_project (c : UserContext) (h : Headers) (project : Project) : Program unit :=
  _ ← checks (require_idempotency_key h);
  checks (require_tenant c (prj_tenant_id project)) ;;
  on_service 0 (CreateProject project).

Definition list_api_keys (c : UserContext) : Program (list ApiKey) :=
  keys ← reads (λ p, Ok (Lists.list_api_keys (env_now (env 0)) p));
  mret (filter (λ key, can_access c (ap_tenant_id key) = true) keys).

Definition create_api_key (c : UserContext) (h : Headers) (r : ApiKeyRequest) (random : string) : Program unit :=
  _ ← checks (require_idempotency_key h);
  checks (require_tenant c (akr_tenant_id r)) ;;
  on_service 0 (IssueApiKey r random).

Definition revoke_api_key (c : UserContext) (id : string) : Program unit :=
  keys ← reads (λ p, Ok (Lists.list_api_keys (env_now (env 0)) p));
  key ← checks (find_by ap_id id keys);
  checks (require_tenant c (ap_tenant_id key)) ;;
  on_service 1 (RevokeApiKey id).

Definition list_route_policies (c : UserContext) : Program (list RoutePolicy) :=
  policies ← reads (queries Snapshot.list_route_policies);
  mret (filter (λ policy, can_access c (rt_tenant_id policy) = true) policies).

Definition put_route_policy (c : UserContext) (project model : string) (r : PutRoutePolicy) : Program unit :=
  project ← reads (get_project project);
  checks (require (can_manage c (prj_tenant_id project)) Forbidden) ;;
  pools ← reads (queries (route_pools (cf_route_pools cfg)));
  on_registry 0 (PutRoute project model r pools (pu_id (uc_user c)) "put").

Definition release_action (c : UserContext) (project model : string) (action : ReleaseAction) : Program unit :=
  project ← reads (get_project project);
  checks (require (can_manage c (prj_tenant_id project)) Forbidden) ;;
  pools ← reads (queries (route_pools (cf_route_pools cfg)));
  on_registry 0 (ReleaseRoute project model action pools (pu_id (uc_user c))).

Definition route_history (c : UserContext) (project model : string) (q : HistoryQuery)
    : Program (option Z * list (Z * RouteRevision)) :=
  row ← reads (get_project project);
  checks (require_tenant c (prj_tenant_id row)) ;;
  reads (queries (Routes.route_history project model q)).

Definition route_acks (c : UserContext) (project model : string) : Program (Z * bool * list RouteAck) :=
  project ← reads (get_project project);
  checks (require (can_manage c (prj_tenant_id project)) Forbidden) ;;
  reads (queries (Traffic.route_acks (prj_id project) model)).

(** *** Usage and accounts *)

(** The rows of a summary that the caller may see, summed again. *)
Definition visible (projects : list string) (s : BillingSummary) : BillingSummary :=
  summarize (filter (λ item, pjb_project_id item ∈ projects) (bs_projects s)).

Definition accessible_projects (c : UserContext) (l : list Project) : list string :=
  prj_id <$> filter (λ project, can_access c (prj_tenant_id project) = true) l.

Definition billing_summary (c : UserContext) (project : option string) (from to : option Z)
    : Program BillingSummary :=
  match project with
  | Some id => if is_empty id then mret tt else authorize_project c id
  | None => mret tt
  end ;;
  let start := default (month_floor (env_now (env 0))) from in
  finish ← checks (match to with
                   | Some t => Ok t
                   | None => ok_or (month_next (month_floor start)) (Internal "could not construct next month")
                   end);
  summary ← reads (Platform.billing_summary project start finish);
  projects ← reads (λ p, Ok (Lists.list_projects p));
  mret (visible (accessible_projects c projects) summary).

(** [Repository::billing_account] *)
Definition billing_account (n : nat) (project : string) : Program (Account * Z) :=
  row ← performs (env n) (AccountOf project);
  balance ← performs (env (S n)) (BalanceOf project);
  mret (row, floor_minor_units balance.2).

Definition get_billing_account (c : UserContext) (project : string) : Program (Account * Z) :=
  authorize_project c project ;;
  billing_account 0 project.

Definition update_balance_policy (c : UserContext) (project : string) (enforce : bool) : Program (Account * Z) :=
  authorize_project_owner c project ;;
  on_service 0 (UpdateBalancePolicy project enforce) ;;
  billing_account 1 project.

(** The balance, what is held of it, and what is left. *)
Definition console_billing_position (c : UserContext) (project : string) : Program (Z * Z * Z) :=
  authorize_project c project ;;
  account ← performs (env 0) (AccountOf project);
  cached ← reads (λ p, Ok (balances (core p) !! ac_id account));
  row ← match cached with
        | Some row => mret row
        | None =>
            _ ← performs (env 1) (BalanceOf project);
            reads (λ p, ok_or (balances (core p) !! ac_id account) Database)
        end;
  available ← checks (ok_or (checked_sub (ba_balance_microunits row) (ba_held_microunits row))
                        (Internal "available balance overflow"));
  mret (ba_balance_microunits row, ba_held_microunits row, available).

Definition event_worker_status (c : UserContext) (project : string) : Program Job :=
  authorize_project_owner c project ;;
  account ← billing_account 0 project;
  reads (λ p, ok_or (jobs (core p) !! ac_id account.1) NotFound).

Definition retry_event_worker (c : UserContext) (project reason : string) : Program unit :=
  authorize_project_owner c project ;;
  account ← billing_account 0 project;
  on_service 2 (RetryJob (ac_id account.1) (pu_id (uc_user c)) reason).

Definition console_pending_reservations (c : UserContext) (project : string) (r : PendingRequest)
    : Program (list Reservation * option (Z * string * Z)) :=
  authorize_billing_review_read c project ;;
  reads (queries (pending_reservations (env 0) project r)).

(** *** Reviews *)

Definition submit_billing_evidence (c : UserContext) (project id : string) (r : EvidenceRequest) : Program unit :=
  checks (require (negb (uc_auth_disabled c)) Forbidden) ;;
  authorize_project_owner c project ;;
  on_service 0 (SubmitEvidence project id (pu_id (uc_user c)) (pu_external_subject (uc_user c)) r).

Definition submit_billing_waiver (c : UserContext) (project id : string) (r : WaiverRequest) : Program unit :=
  checks (require (is_billing_reviewer cfg c) Forbidden) ;;
  on_service 0 (SubmitWaiver project id (pu_id (uc_user c)) (pu_external_subject (uc_user c)) r).

Definition decide_billing_review (c : UserContext) (project id : string) (r : DecisionRequest) : Program unit :=
  checks (require (is_billing_reviewer cfg c) Forbidden) ;;
  on_service 0 (Decide project id (pu_id (uc_user c)) (pu_external_subject (uc_user c)) r).

(** *** Payments *)

Definition list_orders (c : UserContext) : Program (list Order) :=
  checks (require_owner c) ;;
  orders ← reads (λ p, Ok (Lists.list_orders p));
  mret (filter (λ order, can_manage c (od_tenant_id order) = true) orders).

Definition managed_orders (c : UserContext) (l : list Order) : list string :=
  od_id <$> filter (λ order, can_manage c (od_tenant_id order) = true) l.
Definition managed_payments (orders : list string) (l : list Payment) : list Payment :=
  filter (λ payment, py_order_id payment ∈ orders) l.

Definition list_payments (c : UserContext) : Program (list Payment) :=
  checks (require_owner c) ;;
  orders ← reads (λ p, Ok (Lists.list_orders p));
  payments ← reads (λ p, Ok (Lists.list_payments p));
  mret (managed_payments (managed_orders c orders) payments).

Definition managed_refunds (payments : list Payment) (l : list Refund) : list Refund :=
  filter (λ refund, rf_payment_id refund ∈ py_id <$> payments) l.

Definition list_refunds (c : UserContext) : Program (list Refund) :=
  checks (require_owner c) ;;
  orders ← reads (λ p, Ok (Lists.list_orders p));
  payments ← reads (λ p, Ok (Lists.list_payments p));
  refunds ← reads (λ p, Ok (Lists.list_refunds p));
  mret (managed_refunds (managed_payments (managed_orders c orders) payments) refunds).

Definition list_ledger (c : UserContext) : Program (list (LedgerTransaction * list LedgerEntry)) :=
  checks (require_owner c) ;;
  transactions ← reads (λ p, Ok (Lists.list_ledger p));
  mret (filter (λ t, can_manage c (lt_tenant_id t.1) = true) transactions).

Definition create_order (c : UserContext) (h : Headers) (r : CreateOrderRequest) : Program unit :=
  checks (require_tenant_owner c (cor_tenant_id r)) ;;
  _ ← checks (require_idempotency_key h);
  on_service 0 (CreateOrder r).

(** A development fixture, never proof of external payment. *)
Definition capture_payment (c : UserContext) (order : string) (h : Headers) (r : CapturePaymentRequest)
    : Program unit :=
  checks (require (negb (cf_console_auth cfg || is_some (cf_alipay cfg)
                         || negb (str_eqb (cap_provider r) "manual-test"))) Forbidden) ;;
  orders ← reads (λ p, Ok (Lists.list_orders p));
  found ← checks (find_by od_id order orders);
  checks (require_tenant_owner c (od_tenant_id found)) ;;
  key ← checks (require_idempotency_key h);
  on_service 0 (CapturePayment order r key).

Definition create_refund (c : UserContext) (h : Headers) (r : CreateRefundRequest) : Program unit :=
  payments ← reads (λ p, Ok (Lists.list_payments p));
  payment ← checks (find_by py_id (crf_payment_id r) payments);
  orders ← reads (λ p, Ok (Lists.list_orders p));
  order ← checks (find_by od_id (py_order_id payment) orders);
  checks (require_tenant_owner c (od_tenant_id order)) ;;
  key ← checks (require_idempotency_key h);
  on_service 0 (RefundManually r key).

Definition alipay_provider : result ServiceError AlipayConfig :=
  ok_or (cf_alipay cfg) (Dependency "Alipay is not configured").
Definition provider_of (a : AlipayConfig) : Provider := mkProvider (Alipay_profile a) (al_environment a).
Definition from_provider {A} (r : result PaymentError A) : result ServiceError A :=
  match r with Ok a => Ok a | Err e => Err (provider_error e) end.

(** What the provider answered, if it did. *)
Definition called {A} (id method : string) (answer : option string)
    (reply : string → SignedResponse → result PaymentError A) : result PaymentError A :=
  require (trade_identifier id) (PayInvalid "invalid provider order ID") ;;
  bytes ← ok_or answer PayUnavailable;
  raw ← response method bytes;
  reply id raw.

(** The order may carry a stored code; then the provider is not called. *)
Definition alipay_checkout (c : UserContext) (id : string) (answer : option string) : Program unit :=
  order ← reads (payment_order id);
  checks (require_tenant_owner c (od_tenant_id order)) ;;
  provider ← checks alipay_provider;
  opened ← performs (env 0) (BeginCheckout id (provider_of provider));
  match opened.1 with
  | Some _ => mret tt
  | None => on_service 1 (StoreCheckout id (provider_of provider)
              (called id "alipay.trade.precreate" answer precreate_reply))
  end.

Definition alipay_sync (c : UserContext) (id : string) (answer : option string) : Program unit :=
  order ← reads (payment_order id);
  checks (require_tenant_owner c (od_tenant_id order)) ;;
  provider ← checks alipay_provider;
  trade ← checks (from_provider (called id "alipay.trade.query" answer query_reply));
  on_service 0 (AcceptTrade (provider_of provider) trade).

Definition alipay_notify (h : Headers) (body : string) : Program unit :=
  checks (require ((str_len body <=? 65536)
                   && match header_str "content-type" h with
                      | Some v => String.prefix "application/x-www-form-urlencoded" v
                      | None => false
                      end) (Invalid "invalid payment notification format")) ;;
  provider ← checks alipay_provider;
  trade ← checks (from_provider (verify_notification provider body));
  on_service 0 (AcceptTrade (provider_of provider) trade).

Definition prepare_alipay_refund (c : UserContext) (r : CreateRefundRequest) : Program unit :=
  payment ← reads (find_payment (crf_payment_id r));
  order ← reads (payment_order (py_order_id payment));
  checks (require_tenant_owner c (od_tenant_id order)) ;;
  provider ← checks alipay_provider;
  on_service 0 (PrepareRefund r (provider_of provider)).

Definition alipay_refund_action (c : UserContext) (id : string) (submit : bool)
    (submitted : result PaymentError unit) (queried : result PaymentError VerifiedRefund) : Program unit :=
  payment ← reads (refund_payment id);
  order ← reads (payment_order (py_order_id payment));
  checks (require_tenant_owner c (od_tenant_id order)) ;;
  provider ← checks alipay_provider;
  on_service 0 (OperateRefund id (provider_of provider) submit submitted queried).

Definition import_refund_evidence (c : UserContext) (id body : string) : Program unit :=
  payment ← reads (refund_payment id);
  order ← reads (payment_order (py_order_id payment));
  checks (require_tenant_owner c (od_tenant_id order)) ;;
  provider ← checks alipay_provider;
  on_service 0 (ImportRefundEvidence provider id body).

(** *** Statements *)

Definition list_invoices (c : UserContext) : Program (list InvoiceRow) :=
  checks (require_owner c) ;;
  invoices ← reads (λ p, Ok (Lists.list_invoices p));
  mret (filter (λ invoice, can_manage c (in_tenant_id invoice) = true) invoices).

(** [Repository::create_invoice]: statements without a transaction. *)
Definition issue_statement (r : CreateInvoiceRequest) : Program InvoiceRow :=
  checks (require ((cir_period_start r <? cir_period_end r) && negb (is_blank (cir_title r)))
    (Invalid "invoice period and title are invalid")) ;;
  project ← reads (λ p, ok_or (projects (core p) !! cir_project_id r) NotFound);
  checks (require (str_eqb (pj_tenant_id project) (cir_tenant_id r)) Forbidden) ;;
  summary ← reads (Platform.billing_summary (Some (cir_project_id r)) (cir_period_start r) (cir_period_end r));
  performs (env 0) (InsertInvoice (mkInvoiceRow (cir_id r) (cir_tenant_id r) (cir_project_id r)
    (cir_period_start r) (cir_period_end r) (bs_total summary) "CNY" "statement_ready" (cir_title r)
    (env_now (env 0)))).

Definition create_invoice (c : UserContext) (h : Headers) (r : CreateInvoiceRequest) : Program InvoiceRow :=
  checks (require_tenant_owner c (cir_tenant_id r)) ;;
  _ ← checks (require_idempotency_key h);
  issue_statement r.

Definition tax_request_status (c : UserContext) (id : string) : Program (string * option Z) :=
  invoice ← reads (statement id);
  checks (require_tenant_owner c (in_tenant_id invoice)) ;;
  reads (λ p, Ok (Platform.tax_request_status id p)).

Definition request_tax_invoice (c : UserContext) (id : string) (r : TaxRequest) : Program (string * option Z) :=
  invoice ← reads (statement id);
  checks (require_tenant_owner c (in_tenant_id invoice)) ;;
  performs (env 0) (RequestTaxInvoice id r) ;;
  reads (λ p, Ok (Platform.tax_request_status id p)).

Definition reconcile (c : UserContext) (r : ReconcileRequest) : Program ReconciliationReport :=
  checks (require_tenant_owner c (rq_tenant_id r)) ;;
  reads (Platform.reconcile r).

(** *** The platform *)

Definition ops_alerts (c : UserContext) (q : AlertQuery) : Program (list AlertRow * option string) :=
  checks (platform_admin cfg c) ;;
  reads (Platform.ops_alerts q).

Definition acknowledge_alert (c : UserContext) (id reason : string) : Program unit :=
  checks (platform_admin cfg c) ;;
  performs (env 0) (AcknowledgeAlert id (pu_id (uc_user c)) reason).

Definition list_operation_audits (c : UserContext) (q : AuditQuery) : Program (list OperationAudit * option string) :=
  checks (platform_admin cfg c) ;;
  reads (Platform.list_operation_audits uuid_text q).

(** A route that only administrators of the platform may use. *)
Definition administer (c : UserContext) (o : op) : Program unit :=
  checks (platform_admin cfg c) ;;
  on_service 0 o.

Definition put_model (c : UserContext) (id : string) (r : PutModel) : Program unit :=
  administer c (PutCatalogModel id r).
Definition put_serving_endpoint (c : UserContext) (id : string) (expected : Z) (e : ServingEndpoint) : Program unit :=
  administer c (OnRegistry (PutEndpoint id expected e)).
Definition register_cluster (c : UserContext) (r : RegisterCluster) (token : string) : Program unit :=
  administer c (OnRegistry (RegisterMember r token (pu_id (uc_user c)))).
Definition put_cluster_desired (c : UserContext) (id : string) (r : DesiredState) : Program unit :=
  administer c (OnRegistry (PutDesired id r (pu_id (uc_user c)))).
Definition rotate_cluster_credential (c : UserContext) (id : string) (r : RotateCredential) (token : string)
    : Program unit :=
  administer c (OnRegistry (RotateMember id r token (pu_id (uc_user c)))).
Definition revoke_cluster (c : UserContext) (id : string) : Program unit :=
  administer c (OnRegistry (RevokeMember id (pu_id (uc_user c)))).
Definition bind_pool (c : UserContext) (r : PoolBinding) : Program unit :=
  administer c (OnRegistry (BindPool r (pu_id (uc_user c)) (cf_route_pools cfg))).
Definition managed_pool_status (c : UserContext) (id : string) : Program PoolStatus :=
  checks (platform_admin cfg c) ;;
  reads (queries (Pools.managed_pool_status id)).
Definition pool_transition (c : UserContext) (id : string) (expected : Z) (action : string) : Program unit :=
  administer c (OnRegistry (TransitionPool id expected action (pu_id (uc_user c)))).
End console.
