(* ===== verification/Edge.v ===== *)
(** * Edge: the routers of the control plane and the doors in front of them

    [public_router], [internal_router] and the middlewares of
    [crates/control-plane/src/api.rs]: the console behind the identity proxy,
    the internal routes behind their token, the member clusters and the alert
    hook with tokens of their own, and the notifications of the payment
    provider, which carry a signature.  A [message] is a request that the
    router has matched and whose document is parsed. *)

From S2P Require Import Prelude Http Domain Models Routing Fleet Store Books Catalog Projection Ledger.
From S2P Require Import Reservations Review Wallet Routes Clusters Pools Snapshot Traffic Control.
From S2P Require Import Maintenance Lifecycle Payments Alipay Trial Worker Feed Billing Platform Lists Console.
Local Open Scope string_scope.
Local Open Scope Z_scope.

(** The status of an error, from [into_response]. *)
Definition error_status (e : ServiceError) : Z :=
  match e with
  | Invalid _ => 400
  | NotFound => 404
  | Conflict _ => 409
  | InsufficientFunds _ => 402
  | Unauthorized => 401
  | Forbidden => 403
  | InternalAuthUnavailable => 503
  | InvalidInternalToken => 401
  | Dependency _ => 503
  | Database => 503
  | Internal _ => 500
  end.
Definition status_of {A} (success : Z) (r : result ServiceError A) : Z :=
  match r with Ok _ => success | Err e => error_status e end.

(** ** The routes of the console *)

Inductive console_route :=
| GetSession
| GetUsers
| PutMembership (user tenant role : string)
| GetProjects
| PostProject (project : Project)
| GetApiKeys
| PostApiKey (r : ApiKeyRequest) (random : string)
| DeleteApiKey (id : string)
| GetRoutePolicies
| PutPolicy (project model : string) (r : PutRoutePolicy)
| GetRouteHistory (project model : string) (q : HistoryQuery)
| PostRelease (project model : string) (action : ReleaseAction)
| GetRouteAcks (project model : string)
| GetSummary (project : option string) (from to : option Z)
| GetAccount (project : string)
| PutAccount (project : string) (enforce : bool)
| GetPosition (project : string)
| GetEventWorker (project : string)
| PostRetry (project reason : string)
| GetPending (project : string) (r : PendingRequest)
| PostEvidence (project id : string) (r : EvidenceRequest)
| PostWaiver (project id : string) (r : WaiverRequest)
| PostDecision (project id : string) (r : DecisionRequest)
| GetOrders
| PostOrder (r : CreateOrderRequest)
| PostPayment (order : string) (r : CapturePaymentRequest)
| PostCheckout (id : string) (answer : option string)
| PostSync (id : string) (answer : option string)
| GetPayments
| GetRefunds
| PostRefund (r : CreateRefundRequest)
| PostAlipayRefund (r : CreateRefundRequest)
| PostRefundAction (id : string) (submit : bool) (submitted : result PaymentError unit)
    (queried : result PaymentError VerifiedRefund)
| PostRefundEvidence (id body : string)
| GetLedger
| GetInvoices
| PostInvoice (r : CreateInvoiceRequest)
| GetTaxRequest (id : string)
| PostTaxRequest (id : string) (r : TaxRequest)
| PostReconciliation (r : ReconcileRequest)
| GetAlerts (q : AlertQuery)
| PostAcknowledge (id reason : string)
| GetAudits (q : AuditQuery)
| PutModelRoute (id : string) (r : PutModel)
| PutEndpointRoute (id : string) (expected : Z) (e : ServingEndpoint)
| PostCluster (r : RegisterCluster) (token : string)
| PutDesiredState (id : string) (r : DesiredState)
| PostCredential (id : string) (r : RotateCredential) (token : string)
| PostRevoke (id : string)
| PostPool (r : PoolBinding)
| GetPool (id : string)
| PostPoolAction (id action : string) (expected : Z).

(** The method, and the path as the router matched it. *)
Definition console_path (r : console_route) : string * string :=
  match r with
  | GetSession => ("GET", "/session")
  | GetUsers => ("GET", "/users")
  | PutMembership _ _ _ => ("PUT", "/users/{user_id}/memberships/{tenant_id}")
  | GetProjects => ("GET", "/projects")
  | PostProject _ => ("POST", "/projects")
  | GetApiKeys => ("GET", "/api-keys")
  | PostApiKey _ _ => ("POST", "/api-keys")
  | DeleteApiKey _ => ("DELETE", "/api-keys/{id}")
  | GetRoutePolicies => ("GET", "/route-policies")
  | PutPolicy _ _ _ => ("PUT", "/projects/{project_id}/models/{model}/route-policy")
  | GetRouteHistory _ _ _ => ("GET", "/projects/{project_id}/models/{model}/route-policy/history")
  | PostRelease _ _ _ => ("POST", "/projects/{project_id}/models/{model}/route-policy/actions")
  | GetRouteAcks _ _ => ("GET", "/projects/{project_id}/models/{model}/route-policy/acks")
  | GetSummary _ _ _ => ("GET", "/billing/summary")
  | GetAccount _ => ("GET", "/billing/accounts/{project_id}")
  | PutAccount _ _ => ("PUT", "/billing/accounts/{project_id}")
  | GetPosition _ => ("GET", "/billing/accounts/{project_id}/position")
  | GetEventWorker _ => ("GET", "/billing/accounts/{project_id}/event-worker")
  | PostRetry _ _ => ("POST", "/billing/accounts/{project_id}/event-worker/retry")
  | GetPending _ _ => ("GET", "/billing/accounts/{project_id}/pending-reservations")
  | PostEvidence _ _ _ => ("POST", "/billing/accounts/{project}/reservations/{id}/reviews")
  | PostWaiver _ _ _ => ("POST", "/billing/accounts/{project}/reservations/{id}/waivers")
  | PostDecision _ _ _ => ("POST", "/billing/accounts/{project}/reviews/{id}/decision")
  | GetOrders => ("GET", "/billing/orders")
  | PostOrder _ => ("POST", "/billing/orders")
  | PostPayment _ _ => ("POST", "/billing/orders/{order_id}/payments")
  | PostCheckout _ _ => ("POST", "/billing/orders/{id}/alipay/checkout")
  | PostSync _ _ => ("POST", "/billing/orders/{id}/alipay/sync")
  | GetPayments => ("GET", "/billing/payments")
  | GetRefunds => ("GET", "/billing/refunds")
  | PostRefund _ => ("POST", "/billing/refunds")
  | PostAlipayRefund _ => ("POST", "/billing/alipay/refunds")
  | PostRefundAction _ true _ _ => ("POST", "/billing/alipay/refunds/{id}/submit")
  | PostRefundAction _ false _ _ => ("POST", "/billing/alipay/refunds/{id}/sync")
  | PostRefundEvidence _ _ => ("POST", "/billing/alipay/refunds/{id}/evidence")
  | GetLedger => ("GET", "/billing/ledger")
  | GetInvoices => ("GET", "/billing/invoices")
  | PostInvoice _ => ("POST", "/billing/invoices")
  | GetTaxRequest _ => ("GET", "/billing/invoices/{id}/tax-request")
  | PostTaxRequest _ _ => ("POST", "/billing/invoices/{id}/tax-request")
  | PostReconciliation _ => ("POST", "/billing/reconciliation")
  | GetAlerts _ => ("GET", "/operations/alerts")
  | PostAcknowledge _ _ => ("POST", "/operations/alerts/{id}/acknowledge")
  | GetAudits _ => ("GET", "/audit")
  | PutModelRoute _ _ => ("PUT", "/model-catalog/{id}")
  | PutEndpointRoute _ _ _ => ("PUT", "/serving-endpoints/{id}")
  | PostCluster _ _ => ("POST", "/clusters")
  | PutDesiredState _ _ => ("PUT", "/clusters/{id}/desired-state")
  | PostCredential _ _ _ => ("POST", "/clusters/{id}/credential")
  | PostRevoke _ => ("POST", "/clusters/{id}/revoke")
  | PostPool _ => ("POST", "/managed-pools")
  | GetPool _ => ("GET", "/managed-pools/{id}")
  | PostPoolAction _ _ _ => ("POST", "/managed-pools/{id}/{action}")
  end.

(** The status of an answer that is not an error. *)
Definition success (r : console_route) : Z :=
  match r with
  | PostProject _ | PostApiKey _ _ | PostOrder _ | PostPayment _ _ | PostRefund _ | PostInvoice _
  | PostCluster _ _ => 201
  | DeleteApiKey _ => 204
  | _ => 200
  end.

Definition mutation (method : string) : bool := str_in method ["POST"; "PUT"; "PATCH"; "DELETE"].

(** A handler whose answer is not looked at. *)
Definition answers {A} `{PlatformLibraries} (m : Program A) : Program unit := _ ← m; mret tt.

(** ** Who knocks *)

(** The first header that has a text which is not blank. *)
Fixpoint first_header (h : Headers) (names : list string) : option string :=
  match names with
  | [] => None
  | name :: names =>
      match trim <$> header_str name h with
      | Some v => if is_empty v then first_header h names else Some v
      | None => first_header h names
      end
  end.

Definition bearer (h : Headers) : option string :=
  header_str "authorization" h ≫= strip_prefix "Bearer ".

Definition cluster_bearer (h : Headers) : result ServiceError string :=
  ok_or (token ← bearer h; if str_len token =? 43 then Some token else None) Unauthorized.

Record Visitor := mkVisitor {
  vs_subject : string; vs_username : string; vs_email : string; vs_auth_disabled : bool }.

Section edge.
Context `{PlatformLibraries}.
Variable (cfg : Config).

(** The clocks and random identifiers of the statements of a handler, and of
    the middleware in front of it. *)
Variables (env door : nat → Env).

Definition visitor (h : Headers) : result ServiceError Visitor :=
  if cf_console_auth cfg then
    username ← ok_or (first_header h ["x-auth-request-preferred-username"; "x-forwarded-preferred-username";
                                      "x-auth-request-user"; "x-forwarded-user"]) Unauthorized;
    let email := default "" (first_header h ["x-auth-request-email"; "x-forwarded-email"]) in
    let subject := default username (first_header h ["x-auth-request-sub"; "x-forwarded-sub";
                                                     "x-auth-request-user"; "x-forwarded-user"]) in
    mret (mkVisitor subject username email false)
  else mret (mkVisitor "development-user" "development-user" "development@local.xscope" true).

Definition default_role (v : Visitor) : option string :=
  if vs_auth_disabled v || str_in (vs_username v) (cf_bootstrap_admin_users cfg)
     || str_in (vs_email v) (cf_bootstrap_admin_users cfg) then Some "owner"
  else if cf_auto_join_default_tenant cfg then Some "member" else None.

Definition enter (v : Visitor) : act PlatformUser :=
  SyncUser (vs_subject v) (vs_username v) (vs_email v) (cf_default_tenant_id cfg) (default_role v).

Definition intent_audit (user : PlatformUser) (method route : string) : act string :=
  AuditOperation (pu_id user) "console.intent" route (JObj [("method", JStr method)]).
Definition completion_audit (user : PlatformUser) (route intent : string) (status : Z) : act string :=
  AuditOperation (pu_id user) "console.completed" route
    (JObj [("intent_id", JStr intent); ("status", JNum status)]).

(** A mutation is recorded before it runs, and its status after; the answer
    carries the record. *)
Definition console_identity {A} (h : Headers) (method route : string) (good : Z) (next : UserContext → Program A)
    : Program (result ServiceError A * option string) :=
  v ← checks (visitor h);
  user ← performs (door 0) (enter v);
  let context := mkUserContext user (vs_auth_disabled v) in
  if mutation method then
    intent ← performs (door 1) (intent_audit user method route);
    answer ← attempt (next context);
    _ ← attempt (performs (door 2) (completion_audit user route intent (status_of good answer)));
    mret (answer, Some intent)
  else
    answer ← attempt (next context);
    mret (answer, None).

Definition internal_auth {A} (h : Headers) (next : Program A) : Program A :=
  checks (require (negb (is_empty (cf_internal_token cfg))) InternalAuthUnavailable) ;;
  checks (require (str_eqb (sha256_hex ("Bearer " +:+ cf_internal_token cfg))
                           (sha256_hex (default "" (header_str "authorization" h)))) InvalidInternalToken) ;;
  next.

(** ** The console *)

Definition handle (c : UserContext) (h : Headers) (r : console_route) : Program unit :=
  match r with
  | GetSession => mret tt
  | GetUsers => answers (list_users c)
  | PutMembership user tenant role => answers (update_membership env c user tenant role)
  | GetProjects => answers (list_projects c)
  | PostProject project => create_project env c h project
  | GetApiKeys => answers (list_api_keys env c)
  | PostApiKey r random => create_api_key env c h r random
  | DeleteApiKey id => revoke_api_key env c id
  | GetRoutePolicies => answers (list_route_policies c)
  | PutPolicy project model r => put_route_policy cfg env c project model r
  | GetRouteHistory project model q => answers (route_history c project model q)
  | PostRelease project model action => release_action cfg env c project model action
  | GetRouteAcks project model => answers (route_acks c project model)
  | GetSummary project from to => answers (billing_summary env c project from to)
  | GetAccount project => answers (get_billing_account env c project)
  | PutAccount project enforce => answers (update_balance_policy env c project enforce)
  | GetPosition project => answers (console_billing_position env c project)
  | GetEventWorker project => answers (event_worker_status env c project)
  | PostRetry project reason => retry_event_worker env c project reason
  | GetPending project r => answers (console_pending_reservations cfg env c project r)
  | PostEvidence project id r => submit_billing_evidence env c project id r
  | PostWaiver project id r => submit_billing_waiver cfg env c project id r
  | PostDecision project id r => decide_billing_review cfg env c project id r
  | GetOrders => answers (list_orders c)
  | PostOrder r => create_order env c h r
  | PostPayment order r => capture_payment cfg env c order h r
  | PostCheckout id answer => alipay_checkout cfg env c id answer
  | PostSync id answer => alipay_sync cfg env c id answer
  | GetPayments => answers (list_payments c)
  | GetRefunds => answers (list_refunds c)
  | PostRefund r => create_refund env c h r
  | PostAlipayRefund r => prepare_alipay_refund cfg env c r
  | PostRefundAction id submit submitted queried => alipay_refund_action cfg env c id submit submitted queried
  | PostRefundEvidence id body => import_refund_evidence cfg env c id body
  | GetLedger => answers (list_ledger c)
  | GetInvoices => answers (list_invoices c)
  | PostInvoice r => answers (create_invoice env c h r)
  | GetTaxRequest id => answers (tax_request_status c id)
  | PostTaxRequest id r => answers (request_tax_invoice env c id r)
  | PostReconciliation r => answers (reconcile c r)
  | GetAlerts q => answers (ops_alerts cfg c q)
  | PostAcknowledge id reason => acknowledge_alert cfg env c id reason
  | GetAudits q => answers (list_operation_audits cfg c q)
  | PutModelRoute id r => put_model cfg env c id r
  | PutEndpointRoute id expected e => put_serving_endpoint cfg env c id expected e
  | PostCluster r token => register_cluster cfg env c r token
  | PutDesiredState id r => put_cluster_desired cfg env c id r
  | PostCredential id r token => rotate_cluster_credential cfg env c id r token
  | PostRevoke id => revoke_cluster cfg env c id
  | PostPool r => bind_pool cfg env c r
  | GetPool id => answers (managed_pool_status cfg c id)
  | PostPoolAction id action expected => pool_transition cfg env c id expected action
  end.

Definition console (h : Headers) (r : console_route) : Program (result ServiceError unit * option string) :=
  console_identity h (console_path r).1 (console_path r).2 (success r) (λ c, handle c h r).

(** ** The internal routes *)

Inductive internal_route :=
| PostUsage (e : UsageEvent)
| PostReservation (r : ReserveRequest)
| PostUnresolved (project id : string) (r : UnresolvedRequest)
| PostClaim (skip : string → bool) (r : ClaimRequest)
| PostComplete (processed finished : Z) (l : Lease)
| PostFail (l : Lease) (reason : string)
| GetCheck (project key : string) (month : Z)
| PostRebuild (project key : string) (month : Z)
| GetInternalPending (project : string) (r : PendingRequest)
| GetReservation (project id : string)
| PostDispatch (project id : string)
| PostReleaseMoney (project id reason : string)
| PostSettle (project id : string) (r : SettleRequest)
| PostPoll (project consumer : string) (r : PollRequest)
| PostAck (project consumer : string) (r : AckRequest)
| GetSnapshot (session : option string) (identity : option GatewayIdentity) (token : string)
| PostReport (report : TrafficReport).

(** The cached balances by project. *)
Definition account_cache (cached : gmap string Balance) (p : Platform) : gmap string (bool * Z) :=
  omap (λ ac, row ← cached !! ac_id ac; Some (ac_enforce_balance ac, ba_balance_microunits row))
    (accounts (core p)).

(** The balance and the spend of a key: cached, or the projection made now; a
    projected balance is kept for the next key of the project. *)
Definition snapshot_balance (cache : gmap string (bool * Z)) (project : string) : Program (bool * Z) :=
  match cache !! project with
  | Some value => mret value
  | None => performs (env 1) (BalanceOf project)
  end.
Definition snapshot_spend (spends : gmap (string * Z) MonthSpend) (row : ApiKeyRow) : Program Z :=
  match spends !! (ak_id row, month_floor (env_now (env 0))) with
  | Some spend => mret (ms_spent_microunits spend)
  | None => performs (env 2) (SpendOf (ak_project_id row) (ak_id row))
  end.

Fixpoint snapshot_keys (spends : gmap (string * Z) MonthSpend) (cache : gmap string (bool * Z))
    (rows : list ApiKeyRow) : Program (list GatewayKey) :=
  match rows with
  | [] => mret []
  | row :: rows =>
      balance ← snapshot_balance cache (ak_project_id row);
      spent ← snapshot_spend spends row;
      keys ← snapshot_keys spends (<[ak_project_id row := balance]> cache) rows;
      mret (mkGatewayKey (ak_id row) (ak_tenant_id row) (ak_project_id row) (base64 (ak_secret_hash row))
        (ak_scopes row) (ak_allowed_models row) (ak_expires_at row) (ak_rate_limit_rpm row)
        (ak_rate_limit_tpm row) (mkMoney (ak_currency row) (ak_monthly_budget_amount row))
        (mkMoney (ak_currency row) (ceil_minor_units spent)) balance.1
        (mkMoney (ak_currency row) (floor_minor_units balance.2)) :: keys)
  end.

(** [Repository::gateway_snapshot] *)
Definition take_snapshot : Program GatewaySnapshot :=
  spends ← reads (λ p, Ok (month_spends (core p)));
  cached ← reads (λ p, Ok (balances (core p)));
  cache ← reads (λ p, Ok (account_cache cached p));
  rows ← reads (λ p, Ok (active_keys (env_now (env 0)) (core p)));
  keys ← snapshot_keys spends cache rows;
  policies ← reads (queries Snapshot.list_route_policies);
  catalog ← reads (queries catalog_snapshot);
  mret (mkGatewaySnapshot (env_now (env 0)) keys policies catalog None).

(** The snapshot; of a session, with the grant that is written after it is read. *)
Definition gateway_snapshot (session : option string) (identity : option GatewayIdentity) (token : string)
    : Program unit :=
  match session with
  | Some id =>
      checks (require (uuid_text id) (Invalid "invalid gateway incarnation")) ;;
      snapshot ← take_snapshot;
      on_registry env 3 (SendSnapshot id identity snapshot token)
  | None => answers take_snapshot
  end.

Definition handle_internal (r : internal_route) : Program unit :=
  match r with
  | PostUsage e => on_service env 0 (RecordUsage e)
  | PostReservation r => on_service env 0 (Reserve r)
  | PostUnresolved project id r => on_service env 0 (ReportUnresolved project id r)
  | PostClaim skip r => on_service env 0 (ClaimJob skip r)
  | PostComplete processed finished l => on_service env 0 (CompleteJob processed finished l)
  | PostFail l reason => on_service env 0 (FailJob l reason)
  | GetCheck project key month => on_service env 0 (CheckProjection project key month false)
  | PostRebuild project key month => on_service env 0 (CheckProjection project key month true)
  | GetInternalPending project r => answers (reads (queries (pending_reservations (env 0) project r)))
  | GetReservation project id => answers (reads (queries (money_reservation project id)))
  | PostDispatch project id => on_service env 0 (Dispatch project id)
  | PostReleaseMoney project id reason => on_service env 0 (Release project id reason)
  | PostSettle project id r => on_service env 0 (Settle project id r)
  | PostPoll project consumer r => on_service env 0 (PollFeed project consumer r)
  | PostAck project consumer r => on_service env 0 (AckFeed project consumer r)
  | GetSnapshot session identity token => gateway_snapshot session identity token
  | PostReport report => on_registry env 0 (AcceptReport report)
  end.

(** ** The member clusters *)

Inductive member_route :=
| PostMemberPoll (id : string)
| PostMemberReport (id : string) (report : ClusterReport)
| GetObservations (id : string)
| PostObservation (id : string) (report : PoolObservation)
| GetProofs (id : string)
| PostProof (id : string) (proof : GatewayProof).

Definition member_op (token : string) (r : member_route) : control_op :=
  match r with
  | PostMemberPoll id => PollMember id token
  | PostMemberReport id report => ReportMember id token report
  | GetObservations id => TakeTasks id token
  | PostObservation id report => ObservePool id token report
  | GetProofs id => TakeProofTasks id token
  | PostProof id proof => AcceptProof id token proof
  end.

Definition handle_member (h : Headers) (r : member_route) : Program unit :=
  token ← checks (cluster_bearer h);
  on_registry env 0 (member_op token r).

(** [authorize_serving]: what a serving entry asks about a request. *)
Definition authorize_serving (h : Headers) : Program unit :=
  reads (queries (Traffic.authorize_serving sha256_hex uuid_text identity_required (env 0)
    (header_str "x-xscope-traffic-session" h) (header_str "x-xscope-traffic-token" h)
    (header_str "x-xscope-managed-pool" h))).

(** The hook of the alert manager; [parsed] is what its document says. *)
Definition receive_alerts (h : Headers) (body : string) (parsed : option Webhook) : Program unit :=
  token ← checks (ok_or (cf_alert_webhook_token cfg) InternalAuthUnavailable);
  supplied ← checks (ok_or (bearer h) Unauthorized);
  checks (require (str_eqb token supplied) Unauthorized) ;;
  checks (require (str_len body <=? 262144) (Invalid "alert payload too large")) ;;
  request ← checks (ok_or parsed (Invalid "invalid alert payload"));
  performs (env 0) (ReceiveAlerts request).

(** ** The routers *)

Inductive message :=
| ConsoleMessage (h : Headers) (r : console_route)
| InternalMessage (h : Headers) (r : internal_route)
| MemberMessage (h : Headers) (r : member_route)
| AlertMessage (h : Headers) (body : string) (parsed : option Webhook)
| PaymentMessage (h : Headers) (body : string)
| ServingMessage (h : Headers).

Definition answer_message (m : message) : Program unit :=
  match m with
  | ConsoleMessage h r => answer ← console h r; checks answer.1
  | InternalMessage h r => internal_auth h (handle_internal r)
  | MemberMessage h r => handle_member h r
  | AlertMessage h body parsed => receive_alerts h body parsed
  | PaymentMessage h body => alipay_notify cfg env h body
  | ServingMessage h => authorize_serving h
  end.
End edge.
