(* ===== verification/Access.v ===== *)
(** * Access: nobody does what is not theirs to do

    The logic of the programs of the console.  Between the statements of a
    handler anybody may change the platform, by any act: [since] is what such
    changes keep, and [safe] says that whatever the others do, each act of a
    program is one that its caller may perform when it is performed. *)

From S2P Require Import Prelude Http Domain Models Routing Fleet Store Books Catalog Projection Ledger.
From S2P Require Import Reservations Review Wallet Routes Clusters Pools Snapshot Traffic Control.
From S2P Require Import Maintenance Lifecycle Payments Alipay Trial Worker Feed Registry Billing Owners.
From S2P Require Import Platform Lists Console Edge.
Local Open Scope string_scope.
Local Open Scope Z_scope.

(** ** What the platform keeps *)

(** Every row of a person is under its primary key. *)
Record People_ok (p : Platform) : Prop := {
  po_user id u : users p !! id = Some u → ur_id u = id;
  po_membership id m : memberships p !! id = Some m → mb_id m = id }.

Section keeping.
Context `{PlatformLibraries}.

Record sound (p : Platform) : Prop := {
  so_core : healthy (core p);
  so_people : People_ok p }.

Record since (p q : Platform) : Prop := {
  si_sound : sound q;
  si_owners : owners_kept (core p) (core q);
  si_memberships : rows_keep (λ m, (mb_user_id m, mb_tenant_id m)) (memberships p) (memberships q);
  si_invoices : rows_keep id (invoices p) (invoices q) }.

Lemma since_refl p : sound p → since p p.
Proof. intros. split; done || reflexivity. Qed.
Lemma since_trans p q r : since p q → since q r → since p r.
Proof. intros [A1 A2 A3 A4] [B1 B2 B3 B4]. split; [done|..]; etransitivity; eassumption. Qed.

(** *** Acts *)

Lemma discard_run {A} (m : Tx A) d a d' : m d = Ok (a, d') → discard m d = Ok (tt, d').
Proof. intros E. apply tx_bind_Ok. by exists a, d'. Qed.

Lemma since_core p d : People_ok p → healthy d → owners_kept (core p) d → since p (set_core d p).
Proof. intros [P1 P2] Hd Ho. split; [by split|done|reflexivity..]. Qed.

Lemma since_run p env o u d : sound p → run env o (core p) = Ok (u, d) → since p (set_core d p).
Proof.
  intros [Hc Hp] Hrun. apply since_core; [done| |by eapply run_owners].
  by eapply run_healthy in Hrun as [? _].
Qed.

(** What the registry writes is beside the ledger. *)
Lemma healthy_registry d d' : healthy d → registry_writes d d' → healthy d'.
Proof.
  intros [H1 H2 H3 H4 H5] Hw. pose proof (registry_commits _ _ H1 Hw) as Hc.
  apply registry_tables in Hw as (E1 & E2 & E3 & E4 & _). split.
  - apply Hc.
  - by eapply reviews_closed_step.
  - by eapply Wallet_same.
  - eapply work_grows_ok; [done|by apply work_same].
  - intros a name row Hrow. rewrite E2 in Hrow. apply H5 in Hrow. unfold account_events. by rewrite E4.
Qed.

Lemma since_audit p a u d : sound p → insert_operation_audit a (core p) = Ok (u, d) → since p (set_core d p).
Proof.
  intros [Hc Hp] Hrun. pose proof (writes_audit _ _ _ _ Hrun) as Hw. apply modify_Ok in Hrun as ->.
  apply since_core; [done|by eapply healthy_registry|by split].
Qed.

Lemma since_beside p q : sound p → core q = core p → users q = users p → memberships q = memberships p →
  rows_keep id (invoices p) (invoices q) → since p q.
Proof.
  intros [Hc [P1 P2]] E1 E2 E3 Hi. split; [split; [by rewrite E1|split; by rewrite ?E2, ?E3]|..|done];
    by rewrite ?E1, ?E3.
Qed.

Lemma since_users p id u : sound p → ur_id u = id → since p (set_users (<[id := u]> (users p)) p).
Proof.
  intros [Hc [P1 P2]] Hid. split; [|reflexivity..]. split; [done|]. split; [|done].
  simpl. intros i v [[<- <-]|[_ Hv]]%lookup_insert_Some; [done|by apply P1].
Qed.

Lemma since_memberships p id m : sound p → mb_id m = id →
  rows_keep (λ m, (mb_user_id m, mb_tenant_id m)) (memberships p) (<[id := m]> (memberships p)) →
  since p (set_memberships (<[id := m]> (memberships p)) p).
Proof.
  intros [Hc [P1 P2]] Hid Hk. split; [|reflexivity|exact Hk|reflexivity]. split; [done|]. split; [done|].
  simpl. intros i v [[<- <-]|[_ Hv]]%lookup_insert_Some; [done|by apply P2].
Qed.

Lemma since_insert_membership row p u q : sound p → insert_membership row p = Ok (u, q) → since p q.
Proof.
  intros Hs Hrun. unfold insert_membership in Hrun. ptx_inv Hrun.
  match goal with Hx : require _ _ = Ok _ |- _ => apply require_Ok, negb_true_iff in Hx end.
  match goal with Hx : _ || _ = false |- _ => apply orb_false_iff in Hx as [Hx%is_some_false _] end.
  apply since_memberships; [done..|]. by apply rows_keep_new.
Qed.

Lemma since_set_role id role p u q : sound p → set_role id role p = Ok (u, q) → since p q.
Proof.
  intros Hs Hrun. unfold set_role in Hrun. ptx_inv Hrun.
  match goal with Hx : ok_or _ _ = Ok _ |- _ => apply ok_or_Ok in Hx end.
  apply since_memberships; [done| |by eapply rows_keep_update].
  simpl. eapply po_membership; [apply Hs|done].
Qed.

Lemma since_sign_in env subject name email p r q :
  sound p → sign_in stable_id env subject name email p = Ok (r, q) → since p q.
Proof.
  intros Hs Hrun. unfold sign_in in Hrun. ptx_inv Hrun.
  destruct (find _ _) as [u|]; ptx_inv Hrun; by apply since_users.
Qed.

Lemma since_sync env subject name email tenant role p u q :
  sound p → sync_user stable_id env subject name email tenant role p = Ok (u, q) → since p q.
Proof.
  intros Hs Hrun. unfold sync_user in Hrun. ptx_inv Hrun.
  match goal with Hx : sign_in _ _ _ _ _ _ = Ok (?r, ?x) |- _ =>
    rename r into row, x into p1; assert (since p p1) as H1 end.
  { by eapply since_sign_in. }
  destruct role as [role|].
  2:{ match goal with Hx : mret tt _ = _ |- _ => ptx_inv Hx end. done. }
  match goal with Hx : join _ _ _ _ _ _ = _ |- _ => unfold join in Hx; ptx_inv Hx end.
  match goal with Hx : (if is_some ?o then _ else _) _ = _ |- _ =>
    destruct (is_some o); [ptx_inv Hx; done|] end.
  eapply since_trans; [done|]. eapply since_insert_membership; [apply H1|done].
Qed.

Lemma since_perform {A} env (a : act A) p r q : sound p → perform env a p = Ok (r, q) → since p q.
Proof.
  intros Hs Hrun. destruct a; cbn [perform] in Hrun.
  - apply on_core_Ok in Hrun as (d & Hrun & ->). by eapply since_run.
  - apply on_core_Ok in Hrun as (d & Hrun%discard_run & ->). by eapply (since_run _ env (EnsureAccount project)).
  - apply on_core_Ok in Hrun as (d & Hrun%discard_run & ->). by eapply (since_run _ env (ReadBalance project)).
  - apply on_core_Ok in Hrun as (d & Hrun%discard_run & ->). by eapply (since_run _ env (ReadSpend project key)).
  - apply on_core_Ok in Hrun as (d & Hrun%discard_run & ->). by eapply (since_run _ env (OpenCheckout id p0)).
  - by eapply since_sync.
  - by eapply since_insert_membership.
  - by eapply since_set_role.
  - unfold audit_operation in Hrun. ptx_inv Hrun. by eapply since_audit.
  - unfold insert_invoice in Hrun. ptx_inv Hrun.
    match goal with Hx : require _ _ = Ok _ |- _ => apply require_Ok, negb_true_iff, is_some_false in Hx end.
    apply since_beside; [done..|]. by apply rows_keep_new.
  - unfold Platform.request_tax_invoice in Hrun. ptx_inv Hrun.
    destruct (tax_requests p !! id); ptx_inv Hrun; (apply since_beside; done || reflexivity).
  - unfold Platform.receive_alerts in Hrun. ptx_inv Hrun. (apply since_beside; done || reflexivity).
  - unfold Platform.acknowledge_alert in Hrun. ptx_inv Hrun.
    destruct (is_some _); ptx_inv Hrun; [by apply since_refl|].
    match goal with Hx : insert_operation_audit _ (core ?x) = _ |- _ =>
      rename Hx into Ha; assert (since p x) as H1 by (apply since_beside; done || reflexivity) end.
    eapply since_trans; [exact H1|]. eapply since_audit; [apply H1|exact Ha].
Qed.
End keeping.

(** ** Programs whose acts are all granted *)

Section safe.
Context `{PlatformLibraries}.
(** Which acts are granted on which platforms. *)
Variable granted : ∀ A, act A → Platform → Prop.

(** [m], started on [p], performs granted acts only, and when it answers [a],
    [Q a] holds of the platform then. *)
Fixpoint safe {A} (m : Program A) (p : Platform) (Q : A → Platform → Prop) : Prop :=
  ∀ p1, since p p1 →
  match m with
  | Answer r => match r with Ok a => Q a p1 | Err _ => True end
  | Read f k => safe (k (f p1)) p1 Q
  | Perform env a k => granted _ a p1 ∧ safe (k (answered (perform env a) p1)) (settled (perform env a) p1) Q
  end.

Definition entry_granted (e : performed) : Prop :=
  match pe_change e with Change _ a => granted _ a (pe_before e) end.

Lemma since_settled {A} env (a : act A) p : sound p → since p (settled (perform env a) p).
Proof.
  intros Hs. unfold settled. destruct (perform env a p) as [[r q]|e] eqn:E; [by eapply since_perform|by apply since_refl].
Qed.

Lemma since_anybody p q : sound p → rtc anybody p q → since p q.
Proof.
  intros Hs Hr. induction Hr as [p|p p1 q [x ->] Hr IH]; [by apply since_refl|].
  assert (since p (apply_change p x)) as H1 by (destruct x; by apply since_settled).
  eapply since_trans; [done|]. apply IH, H1.
Qed.

Lemma safe_among {A} (m : Program A) p Q l r q :
  sound p → safe m p Q → among anybody m p l r q →
  Forall entry_granted l ∧ match r with Ok a => Q a q | Err _ => True end.
Proof.
  revert p l. induction m as [r'|B f k IH|B env a k IH]; intros p l Hs Hm (p1 & Hr%since_anybody & Hx); try done.
  - destruct Hx as (-> & -> & ->). split; [constructor|]. by apply Hm.
  - eapply IH; [apply Hr|by apply (Hm p1)|done].
  - destruct Hx as (l' & -> & Hx). destruct (Hm p1 Hr) as [Hg Hk].
    assert (sound (settled (perform env a) p1)) as Hs1 by (apply since_settled, Hr).
    destruct (IH _ _ _ Hs1 Hk Hx) as [Hl Hq]. split; [by constructor|done].
Qed.

Lemma safe_since {A} (m : Program A) p q Q : since p q → safe m p Q → safe m q Q.
Proof.
  intros Hpq Hm. destruct m; intros p1 Hp1; apply (Hm p1); by eapply since_trans.
Qed.

Lemma safe_bind {A B} (m : Program A) (k : A → Program B) p Q :
  sound p → safe m p (λ a q, safe (k a) q Q) → safe (m ≫= k) p Q.
Proof.
  revert p. induction m as [r'|C f c IH|C env a c IH]; intros p Hs Hm.
  - destruct r' as [a|e]; [|by intros p1 _]. cbn. specialize (Hm p (since_refl _ Hs)). exact Hm.
  - intros p1 Hp1. apply IH; [apply Hp1|]. by apply (Hm p1).
  - intros p1 Hp1. destruct (Hm p1 Hp1) as [Hg Hk]. split; [done|].
    apply IH; [|done]. apply since_settled, Hp1.
Qed.

Lemma safe_ret {A} (a : A) p (Q : A → Platform → Prop) : (∀ q, since p q → Q a q) → safe (mret a) p Q.
Proof. intros HQ p1 Hp1. by apply HQ. Qed.
Lemma safe_checks {A} (r : result ServiceError A) p (Q : A → Platform → Prop) :
  (∀ a q, since p q → r = Ok a → Q a q) → safe (checks r) p Q.
Proof. intros HQ p1 Hp1. destruct r as [a|e]; [by apply HQ|done]. Qed.
Lemma safe_reads {A} (f : Platform → result ServiceError A) p (Q : A → Platform → Prop) :
  (∀ a p1 q, since p p1 → f p1 = Ok a → since p1 q → Q a q) → safe (reads f) p Q.
Proof. intros HQ p1 Hp1 q Hq. destruct (f p1) as [a|e] eqn:E; [by eapply HQ|done]. Qed.
Lemma safe_performs {A} env (a : act A) p (Q : A → Platform → Prop) :
  (∀ p1, since p p1 → granted _ a p1) →
  (∀ b p1 p2 q, since p p1 → perform env a p1 = Ok (b, p2) → since p2 q → Q b q) → safe (performs env a) p Q.
Proof.
  intros Hg HQ p1 Hp1. split; [by apply Hg|]. intros q Hq. unfold answered, settled in *.
  destruct (perform env a p1) as [[b p2]|e] eqn:E; [by eapply HQ|done].
Qed.
Lemma safe_attempt {A} (m : Program A) p (Q : result ServiceError A → Platform → Prop) :
  safe m p (λ _ _, True) → (∀ r q, since p q → Q r q) → sound p → safe (attempt m) p Q.
Proof.
  revert p. induction m as [r'|C f c IH|C env a c IH]; intros p Hm HQ Hs.
  - intros p1 Hp1. by apply HQ.
  - intros p1 Hp1. apply IH; [by apply (Hm p1)| |apply Hp1]. intros r q Hq. apply HQ. by eapply since_trans.
  - intros p1 Hp1. destruct (Hm p1 Hp1) as [Hg Hk]. split; [done|].
    assert (since p1 (settled (perform env a) p1)) as H1 by (apply since_settled, Hp1).
    apply IH; [done| |apply H1]. intros r q Hq. apply HQ. eapply since_trans; [done|]. by eapply since_trans.
Qed.
Lemma safe_mono {A} (m : Program A) p (Q Q' : A → Platform → Prop) :
  sound p → safe m p Q → (∀ a q, since p q → Q a q → Q' a q) → safe m p Q'.
Proof.
  revert p. induction m as [r'|C f c IH|C env a c IH]; intros p Hs Hm HQ p1 Hp1.
  - specialize (Hm p1 Hp1). destruct r'; [by apply HQ|done].
  - eapply IH; [apply Hp1|by apply (Hm p1)|]. intros a q Hq. apply HQ. by eapply since_trans.
  - destruct (Hm p1 Hp1) as [Hg Hk]. split; [done|].
    assert (since p1 (settled (perform env a) p1)) as H1 by (apply since_settled, Hp1).
    eapply IH; [apply H1|done|]. intros b q Hq. apply HQ. eapply since_trans; [done|]. by eapply since_trans.
Qed.

(** A step whose answer does not matter. *)
Lemma safe_then {A B} (m : Program A) (k : A → Program B) p Q :
  sound p → safe m p (λ _ _, True) → (∀ a q, since p q → safe (k a) q Q) → safe (m ≫= k) p Q.
Proof.
  intros Hs Hm Hk. apply safe_bind; [done|]. eapply safe_mono; [done|exact Hm|]. intros a q Hq _. by apply Hk.
Qed.
Lemma safe_answers {A} (m : Program A) p Q : sound p → safe m p (λ _ _, True) → (∀ q, since p q → Q tt q) →
  safe (answers m) p Q.
Proof.
  intros Hs Hm HQ. apply safe_bind; [done|]. eapply safe_mono; [done..|].
  intros _ q Hq _. apply safe_ret. intros q' Hq'. apply HQ. by eapply since_trans.
Qed.
End safe.

(** ** Whose a row is *)

(** The row of [id] is there, and it is of a tenant that [rights] covers. *)
Definition in_project (rights : string → bool) (id : string) (p : Platform) : Prop :=
  ∃ row, projects (core p) !! id = Some row ∧ rights (pj_tenant_id row) = true.
Definition in_key (rights : string → bool) (id : string) (p : Platform) : Prop :=
  ∃ row, api_keys (core p) !! id = Some row ∧ rights (ak_tenant_id row) = true.
Definition in_order (rights : string → bool) (id : string) (p : Platform) : Prop :=
  ∃ row, orders (core p) !! id = Some row ∧ rights (od_tenant_id row) = true.
Definition in_payment (rights : string → bool) (id : string) (p : Platform) : Prop :=
  ∃ row, payments (core p) !! id = Some row ∧ in_order rights (py_order_id row) p.
Definition in_refund (rights : string → bool) (id : string) (p : Platform) : Prop :=
  ∃ row, refunds (core p) !! id = Some row ∧ in_payment rights (rf_payment_id row) p.
Definition in_invoice (rights : string → bool) (id : string) (p : Platform) : Prop :=
  ∃ row, invoices p !! id = Some row ∧ rights (in_tenant_id row) = true.
Definition in_membership (rights : string → bool) (id : string) (p : Platform) : Prop :=
  ∃ row, memberships p !! id = Some row ∧ rights (mb_tenant_id row) = true.

(** A fact that no act undoes. *)
Class Kept `{PlatformLibraries} (F : Platform → Prop) : Prop := kept p q : since p q → F p → F q.

Section owned.
Context `{PlatformLibraries}.

#[export] Instance in_project_kept rights id : Kept (in_project rights id).
Proof.
  intros p q Hs (row & Hr & Ht). destruct (ow_projects _ _ (si_owners _ _ Hs) _ _ Hr) as (x & Hx & E).
  unfold Datatypes.id in E. subst x. by exists row.
Qed.
#[export] Instance in_key_kept rights id : Kept (in_key rights id).
Proof.
  intros p q Hs (row & Hr & Ht). destruct (ow_keys _ _ (si_owners _ _ Hs) _ _ Hr) as (x & Hx & [= E _]).
  exists x. by rewrite E.
Qed.
#[export] Instance in_order_kept rights id : Kept (in_order rights id).
Proof.
  intros p q Hs (row & Hr & Ht). destruct (ow_orders _ _ (si_owners _ _ Hs) _ _ Hr) as (x & Hx & [= E _]).
  exists x. by rewrite E.
Qed.
#[export] Instance in_payment_kept rights id : Kept (in_payment rights id).
Proof.
  intros p q Hs (row & Hr & Ht). destruct (ow_payments _ _ (si_owners _ _ Hs) _ _ Hr) as (x & Hx & E).
  exists x. rewrite E. split; [done|]. by eapply in_order_kept.
Qed.
#[export] Instance in_refund_kept rights id : Kept (in_refund rights id).
Proof.
  intros p q Hs (row & Hr & Ht). destruct (ow_refunds _ _ (si_owners _ _ Hs) _ _ Hr) as (x & Hx & E).
  exists x. rewrite E. split; [done|]. by eapply in_payment_kept.
Qed.
#[export] Instance in_invoice_kept rights id : Kept (in_invoice rights id).
Proof.
  intros p q Hs (row & Hr & Ht). destruct (si_invoices _ _ Hs _ _ Hr) as (x & Hx & E).
  unfold Datatypes.id in E. subst x. by exists row.
Qed.
#[export] Instance in_membership_kept rights id : Kept (in_membership rights id).
Proof.
  intros p q Hs (row & Hr & Ht). destruct (si_memberships _ _ Hs _ _ Hr) as (x & Hx & [= _ E]).
  exists x. by rewrite E.
Qed.

(** *** Rows that were found in a list *)

Lemma find_by_Ok {A} (f : A → string) id l a : find_by f id l = Ok a → a ∈ l ∧ f a = id.
Proof.
  intros Hf%ok_or_Ok%List.find_some. destruct Hf as [Hin%list_elem_of_In Hid%str_eqb_eq]. done.
Qed.

Lemma rows_elem {A} (m : gmap string A) x : x ∈ rows m ↔ ∃ k, m !! k = Some x.
Proof.
  unfold rows. rewrite list_elem_of_fmap. split.
  - intros ([k y] & -> & Hk%elem_of_map_to_list). by exists k.
  - intros [k Hk]. exists (k, x). split; [done|]. by apply elem_of_map_to_list.
Qed.

Lemma newest_elem {A} (f : A → Z) l x : x ∈ newest_first f l ↔ x ∈ l.
Proof. unfold newest_first. by rewrite elem_of_reverse, order_by_perm. Qed.

Lemma membership_found p user tenant m : People_ok p → find_membership user tenant p = Some m →
  memberships p !! mb_id m = Some m ∧ mb_user_id m = user ∧ mb_tenant_id m = tenant.
Proof.
  intros Hs [Hin%list_elem_of_In E]%List.find_some. apply rows_elem in Hin as [k Hk].
  rewrite (po_membership _ Hs _ _ Hk).
  apply andb_true_iff in E as [->%str_eqb_eq ->%str_eqb_eq]. done.
Qed.
End owned.

(** ** What a person may do *)

Section permitted.
Context `{PlatformLibraries}.
Variable cfg : Config.
Variable c : UserContext.

Definition by_caller (actor : string) : Prop := actor = pu_id (uc_user c).
Definition by_name (actor subject : string) : Prop :=
  uc_auth_disabled c = false ∧ actor = pu_id (uc_user c) ∧ subject = pu_external_subject (uc_user c).
Definition administrator : Prop := platform_admin cfg c = Ok tt.

Definition permitted_control (o : control_op) (p : Platform) : Prop :=
  match o with
  | PutRoute project _ _ _ actor _ | ReleaseRoute project _ _ _ actor =>
      in_project (can_manage c) (prj_id project) p ∧ by_caller actor
  | PutEndpoint _ _ _ => administrator
  | RegisterMember _ _ actor | RotateMember _ _ _ actor | RevokeMember _ actor | PutDesired _ _ actor
  | BindPool _ actor _ | TransitionPool _ _ _ actor => administrator ∧ by_caller actor
  | _ => False
  end.

Definition permitted_op (o : op) (p : Platform) : Prop :=
  match o with
  | CreateProject v => can_access c (prj_tenant_id v) = true
  | IssueApiKey r _ => can_access c (akr_tenant_id r) = true
  | RevokeApiKey id => in_key (can_access c) id p
  | PutCatalogModel _ _ => administrator
  | UpdateBalancePolicy project _ => in_project (can_manage c) project p
  | SubmitEvidence project _ actor subject _ => in_project (can_manage c) project p ∧ by_name actor subject
  | SubmitWaiver _ _ actor subject _ | Decide _ _ actor subject _ =>
      is_billing_reviewer cfg c = true ∧ by_name actor subject
  | RetryJob account actor _ =>
      ∃ project, account = account_id project ∧ in_project (can_manage c) project p ∧ by_caller actor
  | CreateOrder r => can_manage c (cor_tenant_id r) = true
  | CapturePayment order r _ =>
      in_order (can_manage c) order p ∧ cap_provider r = "manual-test" ∧
      cf_console_auth cfg = false ∧ cf_alipay cfg = None
  | RefundManually r _ | PrepareRefund r _ => in_payment (can_manage c) (crf_payment_id r) p
  | StoreCheckout id _ _ => in_order (can_manage c) id p
  | AcceptTrade _ trade => in_order (can_manage c) (vt_order trade) p
  | OperateRefund id _ _ _ _ | ImportRefundEvidence _ id _ => in_refund (can_manage c) id p
  | OnRegistry o => permitted_control o p
  | _ => False
  end.

Definition permitted (A : Type) (a : act A) (p : Platform) : Prop :=
  match a with
  | OnCore o => permitted_op o p
  | AccountOf project | BalanceOf project => in_project (can_access c) project p
  | BeginCheckout id _ => in_order (can_manage c) id p
  | InsertMembership row => can_manage c (mb_tenant_id row) = true
  | SetRole id _ => in_membership (can_manage c) id p
  | InsertInvoice row => can_manage c (in_tenant_id row) = true
  | RequestTaxInvoice id _ => in_invoice (can_manage c) id p
  | AcknowledgeAlert _ actor _ => administrator ∧ by_caller actor
  | SpendOf _ _ | SyncUser _ _ _ _ _ | AuditOperation _ _ _ _ | ReceiveAlerts _ => False
  end.
End permitted.
