(* ===== verification/Permits.v ===== *)
(** * Permits: every handler of the console does what its caller may do

    Each handler of Console.v is [safe] for [permitted]: what it read about
    the owner of a row still holds when it acts, and it acts on no other row. *)

From S2P Require Import Prelude Http Domain Models Routing Fleet Store Books Catalog Projection Ledger.
From S2P Require Import Reservations Review Wallet Routes Clusters Pools Snapshot Traffic Control.
From S2P Require Import Maintenance Lifecycle Payments Alipay Trial Worker Feed Registry Billing Owners.
From S2P Require Import Platform Lists Console Edge Access.
Local Open Scope string_scope.
Local Open Scope Z_scope.

(** ** What was read *)

Definition payment_row (id order : string) (p : Platform) : Prop :=
  ∃ row, payments (core p) !! id = Some row ∧ py_order_id row = order.
Definition refund_row (id payment : string) (p : Platform) : Prop :=
  ∃ row, refunds (core p) !! id = Some row ∧ rf_payment_id row = payment.

(** The rows of a list are there, with the owners that the list names. *)
Definition known_projects (l : list Project) (p : Platform) : Prop :=
  ∀ x, x ∈ l → in_project (str_eqb (prj_tenant_id x)) (prj_id x) p.
Definition known_keys (l : list ApiKey) (p : Platform) : Prop :=
  ∀ x, x ∈ l → in_key (str_eqb (ap_tenant_id x)) (ap_id x) p.
Definition known_orders (l : list Order) (p : Platform) : Prop :=
  ∀ x, x ∈ l → in_order (str_eqb (od_tenant_id x)) (od_id x) p.
Definition known_payments (l : list Payment) (p : Platform) : Prop :=
  ∀ x, x ∈ l → payment_row (py_id x) (py_order_id x) p.
Definition known_refunds (l : list Refund) (p : Platform) : Prop :=
  ∀ x, x ∈ l → refund_row (rf_id x) (rf_payment_id x) p.

Definition known_membership (tenant : string) (o : option MembershipRow) (p : Platform) : Prop :=
  match o with Some m => in_membership (str_eqb tenant) (mb_id m) p | None => True end.

Section known.
Context `{PlatformLibraries}.

#[export] Instance payment_row_kept id order : Kept (payment_row id order).
Proof.
  intros p q Hs (row & Hr & Ho). destruct (ow_payments _ _ (si_owners _ _ Hs) _ _ Hr) as (x & Hx & E).
  exists x. split; [done|congruence].
Qed.
#[export] Instance refund_row_kept id payment : Kept (refund_row id payment).
Proof.
  intros p q Hs (row & Hr & Ho). destruct (ow_refunds _ _ (si_owners _ _ Hs) _ _ Hr) as (x & Hx & E).
  exists x. split; [done|congruence].
Qed.

Lemma kept_all {A} (F : A → Platform → Prop) (l : list A) `{!∀ x, Kept (F x)} p q :
  since p q → (∀ x, x ∈ l → F x p) → ∀ x, x ∈ l → F x q.
Proof. intros Hs Hl x Hx. eapply kept; [done|]. by apply Hl. Qed.

#[export] Instance known_projects_kept l : Kept (known_projects l).
Proof. intros p q. exact (kept_all (λ x, in_project (str_eqb (prj_tenant_id x)) (prj_id x)) l p q). Qed.
#[export] Instance known_keys_kept l : Kept (known_keys l).
Proof. intros p q. exact (kept_all (λ x, in_key (str_eqb (ap_tenant_id x)) (ap_id x)) l p q). Qed.
#[export] Instance known_orders_kept l : Kept (known_orders l).
Proof. intros p q. exact (kept_all (λ x, in_order (str_eqb (od_tenant_id x)) (od_id x)) l p q). Qed.
#[export] Instance known_payments_kept l : Kept (known_payments l).
Proof. intros p q. exact (kept_all (λ x, payment_row (py_id x) (py_order_id x)) l p q). Qed.
#[export] Instance known_refunds_kept l : Kept (known_refunds l).
Proof. intros p q. exact (kept_all (λ x, refund_row (rf_id x) (rf_payment_id x)) l p q). Qed.

#[export] Instance known_membership_kept tenant o : Kept (known_membership tenant o).
Proof. intros p q Hs. destruct o as [m|]; [|done]. exact (in_membership_kept _ _ p q Hs). Qed.
Lemma know_membership user tenant p o : sound p → Ok (find_membership user tenant p) =@{result ServiceError _} Ok o →
  known_membership tenant o p.
Proof.
  intros Hs [= <-]. destruct (find_membership user tenant p) as [m|] eqn:E; [|done].
  apply membership_found in E as (Hm & _ & <-); [|apply Hs]. exists m. split; [done|apply str_eqb_refl].
Qed.

Lemma know_projects p : sound p → known_projects (Lists.list_projects p) p.
Proof.
  intros Hs x Hin. unfold Lists.list_projects in Hin.
  apply list_elem_of_fmap in Hin as (row & -> & [k Hk]%elem_of_order_by_text%rows_elem).
  pose proof (co_project _ (inv_config _ _ (hl_inv _ (so_core _ Hs))) _ _ Hk) as E.
  exists row. simpl. rewrite E. split; [done|apply str_eqb_refl].
Qed.
Lemma know_keys p now : sound p → known_keys (Lists.list_api_keys now p) p.
Proof.
  intros Hs x Hin. unfold Lists.list_api_keys in Hin.
  apply list_elem_of_fmap in Hin as (row & -> & [k Hk]%elem_of_order_by_text%rows_elem).
  pose proof (co_key _ (inv_config _ _ (hl_inv _ (so_core _ Hs))) _ _ Hk) as E.
  exists row. simpl. rewrite E. split; [done|apply str_eqb_refl].
Qed.
Lemma know_orders p : sound p → known_orders (Lists.list_orders p) p.
Proof.
  intros Hs x [k Hk]%newest_elem%rows_elem.
  destruct (wk_order _ (hl_wallet _ (so_core _ Hs)) _ _ Hk) as [E _].
  exists x. rewrite E. split; [done|apply str_eqb_refl].
Qed.
Lemma know_payments p : sound p → known_payments (Lists.list_payments p) p.
Proof.
  intros Hs x [k Hk]%newest_elem%rows_elem.
  destruct (wk_payment _ (hl_wallet _ (so_core _ Hs)) _ _ Hk) as [E _].
  exists x. by rewrite E.
Qed.
Lemma know_refunds p : sound p → known_refunds (Lists.list_refunds p) p.
Proof.
  intros Hs x [k Hk]%newest_elem%rows_elem.
  destruct (wk_refund _ (hl_wallet _ (so_core _ Hs)) _ _ Hk) as [E _].
  exists x. by rewrite E.
Qed.
Lemma know_project id p x : sound p → get_project id p = Ok x →
  in_project (str_eqb (prj_tenant_id x)) (prj_id x) p.
Proof.
  unfold get_project. intros Hs Hx%ok_or_Ok.
  destruct (projects (core p) !! id) as [row|] eqn:Hr; [|done]. injection Hx as <-.
  pose proof (co_project _ (inv_config _ _ (hl_inv _ (so_core _ Hs))) _ _ Hr) as E.
  exists row. simpl. rewrite E. split; [done|apply str_eqb_refl].
Qed.
Lemma know_order id p x : payment_order id p = Ok x → in_order (str_eqb (od_tenant_id x)) id p.
Proof. intros Hx%ok_or_Ok. exists x. split; [done|apply str_eqb_refl]. Qed.
Lemma know_payment id p x : find_payment id p = Ok x → payment_row id (py_order_id x) p.
Proof. intros Hx%ok_or_Ok. by exists x. Qed.
Lemma know_refund id p x : refund_payment id p = Ok x →
  ∃ payment, refund_row id payment p ∧ payment_row payment (py_order_id x) p.
Proof.
  unfold refund_payment. destruct (ok_or _ _) as [row|] eqn:Hr; [|done]. intros Hx.
  apply ok_or_Ok in Hr, Hx. exists (rf_payment_id row). split; [by exists row|by exists x].
Qed.
Lemma know_statement id p x : statement id p = Ok x → in_invoice (str_eqb (in_tenant_id x)) id p.
Proof. intros Hx%ok_or_Ok. exists x. split; [done|apply str_eqb_refl]. Qed.

(** *** Whoever has the rights of the owner has them of the row *)

Lemma rights_project (rights : string → bool) t id p :
  rights t = true → in_project (str_eqb t) id p → in_project rights id p.
Proof. intros Ht (row & Hr & ->%str_eqb_eq). by exists row. Qed.
Lemma rights_key (rights : string → bool) t id p :
  rights t = true → in_key (str_eqb t) id p → in_key rights id p.
Proof. intros Ht (row & Hr & ->%str_eqb_eq). by exists row. Qed.
Lemma rights_order (rights : string → bool) t id p :
  rights t = true → in_order (str_eqb t) id p → in_order rights id p.
Proof. intros Ht (row & Hr & ->%str_eqb_eq). by exists row. Qed.
Lemma rights_invoice (rights : string → bool) t id p :
  rights t = true → in_invoice (str_eqb t) id p → in_invoice rights id p.
Proof. intros Ht (row & Hr & ->%str_eqb_eq). by exists row. Qed.
Lemma rights_membership (rights : string → bool) t id p :
  rights t = true → in_membership (str_eqb t) id p → in_membership rights id p.
Proof. intros Ht (row & Hr & ->%str_eqb_eq). by exists row. Qed.
Lemma rights_payment (rights : string → bool) order id p :
  in_order rights order p → payment_row id order p → in_payment rights id p.
Proof. intros Ho (row & Hr & <-). by exists row. Qed.
Lemma rights_refund (rights : string → bool) payment id p :
  in_payment rights payment p → refund_row id payment p → in_refund rights id p.
Proof. intros Ho (row & Hr & <-). by exists row. Qed.
Lemma manage_access c id p : in_project (can_manage c) id p → in_project (can_access c) id p.
Proof.
  intros (row & Hr & Hm). exists row. split; [done|]. unfold can_manage, can_access in *.
  destruct (uc_auth_disabled c); [done|]. simpl in *. rewrite existsb_exists in Hm |- *.
  destruct Hm as (m & Hin & [Ht _]%andb_true_iff). by exists m.
Qed.
End known.

Create HintDb console.

(** ** Stepping through a handler *)

(** [onward Hs] with [Hs : since p q]: what is known of [p] is known of [q]. *)
Ltac onward Hs :=
  lazymatch type of Hs with
  | since ?p ?q =>
      repeat match goal with
      | F : ?P p |- _ => lazymatch P with sound => fail | _ => idtac end; apply (kept (F := P) p q Hs) in F
      end
  end.

(** What a query that answered says of the platform. *)
Ltac learn E :=
  lazymatch type of E with
  | Ok (Lists.list_projects ?p) = Ok ?l => injection E as <-; let K := fresh "K" in pose proof (know_projects p) as K; specialize (K ltac:(assumption))
  | Ok (Lists.list_api_keys ?t ?p) = Ok ?l => injection E as <-; let K := fresh "K" in pose proof (know_keys p t) as K; specialize (K ltac:(assumption))
  | Ok (Lists.list_orders ?p) = Ok ?l => injection E as <-; let K := fresh "K" in pose proof (know_orders p) as K; specialize (K ltac:(assumption))
  | Ok (Lists.list_payments ?p) = Ok ?l => injection E as <-; let K := fresh "K" in pose proof (know_payments p) as K; specialize (K ltac:(assumption))
  | Ok (Lists.list_refunds ?p) = Ok ?l => injection E as <-; let K := fresh "K" in pose proof (know_refunds p) as K; specialize (K ltac:(assumption))
  | Ok (find_membership _ _ _) = Ok _ => apply know_membership in E; [|assumption]
  | get_project _ _ = Ok _ => apply know_project in E; [|assumption]
  | payment_order _ _ = Ok _ => apply know_order in E
  | find_payment _ _ = Ok _ => apply know_payment in E
  | refund_payment _ _ = Ok _ => let y := fresh "pay" in let H1 := fresh "Hrefund" in
      apply know_refund in E as (y & H1 & E)
  | statement _ _ = Ok _ => apply know_statement in E
  | platform_admin _ _ = Ok ?u => destruct u
  | require _ _ = Ok _ => apply require_Ok in E
  | require_tenant _ _ = Ok _ => apply require_Ok in E
  | require_tenant_owner _ _ = Ok _ => apply require_Ok in E
  | find_by _ _ _ = Ok ?x => let H1 := fresh "Hin" in let H2 := fresh "Hid" in
      apply find_by_Ok in E as [H1 H2];
      first [ lazymatch goal with K : known_projects _ ?p |- _ => pose proof (K _ H1) end
            | lazymatch goal with K : known_keys _ ?p |- _ => pose proof (K _ H1) end
            | idtac ];
      try (lazymatch type of H1 with _ ∈ Lists.list_orders _ =>
             lazymatch goal with K : known_orders _ ?p |- _ => pose proof (K _ H1) end end);
      try (lazymatch type of H1 with _ ∈ Lists.list_payments _ =>
             lazymatch goal with K : known_payments _ ?p |- _ => pose proof (K _ H1) end end)
  | _ => idtac
  end.

Ltac sound_of Hs := lazymatch type of Hs with since ?p ?q =>
  let H1 := fresh "Hsound" in assert (sound q) as H1 by exact (si_sound _ _ Hs) end.

(** An act on a row whose owner is known. *)
Ltac owned L := eapply L; [|eassumption].
Ltac grant := solve
  [ assumption
  | owned rights_project; assumption
  | apply manage_access; first [assumption | owned rights_project; assumption]
  | owned rights_key; assumption | owned rights_order; assumption
  | owned rights_invoice; assumption | owned rights_membership; assumption
  | owned rights_payment; owned rights_order; assumption
  | owned rights_refund; owned rights_payment; owned rights_order; assumption ].

Ltac step_safe := cbv beta zeta; lazymatch goal with
  | |- safe _ (mbind _ _) _ _ => apply safe_bind; [assumption|]
  | |- safe _ (checks _) _ _ =>
      let a := fresh "a" in let q := fresh "p" in let Hs := fresh "Hs" in let E := fresh "E" in
      apply safe_checks; intros a q Hs E; sound_of Hs; onward Hs; learn E; clear Hs
  | |- safe _ (reads _) _ _ =>
      let a := fresh "a" in let p1 := fresh "p" in let q := fresh "p" in let Hs := fresh "Hs" in
      let Hq := fresh "Hq" in let E := fresh "E" in
      apply safe_reads; intros a p1 q Hs E Hq; cbv beta in E; sound_of Hs; sound_of Hq; onward Hs; learn E; onward Hq; clear Hs Hq
  | |- safe _ (performs _ _) _ _ =>
      let a := fresh "a" in let p1 := fresh "p" in let p2 := fresh "p" in let q := fresh "p" in
      let Hs := fresh "Hs" in let Hq := fresh "Hq" in let E := fresh "E" in
      apply safe_performs;
      [ intros p1 Hs; sound_of Hs; onward Hs; clear Hs
      | intros a p1 p2 q Hs E Hq; sound_of Hs;
        let Hp := fresh "Hp" in pose proof (since_perform _ _ _ _ _ (si_sound _ _ Hs) E) as Hp;
        sound_of Hp; sound_of Hq; onward Hs; onward Hp; onward Hq; clear Hs Hp Hq ]
  | |- safe _ (mret _) _ _ =>
      let q := fresh "p" in let Hs := fresh "Hs" in
      apply safe_ret; intros q Hs; sound_of Hs; onward Hs; clear Hs
  | |- safe _ (answers _) _ _ => apply safe_answers; [assumption| |]
  | |- safe _ (let _ := _ in _) _ _ => cbv zeta
  end.

(** The steps, and the acts that follow from what is known. *)
Ltac leaf := solve [unfold by_caller, by_name, administrator in *; cbn; split_and?; first [done | grant]].
Ltac walk := repeat step_safe; subst; try done; try leaf.

Section handlers.
Context `{PlatformLibraries}.
Variables (cfg : Config) (env : nat → Env).

Abbreviation safely c := (safe (permitted cfg c)).

Lemma authorize_project_safe c id p : sound p →
  safely c (authorize_project c id) p (λ _ q, in_project (can_access c) id q).
Proof. intros Hs. unfold authorize_project. repeat step_safe. subst. grant. Qed.
Lemma authorize_owner_safe c id p : sound p →
  safely c (authorize_project_owner c id) p (λ _ q, in_project (can_manage c) id q).
Proof. intros Hs. unfold authorize_project_owner. repeat step_safe. subst. grant. Qed.

Lemma account_answer n id p a q : sound p → perform (env n) (AccountOf id) p = Ok (a, q) → ac_id a = account_id id.
Proof.
  intros Hs Hrun. apply on_core_Ok in Hrun as (d & Hrun & ->).
  eapply ensure_account_Ok in Hrun as (HI & Hac & _); [|apply Hs].
  destruct (co_account _ (inv_config _ _ HI) _ _ Hac) as (_ & Hid & _). done.
Qed.

Lemma billing_account_safe c n id p : sound p → in_project (can_access c) id p →
  safely c (billing_account env n id) p (λ a _, ac_id a.1 = account_id id).
Proof.
  intros Hs Hp. unfold billing_account. repeat step_safe; cbn; try done. eapply account_answer; [|exact E]; assumption.
Qed.

Lemma update_membership_safe c user tenant role p : sound p →
  safely c (update_membership env c user tenant role) p (λ _ _, True).
Proof.
  intros Hs. unfold update_membership, change_membership. walk.
  destruct a2 as [m|]; cbn in E2; walk. destruct (_ && _); walk.
Qed.

Lemma create_project_safe c h v p : sound p → safely c (create_project env c h v) p (λ _ _, True).
Proof. intros Hs. unfold create_project, on_service. walk. Qed.
Lemma create_api_key_safe c h r random p : sound p → safely c (create_api_key env c h r random) p (λ _ _, True).
Proof. intros Hs. unfold create_api_key, on_service. walk. Qed.
Lemma revoke_api_key_safe c id p : sound p → safely c (revoke_api_key env c id) p (λ _ _, True).
Proof. intros Hs. unfold revoke_api_key, on_service. walk. Qed.
Lemma put_route_policy_safe c project model r p : sound p →
  safely c (put_route_policy cfg env c project model r) p (λ _ _, True).
Proof. intros Hs. unfold put_route_policy, on_registry, on_service. walk. Qed.
Lemma release_action_safe c project model action p : sound p →
  safely c (release_action cfg env c project model action) p (λ _ _, True).
Proof. intros Hs. unfold release_action, on_registry, on_service. walk. Qed.

(** After a program with a lemma of its own. *)
Lemma safe_use {A B} c (m : Program A) (k : A → Program B) p Q Q' :
  sound p → safely c m p Q → (∀ a q, since p q → Q a q → safely c (k a) q Q') → safely c (m ≫= k) p Q'.
Proof. intros Hs Hm Hk. apply safe_bind; [done|]. by eapply safe_mono. Qed.

Ltac use_safe L := eapply safe_use; [assumption|apply L; try assumption|
  let a := fresh "a" in let q := fresh "p" in let Hq := fresh "Hq" in let HQ := fresh "HQ" in
  intros a q Hq HQ; sound_of Hq; onward Hq; clear Hq; cbv beta in HQ].

Lemma get_billing_account_safe c project p : sound p → safely c (get_billing_account env c project) p (λ _ _, True).
Proof.
  intros Hs. unfold get_billing_account. use_safe authorize_project_safe.
  eapply safe_mono; [assumption|by apply billing_account_safe|done].
Qed.
Lemma update_balance_policy_safe c project enforce p : sound p →
  safely c (update_balance_policy env c project enforce) p (λ _ _, True).
Proof.
  intros Hs. unfold update_balance_policy, on_service. use_safe authorize_owner_safe. walk.
  eapply safe_mono; [assumption|apply billing_account_safe; [assumption|grant]|done].
Qed.
Lemma position_safe c project p : sound p → safely c (console_billing_position env c project) p (λ _ _, True).
Proof.
  intros Hs. unfold console_billing_position. use_safe authorize_project_safe. walk.
  match goal with |- context [match ?o with Some _ => _ | None => _ end] => destruct o end; walk.
Qed.
Lemma event_worker_safe c project p : sound p → safely c (event_worker_status env c project) p (λ _ _, True).
Proof.
  intros Hs. unfold event_worker_status. use_safe authorize_owner_safe.
  use_safe billing_account_safe; [grant|]. walk.
Qed.
Lemma retry_event_worker_safe c project reason p : sound p →
  safely c (retry_event_worker env c project reason) p (λ _ _, True).
Proof.
  intros Hs. unfold retry_event_worker, on_service. use_safe authorize_owner_safe.
  use_safe billing_account_safe; [grant|]. walk. cbn. exists project. split_and!; done.
Qed.
Lemma pending_safe c project r p : sound p →
  safely c (console_pending_reservations cfg env c project r) p (λ _ _, True).
Proof.
  intros Hs. unfold console_pending_reservations, authorize_billing_review_read.
  destruct (is_billing_reviewer cfg c); [walk|]. use_safe authorize_owner_safe. walk.
Qed.

Lemma submit_evidence_safe c project id r p : sound p →
  safely c (submit_billing_evidence env c project id r) p (λ _ _, True).
Proof.
  intros Hs. unfold submit_billing_evidence, on_service. step_safe. step_safe. apply negb_true_iff in E.
  use_safe authorize_owner_safe. walk.
Qed.
Lemma reviewer_named c : is_billing_reviewer cfg c = true → uc_auth_disabled c = false.
Proof. by intros [?%negb_true_iff _]%andb_true_iff. Qed.
Lemma submit_waiver_safe c project id r p : sound p →
  safely c (submit_billing_waiver cfg env c project id r) p (λ _ _, True).
Proof.
  intros Hs. unfold submit_billing_waiver, on_service. walk. pose proof (reviewer_named _ E). walk.
Qed.
Lemma decide_safe c project id r p : sound p →
  safely c (decide_billing_review cfg env c project id r) p (λ _ _, True).
Proof.
  intros Hs. unfold decide_billing_review, on_service. walk. pose proof (reviewer_named _ E). walk.
Qed.

Lemma create_order_safe c h r p : sound p → safely c (create_order env c h r) p (λ _ _, True).
Proof. intros Hs. unfold create_order, on_service. walk. Qed.
Lemma capture_payment_safe c order h r p : sound p →
  safely c (capture_payment cfg env c order h r) p (λ _ _, True).
Proof.
  intros Hs. unfold capture_payment, on_service. step_safe. step_safe.
  apply negb_true_iff, orb_false_iff in E as [[E1 E2%is_some_false]%orb_false_iff E3%negb_false_iff%str_eqb_eq]. walk.
Qed.
Lemma create_refund_safe c h r p : sound p → safely c (create_refund env c h r) p (λ _ _, True).
Proof.
  intros Hs. unfold create_refund, on_service. repeat step_safe; subst; [|done].
  cbn. rewrite <- Hid. eapply rights_payment; [|eassumption]. rewrite <- Hid0. eapply rights_order; eassumption.
Qed.

Lemma called_Ok {A} id method answer (reply : string → SignedResponse → result PaymentError A) x :
  from_provider (called id method answer reply) = Ok x → ∃ raw, reply id raw = Ok x.
Proof.
  unfold from_provider, called. intros Hx. destruct (require _ _) as [[]|]; [|done].
  destruct (ok_or answer PayUnavailable) as [bytes|]; [|done]. simpl in Hx.
  destruct (response method bytes) as [raw|]; [|done]. exists raw. simpl in Hx. destruct (reply id raw); congruence.
Qed.
Lemma query_order order raw trade : query_reply order raw = Ok trade → vt_order trade = order.
Proof.
  unfold query_reply. intros Hx. apply result_bind_Ok in Hx as (reply & _ & Hx).
  apply require_bind_Ok in Hx as [<-%str_eqb_eq Hx]. apply result_bind_Ok in Hx as (amount & _ & Hx).
  apply result_bind_Ok in Hx as (t & Ht%verified_trade_Ok & [= <-]). by destruct Ht as [-> _].
Qed.

Lemma alipay_checkout_safe c id answer p : sound p → safely c (alipay_checkout cfg env c id answer) p (λ _ _, True).
Proof.
  intros Hs. unfold alipay_checkout, on_service. walk.
  match goal with |- context [match ?o with Some _ => _ | None => _ end] => destruct o end; walk.
Qed.
Lemma alipay_sync_safe c id answer p : sound p → safely c (alipay_sync cfg env c id answer) p (λ _ _, True).
Proof.
  intros Hs. unfold alipay_sync, on_service. repeat step_safe; [|done].
  match goal with Hx : from_provider _ = Ok _ |- _ => apply called_Ok in Hx as [raw Hx%query_order] end.
  cbn. subst. by eapply rights_order.
Qed.
Lemma prepare_refund_safe c r p : sound p → safely c (prepare_alipay_refund cfg env c r) p (λ _ _, True).
Proof. intros Hs. unfold prepare_alipay_refund, on_service. walk. Qed.
Lemma refund_action_safe c id submit submitted queried p : sound p →
  safely c (alipay_refund_action cfg env c id submit submitted queried) p (λ _ _, True).
Proof. intros Hs. unfold alipay_refund_action, on_service. walk. Qed.
Lemma import_evidence_safe c id body p : sound p → safely c (import_refund_evidence cfg env c id body) p (λ _ _, True).
Proof. intros Hs. unfold import_refund_evidence, on_service. walk. Qed.

Lemma create_invoice_safe c h r p : sound p → safely c (create_invoice env c h r) p (λ _ _, True).
Proof. intros Hs. unfold create_invoice, issue_statement. walk. Qed.
Lemma request_tax_safe c id r p : sound p → safely c (request_tax_invoice env c id r) p (λ _ _, True).
Proof. intros Hs. unfold request_tax_invoice. walk. Qed.
Lemma acknowledge_safe c id reason p : sound p → safely c (acknowledge_alert cfg env c id reason) p (λ _ _, True).
Proof. intros Hs. unfold acknowledge_alert. walk. Qed.
Lemma administer_safe c o p : sound p → (platform_admin cfg c = Ok tt → ∀ q, permitted_op cfg c o q) →
  safely c (administer cfg env c o) p (λ _ _, True).
Proof. intros Hs Ho. unfold administer, on_service. walk. by apply Ho. Qed.

(** *** Handlers that only read *)

Create HintDb handlers discriminated.
#[local] Hint Constants Opaque : handlers.
#[local] Hint Resolve update_membership_safe create_project_safe create_api_key_safe revoke_api_key_safe
  put_route_policy_safe release_action_safe get_billing_account_safe update_balance_policy_safe
  position_safe event_worker_safe retry_event_worker_safe pending_safe submit_evidence_safe
  submit_waiver_safe decide_safe create_order_safe capture_payment_safe create_refund_safe
  alipay_checkout_safe alipay_sync_safe prepare_refund_safe refund_action_safe import_evidence_safe
  create_invoice_safe request_tax_safe acknowledge_safe : handlers.

#[local] Hint Unfold list_users list_projects list_api_keys list_route_policies route_history route_acks
  list_orders list_payments list_refunds list_ledger list_invoices tax_request_status reconcile ops_alerts
  list_operation_audits managed_pool_status put_model put_serving_endpoint register_cluster
  put_cluster_desired rotate_cluster_credential revoke_cluster bind_pool pool_transition : console.

Lemma summary_safe c project from to p : sound p →
  safely c (billing_summary env c project from to) p (λ _ _, True).
Proof.
  intros Hs. unfold billing_summary. destruct project as [id|]; [|walk].
  destruct (is_empty id); [walk|]. use_safe authorize_project_safe. walk.
Qed.

(** Every route of the console. *)
Lemma handle_safe c h r p : sound p → safely c (handle cfg env c h r) p (λ _ _, True).
Proof.
  intros Hs. destruct r; cbn [handle]; try (apply safe_answers; [done| |done]).
  all: try solve [eauto using summary_safe with handlers].
  all: autounfold with console.
  all: lazymatch goal with
       | |- safe _ (administer _ _ _ _) _ _ => apply administer_safe; [done|by intros ? ?]
       | _ => walk
       end.
Qed.
End handlers.
