(* ===== verification/Doors.v ===== *)
(** * Doors: what a message can make the control plane do

    The messages of Edge.v from outside, among everything that anybody else
    does meanwhile: which acts a message leads to, for whom, and what is
    recorded about them. *)

From S2P Require Import Prelude Http Domain Models Routing Fleet Store Books Catalog Projection Ledger.
From S2P Require Import Reservations Review Wallet Routes Clusters Pools Snapshot Traffic Control.
From S2P Require Import Maintenance Lifecycle Payments Alipay Trial Worker Feed Registry Billing Owners.
From S2P Require Import Platform Lists Console Edge Access Permits.
Local Open Scope string_scope.
Local Open Scope Z_scope.

Section traces.
Context `{PlatformLibraries}.

(** ** Parts of a run *)

Lemma among_bind {A B} others (m : Program A) (k : A → Program B) p l r q :
  among others (m ≫= k) p l r q → ∃ l1 r1 q1, among others m p l1 r1 q1 ∧
  match r1 with
  | Ok a => ∃ l2, among others (k a) q1 l2 r q ∧ l = (l1 ++ l2)%list
  | Err e => l = l1 ∧ r = Err e ∧ q = q1
  end.
Proof.
  revert p l. induction m as [[a|e]|C f c IH|C env a c IH]; intros p l Hx.
  - exists [], (Ok a), p. split; [by exists p|]. by exists l.
  - destruct Hx as (p1 & Hr & -> & -> & ->). exists [], (Err e), p1. split; [by exists p1|done].
  - destruct Hx as (p1 & Hr & Hx). destruct (IH _ _ _ Hx) as (l1 & r1 & q1 & H1 & H2).
    exists l1, r1, q1. split; [by exists p1|done].
  - destruct Hx as (p1 & Hr & l' & -> & Hx). destruct (IH _ _ _ Hx) as (l1 & r1 & q1 & H1 & H2).
    exists (mkPerformed (Change env a) p1 :: l1), r1, q1. split; [exists p1; split; [done|]; by exists l1|].
    destruct r1 as [b|e]; [|naive_solver]. destruct H2 as (l2 & H2 & ->). by exists l2.
Qed.

Lemma among_checks {A} others (r0 : result ServiceError A) p l r q :
  among others (checks r0) p l r q → l = [] ∧ r = r0 ∧ rtc others p q.
Proof. by intros (p1 & Hr & -> & -> & ->). Qed.

Lemma among_performs {A} others env (a : act A) p l r q :
  among others (performs env a) p l r q → ∃ p1, rtc others p p1 ∧
    l = [mkPerformed (Change env a) p1] ∧ r = answered (perform env a) p1 ∧
    rtc others (settled (perform env a) p1) q.
Proof. intros (p1 & Hr & l' & -> & p2 & Hr' & -> & -> & ->). by exists p1. Qed.

Lemma among_attempt {A} others (m : Program A) p l r q :
  among others (attempt m) p l r q → ∃ r', r = Ok r' ∧ among others m p l r' q.
Proof.
  revert p l. induction m as [r0|C f c IH|C env a c IH]; intros p l Hx.
  - destruct Hx as (p1 & Hr & -> & -> & ->). exists r0. split; [done|]. by exists p1.
  - destruct Hx as (p1 & Hr & Hx). destruct (IH _ _ _ Hx) as (r' & -> & H1). exists r'. split; [done|]. by exists p1.
  - destruct Hx as (p1 & Hr & l' & -> & Hx). destruct (IH _ _ _ Hx) as (r' & -> & H1).
    exists r'. split; [done|]. exists p1. split; [done|]. by exists l'.
Qed.

Lemma among_since {A} (m : Program A) p l r q : sound p → among anybody m p l r q → since p q.
Proof.
  intros Hs Hx. revert p l Hs Hx. induction m as [r0|C f c IH|C env a c IH]; intros p l Hs (p1 & Hr%since_anybody & Hx); try done.
  - by destruct Hx as (_ & _ & ->).
  - eapply since_trans; [done|]. eapply IH; [apply Hr|done].
  - destruct Hx as (l' & _ & Hx). eapply since_trans; [done|].
    assert (since p1 (settled (perform env a) p1)) as H1 by (apply since_settled, Hr).
    eapply since_trans; [done|]. eapply IH; [apply H1|done].
Qed.
End traces.

(** ** The console *)

Section console.
Context `{PlatformLibraries}.
Variables (cfg : Config) (env door : nat → Env).

(** The records of a request. *)
Definition audits (user : PlatformUser) (operation route : string) (e : performed) : Prop :=
  match pe_change e with
  | Change _ a => match a with
                  | AuditOperation actor op path _ => actor = pu_id user ∧ op = operation ∧ path = route
                  | _ => False
                  end
  end.

(** What a request that changes nothing may still do: open the account of a
    project and cache its balance. *)
Definition opens (A : Type) (a : act A) (p : Platform) : Prop :=
  match a with AccountOf _ | BalanceOf _ => True | _ => False end.

Lemma quiet_project c id p : sound p → safe opens (authorize_project c id) p (λ _ _, True).
Proof. intros Hs. unfold authorize_project. walk. Qed.
Lemma quiet_owner c id p : sound p → safe opens (authorize_project_owner c id) p (λ _ _, True).
Proof. intros Hs. unfold authorize_project_owner. walk. Qed.
Lemma quiet_account n id p : sound p → safe opens (billing_account env n id) p (λ _ _, True).
Proof. intros Hs. unfold billing_account. walk. Qed.

Lemma quiet_use {A B} (m : Program A) (k : A → Program B) p Q Q' :
  sound p → safe opens m p Q → (∀ a q, since p q → sound q → safe opens (k a) q Q') → safe opens (m ≫= k) p Q'.
Proof. intros Hs Hm Hk. apply safe_bind; [done|]. eapply safe_mono; [done..|]. intros a q Hq _. apply Hk; [done|apply Hq]. Qed.

Ltac after L := eapply quiet_use; [assumption|by apply L|intros ? ? _ ?].

#[local] Hint Unfold list_users list_projects list_api_keys list_route_policies route_history route_acks
  list_orders list_payments list_refunds list_ledger list_invoices tax_request_status reconcile ops_alerts
  list_operation_audits managed_pool_status : console.

(** A request with a method that is not a mutation. *)
Lemma handle_quiet c h r p : sound p → mutation (console_path r).1 = false →
  safe opens (handle cfg env c h r) p (λ _ _, True).
Proof.
  intros Hs Hm. destruct r; try (by destruct submit); try done; cbn [handle];
    try (apply safe_answers; [done| |done]); clear Hm.
  all: autounfold with console; walk.
  - unfold billing_summary. destruct project as [id|]; [destruct (is_empty id); [walk|]|walk].
    after quiet_project. walk.
  - unfold get_billing_account. after quiet_project. by apply quiet_account.
  - unfold console_billing_position. after quiet_project. walk.
    match goal with |- context [match ?o with Some _ => _ | None => _ end] => destruct o end; walk.
  - unfold event_worker_status. after quiet_owner. after quiet_account. walk.
  - unfold console_pending_reservations, authorize_billing_review_read.
    destruct (is_billing_reviewer cfg c); [walk|]. after quiet_owner. walk.
Qed.

(** The caller of a request: the user that signing in answered. *)
Definition caller (v : Visitor) (p : Platform) (user : PlatformUser) : Prop :=
  answered (perform (door 0) (enter cfg v)) p = Ok user.

(** The acts of the handler, between the records of a mutation. *)
Definition handled (r : console_route) (c : UserContext) (l : list performed) : Prop :=
  Forall (entry_granted (permitted cfg c)) l ∧
  (mutation (console_path r).1 = false → Forall (entry_granted opens) l).

Lemma handled_run c h r p l x q : sound p → among anybody (attempt (handle cfg env c h r)) p l x q →
  handled r c l ∧ (∃ r', x = Ok r') ∧ since p q.
Proof.
  intros Hs Hx. pose proof (among_since _ _ _ _ _ Hs Hx) as Hq.
  apply among_attempt in Hx as (r' & -> & Hx). split; [|eauto]. split.
  - eapply safe_among; [exact Hs|by apply handle_safe|exact Hx].
  - intros Hm. eapply safe_among; [exact Hs|by apply handle_quiet|exact Hx].
Qed.

(** C6: Nobody does through the console what is not theirs to do, whatever
    anybody else does meanwhile.  A request that cannot say who asks performs
    nothing.  Any other signs its visitor in first; then every act of its
    handler is one that the signed-in user may perform on the platform it is
    performed on: on rows of tenants that the user belongs to or owns, as an
    administrator or reviewer that the configuration names, and in the user's
    own name.  The handler of a mutation runs only after an intent with the
    user's name and the route is recorded, and nothing but the record of its
    completion follows it; a request that is no mutation at most opens the
    account of a project and caches its balance. *)
Theorem console_permitted h r p l res q :
  sound p → among anybody (console cfg env door h r) p l res q →
  (l = [] ∧ ∃ e, visitor cfg h = Err e ∧ res = Err e) ∨
  ∃ v p0 l', visitor cfg h = Ok v ∧ l = mkPerformed (Change (door 0) (enter cfg v)) p0 :: l' ∧
  match answered (perform (door 0) (enter cfg v)) p0 with
  | Err e => l' = [] ∧ res = Err e
  | Ok user =>
      let c := mkUserContext user (vs_auth_disabled v) in
      if mutation (console_path r).1 then
        ∃ intent l'', l' = intent :: l'' ∧ audits user "console.intent" (console_path r).2 intent ∧
          (l'' = [] ∧ (∃ e, res = Err e) ∨
           ∃ acts done, l'' = (acts ++ [done])%list ∧ handled r c acts ∧
             audits user "console.completed" (console_path r).2 done)
      else handled r c l'
  end.
Proof.
  intros Hs Hrun. unfold console, console_identity in Hrun.
  apply among_bind in Hrun as (l1 & r1 & q1 & (-> & -> & Hr1)%among_checks & Hrun).
  apply since_anybody in Hr1; [|done].
  destruct (visitor cfg h) as [v|e] eqn:Hv; [|left; destruct Hrun as (-> & -> & _); eauto].
  right. destruct Hrun as (l2 & Hrun & ->).
  apply among_bind in Hrun as (l1 & r1 & q2 & (p0 & Hr2 & -> & -> & Hr3)%among_performs & Hrun).
  apply since_anybody in Hr2; [|apply Hr1].
  assert (since p0 (settled (perform (door 0) (enter cfg v)) p0)) as H1 by (apply since_settled, Hr2).
  apply since_anybody in Hr3; [|apply H1].
  exists v, p0. destruct (answered (perform (door 0) (enter cfg v)) p0) as [user|e] eqn:Hin.
  2:{ destruct Hrun as (-> & -> & _). by exists []. }
  destruct Hrun as (l & Hrun & ->). exists l. split; [done|]. split; [done|].
  cbv zeta in *. destruct (mutation (console_path r).1) eqn:Hm.
  - apply among_bind in Hrun as (l1 & r1 & q3 & (p2 & Hr4 & -> & -> & Hr5)%among_performs & Hrun).
    apply since_anybody in Hr4; [|apply Hr3].
    assert (since p2 (settled (perform (door 1) (intent_audit user (console_path r).1 (console_path r).2)) p2))
      as H2 by (apply since_settled, Hr4).
    apply since_anybody in Hr5; [|apply H2].
    destruct (answered _ p2) as [intent|e] eqn:Hi.
    2:{ destruct Hrun as (-> & -> & _). eexists _, _. split; [done|]. split; [done|]. left. eauto. }
    destruct Hrun as (l2 & Hrun & ->). eexists _, l2. split; [done|]. split; [done|]. right.
    apply among_bind in Hrun as (acts & x & q4 & Hacts & Hrun).
    apply handled_run in Hacts as (Hok & [answer ->] & _); [|apply Hr5].
    destruct Hrun as (l3 & Hrun & ->).
    apply among_bind in Hrun as (l4 & x & q5 & (y & -> & Hdone)%among_attempt & l5 & Hrun & ->).
    apply among_performs in Hdone as (p3 & _ & -> & _ & _). apply among_checks in Hrun as (-> & _ & _).
    eexists acts, _. split; [done|]. by split.
  - apply among_bind in Hrun as (acts & x & q4 & Hacts & Hrun).
    apply handled_run in Hacts as (Hok & [answer ->] & _); [|apply Hr3].
    destruct Hrun as (l3 & (-> & _ & _)%among_checks & ->). by rewrite app_nil_r.
Qed.
End console.

(** ** The other doors *)

Section doors.
Context `{PlatformLibraries}.
Variables (cfg : Config) (env door : nat → Env).

(** What the gateways and workers may ask for with the internal token. *)
Definition gateway_op (o : op) : Prop :=
  match o with
  | RecordUsage _ | Reserve _ | Dispatch _ _ | Release _ _ _ | Settle _ _ _ | ReportUnresolved _ _ _
  | ClaimJob _ _ | CompleteJob _ _ _ | FailJob _ _ | CheckProjection _ _ _ _ | PollFeed _ _ _ | AckFeed _ _ _
  | OnRegistry (SendSnapshot _ _ _ _) | OnRegistry (AcceptReport _) => True
  | _ => False
  end.

Definition knows_internal_token (h : Headers) : Prop :=
  cf_internal_token cfg ≠ "" ∧
  sha256_hex ("Bearer " +:+ cf_internal_token cfg) = sha256_hex (default "" (header_str "authorization" h)).

(** What a message that is not for the console may lead to. *)
Definition entitled (m : message) (A : Type) (a : act A) (p : Platform) : Prop :=
  match m with
  | ConsoleMessage _ _ | ServingMessage _ => False
  | InternalMessage h _ => knows_internal_token h ∧
      match a with OnCore o => gateway_op o | BalanceOf _ | SpendOf _ _ => True | _ => False end
  | MemberMessage h r => ∃ token, bearer h = Some token ∧ str_len token = 43 ∧
      match a with OnCore o => o = OnRegistry (member_op token r) | _ => False end
  | AlertMessage h _ parsed => ∃ token w, cf_alert_webhook_token cfg = Some token ∧ bearer h = Some token ∧
      parsed = Some w ∧ match a with ReceiveAlerts w' => w' = w | _ => False end
  | PaymentMessage _ body => ∃ provider trade, cf_alipay cfg = Some provider ∧
      verify_notification provider body = Ok trade ∧
      match a with OnCore o => o = AcceptTrade (provider_of provider) trade | _ => False end
  end.

Abbreviation opened m := (safe (entitled m)).

(** From [since p q] and [since q r], [since p r] in place of both. *)
#[local] Ltac later H0 H1 := pose proof (since_trans _ _ _ H0 H1); clear H0 H1;
  match goal with H : since _ _ |- _ => rename H into H0 end.

Lemma snapshot_keys_safe h r spends cache rows p Q : knows_internal_token h → sound p → (∀ a q, since p q → Q a q) →
  opened (InternalMessage h r) (snapshot_keys env spends cache rows) p Q.
Proof.
  intros Hk. revert cache p Q. induction rows as [|row rows IH]; intros cache p Q Hs HQ; cbn [snapshot_keys].
  - intros p1 Hp1. by apply HQ.
  - pose proof (since_refl _ Hs) as H0.
    eapply safe_then; [done|unfold snapshot_balance; destruct (cache !! _); walk|]. intros balance q1 H1; later H0 H1.
    eapply safe_then; [apply H0|unfold snapshot_spend; destruct (spends !! _); walk|]. intros spent q2 H2; later H0 H2.
    eapply safe_then; [apply H0|apply IH; [apply H0|by intros]|]. intros keys q3 H3; later H0 H3.
    apply safe_ret. intros q4 H4. apply HQ. by eapply since_trans.
Qed.

Lemma handle_internal_safe h r p : knows_internal_token h → sound p →
  opened (InternalMessage h r) (handle_internal env r) p (λ _ _, True).
Proof.
  intros Hk Hs. destruct r; cbn [handle_internal]; try (unfold on_registry, on_service; walk; fail);
    try (apply safe_answers; [done| |done]; walk; fail).
  assert (∀ p1 Q, sound p1 → (∀ a q, since p1 q → Q a q) →
    opened (InternalMessage h (GetSnapshot session identity token)) (take_snapshot env) p1 Q) as Htake.
  { intros p1 Q Hs1 HQ. unfold take_snapshot. pose proof (since_refl _ Hs1) as H0.
    do 4 (eapply safe_then; [apply H0|by apply safe_reads|]; intros ? ? H1; later H0 H1).
    eapply safe_then; [apply H0|by apply snapshot_keys_safe; [|apply H0|]|]; intros ? ? H1; later H0 H1.
    do 2 (eapply safe_then; [apply H0|by apply safe_reads|]; intros ? ? H1; later H0 H1).
    apply safe_ret. intros q6 H6. apply HQ. by eapply since_trans. }
  unfold gateway_snapshot. destruct session as [id|].
  - walk. apply Htake; [done|]. intros s q Hq. apply safe_performs; [by intros; split|done].
  - apply safe_answers; [done| |done]. by apply Htake.
Qed.

(** C7: Every other door of the control plane asks for its own credential
    before anything happens.  Whatever anybody else does meanwhile: an internal
    route performs nothing unless its caller knows the configured token, and
    then only what gateways and workers do; a message of a member cluster
    performs its one operation, with the 43 byte token of its own header; an
    alert is received only from the holder of the hook's token; a notification
    of the payment provider credits only the trade whose signature was
    verified; and a serving entry changes nothing. *)
Theorem doors_fenced m p l r q :
  sound p → (match m with ConsoleMessage _ _ => False | _ => True end) →
  among anybody (answer_message cfg env door m) p l r q → Forall (entry_granted (entitled m)) l.
Proof.
  intros Hs Hm Hrun. assert (opened m (answer_message cfg env door m) p (λ _ _, True)) as Hsafe;
    [|by eapply safe_among in Hsafe as [? _]].
  destruct m as [h k|h k|h k|h body parsed|h body|h]; [done|..]; clear Hm Hrun; cbn [answer_message].
  - unfold internal_auth. apply safe_bind; [done|]. apply safe_checks. intros u q1 H1 E1%require_Ok.
    apply safe_bind; [apply H1|]. apply safe_checks. intros u2 q2 H2 E2%require_Ok%str_eqb_eq.
    apply handle_internal_safe; [|apply H2]. split; [|done]. by destruct (cf_internal_token cfg).
  - unfold handle_member, on_registry, on_service. step_safe. step_safe.
    unfold cluster_bearer in E. apply ok_or_Ok, bind_Some in E as (t & Ht & E).
    destruct (Z.eqb_spec (str_len t) 43) as [Hlen|]; [|done]. injection E as ->.
    step_safe; [|done]. exists a. done.
  - unfold receive_alerts. step_safe. step_safe. apply ok_or_Ok in E. step_safe. step_safe. apply ok_or_Ok in E0.
    step_safe. step_safe. apply str_eqb_eq in E1 as <-. step_safe. step_safe. step_safe. step_safe. apply ok_or_Ok in E2.
    step_safe; [|done]. eexists _, _. done.
  - unfold alipay_notify, on_service. step_safe. step_safe. step_safe. step_safe. step_safe. step_safe.
    unfold alipay_provider in E0. apply ok_or_Ok in E0. unfold from_provider in E1.
    destruct (verify_notification a0 body) as [t|] eqn:Ht; [|done]. injection E1 as ->.
    step_safe; [|done]. eexists _, _. done.
  - unfold authorize_serving. step_safe. done.
Qed.
End doors.

(** ** What the console shows *)

Section shown.
Context `{PlatformLibraries}.
Variables (env : nat → Env).

(** [m] answers, among the others, nothing but what [shows] grants. *)
Definition shows {A} (m : Program A) (Q : A → Platform → Prop) : Prop :=
  ∀ p l a q, sound p → among anybody m p l (Ok a) q → Q a q.

Lemma shows_safe {A} (m : Program A) (Q : A → Platform → Prop) :
  (∀ p, sound p → safe (λ _ _ _, True) m p Q) → shows m Q.
Proof. intros Hm p l a q Hs Hrun. by eapply safe_among in Hrun as [_ ?]; [| |by apply Hm]. Qed.

Lemma managed_known c l p x :
  known_orders l p → x ∈ managed_orders c l → in_order (can_manage c) x p.
Proof.
  intros Hk (o & -> & [Hm Ho]%list_elem_of_filter)%list_elem_of_fmap. eapply rights_order; [done|by apply Hk].
Qed.

Lemma managed_payment c l orders p y : known_orders l p → known_payments orders p →
  y ∈ managed_payments (managed_orders c l) orders → in_payment (can_manage c) (py_id y) p.
Proof.
  intros Ho Hp [Hm Hy]%list_elem_of_filter. eapply rights_payment; [by eapply managed_known|by apply Hp].
Qed.

(** C19: The console shows a caller nothing of other tenants, whatever anybody
    else does meanwhile.  The projects and keys it lists are of tenants that
    the caller belongs to; the orders, the payments of orders, the refunds of
    payments, the transactions of the ledger and the statements are of tenants
    that the caller owns; a user is listed with memberships of such tenants
    only; and a summary of usage has rows of accessible projects only, with
    the totals of exactly these rows. *)
Theorem console_isolated c project from to :
  shows (list_projects c) (λ l q, ∀ x, x ∈ l → in_project (can_access c) (prj_id x) q) ∧
  shows (list_api_keys env c) (λ l q, ∀ x, x ∈ l → in_key (can_access c) (ap_id x) q) ∧
  shows (list_orders c) (λ l q, ∀ x, x ∈ l → in_order (can_manage c) (od_id x) q) ∧
  shows (list_payments c) (λ l q, ∀ x, x ∈ l → in_payment (can_manage c) (py_id x) q) ∧
  shows (list_refunds c) (λ l q, ∀ x, x ∈ l → in_refund (can_manage c) (rf_id x) q) ∧
  shows (list_ledger c) (λ l q, ∀ x, x ∈ l → can_manage c (lt_tenant_id x.1) = true) ∧
  shows (list_invoices c) (λ l q, ∀ x, x ∈ l → can_manage c (in_tenant_id x) = true) ∧
  shows (list_users c) (λ l q, ∀ x m, x ∈ l → m ∈ pu_memberships x → can_manage c (tm_tenant_id m) = true) ∧
  shows (billing_summary env c project from to) (λ s q,
    (∀ x, x ∈ bs_projects s → in_project (can_access c) (pjb_project_id x) q) ∧
    s = summarize (bs_projects s)).
Proof.
  split_and!; apply shows_safe; intros p Hs; autounfold with console; unfold list_projects, list_api_keys,
    list_orders, list_payments, list_refunds, list_ledger, list_invoices, list_users.
  - repeat step_safe. intros x [Hx Hin]%list_elem_of_filter. eapply rights_project; [done|]. by auto.
  - repeat step_safe. intros x [Hx Hin]%list_elem_of_filter. eapply rights_key; [done|]. by auto.
  - repeat step_safe. intros x [Hx Hin]%list_elem_of_filter. eapply rights_order; [done|]. by auto.
  - repeat step_safe. intros x Hx. by eapply managed_payment.
  - repeat step_safe. intros x [(y & Hy & Hin)%list_elem_of_fmap Hx]%list_elem_of_filter.
    eapply rights_refund; [by eapply managed_payment|]. rewrite <- Hy. by auto.
  - repeat step_safe. intros x [Hx _]%list_elem_of_filter. done.
  - repeat step_safe. intros x [Hx _]%list_elem_of_filter. done.
  - repeat step_safe. intros x m [_ (u & -> & _)%list_elem_of_fmap]%list_elem_of_filter. cbn.
    intros [Hm _]%list_elem_of_filter. done.
  - unfold billing_summary. apply safe_bind; [done|]. eapply safe_mono with (Q := λ _ _, True); [done| |].
    { destruct project as [id|]; [destruct (is_empty id); [walk|]|walk]. unfold authorize_project. walk. }
    intros _ q Hq _. pose proof (si_sound _ _ Hq). repeat step_safe.
    split; [|done]. cbn. intros x [(y & Ey & [Hy Hin]%list_elem_of_filter)%list_elem_of_fmap _]%list_elem_of_filter.
    rewrite Ey. eapply rights_project; [done|]. by auto.
Qed.
End shown.

(** ** The platform as a whole *)

Section whole.
Context `{PlatformLibraries}.

Lemma empty_sound : sound empty_platform.
Proof. split; [apply empty_healthy|]. by split. Qed.

Lemma changes_since l p : sound p → since p (changes l p).
Proof.
  revert p. induction l as [|x l IH]; intros p Hs; [by apply since_refl|].
  assert (since p (apply_change p x)) as H1 by (destruct x; by apply since_settled).
  eapply since_trans; [exact H1|]. apply IH, H1.
Qed.

(** C22: Whatever everybody does, in any order, the platform stays sound and no
    row changes hands.  After any changes from the empty platform the database
    satisfies the invariant of the service; and after any more, every project,
    key, order, payment, refund, membership and statement is still there, of
    the tenant, project, order, payment and user that it was of. *)
Theorem platform_keeps l l' : since (changes l empty_platform) (changes (l ++ l') empty_platform).
Proof.
  unfold changes. rewrite foldl_app. apply changes_since.
  apply (si_sound empty_platform), changes_since, empty_sound.
Qed.

(** The changes that a program alone makes. *)
Fixpoint trace {A} (m : Program A) (p : Platform) : list performed :=
  match m with
  | Answer _ => []
  | Read f k => trace (k (f p)) p
  | Perform env a k => mkPerformed (Change env a) p ::
      trace (k (answered (perform env a) p)) (settled (perform env a) p)
  end.

Lemma alone_among {A} others (m : Program A) p : among others m p (trace m p) (alone m p).1 (alone m p).2.
Proof.
  revert p. induction m as [r|C f c IH|C env a c IH]; intros p.
  - exists p. by split; [reflexivity|].
  - exists p. split; [reflexivity|]. apply IH.
  - exists p. split; [reflexivity|]. eexists. split; [done|]. apply IH.
Qed.
End whole.
