(* ===== verification/People.v ===== *)
(** * People: memberships, statements and alerts

    What the operations of Platform.v promise about their rows: a tenant keeps
    an owner as long as its memberships are changed one at a time, a billing
    statement says what the usage of its period was, and an alert only moves
    forward. *)

From S2P Require Import Prelude Http Domain Models Routing Fleet Store Books Catalog Projection Ledger.
From S2P Require Import Reservations Review Wallet Routes Clusters Pools Snapshot Traffic Control.
From S2P Require Import Maintenance Lifecycle Payments Alipay Trial Worker Feed Registry Billing Owners.
From S2P Require Import Platform Lists Console Edge Access Permits.
Local Open Scope string_scope.
Local Open Scope Z_scope.

(** ** Owners *)

Section owners.
Context `{PlatformLibraries}.
Variable env : nat → Env.

Definition owned_by_someone (tenant : string) (p : Platform) : Prop := owners_of tenant p ≠ [].

Lemma owners_elem tenant p m : m ∈ owners_of tenant p ↔
  mb_tenant_id m = tenant ∧ mb_role m = "owner" ∧ ∃ k, memberships p !! k = Some m.
Proof. unfold owners_of. rewrite list_elem_of_filter, rows_elem. naive_solver. Qed.

Lemma owned_intro tenant p k m : memberships p !! k = Some m → mb_tenant_id m = tenant → mb_role m = "owner" →
  owned_by_someone tenant p.
Proof.
  intros Hk Ht Hr E. assert (m ∈ owners_of tenant p) as Hin by (apply owners_elem; eauto).
  rewrite E in Hin. by apply elem_of_nil in Hin.
Qed.

(** With two owners, there is one beside any. *)
Lemma another_owner tenant p id : People_ok p → 1 < Z.of_nat (length (owners_of tenant p)) →
  ∃ m, m ∈ owners_of tenant p ∧ mb_id m ≠ id.
Proof.
  intros HP Hlen.
  assert (NoDup (mb_id <$> owners_of tenant p)) as Hnd.
  { eapply sublist_NoDup; [|apply fmap_sublist, sublist_filter]. unfold rows. rewrite <- list_fmap_compose.
    replace ((mb_id ∘ snd) <$> map_to_list (memberships p)) with (map_to_list (memberships p)).*1;
      [apply NoDup_fst_map_to_list|].
    apply list_fmap_ext. intros _ [k m] Hm%list_elem_of_lookup_2%elem_of_map_to_list. symmetry.
    by apply (po_membership _ HP). }
  destruct (owners_of tenant p) as [|m1 [|m2 l]]; [done|done|]. cbn in Hnd.
  apply NoDup_cons in Hnd as [Hne _]. destruct (decide (mb_id m1 = id)) as [E|E].
  - exists m2. split; [by right; left|]. intros E2. apply Hne. rewrite E, <- E2. by left.
  - exists m1. split; [by left|done].
Qed.

Lemma alone_bind {A B} (m : Program A) (k : A → Program B) p :
  alone (m ≫= k) p = match alone m p with (Ok a, q) => alone (k a) q | (Err e, q) => (Err e, q) end.
Proof.
  revert p. induction m as [[a|e]|C f c IH|C e a c IH]; intros p; [done|done| |]; apply IH.
Qed.
Lemma alone_checks {A} (r : result ServiceError A) p : alone (checks r) p = (r, p).
Proof. done. Qed.
Lemma alone_reads {A} (f : Platform → result ServiceError A) p : alone (reads f) p = (f p, p).
Proof. done. Qed.
Lemma alone_performs {A} e (a : act A) p : alone (performs e a) p = (answered (perform e a) p, settled (perform e a) p).
Proof. done. Qed.

(** A membership that is written leaves the owners whose rows it is not. *)
Lemma owned_written tenant p k m : (∃ x i, memberships p !! i = Some x ∧ mb_tenant_id x = tenant ∧
    mb_role x = "owner" ∧ (i = k → mb_tenant_id m = tenant ∧ mb_role m = "owner")) →
  owned_by_someone tenant (set_memberships (<[k := m]> (memberships p)) p).
Proof.
  intros (x & i & Hi & Ht & Hr & Hk). destruct (decide (i = k)) as [E|E].
  - destruct (Hk E). eapply (owned_intro _ _ k m); [|done..]. cbn. apply lookup_insert_eq.
  - eapply (owned_intro _ _ i x); [|done..]. cbn. by rewrite lookup_insert_ne.
Qed.

Lemma owned_elim tenant p : owned_by_someone tenant p →
  ∃ x i, memberships p !! i = Some x ∧ mb_tenant_id x = tenant ∧ mb_role x = "owner".
Proof.
  intros Ho. destruct (owners_of tenant p) as [|x l] eqn:E; [done|].
  assert (x ∈ owners_of tenant p) as (Ht & Hr & k & Hk)%owners_elem by (rewrite E; by left). eauto.
Qed.

Lemma insert_membership_owned tenant row p :
  owned_by_someone tenant p → owned_by_someone tenant (settled (insert_membership row) p).
Proof.
  intros Ho. unfold settled. destruct (insert_membership row p) as [[u q]|] eqn:Hrun; [|done].
  unfold insert_membership in Hrun. ptx_inv Hrun.
  match goal with Hx : require _ _ = Ok _ |- _ => apply require_Ok, negb_true_iff, orb_false_iff in Hx as [Hx%is_some_false _] end.
  apply owned_elim in Ho as (x & i & Hi & Ht & Hr). apply owned_written. exists x, i.
  split_and!; [done..|]. intros ->. congruence.
Qed.

(** Another owner, or the same one with a role of the owner, remains. *)
Lemma set_role_owned tenant id role p m : memberships p !! id = Some m → mb_tenant_id m = tenant →
  (mb_role m = "owner" → role ≠ "owner" → ∃ x, x ∈ owners_of tenant p ∧ mb_id x ≠ id) → People_ok p →
  owned_by_someone tenant p → owned_by_someone tenant (settled (set_role id role) p).
Proof.
  intros Hm Ht Hother HP Ho. unfold settled. destruct (set_role id role p) as [[u q]|] eqn:Hrun; [|done].
  unfold set_role in Hrun. ptx_inv Hrun. rewrite Hm in *.
  match goal with Hx : ok_or _ _ = Ok _ |- _ => apply ok_or_Ok in Hx; injection Hx as <- end.
  apply owned_written. apply owned_elim in Ho as (x & i & Hi & Hxt & Hxr).
  destruct (decide (i = id)) as [->|]; [|by exists x, i; split_and!].
  rewrite Hm in Hi. injection Hi as <-. destruct (decide (role = "owner")) as [->|Hne].
  - by exists m, id.
  - destruct (Hother Hxr Hne) as (y & (Hyt & Hyr & k & Hk)%owners_elem & Hid). exists y, k.
    split_and!; [done..|]. intros ->. by rewrite (po_membership _ HP _ _ Hk) in Hid.
Qed.

(** C23: A request that changes a membership, alone, leaves its tenant an owner
    if it had one: the last owner is not demoted. *)
Theorem membership_keeps_owner c user tenant role p :
  People_ok p → owned_by_someone tenant p →
  owned_by_someone tenant (alone (update_membership env c user tenant role) p).2.
Proof.
  intros HP Ho. unfold update_membership, change_membership.
  rewrite alone_bind, alone_checks. destruct (require_tenant_owner _ _); [|done].
  rewrite alone_bind, alone_checks. destruct (require _ _) eqn:Hrole; [|done].
  rewrite alone_bind, alone_reads. destruct (ok_or _ _); [|done].
  rewrite alone_bind, alone_reads. rewrite alone_bind.
  set (after := λ q, owned_by_someone tenant q).
  assert (∀ x : result ServiceError unit * Platform, owned_by_someone tenant x.2 →
    owned_by_someone tenant (match x with
      | (Ok _, q) => alone (users ← reads (λ p, Ok (Platform.list_users p)); checks (find_by pu_id user users)) q
      | (Err e, q) => (Err e, q) end).2) as Hlast.
  { intros [[?|?] q] Hq; [|done]. rewrite alone_bind, alone_reads, alone_checks. done. }
  apply Hlast. clear Hlast after.
  destruct (find_membership user tenant p) as [m|] eqn:Hm.
  2:{ rewrite alone_performs. by apply insert_membership_owned. }
  apply membership_found in Hm as (Hm & _ & Ht); [|done].
  destruct (str_eqb (mb_role m) "owner" && negb (str_eqb role "owner")) eqn:Hguard.
  - rewrite alone_bind, alone_bind, alone_reads, alone_checks.
    destruct (require (1 <? _) _) eqn:Htwo; [|done]. apply require_Ok, Z.ltb_lt in Htwo.
    rewrite alone_performs. eapply set_role_owned; [done..| |done|done].
    intros _ _. by apply another_owner.
  - rewrite alone_bind. cbn [alone mret program_ret]. rewrite alone_performs.
    eapply set_role_owned; [done..| |done|done]. intros E Hne. apply andb_false_iff in Hguard as [Hg|Hg].
    + by apply str_eqb_neq in Hg.
    + by apply negb_false_iff, str_eqb_eq in Hg.
Qed.

(** *** Two requests at once *)

Definition two_owners : Platform :=
  mkPlatform empty_db
    {["a" := mkUserRow "a" "a" "a" "a" "active" 0 0 0; "b" := mkUserRow "b" "b" "b" "b" "active" 0 0 0]}
    {["ma" := mkMembershipRow "ma" "a" "t" "owner" 0; "mb" := mkMembershipRow "mb" "b" "t" "owner" 0]}
    ∅ ∅ ∅.
Definition owner_context (user : string) : UserContext :=
  mkUserContext (mkPlatformUser user user user user "active" 0 0 0 [mkTenantMembership "t" "owner"]) false.

Lemma among_bind_intro {A B} others (m : Program A) (k : A → Program B) p l1 a q1 l2 r q :
  among others m p l1 (Ok a) q1 → among others (k a) q1 l2 r q → among others (m ≫= k) p (l1 ++ l2) r q.
Proof.
  intros Hm Hk. revert p l1 Hm. induction m as [r0|C f c IH|C e b c IH]; intros p l1 (p1 & Hr & Hx).
  - destruct Hx as (<- & -> & ->). cbn. destruct (k a) eqn:E; cbn in *;
      destruct Hk as (p2 & Hr2 & Hk); exists p2; (split; [by etransitivity|done]).
  - exists p1. split; [done|]. by apply IH.
  - destruct Hx as (l' & -> & Hx). exists p1. split; [done|]. exists (l' ++ l2)%list. split; [done|]. by apply IH.
Qed.
Lemma among_check_intro {A} others (r : result ServiceError A) (a : A) p :
  r = Ok a → among others (checks r) p [] (Ok a) p.
Proof. intros ->. by exists p. Qed.
Lemma among_read_intro {A} others (f : Platform → result ServiceError A) p a q :
  f p = Ok a → rtc others p q → among others (reads f) p [] (Ok a) q.
Proof. intros Hf Hr. exists p. split; [reflexivity|]. exists q. by rewrite Hf. Qed.
Lemma among_perform_intro {A} others e (x : act A) p a q : perform e x p = Ok (a, q) →
  among others (performs e x) p [mkPerformed (Change e x) p] (Ok a) q.
Proof.
  intros Hf. exists p. split; [reflexivity|]. exists []. split; [done|]. exists q. unfold settled, answered.
  rewrite Hf. done.
Qed.

(** Two requests at once can leave a tenant without an owner.  The owners
    "a" and "b" of a tenant each demote themselves; the second request runs
    between the count of the owners that the first one makes and the change
    that it allows. *)
Theorem owner_race : ∃ p l answer q,
  sound p ∧ length (owners_of "t" p) = 2%nat ∧
  among (λ x y, y = (alone (update_membership env (owner_context "b") "b" "t" "member") x).2)
    (update_membership env (owner_context "a") "a" "t" "member") p l (Ok answer) q ∧
  ¬ owned_by_someone "t" q.
Proof.
  set (p2 := settled (set_role "mb" "member") two_owners).
  assert ((alone (update_membership env (owner_context "b") "b" "t" "member") two_owners).2 = p2) as E.
  { by vm_compute. }
  eexists two_owners, _, _, (settled (set_role "ma" "member") p2). split_and!.
  - split; [apply empty_healthy|]. split; intros id x Hx; unfold two_owners in Hx; cbn in Hx;
      (apply lookup_insert_Some in Hx as [[<- <-]|[_ Hx%lookup_singleton_Some]]; [done|]; by destruct Hx as [<- <-]).
  - by vm_compute.
  - unfold update_membership, change_membership.
    eapply among_bind_intro; [by apply among_check_intro|].
    eapply among_bind_intro; [by apply among_check_intro|].
    eapply among_bind_intro; [apply among_read_intro; [by vm_compute|reflexivity]|].
    eapply among_bind_intro; [apply among_read_intro; [by vm_compute|reflexivity]|].
    eapply among_bind_intro.
    { eapply among_bind_intro.
      - eapply among_bind_intro; [apply among_read_intro; [by vm_compute|]|by apply among_check_intro].
        apply rtc_once. symmetry. exact E.
      - apply among_perform_intro. by vm_compute. }
    eapply among_bind_intro; [apply among_read_intro; [by vm_compute|reflexivity]|].
    by apply among_check_intro.
  - intros Ho. by vm_compute in Ho.
Qed.
End owners.

(** ** Statements *)

Section statements.
Context `{PlatformLibraries}.
Variable env : nat → Env.

(** The usage of a project in a period, as the platform knows it. *)
Definition period_usage (project : string) (start finish : Z) (p : Platform) : list UsageRow :=
  filter (λ u, start ≤ us_occurred_at u < finish ∧ us_project_id u = project) (usage_events (core p)).
Definition usage_cost (l : list UsageRow) : Z := zsum us_cost_microunits l.

Lemma period_filter project start finish p : project ≠ "" →
  filter (λ u, in_period (Some project) start finish u = true) (usage_events (core p)) = period_usage project start finish p.
Proof.
  intros Hne. apply list_filter_iff. intros u. unfold in_period.
  assert (is_empty project = false) as -> by by destruct project.
  rewrite !andb_true_iff, orb_false_l, str_eqb_eq, Z.leb_le, Z.ltb_lt. tauto.
Qed.

Lemma filter_keeps_all {A} (P : A → Prop) `{!∀ x, Decision (P x)} (l : list A) : (∀ x, x ∈ l → P x) → filter P l = l.
Proof.
  induction l as [|x l IH]; intros Hl; [done|]. rewrite filter_cons, decide_True by (apply Hl; by left).
  f_equal. apply IH. intros y Hy. apply Hl. by right.
Qed.

Lemma one_project project (l : list UsageRow) : (∀ u, u ∈ l → us_project_id u = project) → l ≠ [] →
  order_by_text id (elements (list_to_set (C := gset string) (us_project_id <$> l))) = [project].
Proof.
  intros Hl Hne. apply Permutation_singleton_r. rewrite order_by_text_perm.
  assert ((list_to_set (us_project_id <$> l) : gset string) = {[project]}) as ->.
  { apply set_eq. intros x. rewrite elem_of_list_to_set, elem_of_singleton, list_elem_of_fmap. split.
    - by intros (u & -> & Hu%Hl).
    - intros ->. destruct l as [|u l]; [done|]. exists u. split; [symmetry; apply Hl|]; by left. }
  by rewrite elements_singleton.
Qed.

(** The total is the least number of minor units that covers the usage. *)
Lemma summary_total project start finish p s :
  sound p → project ≠ "" → Platform.billing_summary (Some project) start finish p = Ok s →
  let cost := usage_cost (period_usage project start finish p) in
  cost ≤ i64_max - (MICROS_PER_MINOR_UNIT - 1) →
  cost ≤ bs_total s * MICROS_PER_MINOR_UNIT < cost + MICROS_PER_MINOR_UNIT.
Proof.
  intros Hs Hne Hrun cost Hmax. unfold Platform.billing_summary in Hrun.
  apply require_bind_Ok in Hrun as [_ [= <-]]. cbn [bs_total summarize].
  rewrite period_filter by done.
  assert (0 ≤ cost) as Hpos.
  { apply zsum_nonneg. intros u [_ Hu]%list_elem_of_filter.
    by apply (co_spend _ (inv_config _ _ (hl_inv _ (so_core _ Hs)))). }
  pose proof (ceil_minor_units_least cost (conj Hpos Hmax)) as Hc.
  assert (∀ u, u ∈ period_usage project start finish p → us_project_id u = project) as Hall
    by by intros u [[_ ?] _]%list_elem_of_filter.
  destruct (decide (period_usage project start finish p = [])) as [E|E].
  - rewrite E. unfold cost in *. rewrite E in *. by vm_compute.
  - rewrite (one_project project) by done. cbn [fmap list_fmap zsum pjb_cost project_billing].
    replace (filter (λ u, us_project_id u = project) (period_usage project start finish p))
      with (period_usage project start finish p).
    2:{ symmetry. by apply filter_keeps_all. }
    fold (usage_cost (period_usage project start finish p)). fold cost.
    unfold MICROS_PER_MINOR_UNIT, i64_max in *.
    rewrite (wrap_i64_id cost), Z.add_0_r, wrap_i64_id; unfold i64_min, i64_max; lia.
Qed.

(** What a statement [inv] says, issued for [r] between [p] and [q]. *)
Record states (r : CreateInvoiceRequest) (p : Platform) (inv : InvoiceRow) (q : Platform) : Prop := {
  st_id : in_id inv = cir_id r;
  st_tenant : in_tenant_id inv = cir_tenant_id r ∧ in_project_id inv = cir_project_id r;
  st_owner : in_project (str_eqb (cir_tenant_id r)) (cir_project_id r) q;
  st_stays q' : since q q' → invoices q' !! cir_id r = Some inv;
  st_amount : ∃ p1, since p p1 ∧ since p1 q ∧
    let cost := usage_cost (period_usage (cir_project_id r) (cir_period_start r) (cir_period_end r) p1) in
    (cost ≤ i64_max - (MICROS_PER_MINOR_UNIT - 1) →
     cost ≤ in_amount inv * MICROS_PER_MINOR_UNIT < cost + MICROS_PER_MINOR_UNIT) }.

Lemma insert_invoice_Ok row p a q : insert_invoice row p = Ok (a, q) → a = row ∧ invoices q !! in_id row = Some row.
Proof.
  intros Hrun. unfold insert_invoice in Hrun. ptx_inv Hrun. split; [done|]. cbn. apply lookup_insert_eq.
Qed.

Lemma invoice_stays p q k inv : since p q → invoices p !! k = Some inv → invoices q !! k = Some inv.
Proof. intros Hs Hk. destruct (si_invoices _ _ Hs _ _ Hk) as (x & Hx & E). unfold Datatypes.id in E. congruence. Qed.

Lemma create_invoice_states c h r p : sound p → cir_project_id r ≠ "" →
  safe (λ _ _ _, True) (create_invoice env c h r) p (states r p).
Proof.
  intros Hs Hne. unfold create_invoice, issue_statement.
  apply safe_bind; [done|]. apply safe_checks. intros _ q1 S1 _. pose proof (si_sound _ _ S1).
  apply safe_bind; [done|]. apply safe_checks. intros _ q2 S2 _. pose proof (si_sound _ _ S2).
  apply safe_bind; [done|]. apply safe_checks. intros _ q3 S3 _. pose proof (si_sound _ _ S3).
  apply safe_bind; [done|]. apply safe_reads. intros row q4 q5 S4 Hrow%ok_or_Ok S5. pose proof (si_sound _ _ S5).
  apply safe_bind; [done|]. apply safe_checks. intros _ q6 S6 Hten%require_Ok%str_eqb_eq. pose proof (si_sound _ _ S6).
  apply safe_bind; [done|]. apply safe_reads. intros summary p1 q7 S7 Hsum S8.
  apply safe_performs; [done|]. intros inv p2 p3 q S9 Hins S10.
  assert (since p2 p3) as S23 by (eapply since_perform; [apply S9|exact Hins]).
  apply insert_invoice_Ok in Hins as [-> Hin].
  assert (since q4 q) as S4q.
  { do 6 (eapply since_trans; [eassumption|]). exact S10. }
  split; [done|done| | |].
  - eapply in_project_kept; [exact S4q|]. exists row. rewrite Hten. split; [done|apply str_eqb_refl].
  - intros q' Hq'. eapply invoice_stays; [exact Hq'|]. eapply invoice_stays; [exact S10|exact Hin].
  - clear S4q. exists p1. split; [do 6 (eapply since_trans; [eassumption|]); exact S7|].
    split; [do 3 (eapply since_trans; [eassumption|]); exact S10|].
    apply summary_total; [apply S7|done|done].
Qed.

(** C32: A billing statement says what the usage of its period was.  Whatever
    anybody else does meanwhile, a statement that the console issues is of a
    project of the tenant that it names; its amount is the least number of
    minor units that covers the cost of the usage that the platform had of the
    project and period when it was made; and no act changes it afterwards. *)
Theorem statement_exact c h r p l inv q :
  sound p → cir_project_id r ≠ "" → among anybody (create_invoice env c h r) p l (Ok inv) q → states r p inv q.
Proof.
  intros Hs Hne Hrun. exact (proj2 (safe_among _ _ _ _ _ _ _ Hs (create_invoice_states c h r p Hs Hne) Hrun)).
Qed.
End statements.

(** ** Alerts *)

(** What an alert keeps: what it is about, its resolution and who acknowledged it. *)
Record alert_forward (r r' : AlertRow) : Prop := {
  af_same : (al_id r', al_name r', al_severity r', al_summary r', al_starts_at r') =
            (al_id r, al_name r, al_severity r, al_summary r, al_starts_at r);
  af_resolved : al_state r = "resolved" → al_state r' = "resolved" ∧ al_ends_at r' = al_ends_at r;
  af_acknowledged : is_some (al_acknowledged_at r) = true →
    al_acknowledged_at r' = al_acknowledged_at r ∧ al_acknowledged_by r' = al_acknowledged_by r }.
Definition alerts_keep (m m' : gmap string AlertRow) : Prop :=
  ∀ id r, m !! id = Some r → ∃ r', m' !! id = Some r' ∧ alert_forward r r'.

#[export] Instance alert_forward_preorder : PreOrder alert_forward.
Proof.
  split; [by split|]. intros r1 r2 r3 [A1 A2 A3] [B1 B2 B3]. split; [congruence|..].
  - intros E. destruct (A2 E) as [E1 E2]. destruct (B2 E1). split; congruence.
  - intros E. destruct (A3 E) as [E1 E2]. rewrite <- E1 in E. destruct (B3 E). split; congruence.
Qed.
#[export] Instance alerts_keep_preorder : PreOrder alerts_keep.
Proof.
  split; [intros m id r Hr; by exists r|]. intros m1 m2 m3 H1 H2 id r Hr.
  destruct (H1 _ _ Hr) as (x & Hx & Fx). destruct (H2 _ _ Hx) as (y & Hy & Fy). exists y.
  split; [done|by etransitivity].
Qed.

Lemma alerts_keep_insert m id r : (∀ x, m !! id = Some x → alert_forward x r) → alerts_keep m (<[id := r]> m).
Proof.
  intros Hr i x Hx. destruct (decide (i = id)) as [->|].
  - exists r. rewrite lookup_insert_eq. auto.
  - exists x. by rewrite lookup_insert_ne.
Qed.

Section alerts.
Context `{PlatformLibraries}.

Lemma upsert_keeps env id a m : alerts_keep m (upsert_alert env id a m).
Proof.
  unfold upsert_alert. destruct (_ && _) eqn:E; apply alerts_keep_insert; intros x Hx; rewrite Hx in *; cbn in *; [|done].
  apply andb_true_iff in E as [_ Hn%negb_true_iff%str_eqb_neq]. by split.
Qed.
Lemma upserts_keep env l m : alerts_keep m (foldl (λ m x, upsert_alert env x.1 x.2 m) m l).
Proof.
  revert m. induction l as [|[id a] l IH]; intros m; [reflexivity|]. etransitivity; [apply upsert_keeps|apply IH].
Qed.

(** An alert of a batch that was taken. *)
Definition taken (m : gmap string AlertRow) (x : string * Alert) : Prop :=
  ∃ r, m !! x.1 = Some r ∧ (at_status x.2 = "resolved" → al_state r = "resolved").

Lemma upsert_takes env id a m : taken (upsert_alert env id a m) (id, a).
Proof.
  unfold upsert_alert. destruct (_ && _) eqn:E; (eexists; cbn; rewrite lookup_insert_eq; split; [done|]); [done|].
  intros Hr. rewrite Hr in E. cbn in E. by apply negb_false_iff, str_eqb_eq in E.
Qed.
Lemma taken_keep m m' x : alerts_keep m m' → taken m x → taken m' x.
Proof.
  intros Hk (r & Hr & Hs). destruct (Hk _ _ Hr) as (r' & Hr' & [_ Hf _]). exists r'. split; [done|]. intros E. by apply Hf, Hs.
Qed.
Lemma upserts_take env l m x : x ∈ l → taken (foldl (λ m x, upsert_alert env x.1 x.2 m) m l) x.
Proof.
  revert m. induction l as [|[id a] l IH]; intros m Hx; [by apply elem_of_nil in Hx|].
  apply elem_of_cons in Hx as [->|Hx]; cbn; [|by apply IH].
  eapply taken_keep; [apply upserts_keep|apply upsert_takes].
Qed.

Lemma upsert_taken env id a m : taken m (id, a) → upsert_alert env id a m = m.
Proof.
  intros (r & Hr & Hs). cbn in Hr. unfold upsert_alert. rewrite Hr. cbn.
  destruct (str_eqb_eq (at_status a) "resolved") as [Hd _].
  destruct (str_eqb (at_status a) "resolved").
  - rewrite (Hs (Hd eq_refl)). cbn. by apply insert_id.
  - by apply insert_id.
Qed.
Lemma upserts_taken env l m : (∀ x, x ∈ l → taken m x) → foldl (λ m x, upsert_alert env x.1 x.2 m) m l = m.
Proof.
  revert m. induction l as [|[id a] l IH]; intros m Hl; [done|]. cbn.
  rewrite upsert_taken by (apply (Hl (id, a)); by left). apply IH. intros x Hx. apply Hl. by right.
Qed.

Lemma receive_Ok env w p u q : Platform.receive_alerts env w p = Ok (u, q) →
  q = set_alerts (foldl (λ m x, upsert_alert env x.1 x.2 m) (alerts p)
        (order_by_text fst (map_to_list (by_id (wh_alerts w) ∅)))) p.
Proof. intros Hrun. unfold Platform.receive_alerts in Hrun. ptx_inv Hrun. done. Qed.

(** The alert manager may deliver a batch again: what it holds is taken
    once.  After a batch was accepted, every alert that it leaves is there, and
    resolved if it says so; to accept the batch again changes no alert. *)
Theorem alerts_redelivered env env' w p u q u' q' :
  Platform.receive_alerts env w p = Ok (u, q) → Platform.receive_alerts env' w q = Ok (u', q') →
  (∀ id a, by_id (wh_alerts w) ∅ !! id = Some a → taken (alerts q) (id, a)) ∧ alerts q' = alerts q.
Proof.
  intros ->%receive_Ok ->%receive_Ok. cbn.
  assert (∀ x, x ∈ order_by_text fst (map_to_list (by_id (wh_alerts w) ∅)) →
    taken (foldl (λ m x, upsert_alert env x.1 x.2 m) (alerts p)
      (order_by_text fst (map_to_list (by_id (wh_alerts w) ∅)))) x) as Ht by (intros; by apply upserts_take).
  split; [|by apply upserts_taken]. intros id a Ha. apply Ht, elem_of_order_by_text. by apply elem_of_map_to_list.
Qed.

Lemma acknowledge_keeps env id actor reason p u q :
  Platform.acknowledge_alert env id actor reason p = Ok (u, q) → alerts_keep (alerts p) (alerts q).
Proof.
  intros Hrun. unfold Platform.acknowledge_alert in Hrun. ptx_inv Hrun.
  destruct (is_some _) eqn:E; ptx_inv Hrun; [done|]. cbn. apply alerts_keep_insert. intros x Hx.
  match goal with Ho : ok_or _ _ = Ok _ |- _ => apply ok_or_Ok in Ho; rewrite Hx in Ho; injection Ho as -> end.
  split; [done|done|]. rewrite E. done.
Qed.

(** Transactions that leave the alerts alone. *)
Definition beside_alerts {A} (m : PTx A) : Prop := ∀ p a q, m p = Ok (a, q) → alerts q = alerts p.
Lemma beside_bind {A B} (m : PTx A) (k : A → PTx B) :
  beside_alerts m → (∀ a, beside_alerts (k a)) → beside_alerts (m ≫= k).
Proof. intros Hm Hk p b q (a & p1 & H1%Hm & H2%Hk)%ptx_bind_Ok. congruence. Qed.
Lemma beside_ret {A} (a : A) : beside_alerts (mret a).
Proof. by intros p b q [_ ->]%ptx_ret_Ok. Qed.
Lemma beside_read {A} (f : Platform → result ServiceError A) : beside_alerts (pread f).
Proof. by intros p b q [_ ->]%pread_Ok. Qed.
Lemma beside_gets {A} (f : Platform → A) : beside_alerts (pgets f).
Proof. by intros p b q [_ ->]%pgets_Ok. Qed.
Lemma beside_modify f : (∀ p, alerts (f p) = alerts p) → beside_alerts (pmodify f).
Proof. intros Hf p b q ->%pmodify_Ok. apply Hf. Qed.
Lemma beside_core {A} (m : Tx A) : beside_alerts (on_core m).
Proof. by intros p b q (d & _ & ->)%on_core_Ok. Qed.

Ltac beside := repeat first
  [ apply beside_bind; [|intros ?] | apply beside_ret | apply beside_gets | apply beside_read
  | apply beside_modify; reflexivity | apply beside_core | case_match ].

(** An alert only moves forward.  No act of anybody removes one or changes
    what it is about; a resolved alert stays resolved, with the time that
    resolved it; and an acknowledgement keeps its first author and time. *)
Theorem alerts_forward {A} env (a : act A) p : alerts_keep (alerts p) (alerts (settled (perform env a) p)).
Proof.
  unfold settled. destruct (perform env a p) as [[r q]|e] eqn:Hrun; [|reflexivity].
  assert (∀ B (m : PTx B) b, beside_alerts m → m p = Ok (b, q) → alerts_keep (alerts p) (alerts q)) as Hbeside.
  { intros B m b Hm E. rewrite (Hm _ _ _ E). reflexivity. }
  destruct a; cbn [perform] in Hrun; try (eapply Hbeside; [|exact Hrun]; unfold sync_user, sign_in, join,
    insert_membership, set_role, audit_operation, insert_invoice, Platform.request_tax_invoice, pcheck; by beside).
  - rewrite (receive_Ok _ _ _ _ _ Hrun). apply upserts_keep.
  - by eapply acknowledge_keeps.
Qed.
End alerts.
