(* ===== verification/Kube.v ===== *)
(** * Kube: the objects of a member cluster and the server that keeps them

    [crates/kubernetes/src/api.rs], [pool.rs] and the types of
    [autoscaling.rs] and [recommendation.rs]: the deployments of models with
    their validation, the objects around them as far as the agent and the
    operator look at them, and the calls they make.  The server is a class:
    what it stores, and the documented laws of its answers; a program is a
    tree of calls, run among everybody else who uses the server. *)

From S2P Require Import Prelude Domain Models Http Fleet.
Local Open Scope string_scope.
Local Open Scope Z_scope.

(** ** Objects *)

Abbreviation Labels := (gmap string string).

Record OwnerReference := mkOwner {
  or_api_version : string; or_kind : string; or_name : string; or_uid : string; or_controller : option bool }.
#[export] Instance OwnerReference_eq_dec : EqDecision OwnerReference.
Proof. solve_decision. Defined.

Record ObjectMeta := mkMeta {
  om_name : option string;
  om_generate_name : option string;
  om_namespace : option string;
  om_uid : option string;
  om_generation : option Z;
  om_resource_version : option string;
  om_creation_timestamp : option Z;
  om_deletion_timestamp : option Z;
  om_labels : option Labels;
  om_annotations : option Labels;
  om_owner_references : option (list OwnerReference);
  om_finalizers : option (list string);
  om_managed_fields : option Json }.
#[export] Instance ObjectMeta_eq_dec : EqDecision ObjectMeta.
Proof. solve_decision. Defined.

Definition no_meta : ObjectMeta :=
  mkMeta None None None None None None None None None None None None None.

(** The accessors of the client library. *)
Definition name_any (m : ObjectMeta) : string :=
  match om_name m with Some n => n | None => default "" (om_generate_name m) end.
Definition labels (m : ObjectMeta) : Labels := default ∅ (om_labels m).
Definition annotations (m : ObjectMeta) : Labels := default ∅ (om_annotations m).
Definition finalizers (m : ObjectMeta) : list string := default [] (om_finalizers m).
Definition owner_references (m : ObjectMeta) : list OwnerReference := default [] (om_owner_references m).

Definition set_namespace (v : option string) (m : ObjectMeta) : ObjectMeta :=
  mkMeta (om_name m) (om_generate_name m) v (om_uid m) (om_generation m) (om_resource_version m)
    (om_creation_timestamp m) (om_deletion_timestamp m) (om_labels m) (om_annotations m)
    (om_owner_references m) (om_finalizers m) (om_managed_fields m).
Definition set_label (key value : string) (m : ObjectMeta) : ObjectMeta :=
  mkMeta (om_name m) (om_generate_name m) (om_namespace m) (om_uid m) (om_generation m) (om_resource_version m)
    (om_creation_timestamp m) (om_deletion_timestamp m) (Some (<[key := value]> (labels m))) (om_annotations m)
    (om_owner_references m) (om_finalizers m) (om_managed_fields m).
Definition set_annotation (key value : string) (m : ObjectMeta) : ObjectMeta :=
  mkMeta (om_name m) (om_generate_name m) (om_namespace m) (om_uid m) (om_generation m) (om_resource_version m)
    (om_creation_timestamp m) (om_deletion_timestamp m) (om_labels m) (Some (<[key := value]> (annotations m)))
    (om_owner_references m) (om_finalizers m) (om_managed_fields m).
Definition set_identity (uid version : option string) (m : ObjectMeta) : ObjectMeta :=
  mkMeta (om_name m) (om_generate_name m) (om_namespace m) uid (om_generation m) version
    (om_creation_timestamp m) (om_deletion_timestamp m) (om_labels m) (om_annotations m)
    (om_owner_references m) (om_finalizers m) (om_managed_fields m).
Definition set_owners (l : option (list OwnerReference)) (m : ObjectMeta) : ObjectMeta :=
  mkMeta (om_name m) (om_generate_name m) (om_namespace m) (om_uid m) (om_generation m) (om_resource_version m)
    (om_creation_timestamp m) (om_deletion_timestamp m) (om_labels m) (om_annotations m)
    l (om_finalizers m) (om_managed_fields m).

Record Condition := mkCondition {
  cn_type : string; cn_status : string; cn_reason : string; cn_message : string;
  cn_observed_generation : option Z; cn_last_transition_time : Z }.
#[export] Instance Condition_eq_dec : EqDecision Condition.
Proof. solve_decision. Defined.

(** *** The deployments of models *)

Record ModelSpec := mkModelSpec { ms_id : string; ms_revision : string; ms_uri : string; ms_checksum : string }.
Record RuntimeHealth := mkHealth { rh_path : string; rh_startup_timeout_seconds : Z }.
Record RuntimeSpec := mkRuntimeSpec {
  rs_image : string; rs_protocol : string; rs_port : Z; rs_arguments : list string; rs_health : RuntimeHealth }.
(** Quantities are texts; [rq_claims] are not looked at. *)
Record ResourceRequirements := mkResources {
  rq_limits : option Labels; rq_requests : option Labels; rq_claims : option Json }.
Record AutoscalingSpec := mkAutoscaling {
  as_managed : bool; as_min_replicas : Z; as_max_replicas : Z; as_target_pending_requests : Z;
  as_target_running_requests : Z; as_target_cpu : option Z }.
Record ServingSpec := mkServing { sv_picker_service : string; sv_picker_port : Z }.
Record RolloutSpec := mkRollout { ro_strategy : string; ro_canary_weight : Z }.
Record ModelDeploymentSpec := mkSpec {
  sp_model : ModelSpec;
  sp_runtime : RuntimeSpec;
  sp_replicas : Z;
  sp_resources : ResourceRequirements;
  sp_autoscaling : option AutoscalingSpec;
  sp_disruption_budget : option Z;
  sp_serving : option ServingSpec;
  sp_rollout : option RolloutSpec;
  sp_node_selector : option Labels;
  sp_tolerations : option Json }.
Record ModelDeploymentStatus := mkStatus {
  st_observed_generation : Z; st_ready_replicas : Z; st_replicas : Z; st_selector : string;
  st_inference_pool : string; st_endpoint_picker_service : string; st_endpoint : string;
  st_cluster_id : string; st_region : string; st_conditions : list Condition }.
#[export] Instance ModelDeploymentStatus_eq_dec : EqDecision ModelDeploymentStatus.
Proof. solve_decision. Defined.
Record ModelDeployment := mkModel {
  md_meta : ObjectMeta; md_spec : ModelDeploymentSpec; md_status : option ModelDeploymentStatus }.

(** *** The objects around them, as far as they are looked at *)

Record ServicePort := mkPort { pt_name : option string; pt_port : Z; pt_target : option string }.
Record Service := mkService {
  sc_meta : ObjectMeta; sc_ports : option (list ServicePort); sc_selector : option Labels }.
(** The labels of a template stand in its metadata, which may be missing. *)
Record DeploymentSpec := mkDeploymentSpec {
  dp_replicas : option Z; dp_match_labels : option Labels; dp_template : option (option Labels); dp_pod : Json }.
Record DeploymentStatus := mkDeploymentStatus {
  ds_observed_generation : option Z; ds_ready_replicas : option Z; ds_updated_replicas : option Z;
  ds_available_replicas : option Z; ds_replicas : option Z }.
Record Deployment := mkDeployment {
  dm_meta : ObjectMeta; dm_spec : option DeploymentSpec; dm_status : option DeploymentStatus }.

Record InferencePoolSpec := mkPoolSpec {
  ip_match_labels : Labels; ip_target_ports : list Z; ip_picker_name : string; ip_picker_port : Z;
  ip_failure_mode : string }.
#[export] Instance InferencePoolSpec_eq_dec : EqDecision InferencePoolSpec.
Proof. solve_decision. Defined.
Record InferencePool := mkPool { pl_meta : ObjectMeta; pl_spec : InferencePoolSpec }.
Record Pdb := mkPdb { pb_meta : ObjectMeta; pb_max_unavailable : Z; pb_match_labels : Labels }.

(** The target of a scaler: version, kind and name. *)
Record ScaleTargetRef := mkTarget { tr_api_version : string; tr_kind : string; tr_name : string }.
Record HpaCondition := mkHpaCondition {
  hc_type : string; hc_status : string; hc_reason : option string; hc_message : option string }.
Record HpaStatus := mkHpaStatus { hs_desired_replicas : Z; hs_conditions : option (list HpaCondition) }.
Record Hpa := mkHpa { hp_meta : ObjectMeta; hp_target : option ScaleTargetRef; hp_status : option HpaStatus }.
Record Trigger := mkTrigger { tg_type : string; tg_metric_type : string; tg_metadata : Labels }.
Record KedaCondition := mkKeda { kc_type : string; kc_status : string; kc_reason : string; kc_message : string }.
Record ScaledObject := mkScaled {
  sd_meta : ObjectMeta; sd_target : ScaleTargetRef; sd_min_replica_count : Z; sd_max_replica_count : Z;
  sd_polling_interval : Z; sd_advanced : Json; sd_triggers : list Trigger;
  sd_conditions : option (list KedaCondition) }.
Record ModelScaleStatus := mkScaleStatus { ss_replicas : Z; ss_selector : string }.
#[export] Instance ModelScaleStatus_eq_dec : EqDecision ModelScaleStatus.
Proof. solve_decision. Defined.
Record ModelScale := mkModelScale {
  mc_meta : ObjectMeta; mc_model_uid : string; mc_replicas : Z; mc_status : option ModelScaleStatus }.

Record ContainerStatus := mkContainerStatus {
  ct_name : string; ct_container_id : option string; ct_running : bool;
  ct_terminated : option (option string); ct_last_terminated : option (option string) }.
Record Container := mkContainer { co_name : string; co_ports : option (list (option string * Z)) }.
Record PodStatus := mkPodStatus { ps_pod_ip : option string; ps_containers : option (list ContainerStatus) }.
Record PodSpec := mkPodSpec { px_node_name : option string; px_containers : list Container }.
Record Pod := mkPod { po_meta : ObjectMeta; po_spec : option PodSpec; po_status : option PodStatus }.
Record Node := mkNode { nd_meta : ObjectMeta; nd_conditions : option (list (string * string)) }.
(** The renewal of a lease in seconds. *)
Record Lease := mkNodeLease { le_meta : ObjectMeta; le_renew_time : option Z }.

Inductive Kind := KModel | KScale | KScaled | KHpa | KPdb | KPool | KDeployment | KService | KPod | KNode | KLease.
#[export] Instance Kind_eq_dec : EqDecision Kind.
Proof. solve_decision. Defined.

Definition object (k : Kind) : Type :=
  match k with
  | KModel => ModelDeployment
  | KScale => ModelScale
  | KScaled => ScaledObject
  | KHpa => Hpa
  | KPdb => Pdb
  | KPool => InferencePool
  | KDeployment => Deployment
  | KService => Service
  | KPod => Pod
  | KNode => Node
  | KLease => Lease
  end.
Definition meta (k : Kind) : object k → ObjectMeta :=
  match k return object k → ObjectMeta with
  | KModel => md_meta
  | KScale => mc_meta
  | KScaled => sd_meta
  | KHpa => hp_meta
  | KPdb => pb_meta
  | KPool => pl_meta
  | KDeployment => dm_meta
  | KService => sc_meta
  | KPod => po_meta
  | KNode => nd_meta
  | KLease => le_meta
  end.
Definition with_meta (k : Kind) (m : ObjectMeta) : object k → object k :=
  match k return object k → object k with
  | KModel => λ o, mkModel m (md_spec o) (md_status o)
  | KScale => λ o, mkModelScale m (mc_model_uid o) (mc_replicas o) (mc_status o)
  | KScaled => λ o, mkScaled m (sd_target o) (sd_min_replica_count o) (sd_max_replica_count o)
                     (sd_polling_interval o) (sd_advanced o) (sd_triggers o) (sd_conditions o)
  | KHpa => λ o, mkHpa m (hp_target o) (hp_status o)
  | KPdb => λ o, mkPdb m (pb_max_unavailable o) (pb_match_labels o)
  | KPool => λ o, mkPool m (pl_spec o)
  | KDeployment => λ o, mkDeployment m (dm_spec o) (dm_status o)
  | KService => λ o, mkService m (sc_ports o) (sc_selector o)
  | KPod => λ o, mkPod m (po_spec o) (po_status o)
  | KNode => λ o, mkNode m (nd_conditions o)
  | KLease => λ o, mkNodeLease m (le_renew_time o)
  end.

(** ** Errors *)

Inductive KubeError := Api (code : Z) (message : string) | Unavailable.

Inductive Error :=
| EInvalid (message : string)
| EConflict (message : string)
| OwnershipConflict
| EKube (e : KubeError)
| EJson.

(** ** Validation *)

(** [str::split] of a byte. *)
Fixpoint split (sep : ascii) (s : string) : list string :=
  match s with
  | EmptyString => [""]
  | String c s =>
      match split sep s with
      | part :: parts => if Ascii.eqb c sep then "" :: part :: parts else String c part :: parts
      | [] => []
      end
  end.

Definition first_byte (p : ascii → bool) (s : string) : bool :=
  match s with String c _ => p c | EmptyString => false end.
Definition last_byte (p : ascii → bool) (s : string) : bool :=
  match String.get (String.length s - 1) s with Some c => p c | None => false end.

Definition name_part (part : string) : bool :=
  negb (is_empty part) && (str_len part <=? 63)
  && first_byte is_ascii_alphanumeric part && last_byte is_ascii_alphanumeric part
  && bytes_all (λ b, is_ascii_lowercase b || is_ascii_digit b || Ascii.eqb b "-") part.

Definition validate_name (name : string) (namespace : bool) : result Error unit :=
  require
    (negb (is_empty name || ((if namespace then 63 else 253) <? str_len name)
           || negb (forallb name_part (split "." name))
           || (namespace && contains_byte "." name)))
    (EInvalid "invalid Kubernetes resource name or namespace").

Definition lower_hexdigit (c : ascii) : bool := is_ascii_digit c || in_range 97 102 c.
Definition checksum_ok (checksum : string) : bool :=
  match strip_prefix "sha256:" checksum with
  | Some hash => (str_len hash =? 64) && bytes_all lower_hexdigit hash
  | None => false
  end.

Definition health_ok (h : RuntimeHealth) : bool :=
  let path := rh_path h in
  let timeout := rh_startup_timeout_seconds h in
  negb (negb (String.prefix "/" path) || String.prefix "//" path || (256 <? str_len path)
        || negb (bytes_all (λ b, is_ascii_alphanumeric b || one_of ["/"; "."; "_"; "-"]%char b) path)
        || negb ((10 <=? timeout) && (timeout <=? 7200))
        || negb (Z.rem timeout 5 =? 0)).

Definition validate_scaling (spec : ModelDeploymentSpec) (scaling : AutoscalingSpec) : result Error unit :=
  let metrics := negb ((as_target_pending_requests scaling =? 0) && (as_target_running_requests scaling =? 0)) in
  require (negb (as_managed scaling && (negb (is_some (sp_serving spec)) || negb metrics)))
    (EInvalid "managed scaling requires a serving pool and EPP request metrics") ;;
  require
    (negb ((as_min_replicas scaling <? 1) || (as_max_replicas scaling <? as_min_replicas scaling)
           || (sp_replicas spec <? as_min_replicas scaling) || (as_max_replicas scaling <? sp_replicas spec)
           || (as_target_pending_requests scaling <? 0) || (as_target_running_requests scaling <? 0)
           || match as_target_cpu scaling with
              | Some v => negb ((1 <=? v) && (v <=? 100))
              | None => false
              end))
    (EInvalid "autoscaling requires 1 <= minReplicas <= replicas <= maxReplicas and CPU target 1..100") ;;
  require
    (negb (((0 <? as_target_pending_requests scaling) || (0 <? as_target_running_requests scaling))
           && negb (is_some (sp_serving spec))))
    (EInvalid "EPP scaling requires a pool-specific serving entry") ;;
  require
    (negb ((negb metrics || is_some (as_target_cpu scaling))
           && match rq_requests (sp_resources spec) ≫= lookup "cpu" with
              | Some cpu => is_blank cpu
              | None => true
              end))
    (EInvalid "CPU autoscaling requires resources.requests.cpu (quantity validation belongs to Kubernetes)").

Definition validate_serving (name : string) (spec : ModelDeploymentSpec) (serving : ServingSpec) : result Error unit :=
  validate_name (sv_picker_service serving) true ;;
  require
    (negb (str_eqb (sv_picker_service serving) name
           || negb ((1 <=? sv_picker_port serving) && (sv_picker_port serving <=? 65535))
           || negb (str_eqb (rs_protocol (sp_runtime spec)) "openai")))
    (EInvalid "serving requires OpenAI protocol, a separate EPP Service and valid port").

(** The defaults that validation fills in. *)
Definition default_port (r : RuntimeSpec) : RuntimeSpec :=
  mkRuntimeSpec (rs_image r) (rs_protocol r) (if rs_port r =? 0 then 8000 else rs_port r) (rs_arguments r)
    (rs_health r).
Definition default_rollout (r : RolloutSpec) : RolloutSpec :=
  mkRollout (if is_empty (ro_strategy r) then "rolling" else ro_strategy r) (ro_canary_weight r).
Definition with_defaults (spec : ModelDeploymentSpec) : ModelDeploymentSpec :=
  mkSpec (sp_model spec) (default_port (sp_runtime spec)) (sp_replicas spec) (sp_resources spec)
    (sp_autoscaling spec) (sp_disruption_budget spec) (sp_serving spec) (default_rollout <$> sp_rollout spec)
    (sp_node_selector spec) (sp_tolerations spec).

(** What is left of an error is lost with the deployment, so only the outcome
    of a validation that succeeds is given: the deployment with its defaults. *)
Definition validate (model : ModelDeployment) : result Error ModelDeployment :=
  let name := name_any (md_meta model) in
  validate_name name true ;;
  require (first_byte is_ascii_lowercase name)
    (EInvalid "ModelDeployment name must start with a lowercase letter (Service DNS label)") ;;
  validate_name (default "" (om_namespace (md_meta model))) true ;;
  let spec := with_defaults (md_spec model) in
  require
    (negb (is_empty (ms_id (sp_model spec)) || is_empty (ms_revision (sp_model spec))
           || is_empty (ms_uri (sp_model spec)) || is_empty (rs_image (sp_runtime spec))))
    (EInvalid "model id, revision, uri and runtime image are required") ;;
  require (checksum_ok (ms_checksum (sp_model spec)))
    (EInvalid "model checksum must be sha256 followed by 64 lowercase hexadecimal characters") ;;
  require (str_in (rs_protocol (sp_runtime spec)) ["openai"; "triton-grpc"; "custom-http"])
    (EInvalid "unsupported runtime protocol") ;;
  require ((1 <=? rs_port (sp_runtime spec)) && (rs_port (sp_runtime spec) <=? 65535) && (0 <=? sp_replicas spec))
    (EInvalid "invalid runtime port or negative replicas") ;;
  require (health_ok (rs_health (sp_runtime spec)))
    (EInvalid "runtime health requires a local HTTP path and startup timeout 10..7200 seconds in multiples of five") ;;
  match sp_autoscaling spec with Some scaling => validate_scaling spec scaling | None => Ok tt end ;;
  require (match sp_disruption_budget spec with Some v => 0 <=? v | None => true end)
    (EInvalid "maxUnavailable must be non-negative") ;;
  match sp_serving spec with Some serving => validate_serving name spec serving | None => Ok tt end ;;
  require (match sp_rollout spec with
           | Some r => str_eqb (ro_strategy r) "rolling" && (ro_canary_weight r =? 0)
           | None => true
           end) (EInvalid "only rolling is currently supported") ;;
  Ok (mkModel (md_meta model) spec (md_status model)).

(** ** Calls

    A reading of one object answers [None] for one that is not there; a write
    that names a resource version or a unique identifier is conditional on it. *)

Inductive call : Type → Type :=
| Get (k : Kind) (namespace name : string) : call (option (object k))
| ListOf (k : Kind) (namespace : string) : call (list (object k))
| Create (k : Kind) (namespace : string) (o : object k) : call (object k)
| Replace (k : Kind) (namespace name : string) (o : object k) : call (object k)
| Apply (k : Kind) (namespace name : string) (o : object k) : call (object k)
| Delete (k : Kind) (namespace name : string) (uid version : option string) : call unit
| PatchFinalizers (namespace name : string) (uid version : option string) (l : list string) : call Pod
| PatchModelStatus (namespace name : string) (version : option string) (status : ModelDeploymentStatus)
    : call ModelDeployment
| PatchScaleStatus (namespace name : string) (version : option string) (status : ModelScaleStatus)
    : call ModelScale
| Health (ip : string) (port : Z) : call Json.

Definition reading {A} (c : call A) : Prop :=
  match c with Get _ _ _ | ListOf _ _ | Health _ _ => True | _ => False end.

(** The object that a write is about; the server chooses a name that is left out. *)
Definition place {A} (c : call A) (p : Kind * string * string) : Prop :=
  match c with
  | Get _ _ _ | ListOf _ _ | Health _ _ => False
  | Create k ns o => p.1 = (k, ns) ∧ match om_name (meta k o) with Some name => p.2 = name | None => True end
  | Replace k ns name _ | Apply k ns name _ | Delete k ns name _ _ => p = (k, ns, name)
  | PatchFinalizers ns name _ _ _ => p = (KPod, ns, name)
  | PatchModelStatus ns name _ _ => p = (KModel, ns, name)
  | PatchScaleStatus ns name _ _ => p = (KScale, ns, name)
  end.

Definition agrees (wanted actual : option string) : Prop := wanted = None ∨ wanted = actual.

(** When a write may take effect at the name [at_] of its place. *)
Definition fence {A} (c : call A) (stored : ∀ k, string → string → option (object k)) (at_ : string) : Prop :=
  match c with
  | Get _ _ _ | ListOf _ _ | Health _ _ => False
  | Create k ns o => stored k ns at_ = None
  | Replace k ns name o => ∃ old, stored k ns name = Some old ∧
      agrees (om_uid (meta k o)) (om_uid (meta k old)) ∧
      agrees (om_resource_version (meta k o)) (om_resource_version (meta k old))
  | Apply k ns name o =>
      (stored k ns name = None ∧ om_uid (meta k o) = None) ∨
      ∃ old, stored k ns name = Some old ∧ agrees (om_uid (meta k o)) (om_uid (meta k old)) ∧
        agrees (om_resource_version (meta k o)) (om_resource_version (meta k old))
  | Delete k ns name uid version => ∃ old, stored k ns name = Some old ∧
      agrees uid (om_uid (meta k old)) ∧ agrees version (om_resource_version (meta k old))
  | PatchFinalizers ns name uid version _ => ∃ old, stored KPod ns name = Some old ∧
      agrees uid (om_uid (po_meta old)) ∧ agrees version (om_resource_version (po_meta old))
  | PatchModelStatus ns name version _ => ∃ old, stored KModel ns name = Some old ∧
      agrees version (om_resource_version (md_meta old))
  | PatchScaleStatus ns name version _ => ∃ old, stored KScale ns name = Some old ∧
      agrees version (om_resource_version (mc_meta old))
  end.

(** What the server documents: a reading changes nothing and tells what is
    stored; a write has its effect at its place and under its condition or
    none, also when its answer is lost; stored objects carry their name, an
    identifier and a resource version, and a version never stands for two contents of a name;
    a patch answers with what it leaves: the object with its identifier and the
    finalizers of the patch. *)
Class KubeApi := {
  Kube : Type;
  stored : Kube → ∀ k, string → string → option (object k);
  running : Kube → Prop;
  since : Kube → Kube → Prop;
  served : ∀ A, call A → Kube → Kube → result KubeError A → Prop;
  since_refl s : running s → since s s;
  since_running s t : since s t → running t;
  since_trans s t u : since s t → since t u → since s u;
  since_version s t k ns name o p : since s t → stored s k ns name = Some o → stored t k ns name = Some p →
    om_resource_version (meta k p) = om_resource_version (meta k o) → p = o;
  stored_identity s k ns name o : running s → stored s k ns name = Some o →
    om_name (meta k o) = Some name ∧ is_Some (om_uid (meta k o)) ∧ is_Some (om_resource_version (meta k o));
  served_since A (c : call A) s t a : running s → served A c s t a → since s t;
  served_get k ns name s t o : served _ (Get k ns name) s t (Ok o) → o = stored s k ns name;
  served_list k ns s t l o : served _ (ListOf k ns) s t (Ok l) → (o ∈ l ↔ ∃ name, stored s k ns name = Some o);
  served_effect A (c : call A) s t a : served A c s t a →
    (∀ k ns name, stored t k ns name = stored s k ns name) ∨
    ∃ p, place c p ∧ fence c (stored s) p.2 ∧
      ∀ k ns name, (k, ns, name) ≠ p → stored t k ns name = stored s k ns name;
  served_write A (c : call A) s t a : served A c s t (Ok a) →
    reading c ∨ ∃ p, place c p ∧ fence c (stored s) p.2;
  served_patched ns name uid version l s t pod : served _ (PatchFinalizers ns name uid version l) s t (Ok pod) →
    stored t KPod ns name = Some pod ∧ finalizers (po_meta pod) = l ∧
    ∀ old, stored s KPod ns name = Some old → om_uid (po_meta pod) = om_uid (po_meta old) }.
Arguments served {_ A} c s t a.

(** ** Programs that call the server *)

Inductive Talk (E A : Type) : Type :=
| Say (r : result E A)
| Call {B} (c : call B) (k : result KubeError B → Talk E A).
Arguments Say {E A} r.
Arguments Call {E A B} c k.

Fixpoint talk_bind {E A B} (k : A → Talk E B) (m : Talk E A) : Talk E B :=
  match m with
  | Say (Ok a) => k a
  | Say (Err e) => Say (Err e)
  | Call c f => Call c (λ r, talk_bind k (f r))
  end.
#[export] Instance talk_ret {E} : MRet (Talk E) := λ A a, Say (Ok a).
#[export] Instance talk_mbind {E} : MBind (Talk E) := λ A B k m, talk_bind k m.

Definition says {E A} (r : result E A) : Talk E A := Say r.
(** A call whose error becomes [f e]. *)
Definition ask {E B} (f : KubeError → E) (c : call B) : Talk E B :=
  Call c (λ r, Say (match r with Ok b => Ok b | Err e => Err (f e) end)).
(** A call whose error is looked at. *)
Definition hear {E B} (c : call B) : Talk E (result KubeError B) := Call c (λ r, Say (Ok r)).

(** A program whose error is looked at. *)
Fixpoint attempt {E E' A} (m : Talk E A) : Talk E' (result E A) :=
  match m with
  | Say r => Say (Ok r)
  | Call c k => Call c (λ a, attempt (k a))
  end.

(** [Api::get], which answers an absent object with an error. *)
Definition fetch {E} (f : KubeError → E) (k : Kind) (ns name : string) : Talk E (object k) :=
  current ← ask f (Get k ns name);
  match current with Some o => mret o | None => says (Err (f (Api 404 "not found"))) end.

Section talks.
Context `{KubeApi}.

Record heard := Heard {
  he_type : Type; he_call : call he_type; he_before : Kube; he_after : Kube; he_answer : result KubeError he_type }.

(** [m], started on [s] among others who use the server, makes the calls [l];
    it answers [Some r], or it is stopped before it answers. *)
Fixpoint talks {E A} (m : Talk E A) (s : Kube) (l : list heard) (o : option (result E A)) : Prop :=
  (l = [] ∧ o = None) ∨
  match m with
  | Say r => l = [] ∧ o = Some r
  | Call c k => ∃ s1 s2 b l', since s s1 ∧ served c s1 s2 b ∧ l = Heard _ c s1 s2 b :: l' ∧ talks (k b) s2 l' o
  end.

(** Every call of [m], started on [s], is [granted], whatever the server
    answers and the others do, and what it answers in the end is [Q]. *)
Variable granted : ∀ A, call A → Kube → Kube → result KubeError A → Prop.
Fixpoint heeds {E A} (m : Talk E A) (s : Kube) (Q : result E A → Kube → Prop) : Prop :=
  match m with
  | Say r => Q r s
  | Call c k => ∀ s1 s2 b, since s s1 → served c s1 s2 b → granted _ c s1 s2 b ∧ heeds (k b) s2 Q
  end.

Definition heard_granted (e : heard) : Prop := granted _ (he_call e) (he_before e) (he_after e) (he_answer e).

Lemma heeds_talks {E A} (m : Talk E A) s Q l o :
  running s → heeds m s Q → talks m s l o →
  Forall heard_granted l ∧ match o with Some r => ∃ t, since s t ∧ Q r t | None => True end.
Proof.
  revert s l. induction m as [r|B c k IH]; intros s l Hs Hm [[-> ->]|Ht]; try by split.
  - destruct Ht as [-> ->]. split; [constructor|]. exists s. split; [by apply since_refl|done].
  - destruct Ht as (s1 & s2 & b & l' & H1 & H2 & -> & Ht). destruct (Hm _ _ _ H1 H2) as [Hg Hk].
    assert (since s1 s2) as H12 by (eapply served_since; [by eapply since_running|exact H2]).
    destruct (IH b s2 l' (since_running _ _ H12) Hk Ht) as [Hl Ho]. split; [by constructor|].
    destruct o as [r|]; [|done]. destruct Ho as (t & H3 & HQ). exists t. split; [|done].
    eapply since_trans; [exact H1|]. by eapply since_trans.
Qed.

Lemma heeds_bind {E A B} (m : Talk E A) (k : A → Talk E B) s Q :
  heeds m s (λ r t, match r with Ok a => heeds (k a) t Q | Err e => Q (Err e) t end) → heeds (m ≫= k) s Q.
Proof.
  revert s. induction m as [[a|e]|C c f IH]; intros s Hm; [exact Hm|exact Hm|].
  intros s1 s2 b H1 H2. destruct (Hm _ _ _ H1 H2) as [Hg Hk]. split; [done|]. by apply IH.
Qed.

Lemma heeds_mono {E A} (m : Talk E A) s (Q Q' : result E A → Kube → Prop) :
  running s → heeds m s Q → (∀ r t, since s t → Q r t → Q' r t) → heeds m s Q'.
Proof.
  revert s. induction m as [r|C c f IH]; intros s Hs Hm HQ; [apply HQ; [by apply since_refl|exact Hm]|].
  intros s1 s2 b H1 H2. destruct (Hm _ _ _ H1 H2) as [Hg Hk]. split; [done|].
  assert (since s1 s2) as H12 by (eapply served_since; [by eapply since_running|exact H2]).
  apply IH; [by eapply since_running|done|]. intros r t Ht. apply HQ.
  eapply since_trans; [exact H1|]. by eapply since_trans.
Qed.
Lemma heeds_says {E A} (r : result E A) s (Q : result E A → Kube → Prop) : Q r s → heeds (says r) s Q.
Proof. done. Qed.
Lemma heeds_ask {E B} (f : KubeError → E) (c : call B) s Q :
  (∀ s1 s2 b, since s s1 → served c s1 s2 b → granted _ c s1 s2 b ∧
    Q (match b with Ok b => Ok b | Err e => Err (f e) end) s2) → heeds (ask f c) s Q.
Proof. intros Hc s1 s2 b H1 H2. by apply Hc. Qed.
Lemma heeds_hear {E B} (c : call B) s (Q : result E (result KubeError B) → Kube → Prop) :
  (∀ s1 s2 b, since s s1 → served c s1 s2 b → granted _ c s1 s2 b ∧ Q (Ok b) s2) → heeds (hear c) s Q.
Proof. intros Hc s1 s2 b H1 H2. by apply Hc. Qed.

Lemma heeds_says_then {E A B} (r : result E A) (k : A → Talk E B) s Q :
  (∀ a, r = Ok a → heeds (k a) s Q) → (∀ e, r = Err e → Q (Err e) s) → heeds (says r ≫= k) s Q.
Proof. intros Hk He. apply heeds_bind. destruct r; [by apply Hk|by apply He]. Qed.
Lemma heeds_ask_then {E B C} (f : KubeError → E) (c : call B) (k : B → Talk E C) s Q :
  (∀ s1 s2 b, since s s1 → served c s1 s2 b → granted _ c s1 s2 b ∧
    match b with Ok b => heeds (k b) s2 Q | Err e => Q (Err (f e)) s2 end) → heeds (ask f c ≫= k) s Q.
Proof.
  intros Hc. apply heeds_bind, heeds_ask. intros s1 s2 b H1 H2. destruct (Hc _ _ _ H1 H2) as [Hg Hb].
  split; [done|]. by destruct b.
Qed.
Lemma heeds_attempt {E E' A B} (m : Talk E A) (k : result E A → Talk E' B) s Q :
  heeds m s (λ r t, heeds (k r) t Q) → heeds (attempt m ≫= k) s Q.
Proof.
  revert s. induction m as [r|C c f IH]; intros s Hm; [exact Hm|].
  intros s1 s2 b H1 H2. destruct (Hm _ _ _ H1 H2) as [Hg Hk]. split; [done|]. by apply IH.
Qed.
Lemma heeds_hear_then {E B C} (c : call B) (k : result KubeError B → Talk E C) s Q :
  (∀ s1 s2 b, since s s1 → served c s1 s2 b → granted _ c s1 s2 b ∧ heeds (k b) s2 Q) → heeds (hear c ≫= k) s Q.
Proof. intros Hc. by apply heeds_bind, heeds_hear. Qed.
End talks.

(** Where every reading is granted. *)
Section readings.
Context `{KubeApi}.
Variable granted : ∀ A, call A → Kube → Kube → result KubeError A → Prop.
Hypothesis granted_reading : ∀ A (c : call A) s t b, reading c → granted A c s t b.

Lemma read_same {A} (c : call A) s t b k ns name :
  reading c → served c s t b → stored t k ns name = stored s k ns name.
Proof. intros Hp Hc. destruct (served_effect _ _ _ _ _ Hc) as [Hs|(p & Hf & _)]; [done|]. by destruct c. Qed.

#[local] Set Default Proof Using "Type*".
Lemma heeds_get_then {E C} (f : KubeError → E) k ns name (cont : option (object k) → Talk E C) s Q :
  running s →
  (∀ t, since s t → running t → heeds granted (cont (stored t k ns name)) t Q) →
  (∀ t e, since s t → running t → Q (Err (f e)) t) → heeds granted (ask f (Get k ns name) ≫= cont) s Q.
Proof.
  intros Hs Hk He. apply heeds_ask_then. intros s1 s2 b H1 H2. split; [by apply granted_reading|].
  assert (since s1 s2) as H12 by (eapply served_since; [by eapply since_running|exact H2]).
  assert (since s s2) as H3 by by eapply since_trans. assert (running s2) as Hs2 by by eapply since_running.
  destruct b as [o|e]; [|by apply He].
  pose proof (served_get _ _ _ _ _ _ H2) as ->. rewrite <- (read_same (Get k ns name) _ _ _ _ _ _ I H2). by apply Hk.
Qed.
Lemma heeds_fetch_then {E C} (f : KubeError → E) k ns name (cont : object k → Talk E C) s Q :
  running s →
  (∀ t o, since s t → running t → stored t k ns name = Some o → heeds granted (cont o) t Q) →
  (∀ t e, since s t → running t → Q (Err (f e)) t) → heeds granted (fetch f k ns name ≫= cont) s Q.
Proof.
  intros Hs Hk He. unfold fetch. apply heeds_bind, heeds_get_then; [done| |done].
  intros t Ht Hst. destruct (stored t k ns name) as [o|] eqn:Ho; [by apply (Hk t o)|by apply He].
Qed.
Lemma heeds_list_then {E C} (f : KubeError → E) k ns (cont : list (object k) → Talk E C) s Q :
  running s →
  (∀ t l, since s t → running t → (∀ o, o ∈ l ↔ ∃ name, stored t k ns name = Some o) → heeds granted (cont l) t Q) →
  (∀ t e, since s t → running t → Q (Err (f e)) t) → heeds granted (ask f (ListOf k ns) ≫= cont) s Q.
Proof.
  intros Hs Hk He. apply heeds_ask_then. intros s1 s2 b H1 H2. split; [by apply granted_reading|].
  assert (since s1 s2) as H12 by (eapply served_since; [by eapply since_running|exact H2]).
  assert (since s s2) as H3 by by eapply since_trans. assert (running s2) as Hs2 by by eapply since_running.
  destruct b as [l|e]; [|by apply He].
  apply Hk; [done..|]. intros o. rewrite (served_list _ _ _ _ _ o H2).
  by setoid_rewrite (λ name, read_same (ListOf k ns) _ _ _ k ns name I H2).
Qed.
Lemma heeds_reading_then {E B C} (f : KubeError → E) (c : call B) (cont : B → Talk E C) s Q :
  running s → reading c →
  (∀ t b, since s t → running t → heeds granted (cont b) t Q) →
  (∀ t e, since s t → running t → Q (Err (f e)) t) → heeds granted (ask f c ≫= cont) s Q.
Proof.
  intros Hs Hp Hk He. apply heeds_ask_then. intros s1 s2 b H1 H2. split; [by apply granted_reading|].
  assert (since s1 s2) as H12 by (eapply served_since; [by eapply since_running|exact H2]).
  assert (since s s2) as H3 by by eapply since_trans. assert (running s2) as Hs2 by by eapply since_running.
  destruct b as [o|e]; [by apply Hk|by apply He].
Qed.
End readings.
