(* ===== verification/Agent.v ===== *)
(** * Agent: the writers of desired deployments in a member cluster

    [crates/cluster-agent/src]: the outbound agent that validates a delivery
    of the control plane and applies it under fences ([pull.rs]), and the
    inbound routes for deployments that no delivery owns ([main.rs]). *)

From S2P Require Import Prelude Domain Models Http Store Fleet Routing Clusters Pools Control Payments Kube.
Local Open Scope string_scope.
Local Open Scope Z_scope.

(** How the types of the interface are read from documents and written. *)
Class KubeLibraries := {
  spec_of_json : Json → option ModelDeploymentSpec;
  spec_json : ModelDeploymentSpec → Json }.

Definition OWNER : string := "platform.xscope.io/desired-cluster".
Definition VERSION : string := "platform.xscope.io/desired-version".
Definition DIGEST : string := "platform.xscope.io/desired-sha256".

(** [i64::to_string] and [parse::<i64>]. *)
Definition print_i64 (z : Z) : string :=
  if z <? 0 then "-" +:+ print_unsigned (- z) else print_unsigned z.
Definition parse_i64 (s : string) : option Z :=
  match s with
  | String c digits =>
      if Ascii.eqb c "-" then
        if is_empty digits then None else n ← parse_digits (- i64_min) 0 digits; Some (- n)
      else parse_unsigned i64_max s
  | EmptyString => None
  end.

Record PullConfig := mkPullConfig {
  pc_prometheus_url : option string; pc_cluster_id : string; pc_namespace : string;
  pc_control_url : string; pc_credential_file : string; pc_allow_local_http : bool }.

Section pull.
Context `{ControlLibraries} `{KubeLibraries}.
Variable cfg : PullConfig.

(** ** Validation of a whole delivery *)

(** [ModelDeployment::new] in the namespace of the agent. *)
Definition new_model (name : string) (spec : ModelDeploymentSpec) : ModelDeployment :=
  mkModel (mkMeta (Some name) None (Some (pc_namespace cfg)) None None None None None None None None None None)
    spec None.

Definition validate_item (item : DesiredDeployment) : result string (option ModelDeployment) :=
  match dd_spec item with
  | Some spec =>
      require (negb (is_some (dd_delete_uid item))) "invalid_spec" ;;
      spec ← ok_or (spec_of_json spec) "invalid_spec";
      match validate (new_model (dd_name item) spec) with Ok model => Ok (Some model) | Err _ => Err "invalid_spec" end
  | None =>
      require (match dd_delete_uid item with
               | Some uid => negb (is_empty uid) && (str_len uid <=? 128)
               | None => false
               end) "invalid_spec" ;;
      Ok None
  end.

Fixpoint validate_items (names : list string) (l : list DesiredDeployment)
    : result string (list (option ModelDeployment)) :=
  match l with
  | [] => Ok []
  | item :: l =>
      require (is_ok (validate_name (dd_name item) true)) "invalid_spec" ;;
      require (negb (str_in (dd_name item) names)) "invalid_spec" ;;
      model ← validate_item item;
      models ← validate_items (dd_name item :: names) l;
      Ok (model :: models)
  end.

Definition delivery_ok (d : ClusterDelivery) : bool :=
  let bytes := payload_bytes document_bytes (dl_deployments d) in
  negb (negb (str_eqb (dl_cluster_id d) (pc_cluster_id cfg))
        || negb (str_eqb (dl_namespace d) (pc_namespace cfg))
        || (dl_version d <=? 0)
        || negb (dl_lease_seconds d =? 60)
        || (100 <? Z.of_nat (length (dl_deployments d)))
        || (256 * 1024 <? str_len bytes)
        || negb (str_eqb (digest bytes) (dl_sha256 d))).

Definition validate_delivery (d : ClusterDelivery) : result string (list (option ModelDeployment)) :=
  require (delivery_ok d) "invalid_spec" ;;
  validate_items [] (dl_deployments d).

(** ** Applying it *)

(** The object that is there may be changed by the delivery. *)
Definition may_change (d : ClusterDelivery) (current : ModelDeployment) : result string unit :=
  require (bool_decide (labels (md_meta current) !! OWNER = Some (pc_cluster_id cfg))) "ownership_conflict" ;;
  version ← ok_or (annotations (md_meta current) !! VERSION ≫= parse_i64) "ownership_conflict";
  require (negb ((dl_version d <? version)
                 || (version =? dl_version d)
                    && bool_decide (annotations (md_meta current) !! DIGEST ≠ Some (dl_sha256 d))))
    "ownership_conflict".

Definition stamp (d : ClusterDelivery) (m : ObjectMeta) : ObjectMeta :=
  set_annotation DIGEST (dl_sha256 d) (set_annotation VERSION (print_i64 (dl_version d))
    (set_label OWNER (pc_cluster_id cfg) m)).

Definition unavailable (e : KubeError) : string := "kubernetes_unavailable".

(** The metadata and the status that are there stay. *)
Definition replaced (d : ClusterDelivery) (desired current : ModelDeployment) : ModelDeployment :=
  mkModel (stamp d (md_meta current)) (md_spec desired) (md_status current).
Definition created (d : ClusterDelivery) (desired : ModelDeployment) : ModelDeployment :=
  mkModel (stamp d (md_meta desired)) (md_spec desired) (md_status desired).

Definition apply_item (d : ClusterDelivery) (item : DesiredDeployment) (desired : option ModelDeployment)
    : Talk string unit :=
  current ← ask unavailable (Get KModel (pc_namespace cfg) (dd_name item));
  says (require (match dd_expected_uid item with
                 | Some uid => bool_decide (((current : option ModelDeployment) ≫= λ m, om_uid (md_meta m)) = Some uid)
                 | None => true
                 end) "identity_mismatch") ;;
  match current with Some current => says (may_change d current) | None => mret tt end ;;
  match desired, current with
  | Some desired, Some current =>
      _ ← ask unavailable (Replace KModel (pc_namespace cfg) (dd_name item) (replaced d desired current)); mret tt
  | Some desired, None =>
      _ ← ask unavailable (Create KModel (pc_namespace cfg) (created d desired)); mret tt
  | None, Some current =>
      says (require (bool_decide (om_uid (md_meta current) = dd_delete_uid item)) "ownership_conflict") ;;
      ask unavailable (Delete KModel (pc_namespace cfg) (dd_name item) (om_uid (md_meta current))
        (om_resource_version (md_meta current)))
  | None, None => mret tt
  end.

Fixpoint apply_items (d : ClusterDelivery) (l : list (DesiredDeployment * option ModelDeployment))
    : Talk string unit :=
  match l with
  | [] => mret tt
  | x :: l => apply_item d x.1 x.2 ;; apply_items d l
  end.

(** Every spec is validated before the first change. *)
Definition apply (d : ClusterDelivery) : Talk string unit :=
  models ← says (validate_delivery d);
  apply_items d (zip (dl_deployments d) models).

(** What is reported of an application that ended, or did not in time. *)
Definition report_of (d : ClusterDelivery) (result : option (result string unit)) : ClusterReport :=
  let result := default (Err "apply_timeout") result in
  mkClusterReport (dl_version d) (dl_sha256 d) (dl_lease d) (if is_ok result then "applied" else "rejected")
    (match result with Ok _ => None | Err code => Some code end).
End pull.

(** ** The inbound routes *)

Definition DEFAULT_NAMESPACE : string := "xscope-system".

(** [name] and [namespace] come from the path. *)
Inductive inbound :=
| ListDeployments (namespace : option string)
| CreateDeployment (model : ModelDeployment)
| UpdateDeployment (namespace name resource_version : string) (spec : ModelDeploymentSpec)
| ScaleDeployment (namespace name : string) (replicas : Z)
| RemoveDeployment (namespace name : string).

Definition owned_by_writer (m : ModelDeployment) : bool := is_some (labels (md_meta m) !! OWNER).
Definition writer_conflict : Error := EConflict "deployment belongs to the outbound desired-state writer".

(** What a client may not say of a new deployment is taken away. *)
Definition top_level (m : ModelDeployment) : ModelDeployment :=
  let o := md_meta m in
  mkModel (mkMeta (om_name o) (om_generate_name o) (om_namespace o) None (om_generation o) None
      (om_creation_timestamp o) (om_deletion_timestamp o) (Some (delete OWNER (labels o)))
      (Some (delete DIGEST (delete VERSION (annotations o)))) None (om_finalizers o) None)
    (md_spec m) None.

(** Newest first. *)
Definition list_deployments (namespace : option string) : Talk Error (list ModelDeployment) :=
  let ns := match namespace with
            | Some ns => if is_empty ns then DEFAULT_NAMESPACE else ns
            | None => DEFAULT_NAMESPACE
            end in
  says (validate_name ns true) ;;
  items ← ask EKube (ListOf KModel ns);
  mret (reverse (order_by (λ m, default i64_min (om_creation_timestamp (md_meta m))) (reverse items))).

(** A deployment that names no namespace gets the default one. *)
Definition at_home (model : ModelDeployment) : ModelDeployment :=
  match om_namespace (md_meta model) with
  | Some ns => if is_empty ns then with_meta KModel (set_namespace (Some DEFAULT_NAMESPACE) (md_meta model)) model
               else model
  | None => with_meta KModel (set_namespace (Some DEFAULT_NAMESPACE) (md_meta model)) model
  end.

Definition create_deployment (model : ModelDeployment) : Talk Error ModelDeployment :=
  model ← says (validate (at_home model));
  let model := top_level model in
  namespace ← says (ok_or (om_namespace (md_meta model)) (EInvalid "namespace missing after validation"));
  ask EKube (Create KModel namespace model).

(** The checked deployment that a change starts from. *)
Definition free_deployment (ns name : string) : Talk Error ModelDeployment :=
  model ← fetch EKube KModel ns name;
  says (require (negb (owned_by_writer model)) writer_conflict) ;;
  mret model.

Definition update_deployment (ns name version : string) (spec : ModelDeploymentSpec) : Talk Error ModelDeployment :=
  says (validate_name ns true) ;;
  says (validate_name name false) ;;
  model ← free_deployment ns name;
  says (require (negb (is_empty version) && bool_decide (om_resource_version (md_meta model) = Some version))
    (EConflict "resourceVersion changed; reload before updating deployment")) ;;
  model ← says (validate (mkModel (md_meta model) spec (md_status model)));
  ask EKube (Replace KModel ns name model).

Definition rescale (n : Z) (s : ModelDeploymentSpec) : ModelDeploymentSpec :=
  mkSpec (sp_model s) (sp_runtime s) n (sp_resources s) (sp_autoscaling s) (sp_disruption_budget s) (sp_serving s)
    (sp_rollout s) (sp_node_selector s) (sp_tolerations s).

Definition scale_deployment (ns name : string) (replicas : Z) : Talk Error ModelDeployment :=
  says (validate_name ns true) ;;
  says (validate_name name false) ;;
  says (require (0 <=? replicas) (EInvalid "replicas must be non-negative")) ;;
  model ← fetch EKube KModel ns name;
  says (require (negb (is_some (sp_autoscaling (md_spec model))))
    (EInvalid "disable autoscaling before manually scaling replicas")) ;;
  says (require (negb (owned_by_writer model)) writer_conflict) ;;
  model ← says (validate (mkModel (md_meta model) (rescale replicas (md_spec model)) (md_status model)));
  ask EKube (Replace KModel ns name model).

(** An object that is already gone is removed. *)
Definition remove_deployment (ns name : string) : Talk Error unit :=
  says (validate_name ns true) ;;
  says (validate_name name false) ;;
  current ← ask EKube (Get KModel ns name);
  match current with
  | None => mret tt
  | Some model =>
      says (require (negb (owned_by_writer model)) writer_conflict) ;;
      answer ← hear (Delete KModel ns name (om_uid (md_meta model)) (om_resource_version (md_meta model)));
      match answer with
      | Ok _ => mret tt
      | Err (Api code m) => if code =? 404 then mret tt else says (Err (EKube (Api code m)))
      | Err e => says (Err (EKube e))
      end
  end.

(** A handler whose answer is not looked at. *)
Definition ends {E A} (m : Talk E A) : Talk E unit := _ ← m; mret tt.

Definition handle_inbound (r : inbound) : Talk Error unit :=
  match r with
  | ListDeployments ns => ends (list_deployments ns)
  | CreateDeployment model => ends (create_deployment model)
  | UpdateDeployment ns name version spec => ends (update_deployment ns name version spec)
  | ScaleDeployment ns name replicas => ends (scale_deployment ns name replicas)
  | RemoveDeployment ns name => remove_deployment ns name
  end.

(** The middleware: the status of a refusal, or the handler. *)
Definition authenticate (sha256 : string → string) (token : string) (h : Headers) (m : Talk Error unit)
    : Z + Talk Error unit :=
  if is_empty token then inl 503
  else if str_eqb (sha256 ("Bearer " +:+ token)) (sha256 (default "" (head (header_values "authorization" h))))
       then inr m else inl 401.

Definition api_error (e : Error) : Z * string :=
  match e with
  | EInvalid _ => (400, "invalid_request")
  | EConflict _ => (409, "conflict")
  | EKube (Api code _) =>
      if code =? 404 then (404, "not_found")
      else if code =? 409 then (409, "conflict")
      else if (code =? 400) || (code =? 422) then (400, "invalid_request")
      else (503, "cluster_unavailable")
  | _ => (503, "cluster_unavailable")
  end.

Definition inbound_success (r : inbound) : Z :=
  match r with CreateDeployment _ => 201 | RemoveDeployment _ _ => 204 | _ => 200 end.

(** The status of the answer to a route; while the agent pulls there are none. *)
Definition agent_response (sha256 : string → string) (pulls : bool) (token : string) (h : Headers) (r : inbound)
    : Talk Error Z :=
  if pulls then mret 404
  else match authenticate sha256 token h (handle_inbound r) with
  | inl status => mret status
  | inr m =>
      answer ← attempt m;
      mret (match answer with Ok _ => inbound_success r | Err e => (api_error e).1 end)
  end.

(** ** What a delivery may change *)

(** The deployment that a write would leave, or none after a deletion. *)
Definition written {A} (c : call A) : option (option ModelDeployment) :=
  match c with
  | Create k _ o | Replace k _ _ o =>
      match k return object k → option (option ModelDeployment) with
      | KModel => λ o, Some (Some o)
      | _ => λ _, None
      end o
  | Delete KModel _ _ _ _ => Some None
  | _ => None
  end.

Section fenced.
Context `{CL : ControlLibraries} `{KL : KubeLibraries} `{KA : KubeApi}.
Variable cfg : PullConfig.
Variable d : ClusterDelivery.

Definition unchanged (s t : Kube) : Prop := ∀ k ns name, stored t k ns name = stored s k ns name.

(** A deployment of this cluster, of no newer delivery, or of this one. *)
Definition behind (o : ModelDeployment) : Prop :=
  labels (md_meta o) !! OWNER = Some (pc_cluster_id cfg) ∧
  ∃ version, annotations (md_meta o) !! VERSION ≫= parse_i64 = Some version ∧ version ≤ dl_version d ∧
    (version = dl_version d → annotations (md_meta o) !! DIGEST = Some (dl_sha256 d)).

(** The marks of the delivery are put on, and the rest is as it was. *)
Record stamped (before after : ObjectMeta) : Prop := {
  st_labels : labels after = <[OWNER := pc_cluster_id cfg]> (labels before);
  st_annotations : annotations after =
    <[DIGEST := dl_sha256 d]> (<[VERSION := print_i64 (dl_version d)]> (annotations before));
  st_identity : (om_name after, om_namespace after, om_uid after, om_resource_version after) =
    (om_name before, om_namespace before, om_uid before, om_resource_version before);
  st_lives : (om_deletion_timestamp after, om_owner_references after, om_finalizers after) =
    (om_deletion_timestamp before, om_owner_references before, om_finalizers before) }.

(** The change [w] of an item of [d] to [before]. *)
Record item_change (item : DesiredDeployment) (desired before w : option ModelDeployment) : Prop := {
  ic_change : match desired, before, w with
    | Some m, Some o, Some n => md_spec n = md_spec m ∧ md_status n = md_status o ∧ stamped (md_meta o) (md_meta n)
    | Some m, None, Some n => md_spec n = md_spec m ∧ md_status n = md_status m ∧ stamped (md_meta m) (md_meta n)
    | None, Some o, None => om_uid (md_meta o) = dd_delete_uid item
    | _, _, _ => False
    end;
  ic_owned o : before = Some o → behind o;
  ic_expected uid : dd_expected_uid item = Some uid → ∃ o, before = Some o ∧ om_uid (md_meta o) = Some uid }.

(** A call is a reading, or the change of an item of the delivery, all of it
    valid, to what is stored then; or the server refused it. *)
Definition delivers A (c : call A) (s t : Kube) (b : result KubeError A) : Prop :=
  reading c ∨
  ∃ item desired w, is_ok (validate_delivery cfg d) = true ∧
    item ∈ dl_deployments d ∧ validate_item cfg item = Ok desired ∧
    (∀ p, place c p ↔ p = (KModel, pc_namespace cfg, dd_name item)) ∧ written c = Some w ∧
    (item_change item desired (stored s KModel (pc_namespace cfg) (dd_name item)) w ∨
     unchanged s t ∧ ∃ e, b = Err e).

(** An item is done: the server accepted its change, or there was nothing to delete. *)
Definition item_done (item : DesiredDeployment) (desired : option ModelDeployment) (s t : Kube) : Prop :=
  ∃ s1 s2, since s s1 ∧ since s2 t ∧
  ((∃ A (c : call A) a w, served c s1 s2 (Ok a) ∧
      (∀ p, place c p ↔ p = (KModel, pc_namespace cfg, dd_name item)) ∧
      written c = Some w ∧ item_change item desired (stored s1 KModel (pc_namespace cfg) (dd_name item)) w) ∨
   desired = None ∧ stored s1 KModel (pc_namespace cfg) (dd_name item) = None).

Lemma stamp_stamped m : stamped m (stamp cfg d m).
Proof. by split. Qed.

Lemma may_change_behind o : may_change cfg d o = Ok tt → behind o.
Proof.
  intros [Howner%require_Ok%bool_decide_eq_true (version & Hv%ok_or_Ok & Hf%require_Ok)%result_bind_Ok]%unit_bind_Ok.
  split; [exact Howner|]. exists version. split; [exact Hv|].
  apply negb_true_iff, orb_false_iff in Hf as [Hlt%Z.ltb_ge Hdigest]. split; [exact Hlt|].
  intros ->. rewrite Z.eqb_refl in Hdigest. by apply bool_decide_eq_false, dec_stable in Hdigest.
Qed.

(** A conditional write that is not refused meets the object that was read. *)
Lemma fenced_write {A} (c : call A) k ns name o s s1 t b (P : Prop) :
  running s → stored s k ns name = Some o → since s s1 → served c s1 t b →
  (∀ at_, fence c (stored s1) at_ → ∃ old, stored s1 k ns name = Some old ∧
     agrees (om_resource_version (meta k o)) (om_resource_version (meta k old))) →
  ¬ reading c → (stored s1 k ns name = Some o → P) → P ∨ unchanged s1 t ∧ ∃ e, b = Err e.
Proof.
  intros Hs Ho H1 Hc Hf Hp HP.
  destruct (stored_identity _ _ _ _ _ Hs Ho) as (_ & _ & v & Hv).
  assert (∀ at_, fence c (stored s1) at_ → P) as Hfence.
  { intros at_ (old & Hold & [E|E])%Hf; [congruence|]. apply HP. rewrite Hold. f_equal.
    eapply since_version; [exact H1|exact Ho|exact Hold|by symmetry]. }
  destruct b as [a|e].
  - left. destruct (served_write _ _ _ _ _ Hc) as [Hn|(p & _ & Hn)]; [done|by eapply Hfence].
  - destruct (served_effect _ _ _ _ _ Hc) as [Hn|(p & _ & Hn & _)]; [right; split; [exact Hn|by eexists]|].
    left. by eapply Hfence.
Qed.

(** A creation that is not refused meets no object. *)
Lemma fresh_write k ns o s1 t b (P : Prop) :
  served (Create k ns o) s1 t b →
  (∀ name, place (Create k ns o) (k, ns, name) → stored s1 k ns name = None → P) →
  P ∨ unchanged s1 t ∧ ∃ e, b = Err e.
Proof.
  intros Hc HP. destruct b as [a|e].
  - left. destruct (served_write _ _ _ _ _ Hc) as [Hn|([[k' ns'] name] & [[= -> ->] Hp] & Hn)]; [done|].
    by eapply (HP name).
  - destruct (served_effect _ _ _ _ _ Hc) as [Hn|([[k' ns'] name] & [[= -> ->] Hp] & Hn & _)];
      [right; split; [exact Hn|by eexists]|left; by eapply (HP name)].
Qed.

Lemma validate_meta m m' : validate m = Ok m' → md_meta m' = md_meta m ∧ md_status m' = md_status m.
Proof.
  unfold validate. intros Hm. repeat (first [apply unit_bind_Ok in Hm as [_ Hm] | apply result_bind_Ok in Hm as (? & _ & Hm)]).
  by injection Hm as <-.
Qed.

Lemma validate_item_name item m : validate_item cfg item = Ok (Some m) → om_name (md_meta m) = Some (dd_name item).
Proof.
  unfold validate_item. destruct (dd_spec item) as [spec|]; intros Hm.
  - apply unit_bind_Ok in Hm as [_ Hm]. apply result_bind_Ok in Hm as (sp & _ & Hm).
    destruct (validate _) as [m'|] eqn:Hv; [|done]. injection Hm as <-. by apply validate_meta in Hv as [-> _].
  - by apply unit_bind_Ok in Hm as [_ Hm].
Qed.

Lemma validate_items_each names l models item desired :
  validate_items cfg names l = Ok models → (item, desired) ∈ zip l models → validate_item cfg item = Ok desired.
Proof.
  revert names models. induction l as [|x l IH]; intros names models Hv Hin; simpl in Hv.
  - injection Hv as <-. by apply elem_of_nil in Hin.
  - apply unit_bind_Ok in Hv as [_ Hv]. apply unit_bind_Ok in Hv as [_ Hv].
    apply result_bind_Ok in Hv as (m & Hm & Hv). apply result_bind_Ok in Hv as (ms & Hms & [= <-]).
    cbn in Hin. apply elem_of_cons in Hin as [[= -> ->]|Hin]; [done|]. by eapply IH.
Qed.

(** What the application of an item ends with. *)
Definition item_ends (item : DesiredDeployment) (desired : option ModelDeployment) (s : Kube)
    (r : result string unit) (t : Kube) : Prop :=
  since s t ∧ match r with Ok _ => item_done item desired s t | Err code => code ∈ report_codes end.

Lemma item_ends_mono item desired s s1 r t : since s s1 → item_ends item desired s1 r t → item_ends item desired s r t.
Proof.
  intros H1 [H2 Hr]. split; [by eapply since_trans|]. destruct r; [|done].
  destruct Hr as (s2 & s3 & H3 & H4 & Hd). exists s2, s3. split_and!; [by eapply since_trans|done|exact Hd].
Qed.

Section item.
#[local] Set Default Proof Using "Type*".
Variables (item : DesiredDeployment) (desired : option ModelDeployment).
Hypothesis (Hvalid : is_ok (validate_delivery cfg d) = true).
Hypothesis (Hitem : item ∈ dl_deployments d) (Hdesired : validate_item cfg item = Ok desired).

(** The write that ends an item. *)
Lemma item_write {A} (c : call A) w s s1 t b :
  running s → since s s1 → served c s1 t b →
  (∀ p, place c p ↔ p = (KModel, pc_namespace cfg, dd_name item)) → written c = Some w →
  (item_change item desired (stored s1 KModel (pc_namespace cfg) (dd_name item)) w ∨
   unchanged s1 t ∧ ∃ e, b = Err e) →
  delivers A c s1 t b ∧
  item_ends item desired s (match b with Ok _ => Ok tt | Err e => Err (unavailable e) end) t.
Proof.
  intros Hs H1 Hc Hp Hw Hch. split; [right; by exists item, desired, w|].
  assert (since s1 t) as H2 by (eapply served_since; [by eapply since_running|exact Hc]).
  split; [by eapply since_trans|]. destruct b as [a|e]; [|do 3 right; by left].
  exists s1, t. split; [exact H1|]. split; [apply since_refl; by eapply since_running|].
  left. exists A, c, a, w. split_and!; try done. by destruct Hch as [|[_ [e Hbad]]].
Qed.

Lemma refused code s : running s → code ∈ report_codes → item_ends item desired s (Err code) s.
Proof. intros Hs Hc. split; [by apply since_refl|done]. Qed.

Lemma apply_absent s : running s → stored s KModel (pc_namespace cfg) (dd_name item) = None →
  dd_expected_uid item = None →
  heeds delivers (match desired with
                  | Some m => _ ← ask unavailable (Create KModel (pc_namespace cfg) (created cfg d m)); mret tt
                  | None => mret tt
                  end) s (item_ends item desired s).
Proof.
  intros Hs Hn He. destruct desired as [m|] eqn:Hm in |- *.
  - intros s1 t b H1 Hc.
    assert (om_name (md_meta (created cfg d m)) = Some (dd_name item)) as Hname.
    { apply (validate_item_name item m). rewrite <- Hm. exact Hdesired. }
    destruct (item_write (Create KModel (pc_namespace cfg) (created cfg d m)) (Some (created cfg d m)) s s1 t b)
      as [Hg Hq]; try done.
    + intros [p n]. unfold place. change (meta KModel) with md_meta. rewrite Hname. cbn. naive_solver.
    + eapply fresh_write; [exact Hc|]. intros n [_ Hp] Hx. change (meta KModel) with md_meta in Hp.
      rewrite Hname in Hp. cbn in Hp. subst n. rewrite Hx, Hm. split; [split_and!; [done..|apply stamp_stamped]|done|]. congruence.
    + split; [exact Hg|]. destruct b; rewrite <- Hm; exact Hq.
  - split; [by apply since_refl|]. exists s, s. split_and!; [by apply since_refl..|]. by right.
Qed.

Lemma apply_present o s : running s → stored s KModel (pc_namespace cfg) (dd_name item) = Some o →
  behind o → (∀ uid, dd_expected_uid item = Some uid → om_uid (md_meta o) = Some uid) →
  heeds delivers (match desired with
                  | Some m => _ ← ask unavailable (Replace KModel (pc_namespace cfg) (dd_name item) (replaced cfg d m o)); mret tt
                  | None =>
                      says (require (bool_decide (om_uid (md_meta o) = dd_delete_uid item)) "ownership_conflict") ;;
                      ask unavailable (Delete KModel (pc_namespace cfg) (dd_name item) (om_uid (md_meta o))
                        (om_resource_version (md_meta o)))
                  end) s (item_ends item desired s).
Proof.
  intros Hs Ho Hmay Hexp. destruct desired as [m|] eqn:Hm in |- *.
  - intros s1 t b H1 Hc.
    destruct (item_write (Replace KModel (pc_namespace cfg) (dd_name item) (replaced cfg d m o))
      (Some (replaced cfg d m o)) s s1 t b) as [Hg Hq]; try done.
    + eapply (fenced_write _ KModel); [exact Hs|exact Ho|exact H1|exact Hc| |by intros []|].
      * intros _ (old & Hold & _ & Hv). by exists old.
      * intros ->. rewrite Hm. split; [split_and!; [done..|apply stamp_stamped]|by intros ? [= <-]|].
        intros uid Hu. exists o. split; [done|by apply Hexp].
    + split; [exact Hg|]. destruct b; rewrite <- Hm; exact Hq.
  - apply heeds_bind. cbn. destruct (decide (om_uid (md_meta o) = dd_delete_uid item)) as [Hu|Hu].
    2:{ rewrite bool_decide_false by done. cbn. apply refused; [done|]. right. by left. }
    rewrite bool_decide_true by done. cbn. intros s1 t b H1 Hc.
    destruct (item_write (Delete KModel (pc_namespace cfg) (dd_name item) (om_uid (md_meta o))
      (om_resource_version (md_meta o))) None s s1 t b) as [Hg Hq]; try done.
    + eapply (fenced_write _ KModel); [exact Hs|exact Ho|exact H1|exact Hc| |by intros []|].
      * intros _ (old & Hold & _ & Hv). by exists old.
      * intros ->. rewrite Hm. split; [done| |]; [by intros ? [= <-]|].
        intros uid Hv. exists o. split; [done|by apply Hexp].
    + split; [exact Hg|]. rewrite <- Hm. destruct b as [[]|]; exact Hq.
Qed.
End item.

Lemma may_change_code o code : may_change cfg d o = Err code → code = "ownership_conflict".
Proof.
  intros [[_ ->]%require_Err|(_ & _ & [[_ ->]%ok_or_Err|(v & _ & [_ ->]%require_Err)]%result_bind_Err)]%result_bind_Err;
    done.
Qed.

Lemma apply_item_heeds item desired s :
  is_ok (validate_delivery cfg d) = true → item ∈ dl_deployments d → validate_item cfg item = Ok desired →
  running s →
  heeds delivers (apply_item cfg d item desired) s (item_ends item desired s).
Proof.
  intros Hv Hin Hd Hs. unfold apply_item. apply heeds_get_then; [by left|done| |].
  2:{ intros t e Ht _. split; [done|]. do 3 right; by left. }
  intros t Ht Hst.
  assert (∀ code, code ∈ report_codes → item_ends item desired s (Err code) t) as Hrefused by by split.
  assert (∀ m, heeds delivers m t (item_ends item desired t) → heeds delivers m t (item_ends item desired s)) as Hlater.
  { intros m Hm. eapply heeds_mono; [done|exact Hm|]. intros r u _. by apply item_ends_mono. }
  apply heeds_says_then; [intros u Hexp%require_Ok|intros e He; apply Hrefused].
  2:{ unfold require in He. case_match; [done|]. injection He as <-. do 2 right; by left. }
  destruct (stored t KModel (pc_namespace cfg) (dd_name item)) as [o|] eqn:Ho.
  - apply heeds_says_then; [intros [] Hmay%may_change_behind|intros e ->%may_change_code; apply Hrefused; right; by left].
    apply Hlater, apply_present; try done.
    intros uid Hu. rewrite Hu in Hexp. by apply bool_decide_eq_true in Hexp.
  - apply heeds_bind. cbn [heeds mret talk_ret]. apply Hlater, apply_absent; try done.
    destruct (dd_expected_uid item); [by apply bool_decide_eq_true in Hexp|done].
Qed.

Definition apply_ends (l : list (DesiredDeployment * option ModelDeployment)) (s : Kube) (r : result string unit)
    (t : Kube) : Prop :=
  match r with
  | Ok _ => ∀ item desired, (item, desired) ∈ l → item_done item desired s t
  | Err code => code ∈ report_codes
  end.

Lemma item_done_mono item desired s s1 t t1 :
  since s s1 → since t t1 → item_done item desired s1 t → item_done item desired s t1.
Proof.
  intros H1 H2 (u & v & H3 & H4 & Hd). exists u, v. split_and!; [by eapply since_trans..|exact Hd].
Qed.

Lemma apply_items_heeds l s : is_ok (validate_delivery cfg d) = true →
  (∀ item desired, (item, desired) ∈ l → item ∈ dl_deployments d ∧ validate_item cfg item = Ok desired) →
  running s → heeds delivers (apply_items cfg d l) s (λ r t, since s t ∧ apply_ends l s r t).
Proof.
  intros Hv. revert s. induction l as [|[item desired] l IH]; intros s Hl Hs; cbn [apply_items fst snd].
  - split; [by apply since_refl|]. intros item desired Hin. by apply elem_of_nil in Hin.
  - destruct (Hl item desired) as [Hin Hd]; [by left|]. apply heeds_bind.
    eapply heeds_mono; [done|by apply apply_item_heeds|]. intros [[]|code] t Ht [_ Hdone]; [|by split].
    eapply heeds_mono; [by eapply since_running|apply IH; [|by eapply since_running]|].
    + intros i x Hx. apply Hl. by right.
    + intros [[]|code] u Hu [_ Hends]; (split; [by eapply since_trans|]); [|done].
      intros i x [[= -> ->]|Hx]%elem_of_cons.
      * eapply item_done_mono; [by apply since_refl|exact Hu|exact Hdone].
      * eapply item_done_mono; [exact Ht|by apply since_refl; eapply since_running|by apply Hends].
Qed.

Lemma validate_item_code item e : validate_item cfg item = Err e → e = "invalid_spec".
Proof.
  unfold validate_item. destruct (dd_spec item) as [spec|].
  - intros [[_ ->]%require_Err|(_ & _ & [[_ ->]%ok_or_Err|(sp & _ & Hm)]%result_bind_Err)]%result_bind_Err; [done..|].
    destruct (validate _); congruence.
  - by intros [[_ ->]%require_Err|(_ & _ & ?)]%result_bind_Err.
Qed.
Lemma validate_items_code names l e : validate_items cfg names l = Err e → e = "invalid_spec".
Proof.
  revert names. induction l as [|x l IH]; intros names Hv; simpl in Hv; [done|].
  apply result_bind_Err in Hv as [[_ ->]%require_Err|(_ & _ & Hv)]; [done|].
  apply result_bind_Err in Hv as [[_ ->]%require_Err|(_ & _ & Hv)]; [done|].
  apply result_bind_Err in Hv as [Hv|(m & _ & Hv)]; [by eapply validate_item_code|].
  apply result_bind_Err in Hv as [Hv|(ms & _ & Hv)]; [by eapply IH|done].
Qed.
Lemma validate_delivery_code e : validate_delivery cfg d = Err e → e = "invalid_spec".
Proof.
  by intros [[_ ->]%require_Err|(_ & _ & ?%validate_items_code)]%result_bind_Err.
Qed.

Lemma zip_elem {A B} (l : list A) (k : list B) x : length k = length l → x ∈ l → ∃ y, (x, y) ∈ zip l k.
Proof.
  revert k. induction l as [|a l IH]; intros [|b k] Hl Hx; try done; [by apply elem_of_nil in Hx|].
  apply elem_of_cons in Hx as [->|Hx]; [exists b; by left|].
  destruct (IH k) as [y Hy]; [by injection Hl|done|]. exists y. by right.
Qed.
Lemma validate_items_length names l models :
  validate_items cfg names l = Ok models → length models = length l.
Proof.
  revert names models. induction l as [|x l IH]; intros names models Hv; simpl in Hv; [by injection Hv as <-|].
  apply unit_bind_Ok in Hv as [_ Hv]. apply unit_bind_Ok in Hv as [_ Hv].
  apply result_bind_Ok in Hv as (m & _ & Hv). apply result_bind_Ok in Hv as (ms & Hms & [= <-]).
  simpl. f_equal. by eapply IH.
Qed.

(** What an application answers: all items are done, or why it stopped. *)
Definition applied (s : Kube) (r : result string unit) (t : Kube) : Prop :=
  match r with
  | Ok _ => ∀ item, item ∈ dl_deployments d →
      ∃ desired, validate_item cfg item = Ok desired ∧ item_done item desired s t
  | Err code => code ∈ report_codes
  end.

Lemma apply_heeds s : running s → heeds delivers (apply cfg d) s (λ r t, since s t ∧ applied s r t).
Proof.
  intros Hs. unfold apply. apply heeds_says_then.
  2:{ intros e ->%validate_delivery_code. split; [by apply since_refl|]. by left. }
  intros models Hv. assert (is_ok (validate_delivery cfg d) = true) as Hok by by rewrite Hv.
  apply unit_bind_Ok in Hv as [_ Hv].
  eapply heeds_mono; [done|apply apply_items_heeds; [done| |done]|].
  + intros item desired Hin. split; [by eapply elem_of_zip_l|by eapply validate_items_each].
  + intros r t _ [Ht Hr]. split; [done|]. destruct r as [[]|code]; [|done]. intros item Hin.
    destruct (zip_elem (dl_deployments d) models item) as [desired Hz]; [by eapply validate_items_length|done|].
    exists desired. split; [by eapply validate_items_each|by apply Hr].
Qed.

Lemma report_of_ok s o t : match o with Some r => applied s r t | None => True end → report_ok (report_of d o) = true.
Proof.
  destruct o as [[[]|code]|]; [done| |done]. intros Hc.
  repeat (apply elem_of_cons in Hc as [->|Hc]; [done|]). by apply elem_of_nil in Hc.
Qed.

(** C12: A delivery is applied under fences, whatever others do to the cluster
    meanwhile and wherever the agent is stopped.  It makes no change unless
    all of the delivery is valid.  Every change it asks for is of one item, to
    the object that is stored at that moment: one that this cluster owns, of no
    newer version and of the same digest if the version is the same, with the
    identity that the item expects; or to no object at all.  It leaves the
    validated spec under the stamp of the delivery, and every other metadata
    as it was; or the server refuses it.  When it answers that all is applied,
    the server accepted the change of every item; otherwise its code is one
    that the control plane knows, and the report is well formed in any case. *)
Theorem delivery_fenced s l o :
  running s → talks (apply cfg d) s l o →
  Forall (heard_granted delivers) l ∧ report_ok (report_of d o) = true ∧
  match o with
  | Some (Ok _) => ∃ t, since s t ∧ ∀ item, item ∈ dl_deployments d →
      ∃ desired, validate_item cfg item = Ok desired ∧ item_done item desired s t
  | _ => True
  end.
Proof.
  intros Hs Hrun. eapply heeds_talks in Hrun as [Hl Ho]; [|done|by apply apply_heeds]. split; [exact Hl|].
  destruct o as [r|]; [|done]. destruct Ho as (t & _ & Ht & Ha). split; [by apply (report_of_ok s _ t)|].
  destruct r; [by exists t|done].
Qed.
End fenced.

(** ** What the inbound routes may change *)

Section inbound.
Context `{KA : KubeApi}.

(** What a request may be about. *)
Definition asked_place (r : inbound) (ns name : string) : Prop :=
  match r with
  | ListDeployments _ => False
  | CreateDeployment m => Some ns = om_namespace (md_meta (at_home m)) ∧ agrees (om_name (md_meta m)) (Some name)
  | UpdateDeployment ns' name' _ _ | ScaleDeployment ns' name' _ | RemoveDeployment ns' name' =>
      ns = ns' ∧ name = name'
  end.

(** The change [w] that a request asks for, of [before]. *)
Definition inbound_change (r : inbound) (before w : option ModelDeployment) : Prop :=
  match r, before, w with
  | CreateDeployment asked, None, Some m =>
      md_spec m = with_defaults (md_spec asked) ∧ md_status m = None ∧
      om_name (md_meta m) = om_name (md_meta asked) ∧
      om_generate_name (md_meta m) = om_generate_name (md_meta asked) ∧
      om_namespace (md_meta m) = om_namespace (md_meta (at_home asked)) ∧
      labels (md_meta m) = delete OWNER (labels (md_meta asked)) ∧
      annotations (md_meta m) = delete DIGEST (delete VERSION (annotations (md_meta asked))) ∧
      om_uid (md_meta m) = None ∧ om_resource_version (md_meta m) = None ∧ owner_references (md_meta m) = []
  | UpdateDeployment _ _ version spec, Some o, Some m =>
      labels (md_meta o) !! OWNER = None ∧ om_resource_version (md_meta o) = Some version ∧
      md_spec m = with_defaults spec ∧ md_meta m = md_meta o ∧ md_status m = md_status o
  | ScaleDeployment _ _ n, Some o, Some m =>
      labels (md_meta o) !! OWNER = None ∧ sp_autoscaling (md_spec o) = None ∧ 0 ≤ n ∧
      md_spec m = with_defaults (rescale n (md_spec o)) ∧ md_meta m = md_meta o ∧ md_status m = md_status o
  | RemoveDeployment _ _, Some o, None => labels (md_meta o) !! OWNER = None
  | _, _, _ => False
  end.

(** A call reads, or is the change that the request asks for, where it asks
    for it; or the server refuses it. *)
Definition serves (r : inbound) A (c : call A) (s t : Kube) (b : result KubeError A) : Prop :=
  reading c ∨
  ∃ w, written c = Some w ∧ match w with Some m => validate m = Ok m | None => True end ∧
    (∀ p, place c p → ∃ ns name, p = (KModel, ns, name) ∧ asked_place r ns name) ∧
    ((∃ ns name, place c (KModel, ns, name) ∧ inbound_change r (stored s KModel ns name) w) ∨
     unchanged s t ∧ ∃ e, b = Err e).

Lemma with_defaults_again spec : with_defaults (with_defaults spec) = with_defaults spec.
Proof.
  unfold with_defaults. cbn. f_equal.
  - unfold default_port. cbn. f_equal. destruct (rs_port (sp_runtime spec) =? 0) eqn:E; [done|by rewrite E].
  - destruct (sp_rollout spec) as [r|]; [|done]. cbn. f_equal. unfold default_rollout. cbn. f_equal.
    destruct (is_empty (ro_strategy r)) eqn:E; [done|by rewrite E].
Qed.

(** A validated spec stays valid, with the same defaults. *)
Lemma validate_again m m' o st :
  validate m = Ok m' → name_any o = name_any (md_meta m) → om_namespace o = om_namespace (md_meta m) →
  validate (mkModel o (md_spec m') st) = Ok (mkModel o (md_spec m') st).
Proof.
  intros Hv Hn Hns. assert (md_spec m' = with_defaults (md_spec m)) as Hsp.
  { unfold validate in Hv.
    repeat (first [apply unit_bind_Ok in Hv as [_ Hv] | apply result_bind_Ok in Hv as (? & _ & Hv)]). by injection Hv as <-. }
  unfold validate in *. cbn [md_meta md_spec md_status]. rewrite Hsp, with_defaults_again, Hn, Hns.
  repeat match goal with
  | Hv : (?a ≫= _) = Ok _ |- _ =>
      let E := fresh "E" in destruct a as [[]|] eqn:E in Hv; [|discriminate Hv]; rewrite E; cbn in Hv |- *
  end. done.
Qed.

Lemma validate_kept m m' : validate m = Ok m' → validate m' = Ok m'.
Proof.
  intros Hv. pose proof (validate_meta _ _ Hv) as [Hm Hs].
  assert (m' = mkModel (md_meta m') (md_spec m') (md_status m')) as E by by destruct m'.
  rewrite E at 2. rewrite E at 1. by eapply validate_again; [exact Hv|rewrite Hm|rewrite Hm].
Qed.

Lemma validate_defaults m m' : validate m = Ok m' → md_spec m' = with_defaults (md_spec m).
Proof.
  unfold validate. intros Hv. repeat (first [apply unit_bind_Ok in Hv as [_ Hv] | apply result_bind_Ok in Hv as (? & _ & Hv)]).
  by injection Hv as <-.
Qed.

Variable r : inbound.
Abbreviation served_by := (heeds (serves r)).

(** The last write of a request, to the object that it read. *)
Lemma inbound_write {A} (c : call A) ns name o s w t b :
  running s → stored s KModel ns name = Some o →
  (∀ u at_, fence c (stored u) at_ → ∃ old, stored u KModel ns name = Some old ∧
     agrees (om_resource_version (md_meta o)) (om_resource_version (md_meta old))) →
  ¬ reading c → (∀ p, place c p ↔ p = (KModel, ns, name)) → written c = Some w → asked_place r ns name →
  match w with Some m => validate m = Ok m | None => True end → inbound_change r (Some o) w →
  ∀ s1, since s s1 → served c s1 t b → serves r A c s1 t b.
Proof.
  intros Hs Ho Hf Hread Hp Hw Hr Hv Hch s1 H1 Hc. right. exists w. split_and!; [done|done|by intros p ->%Hp; exists ns, name|].
  eapply (fenced_write _ KModel); [exact Hs|exact Ho|exact H1|exact Hc|apply Hf|done|].
  intros Hst. exists ns, name. rewrite Hst. split; [by apply Hp|done].
Qed.

Lemma at_home_same model : md_spec (at_home model) = md_spec model ∧
  labels (md_meta (at_home model)) = labels (md_meta model) ∧
  annotations (md_meta (at_home model)) = annotations (md_meta model) ∧
  om_name (md_meta (at_home model)) = om_name (md_meta model) ∧
  om_generate_name (md_meta (at_home model)) = om_generate_name (md_meta model).
Proof. unfold at_home. by repeat case_match. Qed.

Lemma create_heeds s model : running s → r = CreateDeployment model →
  served_by (create_deployment model) s (λ _ _, True).
Proof.
  intros Hs Hr. unfold create_deployment. apply heeds_says_then; [intros m Hv|done].
  apply heeds_says_then; [intros ns Hns%ok_or_Ok|done]. apply heeds_ask.
  intros s1 t b H1 Hc. split; [|done]. right.
  pose proof (validate_meta _ _ Hv) as [Hm _]. pose proof (validate_defaults _ _ Hv) as Hspec.
  destruct (at_home_same model) as (E1 & E2 & E3 & E4 & E5).
  exists (Some (top_level m)). split_and!; [done| | |].
  - eapply (validate_again m m); [by eapply validate_kept|done..].
  - intros [[k ns'] name] [[= -> ->] Hp]. exists ns, name. split; [done|]. rewrite Hr. cbn in Hns, Hp |- *.
    rewrite Hm in Hns, Hp. rewrite E4 in Hp. split; [done|]. unfold agrees. destruct (om_name (md_meta model)); [right; by subst|by left].
  - eapply fresh_write; [exact Hc|]. cbn [meta]. intros name Hp Hnone. exists ns, name. split; [done|]. rewrite Hnone, Hr. cbn.
    unfold labels, annotations in *. cbn. rewrite Hspec, Hm, E1. split_and!; try done; congruence.
Qed.

Lemma update_heeds s ns name version spec : running s → r = UpdateDeployment ns name version spec →
  served_by (update_deployment ns name version spec) s (λ _ _, True).
Proof.
  intros Hs Hr. unfold update_deployment, free_deployment. do 2 (apply heeds_says_then; [intros _ _|done]).
  apply heeds_bind, heeds_fetch_then; [by left|done| |done]. intros t o Ht Hst Ho.
  apply heeds_says_then; [intros _ Hfree%require_Ok%negb_true_iff%is_some_false|done].
  apply heeds_says_then; [intros _ [_ Hver%bool_decide_eq_true]%require_Ok%andb_true_iff|done].
  apply heeds_says_then; [intros m Hv|done]. apply heeds_ask. intros s1 u b H1 Hc. split; [|done].
  pose proof (validate_meta _ _ Hv) as [Hm Hstat].
  eapply (inbound_write _ ns name o t (Some m)); [exact Hst|exact Ho| |by intros []|done|done|by rewrite Hr|by eapply validate_kept| |exact H1|exact Hc].
  - intros v _ (old & Hold & _ & Hag). exists old. cbn in Hag. by rewrite Hm in Hag.
  - rewrite Hr. apply validate_defaults in Hv. done.
Qed.

Lemma scale_heeds s ns name n : running s → r = ScaleDeployment ns name n →
  served_by (scale_deployment ns name n) s (λ _ _, True).
Proof.
  intros Hs Hr. unfold scale_deployment. do 2 (apply heeds_says_then; [intros _ _|done]).
  apply heeds_says_then; [intros _ Hn%require_Ok%Z.leb_le|done].
  apply heeds_fetch_then; [by left|done| |done]. intros t o Ht Hst Ho.
  apply heeds_says_then; [intros _ Hauto%require_Ok%negb_true_iff%is_some_false|done].
  apply heeds_says_then; [intros _ Hfree%require_Ok%negb_true_iff%is_some_false|done].
  apply heeds_says_then; [intros m Hv|done]. apply heeds_ask. intros s1 u b H1 Hc. split; [|done].
  pose proof (validate_meta _ _ Hv) as [Hm Hstat].
  eapply (inbound_write _ ns name o t (Some m)); [exact Hst|exact Ho| |by intros []|done|done|by rewrite Hr|by eapply validate_kept| |exact H1|exact Hc].
  - intros v _ (old & Hold & _ & Hag). exists old. cbn in Hag. by rewrite Hm in Hag.
  - rewrite Hr. apply validate_defaults in Hv. by split_and!.
Qed.

Lemma remove_heeds s ns name : running s → r = RemoveDeployment ns name →
  served_by (remove_deployment ns name) s (λ _ _, True).
Proof.
  intros Hs Hr. unfold remove_deployment. do 2 (apply heeds_says_then; [intros _ _|done]).
  apply heeds_get_then; [by left|done| |done]. intros t Ht Hst.
  destruct (stored t KModel ns name) as [o|] eqn:Ho; [|done].
  apply heeds_says_then; [intros _ Hfree%require_Ok%negb_true_iff%is_some_false|done].
  apply heeds_hear_then. intros s1 u b H1 Hc. split; [|by repeat case_match].
  eapply (inbound_write _ ns name o t None); [exact Hst|exact Ho| |by intros []|done|done|by rewrite Hr|done| |exact H1|exact Hc].
  - intros v _ (old & Hold & _ & Hag). by exists old.
  - by rewrite Hr.
Qed.

Lemma heeds_ends {A} (m : Talk Error A) s :
  running s → served_by m s (λ _ _, True) → served_by (ends m) s (λ _ _, True).
Proof. intros Hs Hm. apply heeds_bind. eapply heeds_mono; [done|exact Hm|]. by intros []. Qed.
End inbound.

Definition credential_matches (sha256 : string → string) (token : string) (h : Headers) : bool :=
  negb (is_empty token)
  && str_eqb (sha256 ("Bearer " +:+ token)) (sha256 (default "" (head (header_values "authorization" h)))).

(** [m] writes at most [n] times, whatever is answered. *)
Fixpoint changes {E A} (n : nat) (m : Talk E A) : Prop :=
  match m with
  | Say _ => True
  | Call c k => (reading c ∧ ∀ b, changes n (k b)) ∨ ∃ n', n = S n' ∧ ∀ b, changes n' (k b)
  end.

Definition writing `{KubeApi} (e : heard) : bool :=
  match he_call e with Get _ _ _ | ListOf _ _ | Health _ _ => false | _ => true end.

Lemma talks_changes `{KubeApi} {E A} (m : Talk E A) n s l o :
  changes n m → talks m s l o → (length (List.filter writing l) ≤ n)%nat.
Proof.
  revert n s l. induction m as [r|B c k IH]; intros n s l Hm [[-> ->]|Ht]; simpl; try lia.
  - destruct Ht as [-> _]. simpl. lia.
  - destruct Ht as (s1 & s2 & b & l' & _ & _ & -> & Ht). destruct Hm as [[Hr Hm]|(n' & -> & Hm)].
    + assert (writing (Heard _ c s1 s2 b) = false) as Hw by by destruct c. simpl. rewrite Hw.
      by eapply IH.
    + specialize (IH b n' s2 l' (Hm b) Ht). simpl. destruct (writing _); simpl; lia.
Qed.

Lemma changes_more {E A} (m : Talk E A) n : changes 0 m → changes n m.
Proof. induction m as [r|B c k IH]; [done|]. intros [[Hr Hm]|(? & [=] & _)]. left. split; [done|]. intros b. by apply IH. Qed.
Lemma changes_bind {E A B} (m : Talk E A) (k : A → Talk E B) n :
  changes 0 m → (∀ a, changes n (k a)) → changes n (m ≫= k).
Proof.
  intros Hm Hk. induction m as [[a|e]|C c f IH]; [apply Hk|done|]. destruct Hm as [[Hr Hm]|(? & [=] & _)].
  left. split; [done|]. intros b. by apply IH.
Qed.
Lemma changes_then {E A B} (m : Talk E A) (k : A → Talk E B) n :
  changes n m → (∀ a, changes 0 (k a)) → changes n (m ≫= k).
Proof.
  revert n. induction m as [[a|e]|C c f IH]; intros n Hm Hk; [by apply changes_more, Hk|done|].
  destruct Hm as [[Hr Hm]|(n' & -> & Hm)]; [left; split; [done|]|right; exists n'; split; [done|]]; intros b; by apply IH.
Qed.
Lemma changes_attempt {E E' A} (m : Talk E A) n : changes n m → changes n (attempt (E' := E') m).
Proof.
  revert n. induction m as [r|C c f IH]; intros n Hm; [done|].
  destruct Hm as [[Hr Hm]|(n' & -> & Hm)]; [left; split; [done|]|right; exists n'; split; [done|]]; intros b; by apply IH.
Qed.
Lemma changes_read {E B} (f : KubeError → E) (c : call B) : reading c → changes 0 (ask f c).
Proof. intros Hc. by left. Qed.
Lemma changes_write {E B} (f : KubeError → E) (c : call B) : changes 1 (ask f c).
Proof. right. by exists 0%nat. Qed.
Lemma changes_fetch {E} (f : KubeError → E) k ns name : changes 0 (fetch f k ns name).
Proof. apply changes_bind; [by apply changes_read|]. by intros [o|]. Qed.

(** A request writes at most once. *)
Lemma inbound_changes r : changes 1 (handle_inbound r).
Proof.
  destruct r; cbn [handle_inbound]; try (apply changes_then; [|done]);
    unfold list_deployments, create_deployment, update_deployment, scale_deployment, remove_deployment, free_deployment.
  5: do 2 (apply changes_bind; [done|intros _]); apply changes_bind; [by apply changes_read|];
     intros [m|]; [|done]; apply changes_bind; [done|intros _]; right; exists 0%nat; split; [done|];
     intros [[]|[]]; simpl; try done; by case_match.
  all: repeat first [ apply changes_write | apply changes_bind; [first [done | by apply changes_read | apply changes_fetch |
         apply changes_bind; [apply changes_fetch|intros m; by destruct (owned_by_writer m)]]|intros ?] | done ].
Qed.

Lemma agent_response_idle sha256 pulls token h r :
  pulls = true ∨ credential_matches sha256 token h = false →
  ∃ status, agent_response sha256 pulls token h r = mret status ∧ status ∈ [401; 404; 503].
Proof.
  unfold agent_response, authenticate, credential_matches. destruct pulls; [intros _; exists 404; split; [done|set_solver]|].
  intros [?|Hc]; [done|]. destruct (is_empty token); [exists 503; split; [done|set_solver]|].
  cbn in Hc. rewrite Hc. exists 401. split; [done|set_solver].
Qed.

(** C16: The inbound routes are closed while the agent pulls, and to a client
    without the token: then no call is made.  They leave alone what a delivery
    owns, whatever others do to the cluster meanwhile.  A request writes at
    most once, and only the deployment that it names, as it is stored at that
    moment and without a mark of the outbound writer.  An update leaves the
    spec of the request, with its defaults, to the version that its client has
    seen; a rescaling leaves the stored spec with the number of replicas of the
    request, where nothing else scales it; both leave all metadata and the
    status as they were.  A new deployment has the spec, the names, the labels
    and the annotations of the request without the marks of the writer, and no
    identity, owner or status of its own.  What is written is valid; or the
    server refuses the write. *)
Theorem inbound_fenced `{KA : KubeApi} sha256 pulls token h r s l o :
  running s → talks (agent_response sha256 pulls token h r) s l o →
  Forall (heard_granted (serves r)) l ∧ (length (List.filter writing l) ≤ 1)%nat ∧
  (pulls = true ∨ credential_matches sha256 token h = false → l = []).
Proof.
  intros Hs Hrun. split; [|split].
  2:{ apply (talks_changes _ 1) in Hrun; [exact Hrun|]. unfold agent_response, authenticate.
      destruct pulls; [done|]. destruct (is_empty token); [done|]. destruct (str_eqb _ _); [|done].
      apply changes_then; [apply changes_attempt, inbound_changes|by intros []]. }
  2:{ intros Hidle. destruct (agent_response_idle sha256 pulls token h r Hidle) as (status & E & _).
      rewrite E in Hrun. by destruct Hrun as [[-> _]|[-> _]]. }
  eapply (heeds_talks _ _ _ (λ _ _, True)) in Hrun as [Hl _]; [exact Hl|done|]. clear Hrun.
  unfold agent_response, authenticate. destruct pulls; [done|]. destruct (is_empty token); [done|].
  destruct (str_eqb _ _); [|done]. apply heeds_attempt.
  eapply (heeds_mono _ _ _ (λ _ _, True)); [done| |done].
  destruct r as [ns|model|ns name version spec|ns name n|ns name]; cbn [handle_inbound]; try (apply heeds_ends; [done|]).
  - apply heeds_says_then; [intros _ _|done]. by apply heeds_reading_then; [left|..].
  - by apply create_heeds.
  - by apply update_heeds.
  - by apply scale_heeds.
  - by apply remove_heeds.
Qed.
