(* ===== verification/Deliver.v ===== *)
(** * Deliver: what the control plane delivers, the agent accepts

    The desired revisions of a cluster ([put_cluster_desired], the scaler) and
    the deliveries of them ([poll_cluster]) against the validation of the
    agent of the cluster ([validate_delivery]). *)

From S2P Require Import Prelude Domain Models Routing Fleet Store Catalog Ledger Routes Clusters Pools Snapshot Traffic.
From S2P Require Import Control Sessions Registry Billing Kube Agent.
Local Open Scope string_scope.
Local Open Scope Z_scope.

Section deliver.
Context `{CL : ControlLibraries}.

(** What the agent asks of an item besides its spec. *)
Definition item_form (item : DesiredDeployment) : Prop :=
  name (dd_name item) = true ∧
  match dd_spec item with
  | Some _ => dd_delete_uid item = None
  | None => ∃ uid, dd_delete_uid item = Some uid ∧ bad_uid uid = false
  end.
Definition items_form (l : list DesiredDeployment) : Prop :=
  NoDup (dd_name <$> l) ∧ Forall item_form l.

Record revision_form (rev : ClusterRevision) : Prop := {
  rf_digest : cv_sha256 rev = digest (payload_bytes document_bytes (cv_payload rev));
  rf_size : str_len (payload_bytes document_bytes (cv_payload rev)) ≤ max_payload;
  rf_items : items_form (cv_payload rev) }.

(** Of the registry. *)
Record Deliverable (r : Registry) : Prop := {
  dv_revisions k rev : cluster_revisions r !! k = Some rev → 0 < k.2 ∧ revision_form rev;
  dv_clusters id row : clusters r !! id = Some row → 0 ≤ cl_desired_version row }.

Definition keeps_deliverable : relation Db := λ d d', Deliverable (control d) → Deliverable (control d').
#[export] Instance keeps_deliverable_preorder : PreOrder keeps_deliverable.
Proof. split; [intros d Hd; exact Hd|]. intros d1 d2 d3 H1 H2 Hd. by apply H2, H1. Qed.

(** *** The names of the deployments of pools *)

Record well_named (d : Db) : Prop := {
  wn_keyed : keyed d;
  wn_name k p : pools (control d) !! k = Some p → name (mp_deployment p) = true }.

Lemma named_pools d d' : pools (control d') = pools (control d) → well_named d → well_named d'.
Proof. intros E [Hk Hn]. split; [intros k p; rewrite E; apply Hk|intros k p; rewrite E; apply Hn]. Qed.

Lemma named_steps d d' : well_named d → fleet_steps d d' → well_named d'.
Proof.
  intros Hn Hs. induction Hs as [d|d1 d2 d3 Hs _ IH]; [done|]. apply IH. clear IH.
  split; [by eapply keyed_step, Hs; apply Hn|].
  destruct Hs as [? ? E|? ? p p' Hp He E|? ? p _ _ _ Hname E|? ? ? ? ? _ _ _ _ E];
    apply fleet_inv in E as (E & _ & _); intros k q; rewrite E; try by apply Hn.
  - intros [[_ <-]|[_ Hq]]%lookup_insert_Some; [|by eapply wn_name].
    rewrite (ev_deployment _ _ _ He). by eapply wn_name.
  - intros [[_ <-]|[_ Hq]]%lookup_insert_Some; [done|by eapply wn_name].
Qed.

(** *** Operations that write no cluster and no revision *)

Definition sources (d : Db) := (clusters (control d), cluster_revisions (control d)).

Lemma sources_kept {A} (m : Tx A) : preserves sources m → respects keeps_deliverable m.
Proof.
  intros Hm d a d' Hrun [R C]. pose proof (Hm _ _ _ Hrun) as E. unfold same, sources in E.
  injection E as E1 E2. split; rewrite ?E1, ?E2; done.
Qed.

Lemma sources_registry f : (∀ r, clusters (f r) = clusters r ∧ cluster_revisions (f r) = cluster_revisions r) →
  preserves sources (write_registry f).
Proof.
  intros Hf d u d' ->%write_registry_Ok. unfold same, sources. destruct (Hf (control d)) as [E1 E2].
  cbn. by rewrite E1, E2.
Qed.
Lemma sources_audit a : preserves sources (insert_operation_audit a).
Proof. intros d u d' Hrun. unfold insert_operation_audit in Hrun. by tx_inv Hrun. Qed.
Lemma sources_default env row : preserves sources (make_default env row).
Proof.
  intros d u d' Hrun. unfold make_default in Hrun.
  destruct (pb_make_default _); [|by tx_inv Hrun]. tx_inv Hrun.
  destruct (catalog d !! se_model (mp_endpoint row)) as [[rev [] [p|] def t]|] eqn:Hr; by tx_inv Hrun.
Qed.

#[local] Hint Resolve sources_audit sources_default : frame.
#[local] Hint Extern 4 (respects (same sources) (write_registry _)) =>
  apply sources_registry; intros; split; reflexivity : frame.
#[local] Hint Unfold registry audit find_cluster authenticated credential
  put_endpoint_row next_delivery lift_text active_model ignore find_pool put_pool
  next_generation desired_spec binding_endpoint check_dedicated insert_pool transition_state
  idle_after confirm_idle check_idle register_ready check_change finish_scale
  put_session put_view find_session validate_identity
  open_session expose put_grant prove_bound prove_terminated prove_unbound prove_cleaned
  observation_task guard_pool guard_desired : frame.

Lemma sources_fence l after : preserves sources (latest_fence l after).
Proof. revert after. induction l; intros after; simpl; frame. Qed.
#[local] Hint Resolve sources_fence : frame.
Lemma sources_tasks env n cluster rows : preserves sources (observation_loop env n cluster rows).
Proof. revert n. induction rows; intros n; simpl; frame. Qed.
Lemma sources_guard env version l rows : preserves sources (guard_loop env version l rows).
Proof. revert l. induction rows; intros l; simpl; frame. Qed.
Lemma sources_expose session accepting l : preserves sources (expose_all session accepting l).
Proof. induction l; simpl; frame. Qed.
Lemma sources_acknowledge env report l : preserves sources (acknowledge_views env report l).
Proof. induction l as [|[p v] l IH]; simpl; frame. Qed.
Lemma sources_proofs env n open rows : preserves sources (proof_loop env n open rows).
Proof. revert n. induction rows as [|[id row] rows IH]; intros n; simpl; frame. Qed.
#[local] Hint Resolve sources_tasks sources_guard sources_expose sources_acknowledge sources_proofs : frame.

Lemma sources_policy env project model request pools actor operation :
  preserves sources (put_route_policy env project model request pools actor operation).
Proof.
  intros d policy d' Hrun. apply put_route_policy_Ok in Hrun as (_ & _ & _ & _ & _ & E & _).
  unfold same, sources. by rewrite E.
Qed.
#[local] Hint Resolve sources_policy : frame.

(** The operations that leave clusters and revisions alone. *)
Definition no_delivery (o : control_op) : bool :=
  match o with
  | RegisterMember _ _ _ | RotateMember _ _ _ _ | RevokeMember _ _ | PollMember _ _ | ReportMember _ _ _
  | PutDesired _ _ _ | ObservePool _ _ _ => false
  | _ => true
  end.
Lemma sources_control env o : no_delivery o = true → preserves sources (run_control env o).
Proof.
  destruct o; try done; intros _; cbn [run_control]; unfold release_action, next_spec, put_serving_endpoint,
    bind_pool, pool_transition, observation_tasks,
    traffic_snapshot, traffic_report, gateway_proof_tasks, gateway_proof; frame.
Qed.

(** *** The lists of items *)

Lemma update_named_names name f l : (∀ i, dd_name i = name → dd_name (f i) = name) →
  dd_name <$> update_named name f l = dd_name <$> l.
Proof.
  intros Hf. induction l as [|i l IH]; [done|]. cbn. destruct (str_eqb (dd_name i) name) eqn:E; cbn; [|by rewrite IH].
  apply str_eqb_eq in E. f_equal. by rewrite (Hf i E).
Qed.

Lemma update_named_form name f l : (∀ i, dd_name i = name → dd_name (f i) = name) →
  (∀ i, item_form i → item_form (f i)) → items_form l → items_form (update_named name f l).
Proof.
  intros Hn Hf [Hnd Hl]. split; [by rewrite update_named_names|]. clear Hnd.
  induction Hl as [|i l Hi Hl IH]; [constructor|]. cbn. destruct (str_eqb _ _); constructor; auto.
Qed.

Lemma rescaled_form row uid spec l :
  name (mp_deployment row) = true → items_form l → items_form (rescaled row uid spec l).
Proof.
  intros Hrow Hl. unfold rescaled. destruct (existsb _ _) eqn:E.
  { apply update_named_form; [done| |done]. by intros i _. }
  destruct Hl as [Hnd Hl]. split; [|apply Forall_app; split; [done|]; by constructor].
  rewrite fmap_app. apply NoDup_app. split_and!; [done| |by apply NoDup_singleton].
  intros x (i & -> & Hi)%list_elem_of_fmap Hx%list_elem_of_singleton.
  assert (existsb (named (mp_deployment row)) l = true) as Ht; [|congruence].
  apply existsb_exists. exists i. split; [by apply list_elem_of_In|]. unfold named. cbn in Hx. by apply str_eqb_eq.
Qed.

Lemma guard_pool_form env version row l k d d' :
  guard_pool env version l row d = Ok (k, d') → items_form l → items_form k.
Proof.
  intros Hrun Hl. unfold guard_pool in Hrun.
  repeat (first [progress tx_inv Hrun | case_match]; try done); by apply update_named_form.
Qed.

Lemma guard_loop_form env version rows l k d d' :
  guard_loop env version l rows d = Ok (k, d') → items_form l → items_form k.
Proof.
  revert l d. induction rows as [|row rows IH]; intros l d Hrun Hl; simpl in Hrun; tx_inv Hrun; [done|].
  eapply IH; [eassumption|]. by eapply guard_pool_form.
Qed.

Lemma desired_items_form names l : desired_items_ok names l = true →
  items_form l ∧ ∀ n, n ∈ names → n ∉ dd_name <$> l.
Proof.
  revert names. induction l as [|i l IH]; intros names Hl; [split; [by split; constructor|set_solver]|].
  cbn [desired_items_ok] in Hl. apply andb_true_iff in Hl as [Hi Hl].
  destruct (IH _ Hl) as [[Hnd Hf] Hn]. unfold desired_item_ok in Hi.
  apply negb_true_iff in Hi. rewrite !orb_false_iff in Hi. destruct Hi as ((((Hname%negb_false_iff & Hnew) & _) & _) & Hform).
  assert (dd_name i ∉ names) as Hi by (intros Hin; apply str_in_elem in Hin; congruence).
  split.
  - split; [constructor; [by apply Hn; left|done]|]. constructor; [|done]. split; [done|].
    destruct (dd_spec i); [apply orb_false_iff in Hform as [_ Hform%is_some_false]; done|].
    destruct (dd_delete_uid i) as [uid|]; [by exists uid|done].
  - intros n Hin. cbn. apply not_elem_of_cons. split; [set_solver|]. apply Hn. by right.
Qed.

(** *** The writes *)

Lemma put_cluster_keeps id row : 0 ≤ cl_desired_version row → respects keeps_deliverable (put_cluster id row).
Proof.
  intros Hr d u d' ->%write_registry_Ok [R C]. split; [exact R|]. cbn.
  intros k x [[<- <-]|[_ Hk]]%lookup_insert_Some; [done|by eapply C].
Qed.

Lemma insert_revision_keeps env row version l actor :
  0 < version → str_len (payload_bytes document_bytes l) ≤ max_payload → items_form l →
  respects keeps_deliverable (insert_revision digest document_bytes env row version l actor).
Proof.
  intros Hv Hsize Hl d u d' Hrun [R C]. unfold insert_revision, put_cluster in Hrun. tx_inv Hrun.
  split; cbn.
  - intros k rev [[<- <-]|[_ Hk]]%lookup_insert_Some; [|by eapply R]. split; [exact Hv|]. by split.
  - intros k x [[<- <-]|[_ Hk]]%lookup_insert_Some; [cbn; lia|by eapply C].
Qed.

(** *** Every operation of the registry *)

Lemma put_desired_keeps env id request actor :
  respects keeps_deliverable (put_cluster_desired digest document_bytes env id request actor).
Proof.
  intros d a d' Hrun Hd. unfold put_cluster_desired, find_cluster, guard_desired in Hrun. tx_inv Hrun.
  repeat match goal with H : audit _ _ _ _ _ _ ?x = Ok (_, ?y) |- _ =>
    eapply (sources_kept _ (sources_audit _) x); [exact H|]; clear H end.
  eapply insert_revision_keeps; [..|eassumption|].
  4:{ eapply (sources_kept _ (sources_guard _ _ _ _)); [eassumption|exact Hd]. }
  - match goal with H : checked_add _ _ = Some _ |- _ => apply checked_add_Some in H as [-> _] end. lia.
  - lia.
  - eapply guard_loop_form; [eassumption|]. eapply desired_items_form. by apply negb_false_iff.
Qed.

#[local] Hint Extern 5 (respects keeps_deliverable _) => apply sources_kept; solve [frame] : frame.

Lemma apply_scale_keeps env cluster row from target up :
  name (mp_deployment row) = true →
  respects keeps_deliverable (apply_scale digest document_bytes env cluster row from target up).
Proof.
  intros Hname d a d' Hrun Hd. unfold apply_scale, next_generation, put_pool, audit in Hrun.
  destruct (negb _); [by tx_inv Hrun|]. tx_inv Hrun.
  match goal with Hi : insert_revision _ _ _ _ _ _ _ _ = Ok (_, ?d2), Hp : cluster_revisions _ !! _ = Some ?prev,
    Hz : (max_payload <? _) = false, Hv : checked_add _ _ = Some _ |- _ =>
    destruct (dv_revisions _ Hd _ _ Hp) as [Hpos [_ _ Hform]]; cbn in Hpos;
    apply checked_add_Some in Hv as [-> _];
    assert (Deliverable (control d2)) as Hd2 by
      (eapply insert_revision_keeps; [|apply Z.ltb_ge, Hz|by apply rescaled_form|exact Hi|exact Hd]; lia) end.
  eapply (sources_kept _ (sources_audit _)); [eassumption|].
  match goal with Hu : (if up then _ else _) ?d5 = Ok (_, ?d6) |- _ =>
    assert (d6 = d5) as -> by (destruct up; by tx_inv Hu) end.
  destruct Hd2 as [R C]. split; [exact R|exact C].
Qed.

Lemma scaling_keeps env cluster row evidence applied ready :
  name (mp_deployment row) = true →
  respects keeps_deliverable (reconcile digest document_bytes env cluster row evidence applied ready).
Proof.
  intros Hname. unfold reconcile, finish_scale, continue_scale, start_scale.
  pose proof (λ from target up, apply_scale_keeps env cluster row from target up Hname). frame.
Qed.

Lemma observe_pool_keeps env id token report d a d' :
  well_named d → observe_pool digest document_bytes env id token report d = Ok (a, d') → keeps_deliverable d d'.
Proof.
  intros Hn Hrun Hd. unfold observe_pool in Hrun. tx_inv Hrun.
  match goal with Ha : authenticated _ _ _ _ _ = _ |- _ => apply authenticated_Ok in Ha as [-> _] end.
  match goal with Hf : find_pool _ _ = Ok (?p, _) |- _ =>
    apply find_pool_Ok in Hf as [Hp ->]; pose proof (wn_name _ Hn _ _ Hp) as Hname; rename p into row end.
  match goal with Hr : register_ready _ _ _ (observed_row ?t _ _) _ = Ok (?x, _) |- _ =>
    apply register_ready_Ok in Hr as Hr'; destruct Hr' as (_ & _ & _ & _ & D & _);
    destruct (observed_row_same t report row) as (_ & _ & _ & _ & _ & D') end.
  eapply (scaling_keeps env); [|exact Hrun|].
  { cbn. by rewrite D, D'. }
  repeat match goal with Hx : ?m ?x = Ok (_, ?y) |- Deliverable (control ?y) =>
    refine (sources_kept m _ _ _ _ Hx _); [repeat case_match; frame|] end. exact Hd.
Qed.

(** A row that is read, changed besides its version and written. *)
Lemma put_read_keeps id row row' d u d' :
  clusters (control d) !! id = Some row → cl_desired_version row' = cl_desired_version row →
  put_cluster id row' d = Ok (u, d') → keeps_deliverable d d'.
Proof. intros Hr He Hrun Hd. eapply put_cluster_keeps; [|exact Hrun|exact Hd]. rewrite He. by eapply dv_clusters. Qed.

#[local] Ltac past_audit := repeat match goal with
  | H : insert_operation_audit _ _ = Ok _ |- _ => eapply (sources_kept _ (sources_audit _)); [exact H|]; clear H
  end.
#[local] Ltac read_cluster := repeat match goal with
  | H : authenticated _ _ _ _ _ = Ok _ |- _ => apply authenticated_Ok in H as [-> H]
  | H : find_cluster _ _ _ = Ok _ |- _ => apply find_cluster_Ok in H as [H ->]
  end.

Lemma cluster_keeps env o d u d' :
  well_named d → no_delivery o = false → run_control env o d = Ok (u, d') → keeps_deliverable d d'.
Proof.
  intros Hn. destruct o; try done; intros _; cbn [run_control]; unfold ignore; intros Hrun.
  - unfold register_cluster, credential, audit in Hrun. tx_inv Hrun. intros Hd. past_audit.
    eapply put_cluster_keeps; [|eassumption|exact Hd]. cbn. lia.
  - unfold rotate_cluster_credential, credential, audit in Hrun. tx_inv Hrun. intros Hd. read_cluster. past_audit.
    eapply put_read_keeps; [eassumption| |eassumption|exact Hd]. done.
  - unfold revoke_cluster, audit in Hrun. tx_inv Hrun. intros Hd. read_cluster.
    case_match; tx_inv Hrun; [done|]. past_audit. eapply put_read_keeps; [eassumption| |eassumption|exact Hd]. done.
  - unfold poll_cluster, next_delivery in Hrun. tx_inv Hrun. intros Hd. read_cluster.
    match goal with Hx : (if _ then _ else _) _ = Ok _ |- _ => case_match; tx_inv Hx; [done|] end.
    match goal with Hn : (if ?b then _ else _) _ = Ok _ |- _ => destruct b; tx_inv Hn; (eapply put_read_keeps; [eassumption| |eassumption|exact Hd]; done) end.
  - unfold report_cluster, audit in Hrun. tx_inv Hrun. intros Hd. read_cluster.
    match goal with Hx : (if _ then _ else _) _ = Ok _ |- _ => case_match; tx_inv Hx; [done|] end.
    past_audit. eapply put_read_keeps; [eassumption| |eassumption|exact Hd]. by case_match.
  - tx_inv Hrun. by eapply put_desired_keeps.
  - tx_inv Hrun. by eapply observe_pool_keeps.
Qed.

(** *** Operations that write no pool *)

Definition rows (d : Db) := pools (control d).

Lemma rows_registry f : (∀ r, pools (f r) = pools r) → preserves rows (write_registry f).
Proof. intros Hf d u d' ->%write_registry_Ok. unfold same, rows. by rewrite <- (Hf (control d)). Qed.
Lemma rows_audit a : preserves rows (insert_operation_audit a).
Proof. intros d u d' Hrun. unfold insert_operation_audit in Hrun. by tx_inv Hrun. Qed.
#[local] Hint Resolve rows_audit : frame.
#[local] Hint Extern 4 (respects (same rows) (write_registry _)) => apply rows_registry; reflexivity : frame.

Lemma rows_fence l after : preserves rows (latest_fence l after).
Proof. revert after. induction l; intros after; simpl; frame. Qed.
Lemma rows_expose session accepting l : preserves rows (expose_all session accepting l).
Proof. induction l; simpl; frame. Qed.
Lemma rows_acknowledge env report l : preserves rows (acknowledge_views env report l).
Proof. induction l as [|[p v] l IH]; simpl; frame. Qed.
#[local] Hint Resolve rows_fence rows_expose rows_acknowledge : frame.

Lemma rows_snapshot env id identity snapshot token :
  preserves rows (traffic_snapshot digest is_uuid attribution_required env id identity snapshot token).
Proof. unfold traffic_snapshot. frame. Qed.
Lemma rows_report env report : preserves rows (traffic_report is_uuid env report).
Proof. unfold traffic_report. frame. Qed.
Lemma rows_proof env id token proof : preserves rows (gateway_proof digest env id token proof).
Proof. unfold gateway_proof. frame. Qed.

Lemma named_control env o d u d' : well_named d → run_control env o d = Ok (u, d') → well_named d'.
Proof.
  intros Hn Hrun. pose proof (wn_keyed _ Hn) as Hk. pose proof (quiet_operations env o) as Hquiet.
  destruct o; try (by eapply named_steps, (preserves_fleet _ (Hquiet I))); clear Hquiet;
    cbn [run_control] in Hrun; try apply ignore_Ok in Hrun as [a Hrun].
  - by eapply named_steps, put_desired_steps.
  - by eapply named_steps, bind_pool_steps.
  - by eapply named_steps, pool_transition_steps.
  - by eapply named_steps, observation_tasks_steps.
  - apply observe_pool_Ok in Hrun as (d1 & d2 & H1 & H2 & H3); [|done].
    eapply named_steps, H3. eapply named_pools; [|by eapply named_steps].
    destruct H2 as [E|(_ & _ & _ & _ & _ & E)]; by apply fleet_inv in E as [-> _].
  - eapply named_pools, Hn. by eapply rows_snapshot.
  - eapply named_pools, Hn. by eapply rows_report.
  - by eapply named_steps, proof_tasks_steps.
  - eapply named_pools, Hn. by eapply rows_proof.
Qed.

Lemma control_keeps env o d u d' :
  well_named d → run_control env o d = Ok (u, d') → keeps_deliverable d d'.
Proof.
  intros Hn Hrun. destruct (no_delivery o) eqn:E; [|by eapply cluster_keeps].
  by eapply sources_kept; [apply sources_control|].
Qed.
End deliver.

(** *** The whole service *)

Lemma service_deliverable `{ServiceLibraries} l :
  well_named (service l) ∧ Deliverable (control (service l)).
Proof.
  assert (∀ k d, well_named d ∧ Deliverable (control d) →
    well_named (serve_all d k) ∧ Deliverable (control (serve_all d k))) as Hall.
  { induction k as [|[env o] k IH]; intros d [Hn Hd]; [done|]. simpl. apply IH.
    destruct (serve_cases d (env, o)) as [->|[u Hrun]]; [done|]. destruct (is_registry o) eqn:Ho.
    - destruct o; try done. simpl in Hrun. split; [by eapply named_control|by eapply control_keeps].
    - apply run_keeps_registry in Hrun; [|done]. unfold same in Hrun. cbn [fst] in Hrun. split.
      + eapply named_pools, Hn. by rewrite Hrun.
      + by rewrite Hrun. }
  apply Hall. split; [split|split]; by intros.
Qed.

(** ** The validation of the agent *)

Lemma split_none c s : contains_byte c s = false → split c s = [s].
Proof.
  induction s as [|b s IH]; [done|]. cbn. intros [Hb Hs]%orb_false_iff. rewrite (IH Hs).
  rewrite Ascii.eqb_sym in Hb. by rewrite Hb.
Qed.

Lemma name_valid s : name s = true → validate_name s true = Ok tt.
Proof.
  intros Hn. assert (contains_byte "." s = false) as Hdot.
  { unfold name in Hn. apply andb_true_iff in Hn as [_ Hb]. clear -Hb. induction s as [|b s IH]; [done|].
    cbn [bytes_all contains_byte] in Hb |- *. apply andb_true_iff in Hb as [Hb Hs]. rewrite (IH Hs), orb_false_r.
    destruct (Ascii.eqb_spec "."%char b) as [<-|]; [by cbn in Hb|done]. }
  unfold validate_name, require. rewrite (split_none _ _ Hdot), Hdot. cbn [forallb andb].
  unfold name in Hn. rewrite !andb_true_iff, negb_true_iff, Z.leb_le in Hn. destruct Hn as ((((H1 & H2) & H3) & H4) & H5).
  assert (name_part s = true) as ->.
  { unfold name_part. rewrite H1, H5. destruct s as [|b s]; [done|]. cbn in H3 |- *. rewrite H3.
    unfold last_byte. unfold byte_at in H4. rewrite H4. apply Z.leb_le in H2. cbn in H2. by rewrite H2. }
  rewrite H1. assert ((63 <? str_len s) = false) as -> by (apply Z.ltb_ge; lia). done.
Qed.

Section accepted.
Context `{CL : ControlLibraries} `{KL : KubeLibraries}.
Variable cfg : PullConfig.

(** The spec of an item, read and validated, can be served. *)
Definition spec_valid (item : DesiredDeployment) : bool :=
  match dd_spec item with
  | Some spec =>
      match spec_of_json spec with
      | Some sp => is_ok (validate (new_model cfg (dd_name item) sp))
      | None => false
      end
  | None => true
  end.

Lemma validate_item_form item : item_form item → is_ok (validate_item cfg item) = spec_valid item.
Proof.
  intros [_ Hf]. unfold validate_item, spec_valid. destruct (dd_spec item) as [spec|].
  - rewrite Hf. cbn. destruct (spec_of_json spec) as [sp|]; [|done]. cbn. by destruct (validate _).
  - destruct Hf as (uid & -> & Hb). apply orb_false_iff in Hb as [H1 H2]. rewrite H1.
    assert ((str_len uid <=? 128) = true) as -> by lia. done.
Qed.

Lemma validate_items_form names l : NoDup (dd_name <$> l) → (∀ n, n ∈ names → n ∉ dd_name <$> l) →
  Forall item_form l → is_ok (validate_items cfg names l) = forallb spec_valid l.
Proof.
  revert names. induction l as [|i l IH]; intros names Hnd Hn Hl; [done|].
  apply NoDup_cons in Hnd as [Hi Hnd]. apply Forall_cons in Hl as [Hf Hl]. cbn [validate_items forallb].
  rewrite (name_valid _ (proj1 Hf)). cbn.
  assert (str_in (dd_name i) names = false) as ->.
  { apply not_true_iff_false. rewrite str_in_elem. intros Hin. apply (Hn _ Hin). by left. }
  cbn. rewrite <- (validate_item_form _ Hf). destruct (validate_item cfg i) as [m|e]; [|done]. cbn.
  rewrite <- (IH (dd_name i :: names)); [by destruct (validate_items _ _ l)|done| |done].
  intros n [->|Hin]%elem_of_cons; [done|]. intros Hx. apply (Hn _ Hin). by right.
Qed.
End accepted.

(** What a poll hands out. *)
Lemma poll_delivery `{ControlLibraries} env id token c wait d d' :
  poll_cluster digest env id token d = Ok ((Some c, wait), d') →
  ∃ row rev, clusters (control d) !! id = Some row ∧
    cluster_revisions (control d) !! (id, cl_desired_version row) = Some rev ∧
    c = mkDelivery id (cl_namespace row) (cl_desired_version row) (cv_sha256 rev) (env_uuid env 0) 60 (cv_payload rev).
Proof.
  intros Hrun. unfold poll_cluster, next_delivery in Hrun. tx_inv Hrun.
  match goal with Hx : authenticated _ _ _ _ _ = Ok (?x, _) |- _ =>
    apply authenticated_Ok in Hx as [-> Hrow]; rename x into row end.
  destruct (negb _); tx_inv Hrun; [done|].
  match goal with Hx : (if ?b then _ else _) _ = Ok _ |- _ => destruct b; tx_inv Hx; [|done] end.
  simplify_eq. eexists row, _. split_and!; [done|eassumption|done].
Qed.

(** C17: What the control plane delivers to a cluster is, under the identity of
    that cluster, what its agent accepts: after any sequence of requests, a
    delivery that a poll hands out is refused by the agent only if a spec in
    it is not a valid deployment, or if it names more than a hundred
    deployments.  Its digest, size, version, lease, names and deletions are
    always as the agent demands. *)
Theorem deliveries_accepted `{ServiceLibraries} `{KubeLibraries} l env id token c wait d' cfg :
  poll_cluster digest env id token (service l) = Ok ((Some c, wait), d') →
  pc_cluster_id cfg = id → pc_namespace cfg = dl_namespace c →
  is_ok (validate_delivery cfg c) =
    (Z.of_nat (length (dl_deployments c)) <=? 100) && forallb (spec_valid cfg) (dl_deployments c).
Proof.
  intros Hrun Hid Hns. destruct (service_deliverable l) as [_ Hd].
  apply poll_delivery in Hrun as (row & rev & Hrow & Hrev & ->). cbn in Hns |- *.
  destruct (dv_revisions _ Hd _ _ Hrev) as [Hv [Hsha Hsize [Hnd Hl]]]. cbn in Hv.
  assert (delivery_ok cfg (mkDelivery id (cl_namespace row) (cl_desired_version row) (cv_sha256 rev) (env_uuid env 0) 60
    (cv_payload rev)) = (Z.of_nat (length (cv_payload rev)) <=? 100)) as Hok.
  { unfold delivery_ok. cbn. rewrite Hid, Hns, Hsha, !str_eqb_refl.
    assert ((cl_desired_version row <=? 0) = false) as -> by (apply Z.leb_gt; lia).
    assert ((256 * 1024 <? str_len (json_bytes (desired_json (cv_payload rev)))) = false) as ->
      by (apply Z.ltb_ge; exact Hsize).
    cbn. rewrite !orb_false_r. by rewrite Z.ltb_antisym, negb_involutive. }
  unfold validate_delivery. rewrite Hok. cbn [dl_deployments].
  destruct (_ <=? 100); [|done]. cbn. apply validate_items_form; [done| |done]. intros n Hn. by apply elem_of_nil in Hn.
Qed.
