(* ===== verification/Operator.v ===== *)
(** * Operator: the reconciliation of a model deployment

    [crates/kubernetes/src/controller.rs], [resources.rs], [autoscaling.rs]
    and the writer of [recommendation.rs]: the objects that a deployment of a
    model owns in its cluster, the checks before any of them is written, the
    change of the writer of the scale, and the status. *)

From S2P Require Import Prelude Domain Models Http Store Payments Kube Agent.
Local Open Scope string_scope.
Local Open Scope Z_scope.

Definition API_VERSION : string := "platform.xscope.io/v1alpha1".

(** ** Ownership *)

Definition owns (model : ModelDeployment) (o : OwnerReference) : bool :=
  bool_decide (or_controller o = Some true) && bool_decide (Some (or_uid o) = om_uid (md_meta model))
  && str_eqb (or_kind o) "ModelDeployment" && str_eqb (or_api_version o) API_VERSION.

Definition owned (model : ModelDeployment) (existing : ObjectMeta) : bool :=
  match om_owner_references existing with Some owners => existsb (owns model) owners | None => false end.

Definition ensure_owner (existing : ObjectMeta) (model : ModelDeployment) : result Error unit :=
  require (owned model existing) OwnershipConflict.

(** The reference to a model as a controller, which takes its name and its identifier. *)
Definition controller_owner_ref (model : ModelDeployment) : option OwnerReference :=
  name ← om_name (md_meta model);
  uid ← om_uid (md_meta model);
  Some (mkOwner API_VERSION "ModelDeployment" name uid (Some true)).

(** ** The runtime and its service *)

Definition labels_json (l : Labels) : Json :=
  JObj ((λ e, (e.1, JStr e.2)) <$> order_by_text fst (map_to_list l)).
Definition option_field {A} (key : string) (f : A → Json) (o : option A) : list (string * Json) :=
  match o with Some a => [(key, f a)] | None => [] end.
Definition resources_json (r : ResourceRequirements) : Json :=
  JObj (option_field "claims" id (rq_claims r) ++ option_field "limits" labels_json (rq_limits r)
        ++ option_field "requests" labels_json (rq_requests r))%list.

Definition env_json (name value : string) : Json := JObj [("name", JStr name); ("value", JStr value)].
Definition probe_json (h : RuntimeHealth) (failures : Z) : Json :=
  JObj [("httpGet", JObj [("path", JStr (rh_path h)); ("port", JStr "http")]);
        ("periodSeconds", JNum 5); ("timeoutSeconds", JNum 2); ("failureThreshold", JNum failures)].

(** The specification of the pods. *)
Definition pod_json (spec : ModelDeploymentSpec) : Json :=
  let runtime := sp_runtime spec in
  let port := rs_port runtime in
  JObj [("automountServiceAccountToken", JBool false);
        ("nodeSelector", json_opt labels_json (sp_node_selector spec));
        ("tolerations", json_opt id (sp_tolerations spec));
        ("containers", JArr [JObj
          [("name", JStr "runtime"); ("image", JStr (rs_image runtime));
           ("args", JArr (JStr <$> rs_arguments runtime));
           ("ports", JArr [JObj [("name", JStr "http"); ("containerPort", JNum port)]]);
           ("resources", resources_json (sp_resources spec));
           ("env", JArr [env_json "XSCOPE_RUNTIME_PORT" (print_i64 port);
                         env_json "XSCOPE_MODEL_ID" (ms_id (sp_model spec));
                         env_json "XSCOPE_MODEL_REVISION" (ms_revision (sp_model spec));
                         env_json "XSCOPE_MODEL_URI" (ms_uri (sp_model spec));
                         env_json "XSCOPE_MODEL_CHECKSUM" (ms_checksum (sp_model spec))]);
           ("startupProbe", probe_json (rs_health runtime) (Z.quot (rh_startup_timeout_seconds (rs_health runtime)) 5));
           ("readinessProbe", probe_json (rs_health runtime) 2)]])].

(** The labels that a new deployment selects its pods with. *)
Definition first_labels (name cluster region : string) : Labels :=
  let l := {[ "app.kubernetes.io/name" := name;
              "app.kubernetes.io/component" := "model-runtime";
              "app.kubernetes.io/managed-by" := "xscope-operator" ]} in
  let l := if is_empty cluster then l else <["platform.xscope.io/cluster-id" := cluster]> l in
  if is_empty region then l else <["platform.xscope.io/region" := region]> l.

Definition selector_of (d : Deployment) : option Labels := dm_spec d ≫= dp_match_labels.

(** The metadata of the owned objects. *)
Definition child_meta (name namespace : string) (owner : OwnerReference) : ObjectMeta :=
  mkMeta (Some name) None (Some namespace) None None None None None None None (Some [owner]) None None.

(** [controller::desired]: a selector that exists is kept. *)
Definition desired (model : ModelDeployment) (cluster region : string) (existing : option Deployment)
    : result Error (Deployment * Service) :=
  model ← validate model;
  let name := name_any (md_meta model) in
  namespace ← ok_or (om_namespace (md_meta model)) (EInvalid "namespace missing");
  owner ← ok_or (controller_owner_ref model) (EInvalid "resource UID missing");
  match existing with Some d => ensure_owner (dm_meta d) model | None => Ok tt end ;;
  let selector := match existing ≫= selector_of with
                  | Some selector => selector
                  | None => first_labels name cluster region
                  end in
  let labels := <["app.kubernetes.io/part-of" := "xscope"]>
    (<["platform.xscope.io/deployment-uid" := or_uid owner]> selector) in
  let metadata := child_meta name namespace owner in
  Ok (mkDeployment metadata
        (Some (mkDeploymentSpec (Some (sp_replicas (md_spec model))) (Some selector) (Some (Some labels))
                 (pod_json (md_spec model)))) None,
      mkService metadata (Some [mkPort (Some "http") (rs_port (sp_runtime (md_spec model))) (Some "http")])
        (Some labels)).

(** ** Optional objects *)

Definition desired_optional (model : ModelDeployment) (d : Deployment) : result Error (option Pdb * option InferencePool) :=
  spec ← ok_or (dm_spec d) (EInvalid "desired Deployment spec is missing");
  template ← ok_or (dp_template spec) (EInvalid "desired Pod template metadata is missing");
  labels ← ok_or template (EInvalid "desired Pod template labels are missing");
  Ok ((λ n, mkPdb (dm_meta d) n labels) <$> sp_disruption_budget (md_spec model),
      (λ s, mkPool (dm_meta d) (mkPoolSpec labels [rs_port (sp_runtime (md_spec model))] (sv_picker_service s)
              (sv_picker_port s) "FailClose")) <$> sp_serving (md_spec model)).

Definition INFERENCE_POOL : string := "platform.xscope.io/inference-pool".

Definition validate_picker (service : option Service) (model : ModelDeployment) : result Error unit :=
  match sp_serving (md_spec model) with
  | None => Ok tt
  | Some serving =>
      service ← ok_or service
        (EInvalid "EPP Service is missing; install a pool-specific llm-d serving entry first");
      require
        (negb (bool_decide (annotations (sc_meta service) !! INFERENCE_POOL ≠ Some (name_any (md_meta model)))
               || negb (match sc_ports service with
                        | Some ports => existsb (λ p, pt_port p =? sv_picker_port serving) ports
                        | None => false
                        end)))
        (EInvalid "EPP Service must declare this pool in platform.xscope.io/inference-pool and expose the configured port")
  end.

(** [resources::preflight]. *)
Definition preflight_child (previous : option ObjectMeta) (wanted : bool) (model : ModelDeployment) : result Error unit :=
  match previous with
  | Some previous => if wanted then ensure_owner previous model else Ok tt
  | None => Ok tt
  end.

(** Never adopts a foreign object, and never deletes one that was replaced. *)
Definition sync (k : Kind) (ns : string) (model : ModelDeployment) (previous wanted : option (object k))
    : Talk Error (option (object k)) :=
  let name := name_any (md_meta model) in
  match wanted with
  | Some wanted =>
      match previous with
      | Some previous =>
          says (ensure_owner (meta k previous) model) ;;
          o ← ask EKube (Apply k ns name (with_meta k
            (set_identity (om_uid (meta k previous)) (om_resource_version (meta k previous)) (meta k wanted)) wanted));
          mret (Some o)
      | None => o ← ask EKube (Create k ns wanted); mret (Some o)
      end
  | None =>
      match previous with
      | Some previous =>
          if is_ok (ensure_owner (meta k previous) model) then
            ask EKube (Delete k ns name (om_uid (meta k previous)) (om_resource_version (meta k previous))) ;;
            mret None
          else mret None
      | None => mret None
      end
  end.

(** ** The one automatic scaler *)

Definition is_target (kind : string) : bool := str_in kind ["ModelDeployment"; "ModelScale"].

Definition targets_model (target : ScaleTargetRef) (model : ModelDeployment) : bool :=
  str_eqb (tr_api_version target) API_VERSION && is_target (tr_kind target)
  && str_eqb (tr_name target) (name_any (md_meta model)).

(** The version of the target of an autoscaler may be missing, which reads as empty. *)
Definition hpa_targets_model (hpa : Hpa) (model : ModelDeployment) : bool :=
  match hp_target hpa with Some target => targets_model target model | None => false end.

Definition keda_owns_hpa (hpa : Hpa) (scaled : ScaledObject) : bool :=
  match om_uid (sd_meta scaled) with
  | Some uid =>
      existsb (λ o, bool_decide (or_controller o = Some true) && str_eqb (or_api_version o) "keda.sh/v1alpha1"
                    && str_eqb (or_kind o) "ScaledObject" && str_eqb (or_uid o) uid
                    && str_eqb (or_name o) (name_any (sd_meta scaled)))
        (owner_references (hp_meta hpa))
  | None => false
  end.

Definition called {A} (m : A → ObjectMeta) (model : ModelDeployment) (o : A) : bool :=
  str_eqb (name_any (m o)) (name_any (md_meta model)).
Definition keda_hpa_name (model : ModelDeployment) : string := "keda-hpa-" +:+ name_any (md_meta model).

Fixpoint check_scalers (model : ModelDeployment) (l : list ScaledObject) : result Error unit :=
  match l with
  | [] => Ok tt
  | scaled :: l =>
      (if called sd_meta model scaled || targets_model (sd_target scaled) model then
         ensure_owner (sd_meta scaled) model ;;
         require (called sd_meta model scaled) (EConflict "another ScaledObject already targets this model")
       else Ok tt) ;;
      check_scalers model l
  end.

(** Only what KEDA made for our scaler, and the legacy identity that may be removed. *)
Definition hpa_allowed (model : ModelDeployment) (scaler : option ScaledObject) (hpa : Hpa) : bool :=
  negb (hpa_targets_model hpa model || str_eqb (name_any (hp_meta hpa)) (keda_hpa_name model) || called hp_meta model hpa)
  || match scaler with Some s => keda_owns_hpa hpa s | None => false end
  || (called hp_meta model hpa && is_ok (ensure_owner (hp_meta hpa) model)).

Definition preflight (model : ModelDeployment) (scalers : list ScaledObject) (hpas : list Hpa) : result Error unit :=
  check_scalers model scalers ;;
  require (forallb (hpa_allowed model (List.find (called sd_meta model) scalers)) hpas)
    (EConflict "foreign HPA conflicts with the model's KEDA scaler").

Inductive Transition := RemoveLegacy | RemoveScaledObject | Wait | ApplyScaler.

Definition legacy (model : ModelDeployment) (hpa : Hpa) : bool :=
  called hp_meta model hpa && is_ok (ensure_owner (hp_meta hpa) model).

Definition transition (model : ModelDeployment) (scaled : option ScaledObject) (hpas : list Hpa) : Transition :=
  if existsb (legacy model) hpas then RemoveLegacy
  else if match scaled with Some s => is_some (om_deletion_timestamp (sd_meta s)) | None => false end then Wait
  else if is_some (sp_autoscaling (md_spec model)) then ApplyScaler
  else if is_some scaled then RemoveScaledObject
  else if existsb (λ h, hpa_targets_model h model) hpas then Wait
  else ApplyScaler.

Definition quote : ascii := "034"%char.
Definition quoted (s : string) : string := String quote (s +:+ String quote EmptyString).

(** The load of the serving pool, if every instance of it is fresh. *)
Definition epp_query (metric namespace service : string) : string :=
  let selector := "namespace=" +:+ quoted namespace +:+ ",service=" +:+ quoted service in
  let series m := m +:+ "{job=" +:+ quoted "epp" +:+ "," +:+ selector +:+ "}" in
  "sum(" +:+ series metric +:+ ") and on() (min(" +:+ series "up" +:+ ") == 1) and on() (count(count by (instance) ("
  +:+ series metric +:+ ")) == count(" +:+ series "up" +:+ ")) and on() (time() - min(timestamp(" +:+ series metric
  +:+ ")) < 90) and on() (time() - min(timestamp(" +:+ series "up" +:+ ")) < 90)".

Fixpoint epp_triggers (model : ModelDeployment) (prometheus : string) (l : list (Z * string)) : result Error (list Trigger) :=
  match l with
  | [] => Ok []
  | (target, metric) :: l =>
      if target =? 0 then epp_triggers model prometheus l
      else
        serving ← ok_or (sp_serving (md_spec model)) (EInvalid "EPP autoscaling requires serving.endpointPickerService");
        validate_name (sv_picker_service serving) true ;;
        namespace ← ok_or (om_namespace (md_meta model)) (EInvalid "namespace missing");
        validate_name namespace true ;;
        require (String.prefix "http://" prometheus || String.prefix "https://" prometheus)
          (EInvalid "operator Prometheus address must be an HTTP(S) URL") ;;
        let trigger := mkTrigger "prometheus" "AverageValue"
          {[ "serverAddress" := prometheus; "query" := epp_query metric namespace (sv_picker_service serving);
             "threshold" := print_i64 target; "ignoreNullValues" := "false" ]} in
        rest ← epp_triggers model prometheus l;
        Ok (trigger :: rest)
  end.

Definition enabled (model : ModelDeployment) : bool :=
  match sp_autoscaling (md_spec model) with Some s => as_managed s | None => false end.
Definition target_kind (model : ModelDeployment) : string :=
  if enabled model then "ModelScale" else "ModelDeployment".

Definition pods_policy : Json := JArr [JObj [("type", JStr "Pods"); ("value", JNum 1); ("periodSeconds", JNum 60)]].
Definition advanced_json (model : ModelDeployment) (scaling : AutoscalingSpec) : Json :=
  JObj [("restoreToOriginalReplicaCount", JBool false);
        ("horizontalPodAutoscalerConfig", JObj
          [("name", JStr (keda_hpa_name model));
           ("behavior", JObj
             [("scaleUp", JObj [("stabilizationWindowSeconds", JNum 30); ("policies", pods_policy)]);
              ("scaleDown", if as_managed scaling
                 then JObj [("stabilizationWindowSeconds", JNum 60); ("policies", pods_policy)]
                 else JObj [("selectPolicy", JStr "Disabled")])])])].

(** [autoscaling::desired]. *)
Definition desired_scaler (model : ModelDeployment) (metadata : ObjectMeta) (prometheus : string)
    : result Error (option ScaledObject) :=
  match sp_autoscaling (md_spec model) with
  | None => Ok None
  | Some scaling =>
      triggers ← epp_triggers model prometheus
        [(as_target_pending_requests scaling, "llm_d_epp_flow_control_queue_size");
         (as_target_running_requests scaling, "llm_d_epp_request_running")];
      let triggers :=
        if negb (is_some (head triggers)) || is_some (as_target_cpu scaling)
        then (triggers ++ [mkTrigger "cpu" "Utilization" {[ "value" := print_i64 (default 70 (as_target_cpu scaling)) ]}])%list
        else triggers in
      Ok (Some (mkScaled metadata (mkTarget API_VERSION (target_kind model) (name_any (md_meta model)))
        (as_min_replicas scaling) (as_max_replicas scaling) 30 (advanced_json model scaling) triggers None))
  end.

(** ** The recommendation *)

Definition is_code (n : Z) (e : KubeError) : bool := match e with Api code _ => code =? n | Unavailable => false end.

(** [recommendation::sync]. *)
Definition sync_recommendation (model : ModelDeployment) (replicas : Z) (selector : string) : Talk Error unit :=
  namespace ← says (ok_or (om_namespace (md_meta model)) (EInvalid "namespace missing"));
  let name := name_any (md_meta model) in
  old ← hear (Get KScale namespace name);
  match old with
  | Err e => if is_code 404 e && negb (enabled model) then mret tt else says (Err (EKube e))
  | Ok old =>
      if negb (enabled model) then _ ← sync KScale namespace model old None; mret tt
      else
        row ← match old with
              | Some row =>
                  says (ensure_owner (mc_meta row) model) ;;
                  says (require (bool_decide (Some (mc_model_uid row) = om_uid (md_meta model))) OwnershipConflict) ;;
                  mret row
              | None =>
                  uid ← says (ok_or (om_uid (md_meta model)) OwnershipConflict);
                  owner ← says (ok_or (controller_owner_ref model) OwnershipConflict);
                  ask EKube (Create KScale namespace (mkModelScale (child_meta name namespace owner) uid
                    (sp_replicas (md_spec model)) None))
              end;
        let status := mkScaleStatus replicas selector in
        if bool_decide (mc_status row = Some status) then mret tt
        else _ ← ask EKube (PatchScaleStatus namespace name (om_resource_version (mc_meta row)) status); mret tt
  end.

(** ** The status *)

Definition set_conditions (l : list Condition) (s : ModelDeploymentStatus) : ModelDeploymentStatus :=
  mkStatus (st_observed_generation s) (st_ready_replicas s) (st_replicas s) (st_selector s) (st_inference_pool s)
    (st_endpoint_picker_service s) (st_endpoint s) (st_cluster_id s) (st_region s) l.

(** The time of a condition is that of the last change of its value. *)
Definition condition (now : Z) (model : ModelDeployment) (kind value reason message : string)
    (status : ModelDeploymentStatus) : ModelDeploymentStatus :=
  let previous := List.find (λ c, str_eqb (cn_type c) kind) (st_conditions status) in
  let timestamp := match previous with
                   | Some c => if str_eqb (cn_status c) value then cn_last_transition_time c else now
                   | None => now
                   end in
  let next := mkCondition kind value reason message (om_generation (md_meta model)) timestamp in
  set_conditions
    (order_by_text cn_type (filter (λ c, str_eqb (cn_type c) kind = false) (st_conditions status) ++ [next])%list) status.

Definition no_status : ModelDeploymentStatus := mkStatus 0 0 0 "" "" "" "" "" "" [].

Definition write_status (model : ModelDeployment) (status : ModelDeploymentStatus) : Talk Error unit :=
  if bool_decide (md_status model = Some status) then mret tt
  else
    namespace ← says (ok_or (om_namespace (md_meta model)) (EInvalid "namespace missing"));
    _ ← ask EKube (PatchModelStatus namespace (name_any (md_meta model)) (om_resource_version (md_meta model)) status);
    mret tt.

(** ** The reconciliation *)

Record Context := mkContext { cx_cluster_id : string; cx_region : string; cx_prometheus_address : string }.
Inductive Action := AwaitChange | Requeue (seconds : Z).

Definition scaling_transition (now : Z) (model : ModelDeployment) (message : string) : Talk Error Action :=
  write_status model (condition now model "AutoscalingActive" "Unknown" "ScalerTransition" message
    (default no_status (md_status model))) ;;
  mret (Requeue 2).

Definition active_condition (hpa : option Hpa) : option HpaCondition :=
  hpa ← hpa; status ← hp_status hpa; l ← hs_conditions status;
  List.find (λ c, str_eqb (hc_type c) "ScalingActive") l.
Definition keda_not_ready (scaled : option ScaledObject) : option KedaCondition :=
  scaled ← scaled; l ← sd_conditions scaled;
  List.find (λ c, str_eqb (kc_type c) "Ready" && negb (str_eqb (kc_status c) "True")) l.

(** The value, the reason and the message of the condition on scaling. *)
Definition scaling_condition (model : ModelDeployment) (scaled : option ScaledObject) (hpa : option Hpa)
    : string * string * string :=
  if negb (is_some (sp_autoscaling (md_spec model))) then ("False", "Disabled", "Replicas are manually managed")
  else match keda_not_ready scaled with
  | Some c => (kc_status c, "KedaNotReady", kc_message c)
  | None =>
      match active_condition hpa with
      | Some c => (hc_status c, default "PendingMetrics" (hc_reason c), default "Waiting for HPA metrics" (hc_message c))
      | None => ("Unknown", "PendingMetrics", "KEDA ScaledObject configured; waiting for KEDA-managed HPA and metrics")
      end
  end.

Definition runtime_ready (model : ModelDeployment) (d : Deployment) : bool :=
  (0 <? sp_replicas (md_spec model))
  && (default 0 (dm_status d ≫= ds_ready_replicas) =? sp_replicas (md_spec model))
  && (default 0 (om_generation (dm_meta d)) <=? default 0 (dm_status d ≫= ds_observed_generation)).

(** The status after all objects are as desired. *)
Definition final_status (clock : nat → Z) (cx : Context) (model : ModelDeployment) (d : Deployment)
    (scaled : option ScaledObject) (hpa : option Hpa) (selector namespace : string) (port : Z)
    : ModelDeploymentStatus :=
  let name := name_any (md_meta model) in
  let status := mkStatus (default 0 (om_generation (md_meta model)))
    (default 0 (dm_status d ≫= ds_ready_replicas)) (default 0 (dm_status d ≫= ds_replicas)) selector
    (if is_some (sp_serving (md_spec model)) then name else "")
    (match sp_serving (md_spec model) with Some s => sv_picker_service s | None => "" end)
    ("http://" +:+ name +:+ "." +:+ namespace +:+ ".svc:" +:+ print_i64 port)
    (cx_cluster_id cx) (cx_region cx) (match md_status model with Some s => st_conditions s | None => [] end) in
  let status := condition (clock 0%nat) model "ResourcesReady" "True" "Reconciled"
    "All desired owned resources reconciled" status in
  let ready := runtime_ready model d in
  let status := condition (clock 1%nat) model "Ready" (if ready then "True" else "False")
    (if ready then "RuntimeReady" else "RuntimeNotReady")
    "Runtime readiness only; external EPP health and gateway registration are separate" status in
  let c := scaling_condition model scaled hpa in
  condition (clock 2%nat) model "AutoscalingActive" c.1.1 c.1.2 c.2 status.

(** What a reconciliation reads and decides before it writes anything. *)
Record Plan := mkPlan {
  pn_namespace : string; pn_existing : option Deployment; pn_service : option Service;
  pn_wanted : Deployment * Service; pn_optional : option Pdb * option InferencePool; pn_hpas : list Hpa;
  pn_scaler : option ScaledObject; pn_wanted_scaler : option ScaledObject; pn_pdb : option Pdb;
  pn_pool : option InferencePool }.

Definition missing_keda : Error :=
  EInvalid "KEDA CRD is not installed; install the approved KEDA release before enabling autoscaling".

Definition plan (cx : Context) (model : ModelDeployment) : Talk Error Plan :=
  namespace ← says (ok_or (om_namespace (md_meta model)) (EInvalid "namespace missing"));
  let name := name_any (md_meta model) in
  existing ← ask EKube (Get KDeployment namespace name);
  existing_service ← ask EKube (Get KService namespace name);
  says (match (existing_service : option Service) with Some s => ensure_owner (sc_meta s) model | None => Ok tt end) ;;
  wanted ← says (desired model (cx_cluster_id cx) (cx_region cx) existing);
  optional ← says (desired_optional model wanted.1);
  all_hpas ← ask EKube (ListOf KHpa namespace);
  scalers ← hear (ListOf KScaled namespace);
  all_scalers ← says (match scalers with
    | Ok l => Ok l
    | Err e => if is_code 404 e then
                 if is_some (sp_autoscaling (md_spec model)) then Err missing_keda else Ok []
               else Err (EKube e)
    end);
  says (preflight model all_scalers all_hpas) ;;
  let old_scaler := List.find (called sd_meta model) all_scalers in
  wanted_scaler ← says (desired_scaler model (dm_meta wanted.1) (cx_prometheus_address cx));
  old_pdb ← ask EKube (Get KPdb namespace name);
  old_pool ← ask EKube (Get KPool namespace name);
  says (preflight_child (pb_meta <$> (old_pdb : option Pdb)) (is_some optional.1) model) ;;
  says (preflight_child (pl_meta <$> (old_pool : option InferencePool)) (is_some optional.2) model) ;;
  match sp_serving (md_spec model) with
  | Some serving =>
      picker ← ask EKube (Get KService namespace (sv_picker_service serving));
      says (validate_picker picker model)
  | None => mret tt
  end ;;
  mret (mkPlan namespace existing existing_service wanted optional all_hpas old_scaler wanted_scaler old_pdb old_pool).

Definition selector_text (l : Labels) : string :=
  String.concat "," ((λ e, e.1 +:+ "=" +:+ e.2) <$> order_by_text fst (map_to_list l)).

(** Every object as desired, and the status. *)
Definition apply_plan (clock : nat → Z) (cx : Context) (model : ModelDeployment) (p : Plan) (selector : string)
    (port : Z) : Talk Error Action :=
  let ns := pn_namespace p in
  let hpa := List.find (λ h, hpa_targets_model h model) (pn_hpas p) in
  d ← sync KDeployment ns model (pn_existing p) (Some (pn_wanted p).1);
  d ← says (ok_or d (EInvalid "Deployment sync returned no resource"));
  _ ← sync KService ns model (pn_service p) (Some (pn_wanted p).2);
  _ ← sync KPdb ns model (pn_pdb p) (pn_optional p).1;
  _ ← sync KPool ns model (pn_pool p) (pn_optional p).2;
  scaled ← (if is_some (pn_wanted_scaler p) then sync KScaled ns model (pn_scaler p) (pn_wanted_scaler p)
            else mret None);
  write_status model (final_status clock cx model d scaled hpa selector ns port) ;;
  mret (Requeue 30).

Definition reconcile_inner (clock : nat → Z) (cx : Context) (model : ModelDeployment) : Talk Error Action :=
  if is_some (om_deletion_timestamp (md_meta model)) then mret AwaitChange
  else
    p ← plan cx model;
    labels ← says (ok_or (selector_of (pn_wanted p).1) (EInvalid "desired Deployment selector labels are missing"));
    let selector := selector_text labels in
    sync_recommendation model
      (default (sp_replicas (md_spec model)) (spec ← pn_existing p ≫= dm_spec; dp_replicas spec)) selector ;;
    port ← says (ok_or (ports ← sc_ports (pn_wanted p).2; head ports) (EInvalid "desired Service port is missing"));
    match transition model (pn_scaler p) (pn_hpas p) with
    | RemoveLegacy =>
        _ ← sync KHpa (pn_namespace p) model (List.find (legacy model) (pn_hpas p)) None;
        scaling_transition (clock 0%nat) model "Removing legacy Operator HPA before KEDA activation"
    | RemoveScaledObject =>
        _ ← sync KScaled (pn_namespace p) model (pn_scaler p) None;
        scaling_transition (clock 0%nat) model "Removing KEDA ScaledObject before manual scaling resumes"
    | Wait => scaling_transition (clock 0%nat) model "Waiting for ScaledObject deletion and KEDA HPA garbage collection"
    | ApplyScaler => apply_plan clock cx model p selector (pt_port port)
    end.

(** The text of an error of the client library. *)
Class ErrorText := { kube_text : KubeError → string; json_text_error : string }.
Definition error_text `{ErrorText} (e : Error) : string :=
  match e with
  | EInvalid m | EConflict m => m
  | OwnershipConflict => "resource is not owned by this ModelDeployment"
  | EKube e => kube_text e
  | EJson => json_text_error
  end.

Definition failed_status `{ErrorText} (clock : nat → Z) (model : ModelDeployment) (e : Error) : ModelDeploymentStatus :=
  condition (clock 4%nat) model "Ready" "False" "ReconcileFailed" "Desired resources could not be reconciled"
    (condition (clock 3%nat) model "ResourcesReady" "False" "ReconcileFailed" (error_text e)
      (default no_status (md_status model))).

(** A failure is written to the status; that this write fails too is only logged. *)
Definition reconcile `{ErrorText} (clock : nat → Z) (cx : Context) (model : ModelDeployment) : Talk Error Action :=
  result ← attempt (reconcile_inner clock cx model);
  match result with
  | Ok action => mret action
  | Err e => _ ← attempt (E := Error) (write_status model (failed_status clock model e)); says (Err e)
  end.

Definition error_policy : Action := Requeue 10.

(** ** What a reconciliation may write *)

Section operate.
Context `{KA : KubeApi}.
Variable model : ModelDeployment.
Abbreviation its_name := (name_any (md_meta model)).

(** [m] names the model as its controller. *)
Definition controls (m : ObjectMeta) : Prop :=
  ∃ r, r ∈ owner_references m ∧ or_controller r = Some true ∧ om_uid (md_meta model) = Some (or_uid r) ∧
    or_kind r = "ModelDeployment" ∧ or_api_version r = "platform.xscope.io/v1alpha1".

(** A target of a scaler that is the model, itself or through its [ModelScale]. *)
Definition aims (t : ScaleTargetRef) : Prop :=
  tr_api_version t = "platform.xscope.io/v1alpha1" ∧ (tr_kind t = "ModelDeployment" ∨ tr_kind t = "ModelScale") ∧
  tr_name t = its_name.

(** The autoscaler that KEDA made for a scaler. *)
Definition made_for (hpa : Hpa) (scaled : ScaledObject) : Prop :=
  ∃ r, r ∈ owner_references (hp_meta hpa) ∧ or_controller r = Some true ∧ or_api_version r = "keda.sh/v1alpha1" ∧
    or_kind r = "ScaledObject" ∧ om_uid (sd_meta scaled) = Some (or_uid r) ∧ or_name r = name_any (sd_meta scaled).

(** Where the objects of the model stand. *)
Definition here (ns name : string) : Prop := om_namespace (md_meta model) = Some ns ∧ name = its_name.
Definition child (k : Kind) : Prop := k ∈ [KDeployment; KService; KPdb; KPool; KScaled; KScale].

(** New: ready is only said of a runtime that runs all replicas. *)
Definition honest (status : ModelDeploymentStatus) : Prop :=
  ∀ c, c ∈ st_conditions status → cn_type c = "Ready" → cn_status c = "True" →
    c ∈ st_conditions (default no_status (md_status model)) ∨
    0 < sp_replicas (md_spec model) ∧ st_ready_replicas status = sp_replicas (md_spec model).

(** Nothing else scales the model: each autoscaler of it is made by KEDA for
    the scaler of its name, which the model owns. *)
Definition alone (s : Kube) : Prop :=
  ∃ ns s0 s1, om_namespace (md_meta model) = Some ns ∧ since s0 s1 ∧ since s1 s ∧
  (∀ n h, stored s0 KHpa ns n = Some h → (∃ x, hp_target h = Some x ∧ aims x) →
     ∃ sc, stored s1 KScaled ns its_name = Some sc ∧ made_for h sc) ∧
  (∀ n sc, stored s1 KScaled ns n = Some sc → aims (sd_target sc) ∨ n = its_name →
     n = its_name ∧ controls (sd_meta sc) ∧ om_deletion_timestamp (sd_meta sc) = None).

Definition own_write {A} (c : call A) (s : Kube) : Prop :=
  match c with
  | Create k ns o =>
      child k ∧ here ns its_name ∧ om_name (meta k o) = Some its_name ∧ controls (meta k o) ∧
      stored s k ns its_name = None ∧ (k = KScaled → alone s)
  | Apply k ns name o =>
      child k ∧ here ns name ∧ controls (meta k o) ∧
      (∃ old, stored s k ns name = Some old ∧ controls (meta k old)) ∧ (k = KScaled → alone s)
  | Delete k ns name uid version =>
      (child k ∨ k = KHpa) ∧ here ns name ∧
      ∃ old, stored s k ns name = Some old ∧ controls (meta k old) ∧
        uid = om_uid (meta k old) ∧ version = om_resource_version (meta k old)
  | PatchModelStatus ns name version status =>
      here ns name ∧ version = om_resource_version (md_meta model) ∧ honest status
  | PatchScaleStatus ns name version _ =>
      enabled model = true ∧ here ns name ∧
      ∃ old, stored s KScale ns name = Some old ∧ agrees version (om_resource_version (mc_meta old))
  | _ => False
  end.

(** A call reads, is such a write, or is refused by the server. *)
Definition operates A (c : call A) (s t : Kube) (b : result KubeError A) : Prop :=
  reading c ∨ own_write c s ∨ unchanged s t ∧ ∃ e, b = Err e.
Abbreviation operated := (heeds operates).

(** An object that was read before [t]. *)
Definition seen (k : Kind) (ns : string) (o : option (object k)) (t : Kube) : Prop :=
  match o with
  | Some o => ∃ s0, running s0 ∧ since s0 t ∧ stored s0 k ns its_name = Some o
  | None => True
  end.
Lemma seen_mono k ns o t u : since t u → seen k ns o t → seen k ns o u.
Proof.
  intros Ht. destruct o as [o|]; [|done]. intros (s0 & H1 & H2 & H3). exists s0.
  split_and!; [done|by eapply since_trans|done].
Qed.
Lemma seen_now k ns t : running t → seen k ns (stored t k ns its_name) t.
Proof. intros Ht. unfold seen. destruct (stored _ _ _ _) eqn:E; [|done]. exists t. split_and!; [done|by apply since_refl|done]. Qed.

(** An object that may be written for the model. *)
Definition fits (k : Kind) (o : object k) : Prop := controls (meta k o) ∧ om_name (meta k o) = Some its_name.

Definition goes_on {A} (Q : A → Kube → Prop) (s : Kube) (r : result Error A) (t : Kube) : Prop :=
  since s t ∧ running t ∧ match r with Ok a => Q a t | Err _ => True end.

Lemma goes_on_ok {A} (Q : A → Kube → Prop) s a : running s → Q a s → goes_on Q s (Ok a) s.
Proof. intros Hs HQ. split_and!; [by apply since_refl|done|done]. Qed.
Lemma goes_on_err {A} (Q : A → Kube → Prop) s e : running s → goes_on Q s (Err e) s.
Proof. intros Hs. split_and!; [by apply since_refl|done|done]. Qed.
Lemma goes_on_later {A} (Q : A → Kube → Prop) s t r u : since s t → goes_on Q t r u → goes_on Q s r u.
Proof. intros Ht (H1 & H2 & H3). split_and!; [by eapply since_trans|done|done]. Qed.

Lemma owned_controls m : owned model m = true ↔ controls m.
Proof.
  unfold owned, controls, owner_references, owns, API_VERSION. destruct (om_owner_references m) as [l|]; cbn.
  2:{ split; [done|]. intros (r & Hr%elem_of_nil & _); done. }
  rewrite existsb_exists. apply exist_proper. intros r.
  rewrite list_elem_of_In, !andb_true_iff, !bool_decide_eq_true, !str_eqb_eq. naive_solver.
Qed.

Lemma ensure_owner_Ok m u : ensure_owner m model = Ok u → controls m.
Proof. by intros ?%require_Ok%owned_controls. Qed.

Lemma targets_aims t : targets_model t model = true ↔ aims t.
Proof.
  unfold targets_model, aims, is_target. rewrite !andb_true_iff, !str_eqb_eq, str_in_elem. set_solver.
Qed.

Lemma hpa_targets_aims h : hpa_targets_model h model = true ↔ ∃ x, hp_target h = Some x ∧ aims x.
Proof. unfold hpa_targets_model. destruct (hp_target h) as [x|]; [rewrite targets_aims|]; naive_solver. Qed.

Lemma keda_made_for h sc : keda_owns_hpa h sc = true → made_for h sc.
Proof.
  unfold keda_owns_hpa. destruct (om_uid (sd_meta sc)) as [uid|] eqn:Hu; [|done].
  intros (r & Hr%list_elem_of_In & Hb)%existsb_exists. exists r. split; [done|].
  rewrite !andb_true_iff, bool_decide_eq_true, !str_eqb_eq in Hb. rewrite Hu. naive_solver.
Qed.

Lemma with_meta_name k m o : meta k (with_meta k m o) = m.
Proof. by destruct k. Qed.

Lemma wrote {A} (c : call A) s1 s2 (b : result KubeError A) :
  own_write c s1 ∨ unchanged s1 s2 ∧ (∃ e, b = Err e) → operates A c s1 s2 b.
Proof. by right. Qed.

(** What follows a call that has been granted. *)
Lemma goes_on_call {A B} (f : A → B) (c : call A) s s1 s2 (b : result KubeError A) :
  running s → since s s1 → served c s1 s2 b →
  goes_on (λ _ _, True) s (match b with Ok a => Ok (f a) | Err e => Err (EKube e) end) s2.
Proof.
  intros Hs H1 Hc. assert (since s1 s2) as H2 by (eapply served_since; [by eapply since_running|exact Hc]).
  split; [by eapply since_trans|]. split; [by eapply since_running|by destruct b].
Qed.

Lemma sync_heeds k ns (previous wanted : option (object k)) s :
  running s → om_namespace (md_meta model) = Some ns → seen k ns previous s →
  child k ∨ k = KHpa ∧ wanted = None →
  (∀ o, wanted = Some o → fits k o) → (∀ t, since s t → k = KScaled → wanted ≠ None → alone t) →
  operated (sync k ns model previous wanted) s (goes_on (λ _ _, True) s).
Proof.
  intros Hs Hns Hseen Hk Hfits Halone. unfold sync.
  assert (∀ e, goes_on (λ (_ : option (object k)) _, True) s (Err e) s) as Herr by (intros; by apply goes_on_err).
  destruct wanted as [o|].
  - destruct Hk as [Hk|[_ Hk]]; [|done]. destruct (Hfits o eq_refl) as [Hown Hname].
    destruct previous as [p|].
    + destruct Hseen as (s0 & Hs0 & H0 & Hp). apply heeds_says_then; [intros u Hold%ensure_owner_Ok|done].
      intros s1 s2 b H1 H2. split; [|].
      * apply wrote. eapply (fenced_write _ k); [exact Hs0|exact Hp|by eapply since_trans|exact H2| |by intros []|].
        { intros at_ [[_ Hx]|(old & Hx & _ & Hv)]; rewrite with_meta_name in *; cbn in *.
          - destruct (stored_identity _ _ _ _ _ Hs0 Hp) as (_ & [u' Hu] & _). congruence.
          - by exists old. }
        intros Hp1. cbn. rewrite with_meta_name. split_and!; try done; [by exists p|].
        intros Hkk. apply Halone; [exact H1|done|done].
      * pose proof (goes_on_call Some _ s s1 s2 b Hs H1 H2) as Hg. destruct b; exact Hg.
    + intros s1 s2 b H1 H2. split.
      * apply wrote. eapply fresh_write; [exact H2|]. intros n [_ Hn] Hnone. cbn in Hn. rewrite Hname in Hn. cbn in Hn. subst n.
        cbn. split_and!; try done. intros Hkk. apply Halone; [exact H1|done|done].
      * pose proof (goes_on_call Some _ s s1 s2 b Hs H1 H2) as Hg. destruct b; exact Hg.
  - destruct previous as [p|]; [|by apply goes_on_ok].
    destruct (is_ok (ensure_owner (meta k p) model)) eqn:Hold; [|by apply goes_on_ok].
    destruct (ensure_owner (meta k p) model) as [u|] eqn:Hown; [|done]. apply ensure_owner_Ok in Hown.
    destruct Hseen as (s0 & Hs0 & H0 & Hp). intros s1 s2 b H1 H2. split; [|].
    + apply wrote. eapply (fenced_write _ k); [exact Hs0|exact Hp|by eapply since_trans|exact H2| |by intros []|].
      { intros at_ (old & Hx & _ & Hv). by exists old. }
      intros Hp1. cbn. split_and!; [naive_solver|done|]. by exists p.
    + pose proof (goes_on_call (λ _, None (A := object k)) _ s s1 s2 b Hs H1 H2) as Hg.
      destruct b; exact Hg.
Qed.

(** *** What is planned *)

Lemma controller_owner_ref_Some owner : controller_owner_ref model = Some owner →
  owns model owner = true ∧ om_name (md_meta model) = Some its_name ∧ om_uid (md_meta model) = Some (or_uid owner).
Proof.
  unfold controller_owner_ref. intros (name & Hn & (uid & Hu & [= <-])%bind_Some)%bind_Some.
  split; [|split; [unfold name_any; by rewrite Hn|done]].
  unfold owns. cbn [or_controller or_uid or_kind or_api_version]. rewrite Hu. by rewrite !bool_decide_true.
Qed.

Lemma child_meta_owned ns owner m :
  controller_owner_ref m = Some owner → md_meta m = md_meta model → controls (child_meta its_name ns owner).
Proof.
  intros Ho Hm. assert (controller_owner_ref model = Some owner) as Hown.
  { unfold controller_owner_ref in *. by rewrite <- Hm. }
  apply controller_owner_ref_Some in Hown as [Hown _]. apply owned_controls. cbn. by rewrite Hown.
Qed.

Lemma desired_fits cluster region existing d svc :
  desired model cluster region existing = Ok (d, svc) → fits KDeployment d ∧ fits KService svc.
Proof.
  unfold desired. intros (m & Hm & H)%result_bind_Ok. apply validate_meta in Hm as [Hmeta _].
  apply result_bind_Ok in H as (ns & _ & H). apply result_bind_Ok in H as (owner & Ho%ok_or_Ok & H).
  apply unit_bind_Ok in H as [_ [= <- <-]]. rewrite Hmeta.
  by split; (split; [by eapply child_meta_owned|]).
Qed.

Lemma desired_optional_fits d pdb pool : fits KDeployment d → desired_optional model d = Ok (pdb, pool) →
  (∀ o, pdb = Some o → fits KPdb o) ∧ (∀ o, pool = Some o → fits KPool o).
Proof.
  intros Hd. unfold desired_optional. intros (spec & _ & H)%result_bind_Ok.
  apply result_bind_Ok in H as (template & _ & H). apply result_bind_Ok in H as (labels & _ & [= <- <-]).
  split; intros o (x & _ & ->)%fmap_Some; exact Hd.
Qed.

Lemma desired_scaler_fits d prometheus o : fits KDeployment d →
  desired_scaler model (dm_meta d) prometheus = Ok o →
  (∀ sc, o = Some sc → fits KScaled sc) ∧ (o ≠ None → is_some (sp_autoscaling (md_spec model)) = true).
Proof.
  intros Hd. unfold desired_scaler. destruct (sp_autoscaling _) as [scaling|]; [|by intros [= <-]].
  intros (triggers & _ & [= <-])%result_bind_Ok. split; [|done]. by intros sc [= <-].
Qed.

Lemma called_name {A} (m : A → ObjectMeta) (o : A) n : om_name (m o) = Some n → called m model o = true ↔ n = its_name.
Proof. intros Hn. unfold called, name_any at 1. rewrite Hn. apply str_eqb_eq. Qed.

Lemma check_scalers_Ok l u sc : check_scalers model l = Ok u → sc ∈ l →
  called sd_meta model sc || targets_model (sd_target sc) model = true →
  controls (sd_meta sc) ∧ called sd_meta model sc = true.
Proof.
  revert u. induction l as [|x l IH]; intros u Hl Hin; [by apply elem_of_nil in Hin|].
  cbn in Hl. apply unit_bind_Ok in Hl as [Hx Hl]. apply elem_of_cons in Hin as [->|Hin]; [|by eapply IH].
  intros Hc. rewrite Hc in Hx. apply unit_bind_Ok in Hx as [Ho%ensure_owner_Ok Hx%require_Ok]. done.
Qed.

(** The lists of a pass: the autoscalers, and the scalers after them. *)
Record listed (ns : string) (hpas : list Hpa) (scalers : list ScaledObject) (t : Kube) : Prop := {
  ls_hpas : ∃ s0 s1, running s0 ∧ since s0 s1 ∧ since s1 t ∧
    (∀ h, h ∈ hpas ↔ ∃ n, stored s0 KHpa ns n = Some h) ∧
    (∀ sc, sc ∈ scalers ↔ ∃ n, stored s1 KScaled ns n = Some sc);
  ls_preflight : preflight model scalers hpas = Ok tt }.

Lemma listed_mono ns hpas scalers t u : since t u → listed ns hpas scalers t → listed ns hpas scalers u.
Proof.
  intros Ht [(s0 & s1 & H1 & H2 & H3 & H4) H5]. split; [|done]. exists s0, s1.
  split_and!; [done|done|by eapply since_trans|apply H4..].
Qed.

Lemma listed_alone ns hpas scalers t :
  om_namespace (md_meta model) = Some ns → listed ns hpas scalers t →
  transition model (List.find (called sd_meta model) scalers) hpas = ApplyScaler → alone t.
Proof.
  intros Hns [(s0 & s1 & H0 & H1 & H2 & Hh & Hsc) Hp] Htr.
  unfold preflight in Hp. apply unit_bind_Ok in Hp as [Hp Hhpa%require_Ok].
  assert (existsb (legacy model) hpas = false) as Hlegacy.
  { unfold transition in Htr. by destruct (existsb _ hpas). }
  rewrite forallb_forall in Hhpa. exists ns, s0, s1. split_and!; [done..| |].
  - intros n h Hstored Ht%hpa_targets_aims. assert (h ∈ hpas) as Hin by (apply Hh; by exists n).
    specialize (Hhpa h (proj1 (list_elem_of_In _ _) Hin)). unfold hpa_allowed in Hhpa. rewrite Ht in Hhpa. cbn in Hhpa.
    apply orb_true_iff in Hhpa as [Hk|Hl].
    + destruct (List.find _ scalers) as [sc|] eqn:Hf; [|done]. apply find_some in Hf as [Hin' Hc].
      apply list_elem_of_In, Hsc in Hin' as [n' Hst]. exists sc. split; [|by apply keda_made_for].
      destruct (stored_identity _ _ _ _ _ (since_running _ _ H1) Hst) as (Hname & _).
      by apply (called_name sd_meta sc n' Hname) in Hc as <-.
    + exfalso. apply not_true_iff_false in Hlegacy. apply Hlegacy, existsb_exists. exists h.
      split; [by apply list_elem_of_In|done].
  - intros n sc Hst Hc. destruct (stored_identity _ _ _ _ _ (since_running _ _ H1) Hst) as (Hname & _).
    assert (sc ∈ scalers) as Hin by (apply Hsc; by exists n).
    destruct (check_scalers_Ok _ _ _ Hp Hin) as [Ho Hcalled].
    { destruct Hc as [Hc%targets_aims| ->]; [by rewrite Hc, orb_true_r|]. by rewrite (proj2 (called_name sd_meta sc _ Hname) eq_refl). }
    pose proof (proj1 (called_name sd_meta sc n Hname) Hcalled) as ->. split; [done|]. split; [done|].
    destruct (List.find _ scalers) as [sc'|] eqn:Hf.
    2:{ eapply find_none in Hf; [|by apply list_elem_of_In]. congruence. }
    apply find_some in Hf as [Hin' Hc']. apply list_elem_of_In, Hsc in Hin' as [n' Hst'].
    destruct (stored_identity _ _ _ _ _ (since_running _ _ H1) Hst') as (Hname' & _).
    apply (called_name sd_meta sc' n' Hname') in Hc' as ->. rewrite Hst in Hst'. injection Hst' as <-.
    unfold transition in Htr. rewrite Hlegacy in Htr. by destruct (om_deletion_timestamp (sd_meta sc)).
Qed.

(** A plan that was made by [t]. *)
Record planned (p : Plan) (t : Kube) : Prop := {
  pd_namespace : om_namespace (md_meta model) = Some (pn_namespace p);
  pd_existing : seen KDeployment (pn_namespace p) (pn_existing p) t;
  pd_service : seen KService (pn_namespace p) (pn_service p) t;
  pd_pdb : seen KPdb (pn_namespace p) (pn_pdb p) t;
  pd_pool : seen KPool (pn_namespace p) (pn_pool p) t;
  pd_scaler : seen KScaled (pn_namespace p) (pn_scaler p) t;
  pd_legacy : seen KHpa (pn_namespace p) (List.find (legacy model) (pn_hpas p)) t;
  pd_listed : pn_wanted_scaler p ≠ None → ∃ scalers, listed (pn_namespace p) (pn_hpas p) scalers t ∧
    pn_scaler p = List.find (called sd_meta model) scalers;
  pd_wanted : fits KDeployment (pn_wanted p).1 ∧ fits KService (pn_wanted p).2;
  pd_optional_pdb o : (pn_optional p).1 = Some o → fits KPdb o;
  pd_optional_pool o : (pn_optional p).2 = Some o → fits KPool o;
  pd_wanted_scaler o : pn_wanted_scaler p = Some o → fits KScaled o }.

Lemma planned_mono p t u : since t u → planned p t → planned p u.
Proof.
  intros Ht [H1 H2 H3 H4 H5 H6 H7 H8 H9 H10 H11 H12]. split; try done; try by eapply seen_mono.
  intros Hw. destruct (H8 Hw) as (ss & Hl & Hf). exists ss. split; [by eapply listed_mono|done].
Qed.

(** An object of a list, found under the name of the model. *)
Lemma seen_found k ns (f : object k → bool) l s t :
  running s → since s t → (∀ o, o ∈ l → ∃ n, stored s k ns n = Some o) →
  (∀ o, f o = true → called (meta k) model o = true) → seen k ns (List.find f l) t.
Proof.
  intros Hs Ht Hl Hf. destruct (List.find f l) as [o|] eqn:E; [|done]. apply find_some in E as [Hin Ho].
  apply list_elem_of_In, Hl in Hin as [n Hst]. exists s. split_and!; [done..|].
  destruct (stored_identity _ _ _ _ _ Hs Hst) as (Hname & _).
  by rewrite <- (proj1 (called_name (meta k) o n Hname) (Hf o Ho)).
Qed.

Lemma reads A (c : call A) s t b : reading c → operates A c s t b.
Proof. by left. Qed.

Lemma read_scalers ns s (Q : result Error Plan → Kube → Prop) (cont : list ScaledObject → Talk Error Plan) :
  running s →
  (∀ t l, since s t → running t →
     (is_some (sp_autoscaling (md_spec model)) = true → ∀ o, o ∈ l ↔ ∃ n, stored t KScaled ns n = Some o) →
     (∀ o, o ∈ l → ∃ n, stored t KScaled ns n = Some o) → operated (cont l) t Q) →
  (∀ t e, since s t → running t → Q (Err e) t) →
  operated (scalers ← hear (ListOf KScaled ns);
            l ← says (match scalers with
                      | Ok l => Ok l
                      | Err e => if is_code 404 e then
                                   if is_some (sp_autoscaling (md_spec model)) then Err missing_keda else Ok []
                                 else Err (EKube e)
                      end);
            cont l) s Q.
Proof.
  intros Hs Hk He. apply heeds_hear_then. intros s1 s2 b H1 H2. split; [by apply reads|].
  assert (since s1 s2) as H12 by (eapply served_since; [by eapply since_running|exact H2]).
  assert (since s s2) as H3 by by eapply since_trans. assert (running s2) as Hs2 by by eapply since_running.
  apply heeds_says_then; [|intros e _; by apply He].
  intros l Hl. destruct b as [l'|e].
  - injection Hl as <-. assert (∀ o, o ∈ l' ↔ ∃ n, stored s2 KScaled ns n = Some o) as Hall; [|].
    { intros o. rewrite (served_list _ _ _ _ _ o H2).
      by setoid_rewrite (λ name, read_same (ListOf KScaled ns) _ _ _ KScaled ns name I H2). }
    apply Hk; [done..|by intros _|by intros o ?%Hall].
  - destruct (is_code 404 e); [|done]. destruct (is_some _) eqn:Ha; [done|]. injection Hl as <-.
    apply Hk; [done..|by intros Hx; congruence|]. intros o Ho. by apply elem_of_nil in Ho.
Qed.

Lemma plan_heeds cx s : running s → operated (plan cx model) s (goes_on planned s).
Proof.
  intros Hs. unfold plan.
  assert (∀ t e, since s t → running t → goes_on planned s (Err e) t) as Herr.
  { intros t e Ht Hst. by split. }
  apply heeds_says_then; [intros ns Hns%ok_or_Ok|intros; by apply goes_on_err].
  apply heeds_get_then; [exact reads|done| |by auto]. intros t1 T1 R1.
  apply heeds_get_then; [exact reads|done| |intros; by apply Herr; [eapply since_trans|]]. intros t2 T2 R2.
  assert (since s t2) as S2 by by eapply since_trans.
  apply heeds_says_then; [intros _ _|intros; by apply Herr].
  apply heeds_says_then; [intros [d svc] Hd|intros; by apply Herr].
  apply heeds_says_then; [intros [pdb pool] Hopt|intros; by apply Herr].
  apply heeds_list_then; [exact reads|done| |intros; by apply Herr; [eapply since_trans|]].
  intros t3 hpas T3 R3 Hhpas. assert (since s t3) as S3 by by eapply since_trans.
  apply read_scalers; [done| |intros; by apply Herr; [eapply since_trans|]].
  intros t4 scalers T4 R4 Hscalers Hin. assert (since s t4) as S4 by by eapply since_trans.
  apply heeds_says_then; [intros [] Hpre|intros; by apply Herr].
  apply heeds_says_then; [intros wanted Hw|intros; by apply Herr].
  apply heeds_get_then; [exact reads|done| |intros; by apply Herr; [eapply since_trans|]]. intros t5 T5 R5.
  assert (since s t5) as S5 by by eapply since_trans.
  apply heeds_get_then; [exact reads|done| |intros; by apply Herr; [eapply since_trans|]]. intros t6 T6 R6.
  assert (since s t6) as S6 by by eapply since_trans.
  apply heeds_says_then; [intros _ _|intros; by apply Herr].
  apply heeds_says_then; [intros _ _|intros; by apply Herr].
  pose proof (desired_fits _ _ _ _ _ Hd) as [Fd Fs]. pose proof (desired_optional_fits _ _ _ Fd Hopt) as [Fp Fi].
  pose proof (desired_scaler_fits _ _ _ Fd Hw) as [Fw Hauto].
  assert (planned (mkPlan ns (stored t1 KDeployment ns its_name) (stored t2 KService ns its_name) (d, svc) (pdb, pool)
    hpas (List.find (called sd_meta model) scalers) wanted (stored t5 KPdb ns its_name) (stored t6 KPool ns its_name)) t6)
    as Hp.
  { assert (since t5 t6 ∧ since t4 t6 ∧ since t3 t6 ∧ since t2 t6 ∧ since t1 t6) as (U5 & U4 & U3 & U2 & U1).
    { split_and!; [done|..]; repeat (done || (eapply since_trans; [eassumption|])). }
    split; cbn; try done; try (eapply seen_mono; [|by apply seen_now]; done).
    - by apply seen_now.
    - eapply (seen_found KScaled ns _ scalers t4); [exact R4|exact U4|exact Hin|done].
    - eapply (seen_found KHpa ns _ hpas t3); [done|done|by intros o ?%Hhpas|]. by intros o [? _]%andb_true_iff.
    - intros Hne. exists scalers. split; [|done]. split; [|done]. exists t3, t4. split_and!; [done..|by apply Hscalers, Hauto]. }
  destruct (sp_serving (md_spec model)) as [serving|].
  - apply heeds_bind. apply heeds_get_then; [exact reads|done| |intros; by apply Herr; [eapply since_trans|]].
    intros t7 T7 R7. apply heeds_says. destruct (validate_picker _ _) as [u|e]; [|by apply Herr; [eapply since_trans|]].
    split; [by eapply since_trans|]. split; [done|]. by eapply planned_mono.
  - apply heeds_bind. by split.
Qed.

(** *** The writes *)

Lemma scale_row_heeds ns (old : option ModelScale) s :
  running s → om_namespace (md_meta model) = Some ns → seen KScale ns old s →
  operated (match old with
            | Some row =>
                says (ensure_owner (mc_meta row) model) ;;
                says (require (bool_decide (Some (mc_model_uid row) = om_uid (md_meta model))) OwnershipConflict) ;;
                mret row
            | None =>
                uid ← says (ok_or (om_uid (md_meta model)) OwnershipConflict);
                owner ← says (ok_or (controller_owner_ref model) OwnershipConflict);
                ask EKube (Create KScale ns (mkModelScale (child_meta its_name ns owner) uid
                  (sp_replicas (md_spec model)) None))
            end) s (goes_on (λ _ _, True) s).
Proof.
  intros Hs Hns Hseen. destruct old as [row|].
  - apply heeds_says_then; [intros _ _|intros; by apply goes_on_err].
    apply heeds_says_then; [intros _ _|intros; by apply goes_on_err]. by apply goes_on_ok.
  - apply heeds_says_then; [intros uid _|intros; by apply goes_on_err].
    apply heeds_says_then; [intros owner Ho%ok_or_Ok|intros; by apply goes_on_err].
    apply heeds_ask. intros s1 s2 b H1 H2. split; [|exact (goes_on_call id _ s s1 s2 b Hs H1 H2)].
    apply wrote. eapply fresh_write; [exact H2|]. intros n [_ Hn] Hnone. cbn in Hn. subst n.
    cbn [own_write]. split_and!; [unfold child; set_solver|done|done|by eapply child_meta_owned|done|done].
Qed.

Lemma recommendation_heeds replicas selector s :
  running s → operated (sync_recommendation model replicas selector) s (goes_on (λ _ _, True) s).
Proof.
  intros Hs. unfold sync_recommendation.
  apply heeds_says_then; [intros ns Hns%ok_or_Ok|intros; by apply goes_on_err].
  apply heeds_hear_then. intros s1 s2 b H1 H2. split; [by apply reads|].
  assert (since s1 s2) as H12 by (eapply served_since; [by eapply since_running|exact H2]).
  assert (since s s2) as H3 by by eapply since_trans. assert (running s2) as Hs2 by by eapply since_running.
  assert (∀ e, goes_on (λ (_ : ()) _, True) s (Err e) s2) as Herr by by split.
  destruct b as [old|e]; [|destruct (is_code 404 e && _); [by split|by apply Herr]].
  assert (seen KScale ns old s2) as Hold.
  { pose proof (served_get _ _ _ _ _ _ H2) as ->.
    rewrite <- (read_same (Get KScale ns its_name) _ _ _ KScale ns its_name I H2). by apply seen_now. }
  destruct (enabled model) eqn:He; cbn [negb].
  2:{ apply heeds_bind. eapply heeds_mono; [done|apply sync_heeds; [done|done|exact Hold|left; unfold child; set_solver|done|done]|].
      intros r t _ (T1 & T2 & _). assert (since s t) as St by by eapply since_trans. destruct r; by split. }
  apply heeds_bind. eapply heeds_mono; [done|by apply scale_row_heeds|]. intros r t _ (T1 & T2 & _).
  assert (since s t) as St by by eapply since_trans. destruct r as [row|e]; [|by split].
  destruct (bool_decide _); [by split|]. intros t1 t2 b U1 U2. split.
  - apply wrote. destruct b as [a|e].
    + left. destruct (served_write _ _ _ _ _ U2) as [Hf|(p & -> & old' & Ho & Hv)]; [done|].
      cbn. split; [done|]. split; [done|]. by exists old'.
    + destruct (served_effect _ _ _ _ _ U2) as [Hn|(p & -> & (old' & Ho & Hv) & _)]; [right; split; [exact Hn|by eexists]|].
      left. cbn. split; [done|]. split; [done|]. by exists old'.
  - pose proof (goes_on_call (λ _, ()) _ t t1 t2 b T2 U1 U2) as Hg.
    destruct b; exact (goes_on_later _ _ _ _ _ St Hg).
Qed.

Lemma condition_honest now kind value reason message status :
  honest status →
  (kind = "Ready" → value = "True" →
     0 < sp_replicas (md_spec model) ∧ st_ready_replicas status = sp_replicas (md_spec model)) →
  honest (condition now model kind value reason message status).
Proof.
  intros Hs Hnew c Hin Ht Hv. unfold condition in Hin |- *. cbn in Hin |- *.
  apply elem_of_order_by_text, elem_of_app in Hin as [[_ Hin]%list_elem_of_filter|Hin%list_elem_of_singleton].
  - by apply Hs.
  - subst c. cbn in Ht, Hv. right. by apply Hnew.
Qed.

Lemma write_status_heeds status s :
  running s → honest status → operated (write_status model status) s (goes_on (λ _ _, True) s).
Proof.
  intros Hs Hh. unfold write_status. destruct (bool_decide _); [by apply goes_on_ok|].
  apply heeds_says_then; [intros ns Hns%ok_or_Ok|intros; by apply goes_on_err].
  intros s1 s2 b H1 H2. split.
  - right. left. cbn. done.
  - pose proof (goes_on_call (λ _, ()) _ s s1 s2 b Hs H1 H2) as Hg. destruct b; exact Hg.
Qed.

Lemma old_honest : honest (default no_status (md_status model)).
Proof. intros c Hin _ _. by left. Qed.

Lemma transition_heeds now message s :
  running s → operated (scaling_transition now model message) s (goes_on (λ _ _, True) s).
Proof.
  intros Hs. unfold scaling_transition. apply heeds_bind.
  eapply heeds_mono; [done|apply write_status_heeds; [done|apply condition_honest; [apply old_honest|done]]|].
  intros r t _ Hr. by destruct r.
Qed.

Lemma final_honest clock cx d scaled hpa selector ns port :
  honest (final_status clock cx model d scaled hpa selector ns port).
Proof.
  unfold final_status. apply condition_honest; [|done]. apply condition_honest; [apply condition_honest|].
  - intros c Hin _ _. left. cbn in Hin. by destruct (md_status model).
  - done.
  - intros _ Hv. destruct (runtime_ready model d) eqn:Hr; [|done]. unfold runtime_ready in Hr.
    apply andb_true_iff in Hr as [[H1 H2]%andb_true_iff _]. cbn. lia.
Qed.

(** A step that goes on, and the rest. *)
Lemma goes_on_then {A B} (P : A → Kube → Prop) (m : Talk Error A) (k : A → Talk Error B) s :
  running s → operated m s (goes_on P s) →
  (∀ a t, since s t → running t → P a t → operated (k a) t (goes_on (λ _ _, True) t)) →
  operated (m ≫= k) s (goes_on (λ _ _, True) s).
Proof.
  intros Hs Hm Hk. apply heeds_bind. eapply heeds_mono; [done|exact Hm|]. intros r t _ (H1 & H2 & H3).
  destruct r as [a|e]; [|by split]. eapply heeds_mono; [done|by apply Hk|].
  intros r u _. by apply goes_on_later.
Qed.
Lemma goes_on_says {A B} (r : result Error A) (k : A → Talk Error B) s :
  running s → (∀ a, r = Ok a → operated (k a) s (goes_on (λ _ _, True) s)) →
  operated (says r ≫= k) s (goes_on (λ _ _, True) s).
Proof. intros Hs Hk. apply heeds_says_then; [done|]. intros e _. by apply goes_on_err. Qed.

Lemma apply_plan_heeds clock cx p selector port s :
  running s → planned p s → transition model (pn_scaler p) (pn_hpas p) = ApplyScaler →
  operated (apply_plan clock cx model p selector port) s (goes_on (λ _ _, True) s).
Proof.
  intros Hs Hp Htr. unfold apply_plan. pose proof (pd_namespace _ _ Hp) as Hns. destruct (pd_wanted _ _ Hp) as [Fd Fs].
  assert (∀ k o t, k ≠ KScaled → child k → running t → seen k (pn_namespace p) o t →
    ∀ w, (∀ x, w = Some x → fits k x) →
    operated (sync k (pn_namespace p) model o w) t (goes_on (λ _ _, True) t)) as Hsync.
  { intros k o t Hk Hc Ht Ho w Hw. by apply sync_heeds; [| | |left| |intros]. }
  eapply (goes_on_then (λ _ _, True)); [done|apply (Hsync KDeployment); [done|unfold child; set_solver|done|apply Hp|by intros x [= <-]]|].
  intros d t1 T1 R1 _. apply (planned_mono _ _ _ T1) in Hp. apply goes_on_says; [done|]. intros d' _.
  eapply (goes_on_then (λ _ _, True)); [done|apply (Hsync KService); [done|unfold child; set_solver|done|apply Hp|by intros x [= <-]]|].
  intros _ t2 T2 R2 _. apply (planned_mono _ _ _ T2) in Hp.
  eapply (goes_on_then (λ _ _, True)); [done|apply (Hsync KPdb); [done|unfold child; set_solver|done|apply Hp|apply Hp]|].
  intros _ t3 T3 R3 _. apply (planned_mono _ _ _ T3) in Hp.
  eapply (goes_on_then (λ _ _, True)); [done|apply (Hsync KPool); [done|unfold child; set_solver|done|apply Hp|apply Hp]|].
  intros _ t4 T4 R4 _. apply (planned_mono _ _ _ T4) in Hp.
  eapply (goes_on_then (λ _ _, True)); [done| |].
  - destruct (pn_wanted_scaler p) as [w|] eqn:Hw; [|by apply goes_on_ok]. cbn [is_some].
    apply (sync_heeds KScaled); [done|by apply Hp|apply Hp|left; unfold child; set_solver|intros o [= <-]; by apply Hp|].
    intros t Ht _ _. destruct (pd_listed _ _ Hp) as (scalers & Hl & Hf); [by rewrite Hw|].
    eapply listed_alone; [by apply Hp|by eapply listed_mono|]. by rewrite <- Hf.
  - intros scaled t5 T5 R5 _. eapply (goes_on_then (λ _ _, True)); [done|apply write_status_heeds; [done|apply final_honest]|].
    intros _ t6 T6 R6 _. by apply goes_on_ok.
Qed.

Lemma inner_heeds clock cx s :
  running s → operated (reconcile_inner clock cx model) s (goes_on (λ _ _, True) s).
Proof.
  intros Hs. unfold reconcile_inner. destruct (is_some _); [by apply goes_on_ok|].
  eapply (goes_on_then planned); [done|by apply plan_heeds|]. intros p t1 T1 R1 Hp.
  apply goes_on_says; [done|]. intros labels _.
  eapply (goes_on_then (λ _ _, True)); [done|by apply recommendation_heeds|]. intros _ t2 T2 R2 _.
  apply (planned_mono _ _ _ T2) in Hp. apply goes_on_says; [done|]. intros port _.
  destruct (transition model (pn_scaler p) (pn_hpas p)) eqn:Htr.
  - eapply (goes_on_then (λ _ _, True)); [done| |intros _ t3 T3 R3 _; by apply transition_heeds].
    apply (sync_heeds KHpa); [done|by apply Hp|by apply Hp|by right|done|done].
  - eapply (goes_on_then (λ _ _, True)); [done| |intros _ t3 T3 R3 _; by apply transition_heeds].
    apply (sync_heeds KScaled); [done|by apply Hp|by apply Hp|left; unfold child; set_solver|done|done].
  - by apply transition_heeds.
  - by apply apply_plan_heeds.
Qed.

Lemma reconcile_heeds `{ErrorText} clock cx s :
  running s → operated (reconcile clock cx model) s (λ _ _, True).
Proof.
  intros Hs. unfold reconcile. apply heeds_attempt. eapply heeds_mono; [done|by apply inner_heeds|].
  intros [action|e] t _ (H1 & H2 & _); [done|]. apply heeds_attempt.
  eapply heeds_mono; [done|apply write_status_heeds; [done|]|done].
  apply condition_honest; [apply condition_honest; [apply old_honest|done]|done].
Qed.
End operate.

(** C13: A reconciliation touches only what its deployment owns, whatever others
    do to the cluster meanwhile.  Every write it asks for is of an object
    under the name and in the namespace of the deployment: a new one where
    none is stored, or a change or a deletion of one that is stored at that
    moment and that the deployment controls; what it leaves is controlled by
    the deployment.  A scaler is written only while nothing else was seen to
    scale the deployment.  A status is written to the version that was
    reconciled, and newly says ready only if all wanted replicas are ready;
    or the server refuses the write.  Services of the serving pool are only
    read. *)
Theorem reconcile_owned `{KA : KubeApi} `{ErrorText} clock cx model s l o :
  running s → talks (reconcile clock cx model) s l o → Forall (heard_granted (operates model)) l.
Proof.
  intros Hs Hrun. eapply (heeds_talks _ _ _ (λ _ _, True)) in Hrun as [Hl _]; [exact Hl|done|].
  by apply reconcile_heeds.
Qed.

(** *** The wait for the garbage collection *)



(** *** Isolation of the runtimes *)

Definition template_labels (d : Deployment) : Labels :=
  default ∅ (spec ← dm_spec d; template ← dp_template spec; template).
(** A selector selects the pods of a deployment. *)
Definition selects (selector : option Labels) (d : Deployment) : Prop := default ∅ selector ⊆ template_labels d.

Lemma desired_labels model cluster region existing d svc :
  desired model cluster region existing = Ok (d, svc) →
  ∃ selector uid, om_uid (md_meta model) = Some uid ∧ selector_of d = Some selector ∧
    match existing ≫= selector_of with Some l => selector = l | None => True end ∧
    template_labels d = <["app.kubernetes.io/part-of" := "xscope"]>
      (<["platform.xscope.io/deployment-uid" := uid]> selector) ∧
    sc_selector svc = Some (template_labels d).
Proof.
  unfold desired. intros (m & Hm & H)%result_bind_Ok. apply validate_meta in Hm as [Hmeta _].
  apply result_bind_Ok in H as (ns & _ & H). apply result_bind_Ok in H as (owner & Ho%ok_or_Ok & H).
  apply unit_bind_Ok in H as [_ [= <- <-]].
  eexists _, (or_uid owner). split; [|split; [done|split; [by destruct (existing ≫= selector_of)|done]]].
  assert (controller_owner_ref model = Some owner) as Hown by (unfold controller_owner_ref in *; by rewrite <- Hmeta).
  by apply controller_owner_ref_Some in Hown as (_ & _ & Hu).
Qed.

(** C38: The service and the pool of a deployment select the pods of its own
    runtime, and of no other runtime: two deployments with different
    identifiers never share a pod, whatever their names, clusters and
    existing selectors are.  The selector of an existing runtime is kept. *)
Theorem runtimes_isolated m1 m2 cluster1 region1 existing1 d1 svc1 cluster2 region2 existing2 d2 svc2 :
  desired m1 cluster1 region1 existing1 = Ok (d1, svc1) → desired m2 cluster2 region2 existing2 = Ok (d2, svc2) →
  om_uid (md_meta m1) ≠ om_uid (md_meta m2) →
  selects (sc_selector svc1) d1 ∧ ¬ selects (sc_selector svc1) d2 ∧
  (∃ pdb pool, desired_optional m1 d1 = Ok (pdb, pool) ∧
     (∀ p, pool = Some p → ip_match_labels (pl_spec p) = template_labels d1) ∧
     (∀ p, pdb = Some p → pb_match_labels p = template_labels d1)) ∧
  (∀ old l, existing1 = Some old → selector_of old = Some l → selector_of d1 = Some l).
Proof.
  intros H1 H2 Hne.
  destruct (desired_labels _ _ _ _ _ _ H1) as (l1 & u1 & U1 & S1 & E1 & T1 & V1).
  destruct (desired_labels _ _ _ _ _ _ H2) as (l2 & u2 & U2 & S2 & E2 & T2 & V2).
  unfold selects. rewrite V1. cbn [default from_option id]. split; [done|]. split.
  { intros Hsub. apply Hne. rewrite U1, U2. f_equal.
    apply (lookup_weaken _ _ "platform.xscope.io/deployment-uid" u1) in Hsub.
    - rewrite T2, lookup_insert_ne, lookup_insert_eq in Hsub by done. by injection Hsub.
    - by rewrite T1, lookup_insert_ne, lookup_insert_eq by done. }
  assert (∃ spec, dm_spec d1 = Some spec ∧ dp_template spec = Some (Some (template_labels d1))) as (spec & Hs & Ht).
  { unfold desired in H1. apply result_bind_Ok in H1 as (m & _ & H1). apply result_bind_Ok in H1 as (ns & _ & H1).
    apply result_bind_Ok in H1 as (owner & _ & H1). apply unit_bind_Ok in H1 as [_ [= <- <-]]. by eexists. }
  split.
  { unfold desired_optional. rewrite Hs. cbn. rewrite Ht. cbn. eexists _, _. split; [done|].
    split; by intros p (x & _ & ->)%fmap_Some. }
  intros old l -> Hold. cbn in E1. rewrite Hold in E1. by rewrite S1, E1.
Qed.
