(* ===== verification/Observe.v ===== *)
(** * Observe: the evidence of readiness and of the end of gateways

    [crates/kubernetes/src/observation.rs], [gateway_proof.rs] and the reader
    of [recommendation.rs]: what the agent of a cluster tells the control
    plane about a managed pool and about a gateway process, and what it looks
    at before it says so. *)

From S2P Require Import Prelude Domain Models Http Store Fleet Routing Clusters Pools Control Kube Agent Operator.
Local Open Scope string_scope.
Local Open Scope Z_scope.

(** ** The recommendation *)

Definition has_condition (kind : string) (l : list (string * string)) : bool :=
  existsb (λ c, str_eqb c.1 kind && str_eqb c.2 "True") l.

Definition scaler_ready (scaled : ScaledObject) : bool :=
  match sd_conditions scaled with
  | Some l => has_condition "Ready" ((λ c, (kc_type c, kc_status c)) <$> l)
  | None => false
  end.
Definition hpa_settled (hpa : Hpa) (replicas : Z) : bool :=
  match hp_status hpa with
  | Some s =>
      (hs_desired_replicas s =? replicas)
      && match hs_conditions s with
         | Some l => forallb (λ name, has_condition name ((λ c, (hc_type c, hc_status c)) <$> l))
                       ["ScalingActive"; "AbleToScale"]
         | None => false
         end
  | None => false
  end.

(** The recommendation counts while our scaler and its autoscaler agree on it. *)
Definition recommendation_agreed (model : ModelDeployment) (row : ModelScale) (scaled : ScaledObject) (hpa : Hpa) : bool :=
  keda_owns_hpa hpa scaled
  && match hp_target hpa with Some t => str_eqb (tr_kind t) (target_kind model) | None => false end
  && hpa_targets_model hpa model && scaler_ready scaled && hpa_settled hpa (mc_replicas row).

(** [recommendation::observe]. *)
Definition observe_recommendation (model : ModelDeployment) (applied : Z) : Talk Error (option ScaleEvidence) :=
  if negb (enabled model) then mret None
  else
    ns ← says (ok_or (om_namespace (md_meta model)) (EInvalid "namespace missing"));
    let name := name_any (md_meta model) in
    row ← fetch EKube KScale ns name;
    says (ensure_owner (mc_meta row) model) ;;
    says (require (bool_decide (Some (mc_model_uid row) = om_uid (md_meta model))) OwnershipConflict) ;;
    scaled ← fetch EKube KScaled ns name;
    says (ensure_owner (sd_meta scaled) model) ;;
    hpa ← fetch EKube KHpa ns (keda_hpa_name model);
    if negb (recommendation_agreed model row scaled hpa) then mret None
    else
      uid ← says (ok_or (om_uid (mc_meta row)) OwnershipConflict);
      version ← says (ok_or (om_resource_version (mc_meta row)) OwnershipConflict);
      mret (Some (mkScaleEvidence uid version (mc_replicas row) applied)).

(** ** Readiness *)

Definition replicas_of (d : Deployment) : option Z := spec ← dm_spec d; dp_replicas spec.

Definition deployment_ready (d : Deployment) (replicas : Z) : bool :=
  (0 <? replicas) && negb (is_some (om_deletion_timestamp (dm_meta d)))
  && bool_decide (replicas_of d = Some replicas)
  && match dm_status d with
     | Some s =>
         (default i64_max (om_generation (dm_meta d)) <=? default 0 (ds_observed_generation s))
         && (replicas <=? default 0 (ds_ready_replicas s)) && (default 0 (ds_updated_replicas s) =? replicas)
         && (replicas <=? default 0 (ds_available_replicas s))
     | None => false
     end.

(** While replicas are added the old ones may go on. *)
Definition managed_ready (d : Deployment) (wanted minimum : Z) : bool :=
  negb (is_some (om_deletion_timestamp (dm_meta d)))
  && match replicas_of d with Some n => (minimum <=? n) && (n <=? wanted) | None => false end
  && match dm_status d with
     | Some s =>
         (default i64_max (om_generation (dm_meta d)) <=? default 0 (ds_observed_generation s))
         && (minimum <=? default 0 (ds_ready_replicas s)) && (minimum <=? default 0 (ds_available_replicas s))
         && (minimum <=? default 0 (ds_updated_replicas s))
     | None => false
     end.

Definition runtime_serves (model : ModelDeployment) (d : Deployment) : bool :=
  if enabled model then
    managed_ready d (sp_replicas (md_spec model))
      (match sp_autoscaling (md_spec model) with Some s => as_min_replicas s | None => 1 end)
  else deployment_ready d (sp_replicas (md_spec model)).

Section observation.
Context `{KubeLibraries}.
Variables (namespace cluster : string) (task : ObservationTask).

Definition no_answer (e : KubeError) : string := "kubernetes_unavailable".
Definition lift {A} (r : result Error A) (code : string) : result string A :=
  match r with Ok a => Ok a | Err _ => Err code end.

(** The deployment that the control plane expects here. *)
Definition same_identity (model : ModelDeployment) (uid : string) : bool :=
  negb (is_some (om_deletion_timestamp (md_meta model))
        || negb (bool_decide (labels (md_meta model) !! OWNER = Some cluster))
        || match ot_expected_uid task with Some expected => negb (str_eqb expected uid) | None => false end
        || match (annotations (md_meta model) !! VERSION) ≫= parse_i64 with
           | Some v => v <? ot_desired_version task
           | None => true
           end).

Definition serving_entry (model : ModelDeployment) : bool :=
  match sp_serving (md_spec model) with Some s => str_eqb (sv_picker_service s) (ot_serving_service task) | None => false end.

(** The deployment and its identifier. *)
Definition identify : Talk string (ModelDeployment * string) :=
  says (require (is_ok (validate_name namespace true) && is_ok (validate_name (ot_deployment task) true)
                 && is_ok (validate_name (ot_serving_service task) true) && managed (ot_pool_id task))
    "identity_mismatch") ;;
  spec ← says (ok_or (spec_of_json (ot_expected_spec task)) "spec_drift");
  expected ← says (lift (validate (mkModel (mkMeta (Some (ot_deployment task)) None (Some namespace)
    None None None None None None None None None None) spec None)) "spec_drift");
  model ← fetch no_answer KModel namespace (ot_deployment task);
  uid ← says (ok_or (om_uid (md_meta model)) "identity_mismatch");
  says (require (same_identity model uid) "identity_mismatch") ;;
  says (require (json_eqb (spec_json (md_spec model)) (spec_json (md_spec expected))) "spec_drift") ;;
  says (require (serving_entry model) "identity_mismatch") ;;
  mret (model, uid).

Definition runtime_of (model : ModelDeployment) : Talk string Deployment :=
  runtime ← fetch no_answer KDeployment namespace (ot_deployment task);
  says (lift (ensure_owner (dm_meta runtime) model) "identity_mismatch") ;;
  mret runtime.

(** The marks of an entry that only the gateways may use. *)
Definition entry_marked (entry : Service) : bool :=
  ((ot_traffic_protocol task <? 2)
   || bool_decide (annotations (sc_meta entry) !! "platform.xscope.io/traffic-protocol" = Some "v2"))
  && bool_decide (annotations (sc_meta entry) !! "platform.xscope.io/managed-only" = Some "true").

(** The entry selects the pods of the serving deployment. *)
Definition entry_selects (entry : Service) (serving_labels : Labels) : bool :=
  match sc_selector entry with
  | Some selector =>
      negb (bool_decide (selector = ∅))
      && forallb (λ e : string * string, bool_decide (serving_labels !! e.1 = Some e.2)) (map_to_list selector)
  | None => false
  end.

(** The serving entry and the pool. *)
Definition serving_ready (model : ModelDeployment) (runtime : Deployment) : Talk string unit :=
  says (require (runtime_serves model runtime) "not_ready") ;;
  entry ← fetch no_answer KService namespace (ot_serving_service task);
  says (lift (validate_picker (Some entry) model) "identity_mismatch") ;;
  says (require (entry_marked entry) "identity_mismatch") ;;
  serving ← fetch no_answer KDeployment namespace (ot_serving_service task);
  says (require (deployment_ready serving (default 0 (replicas_of serving))) "not_ready") ;;
  serving_labels ← says (ok_or (spec ← dm_spec serving; template ← dp_template spec; template) "identity_mismatch");
  says (require (entry_selects entry serving_labels) "identity_mismatch") ;;
  actual ← fetch no_answer KPool namespace (ot_deployment task);
  says (lift (ensure_owner (pl_meta actual) model) "identity_mismatch") ;;
  wanted ← says (lift (desired_optional model runtime) "spec_drift");
  wanted ← says (ok_or wanted.2 "spec_drift");
  says (require (bool_decide (pl_spec actual = pl_spec wanted)) "spec_drift") ;;
  current ← fetch no_answer KModel namespace (ot_deployment task);
  says (require (bool_decide (om_resource_version (md_meta current) = om_resource_version (md_meta model))) "spec_drift").

Definition observation (uid : option string) (applied : Z) (scaling : option ScaleEvidence) (ready : bool)
    (code : string) : PoolObservation :=
  mkObservation (ot_idle_after task) applied scaling false (ot_pool_id task) (ot_generation task) (ot_nonce task)
    uid ready code.

(** A report is kept as far as it got. *)
Definition observe : Talk string PoolObservation :=
  who ← attempt identify;
  match who with
  | Err code => mret (observation None (-1) None false code)
  | Ok (model, uid) =>
      runtime ← attempt (runtime_of model);
      match runtime with
      | Err code => mret (observation (Some uid) (-1) None false code)
      | Ok runtime =>
          let applied := default (-1) (status ← dm_status runtime; ds_replicas status) in
          scaling ← attempt (observe_recommendation model applied);
          let scaling := match scaling with Ok o => o | Err _ => None end in
          verdict ← attempt (serving_ready model runtime);
          match verdict with
          | Ok _ => mret (observation (Some uid) applied scaling true "ok")
          | Err code => mret (observation (Some uid) applied scaling false code)
          end
      end
  end.
End observation.

(** ** The proofs of gateways *)

Definition FINALIZER : string := "platform.xscope.io/gateway-evidence".

(** The text of a query for the end of the work of a serving entry; the time
    of the fence is read by a library, to the second. *)
Definition idle_query (fence_second : string → option Z) (namespace service after : string) : result string string :=
  lift (validate_name namespace true) "invalid namespace" ;;
  lift (validate_name service true) "invalid service" ;;
  fence ← ok_or (fence_second after) "invalid fence time";
  let labels := "job=" +:+ quoted "envoy" +:+ ",namespace=" +:+ quoted namespace +:+ ",service=" +:+ quoted service in
  let active := "envoy_http_downstream_rq_active{" +:+ labels +:+ ",envoy_http_conn_manager_prefix=" +:+ quoted "serving" +:+ "}" in
  let up := "up{" +:+ labels +:+ "}" in
  Ok ("(sum(" +:+ active +:+ ") == 0) and on() (min(" +:+ up +:+ ") == 1) and on() (count(" +:+ active
      +:+ ") == count(" +:+ up +:+ ")) and on() (min(timestamp(" +:+ active +:+ ")) > "
      +:+ print_i64 (Z.min i64_max (fence + 1)) +:+ ") and on() (time() - min(timestamp(" +:+ up +:+ ")) < 30)").

(** The answer of the metrics server says that nothing is active. *)
Definition answers_idle (value : Json) : bool :=
  json_eqb (json_get "status" value) (JStr "success")
  && json_eqb (json_path "data" "resultType" value) (JStr "vector")
  && match json_path "data" "result" value with
     | JArr [sample] =>
         match json_get "value" sample with
         | JArr (_ :: v :: _) => json_eqb v (JStr "0")
         | _ => false
         end
     | _ => false
     end.

Class ProofLibraries := { ip_addr : string → bool }.

Section proof.
Context `{ProofLibraries}.
Variables (now : Z) (namespace : string) (task : GatewayProofTask).

Definition fresh_node (node : Node) (lease : Lease) : bool :=
  match nd_conditions node with Some l => has_condition "Ready" l | None => false end
  && existsb (λ r, str_eqb (or_kind r) "Node" && bool_decide (Some (or_uid r) = om_uid (nd_meta node)))
       (owner_references (le_meta lease))
  && match le_renew_time lease with Some t => (-5 <=? now - t) && (now - t <=? 30) | None => false end.

Definition gateway_pod (pod : Pod) : bool :=
  bool_decide (om_uid (po_meta pod) = Some (gi_pod_uid (pt_identity task)))
  && (bool_decide (labels (po_meta pod) !! "app.kubernetes.io/name" = Some "gateway")
      || bool_decide (labels (po_meta pod) !! "app.kubernetes.io/component" = Some "api-gateway")).

Definition has_finalizer (pod : Pod) : bool := str_in FINALIZER (finalizers (po_meta pod)).
Definition gateway_status (pod : Pod) : option ContainerStatus :=
  status ← po_status pod; l ← ps_containers status;
  List.find (λ c, str_eqb (ct_name c) "gateway") l.

(** The two terminations that a kubelet remembers. *)
Definition terminated_as (status : ContainerStatus) (container : string) : bool :=
  bool_decide (ct_terminated status = Some (Some container))
  || bool_decide (ct_last_terminated status = Some (Some container)).

Definition gateway_port (pod : Pod) : option Z :=
  spec ← po_spec pod;
  c ← List.find (λ c, str_eqb (co_name c) "gateway") (px_containers spec);
  ports ← co_ports c;
  p ← List.find (λ p : option string * Z, bool_decide (p.1 = Some "http")) ports;
  if (0 <=? p.2) && (p.2 <=? 65535) then Some p.2 else None.

Definition gateway_ip (pod : Pod) : option string :=
  status ← po_status pod; ip ← ps_pod_ip status; if ip_addr ip then Some ip else None.

Definition still_running (pod current : Pod) (container : string) : bool :=
  bool_decide (om_uid (po_meta current) = om_uid (po_meta pod))
  && negb (is_some (om_deletion_timestamp (po_meta current)))
  && match status ← po_status current; ps_containers status with
     | Some l => existsb (λ c, str_eqb (ct_name c) "gateway" && bool_decide (ct_container_id c = Some container)
                               && ct_running c) l
     | None => false
     end.

Definition silent (e : KubeError) : unit := ().
Definition refuse {A} : Talk unit A := says (Err ()).
Definition that (b : bool) : Talk unit unit := says (require b ()).

Definition patch_finalizers (pod : Pod) (l : list string) : Talk unit Pod :=
  ask silent (PatchFinalizers namespace (name_any (po_meta pod)) (om_uid (po_meta pod))
    (om_resource_version (po_meta pod)) l).

(** The finalizer of a closed session is released. *)
Definition clean (pod : Pod) : Talk unit unit :=
  that (negb (negb (is_some (om_deletion_timestamp (po_meta pod))) && has_finalizer pod)) ;;
  if has_finalizer pod then
    _ ← patch_finalizers pod (filter (λ f, f ≠ FINALIZER) (finalizers (po_meta pod))); mret tt
  else mret tt.

(** A process that answers under the session is bound to it. *)
Definition bind (pod : Pod) (node_name node_uid container : string) : Talk unit (string * option GatewayRuntime) :=
  pod ← (if has_finalizer pod then mret pod
         else patch_finalizers pod (finalizers (po_meta pod) ++ [FINALIZER])%list);
  ip ← says (ok_or (gateway_ip pod) ());
  port ← says (ok_or (gateway_port pod) ());
  value ← ask silent (Health ip port);
  if negb (json_eqb (json_get "session_id" value) (JStr (pt_session_id task))) then mret ("unbound", None)
  else
    current ← fetch silent KPod namespace (name_any (po_meta pod));
    that (still_running pod current container) ;;
    mret ("bound", Some (mkRuntime container node_name node_uid)).

Definition inspect_pod (pod : Pod) : Talk unit (string * option GatewayRuntime) :=
  node_name ← says (ok_or (spec ← po_spec pod; px_node_name spec) ());
  node ← fetch silent KNode "" node_name;
  lease ← fetch silent KLease "kube-node-lease" node_name;
  that (fresh_node node lease) ;;
  node_uid ← says (ok_or (om_uid (nd_meta node)) ());
  status ← says (ok_or (gateway_status pod) ());
  match pt_runtime task with
  | Some runtime =>
      that (str_eqb (gr_node runtime) node_name && str_eqb (gr_node_uid runtime) node_uid) ;;
      mret (if terminated_as status (gr_container_id runtime) then "terminated" else "unknown", Some runtime)
  | None =>
      if is_some (om_deletion_timestamp (po_meta pod)) then mret ("unbound", None)
      else
        that (ct_running status) ;;
        container ← says (ok_or (ct_container_id status) ());
        bind pod node_name node_uid container
  end.

Definition inspect : Talk unit (string * option GatewayRuntime) :=
  that (str_eqb (gi_namespace (pt_identity task)) namespace && is_ok (validate_name (gi_pod (pt_identity task)) true)) ;;
  pod ← ask silent (Get KPod namespace (gi_pod (pt_identity task)));
  match pod with
  | None =>
      mret (if pt_closed task then "cleaned" else if is_some (pt_runtime task) then "unknown" else "unbound",
            pt_runtime task)
  | Some pod =>
      that (gateway_pod pod) ;;
      if pt_closed task then
        (if pt_release_finalizer task then clean pod else mret tt) ;;
        mret ("cleaned", pt_runtime task)
      else inspect_pod pod
  end.

(** [gateway_proof::observe]. *)
Definition prove : Talk unit GatewayProof :=
  answer ← attempt inspect;
  mret (match answer with
        | Ok (outcome, runtime) => mkProof (pt_session_id task) (pt_nonce task) outcome runtime
        | Err _ => mkProof (pt_session_id task) (pt_nonce task) "unknown" (pt_runtime task)
        end).
End proof.

(** ** What a report of readiness says *)

Section evidence.
Context `{KA : KubeApi} `{KL : KubeLibraries}.
Variables (namespace cluster : string) (task : ObservationTask).

Definition only_reads A (c : call A) (s t : Kube) (b : result KubeError A) : Prop := reading c.

(** Stored at a moment between two others. *)
Definition between (s t : Kube) (k : Kind) (ns name : string) (o : object k) : Prop :=
  ∃ u, since s u ∧ since u t ∧ stored u k ns name = Some o.

(** The expected deployment, under the identity of the cluster. *)
Record identified (model : ModelDeployment) (uid : string) : Prop := {
  id_uid : om_uid (md_meta model) = Some uid;
  id_alive : om_deletion_timestamp (md_meta model) = None;
  id_cluster : labels (md_meta model) !! OWNER = Some cluster;
  id_expected expected : ot_expected_uid task = Some expected → expected = uid;
  id_version : ∃ v, annotations (md_meta model) !! VERSION ≫= parse_i64 = Some v ∧ ot_desired_version task ≤ v;
  id_spec : ∃ spec expected, spec_of_json (ot_expected_spec task) = Some spec ∧
    validate (mkModel (mkMeta (Some (ot_deployment task)) None (Some namespace)
      None None None None None None None None None None) spec None) = Ok expected ∧
    json_eqb (spec_json (md_spec model)) (spec_json (md_spec expected)) = true;
  id_serving : ∃ entry, sp_serving (md_spec model) = Some entry ∧ sv_picker_service entry = ot_serving_service task }.

(** What the controller of a deployment says is of its present generation. *)
Definition current_status (d : Deployment) (st : DeploymentStatus) : Prop :=
  dm_status d = Some st ∧ om_deletion_timestamp (dm_meta d) = None ∧
  default i64_max (om_generation (dm_meta d)) ≤ default 0 (ds_observed_generation st).
(** All the [n] replicas it wants are new, ready and available. *)
Definition all_ready (d : Deployment) (n : Z) : Prop :=
  0 < n ∧ replicas_of d = Some n ∧ ∃ st, current_status d st ∧ n ≤ default 0 (ds_ready_replicas st) ∧
    default 0 (ds_updated_replicas st) = n ∧ n ≤ default 0 (ds_available_replicas st).
(** At least [minimum] are, while it grows up to [wanted]. *)
Definition enough_ready (d : Deployment) (wanted minimum : Z) : Prop :=
  (∃ n, replicas_of d = Some n ∧ minimum ≤ n ≤ wanted) ∧ ∃ st, current_status d st ∧
    minimum ≤ default 0 (ds_ready_replicas st) ∧ minimum ≤ default 0 (ds_updated_replicas st) ∧
    minimum ≤ default 0 (ds_available_replicas st).
Definition runtime_up (model : ModelDeployment) (d : Deployment) : Prop :=
  if enabled model then enough_ready d (sp_replicas (md_spec model))
    (match sp_autoscaling (md_spec model) with Some s => as_min_replicas s | None => 1 end)
  else all_ready d (sp_replicas (md_spec model)).

(** The autoscaler of our scaler works, and wants what was recommended. *)
Record agreed (model : ModelDeployment) (row : ModelScale) (scaled : ScaledObject) (hpa : Hpa) : Prop := {
  ag_made : made_for hpa scaled;
  ag_target : ∃ x, hp_target hpa = Some x ∧ aims model x ∧ tr_kind x = target_kind model;
  ag_scaler : ∃ l c, sd_conditions scaled = Some l ∧ c ∈ l ∧ kc_type c = "Ready" ∧ kc_status c = "True";
  ag_wanted : ∃ st l, hp_status hpa = Some st ∧ hs_desired_replicas st = mc_replicas row ∧
    hs_conditions st = Some l ∧
    ∀ kind, kind ∈ ["ScalingActive"; "AbleToScale"] → ∃ c, c ∈ l ∧ hc_type c = kind ∧ hc_status c = "True" }.

(** A recommendation on which our scaler and its autoscaler agree. *)
Definition recommended (s t : Kube) (model : ModelDeployment) (applied : Z) (e : ScaleEvidence) : Prop :=
  ∃ ns row scaled hpa, om_namespace (md_meta model) = Some ns ∧ enabled model = true ∧
    between s t KScale ns (name_any (md_meta model)) row ∧ between s t KScaled ns (name_any (md_meta model)) scaled ∧
    between s t KHpa ns (keda_hpa_name model) hpa ∧
    controls model (mc_meta row) ∧ Some (mc_model_uid row) = om_uid (md_meta model) ∧
    controls model (sd_meta scaled) ∧ agreed model row scaled hpa ∧
    om_uid (mc_meta row) = Some (sv_uid e) ∧ om_resource_version (mc_meta row) = Some (sv_resource_version e) ∧
    sv_replicas e = mc_replicas row ∧ sv_applied_replicas e = applied.

(** An entry that only gateways use, to the pods of [d] alone. *)
Record entry_of (entry : Service) (d : Deployment) : Prop := {
  en_managed : annotations (sc_meta entry) !! "platform.xscope.io/managed-only" = Some "true";
  en_protocol : 2 ≤ ot_traffic_protocol task →
    annotations (sc_meta entry) !! "platform.xscope.io/traffic-protocol" = Some "v2";
  en_selects : ∃ selector, sc_selector entry = Some selector ∧ selector ≠ ∅ ∧ selector ⊆ template_labels d }.

(** The runtime, the serving entry and the pool, while the deployment stays as it is. *)
Definition serving (s t : Kube) (model : ModelDeployment) (runtime : Deployment) : Prop :=
  runtime_up model runtime ∧
  (∃ entry d, between s t KService namespace (ot_serving_service task) entry ∧
     between s t KDeployment namespace (ot_serving_service task) d ∧
     validate_picker (Some entry) model = Ok tt ∧ entry_of entry d ∧ ∃ n, all_ready d n) ∧
  (∃ pool wanted, between s t KPool namespace (ot_deployment task) pool ∧ controls model (pl_meta pool) ∧
     (∃ pdb, desired_optional model runtime = Ok (pdb, Some wanted)) ∧ pl_spec pool = pl_spec wanted) ∧
  stored t KModel namespace (ot_deployment task) = Some model.

Lemma same_identity_spec model uid : same_identity cluster task model uid = true →
  om_deletion_timestamp (md_meta model) = None ∧ labels (md_meta model) !! OWNER = Some cluster ∧
  (∀ expected, ot_expected_uid task = Some expected → expected = uid) ∧
  ∃ v, annotations (md_meta model) !! VERSION ≫= parse_i64 = Some v ∧ ot_desired_version task ≤ v.
Proof.
  intros (((Hdel & Hc%negb_false_iff%bool_decide_eq_true)%orb_false_iff & He)%orb_false_iff & Hv)%negb_true_iff%orb_false_iff.
  split_and!; [by destruct (om_deletion_timestamp _)|done| |].
  - intros e Hx. rewrite Hx in He. by apply negb_false_iff, str_eqb_eq in He.
  - destruct (_ ≫= parse_i64) as [v|]; [|done]. exists v. split; [done|]. by apply Z.ltb_ge.
Qed.

Lemma serving_entry_spec model : serving_entry task model = true →
  ∃ entry, sp_serving (md_spec model) = Some entry ∧ sv_picker_service entry = ot_serving_service task.
Proof.
  unfold serving_entry. destruct (sp_serving _) as [entry|]; [|done]. intros ?%str_eqb_eq. by exists entry.
Qed.

Lemma deployment_ready_spec d n : deployment_ready d n = true → all_ready d n.
Proof.
  unfold deployment_ready, all_ready, current_status. destruct (dm_status d) as [st|]; [|by rewrite andb_false_r].
  rewrite !andb_true_iff, bool_decide_eq_true, Z.ltb_lt, !Z.leb_le, Z.eqb_eq.
  destruct (om_deletion_timestamp _); cbn; [naive_solver|]. intros H. split_and!; [apply H..|]. exists st. naive_solver.
Qed.

Lemma managed_ready_spec d wanted minimum : managed_ready d wanted minimum = true → enough_ready d wanted minimum.
Proof.
  unfold managed_ready, enough_ready, current_status. destruct (dm_status d) as [st|]; [|by rewrite andb_false_r].
  destruct (replicas_of d) as [n|]; [|by rewrite andb_false_r].
  rewrite !andb_true_iff, !Z.leb_le. destruct (om_deletion_timestamp _); cbn; [naive_solver|].
  intros H. split; [exists n|exists st]; naive_solver.
Qed.

Lemma runtime_serves_spec model d : runtime_serves model d = true → runtime_up model d.
Proof.
  unfold runtime_serves, runtime_up. destruct (enabled model); [apply managed_ready_spec|apply deployment_ready_spec].
Qed.

Lemma has_condition_spec kind l : has_condition kind l = true ↔ (kind, "True") ∈ l.
Proof.
  unfold has_condition. rewrite existsb_exists. split.
  - intros ([a b] & H%list_elem_of_In & [H1 H2]%andb_true_iff). apply str_eqb_eq in H1, H2. cbn in H1, H2. by subst.
  - intros H. exists (kind, "True"). split; [by apply list_elem_of_In|]. cbn. by rewrite !str_eqb_refl.
Qed.

Lemma recommendation_agreed_spec model row scaled hpa :
  recommendation_agreed model row scaled hpa = true → agreed model row scaled hpa.
Proof.
  intros ((((Hm%keda_made_for & Hk)%andb_true_iff & Ht%hpa_targets_aims)%andb_true_iff & Hs)%andb_true_iff
    & Hh)%andb_true_iff.
  destruct Ht as (x & Hx & Ha). rewrite Hx in Hk. apply str_eqb_eq in Hk. split; [done|by exists x| |].
  - unfold scaler_ready in Hs. destruct (sd_conditions scaled) as [l|]; [|done].
    apply has_condition_spec, list_elem_of_fmap in Hs as (c & [= Ht Hv] & Hc). by exists l, c.
  - unfold hpa_settled in Hh. destruct (hp_status hpa) as [st|]; [|done].
    apply andb_true_iff in Hh as [Hw%Z.eqb_eq Hl]. destruct (hs_conditions st) as [l|] eqn:El; [|done].
    exists st, l. split_and!; [done..|]. intros kind Hkind. rewrite forallb_forall in Hl.
    specialize (Hl kind (proj1 (list_elem_of_In _ _) Hkind)).
    apply has_condition_spec, list_elem_of_fmap in Hl as (c & [= Ht Hv] & Hc). by exists c.
Qed.

Lemma entry_spec entry d ls : (spec ← dm_spec d; template ← dp_template spec; template) = Some ls →
  entry_marked task entry = true → entry_selects entry ls = true → entry_of entry d.
Proof.
  intros Hls (Hp & Hm%bool_decide_eq_true)%andb_true_iff Hs. split; [done| |].
  - intros H2. apply orb_true_iff in Hp as [Hp%Z.ltb_lt|Hp%bool_decide_eq_true]; [lia|done].
  - unfold entry_selects in Hs. destruct (sc_selector entry) as [selector|]; [|done].
    apply andb_true_iff in Hs as [Hne%negb_true_iff%bool_decide_eq_false Hall]. exists selector. split_and!; [done..|].
    apply map_subseteq_spec. intros i x Hi. rewrite forallb_forall in Hall. unfold template_labels. rewrite Hls.
    specialize (Hall (i, x)). rewrite bool_decide_eq_true in Hall. apply Hall.
    by apply list_elem_of_In, elem_of_map_to_list.
Qed.

Lemma between_mono s s1 t t1 k ns name o : since s s1 → since t1 t → between s1 t1 k ns name o → between s t k ns name o.
Proof. intros H1 H2 (u & H3 & H4 & H5). exists u. split_and!; [by eapply since_trans..|done]. Qed.
Lemma between_at s u t k ns name o : since s u → since u t → stored u k ns name = Some o → between s t k ns name o.
Proof. intros H1 H2 H3. by exists u. Qed.

(** A program that only reads, and ends with [P] or a code. *)
Definition tells {A} (P : A → Kube → Prop) (s : Kube) (r : result string A) (t : Kube) : Prop :=
  since s t ∧ running t ∧
  match r with Ok a => P a t | Err code => code ∈ observation_codes ∧ code ≠ "ok" end.
Abbreviation reads_then := (heeds only_reads).

Lemma tells_err {A} (P : A → Kube → Prop) s t code :
  since s t → running t → bool_decide (code ∈ observation_codes ∧ code ≠ "ok") = true → tells P s (Err code) t.
Proof. intros H1 H2 H3%bool_decide_eq_true. by split. Qed.

Lemma lifted_Ok {A} (r : result Error A) code a : lift r code = Ok a → r = Ok a.
Proof. destruct r; [by intros [= <-]|done]. Qed.
Lemma lift_Err {A} (r : result Error A) code e : lift r code = Err e → e = code.
Proof. destruct r; [done|by intros [= <-]]. Qed.

Lemma says_tells {A B} (P : B → Kube → Prop) (r : result string A) (k : A → Talk string B) s0 s code :
  since s0 s → running s → (∀ e, r = Err e → e = code) → bool_decide (code ∈ observation_codes ∧ code ≠ "ok") = true →
  (∀ a, r = Ok a → reads_then (k a) s (tells P s0)) → reads_then (says r ≫= k) s (tells P s0).
Proof.
  intros H1 H2 Hcode Hb Hk. apply heeds_says_then; [exact Hk|]. intros e He. rewrite (Hcode e He). by apply tells_err.
Qed.
Lemma require_code (b : bool) (code e : string) : require b code = Err e → e = code.
Proof. by intros [_ ->]%require_Err. Qed.
Lemma ok_or_code {A} (o : option A) (code e : string) : ok_or o code = Err e → e = code.
Proof. by intros [_ ->]%ok_or_Err. Qed.

Lemma fetch_tells {B} (P : B → Kube → Prop) k ns name (cont : object k → Talk string B) s0 s :
  since s0 s → running s →
  (∀ t o, since s t → since s0 t → running t → stored t k ns name = Some o → reads_then (cont o) t (tells P s0)) →
  reads_then (fetch no_answer k ns name ≫= cont) s (tells P s0).
Proof.
  intros H0 Hs Hk. apply heeds_fetch_then; [done|done| |].
  - intros t o Ht Hst Ho. apply Hk; [done|by eapply since_trans|done|done].
  - intros t e Ht Hst. by apply tells_err; [eapply since_trans| |].
Qed.

Lemma identify_heeds s : running s →
  reads_then (identify namespace cluster task) s
    (tells (λ w t, ∃ u, since s u ∧ since u t ∧ stored u KModel namespace (ot_deployment task) = Some w.1 ∧
      running u ∧ identified w.1 w.2) s).
Proof.
  intros Hs. unfold identify. pose proof (since_refl s Hs) as S0.
  eapply says_tells; [done|done|apply require_code|done|]. intros _ _.
  eapply says_tells; [done|done|apply ok_or_code|done|]. intros spec Hspec%ok_or_Ok.
  eapply says_tells; [done|done|apply lift_Err|done|]. intros expected Hexp%lifted_Ok.
  apply fetch_tells; [done|done|]. intros t model T _ R Hm.
  eapply says_tells; [done|done|apply ok_or_code|done|]. intros uid Huid%ok_or_Ok.
  eapply says_tells; [done|done|apply require_code|done|]. intros _ Hsame%require_Ok.
  eapply says_tells; [done|done|apply require_code|done|]. intros _ Heq%require_Ok.
  eapply says_tells; [done|done|apply require_code|done|]. intros _ Hserv%require_Ok.
  split; [done|]. split; [done|]. exists t. split_and!; [done|by apply since_refl|done|done|].
  apply same_identity_spec in Hsame as (A & B & C & D).
  split; [done..|by exists spec, expected|by apply serving_entry_spec].
Qed.

Lemma runtime_heeds model s : running s →
  reads_then (runtime_of namespace task model) s
    (tells (λ d t, between s t KDeployment namespace (ot_deployment task) d ∧ controls model (dm_meta d)) s).
Proof.
  intros Hs. unfold runtime_of. apply fetch_tells; [by apply since_refl|done|]. intros t d T _ R Hd.
  eapply says_tells; [done|done|apply lift_Err|done|]. intros _ Ho%lifted_Ok%ensure_owner_Ok.
  split; [done|]. split; [done|]. split; [|done]. eapply between_at; [exact T|by apply since_refl|exact Hd].
Qed.

Lemma recommendation_reads model applied s : running s →
  reads_then (observe_recommendation model applied) s (λ r t, since s t ∧ running t ∧
    match r with Ok (Some e) => recommended s t model applied e | _ => True end).
Proof.
  intros Hs. unfold observe_recommendation. destruct (enabled model) eqn:He; cbn [negb].
  2:{ split; [by apply since_refl|done]. }
  assert (∀ t, since s t → running t → since s t ∧ running t ∧ True) as Herr by done.
  apply heeds_says_then; [intros ns Hns%ok_or_Ok|intros e _; by apply Herr; [apply since_refl|]].
  apply heeds_fetch_then; [done|done| |done]. intros t1 row T1 R1 Hrow.
  apply heeds_says_then; [intros _ Ho%ensure_owner_Ok|intros e _; by apply Herr].
  apply heeds_says_then; [intros _ Hu%require_Ok%bool_decide_eq_true|intros e _; by apply Herr].
  apply heeds_fetch_then; [done|done| |intros; by apply Herr; [eapply since_trans|]]. intros t2 scaled T2 R2 Hsc.
  assert (since s t2) as S2 by by eapply since_trans.
  apply heeds_says_then; [intros _ Hos%ensure_owner_Ok|intros e _; by apply Herr].
  apply heeds_fetch_then; [done|done| |intros; by apply Herr; [eapply since_trans|]]. intros t3 hpa T3 R3 Hh.
  assert (since s t3) as S3 by by eapply since_trans.
  destruct (recommendation_agreed model row scaled hpa) eqn:Ha; cbn [negb]; [|by split].
  apply heeds_says_then; [intros uid Huid%ok_or_Ok|intros e _; by apply Herr].
  apply heeds_says_then; [intros v Hv%ok_or_Ok|intros e _; by apply Herr].
  apply recommendation_agreed_spec in Ha.
  split; [done|]. split; [done|]. exists ns, row, scaled, hpa. split_and!; try done.
  - eapply between_at; [exact T1|by eapply since_trans|exact Hrow].
  - eapply between_at; [exact S2|exact T3|exact Hsc].
  - eapply between_at; [exact S3|by apply since_refl|exact Hh].
Qed.

Lemma serving_heeds model runtime u s :
  running s → running u → since u s → stored u KModel namespace (ot_deployment task) = Some model →
  reads_then (serving_ready namespace task model runtime) s (tells (λ _ t, serving s t model runtime) s).
Proof.
  intros Hs Hu Hus Hm. unfold serving_ready. pose proof (since_refl s Hs) as S0.
  eapply says_tells; [done|done|apply require_code|done|]. intros _ Hrun%require_Ok.
  apply fetch_tells; [done|done|]. intros t1 entry T1 S1 R1 Hentry.
  eapply says_tells; [done|done|apply lift_Err|done|]. intros [] Hpicker%lifted_Ok.
  eapply says_tells; [done|done|apply require_code|done|]. intros _ Hmarked%require_Ok.
  apply fetch_tells; [done|done|]. intros t2 d T2 S2 R2 Hd.
  eapply says_tells; [done|done|apply require_code|done|]. intros _ Hready%require_Ok.
  eapply says_tells; [done|done|apply ok_or_code|done|]. intros ls Hls%ok_or_Ok.
  eapply says_tells; [done|done|apply require_code|done|]. intros _ Hsel%require_Ok.
  apply fetch_tells; [done|done|]. intros t3 pool T3 S3 R3 Hpool.
  eapply says_tells; [done|done|apply lift_Err|done|]. intros _ Hown%lifted_Ok%ensure_owner_Ok.
  eapply says_tells; [done|done|apply lift_Err|done|]. intros [pdb wanted'] Hopt%lifted_Ok.
  eapply says_tells; [done|done|apply ok_or_code|done|]. intros wanted Hw%ok_or_Ok. cbn in Hw. subst wanted'.
  eapply says_tells; [done|done|apply require_code|done|]. intros _ Hspec%require_Ok%bool_decide_eq_true.
  apply fetch_tells; [done|done|]. intros t4 current T4 S4 R4 Hcur. unfold says.
  destruct (require _ "spec_drift") as [[]|code] eqn:Hv; [|by apply tells_err; [| |rewrite (require_code _ _ _ Hv)]].
  apply require_Ok, bool_decide_eq_true in Hv. split; [done|]. split; [done|].
  assert (since u t4) as U4 by by eapply since_trans.
  pose proof (since_version _ _ _ _ _ _ _ U4 Hm Hcur Hv) as ->.
  split; [by apply runtime_serves_spec|]. split; [|split].
  - exists entry, d. split_and!; try done.
    + eapply between_at; [exact S1| |exact Hentry]. eapply since_trans; [exact T2|]. by eapply since_trans.
    + eapply between_at; [exact S2| |exact Hd]. by eapply since_trans.
    + by eapply entry_spec.
    + eexists. by apply deployment_ready_spec.
  - exists pool, wanted. split; [by eapply between_at; [exact S3|exact T4|exact Hpool]|].
    split; [done|]. split; [by exists pdb|done].
  - done.
Qed.

(** The report of [s] to [t]. *)
Definition reported_truly (s t : Kube) (report : PoolObservation) : Prop :=
  po_pool_id report = ot_pool_id task ∧ po_generation report = ot_generation task ∧ po_nonce report = ot_nonce task ∧
  po_idle_after report = ot_idle_after task ∧ po_idle report = false ∧
  ((∀ uid, po_deployment_uid report = Some uid → bad_uid uid = false) → observation_ok report = true) ∧
  match po_deployment_uid report with
    | Some uid => ∃ model u, since s u ∧ since u t ∧ stored u KModel namespace (ot_deployment task) = Some model ∧
        identified model uid ∧
        (∀ e, po_scaling report = Some e → recommended u t model (po_applied_replicas report) e) ∧
        (po_ready report = true → ∃ v runtime, since u v ∧ since v t ∧
           between u v KDeployment namespace (ot_deployment task) runtime ∧ controls model (dm_meta runtime) ∧
           po_applied_replicas report = default (-1) (status ← dm_status runtime; ds_replicas status) ∧
           serving u v model runtime)
    | None => po_ready report = false ∧ po_scaling report = None
    end.

Lemma observation_shape uid applied scaling ready code :
  code ∈ observation_codes → ready = str_eqb code "ok" → (ready = true → is_some uid = true) →
  (∀ x, uid = Some x → bad_uid x = false) →
  observation_ok (observation task uid applied scaling ready code) = true.
Proof.
  intros Hc Hr Hu Hbad. unfold observation_ok, observation. cbn [po_code po_ready po_deployment_uid]. apply str_in_elem in Hc as ->. rewrite <- Hr, Bool.eqb_reflx. cbn.
  destruct uid as [x|]; [rewrite (Hbad x eq_refl); cbn; by rewrite andb_false_r|]. by destruct ready; [discriminate Hu|].
Qed.

Lemma serving_mono s s1 t model runtime : since s s1 → serving s1 t model runtime → serving s t model runtime.
Proof.
  intros H1 (A & (entry & d & B1 & B2 & B) & (pool & wanted & C1 & C) & D). split; [done|].
  assert (∀ k ns name o, between s1 t k ns name o → between s t k ns name o) as Hb.
  { intros k ns name o (w & W1 & W2 & W3). exists w. split_and!; [by eapply since_trans|done|done]. }
  split; [exists entry, d; split; [by apply Hb|]; split; [by apply Hb|done]|].
  split; [exists pool, wanted; split; [by apply Hb|done]|done].
Qed.
Lemma recommended_mono s s1 t t1 model applied e : since s s1 → since t1 t →
  recommended s1 t1 model applied e → recommended s t model applied e.
Proof.
  intros H1 H2 (ns & row & scaled & hpa & A & B & C1 & C2 & C3 & D). exists ns, row, scaled, hpa.
  split; [done|]. split; [done|]. split_and!; try (by eapply between_mono); apply D.
Qed.

Lemma observe_heeds s : running s →
  reads_then (observe namespace cluster task) s (λ r t, since s t ∧ match r with
    | Ok report => reported_truly s t report | Err _ => False end).
Proof.
  intros Hs. unfold observe. apply heeds_attempt. eapply heeds_mono; [done|by apply identify_heeds|].
  intros [[model uid]|code] t1 _ (T1 & R1 & H1).
  2:{ destruct H1 as [Hc Hne]. split; [done|]. do 5 (split; [done|]). split; [|done].
      intros Hu. apply observation_shape; [done| |done|done]. symmetry. by apply str_eqb_neq. }
  destruct H1 as (u & U1 & U2 & Hm & Ru & Hid). cbn [fst snd] in *.
  apply heeds_attempt. eapply heeds_mono; [done|by apply (runtime_heeds model)|].
  intros [runtime|code] t2 _ (T2 & R2 & H2); assert (since s t2) as S2 by (eapply since_trans; [exact T1|exact T2]).
  2:{ destruct H2 as [Hc Hne]. split; [done|]. do 5 (split; [done|]). split.
      - intros Hu. apply observation_shape; [done| |done|done]. symmetry. by apply str_eqb_neq.
      - exists model, u. split_and!; [done|by eapply since_trans|done|done|done|done]. }
  destruct H2 as [Hbetween Hown]. set (applied := default (-1) _).
  apply heeds_attempt. eapply heeds_mono; [done|by apply (recommendation_reads model applied)|].
  intros scaling t3 _ (T3 & R3 & H3). assert (since s t3) as S3 by (eapply since_trans; [exact S2|exact T3]).
  assert (since u t2) as V2 by (eapply since_trans; [exact U2|exact T2]).
  assert (since u t3) as U3 by (eapply since_trans; [exact V2|exact T3]).
  set (rec := match scaling with Ok o => o | Err _ => None end).
  assert (∀ t e, since t3 t → rec = Some e → recommended u t model applied e) as Hrec.
  { intros t e Ht He. destruct scaling as [[e'|]|]; [|discriminate He..]. injection He as <-.
    by eapply recommended_mono; [exact V2|exact Ht|exact H3]. }
  apply heeds_attempt. eapply heeds_mono; [done|by apply (serving_heeds model runtime u)|].
  intros [[]|code] t4 _ (T4 & R4 & H4); assert (since s t4) as S4 by (eapply since_trans; [exact S3|exact T4]);
    assert (since u t4) as U4 by (eapply since_trans; [exact U3|exact T4]).
  - split; [done|]. do 5 (split; [done|]). split.
    + intros Hu. apply observation_shape; [|done|done|done]. left.
    + exists model, u. split_and!; [done|done|done|done|intros e; by apply Hrec|]. intros _.
      exists t4, runtime. split; [done|]. split; [by apply since_refl|]. split; [|split; [done|split; [done|]]].
      * eapply between_mono; [exact U2| |exact Hbetween]. eapply since_trans; [exact T3|exact T4].
      * exact (serving_mono _ _ _ _ _ U3 H4).
  - destruct H4 as [Hc Hne]. split; [done|]. do 5 (split; [done|]). split.
    + intros Hu. apply observation_shape; [done| |done|done]. symmetry. by apply str_eqb_neq.
    + exists model, u. split_and!; [done|done|done|done|intros e; by apply Hrec|done].
Qed.
End evidence.

(** C14: What the agent reports of a pool is what it saw, whatever others do to
    the cluster meanwhile.  It only reads.  The report answers its task, and
    has a form that the control plane accepts.  An identifier it names is of
    the deployment that the control plane expects, owned by this cluster, of
    the wanted version and with the expected specification.  It says ready
    only of a deployment that did not change from the first to the last
    reading, while between them its own runtime was served as it demands,
    behind an entry for managed traffic that selects a ready deployment, with
    the pool that the operator would write.  A recommendation that it passes
    on is one on which the deployment's own scaler and the autoscaler of that
    scaler agree. *)
Theorem observation_true `{KA : KubeApi} `{KL : KubeLibraries} namespace cluster task s l o :
  running s → talks (observe namespace cluster task) s l o →
  Forall (heard_granted only_reads) l ∧
  match o with
  | Some (Ok report) => ∃ t, since s t ∧ reported_truly namespace cluster task s t report
  | Some (Err _) => False
  | None => True
  end.
Proof.
  intros Hs Hrun. pose proof (observe_heeds namespace cluster task s Hs) as Ho.
  eapply heeds_talks in Hrun as [Hl Hr]; [|done|exact Ho]. split; [exact Hl|].
  destruct o as [[report|e]|]; [|by destruct Hr as (t & _ & _ & [])|done].
  destruct Hr as (t & _ & Ht & Hr). by exists t.
Qed.

(** ** What a proof says *)

Section proved.
Context `{KA : KubeApi} `{PL : ProofLibraries}.
Variables (now : Z) (namespace : string) (task : GatewayProofTask).
Abbreviation its_pod := (gi_pod (pt_identity task)).

(** The gateway's pod. *)
Definition its_own (pod : Pod) : Prop :=
  om_uid (po_meta pod) = Some (gi_pod_uid (pt_identity task)) ∧
  (labels (po_meta pod) !! "app.kubernetes.io/name" = Some "gateway" ∨
   labels (po_meta pod) !! "app.kubernetes.io/component" = Some "api-gateway").

(** The finalizers of the gateway's own pod, with the mark or without it. *)
Definition marks {A} (c : call A) (s : Kube) : Prop :=
  match c with
  | PatchFinalizers ns name uid version l =>
      ns = namespace ∧ name = its_pod ∧ ∃ pod, stored s KPod ns name = Some pod ∧ its_own pod ∧
        uid = om_uid (po_meta pod) ∧ version = om_resource_version (po_meta pod) ∧
        (pt_closed task = false ∧ pt_runtime task = None ∧ ¬ (FINALIZER ∈ finalizers (po_meta pod)) ∧
           l = (finalizers (po_meta pod) ++ [FINALIZER])%list ∨
         pt_closed task = true ∧ pt_release_finalizer task = true ∧
           is_Some (om_deletion_timestamp (po_meta pod)) ∧
           l = filter (λ f, f ≠ FINALIZER) (finalizers (po_meta pod)))
  | _ => False
  end.
Definition proves A (c : call A) (s t : Kube) (b : result KubeError A) : Prop :=
  reading c ∨ marks c s ∨ unchanged s t ∧ ∃ e, b = Err e.

(** A node that its kubelet renews. *)
Definition on_node (s t : Kube) (pod : Pod) (name uid : string) : Prop :=
  (spec ← po_spec pod; px_node_name spec) = Some name ∧
  ∃ node lease, between s t KNode "" name node ∧ between s t KLease "kube-node-lease" name lease ∧
    om_uid (nd_meta node) = Some uid ∧
    (∃ l, nd_conditions node = Some l ∧ ("Ready", "True") ∈ l) ∧
    (∃ r, r ∈ owner_references (le_meta lease) ∧ or_kind r = "Node" ∧ or_uid r = uid) ∧
    ∃ renewed, le_renew_time lease = Some renewed ∧ -5 ≤ now - renewed ≤ 30.

(** The gateway's pod as it is stored at [u], on a node that lives from then to [t]. *)
Definition gateway_seen (u t : Kube) (pod : Pod) (status : ContainerStatus) (node node_uid : string) : Prop :=
  stored u KPod namespace its_pod = Some pod ∧ its_own pod ∧ gateway_status pod = Some status ∧
  on_node u t pod node node_uid.

(** The pod of [u] is marked when, at [a], the address of its process is asked
    for the session, and the answer of before [t] is the session of the task, or not. *)
Definition answered (u a t : Kube) (pod : Pod) (same : bool) : Prop :=
  ∃ v marked ip port b value,
    since u v ∧ stored v KPod namespace its_pod = Some marked ∧ om_uid (po_meta marked) = om_uid (po_meta pod) ∧
    FINALIZER ∈ finalizers (po_meta marked) ∧ gateway_ip marked = Some ip ∧ gateway_port marked = Some port ∧
    since v a ∧ served (Health ip port) a b (Ok value) ∧ since b t ∧
    json_eqb (json_get "session_id" value) (JStr (pt_session_id task)) = same.

(** The pod that is stored at [w] is the gateway's and still runs the container. *)
Definition runs_at (w : Kube) (container : string) : Prop :=
  ∃ current ps l c, stored w KPod namespace its_pod = Some current ∧
    om_uid (po_meta current) = Some (gi_pod_uid (pt_identity task)) ∧ om_deletion_timestamp (po_meta current) = None ∧
    po_status current = Some ps ∧ ps_containers ps = Some l ∧ c ∈ l ∧ ct_name c = "gateway" ∧
    ct_container_id c = Some container ∧ ct_running c = true.

(** From [s] to [t] the pod is seen to run the container, then its process
    answers with the session, and then it still runs it. *)
Definition bound_truly (s t : Kube) (r : GatewayRuntime) : Prop :=
  ∃ pod status u a b w, since s u ∧ gateway_seen u a pod status (gr_node r) (gr_node_uid r) ∧
    om_deletion_timestamp (po_meta pod) = None ∧ ct_running status = true ∧
    ct_container_id status = Some (gr_container_id r) ∧
    answered u a b pod true ∧ since b w ∧ runs_at w (gr_container_id r) ∧ since w t.

Definition outcome_true (s t : Kube) (outcome : string) (runtime : option GatewayRuntime) : Prop :=
  (outcome = "bound" ∧ pt_closed task = false ∧ pt_runtime task = None ∧
     ∃ r, runtime = Some r ∧ bound_truly s t r) ∨
  (outcome = "terminated" ∧ pt_closed task = false ∧ runtime = pt_runtime task ∧
     ∃ r pod status u, pt_runtime task = Some r ∧ since s u ∧ gateway_seen u t pod status (gr_node r) (gr_node_uid r) ∧
       (ct_terminated status = Some (Some (gr_container_id r)) ∨
        ct_last_terminated status = Some (Some (gr_container_id r)))) ∨
  (outcome = "cleaned" ∧ pt_closed task = true ∧ runtime = pt_runtime task) ∨
  (outcome = "unbound" ∧ pt_closed task = false ∧ pt_runtime task = None ∧ runtime = None ∧
     ((∃ u, since s u ∧ since u t ∧ stored u KPod namespace its_pod = None) ∨
      (∃ pod status node uid u, since s u ∧ gateway_seen u t pod status node uid ∧
         is_Some (om_deletion_timestamp (po_meta pod))) ∨
      (∃ pod status node uid u a, since s u ∧ gateway_seen u a pod status node uid ∧
         om_deletion_timestamp (po_meta pod) = None ∧ answered u a t pod false))) ∨
  (outcome = "unknown" ∧ runtime = pt_runtime task).

Definition finds (s : Kube) (r : result unit (string * option GatewayRuntime)) (t : Kube) : Prop :=
  since s t ∧ running t ∧ match r with Ok (outcome, runtime) => outcome_true s t outcome runtime | Err _ => True end.

Abbreviation proved := (heeds proves).

Lemma proof_read A (c : call A) s t b : reading c → proves A c s t b.
Proof. by left. Qed.
Lemma finds_err s t : since s t → running t → finds s (Err ()) t.
Proof. by split. Qed.

Lemma that_then (b : bool) (k : unit → Talk unit (string * option GatewayRuntime)) s0 s :
  since s0 s → running s → (b = true → proved (k tt) s (finds s0)) → proved (that b ≫= k) s (finds s0).
Proof. intros H1 H2 Hk. unfold that, require. destruct b; [by apply Hk|by apply finds_err]. Qed.
Lemma found_then {A} (o : option A) (k : A → Talk unit (string * option GatewayRuntime)) s0 s :
  since s0 s → running s → (∀ a, o = Some a → proved (k a) s (finds s0)) → proved (says (ok_or o ()) ≫= k) s (finds s0).
Proof. intros H1 H2 Hk. destruct o; [by apply Hk|by apply finds_err]. Qed.
Lemma fetched_then k ns name (cont : object k → Talk unit (string * option GatewayRuntime)) s0 s :
  since s0 s → running s →
  (∀ t o, since s t → since s0 t → running t → stored t k ns name = Some o → proved (cont o) t (finds s0)) →
  proved (fetch silent k ns name ≫= cont) s (finds s0).
Proof.
  intros H0 Hs Hk. apply heeds_fetch_then; [apply proof_read|done| |].
  - intros t o Ht Hst Ho. apply Hk; [done|by eapply since_trans|done|done].
  - intros t e Ht Hst. by apply finds_err; [eapply since_trans|].
Qed.

Lemma gateway_pod_own pod : gateway_pod task pod = true → its_own pod.
Proof. intros [? H]%andb_true_iff. by rewrite orb_true_iff, !bool_decide_eq_true in *. Qed.

Lemma has_finalizer_spec pod : has_finalizer pod = true ↔ FINALIZER ∈ finalizers (po_meta pod).
Proof. apply str_in_elem. Qed.

Lemma fresh_node_spec node lease uid : fresh_node now node lease = true → om_uid (nd_meta node) = Some uid →
  (∃ l, nd_conditions node = Some l ∧ ("Ready", "True") ∈ l) ∧
  (∃ r, r ∈ owner_references (le_meta lease) ∧ or_kind r = "Node" ∧ or_uid r = uid) ∧
  ∃ renewed, le_renew_time lease = Some renewed ∧ -5 ≤ now - renewed ≤ 30.
Proof.
  intros ((Hr & Ho)%andb_true_iff & Ht)%andb_true_iff Hu. split_and!.
  - destruct (nd_conditions node) as [l|]; [|done]. exists l. by rewrite <- has_condition_spec.
  - apply existsb_exists in Ho as (r & Hin%list_elem_of_In & [Hk%str_eqb_eq He%bool_decide_eq_true]%andb_true_iff).
    exists r. split_and!; [done..|]. congruence.
  - destruct (le_renew_time lease) as [renewed|]; [|done]. exists renewed. apply andb_true_iff in Ht as [?%Z.leb_le ?%Z.leb_le]. split; [done|]. lia.
Qed.

Lemma still_running_spec pod current container : still_running pod current container = true →
  om_uid (po_meta current) = om_uid (po_meta pod) ∧ om_deletion_timestamp (po_meta current) = None ∧
  ∃ ps l c, po_status current = Some ps ∧ ps_containers ps = Some l ∧ c ∈ l ∧ ct_name c = "gateway" ∧
    ct_container_id c = Some container ∧ ct_running c = true.
Proof.
  intros [[Hu%bool_decide_eq_true Hd]%andb_true_iff Hr]%andb_true_iff. split_and!; [done|by destruct (om_deletion_timestamp _)|].
  destruct (po_status current) as [ps|]; [cbn in Hr|done]. destruct (ps_containers ps) as [l|] eqn:El; [|done].
  apply existsb_exists in Hr as (c & Hin%list_elem_of_In & Hb). exists ps, l, c.
  rewrite !andb_true_iff, str_eqb_eq, bool_decide_eq_true in Hb. naive_solver.
Qed.

Lemma pod_name s pod : running s → stored s KPod namespace its_pod = Some pod → name_any (po_meta pod) = its_pod.
Proof.
  intros Hs Hp. destruct (stored_identity _ KPod _ _ _ Hs Hp) as (Hn & _). unfold name_any. cbn in Hn. by rewrite Hn.
Qed.

(** A patch of the finalizers of a pod that was read. *)
Lemma patch_then {A} pod l (k : Pod → Talk unit A) Q s0 u s :
  since s0 s → running s → running u → since u s → stored u KPod namespace its_pod = Some pod →
  its_own pod →
  (∀ v, stored v KPod namespace its_pod = Some pod →
     marks (PatchFinalizers namespace its_pod (om_uid (po_meta pod)) (om_resource_version (po_meta pod)) l) v) →
  (∀ t p, since s t → since s0 t → running t → stored t KPod namespace its_pod = Some p →
     om_uid (po_meta p) = om_uid (po_meta pod) → finalizers (po_meta p) = l → proved (k p) t Q) →
  (∀ t, since s0 t → running t → Q (Err ()) t) →
  proved (patch_finalizers namespace pod l ≫= k) s Q.
Proof.
  intros H0 Hs Hu Hus Hp Hg Hmarks Hk He. unfold patch_finalizers. rewrite (pod_name _ _ Hu Hp).
  apply heeds_ask_then. intros s1 s2 b H1 H2.
  assert (since s1 s2) as H12 by (eapply served_since; [by eapply since_running|exact H2]).
  assert (since s s2) as H3 by (eapply since_trans; [exact H1|exact H12]).
  assert (running s2) as Hs2 by by eapply since_running. assert (since s0 s2) as H4 by (eapply since_trans; [exact H0|exact H3]).
  destruct (stored_identity _ KPod _ _ _ Hu Hp) as (_ & _ & ver & Hver). cbn in Hver.
  assert (∀ old, stored s1 KPod namespace its_pod = Some old →
    agrees (om_resource_version (po_meta pod)) (om_resource_version (po_meta old)) → old = pod) as Hsame.
  { intros old Hold [Hv|Hv]; [congruence|]. eapply since_version; [|exact Hp|exact Hold|by symmetry].
    eapply since_trans; [exact Hus|exact H1]. }
  split.
  - right. eapply (fenced_write _ KPod); [exact Hu|exact Hp| |exact H2| |by intros []|].
    + eapply since_trans; [exact Hus|exact H1].
    + intros at_ (old & Hold & _ & Hv). by exists old.
    + apply Hmarks.
  - destruct b as [p|e]; [|by apply He].
    destruct (served_patched _ _ _ _ _ _ _ _ H2) as (Hp2 & Hfin & Huid).
    destruct (served_write _ _ _ _ _ H2) as [[]|(q & -> & old & Hold & _ & Hv)]. cbn in Hold.
    pose proof (Hsame old Hold Hv) as ->. apply Hk; [done..|by apply Huid|done].
Qed.

Lemma on_node_later s t t1 pod node uid : since t t1 → on_node s t pod node uid → on_node s t1 pod node uid.
Proof.
  intros Ht (C & nd & le & (v & D1 & D2 & D3) & (w & E1 & E2 & E3) & F). split; [done|]. exists nd, le.
  split; [exists v|split; [exists w|done]]; split_and!; (done || by eapply since_trans).
Qed.

(** A process that runs on the pod of [u] is bound, if it answers. *)
Lemma bind_heeds pod status node_name node_uid container s0 u s :
  since s0 u → since u s → running s → running u → gateway_seen u s pod status node_name node_uid →
  om_deletion_timestamp (po_meta pod) = None → ct_running status = true → ct_container_id status = Some container →
  pt_closed task = false → pt_runtime task = None →
  proved (bind namespace task pod node_name node_uid container) s (finds s0).
Proof.
  intros H0u Hus Hs Hu Hseen Hdel Hrun Hc Hclosed Hnone. pose proof Hseen as (Hp & Hg & Hst & Hnode).
  assert (since s0 s) as H0 by by eapply since_trans.
  assert (∀ p v t, since u v → since v t → since s t → since s0 t → running t → running v →
    stored v KPod namespace its_pod = Some p →
    om_uid (po_meta p) = om_uid (po_meta pod) → FINALIZER ∈ finalizers (po_meta p) →
    proved (ip ← says (ok_or (gateway_ip p) ()); port ← says (ok_or (gateway_port p) ());
            value ← ask silent (Health ip port);
            if negb (json_eqb (json_get "session_id" value) (JStr (pt_session_id task))) then mret ("unbound", None)
            else current ← fetch silent KPod namespace (name_any (po_meta p));
                 that (still_running p current container) ;;
                 mret ("bound", Some (mkRuntime container node_name node_uid))) t (finds s0)) as Hrest.
  { intros p v t Huv Hvt Ht H0t Rt Rv Hpv Huid Hfin.
    apply found_then; [done..|]. intros ip Hip. apply found_then; [done..|]. intros port Hport.
    apply heeds_ask_then. intros a b r H1 H2. split; [by left|].
    assert (since a b) as H12 by (eapply served_since; [by eapply since_running|exact H2]).
    assert (since t b) as H3 by (eapply since_trans; [exact H1|exact H12]).
    assert (running b) as Rb by by eapply since_running. assert (since s0 b) as H4 by (eapply since_trans; [exact H0t|exact H3]).
    destruct r as [value|e]; [|by apply finds_err].
    assert (answered u a b pod (json_eqb (json_get "session_id" value) (JStr (pt_session_id task)))) as Ha.
    { exists v, p, ip, port, b, value. split_and!; try done; [by eapply since_trans|by apply since_refl]. }
    assert (gateway_seen u a pod status node_name node_uid) as Hsa.
    { do 3 (split; [done|]). eapply on_node_later; [|exact Hnode]. by eapply since_trans. }
    destruct (json_eqb _ _) eqn:Hv; cbn [negb].
    2:{ split; [done|]. split; [done|]. do 3 right. left. do 4 (split; [done|]). do 2 right.
        by exists pod, status, node_name, node_uid, u, a. }
    rewrite (pod_name _ _ Rv Hpv). apply fetched_then; [done..|]. intros w current T1 S1 R1 Hcur.
    apply that_then; [done..|]. intros (Hu1 & Hdel1 & ps & l & c & Hrest)%still_running_spec.
    split; [done|]. split; [done|]. left. do 3 (split; [done|]).
    exists (mkRuntime container node_name node_uid). split; [done|]. exists pod, status, u, a, b, w.
    split_and!; try done; [|by apply since_refl]. exists current, ps, l, c.
    split; [done|]. split; [rewrite Hu1, Huid; apply Hg|done]. }
  unfold bind. destruct (has_finalizer pod) eqn:Hfin.
  - apply heeds_bind. cbn. apply (Hrest pod u s); try done; [by apply since_refl|by apply since_refl|].
    by apply has_finalizer_spec.
  - eapply patch_then; [exact H0|done|exact Hu|done|done|done| |intros t p T S R Hp1 Hp2 Hp3|intros; by apply finds_err].
    + intros v Hv. cbn. split; [done|]. split; [done|]. exists pod. do 4 (split; [done|]). left. do 2 (split; [done|]).
      split; [|done]. rewrite <- has_finalizer_spec. by rewrite Hfin.
    + apply (Hrest p t t); try done; [by eapply since_trans|by apply since_refl|].
      rewrite Hp3. set_solver.
Qed.

Lemma inspect_pod_heeds pod s0 s :
  since s0 s → running s → stored s KPod namespace its_pod = Some pod → its_own pod →
  pt_closed task = false → proved (inspect_pod now namespace task pod) s (finds s0).
Proof.
  intros H0 Hs Hp Hg Hclosed. unfold inspect_pod. apply found_then; [done..|]. intros node_name Hname.
  apply fetched_then; [done..|]. intros t1 node T1 S1 R1 Hnode.
  apply fetched_then; [done..|]. intros t2 lease T2 S2 R2 Hlease.
  apply that_then; [done..|]. intros Hfresh. apply found_then; [done..|]. intros node_uid Huid.
  apply found_then; [done..|]. intros status Hst. pose proof (since_refl t2 R2) as S22.
  assert (since s t2) as St2 by (eapply since_trans; [exact T1|exact T2]).
  assert (gateway_seen s t2 pod status node_name node_uid) as Hseen.
  { do 3 (split; [done|]). split; [done|]. exists node, lease.
    split; [by exists t1|]. split; [by exists t2|]. split; [done|]. by apply fresh_node_spec. }
  destruct (pt_runtime task) as [runtime|] eqn:Hr.
  - apply that_then; [done..|]. intros [Hn%str_eqb_eq Hu%str_eqb_eq]%andb_true_iff. subst node_name node_uid.
    split; [done|]. split; [done|]. destruct (terminated_as status (gr_container_id runtime)) eqn:Ht.
    + right. left. do 3 (split; [done|]). exists runtime, pod, status, s. do 3 (split; [done|]).
      unfold terminated_as in Ht. by rewrite orb_true_iff, !bool_decide_eq_true in Ht.
    + do 4 right. done.
  - destruct (om_deletion_timestamp (po_meta pod)) eqn:Hd; cbn [is_some].
    + split; [done|]. split; [done|]. do 3 right. left. do 4 (split; [done|]). right. left.
      exists pod, status, node_name, node_uid, s. by rewrite Hd.
    + apply that_then; [done..|]. intros Hrun. apply found_then; [done..|]. intros container Hc.
      by apply (bind_heeds pod status node_name node_uid container s0 s t2).
Qed.

Lemma clean_heeds pod s0 s :
  since s0 s → running s → stored s KPod namespace its_pod = Some pod → its_own pod →
  pt_closed task = true → pt_release_finalizer task = true →
  proved (clean namespace pod ;; mret ("cleaned", pt_runtime task)) s (finds s0).
Proof.
  intros H0 Hs Hp Hg Hclosed Hrel.
  assert (∀ t, since s0 t → running t → finds s0 (Ok ("cleaned", pt_runtime task)) t) as Hend.
  { intros t Ht Rt. split; [done|]. split; [done|]. do 2 right. by left. }
  unfold clean, that, require. destruct (negb (is_some _) && has_finalizer pod) eqn:Hd; cbn [negb]; [by apply finds_err|].
  destruct (has_finalizer pod) eqn:Hf; [|by apply Hend].
  apply heeds_bind. eapply patch_then;
    [exact H0|done|exact Hs|by apply since_refl|done|done| |intros t p _ S R _ _ _; by apply Hend|by apply finds_err].
  intros v Hv. cbn. split; [done|]. split; [done|]. exists pod. do 4 (split; [done|]). right.
  do 2 (split; [done|]). split; [|done]. rewrite andb_true_r in Hd. by destruct (om_deletion_timestamp _).
Qed.

Lemma inspect_heeds s : running s → proved (inspect now namespace task) s (finds s).
Proof.
  intros Hs. unfold inspect. apply that_then; [by apply since_refl|done|]. intros _.
  apply heeds_get_then; [apply proof_read|done| |intros; by apply finds_err].
  intros t Ht Rt. destruct (stored t KPod namespace its_pod) as [pod|] eqn:Hp.
  - apply that_then; [done..|]. intros Hg%gateway_pod_own. destruct (pt_closed task) eqn:Hc; [|by apply inspect_pod_heeds].
    destruct (pt_release_finalizer task) eqn:Hrel; [by apply clean_heeds|].
    split; [done|]. split; [done|]. do 2 right. by left.
  - split; [done|]. split; [done|]. destruct (pt_closed task) eqn:Hc; [do 2 right; by left|].
    destruct (pt_runtime task) eqn:Hr; [by do 4 right|]. do 3 right. left. do 4 (split; [done|]). left. exists t.
    split; [done|]. split; [by apply since_refl|done].
Qed.

(** The answer says what was found. *)
Definition proved_truly (s t : Kube) (proof : GatewayProof) : Prop :=
  gp_session_id proof = pt_session_id task ∧ gp_nonce proof = pt_nonce task ∧
  outcome_true s t (gp_outcome proof) (gp_runtime proof).

Lemma prove_heeds s : running s → proved (prove now namespace task) s (λ r t, since s t ∧ match r with
  | Ok proof => proved_truly s t proof | Err _ => False end).
Proof.
  intros Hs. unfold prove. apply heeds_attempt. eapply heeds_mono; [done|by apply inspect_heeds|].
  intros [[outcome runtime]|e] t _ (H1 & H2 & H3); (split; [done|]); do 2 (split; [done|]); [done|]. by do 4 right.
Qed.
End proved.

(** C15: What the agent proves of a gateway process is what it saw, whatever
    others do to the cluster meanwhile.  The only thing it writes is its own
    mark among the finalizers of the gateway's pod, to the pod that is stored
    at that moment under the identity of the task: the mark is added for a
    session without a process, and is taken away only for a closed session
    whose pod is being deleted.  It says terminated only if the kubelet of a
    live node remembers the end of the very container that the task names.  It
    says bound only of a container that its pod, on a live node, ran before;
    whose process, at the address of the pod and with the mark on it, then
    answered with the session; and that the pod still ran in a reading after
    that answer.  It says unbound only of a session without a process whose
    pod is gone, is being deleted or then answers with another session;
    cleaned only of a closed session.  A missing pod is never taken for a dead
    process. *)
Theorem proof_true `{KA : KubeApi} `{PL : ProofLibraries} now namespace task s l o :
  running s → talks (prove now namespace task) s l o →
  Forall (heard_granted (proves namespace task)) l ∧
  match o with
  | Some (Ok proof) => ∃ t, since s t ∧ proved_truly now namespace task s t proof
  | Some (Err _) => False
  | None => True
  end.
Proof.
  intros Hs Hrun. pose proof (prove_heeds now namespace task s Hs) as Hp.
  eapply heeds_talks in Hrun as [Hl Hr]; [|done|exact Hp]. split; [exact Hl|].
  destruct o as [[proof|e]|]; [|by destruct Hr as (t & _ & _ & [])|done].
  destruct Hr as (t & _ & Ht & Hr). by exists t.
Qed.
