(* ===== verification/Admission.v ===== *)
(** * Admission: money before inference, over a network that loses messages

    [crates/gateway/src/billing.rs]: a gateway reserves and dispatches a
    request at the control plane before it forwards it, and recovers once when
    an answer is missing or the caller is gone.  A call may not arrive, or be
    carried out without its answer arriving, and other requests are served in
    between.  Threads and channels are the interleaving; telemetry and trace
    headers are not modelled. *)

From S2P Require Import Prelude Domain Models Store Books Catalog Projection Ledger Reservations.
From S2P Require Import Review Wallet Maintenance Lifecycle Payments Alipay Trial Worker Feed.
From S2P Require Import Billing Progress Service.
Local Open Scope Z_scope.

(** ** Calls of the control plane *)

(** What happens to a call; any error that the handler did not answer is one
    of the last two. *)
Inductive fate := Answered | AnswerLost | NotSent.

Record exchange := mkExchange {
  xc_others : list (Env * op);      (* what is served before it *)
  xc_env : Env;
  xc_fate : fate }.

Record Ticket := mkTicket {
  tk_id : string; tk_project_id : string; tk_input_token_limit : Z; tk_output_token_limit : Z }.

Inductive Decision := Decision_Dispatched | Rejected (status : Z) | Uncertain (status : Z).

(** The statuses by which a reserve attests that there is no hold. *)
Definition attests_none (status : Z) : bool :=
  existsb (Z.eqb status) [400; 402; 403; 404; 422].

Section admission.
Context `{ServiceLibraries}.

(** The state of the reservation that is answered, or a status. *)
Definition call (x : exchange) (handler : Env → Tx Reservation) (d : Db)
    : result Z ReservationState * Db :=
  let d := serve_all d (xc_others x) in
  match xc_fate x with
  | NotSent => (Err 503, d)
  | AnswerLost => (Err 503, commit (handler (xc_env x)) d)
  | Answered =>
      match handler (xc_env x) d with
      | Ok (row, d') => (Ok (rv_state row), d')
      | Err e => (Err (error_response e).1, d)
      end
  end.

(** ** The protocol *)

Definition protocol_reserve (x : exchange) (intent : ReserveRequest) : Db → result Z ReservationState * Db :=
  call x (λ env, reserve_money env intent).
Definition protocol_dispatch (x : exchange) (intent : ReserveRequest) : Db → result Z ReservationState * Db :=
  call x (λ env, dispatch_money env (rr_project_id intent) (rr_id intent)).
Definition protocol_release (x : exchange) (intent : ReserveRequest) : Db → result Z ReservationState * Db :=
  call x (λ env, release_money env (rr_project_id intent) (rr_id intent) "not_dispatched").

(** [Protocol::admit]; [live] is whether the caller still waits after the
    reserve. *)
Definition protocol_admit (live : bool) (xr xd : exchange) (intent : ReserveRequest) (d : Db) : Decision * Db :=
  let (reserved, d) := protocol_reserve xr intent d in
  match reserved with
  | Err status => (if attests_none status then Rejected status else Uncertain status, d)
  | Ok state =>
      if bool_decide (state ≠ Reserved) then (Uncertain 503, d)
      else if negb live then (Uncertain 503, d)
      else
        let (dispatched, d) := protocol_dispatch xd intent d in
        match dispatched with
        | Ok Dispatched => (Decision_Dispatched, d)
        | _ => (Uncertain 503, d)
        end
  end.

(** [Protocol::recover] *)
Definition recover (xr xt : exchange) (intent : ReserveRequest) (d : Db) : result Z unit * Db :=
  let (reserved, d) := protocol_reserve xr intent d in
  match reserved with
  | Ok Reserved =>
      let (released, d) := protocol_release xt intent d in
      match released with
      | Ok Released => (Ok tt, d)
      | Ok _ => (Err 503, d)
      | Err status => (Err status, d)
      end
  | Ok _ => (Ok tt, d)
  | Err status => (if attests_none status then Ok tt else Err status, d)
  end.

(** ** A worker's visit to one command *)

Record visit := mkVisit {
  vi_waiting : bool;          (* the caller waits when the command is dequeued *)
  vi_live : bool;             (* and after the reserve *)
  vi_abandoned : bool;        (* its channel is closed when it is answered *)
  vi_late : bool;             (* it gives up just as the answer arrives *)
  vi_reserve : exchange; vi_dispatch : exchange;
  vi_again : exchange; vi_release : exchange }.

Definition decided (x : Decision) : result Z unit :=
  match x with Decision_Dispatched => Ok tt | Rejected status | Uncertain status => Err status end.
Definition ambiguous (x : Decision) : bool := match x with Uncertain _ => true | _ => false end.

(** The body of the worker's loop: what the caller is told, if anything, and
    how the recovery ended, if it was tried. *)
Definition serve_command (v : visit) (intent : ReserveRequest) (d : Db)
    : option (result Z unit) * option (result Z unit) * Db :=
  if negb (vi_waiting v) then (None, None, d)
  else
    let (x, d) := protocol_admit (vi_live v) (vi_reserve v) (vi_dispatch v) intent d in
    let told := if vi_abandoned v then None else Some (decided x) in
    if ambiguous x || vi_abandoned v then
      let (r, d) := recover (vi_again v) (vi_release v) intent d in (told, Some r, d)
    else (told, None, d).

Definition ticket (intent : ReserveRequest) : Ticket :=
  mkTicket (rr_id intent) (rr_project_id intent) (rr_input_token_limit intent)
    (rr_output_token_limit intent).

(** [BillingAdmission::admit]; [healthy_] and [queued] are whether the workers
    run and the channel has room. *)
Definition billing_admit (healthy_ queued : bool) (v : visit) (intent : ReserveRequest) (d : Db)
    : result Z Ticket * option (result Z unit) * Db :=
  if negb healthy_ || negb queued then (Err 503, None, d)
  else
    let '(told, recovered, d) := serve_command v intent d in
    (if vi_late v then Err 503
     else match told with
     | Some (Ok _) => Ok (ticket intent)
     | Some (Err status) => Err status
     | None => Err 503
     end, recovered, d).

(** ** What the control plane keeps for it *)

(** Every stored reservation was asked for in a request that is well formed,
    by the tenant of its account. *)
Definition asked_ok (d : Db) : Prop := ∀ id r, reservations d !! id = Some r →
  rr_id (rv_spec r) = id ∧ reserve_request_ok (rv_spec r) = true ∧
  ∃ ac, accounts d !! rr_project_id (rv_spec r) = Some ac ∧
    ac_tenant_id ac = rr_tenant_id (rv_spec r).

(** Accounts stay, with their tenant. *)
Definition tenants_kept (d d' : Db) : Prop := ∀ p ac, accounts d !! p = Some ac →
  ∃ ac', accounts d' !! p = Some ac' ∧ ac_tenant_id ac' = ac_tenant_id ac.

Lemma effect_tenants d d' : effect d d' → tenants_kept d d'.
Proof.
  intros He p ac Hac. destruct He as [id r r' Hm _|env ac0 request row Hac0 Had|a delta Hp|project row _ _ Ea Et].
  - rewrite (mv_accounts _ _ _ _ _ Hm). by exists ac.
  - destruct (admitted_rows _ _ _ _ _ _ Had) as (_ & _ & ->). by exists ac.
  - destruct Hp as [_ _ [->|(pr & x & Hn & _ & ->)] _]; [by exists ac|].
    exists ac. rewrite lookup_insert_ne; [done|congruence].
  - rewrite Ea. destruct (decide (project = p)) as [->|Hne].
    + exists row. rewrite lookup_insert_eq. split; [done|by apply Et].
    + exists ac. by rewrite lookup_insert_ne.
Qed.

Lemma same_terms_spec r r' : same_terms r r' → rv_spec r' = rv_spec r.
Proof. unfold same_terms. by intros ->. Qed.

Lemma effect_asked d d' : effect d d' → asked_ok d → asked_ok d'.
Proof.
  intros He Hd id r' Hr'. pose proof (effect_tenants _ _ He) as Ht.
  destruct (effect_origin _ _ _ _ He Hr') as [[r Hr]|(env & ac & request & Hac & <- & Had)].
  - destruct (effect_row _ _ _ _ He Hr) as (x & Hx & Hs & _). simplify_eq.
    rewrite (same_terms_spec _ _ Hs). destruct (Hd _ _ Hr) as (H1 & H2 & ac & Hac & Hten).
    split; [done|]. split; [done|]. destruct (Ht _ _ Hac) as (ac' & Hac' & E). exists ac'.
    split; [done|congruence].
  - destruct (Ht _ _ Hac) as (ac' & Hac' & E). destruct Had as [_ _ (m & x & -> & _) _ _ _ [A1 A2]].
    simpl. split; [done|]. split; [done|]. exists ac'. split; [done|congruence].
Qed.

Record ready (d : Db) : Prop := { rd_healthy : healthy d; rd_asked : asked_ok d }.

Lemma serve_ready d s : ready d → ready (serve d s).
Proof.
  intros [Hh Ha]. split; [by apply serve_healthy|].
  destruct (serve_effect d s Hh) as [->|Hc]; [done|]. eapply effect_asked; [apply Hc|done].
Qed.
Lemma serve_all_ready d l : ready d → ready (serve_all d l).
Proof. revert d. induction l as [|s l IH]; intros d Hd; [done|]. simpl. by apply IH, serve_ready. Qed.
Lemma service_ready l : ready (service l).
Proof.
  apply serve_all_ready. split; [apply empty_healthy|].
  intros id r Hr. change (reservations empty_db) with (∅ : gmap string Reservation) in Hr.
  by apply lookup_empty_Some in Hr.
Qed.

(** A request whose reservation is on record is answered with it. *)
Lemma reserve_replays env request d row :
  asked_ok d → reservations d !! rr_id request = Some row → rv_spec row = request →
  reserve_money env request d = Ok (row, d).
Proof.
  intros Ha Hr Hs. destruct (Ha _ _ Hr) as (_ & Hok & ac & Hac & Ht). rewrite Hs in Hok, Hac, Ht.
  unfold reserve_money. rewrite Hok. erewrite tx_bind_run by done.
  unfold lock_account, mbind, tx_bind, gets. rewrite Hac. simpl.
  rewrite (proj2 (str_eqb_eq _ _) Ht). simpl. rewrite Hr, bool_decide_eq_false_2 by naive_solver. done.
Qed.

(** ** Calls *)

Definition own (o : Env → op) (handler : Env → Tx Reservation) : Prop :=
  ∀ env d, serve d (env, o env) = commit (handler env) d.

Lemma own_reserve intent : own (λ _, Reserve intent) (λ env, reserve_money env intent).
Proof.
  intros env d. unfold serve, commit. simpl. unfold discard, mbind, tx_bind.
  by destruct (reserve_money env intent d) as [[??]|].
Qed.
Lemma own_dispatch p id : own (λ _, Dispatch p id) (λ env, dispatch_money env p id).
Proof.
  intros env d. unfold serve, commit. simpl. unfold discard, mbind, tx_bind.
  by destruct (dispatch_money env p id d) as [[??]|].
Qed.
Lemma own_release p id r : own (λ _, Release p id r) (λ env, release_money env p id r).
Proof.
  intros env d. unfold serve, commit. simpl. unfold discard, mbind, tx_bind.
  by destruct (release_money env p id r d) as [[??]|].
Qed.

(** A call is what others asked, and perhaps its own request. *)
Definition asks (x : exchange) (o : Env → op) (l : list (Env * op)) : Prop :=
  l = xc_others x ∨ l = xc_others x ++ [(xc_env x, o (xc_env x))].

Lemma call_served x o handler d r d' : own o handler → call x handler d = (r, d') →
  ∃ l, asks x o l ∧ d' = serve_all d l.
Proof.
  intros Ho. unfold call. assert (commit (handler (xc_env x)) (serve_all d (xc_others x)) =
    serve_all d (xc_others x ++ [(xc_env x, o (xc_env x))])) as Hc.
  { rewrite <- Ho. unfold serve_all. by rewrite foldl_app. }
  destruct (xc_fate x).
  - unfold commit in Hc. destruct (handler _ _) as [[row d1]|e]; intros [= <- <-].
    + exists (xc_others x ++ [(xc_env x, o (xc_env x))]). split; [by right|done].
    + exists (xc_others x). split; [by left|done].
  - rewrite Hc. intros [= <- <-]. eexists. split; [by right|done].
  - intros [= <- <-]. eexists. split; [by left|done].
Qed.

Lemma call_answered x handler d state d' : call x handler d = (Ok state, d') →
  ∃ row, handler (xc_env x) (serve_all d (xc_others x)) = Ok (row, d') ∧ rv_state row = state.
Proof.
  unfold call. destruct (xc_fate x); [|done..].
  destruct (handler _ _) as [[row d1]|]; intros [= <- <-]. by exists row.
Qed.

Lemma call_refused x handler d status d' : call x handler d = (Err status, d') →
  attests_none status = true →
  d' = serve_all d (xc_others x) ∧ ∀ row, handler (xc_env x) d' ≠ Ok (row, d').
Proof.
  unfold call. destruct (xc_fate x); [|by intros [= <- <-]..].
  destruct (handler _ _) as [[row d1]|e] eqn:Hrun; intros [= <- <-]. intros _. split; [done|].
  by rewrite Hrun.
Qed.

(** The row of the intent, as a call left it. *)
Definition on_record (intent : ReserveRequest) (state : ReservationState) (d : Db) : Prop :=
  ∃ row, reservations d !! rr_id intent = Some row ∧ rv_spec row = intent ∧ rv_state row = state.

(** No hold of the intent waits to be dispatched. *)
Definition no_leak (intent : ReserveRequest) (d : Db) : Prop := ¬ on_record intent Reserved d.

Lemma reserve_record env intent d row d' : ready d → reserve_money env intent d = Ok (row, d') →
  reservations d' !! rr_id intent = Some row ∧ rv_spec row = intent ∧
  ∀ id x, reservations d' !! id = Some x → rv_state x = Dispatched → reservations d !! id = Some x.
Proof.
  intros [Hh Ha] Hrun. destruct (reserve_money_effect _ _ _ _ _ (hl_inv _ Hh) Hrun)
    as [(-> & Hr & Hs)|(ac & _ & Had)]; [done|].
  destruct (admitted_rows _ _ _ _ _ _ Had) as (-> & _ & _).
  destruct Had as [_ _ (m & x & -> & _) _ _ _ _]. split; [apply lookup_insert_eq|]. split; [done|].
  intros id y [[_ <-]|[_ Hy]]%lookup_insert_Some; done.
Qed.

Lemma owned_spec p id intent d d' row row' :
  reservations d !! rr_id intent = Some row → rv_spec row = intent →
  (reservations d !! rr_id intent = Some row' ∧ d' = d ∨ ∃ r, rv_state r = Reserved ∧ moves (rr_id intent) r row' d d') →
  p = rr_project_id intent → id = rr_id intent →
  reservations d' !! rr_id intent = Some row' ∧ rv_spec row' = intent.
Proof.
  intros Hr Hs Hc _ _. destruct Hc as [[Hr' ->]|(r & _ & [M1 M2 M3 _ _ _ _])]; [naive_solver|].
  rewrite M2, lookup_insert_eq. split; [done|]. rewrite (same_terms_spec _ _ M3). congruence.
Qed.

(** A call's others only move a reservation forward. *)
Lemma record_stays intent d l row : ready d → reservations d !! rr_id intent = Some row →
  rv_spec row = intent →
  ∃ row', reservations (serve_all d l) !! rr_id intent = Some row' ∧ rv_spec row' = intent.
Proof.
  intros Hd Hr Hs. destruct (serve_all_advances d l (rd_healthy _ Hd) _ _ Hr) as (r' & Hr' & [At _ _]).
  exists r'. split; [done|]. rewrite (same_terms_spec _ _ At). done.
Qed.

Lemma reserve_call x intent d r d' : ready d → protocol_reserve x intent d = (r, d') →
  ready d' ∧ (∃ l, d' = serve_all d l) ∧
  match r with
  | Ok state => on_record intent state d'
  | Err status => attests_none status = true → ∀ state, ¬ on_record intent state d'
  end.
Proof.
  intros Hd Hc. destruct (call_served _ _ _ _ _ _ (own_reserve intent) Hc) as (l & _ & El).
  split; [rewrite El; by apply serve_all_ready|]. split; [by exists l|]. destruct r as [state|status].
  - apply call_answered in Hc as (row & Hrun & <-). exists row.
    apply reserve_record in Hrun as (H1 & H2 & _); [done|by apply serve_all_ready].
  - intros Hs state (row & Hr & Hspec & _). apply call_refused in Hc as [Ed Hno]; [|done].
    apply (Hno row). apply reserve_replays; [|done|done]. rewrite Ed. by apply serve_all_ready.
Qed.

Lemma dispatch_call x intent d d' state0 : ready d → on_record intent state0 d →
  protocol_dispatch x intent d = (Ok Dispatched, d') → on_record intent Dispatched d'.
Proof.
  intros Hd (row & Hr & Hs & _) Hc. apply call_answered in Hc as (row' & Hrun & Hst).
  pose proof (serve_all_ready _ (xc_others x) Hd) as Hd1.
  destruct (record_stays intent d (xc_others x) row Hd Hr Hs) as (row1 & Hr1 & Hs1).
  destruct (dispatch_money_effect _ _ _ _ _ _ (hl_inv _ (rd_healthy _ Hd1)) Hrun) as (_ & _ & Hcase).
  exists row'. destruct (owned_spec (rr_project_id intent) (rr_id intent) _ _ _ _ _ Hr1 Hs1 Hcase
    eq_refl eq_refl). done.
Qed.

Lemma release_call x intent d d' state0 : ready d → on_record intent state0 d →
  protocol_release x intent d = (Ok Released, d') → on_record intent Released d'.
Proof.
  intros Hd (row & Hr & Hs & _) Hc. apply call_answered in Hc as (row' & Hrun & Hst).
  pose proof (serve_all_ready _ (xc_others x) Hd) as Hd1.
  destruct (record_stays intent d (xc_others x) row Hd Hr Hs) as (row1 & Hr1 & Hs1).
  destruct (release_money_effect _ _ _ _ _ _ _ (hl_inv _ (rd_healthy _ Hd1)) Hrun) as (_ & _ & Hcase).
  exists row'. destruct (owned_spec (rr_project_id intent) (rr_id intent) _ _ _ _ _ Hr1 Hs1 Hcase
    eq_refl eq_refl). done.
Qed.

Lemma record_unique intent s t d : on_record intent s d → on_record intent t d → s = t.
Proof. intros (r & Hr & _ & <-) (r' & Hr' & _ & <-). congruence. Qed.

(** *** The protocol *)

Lemma transition_ready x o handler d r d' : own o handler → ready d → call x handler d = (r, d') →
  ready d'.
Proof.
  intros Ho Hd Hc. destruct (call_served _ _ _ _ _ _ Ho Hc) as (l & _ & ->). by apply serve_all_ready.
Qed.

Lemma reserved_before s : rtc transition s Reserved → s = Reserved.
Proof.
  intros Hrtc. remember Reserved as t eqn:Et. induction Hrtc as [|s u t Hs _ IH]; [done|]. subst.
  specialize (IH eq_refl) as ->. by inversion Hs.
Qed.

(** The reservation was not dispatched yet. *)
Definition undispatched (intent : ReserveRequest) (d : Db) : Prop :=
  ∀ row, reservations d !! rr_id intent = Some row → rv_state row = Reserved.

Lemma on_record_before intent d l : ready d → on_record intent Reserved (serve_all d l) →
  undispatched intent d.
Proof.
  intros Hd (row & Hr & _ & Hs) row0 Hr0.
  destruct (serve_all_advances d l (rd_healthy _ Hd) _ _ Hr0) as (row' & Hr' & [_ As _]).
  apply reserved_before. congruence.
Qed.

Lemma admit_spec live xr xd intent d x d' : ready d → protocol_admit live xr xd intent d = (x, d') →
  ready d' ∧
  match x with
  | Decision_Dispatched => on_record intent Dispatched d' ∧ undispatched intent d
  | Rejected _ => ∀ state, ¬ on_record intent state d'
  | Uncertain _ => True
  end.
Proof.
  intros Hd. unfold protocol_admit. destruct (protocol_reserve xr intent d) as [r d1] eqn:Hc.
  destruct (reserve_call _ _ _ _ _ Hd Hc) as (Hd1 & (l & El) & Hr). destruct r as [state|status].
  - case_bool_decide as Hstate; [by intros [= <- <-]|]. subst state.
    destruct (negb live); [by intros [= <- <-]|].
    destruct (protocol_dispatch xd intent d1) as [t d2] eqn:Hc2.
    pose proof (transition_ready _ _ _ _ _ _ (own_dispatch _ _) Hd1 Hc2) as Hd2.
    destruct t as [[]|]; intros [= <- <-]; split; try done.
    split; [exact (dispatch_call _ _ _ _ _ Hd1 Hr Hc2)|]. rewrite El in Hr. exact (on_record_before _ _ _ Hd Hr).
  - destruct (attests_none status) eqn:Ha; intros [= <- <-]; split; auto.
Qed.

Lemma recover_spec xr xt intent d x d' : ready d → recover xr xt intent d = (x, d') →
  ready d' ∧ (x = Ok tt → no_leak intent d').
Proof.
  intros Hd. unfold recover. destruct (protocol_reserve xr intent d) as [r d1] eqn:Hc.
  destruct (reserve_call _ _ _ _ _ Hd Hc) as (Hd1 & _ & Hr). destruct r as [state|status].
  - destruct (decide (state = Reserved)) as [->|Hne].
    + destruct (protocol_release xt intent d1) as [t d2] eqn:Hc2.
      pose proof (transition_ready _ _ _ _ _ _ (own_release _ _ _) Hd1 Hc2) as Hd2.
      destruct t as [[]|]; intros [= <- <-]; split; try done. intros _ Hl.
      pose proof (release_call _ _ _ _ _ Hd1 Hr Hc2) as Hl'. by pose proof (record_unique _ _ _ _ Hl Hl').
    + replace (match state with Reserved => _ | _ => _ end) with (@Ok Z unit tt, d1) by by destruct state.
      intros [= <- <-]. split; [done|]. intros _ Hl. apply Hne. symmetry. by eapply record_unique.
  - destruct (attests_none status) eqn:Ha; intros [= <- <-]; split; try done. intros _. by apply Hr.
Qed.

(** The recovery's own calls dispatch nothing. *)
Lemma recover_alone xr xt intent d x d' :
  ready d → xc_others xr = [] → xc_others xt = [] → recover xr xt intent d = (x, d') →
  ∀ id row, reservations d' !! id = Some row → rv_state row = Dispatched → reservations d !! id = Some row.
Proof.
  intros Hd Er Et. unfold recover. destruct (protocol_reserve xr intent d) as [r d1] eqn:Hc.
  assert (∀ id row, reservations d1 !! id = Some row → rv_state row = Dispatched →
    reservations d !! id = Some row) as H1.
  { unfold protocol_reserve, call in Hc. rewrite Er in Hc. simpl in Hc. unfold commit in Hc.
    destruct (reserve_money _ intent d) as [[row0 d0]|e] eqn:Hrun;
      destruct (xc_fate xr); simplify_eq; try done; by eapply reserve_record. }
  destruct (reserve_call _ _ _ _ _ Hd Hc) as (Hd1 & _ & _).
  destruct r as [state|status]; [|intros [= _ <-]; done].
  destruct (decide (state = Reserved)) as [->|Hne].
  - destruct (protocol_release xt intent d1) as [t d2] eqn:Hc2. intros E.
    assert (d' = d2) as -> by (by destruct t as [[]|]; injection E as _ <-). clear E.
    unfold protocol_release, call in Hc2. rewrite Et in Hc2. simpl in Hc2. unfold commit in Hc2.
    destruct (release_money _ _ _ _ d1) as [[row0 d0]|e] eqn:Hrun;
      destruct (xc_fate xt); simplify_eq; try done;
    destruct (release_money_effect _ _ _ _ _ _ _ (hl_inv _ (rd_healthy _ Hd1)) Hrun)
      as (_ & Hst & [[_ ->]|(r & _ & [_ M2 _ _ _ _ _])]); try done;
    intros id row Hrow Hs; rewrite M2 in Hrow;
      (apply lookup_insert_Some in Hrow as [[_ <-]|[_ Hrow]]; [congruence|by apply H1]).
  - replace (match state with Reserved => _ | _ => _ end) with (@Ok Z unit tt, d1) by by destruct state.
    by intros [= _ <-].
Qed.

(** What a dispatched reservation holds is covered by its account. *)
Lemma record_held intent state d : ready d → on_record intent state d → is_held state = true →
  ∃ row, reservations d !! rr_id intent = Some row ∧ rv_spec row = intent ∧ rv_state row = state ∧
    0 ≤ rv_reserved_microunits row ≤ held (account_id (rr_project_id intent)) d.
Proof.
  intros [Hh _] (row & Hr & Hs & Hst) Hheld. exists row. split; [done|]. split; [done|]. split; [done|].
  pose proof (hl_inv _ Hh) as HI.
  destruct (inv_reservations _ _ HI _ _ Hr) as [_ R2 R3 _ _ _].
  assert (rv_billing_account_id row = account_id (rr_project_id intent)) as Ha by (by rewrite R3, <- R2, Hs).
  destruct (row_hold_le _ _ _ _ HI Hr Ha) as [Hle _]. unfold row_hold in Hle. by rewrite Hst, Hheld in Hle.
Qed.

Lemma billing_admit_spec healthy_ queued v intent d r recovered d' :
  ready d → billing_admit healthy_ queued v intent d = (r, recovered, d') →
  ready d' ∧
  (∀ t, r = Ok t → t = ticket intent ∧ undispatched intent d ∧ on_record intent Dispatched d') ∧
  ((∀ status, recovered ≠ Some (Err status)) → on_record intent Reserved d' → d' = d).
Proof.
  intros Hd Hrun.
  unfold billing_admit in Hrun. destruct (negb healthy_ || negb queued); simplify_eq; [done|].
    unfold serve_command in Hrun. destruct (negb (vi_waiting v)); [by destruct (vi_late v); simplify_eq/=|].
    destruct (protocol_admit _ _ _ _ _) as [x d1] eqn:Ha. apply admit_spec in Ha as [Hd1 Hx]; [|done].
    destruct (ambiguous x || vi_abandoned v) eqn:Hrec.
    - destruct (recover _ _ _ d1) as [y d2] eqn:Hy. apply recover_spec in Hy as [Hd2 Hy]; [|done].
      destruct x, (vi_abandoned v), (vi_late v); simplify_eq/=; split_and!; try done; intros Hno Hl;
        (destruct y as [[]|code]; [by destruct (Hy eq_refl)|by destruct (Hno code)]).
    - apply orb_false_iff in Hrec as [Hx' Hab]. rewrite Hab in Hrun. destruct x, (vi_late v); simplify_eq/=; split_and!; try done;
        first [intros t [= <-]; split_and!; [done|apply Hx|apply Hx]
              | intros _ Hl; by pose proof (record_unique _ _ _ _ Hl (proj1 Hx))
              | intros _ Hl; by destruct (Hx _ Hl)].
Qed.

(** C5: inference starts only on money, and a failed admission leaks none.
    Over a network that loses calls and answers, with any other requests in
    between: a gateway that gets a ticket has a reservation on record, with
    exactly the terms it asked for, dispatched by this admission and not
    before, and held on the account of the project; whatever else happened,
    unless the recovery itself reports a failure, no undispatched hold of the
    request is left that was not there before; and the recovery's own calls never dispatch a reservation. *)
Theorem admission_protocol healthy_ queued v intent d r recovered d' :
  ready d → billing_admit healthy_ queued v intent d = (r, recovered, d') →
  (∀ t, r = Ok t → t = ticket intent ∧ undispatched intent d ∧
     ∃ row, reservations d' !! rr_id intent = Some row ∧ rv_spec row = intent ∧
       rv_state row = Dispatched ∧
       0 ≤ rv_reserved_microunits row ≤ held (account_id (rr_project_id intent)) d') ∧
  ((∀ status, recovered ≠ Some (Err status)) → on_record intent Reserved d' → d' = d) ∧
  (∀ xr xt x d1, xc_others xr = [] → xc_others xt = [] → recover xr xt intent d' = (x, d1) →
     ∀ id row, reservations d1 !! id = Some row → rv_state row = Dispatched →
       reservations d' !! id = Some row).
Proof.
  intros Hd Hrun. destruct (billing_admit_spec _ _ _ _ _ _ _ _ Hd Hrun) as (Hd' & H1 & H2).
  split_and!; [|done|].
  - intros t Ht. destruct (H1 t Ht) as (-> & Hu & Hrec). split; [done|]. split; [done|]. exact (record_held _ _ _ Hd' Hrec eq_refl).
  - intros xr xt x d1 Er Et Hx. exact (recover_alone xr xt intent d' x d1 Hd' Er Et Hx).
Qed.
End admission.
