(* ===== verification/Outbox.v ===== *)
(** * Outbox: usage is delivered from memory, at least once, and billed once

    [crates/gateway/src/delivery.rs] and [crates/gateway/src/usage.rs]: the
    bounded queue between the requests a gateway serves and the settlement
    endpoints of the control plane.  A slot is reserved before a request is
    admitted, carries the usage of the request when it ends, and is given up
    when the control plane has answered for it.  Instants are milliseconds of
    the monotonic clock.  The mutex makes every step of the queue atomic; the
    condition variable, telemetry and the trace headers are not modelled, and
    a queue knows its own permits. *)

From S2P Require Import Prelude Domain Models Store Books Catalog Projection Ledger Reservations.
From S2P Require Import Review Wallet Maintenance Lifecycle Payments Alipay Trial Worker Feed.
From S2P Require Import Billing Progress Service Admission.
Local Open Scope string_scope.
Local Open Scope Z_scope.

(** ** Settings *)

Record Settings := mkSettings {
  capacity : Z; workers : Z; max_age : Z; drain_ms : Z; grace_seconds : Z }.

(** A bounded number of the environment; the error names the variable. *)
Definition setting (get : string → option string) (name : string) (fallback low high : Z)
    : result string Z :=
  value ← ok_or (match get name with Some raw => parse_unsigned u64_max raw | None => Some fallback end)
            ("invalid " +:+ name);
  require ((low <=? value) && (value <=? high)) ("out of range " +:+ name) ;;
  mret value.

Definition settings_from_env (get : string → option string) : result string Settings :=
  capacity ← setting get "XSCOPE_USAGE_QUEUE_CAPACITY" 1024 1 65536;
  workers ← setting get "XSCOPE_USAGE_REPORT_WORKERS" 4 1 32;
  max_age ← setting get "XSCOPE_USAGE_MAX_PENDING_SECONDS" 30 1 3600;
  drain ← setting get "XSCOPE_USAGE_DRAIN_SECONDS" 10 1 300;
  grace ← setting get "XSCOPE_GATEWAY_GRACE_SECONDS" 20 1 600;
  mret (mkSettings capacity workers (max_age * 1000) (drain * 1000) grace).

Lemma setting_bounds get name fallback low high v :
  setting get name fallback low high = Ok v → low ≤ v ≤ high.
Proof.
  unfold setting. rewrite result_bind_Ok. intros (x & _ & H). rewrite require_bind_Ok in H.
  destruct H as [Hb [= <-]]. by rewrite andb_true_iff, !Z.leb_le in Hb.
Qed.

Lemma settings_capacity get s : settings_from_env get = Ok s → 1 ≤ capacity s ≤ 65536.
Proof.
  unfold settings_from_env. rewrite result_bind_Ok. intros (c & Hc%setting_bounds & H).
  do 4 (apply result_bind_Ok in H as (? & _ & H)). by injection H as <-.
Qed.

(** ** The event of a request *)

Record UsageEvent := mkUsage {
  ev_billing : option Ticket;
  ev_usage_known : bool;
  ev_schema_version : string;
  ev_event_id : string;
  ev_request_id : string;
  ev_occurred_at : Z;
  ev_tenant_id : string;
  ev_project_id : string;
  ev_api_key_id : string;
  ev_model_id : string;
  ev_model_revision : string;
  ev_endpoint_id : string;
  ev_region : string;
  ev_price_version : string;
  ev_input_tokens : Z;
  ev_output_tokens : Z;
  ev_cached_input_tokens : Z;
  ev_latency_ms : Z;
  ev_status : string }.

Record UsageSink := mkSink { sk_region : string; sk_model_revision : string; sk_price_version : string }.

Record UsageRecord := mkUsageRecord {
  ur_price_version : option string;
  ur_request_id : string;
  ur_tenant_id : string; ur_project_id : string; ur_api_key_id : string;
  ur_endpoint_id : string;
  ur_model_id : string;
  ur_model_revision : string;
  ur_input_tokens : Z;
  ur_output_tokens : Z;
  ur_latency_ms : Z;
  ur_status : string;
  ur_billing : option Ticket;
  ur_usage_known : bool }.

(** The event that [UsageSink::record] submits. *)
Definition usage_event (sink : UsageSink) (uuid : string) (now : Z) (r : UsageRecord) : UsageEvent := {|
  ev_billing := ur_billing r;
  ev_usage_known := ur_usage_known r;
  ev_schema_version := if is_some (ur_billing r) then "v2" else "v1";
  ev_event_id := "evt-" +:+ uuid;
  ev_request_id := ur_request_id r;
  ev_occurred_at := now;
  ev_tenant_id := ur_tenant_id r;
  ev_project_id := ur_project_id r;
  ev_api_key_id := ur_api_key_id r;
  ev_model_id := ur_model_id r;
  ev_model_revision :=
    if is_empty (ur_model_revision r) then sk_model_revision sink else ur_model_revision r;
  ev_endpoint_id := ur_endpoint_id r;
  ev_region := sk_region sink;
  ev_price_version := default (sk_price_version sink) (ur_price_version r);
  ev_input_tokens := ur_input_tokens r;
  ev_output_tokens := ur_output_tokens r;
  ev_cached_input_tokens := 0;
  ev_latency_ms := ur_latency_ms r;
  ev_status := ur_status r |}.

(** ** Delivery *)

Inductive DeliveryError := Retry (status : Z) | Permanent (status : Z).

(** A failure with a status, or without one. *)
Definition http_failure (status : option Z) : DeliveryError :=
  match status with
  | None => Retry 0
  | Some status =>
      if existsb (Z.eqb status) [408; 425; 429] || ((500 <=? status) && (status <=? 599))
      then Retry status else Permanent status
  end.

Definition u64_of_i64 (z : Z) : Z := z mod 2 ^ 64.
Definition i64_try_from (z : Z) : result DeliveryError Z := ok_or (checked_i64 z) (Permanent 400).

Definition settlement_status (status : string) : string :=
  if str_eqb status "succeeded" then "succeeded"
  else if str_eqb status "cancelled" then "cancelled" else "provider_error".

Definition settlement (e : UsageEvent) : result DeliveryError SettleRequest :=
  input ← i64_try_from (ev_input_tokens e);
  output ← i64_try_from (ev_output_tokens e);
  latency ← i64_try_from (ev_latency_ms e);
  mret (mkSettle input output latency (ev_endpoint_id e) (ev_region e) (settlement_status (ev_status e))).

Lemma settlement_tokens e r : settlement e = Ok r →
  sr_input_tokens r = ev_input_tokens e ∧ sr_output_tokens r = ev_output_tokens e.
Proof.
  unfold settlement, i64_try_from. intros (i & Hi & H)%result_bind_Ok.
  apply result_bind_Ok in H as (o & Ho & H). apply result_bind_Ok in H as (n & _ & [= <-]).
  apply ok_or_Ok, checked_i64_Some in Hi as [-> _]. by apply ok_or_Ok, checked_i64_Some in Ho as [-> _].
Qed.

Definition unresolved (e : UsageEvent) : UnresolvedRequest :=
  mkUnresolved (ev_event_id e) (if ev_usage_known e then "usage_over_limit" else "usage_missing")
    (if ev_usage_known e then Some (ev_input_tokens e) else None)
    (if ev_usage_known e then Some (ev_output_tokens e) else None).

(** The usage is known, within the limits that were reserved. *)
Definition within_limits (t : Ticket) (e : UsageEvent) : bool :=
  ev_usage_known e && (ev_input_tokens e <=? u64_of_i64 (tk_input_token_limit t))
  && (ev_output_tokens e <=? u64_of_i64 (tk_output_token_limit t)).

(** The body as the usage endpoint reads it, if every number is an [i64]; it
    has no cost. *)
Definition reported (e : UsageEvent) : option Domain.UsageEvent :=
  if forallb in_i64 [ev_input_tokens e; ev_output_tokens e; ev_latency_ms e] then
    Some (mkUsageEvent (ev_schema_version e) (ev_event_id e) (ev_request_id e) (ev_occurred_at e)
      (ev_tenant_id e) (ev_project_id e) (ev_api_key_id e) (ev_model_id e) (ev_model_revision e)
      (ev_endpoint_id e) (ev_region e) (ev_price_version e) (ev_input_tokens e) (ev_output_tokens e)
      (ev_cached_input_tokens e) (ev_latency_ms e) (ev_status e) (mkMoney "" 0))
  else None.

Fixpoint strip_suffix (suffix s : string) : option string :=
  if str_eqb s suffix then Some EmptyString
  else match s with
       | EmptyString => None
       | String c s => String c <$> strip_suffix suffix s
       end.

(** The request of a delivery; [None] is a body that the endpoint cannot read. *)
Definition request_of (report_url : string) (e : UsageEvent) : result DeliveryError (option op) :=
  match ev_billing e with
  | None =>
      if str_eqb (ev_schema_version e) "v1" then mret (RecordUsage <$> reported e)
      else Err (Permanent 400)
  | Some t =>
      if str_eqb (ev_schema_version e) "v2" then
        ok_or (strip_suffix "/usage-events" report_url) (Permanent 0) ;;
        if within_limits t e then
          r ← settlement e; mret (Some (Settle (tk_project_id t) (tk_id t) r))
        else mret (Some (ReportUnresolved (tk_project_id t) (tk_id t) (unresolved e)))
      else Err (Permanent 400)
  end.

(** ** The queue *)

Record Entry := mkEntry {
  en_event : option UsageEvent;
  en_queued : option Z;
  en_next : Z;
  en_attempt : Z;
  en_busy : bool }.

(** A [BTreeMap] is a map that is read in the order of its keys. *)
Record State := mkState {
  entries : gmap Z Entry;
  sequence : Z;
  draining : bool;
  stopped : bool;
  fatal : bool }.

Definition State_default : State := mkState ∅ 0 false false false.

Definition set_entries (f : gmap Z Entry → gmap Z Entry) (st : State) : State :=
  mkState (f (entries st)) (sequence st) (draining st) (stopped st) (fatal st).

Definition in_order (m : gmap Z Entry) : list (Z * Entry) := order_by fst (map_to_list m).

Definition stale (settings : Settings) (now : Z) (e : Entry) : bool :=
  match en_queued e with Some t => max_age settings <=? now - t | None => false end.

Definition queue_ready (settings : Settings) (now : Z) (st : State) : bool :=
  negb (draining st) && negb (stopped st) && negb (fatal st)
  && (Z.of_nat (size (entries st)) <? capacity settings)
  && negb (existsb (stale settings now) (map_to_list (entries st)).*2).

(** [Queue::reserve]: the id of the permit. *)
Definition queue_reserve (settings : Settings) (now : Z) (st : State) : result string Z * State :=
  if negb (queue_ready settings now st) then
    (Err "usage queue full, stale, draining or unhealthy", st)
  else if u64_max <=? sequence st then (Err "queue sequence exhausted", st)
  else
    let id := sequence st + 1 in
    (Ok id, mkState (<[id := mkEntry None None now 0 false]> (entries st)) id
              (draining st) (stopped st) (fatal st)).

Lemma queue_reserve_Ok s now q id q' : queue_reserve s now q = (Ok id, q') →
  id = sequence q + 1 ∧ entries q' = <[id := mkEntry None None now 0 false]> (entries q) ∧ sequence q' = id.
Proof.
  unfold queue_reserve. destruct (queue_ready s now q); [|done]. simpl.
  destruct (u64_max <=? sequence q); [done|]. by intros [= <- <-].
Qed.

(** [Queue::submit]; [bytes] is the length of the encoded event. *)
Definition submit (bytes now id : Z) (event : UsageEvent) (st : State) : result string unit * State :=
  if 32 * 1024 <? bytes then (Err "usage event exceeds 32 KiB", st)
  else
    match entries st !! id with
    | None => (Err "missing usage queue permit", st)
    | Some e =>
        if is_some (en_event e) then (Err "usage permit already submitted", st)
        else (Ok tt, set_entries <[id := mkEntry (Some event) (Some now) now (en_attempt e) (en_busy e)]> st)
    end.

(** [Drop for Permit]: an accepted event keeps its slot. *)
Definition permit_drop (id : Z) (st : State) : State :=
  match entries st !! id with
  | Some e => if is_some (en_event e) then st else set_entries (delete id) st
  | None => st
  end.

Definition begin_drain (st : State) : State :=
  mkState (entries st) (sequence st) true (stopped st) (fatal st).

(** [finish] waits for this, then stops the workers. *)
Definition drained (now deadline : Z) (st : State) : bool :=
  bool_decide (entries st = ∅) || (deadline <=? now).
Definition finish_stop (st : State) : State :=
  mkState (entries st) (sequence st) (draining st) true (fatal st).

(** The first half of a round of [run]: the work that is taken. *)
Definition due (now : Z) (e : Entry) : bool :=
  negb (en_busy e) && is_some (en_event e) && (en_next e <=? now).

Definition take (now : Z) (st : State) : option (Z * UsageEvent) * State :=
  if stopped st then (None, st)
  else
    match find (λ p, due now p.2) (in_order (entries st)) with
    | Some (id, e) =>
        (pair id <$> en_event e,
         set_entries <[id := mkEntry (en_event e) (en_queued e) (en_next e) (en_attempt e) true]> st)
    | None => (None, st)
    end.

Definition backoff (attempt id : Z) : Z :=
  Z.min (saturating_mul_u64 250 (2 ^ Z.min attempt 6)) 10000 + id mod 251.

Definition fatal_status (status : Z) : bool :=
  ((300 <=? status) && (status <=? 399)) || existsb (Z.eqb status) [401; 403; 404; 0].

(** The second half: what becomes of the work. *)
Definition complete (now id : Z) (r : result DeliveryError unit) (st : State) : State :=
  match r with
  | Ok _ => set_entries (delete id) st
  | Err (Retry _) =>
      match entries st !! id with
      | Some e =>
          let attempt := Z.min (en_attempt e + 1) u32_max in
          set_entries <[id := mkEntry (en_event e) (en_queued e) (now + backoff attempt id) attempt false]> st
      | None => st
      end
  | Err (Permanent status) =>
      mkState (delete id (entries st)) (sequence st) (draining st) (stopped st)
        (fatal st || fatal_status status)
  end.

(** ** The queue, its workers and the control plane *)

Section outbox.
Context `{ServiceLibraries}.
Variable (event_bytes : UsageEvent → Z) (settings : Settings) (report_url : string).

(** [deliver] *)
Definition deliver (x : exchange) (e : UsageEvent) (d : Db) : result DeliveryError unit * Db :=
  match request_of report_url e with
  | Err error => (Err error, d)
  | Ok request =>
      let d := serve_all d (xc_others x) in
      match xc_fate x, request with
      | NotSent, _ => (Err (http_failure None), d)
      | AnswerLost, None => (Err (http_failure None), d)
      | AnswerLost, Some o => (Err (http_failure None), serve d (xc_env x, o))
      | Answered, None => (Err (http_failure (Some 422)), d)
      | Answered, Some o =>
          match run (xc_env x) o d with
          | Ok (_, d') => (Ok tt, d')
          | Err e => (Err (http_failure (Some (error_response e).1)), d)
          end
      end
  end.

(** The queue with the work its workers carry, the events it accepted and
    what became of them. *)
Record Outbox := mkOutbox {
  ob_queue : State;
  ob_working : gmap Z UsageEvent;
  ob_accepted : list (Z * UsageEvent);
  ob_disposed : list (Z * UsageEvent * result DeliveryError unit);
  ob_db : Db }.

Inductive step :=
| OnReserve (now : Z)
| OnSubmit (now id : Z) (e : UsageEvent)
| OnDrop (id : Z)
| OnDrain
| OnFinish (now deadline : Z)
| OnTake (now : Z)
| OnDeliver (now id : Z) (x : exchange)
| OnOthers (l : list (Env * op)).

(** The delivery is not retried. *)
Definition final (r : result DeliveryError unit) : bool :=
  match r with Err (Retry _) => false | _ => true end.

Definition advance (w : Outbox) (s : step) : Outbox :=
  let 'mkOutbox q working accepted disposed d := w in
  match s with
  | OnReserve now => mkOutbox (queue_reserve settings now q).2 working accepted disposed d
  | OnSubmit now id e =>
      let (r, q) := submit (event_bytes e) now id e q in
      mkOutbox q working (if is_ok r then (id, e) :: accepted else accepted) disposed d
  | OnDrop id => mkOutbox (permit_drop id q) working accepted disposed d
  | OnDrain => mkOutbox (begin_drain q) working accepted disposed d
  | OnFinish now deadline =>
      if draining q && drained now deadline q then mkOutbox (finish_stop q) working accepted disposed d
      else w
  | OnTake now =>
      let (work, q) := take now q in
      mkOutbox q (match work with Some (id, e) => <[id := e]> working | None => working end)
        accepted disposed d
  | OnDeliver now id x =>
      match working !! id with
      | Some e =>
          let (r, d) := deliver x e d in
          mkOutbox (complete now id r q) (delete id working) accepted
            (if final r then (id, e, r) :: disposed else disposed) d
      | None => w
      end
  | OnOthers l => mkOutbox q working accepted disposed (serve_all d l)
  end.

Definition outbox (d : Db) (l : list step) : Outbox :=
  foldl advance (mkOutbox State_default ∅ [] [] d) l.

(** ** What a delivery commits *)

(** What the control plane has on record for an event it acknowledged: its
    settlement, or a dispatched reservation that only a review can close. *)
Definition acknowledged (e : UsageEvent) (d : Db) : Prop :=
  match request_of report_url e with
  | Ok (Some (Settle p id r)) => ∃ row, reservations d !! id = Some row ∧ rv_project_id row = p ∧
      rv_state row = Settled ∧ rv_completion row = Some (settle_json r)
  | Ok (Some (ReportUnresolved p id r)) => ∃ row, reservations d !! id = Some row ∧
      rv_project_id row = p ∧ rtc transition Dispatched (rv_state row)
  | Ok (Some _) => True
  | _ => False
  end.

Lemma acknowledged_served e d l : healthy d → acknowledged e d → acknowledged e (serve_all d l).
Proof.
  intros Hd. unfold acknowledged. destruct (request_of report_url e) as [[[]|]|]; try done.
  - intros (row & Hr & Hp & Hs & Hc). destruct (serve_all_advances d l Hd _ _ Hr) as (row' & Hr' & [_ _ Hf]).
    specialize (Hf ltac:(by rewrite Hs)) as ->. by exists row.
  - intros (row & Hr & Hp & Hs). destruct (serve_all_advances d l Hd _ _ Hr) as (row' & Hr' & [At As _]).
    exists row'. split; [done|]. split; [by rewrite At|by etrans].
Qed.

Lemma settle_money_project env p id r d row d' : Inv d → settle_money env p id r d = Ok (row, d') →
  reservations d' !! id = Some row ∧ rv_project_id row = p ∧ rv_state row = Settled ∧
  rv_completion row = Some (settle_json r).
Proof.
  intros HI Hrun. destruct (settle_money_effect _ _ _ _ _ _ _ HI Hrun) as (_ & Hs & Hc & Hcase).
  assert (∃ row0, reservations d !! id = Some row0 ∧ rv_project_id row0 = p) as (row0 & Hr0 & Hp).
  { unfold settle_money in Hrun. tx_inv Hrun. apply lock_account_Ok in Htx as [-> _].
    apply find_reservation_Ok in Htx0 as (_ & Hr & Hp). by eexists. }
  destruct Hcase as [[Hr ->]|(r0 & _ & [M1 M2 M3 _ _ _ _])]; [naive_solver|].
  rewrite M2, lookup_insert_eq. split; [done|]. split; [rewrite M3; simpl; congruence|done].
Qed.

Lemma unresolved_money_project env p id r d row d' : Inv d → unresolved_money env p id r d = Ok (row, d') →
  reservations d' !! id = Some row ∧ rv_project_id row = p ∧ rtc transition Dispatched (rv_state row).
Proof.
  intros HI Hrun. destruct (unresolved_money_effect _ _ _ _ _ _ _ HI Hrun) as (_ & Hcase).
  assert (∃ row0, reservations d !! id = Some row0 ∧ rv_project_id row0 = p ∧
    (rv_state row0 = Dispatched ∨ row = row0 ∧ (rv_state row0 = Settled ∨ rv_state row0 = Waived)))
    as (row0 & Hr0 & Hp & Hst).
  { unfold unresolved_money in Hrun. tx_inv Hrun. apply lock_account_Ok in Htx as [-> _].
    apply find_reservation_Ok in Htx0 as (-> & Hr & Hp). eexists. split; [done|]. split; [done|].
    destruct (rv_state a1) eqn:Hs; tx_inv Hrun; [by left|right; split; [done|by left]|right; split; [done|by right]]. }
  destruct Hcase as [[Hr ->]|(r0 & Hd & Hs & [M1 M2 M3 _ _ _ _])].
  - split; [done|]. simplify_eq. split; [done|]. destruct Hst as [E|[_ [E|E]]]; rewrite E; [done|apply rtc_once; by constructor..].
  - rewrite M2, lookup_insert_eq, Hs. split; [done|]. split; [rewrite M3; simpl; congruence|done].
Qed.

Lemma deliver_spec x e d r d' : ready d → deliver x e d = (r, d') →
  (∃ l, d' = serve_all d l) ∧ (r = Ok tt → acknowledged e d').
Proof.
  intros Hd. unfold deliver, acknowledged. destruct (request_of report_url e) as [[o|]|err];
    [|destruct (xc_fate x); intros [= <- <-]; split; try done; by eexists
     |intros [= <- <-]; split; [by exists nil|done]].
  pose proof (rd_healthy _ (serve_all_ready _ (xc_others x) Hd)) as Hh.
  assert (serve (serve_all d (xc_others x)) (xc_env x, o) = serve_all d (xc_others x ++ [(xc_env x, o)])) as Hone
    by (unfold serve_all; by rewrite foldl_app).
  destruct (xc_fate x); [|rewrite Hone; intros [= <- <-]; split; [by eexists|done]
    |intros [= <- <-]; split; [by eexists|done]].
  destruct (run (xc_env x) o (serve_all d (xc_others x))) as [[u d1]|err] eqn:Hrun;
    intros [= <- <-]; [|split; [by eexists|done]].
  split.
  - exists (xc_others x ++ [(xc_env x, o)])%list. rewrite <- Hone. unfold serve, commit. simpl. by rewrite Hrun.
  - intros _. destruct o; try done; simpl in Hrun; apply discard_Ok in Hrun as [row Hrun];
      exists row; [eapply settle_money_project|eapply unresolved_money_project]; try exact Hrun; apply Hh.
Qed.

(** ** Nothing accepted is lost, or disposed of twice *)

(** The events that are still to be delivered. *)
Definition pending (q : State) : gmap Z UsageEvent := omap en_event (entries q).

Record Outbox_ok (w : Outbox) : Prop := {
  ob_ready : ready (ob_db w);
  ob_size : Z.of_nat (size (entries (ob_queue w))) ≤ capacity settings;
  ob_ids id : is_Some (entries (ob_queue w) !! id) → id ≤ sequence (ob_queue w);
  ob_known x : x ∈ ob_accepted w → x.1 ≤ sequence (ob_queue w);
  ob_kept : ob_accepted w ≡ₚ (map_to_list (pending (ob_queue w)) ++ (ob_disposed w).*1)%list;
  ob_once : NoDup (ob_accepted w).*1;
  ob_gone x : x ∈ ob_disposed w → entries (ob_queue w) !! x.1.1 = None;
  ob_busy id e : entries (ob_queue w) !! id = Some e → en_busy e = true → is_Some (en_event e);
  ob_carried id ev : ob_working w !! id = Some ev ↔
    ∃ e, entries (ob_queue w) !! id = Some e ∧ en_busy e = true ∧ en_event e = Some ev;
  ob_answered x : x ∈ ob_disposed w → x.2 = Ok tt → acknowledged x.1.2 (ob_db w) }.

Lemma pending_insert_same q id e e' : entries q !! id = Some e → en_event e' = en_event e →
  omap en_event (<[id := e']> (entries q)) = pending q.
Proof.
  intros He Hev. apply map_eq. intros j. rewrite lookup_omap. unfold pending. rewrite lookup_omap.
  destruct (decide (j = id)) as [->|Hne]; [by rewrite lookup_insert_eq, He|by rewrite lookup_insert_ne].
Qed.

Lemma pending_delete_none q id : entries q !! id ≫= en_event = None →
  omap en_event (delete id (entries q)) = pending q.
Proof.
  intros He. unfold pending. rewrite omap_delete. apply delete_id. by rewrite lookup_omap.
Qed.

(** A step on the queue that leaves the events alone. *)
Lemma keeps_events w q' :
  Outbox_ok w → pending q' = pending (ob_queue w) → sequence (ob_queue w) ≤ sequence q' →
  Z.of_nat (size (entries q')) ≤ capacity settings →
  (∀ id, is_Some (entries q' !! id) → id ≤ sequence q') →
  (∀ id, entries (ob_queue w) !! id = None → id ≤ sequence (ob_queue w) → entries q' !! id = None) →
  (∀ id e, entries q' !! id = Some e → en_busy e = true ↔ is_Some (ob_working w !! id)) →
  (∀ id, is_Some (ob_working w !! id) → is_Some (entries q' !! id)) →
  Outbox_ok (mkOutbox q' (ob_working w) (ob_accepted w) (ob_disposed w) (ob_db w)).
Proof.
  intros [W1 W2 W3 W4 W5 W6 W7 W8 W9 W10] Hp Hs H1 H2 H3 H4 H5.
  assert (∀ id, entries q' !! id ≫= en_event = entries (ob_queue w) !! id ≫= en_event) as Hev.
  { intros id. unfold pending in Hp. rewrite <- !lookup_omap. by rewrite Hp. }
  split; simpl; try done.
  - intros x Hx. specialize (W4 x Hx). lia.
  - by rewrite Hp.
  - intros x Hx. apply H3; [by apply W7|]. apply W4. rewrite W5. apply elem_of_app. right.
    by apply list_elem_of_fmap_2.
  - intros id e He Hb. apply (H4 _ _ He) in Hb. destruct Hb as [ev (e0 & He0 & _ & Hev0)%W9].
    specialize (Hev id). rewrite He, He0 in Hev. simpl in Hev. rewrite Hev, Hev0. done.
  - intros id ev. split.
    + intros Hw. destruct (H5 id) as [e He]; [by eexists|]. exists e. split; [done|].
      split; [apply (H4 _ _ He); by eexists|].
      apply W9 in Hw as (e0 & He0 & _ & Hev0). specialize (Hev id). rewrite He, He0 in Hev. simpl in Hev. congruence.
    + intros (e & He & Hb & Hev1). apply (H4 _ _ He) in Hb. destruct Hb as [ev' Hw]. rewrite Hw. f_equal.
      apply W9 in Hw as (e0 & He0 & _ & Hev0). specialize (Hev id). rewrite He, He0 in Hev. simpl in Hev. congruence.
Qed.

Lemma working_entry w id : Outbox_ok w → is_Some (ob_working w !! id) →
  ∃ e, entries (ob_queue w) !! id = Some e ∧ en_busy e = true ∧ en_event e = ob_working w !! id.
Proof. intros Hw [ev Hev]. rewrite Hev. by apply (ob_carried _ Hw). Qed.
Lemma busy_working w id e : Outbox_ok w → entries (ob_queue w) !! id = Some e →
  en_busy e = true ↔ is_Some (ob_working w !! id).
Proof.
  intros Hw He. split.
  - intros Hb. destruct (ob_busy _ Hw _ _ He Hb) as [ev Hev]. exists ev. apply (ob_carried _ Hw). by exists e.
  - intros Hs. destruct (working_entry _ _ Hw Hs) as (e' & He' & Hb & _). congruence.
Qed.

Lemma reserve_ok now w : Outbox_ok w →
  Outbox_ok (advance w (OnReserve now)).
Proof.
  intros Hw. destruct w as [q working accepted disposed d]. simpl. unfold queue_reserve.
  destruct (queue_ready settings now q) eqn:Hr; simpl; [|done].
  destruct (u64_max <=? sequence q); simpl; [done|].
  pose proof (ob_ids _ Hw) as Hids. simpl in Hids.
  assert (entries q !! (sequence q + 1) = None) as Hnew.
  { destruct (entries q !! (sequence q + 1)) eqn:E; [|done]. specialize (Hids _ ltac:(by eexists)). lia. }
  set (e0 := mkEntry None None now 0 false).
  apply (keeps_events _ (mkState (<[sequence q + 1 := e0]> (entries q)) (sequence q + 1)
    (draining q) (stopped q) (fatal q)) Hw); simpl.
  - unfold pending at 1. simpl. rewrite (omap_insert_None _ _ _ _ (eq_refl : en_event e0 = None)). rewrite <- omap_delete.
    by rewrite delete_id.
  - lia.
  - rewrite map_size_insert_None by done. unfold queue_ready in Hr. rewrite !andb_true_iff, Z.ltb_lt in Hr. lia.
  - intros id [e [[<- _]|[_ He]]%lookup_insert_Some]; [lia|]. specialize (Hids id ltac:(by eexists)). lia.
  - intros id Hid Hle. rewrite lookup_insert_ne by lia. done.
  - intros id e [[<- <-]|[_ He]]%lookup_insert_Some; [|by apply (busy_working _ _ _ Hw)].
    split; [done|]. intros Hs. apply (working_entry _ _ Hw) in Hs as (e & He & _). simpl in He. congruence.
  - intros id Hs. destruct (decide (sequence q + 1 = id)) as [<-|Hne]; [rewrite lookup_insert_eq; by eexists|].
    rewrite lookup_insert_ne by done. apply (working_entry _ _ Hw) in Hs as (e & He & _). by eexists.
Qed.

Lemma drop_ok id w : Outbox_ok w → Outbox_ok (advance w (OnDrop id)).
Proof.
  intros Hw. destruct w as [q working accepted disposed d]. simpl. unfold permit_drop.
  destruct (entries q !! id) as [e|] eqn:He; [|done]. destruct (is_some (en_event e)) eqn:Hev; [done|].
  apply is_some_false in Hev. pose proof (ob_ids _ Hw) as Hids. pose proof (ob_size _ Hw) as Hsize. simpl in *.
  apply (keeps_events _ (set_entries (delete id) q) Hw); simpl.
  - apply pending_delete_none. rewrite He. done.
  - done.
  - rewrite map_size_delete_Some; [lia|by eexists].
  - intros j [e' [_ He']%lookup_delete_Some]. by apply Hids.
  - intros j Hj _. by rewrite lookup_delete_None, Hj; right.
  - intros j e' [_ He']%lookup_delete_Some. by apply (busy_working _ _ _ Hw).
  - intros j Hs. apply (working_entry _ _ Hw) in Hs as (e' & He' & Hb & Hw').
    destruct (decide (id = j)) as [<-|Hne]; [|rewrite lookup_delete_ne; [by eexists|done]].
    simpl in He'. simplify_eq. destruct (ob_busy _ Hw _ _ He Hb) as [ev Hev']. congruence.
Qed.

Lemma flags_ok q' w : Outbox_ok w → entries q' = entries (ob_queue w) → sequence q' = sequence (ob_queue w) →
  Outbox_ok (mkOutbox q' (ob_working w) (ob_accepted w) (ob_disposed w) (ob_db w)).
Proof. intros [] E1 E2. split; simpl; unfold pending in *; rewrite ?E1, ?E2; done. Qed.

Lemma due_find now q id e : find (λ p, due now p.2) (in_order (entries q)) = Some (id, e) →
  entries q !! id = Some e ∧ en_busy e = false ∧ is_Some (en_event e).
Proof.
  intros [Hin Hd]%find_some. apply list_elem_of_In in Hin. unfold in_order in Hin.
  rewrite order_by_perm in Hin. apply elem_of_map_to_list in Hin. split; [done|]. simpl in Hd.
  unfold due in Hd. rewrite !andb_true_iff, negb_true_iff in Hd. destruct Hd as [[-> Hd] _].
  split; [done|]. by apply is_some_true in Hd as [? ->].
Qed.

Lemma take_ok now w : Outbox_ok w → Outbox_ok (advance w (OnTake now)).
Proof.
  intros Hw. destruct w as [q working accepted disposed d]. simpl. unfold take.
  destruct (stopped q); [done|]. destruct (find _ _) as [[id e]|] eqn:Hf; [|done].
  apply due_find in Hf as (He & Hb & ev & Hev). rewrite Hev. simpl.
  destruct Hw as [W1 W2 W3 W4 W5 W6 W7 W8 W9 W10]. simpl in *.
  assert (∀ j, is_Some (<[id := mkEntry (Some ev) (en_queued e) (en_next e) (en_attempt e) true]> (entries q) !! j)
    ↔ is_Some (entries q !! j)) as Hdom.
  { intros j. destruct (decide (id = j)) as [<-|Hne]; [|by rewrite lookup_insert_ne].
    rewrite lookup_insert_eq, He. split; by eexists. }
  split; simpl; try done.
  - rewrite map_size_insert_Some; [done|by eexists].
  - intros j Hj. apply W3. by apply Hdom.
  - unfold pending. simpl. rewrite (pending_insert_same _ _ e) by done. done.
  - intros x Hx. apply eq_None_not_Some. rewrite Hdom, (W7 x Hx). apply is_Some_None.
  - intros j e' [[<- <-]|[_ He']]%lookup_insert_Some; [by eexists|by eapply W8].
  - intros j ev'. destruct (decide (id = j)) as [<-|Hne].
    + rewrite !lookup_insert_eq. split; [intros [= <-]; by eexists|]. intros (e' & [= <-] & _ & Hev'). done.
    + rewrite !lookup_insert_ne by done. apply W9.
Qed.

Lemma submit_ok now id ev w : Outbox_ok w → Outbox_ok (advance w (OnSubmit now id ev)).
Proof.
  intros Hw. destruct w as [q working accepted disposed d]. simpl. unfold submit.
  destruct (32 * 1024 <? event_bytes ev); [done|]. destruct (entries q !! id) as [e|] eqn:He; [|done].
  destruct (is_some (en_event e)) eqn:Hnone; [done|]. apply is_some_false in Hnone. simpl.
  destruct Hw as [W1 W2 W3 W4 W5 W6 W7 W8 W9 W10]. simpl in *.
  assert (en_busy e = false) as Hidle.
  { destruct (en_busy e) eqn:Hb; [|done]. destruct (W8 _ _ He Hb). congruence. }
  assert (pending q !! id = None) as Hout by (unfold pending; rewrite lookup_omap, He; done).
  assert (is_Some (entries q !! id)) as Hin by (by eexists).
  assert (id ∉ accepted.*1) as Hfresh.
  { intros (x & Ex & Hx)%list_elem_of_fmap. rewrite W5 in Hx. apply elem_of_app in Hx as [Hx|Hx].
    - destruct x as [j ev']. apply elem_of_map_to_list in Hx. simpl in Ex. congruence.
    - apply list_elem_of_fmap in Hx as (y & -> & Hy). apply W7 in Hy. congruence. }
  split; simpl; try done.
  - rewrite map_size_insert_Some; [done|by eexists].
  - intros j [e' [[<- _]|[_ He']]%lookup_insert_Some]; [by apply W3|by apply W3].
  - intros x [->|Hx]%elem_of_cons; [by apply W3|by apply W4].
  - rewrite W5. unfold pending at 2. simpl.
    rewrite (omap_insert_Some _ _ _ _ ev) by done. fold (pending q). by rewrite map_to_list_insert.
  - by apply NoDup_cons.
  - intros x Hx. pose proof (W7 x Hx). rewrite lookup_insert_ne; [done|]. intros ->. congruence.
  - intros j e' [[<- <-]|[_ He']]%lookup_insert_Some; [by eexists|by eapply W8].
  - intros j ev'. rewrite W9. destruct (decide (id = j)) as [<-|Hne]; [|by rewrite lookup_insert_ne].
    rewrite lookup_insert_eq, He. split; intros (e' & [= <-] & Hb & _); simpl in *; congruence.
Qed.
(** The control plane moved on. *)
Lemma served_ok w l : Outbox_ok w →
  Outbox_ok (mkOutbox (ob_queue w) (ob_working w) (ob_accepted w) (ob_disposed w) (serve_all (ob_db w) l)).
Proof.
  intros [W1 W2 W3 W4 W5 W6 W7 W8 W9 W10]. split; simpl; try done; [by apply serve_all_ready|].
  intros x Hx Hr. apply acknowledged_served; [apply W1|by apply W10].
Qed.

Lemma dispose_ok q' id ev r w :
  Outbox_ok w → ob_working w !! id = Some ev →
  entries q' = delete id (entries (ob_queue w)) → sequence q' = sequence (ob_queue w) →
  (r = Ok tt → acknowledged ev (ob_db w)) →
  Outbox_ok (mkOutbox q' (delete id (ob_working w)) (ob_accepted w) ((id, ev, r) :: ob_disposed w) (ob_db w)).
Proof.
  intros [W1 W2 W3 W4 W5 W6 W7 W8 W9 W10] Hev Eq Es Hack. apply W9 in Hev as (e & He & Hb & Hev).
  assert (pending (ob_queue w) !! id = Some ev) as Hp by (unfold pending; rewrite lookup_omap, He; done).
  split; simpl; rewrite ?Eq, ?Es; try done.
  - rewrite map_size_delete_Some; [lia|by eexists].
  - intros j [e' [_ He']%lookup_delete_Some]. by apply W3.
  - rewrite W5. unfold pending at 2. rewrite Eq, omap_delete. fold (pending (ob_queue w)).
    rewrite <- (map_to_list_delete (pending (ob_queue w)) id ev Hp). simpl. apply Permutation_middle.
  - intros x [->|Hx]%elem_of_cons; [by apply lookup_delete_None; left|].
    apply lookup_delete_None. right. by apply W7.
  - intros j e' [_ He']%lookup_delete_Some. by eapply W8.
  - intros j ev'. destruct (decide (id = j)) as [<-|Hne].
    + rewrite !lookup_delete_eq. split; [done|]. by intros (? & ? & _).
    + rewrite !lookup_delete_ne by done. apply W9.
  - intros x [->|Hx]%elem_of_cons; [done|by apply W10].
Qed.

Lemma queue_retry_ok q' id ev e' w :
  Outbox_ok w → ob_working w !! id = Some ev → en_event e' = Some ev → en_busy e' = false →
  entries q' = <[id := e']> (entries (ob_queue w)) → sequence q' = sequence (ob_queue w) →
  Outbox_ok (mkOutbox q' (delete id (ob_working w)) (ob_accepted w) (ob_disposed w) (ob_db w)).
Proof.
  intros [W1 W2 W3 W4 W5 W6 W7 W8 W9 W10] Hev Eev Eb Eq Es. apply W9 in Hev as (e & He & Hb & Hev).
  split; simpl; rewrite ?Eq, ?Es; try done.
  - rewrite map_size_insert_Some; [done|by eexists].
  - intros j [e0 [[<- _]|[_ He']]%lookup_insert_Some]; [by apply W3|by apply W3].
  - unfold pending. rewrite Eq. rewrite (pending_insert_same _ _ e) by congruence. done.
  - intros x Hx. pose proof (W7 x Hx). rewrite lookup_insert_ne; [done|]. intros ->. congruence.
  - intros j e0 [[<- <-]|[_ He']]%lookup_insert_Some; [by eexists|by eapply W8].
  - intros j ev'. destruct (decide (id = j)) as [<-|Hne].
    + rewrite lookup_delete_eq, lookup_insert_eq. split; [done|]. intros (e0 & [= <-] & Hb0 & _). congruence.
    + rewrite lookup_delete_ne, lookup_insert_ne by done. apply W9.
Qed.

Lemma deliver_ok now id x w : Outbox_ok w → Outbox_ok (advance w (OnDeliver now id x)).
Proof.
  intros Hw. destruct w as [q working accepted disposed d]. simpl.
  destruct (working !! id) as [ev|] eqn:Hev; [|done].
  destruct (deliver x ev d) as [r d'] eqn:Hrun.
  destruct (deliver_spec _ _ _ _ _ (ob_ready _ Hw) Hrun) as ((l & ->) & Hack).
  apply (served_ok _ l) in Hw. simpl in Hw.
  destruct r as [[]|[status|status]]; simpl.
  - by apply (dispose_ok _ _ _ _ _ Hw).
  - destruct (proj1 (ob_carried _ Hw id ev) Hev) as (e & He & Hb & Hevent). simpl in He. rewrite He.
    match goal with |- Outbox_ok {| ob_queue := ?q' |} => by apply (queue_retry_ok q' _ ev (mkEntry (en_event e)
      (en_queued e) (now + backoff (Z.min (en_attempt e + 1) u32_max) id) (Z.min (en_attempt e + 1) u32_max) false)
      _ Hw) end.
  - by apply (dispose_ok _ _ _ _ _ Hw).
Qed.

Lemma advance_ok w s : Outbox_ok w → Outbox_ok (advance w s).
Proof.
  intros Hw. destruct s; [by apply reserve_ok|by apply submit_ok|by apply drop_ok| | |by apply take_ok
    |by apply deliver_ok|]; destruct w as [q working accepted disposed d]; simpl.
  - by apply (flags_ok _ _ Hw).
  - destruct (draining q && drained now deadline q); [by apply (flags_ok _ _ Hw)|done].
  - by apply (served_ok _ l Hw).
Qed.

Lemma outbox_ok d l : ready d → 0 ≤ capacity settings → Outbox_ok (outbox d l).
Proof.
  intros Hd Hc. unfold outbox. assert (Outbox_ok (mkOutbox State_default ∅ [] [] d)) as H0.
  { split; simpl; try done.
    - intros id [e He]. by rewrite lookup_empty in He.
    - by intros x ?%elem_of_nil.
    - constructor.
    - intros id ev. rewrite lookup_empty. split; [done|]. intros (e & He & _). by rewrite lookup_empty in He.
    - by intros x ?%elem_of_nil. }
  revert H0. generalize (mkOutbox State_default ∅ [] [] d) as w.
  induction l as [|s l IH]; intros w Hw; [done|]. simpl. by apply IH, advance_ok.
Qed.

(** ** The theorem *)

Lemma answered_request e t d : acknowledged e d → ev_billing e = Some t →
  if within_limits t e then
    ∃ r, request_of report_url e = Ok (Some (Settle (tk_project_id t) (tk_id t) r)) ∧ settlement e = Ok r
  else request_of report_url e =
    Ok (Some (ReportUnresolved (tk_project_id t) (tk_id t) (unresolved e))).
Proof.
  unfold acknowledged, request_of. intros Hack Ht. rewrite Ht in *.
  destruct (str_eqb (ev_schema_version e) "v2"); [|done].
  destruct (ok_or _ _) as [base|]; [|done]. simpl in *.
  destruct (within_limits t e); [|done]. destruct (settlement e) as [r|]; [|done]. by exists r.
Qed.

(** A settled reservation has its usage on record, once. *)
Lemma settled_usage d id row r : ready d → reservations d !! id = Some row → rv_state row = Settled →
  rv_completion row = Some (settle_json r) →
  ∃ u, filter (λ u, us_event_id u = usage_id id) (usage_events d) = [u] ∧
    usage_reported r row u ∧ rv_settled_microunits row = Some (us_cost_microunits u) ∧
    0 ≤ us_cost_microunits u ≤ rv_reserved_microunits row.
Proof.
  intros Hd Hr Hs Hc. pose proof (hl_inv _ (rd_healthy _ Hd)) as HI.
  pose proof (ro_settled _ _ _ (inv_reservations _ _ HI _ _ Hr)) as Hset. rewrite Hs in Hset.
  destruct Hset as (x & u & Hx & Hb & Hu & Hid & _ & <- & r' & Hrep). exists u.
  split; [apply filter_unique; [apply (co_usage _ (inv_config _ _ HI))|done|done]|].
  split; [|done]. pose proof (proj1 Hrep) as Hc'. rewrite Hc in Hc'.
  assert (settle_json r = settle_json r') as ->%(inj settle_json) by congruence. done.
Qed.

(** C4: usage is billed exactly once.  Whatever the requests, the workers, the
    network and the other users of the control plane do, and in whatever
    order: the queue never holds more than its capacity; every event it
    accepted is either still queued or was disposed of, and only once; and
    when the control plane acknowledged an event with a ticket, then, if its
    usage is known and within the reserved limits, the reservation is settled
    for exactly this usage at its frozen price, with one usage row, however
    often the event was sent; and otherwise the reservation was not released:
    it waits for a review or is closed. *)
Theorem outbox_exactly_once get d l :
  settings_from_env get = Ok settings → ready d →
  let w := outbox d l in
  Z.of_nat (size (entries (ob_queue w))) ≤ capacity settings ∧
  NoDup (ob_accepted w).*1 ∧
  ob_accepted w ≡ₚ (map_to_list (pending (ob_queue w)) ++ (ob_disposed w).*1)%list ∧
  ∀ id e t, (id, e, Ok tt) ∈ ob_disposed w → ev_billing e = Some t →
    ∃ row, reservations (ob_db w) !! tk_id t = Some row ∧ rv_project_id row = tk_project_id t ∧
    if within_limits t e then
      rv_state row = Settled ∧
      ∃ u, filter (λ u, us_event_id u = usage_id (tk_id t)) (usage_events (ob_db w)) = [u] ∧
        us_input_tokens u = ev_input_tokens e ∧ us_output_tokens u = ev_output_tokens e ∧
        usage_cost_microunits (rv_price row) (ev_input_tokens e) (ev_output_tokens e) =
          Ok (us_cost_microunits u) ∧
        rv_settled_microunits row = Some (us_cost_microunits u) ∧
        0 ≤ us_cost_microunits u ≤ rv_reserved_microunits row
    else rtc transition Dispatched (rv_state row).
Proof.
  intros Hset Hd w. pose proof (settings_capacity _ _ Hset) as Hcap.
  pose proof (outbox_ok d l Hd ltac:(lia)) as Hw. split; [apply Hw|]. split; [apply Hw|]. split; [apply Hw|].
  intros id e t Hin Ht. pose proof (ob_answered _ Hw _ Hin eq_refl) as Hack. simpl in Hack.
  pose proof (answered_request _ _ _ Hack Ht) as Hreq. unfold acknowledged in Hack.
  destruct (within_limits t e).
  - destruct Hreq as (r & Hreq & Hr). rewrite Hreq in Hack. destruct Hack as (row & Hrow & Hp & Hs & Hc).
    exists row. split; [done|]. split; [done|]. split; [done|].
    destruct (settled_usage _ _ _ _ (ob_ready _ Hw) Hrow Hs Hc) as (u & Hu & (_ & _ & E1 & E2 & E3) & Hm & Hb).
    apply settlement_tokens in Hr as [E4 E5]. rewrite E4 in *. rewrite E5 in *. by exists u.
  - rewrite Hreq in Hack. exact Hack.
Qed.
End outbox.
