(* ===== verification/Proxy.v ===== *)
(** * Proxy: one inference request at a gateway

    [crates/gateway/src/proxy.rs] and [ServingConfig] of [config.rs]: what a
    gateway does with a request before it is forwarded, while it is answered
    and when it is over.  The server library calls these handlers in turn;
    its connections, deadlines and load balancers, telemetry and the parsers
    of the bodies are outside. *)

From stdpp Require Import pretty.
From S2P Require Import Prelude Http Domain Models Routing Fleet Store Books Catalog Projection Ledger.
From S2P Require Import Reservations Review Wallet Maintenance Lifecycle Payments Alipay Trial Worker.
From S2P Require Import Feed Billing Progress Service Routes Snapshot Gate Keys Stream.
From S2P Require Quota.
From S2P Require Import Admission Outbox.
Local Open Scope string_scope.
Local Open Scope Z_scope.

(** ** Requests *)

Definition MAX_CAPTURE_BYTES : Z := 1048576.

Record ModelRequest := mkModelRequest {
  mr_model : string;
  mr_messages : Json;
  mr_prompt : option Json;
  mr_max_tokens : option Z;
  mr_max_completion_tokens : option Z;
  mr_n : option Z;
  mr_stream : bool }.

(** The parsers and printers of bodies, the tokenizer, and the hash of
    secrets.  A number that is no integer is some other value. *)
Class GatewayLibraries := {
  request_json : string → option ModelRequest;
  value_json : string → option Json;
  json_text : Json → string;
  completion_json : string → option CompletionUsage;
  token_count : Json → Z;
  bearer_hash : string → string;
  stream_codec :: SseCodec }.

(** A document that is printed reads back. *)
Class GatewayLaws `{GatewayLibraries} := value_text j : value_json (json_text j) = Some j.

Record ServingConfig := mkServing {
  sv_id : string; sv_model : string; sv_address : string; sv_revision : string;
  sv_tls : bool; sv_server_name : string }.

Definition ServingConfig_validate (c : ServingConfig) : bool :=
  negb (managed (sv_id c) || existsb is_blank [sv_id c; sv_model c; sv_address c]
        || existsb (λ v, (128 <? str_len v) || negb (header_text v)) [sv_id c; sv_revision c]).

(** What a handler stops with: an error of the proxy, or an answer of its own. *)
Inductive Refusal := HTTPStatus (status : Z) | InternalError.
Inductive Stop := Responded (status : Z) | Failed (e : Refusal).

Record Request := mkRequest {
  rq_method : string; rq_path : string; rq_headers : Headers }.

Record RequestContext := mkContext {
  rc_request_id : string;
  rc_principal : option Principal;
  rc_endpoint_id : string;
  rc_model_revision : string;
  rc_policy_revision : Z;
  rc_selected_model : option Model;
  rc_selected_endpoint : option ServingEndpoint;
  rc_body_sent : bool;
  rc_traffic_permit : option string;
  rc_model_id : string;
  rc_request_body : string;
  rc_stream_requested : bool;
  rc_text_completion : bool;
  rc_meterable : bool;
  rc_quota_reservation : option Quota.QuotaReservation;
  rc_billing_ticket : option Ticket;
  rc_usage_permit : option Z }.

(** What the answer adds to the context. *)
Section response.
Context `{GatewayLibraries}.
Record Response := mkResponse {
  rs_body : string; rs_overflow : bool; rs_stream : bool; rs_meter : StreamMeter;
  rs_complete : bool; rs_status : Z; rs_emitted : bool }.
Definition Response_default : Response := mkResponse "" false false StreamMeter_default false 0 false.
End response.

Definition RequestContext_default : RequestContext :=
  mkContext "" None "" "" 0 None None false None "unknown" "" false false false None None None.

(** ** Bodies *)

Section bodies.
Context `{GatewayLibraries}.

Definition is_array (j : Json) : bool := match j with JArr _ => true | _ => false end.
Definition is_prompt (o : option Json) : bool :=
  match o with Some (JStr s) => negb (is_empty s) | _ => false end.

Definition parse_request (bytes : string) (text_completion : bool) : result Refusal ModelRequest :=
  r ← ok_or (request_json bytes) (HTTPStatus 400);
  if text_completion then
    require (bool_decide (mr_messages r = JNull) && negb (is_some (mr_max_completion_tokens r))
             && is_prompt (mr_prompt r)) (HTTPStatus 400) ;;
    prompt ← ok_or (mr_prompt r) (HTTPStatus 400);
    mret (mkModelRequest (mr_model r) prompt None (mr_max_tokens r) (mr_max_completion_tokens r)
            (mr_n r) (mr_stream r))
  else
    require (negb (is_some (mr_prompt r)) && is_array (mr_messages r)) (HTTPStatus 400) ;;
    mret r.

Definition completion_bound (r : ModelRequest) : Z :=
  default 1024 (match mr_max_completion_tokens r with Some n => Some n | None => mr_max_tokens r end).

Definition estimate_reserved_tokens (r : ModelRequest) : Z :=
  Z.min (saturating_add_u64 (token_count (mr_messages r)) (completion_bound r)) 10000000001.

Definition money_token_limits (r : ModelRequest) (context : Z) : result Refusal (Z * Z) :=
  let output := completion_bound r in
  require (negb ((is_some (mr_max_completion_tokens r) && is_some (mr_max_tokens r))
                 || match mr_n r with Some n => negb (n =? 1) | None => false end
                 || (output =? 0) || (u64_of_i64 context <=? output)
                 || (u64_of_i64 context <? estimate_reserved_tokens r))) (HTTPStatus 400) ;;
  output ← ok_or (checked_i64 output) (HTTPStatus 400);
  mret (context - output, output).

Definition json_remove (key : string) (j : Json) : Json :=
  match j with JObj l => JObj (filter (λ f, f.1 ≠ key) l) | _ => j end.

(** The completion bound that the provider is given. *)
Definition bounded_body (r : ModelRequest) (output : Z) (body : string) : result Refusal string :=
  value ← ok_or (value_json body) InternalError;
  require (json_is_object value) InternalError ;;
  let value := json_remove "max_completion_tokens" (json_remove "max_tokens" value) in
  let name := if is_some (mr_max_completion_tokens r) then "max_completion_tokens" else "max_tokens" in
  mret (json_text (json_put name (JNum output) value)).

(** A streamed answer ends with its usage. *)
Definition stream_body (body : string) : result Refusal string :=
  value ← ok_or (value_json body) (HTTPStatus 400);
  require (json_is_object value) InternalError ;;
  let options := match json_get "stream_options" value with JNull => JObj [] | o => o end in
  require (json_is_object options) (HTTPStatus 400) ;;
  mret (json_text (json_put "stream_options" (json_put "include_usage" (JBool true) options) value)).
End bodies.

Definition header_matches (h : Headers) (rule : HeaderRoute) : bool :=
  match header_values (hr_name rule) h with [value] => str_eqb value (hr_value rule) | _ => false end.

Definition untrusted (name : string) : bool :=
  existsb (λ p, String.prefix p name)
    ["x-envoy-"; "x-gateway-"; "x-inference-"; "x-ai-eg-"; "x-xscope-"; "x-route-"].

Definition strip_serving_control_headers (h : Headers) : Headers :=
  remove_header "accept-encoding" (remove_header "authorization"
    (filter (λ x, untrusted x.1 = false) h)).

Definition request_id (uuid : string) (h : Headers) : string :=
  match header_str "x-request-id" h with
  | Some v => if negb (is_empty v) && (str_len v <=? 128) then v else "req-" +:+ uuid
  | None => "req-" +:+ uuid
  end.

(** ** The handlers *)

Section gateway.
Context `{ServiceLibraries, GatewayLibraries}.
Context {St : Type} `{Quota.HashStore St}.
Variable (event_bytes : Outbox.UsageEvent → Z).

(** The configuration of a gateway. *)
Record Setup := mkSetup {
  gs_serving : ServingConfig;
  gs_transports : gmap string ServingConfig;
  gs_settings : Settings;
  gs_sink : UsageSink;
  gs_distributed : bool;
  gs_billing : option (Z * string) }.       (* context tokens, price version *)

(** What a gateway shares among its requests, with the control plane. *)
Record Gateway := mkGateway {
  gw_keys : DynamicKeySet;
  gw_queue : Outbox.State;
  gw_store : St;
  gw_db : Db }.

(** What happens around one request: its clocks, the random numbers it draws,
    how its body arrives, and what becomes of its calls. *)
Record Circumstances := mkCircumstances {
  cx_now : Z; cx_seconds : Z; cx_millis : Z; cx_instant : Z;
  cx_request_uuid : string; cx_intent_uuid : string; cx_roll : Z;
  cx_chunks : list string; cx_body_in_time : bool; cx_truncated : bool;
  cx_entry_ready : bool;
  cx_quota_channel : Quota.channel; cx_quota_attempts : list Quota.attempt; cx_quota_id : string;
  cx_admission_healthy : bool; cx_admission_queued : bool; cx_visit : visit }.

(** A handler changes its context and the gateway, also when it stops. *)
Definition Handler (A : Type) := RequestContext → Gateway → result Stop A * RequestContext * Gateway.
#[export] Instance handler_ret : MRet Handler := λ A a c g, (Ok a, c, g).
#[export] Instance handler_bind : MBind Handler := λ A B k m c g,
  match m c g with
  | (Ok a, c, g) => k a c g
  | (Err e, c, g) => (Err e, c, g)
  end.
Definition stop {A} (e : Stop) : Handler A := λ c g, (Err e, c, g).
Definition stop_if (b : bool) (e : Stop) : Handler unit := if b then stop e else mret tt.
Definition fails {A} (r : result Refusal A) : Handler A :=
  match r with Ok a => mret a | Err e => stop (Failed e) end.
Definition fail_none {A} (o : option A) (e : Stop) : Handler A :=
  match o with Some a => mret a | None => stop e end.
Definition ctx {A} (f : RequestContext → A) : Handler A := λ c g, (Ok (f c), c, g).
Definition set_ctx (f : RequestContext → RequestContext) : Handler unit := λ c g, (Ok tt, f c, g).
Definition gateway {A} (f : Gateway → A) : Handler A := λ c g, (Ok (f g), c, g).
Definition set_gateway (f : Gateway → Gateway) : Handler unit := λ c g, (Ok tt, c, f g).

Definition set_keys (k : DynamicKeySet) (g : Gateway) : Gateway :=
  mkGateway k (gw_queue g) (gw_store g) (gw_db g).
Definition set_queue (q : Outbox.State) (g : Gateway) : Gateway :=
  mkGateway (gw_keys g) q (gw_store g) (gw_db g).
Definition set_store (s : St) (g : Gateway) : Gateway :=
  mkGateway (gw_keys g) (gw_queue g) s (gw_db g).
Definition set_gw_db (d : Db) (g : Gateway) : Gateway :=
  mkGateway (gw_keys g) (gw_queue g) (gw_store g) d.
Definition set_traffic (t : Gate) (g : Gateway) : Gateway :=
  set_keys (mkKeySet t (ks_current (gw_keys g)) (ks_rate_windows (gw_keys g))) g.

Definition with_route (endpoint revision : string) (e : option ServingEndpoint) (c : RequestContext) :=
  mkContext (rc_request_id c) (rc_principal c) endpoint revision (rc_policy_revision c)
    (rc_selected_model c) e (rc_body_sent c) (rc_traffic_permit c) (rc_model_id c)
    (rc_request_body c) (rc_stream_requested c) (rc_text_completion c) (rc_meterable c)
    (rc_quota_reservation c) (rc_billing_ticket c) (rc_usage_permit c).
Definition with_policy (revision : Z) (c : RequestContext) :=
  mkContext (rc_request_id c) (rc_principal c) (rc_endpoint_id c) (rc_model_revision c) revision
    (rc_selected_model c) (rc_selected_endpoint c) (rc_body_sent c) (rc_traffic_permit c)
    (rc_model_id c) (rc_request_body c) (rc_stream_requested c) (rc_text_completion c)
    (rc_meterable c) (rc_quota_reservation c) (rc_billing_ticket c) (rc_usage_permit c).
Definition with_model (m : option Model) (c : RequestContext) :=
  mkContext (rc_request_id c) (rc_principal c) (rc_endpoint_id c) (rc_model_revision c)
    (rc_policy_revision c) m (rc_selected_endpoint c) (rc_body_sent c) (rc_traffic_permit c)
    (rc_model_id c) (rc_request_body c) (rc_stream_requested c) (rc_text_completion c)
    (rc_meterable c) (rc_quota_reservation c) (rc_billing_ticket c) (rc_usage_permit c).
Definition with_permits (traffic : option string) (usage : option Z) (c : RequestContext) :=
  mkContext (rc_request_id c) (rc_principal c) (rc_endpoint_id c) (rc_model_revision c)
    (rc_policy_revision c) (rc_selected_model c) (rc_selected_endpoint c) (rc_body_sent c) traffic
    (rc_model_id c) (rc_request_body c) (rc_stream_requested c) (rc_text_completion c)
    (rc_meterable c) (rc_quota_reservation c) (rc_billing_ticket c) usage.
Definition with_body (body : string) (sent : bool) (c : RequestContext) :=
  mkContext (rc_request_id c) (rc_principal c) (rc_endpoint_id c) (rc_model_revision c)
    (rc_policy_revision c) (rc_selected_model c) (rc_selected_endpoint c) sent (rc_traffic_permit c)
    (rc_model_id c) body (rc_stream_requested c) (rc_text_completion c)
    (rc_meterable c) (rc_quota_reservation c) (rc_billing_ticket c) (rc_usage_permit c).
Definition with_request (id : string) (p : option Principal) (text stream : bool) (c : RequestContext) :=
  mkContext id p (rc_endpoint_id c) (rc_model_revision c) (rc_policy_revision c)
    (rc_selected_model c) (rc_selected_endpoint c) (rc_body_sent c) (rc_traffic_permit c)
    (rc_model_id c) (rc_request_body c) stream text
    (rc_meterable c) (rc_quota_reservation c) (rc_billing_ticket c) (rc_usage_permit c).
Definition with_ledgers (q : option Quota.QuotaReservation) (t : option Ticket) (c : RequestContext) :=
  mkContext (rc_request_id c) (rc_principal c) (rc_endpoint_id c) (rc_model_revision c)
    (rc_policy_revision c) (rc_selected_model c) (rc_selected_endpoint c) (rc_body_sent c)
    (rc_traffic_permit c) (rc_model_id c) (rc_request_body c) (rc_stream_requested c)
    (rc_text_completion c) (rc_meterable c) q t (rc_usage_permit c).
Definition with_meterable (model : string) (c : RequestContext) :=
  mkContext (rc_request_id c) (rc_principal c) (rc_endpoint_id c) (rc_model_revision c)
    (rc_policy_revision c) (rc_selected_model c) (rc_selected_endpoint c) (rc_body_sent c)
    (rc_traffic_permit c) model (rc_request_body c) (rc_stream_requested c)
    (rc_text_completion c) true (rc_quota_reservation c) (rc_billing_ticket c) (rc_usage_permit c).
(** *** Before a request is forwarded *)

Section handlers.
Variable (setup : Setup) (x : Circumstances).

Definition delivery_healthy (g : Gateway) : bool :=
  queue_ready (gs_settings setup) (cx_millis x) (gw_queue g)
  && match gs_billing setup with Some _ => cx_admission_healthy x | None => true end.

Fixpoint read_body (body : string) (chunks : list string) : result Refusal string :=
  match chunks with
  | [] => mret body
  | chunk :: chunks =>
      require (str_len body + str_len chunk <=? MAX_CAPTURE_BYTES) (HTTPStatus 413) ;;
      read_body (body +:+ chunk) chunks
  end.

(** The status of [/readyz]. *)
Definition readyz (g : Gateway) : Z :=
  if negb (delivery_healthy g) then 503
  else if no_keys (gw_keys g) then 503
  else if negb (has_catalog (gw_keys g))
          && negb (is_some (gs_transports setup !! sv_id (gs_serving setup)) && cx_entry_ready x) then 503
  else 200.

(** The ids that [/v1/models] lists. *)
Definition list_models (p : Principal) : list string :=
  match pn_catalog p with
  | Some catalog =>
      (λ m, model_id (cm_model m)) <$>
        filter (λ m, cm_enabled m && allows_model p (model_id (cm_model m)) = true) (cs_models catalog)
  | None =>
      order_by_text id (elements (list_to_set (C := gset string)
        (filter (λ m, allows_model p m = true) (sv_model <$> (map_to_list (gs_transports setup)).*2))))
  end.

(** The default pool of the model, which is known and enabled. *)
Definition default_pool (p : Principal) (model : string) : Handler (option string) :=
  match pn_catalog p with
  | Some catalog =>
      entry ← fail_none
        (find (λ m, str_eqb (model_id (cm_model m)) model && cm_enabled m) (cs_models catalog))
        (Failed (HTTPStatus 404));
      set_ctx (with_model (Some (cm_model entry))) ;;
      mret (cm_default_pool entry)
  | None =>
      mret (if str_eqb (sv_model (gs_serving setup)) model then Some (sv_id (gs_serving setup))
            else match filter (λ t, sv_model t = model) (map_to_list (gs_transports setup)).*2 with
                 | [t] => Some (sv_id t)
                 | _ => None
                 end)
  end.

Definition select_pool (p : Principal) (model : string) (pool : option string) (h : Headers)
    : Handler string :=
  match route_policy p model with
  | Some policy =>
      set_ctx (with_policy (rt_revision policy)) ;;
      mret (spec_select (rt_spec policy) (header_matches h) (cx_roll x)).1
  | None => fail_none pool (Failed (HTTPStatus 503))
  end.

(** The pool serves the model. *)
Definition bind_pool (p : Principal) (model pool : string) : Handler unit :=
  match pn_catalog p ≫= λ c, find (λ e, str_eqb (se_id e) pool) (cs_endpoints c) with
  | Some e =>
      stop_if (negb (str_eqb (se_model e) model)) (Failed (HTTPStatus 503)) ;;
      set_ctx (with_route pool (se_revision e) (Some e))
  | None =>
      t ← fail_none (gs_transports setup !! pool ≫= λ t, if str_eqb (sv_model t) model then Some t else None)
            (Failed (HTTPStatus 503));
      set_ctx (with_route pool (sv_revision t) None)
  end.

(** The generation that the caller's snapshot grants. *)
Definition granted (p : Principal) (pool : string) : option Z :=
  s ← pn_traffic p; pc_generation <$> find (λ c, str_eqb (pc_id c) pool) (ts_pools s).

Definition enter_pool (p : Principal) (pool : string) : Handler unit :=
  if managed pool then
    generation ← fail_none (granted p pool) (Failed (HTTPStatus 503));
    traffic ← gateway (λ g, ks_traffic (gw_keys g));
    traffic ← match enter (cx_instant x) pool generation traffic with
              | Ok t => mret t
              | Err _ => stop (Failed (HTTPStatus 503))
              end;
    set_gateway (set_traffic traffic) ;;
    set_ctx (λ c, with_permits (Some pool) (rc_usage_permit c) c)
  else mret tt.

Definition reserve_quota (p : Principal) (requested : Z) : Handler unit :=
  s ← gateway gw_store;
  let (r, s) := Quota.quota_reserve (gs_distributed setup) (cx_quota_channel x) (cx_quota_attempts x)
    (pn_api_key_id p) (cx_quota_id x) (pn_rate_limit_rpm p) (pn_rate_limit_tpm p) (cx_seconds x)
    requested s in
  set_gateway (set_store s) ;;
  match r with
  | Ok (Some (Quota.Allowed q)) => set_ctx (λ c, with_ledgers (Some q) (rc_billing_ticket c) c)
  | Ok (Some (Quota.Denied _)) => stop (Failed (HTTPStatus 429))
  | Ok None => mret tt
  | Err _ => stop (Failed (HTTPStatus 503))
  end.

(** The intent of the financial admission: a fresh id, not the client's. *)
Definition intent_of (p : Principal) (c : RequestContext) (model price : string) (limits : Z * Z)
    : ReserveRequest :=
  let id := "req-" +:+ cx_intent_uuid x in
  mkReserve id (pn_tenant_id p) (pn_project_id p) (pn_api_key_id p) id model (rc_model_revision c)
    (match rc_selected_model c with Some m => price_version m | None => price end) limits.1 limits.2.

Definition admit_billing (p : Principal) (model : string) (limits : option (Z * Z)) : Handler unit :=
  match gs_billing setup, limits with
  | Some (_, price), Some limits =>
      c ← ctx (λ c, c);
      _ ← fail_none (rc_usage_permit c) (Failed InternalError);
      d ← gateway gw_db;
      let '(r, _, d) := billing_admit (cx_admission_healthy x) (cx_admission_queued x) (cx_visit x)
        (intent_of p c model price limits) d in
      set_gateway (set_gw_db d) ;;
      match r with
      | Ok t => set_ctx (λ c, with_ledgers (rc_quota_reservation c) (Some t) c)
      | Err status => stop (Failed (HTTPStatus
          (if existsb (Z.eqb status) [400; 402; 403; 422] then status else 503)))
      end
  | _, _ => mret tt
  end.

(** The limits that are reserved, with the body that keeps to them. *)
Definition prepare_body (r : ModelRequest) : Handler (option (Z * Z)) :=
  limits ← match gs_billing setup with
           | Some (context, _) =>
               selected ← ctx rc_selected_model;
               limits ← fails (money_token_limits r
                 (match selected with Some m => Z.min (max_context_tokens m) context | None => context end));
               body ← ctx rc_request_body;
               body ← fails (bounded_body r limits.2 body);
               set_ctx (with_body body false) ;;
               mret (Some limits)
           | None => mret None
           end;
  (if mr_stream r then
     body ← ctx rc_request_body;
     body ← fails (stream_body body);
     set_ctx (with_body body false)
   else mret tt) ;;
  mret limits.

Definition admit_request : Handler unit :=
  c ← ctx (λ c, c);
  r ← fails (parse_request (rc_request_body c) (rc_text_completion c));
  p ← fail_none (rc_principal c) (Failed (HTTPStatus 401));
  stop_if (negb (allows_model p (mr_model r))) (Failed (HTTPStatus 403)) ;;
  set_ctx (with_request (rc_request_id c) (Some p) (rc_text_completion c) (mr_stream r)) ;;
  limits ← prepare_body r;
  reserve_quota p (estimate_reserved_tokens r) ;;
  admit_billing p (mr_model r) limits ;;
  set_ctx (with_meterable (mr_model r)).

(** Who asks, and whether they may. *)
Definition authorize (r : Request) : Handler Principal :=
  healthy ← gateway delivery_healthy;
  stop_if (negb healthy) (Responded 503) ;;
  keys ← gateway gw_keys;
  p ← fail_none (authenticate bearer_hash (cx_now x) (header_str "authorization" (rq_headers r)) keys)
        (Responded 401);
  text ← ctx rc_text_completion;
  stop_if (negb (has_scope p (if text : bool then "completions" else "chat.completions"))) (Responded 403) ;;
  stop_if (budget_exhausted p) (Responded 402) ;;
  stop_if (funds_exhausted p) (Responded 402) ;;
  (if gs_distributed setup then mret tt
   else
     let (allowed, keys) := check_rate_limit (cx_seconds x) p keys in
     set_gateway (set_keys keys) ;;
     stop_if (negb allowed) (Responded 429)) ;;
  mret p.

(** A slot of the outbox, for as long as the request lives. *)
Definition reserve_slot : Handler unit :=
  q ← gateway gw_queue;
  let (r, q) := queue_reserve (gs_settings setup) (cx_millis x) q in
  set_gateway (set_queue q) ;;
  match r with
  | Ok id => set_ctx (λ c, with_permits (rc_traffic_permit c) (Some id) c)
  | Err _ => stop (Responded 503)
  end.

Definition receive_body : Handler unit :=
  stop_if (negb (cx_body_in_time x)) (Failed (HTTPStatus 408)) ;;
  body ← fails (read_body "" (cx_chunks x));
  stop_if (cx_truncated x) (Failed (HTTPStatus 413)) ;;
  set_ctx (with_body body false).

(** The routes: an answer, or the inference API that is asked for. *)
Definition dispatch_route (r : Request) : Handler bool :=
  let route m p := str_eqb (rq_method r) m && str_eqb (rq_path r) p in
  if route "GET" "/healthz" then stop (Responded 200)
  else if route "GET" "/readyz" then status ← gateway readyz; stop (Responded status)
  else if route "GET" "/v1/models" then
    keys ← gateway gw_keys;
    match authenticate bearer_hash (cx_now x) (header_str "authorization" (rq_headers r)) keys with
    | Some _ => stop (Responded 200)
    | None => stop (Responded 401)
    end
  else if route "POST" "/v1/chat/completions" then mret false
  else if route "POST" "/v1/completions" then mret true
  else stop (Responded 404).

(** [request_filter]: the request is forwarded when it returns. *)
Definition request_filter (r : Request) : Handler unit :=
  set_ctx (with_request (request_id (cx_request_uuid x) (rq_headers r)) None false false) ;;
  text ← dispatch_route r;
  set_ctx (λ c, with_request (rc_request_id c) None text false c) ;;
  p ← authorize r;
  reserve_slot ;;
  receive_body ;;
  c ← ctx (λ c, c);
  request ← fails (parse_request (rc_request_body c) (rc_text_completion c));
  stop_if (negb (allows_model p (mr_model request))) (Failed (HTTPStatus 403)) ;;
  pool ← default_pool p (mr_model request);
  pool ← select_pool p (mr_model request) pool (rq_headers r);
  bind_pool p (mr_model request) pool ;;
  enter_pool p pool ;;
  set_ctx (λ c, with_request (rc_request_id c) (Some p) (rc_text_completion c) (rc_stream_requested c) c) ;;
  admit_request.
End handlers.

(** *** While it is answered *)

(** [request_body_filter]: the prepared body goes out once. *)
Definition request_body_filter (end_of_stream : bool) : Handler string :=
  c ← ctx (λ c, c);
  stop_if (negb end_of_stream || rc_body_sent c || negb (rc_meterable c)) (Failed InternalError) ;;
  set_ctx (with_body "" true) ;;
  mret (rc_request_body c).

(** [upstream_request_filter] *)
Definition upstream_request_filter (now : Z) (session : string) (http2 : bool) (h : Headers) : Handler Headers :=
  c ← ctx (λ c, c);
  traffic ← gateway (λ g, ks_traffic (gw_keys g));
  let h := strip_serving_control_headers h in
  h ← (if is_some (rc_traffic_permit c) then
         '(session, token) ← fail_none (admission_headers session now traffic) (Failed (HTTPStatus 503));
         mret (insert_header "x-xscope-traffic-token" token
                (insert_header "x-xscope-traffic-session" session
                  (insert_header "x-xscope-managed-pool" (rc_endpoint_id c) h)))
       else mret h);
  let h := remove_header "content-length" (insert_header "x-request-id" (rc_request_id c) h) in
  mret (if http2 : bool then h else insert_header "transfer-encoding" "chunked" h).

Fixpoint before_semicolon (s : string) : string :=
  match s with
  | EmptyString => EmptyString
  | String c s => if Ascii.eqb c ";" then EmptyString else String c (before_semicolon s)
  end.

Definition is_event_stream (content_type : string) : bool :=
  trims_to "text/event-stream" (str_lowercase (before_semicolon content_type)).

(** [response_filter]; the header fields are those of the answer. *)
Definition response_filter (status : Z) (h : Headers) (c : RequestContext) (r : Response) : Headers * Response :=
  let h := match rc_billing_ticket c with
           | Some t => insert_header "x-xscope-billing-request-id" (tk_id t) h
           | None => h
           end in
  let h := insert_header "x-xscope-model-revision" (rc_model_revision c)
             (insert_header "x-xscope-pool" (rc_endpoint_id c) h) in
  let h := insert_header "x-xscope-route-revision" (pretty (rc_policy_revision c)) h in
  let stream := match header_str "content-type" h with Some v => is_event_stream v | None => false end in
  let h := if stream then insert_header "x-accel-buffering" "no" (insert_header "cache-control" "no-cache" h) else h in
  (insert_header "x-request-id" (rc_request_id c) h,
   mkResponse (rs_body r) (rs_overflow r) stream (rs_meter r) (rs_complete r) status (rs_emitted r)).

(** [upstream_response_body_filter] *)
Definition response_body_filter (chunk : option string) (end_of_stream : bool) (r : Response)
    : result Refusal unit * Response :=
  let complete (r : Response) := mkResponse (rs_body r) (rs_overflow r) (rs_stream r) (rs_meter r)
    (rs_complete r || end_of_stream) (rs_status r) (rs_emitted r) in
  match chunk with
  | None => (Ok tt, complete r)
  | Some chunk =>
      if rs_stream r then
        let (seen, m) := observe chunk (rs_meter r) in
        let r := mkResponse (rs_body r) (rs_overflow r) (rs_stream r) m (rs_complete r) (rs_status r) (rs_emitted r) in
        match seen with Ok _ => (Ok tt, complete r) | Err _ => (Err (HTTPStatus 502), r) end
      else if rs_overflow r then (Ok tt, complete r)
      else if str_len (rs_body r) + str_len chunk <=? MAX_CAPTURE_BYTES then
        (Ok tt, complete (mkResponse (rs_body r +:+ chunk) false (rs_stream r) (rs_meter r) (rs_complete r)
           (rs_status r) (rs_emitted r)))
      else (Ok tt, complete (mkResponse "" true (rs_stream r) (rs_meter r) (rs_complete r) (rs_status r) (rs_emitted r)))
  end.

Definition actual_usage (r : Response) : option CompletionUsage :=
  if rs_stream r then sm_usage (rs_meter r)
  else if rs_overflow r then None else completion_json (rs_body r).

(** [error] is whether it came from the client's side. *)
Definition outcome (error : option bool) (c : RequestContext) (r : Response) : string :=
  if bool_decide (error = Some true) then "cancelled"
  else if is_some error || (500 <=? rs_status r) || sm_invalid (rs_meter r) then "provider_error"
  else if 400 <=? rs_status r then "client_error"
  else if negb (rs_complete r)
          || (rc_stream_requested c && (negb (rs_stream r) || negb (sm_done (rs_meter r)))) then "provider_error"
  else if negb (is_some (actual_usage r)) then "usage_pending" else "succeeded".

(** *** When it is over *)

Section over.
Variable (setup : Setup).

Definition usage_record (p : Principal) (error : option bool) (latency : Z) (c : RequestContext) (r : Response)
    : UsageRecord :=
  let u := default (mkCompletion 0 0) (actual_usage r) in
  mkUsageRecord (price_version <$> rc_selected_model c) (rc_request_id c) (pn_tenant_id p)
    (pn_project_id p) (pn_api_key_id p) (rc_endpoint_id c) (rc_model_id c) (rc_model_revision c)
    (cu_prompt_tokens u) (cu_completion_tokens u) latency (outcome error c r) (rc_billing_ticket c)
    (is_some (actual_usage r)).

(** [emit_usage]: whether a usage was emitted, or why not. *)
Definition emit_usage (uuid : string) (now millis latency : Z) (error : option bool) (c : RequestContext)
    (r : Response) (g : Gateway) : result Refusal bool * Gateway :=
  if negb (rc_meterable c) then (Ok false, g)
  else match rc_principal c with
  | None => (Ok false, g)
  | Some p =>
      let event := usage_event (gs_sink setup) uuid now (usage_record p error latency c r) in
      match rc_usage_permit c with
      | None => (Err InternalError, g)
      | Some id =>
          let (v, q) := submit (event_bytes event) millis id event (gw_queue g) in
          (match v with Ok _ => Ok true | Err _ => Err InternalError end, set_queue q g)
      end
  end.

(** What a request gives back when its context is dropped. *)
Definition release (c : RequestContext) (g : Gateway) : Gateway :=
  let g := match rc_usage_permit c with
           | Some id => set_queue (permit_drop id (gw_queue g)) g
           | None => g
           end in
  match rc_traffic_permit c with
  | Some pool => set_traffic (leave pool (ks_traffic (gw_keys g))) g
  | None => g
  end.

(** [logging], after which the context is dropped. *)
Definition logging (uuid : string) (now millis latency : Z) (error : option bool)
    (ch : Quota.channel) (attempts : list Quota.attempt) (c : RequestContext) (r : Response) (g : Gateway) : Gateway :=
  let g := if rs_emitted r then g else (emit_usage uuid now millis latency error c r g).2 in
  let g := match rc_quota_reservation c, actual_usage r with
           | Some q, Some u =>
               set_store (Quota.quota_settle (gs_distributed setup) ch attempts q
                 (saturating_add_u64 (cu_prompt_tokens u) (cu_completion_tokens u)) (gw_store g)).2 g
           | _, _ => g
           end in
  release c g.
End over.

(** ** Running a handler *)

Lemma handler_bind_Ok {A B} (m : Handler A) (k : A → Handler B) c g b c' g' :
  (m ≫= k) c g = (Ok b, c', g') → ∃ a c1 g1, m c g = (Ok a, c1, g1) ∧ k a c1 g1 = (Ok b, c', g').
Proof. unfold mbind, handler_bind. destruct (m c g) as [[[a|e] c1] g1]; [|done]. intros Hk. by exists a, c1, g1. Qed.

Lemma stop_if_Ok b e c g u c' g' : stop_if b e c g = (Ok u, c', g') → b = false ∧ c' = c ∧ g' = g.
Proof. unfold stop_if. destruct b; [done|]. by intros [= _ <- <-]. Qed.
Lemma fails_Ok {A} (r : result Refusal A) c g a c' g' : fails r c g = (Ok a, c', g') → r = Ok a ∧ c' = c ∧ g' = g.
Proof. destruct r; [|done]. by intros [= <- <- <-]. Qed.
Lemma fail_none_Ok {A} (o : option A) e c g a c' g' :
  fail_none o e c g = (Ok a, c', g') → o = Some a ∧ c' = c ∧ g' = g.
Proof. destruct o; [|done]. by intros [= <- <- <-]. Qed.
End gateway.

Ltac handler_prim H :=
  lazymatch type of H with
  | stop_if _ _ _ _ = _ => apply stop_if_Ok in H as (? & -> & ->)
  | fails _ _ _ = _ => apply fails_Ok in H as (? & -> & ->)
  | fail_none _ _ _ _ = _ => apply fail_none_Ok in H as (? & -> & ->)
  | mret _ _ _ = _ => injection H as <- <- <-
  | ctx _ _ _ = _ => injection H as <- <- <-
  | gateway _ _ _ = _ => injection H as <- <- <-
  | set_ctx _ _ _ = _ => injection H as _ <- <-
  | set_gateway _ _ _ = _ => injection H as _ <- <-
  | stop _ _ _ = _ => discriminate H
  | _ => idtac
  end.
Ltac handler_inv H :=
  lazymatch type of H with
  | mbind _ _ _ _ = (Ok _, _, _) =>
      let a := fresh "a" in let c := fresh "c" in let g := fresh "g" in let Hx := fresh "Hx" in
      apply handler_bind_Ok in H as (a & c & g & Hx & H); handler_prim Hx; handler_inv H
  | _ => handler_prim H
  end.

(** ** Documents *)

Lemma json_get_put key v j : json_is_object j = true → json_get key (json_put key v j) = v.
Proof.
  destruct j as [| | | | |l]; try done. intros _. simpl. induction l as [|[k w] l IH]; simpl.
  - by rewrite str_eqb_refl.
  - destruct (str_eqb k key) eqn:E; simpl; [by rewrite E|].
    destruct (String.ltb key k); simpl; [by rewrite str_eqb_refl|by rewrite E].
Qed.

Lemma json_get_put_ne key other v j : key ≠ other → json_get other (json_put key v j) = json_get other j.
Proof.
  intros Hne. destruct j as [| | | | |l]; try done. simpl.
  assert (str_eqb key other = false) as Hk by by apply str_eqb_neq.
  induction l as [|[k w] l IH]; simpl; [by rewrite Hk|].
  destruct (str_eqb k key) eqn:E; simpl.
  - apply str_eqb_eq in E as ->. by rewrite Hk.
  - destruct (String.ltb key k); simpl; [by rewrite Hk|]. by destruct (str_eqb k other).
Qed.

Lemma json_get_remove key j : json_get key (json_remove key j) = JNull.
Proof.
  destruct j as [| | | | |l]; try done. simpl. induction l as [|[k w] l IH]; [done|].
  rewrite filter_cons. simpl. case_decide as Hk; [|done]. simpl.
  by rewrite (proj2 (str_eqb_neq _ _) Hk).
Qed.

Lemma json_get_remove_null key other j : json_get other j = JNull → json_get other (json_remove key j) = JNull.
Proof.
  destruct j as [| | | | |l]; try done. simpl. induction l as [|[k w] l IH]; [done|]. simpl.
  rewrite filter_cons. simpl. destruct (str_eqb k other) eqn:E.
  - intros ->. case_decide as Hk; [simpl; by rewrite E|]. subst k.
    apply str_eqb_eq in E as ->. exact (json_get_remove other (JObj l)).
  - intros Hl. case_decide; [simpl; rewrite E|]; by apply IH.
Qed.

Lemma json_object_kept key v j : json_is_object (json_put key v j) = json_is_object j.
Proof. by destruct j. Qed.
Lemma json_object_removed key j : json_is_object (json_remove key j) = json_is_object j.
Proof. by destruct j. Qed.

(** ** What the steps establish *)

Section steps.
Context `{ServiceLibraries, GatewayLibraries}.
Context {St : Type} `{Quota.HashStore St}.
Variable (setup : Setup) (x : Circumstances).
Implicit Types (c : RequestContext) (g : @Gateway St).

Lemma authorize_Ok r c g p c' g' : authorize setup x r c g = (Ok p, c', g') →
  c' = c ∧ gw_queue g' = gw_queue g ∧ gw_db g' = gw_db g ∧ ks_traffic (gw_keys g') = ks_traffic (gw_keys g) ∧
  authenticate bearer_hash (cx_now x) (header_str "authorization" (rq_headers r)) (gw_keys g) = Some p ∧
  has_scope p (if rc_text_completion c then "completions" else "chat.completions") = true ∧
  budget_exhausted p = false ∧ funds_exhausted p = false.
Proof.
  intros Hrun. unfold authorize in Hrun. handler_inv Hrun.
  match goal with Ha : authenticate _ _ _ _ = Some ?q |- _ => rename q into p end.
  match goal with Hs : negb (has_scope _ _) = false |- _ => apply negb_false_iff in Hs; rename Hs into Hscope end.
  match goal with Hx : (if gs_distributed _ then _ else _) _ _ = _ |- _ => rename Hx into Hlimit end.
  destruct (gs_distributed setup); [injection Hlimit as _ <- <-; done|].
  destruct (check_rate_limit (cx_seconds x) p (gw_keys g)) as [allowed keys] eqn:Hrate.
  handler_inv Hlimit. simpl. split_and!; try done.
  unfold check_rate_limit in Hrate. destruct (_ <=? _); by injection Hrate as _ <-.
Qed.

Lemma reserve_slot_Ok c g u c' g' : reserve_slot setup x c g = (Ok u, c', g') →
  ∃ id, queue_reserve (gs_settings setup) (cx_millis x) (gw_queue g) = (Ok id, gw_queue g') ∧
    c' = with_permits (rc_traffic_permit c) (Some id) c ∧ gw_keys g' = gw_keys g ∧ gw_db g' = gw_db g.
Proof.
  intros Hrun. unfold reserve_slot in Hrun. handler_inv Hrun.
  destruct (queue_reserve _ _ _) as [[id|e] q] eqn:Hq; handler_inv Hrun. exists id. done.
Qed.

Lemma receive_body_Ok c g u c' g' : receive_body x c g = (Ok u, c', g') →
  g' = g ∧ ∃ body, c' = with_body body false c.
Proof. intros Hrun. unfold receive_body in Hrun. handler_inv Hrun. split; [done|]. by eexists. Qed.

Lemma default_pool_Ok p model c g pool c' g' : default_pool setup p model c g = (Ok pool, c', g') →
  g' = g ∧ (∃ m, c' = with_model m c) ∧
  match pn_catalog p with
  | Some catalog => ∃ entry, entry ∈ cs_models catalog ∧ cm_enabled entry = true ∧
      model_id (cm_model entry) = model ∧ rc_selected_model c' = Some (cm_model entry)
  | None => rc_selected_model c' = rc_selected_model c
  end.
Proof.
  intros Hrun. unfold default_pool in Hrun. destruct (pn_catalog p) as [catalog|].
  - handler_inv Hrun. split; [done|]. split; [by eexists|].
    match goal with Hx : find _ _ = Some ?e |- _ => apply find_some in Hx as [Hin Hf]; exists e end.
    apply andb_true_iff in Hf as [Hm%str_eqb_eq He]. split; [by apply list_elem_of_In|]. done.
  - handler_inv Hrun. split; [done|]. split; [|done]. exists (rc_selected_model c). by destruct c.
Qed.

Lemma select_pool_Ok p model o h c g pool c' g' : select_pool x p model o h c g = (Ok pool, c', g') →
  g' = g ∧ ∃ revision, c' = with_policy revision c.
Proof.
  intros Hrun. unfold select_pool in Hrun. destruct (route_policy p model); handler_inv Hrun; (split; [done|]).
  - by eexists.
  - exists (rc_policy_revision c). by destruct c.
Qed.

(** The pool is known to serve the model. *)
Definition serves (p : Principal) (pool model : string) : Prop :=
  (∃ catalog e, pn_catalog p = Some catalog ∧ e ∈ cs_endpoints catalog ∧ se_id e = pool ∧ se_model e = model) ∨
  (∃ t, gs_transports setup !! pool = Some t ∧ sv_model t = model).

Lemma bind_pool_Ok p model pool c g u c' g' : bind_pool setup p model pool c g = (Ok u, c', g') →
  g' = g ∧ (∃ revision e, c' = with_route pool revision e c) ∧ serves p pool model.
Proof.
  intros Hrun. unfold bind_pool in Hrun. destruct (pn_catalog p ≫= _) as [e|] eqn:He; handler_inv Hrun.
  - split; [done|]. split; [by eexists _, _|]. left.
    apply bind_Some in He as (catalog & Hc & [Hin Hf%str_eqb_eq]%find_some).
    match goal with Hx : negb _ = false |- _ => apply negb_false_iff, str_eqb_eq in Hx end.
    exists catalog, e. split; [done|]. split; [by apply list_elem_of_In|done].
  - split; [done|]. split; [by eexists _, _|]. right.
    match goal with Hx : _ ≫= _ = Some ?t |- _ => apply bind_Some in Hx as (t' & Ht & Hm) end.
    destruct (str_eqb _ _) eqn:E; [|done]. apply str_eqb_eq in E. exists t'. naive_solver.
Qed.

Lemma enter_pool_Ok p pool c g u c' g' : enter_pool x p pool c g = (Ok u, c', g') →
  gw_queue g' = gw_queue g ∧ gw_db g' = gw_db g ∧
  if managed pool then
    c' = with_permits (Some pool) (rc_usage_permit c) c ∧ ∃ s control,
      pn_traffic p = Some s ∧ control ∈ ts_pools s ∧ pc_id control = pool ∧
      enter (cx_instant x) pool (pc_generation control) (ks_traffic (gw_keys g)) = Ok (ks_traffic (gw_keys g'))
  else c' = c ∧ g' = g.
Proof.
  intros Hrun. unfold enter_pool in Hrun. destruct (managed pool); [|by handler_inv Hrun].
  handler_inv Hrun. simpl in *.
  match goal with Hx : granted _ _ = Some _ |- _ => apply bind_Some in Hx as (s & Hs & Hf) end.
  apply fmap_Some in Hf as (control & [Hin Hc%str_eqb_eq]%find_some & ->).
  match goal with Hx : (match enter _ _ _ _ with _ => _ end) _ _ = _ |- _ =>
    destruct (enter _ _ _ _) as [t|] eqn:He; handler_prim Hx end.
  split_and!; try done. exists s, control. split_and!; try done. by apply list_elem_of_In.
Qed.

Lemma reserve_quota_Ok p n c g u c' g' : reserve_quota setup x p n c g = (Ok u, c', g') →
  gw_queue g' = gw_queue g ∧ gw_db g' = gw_db g ∧ gw_keys g' = gw_keys g ∧
  ∃ q, c' = with_ledgers q (rc_billing_ticket c) c.
Proof.
  intros Hrun. unfold reserve_quota in Hrun. handler_inv Hrun.
  destruct (Quota.quota_reserve _ _ _ _ _ _ _ _ _ _) as [[[[q|]|]|e] s]; handler_inv Hrun; simpl;
    (split_and!; try done).
  - by eexists.
  - exists (rc_quota_reservation c). by destruct c.
Qed.

(** What a ticket stands for: the reservation it was given for. *)
Definition funded (p : Principal) (c : RequestContext) (model : string) (limits : Z * Z) (d : Db)
    (t : Ticket) : Prop :=
  ∃ price row, t = ticket (intent_of x p c model price limits) ∧
    reservations d !! tk_id t = Some row ∧ rv_spec row = intent_of x p c model price limits ∧
    rv_state row = Dispatched ∧ 0 ≤ limits.1 ∧ 0 ≤ limits.2 ∧
    0 ≤ rv_reserved_microunits row ≤ held (account_id (pn_project_id p)) d.

Lemma admit_billing_Ok p model limits c g u c' g' :
  ready (gw_db g) → admit_billing setup x p model limits c g = (Ok u, c', g') →
  gw_queue g' = gw_queue g ∧ gw_keys g' = gw_keys g ∧ ready (gw_db g') ∧
  match gs_billing setup, limits with
  | Some _, Some limits => ∃ t, c' = with_ledgers (rc_quota_reservation c) (Some t) c ∧
      funded p c model limits (gw_db g') t
  | _, _ => c' = c
  end.
Proof.
  intros Hd Hrun. unfold admit_billing in Hrun.
  destruct (gs_billing setup) as [[context price]|]; [|by handler_inv Hrun].
  destruct limits as [limits|]; [|by handler_inv Hrun]. handler_inv Hrun.
  destruct (billing_admit _ _ _ _ _) as [[r recovered] d'] eqn:Hb. handler_inv Hrun.
  destruct (billing_admit_spec _ _ _ _ _ _ _ _ Hd Hb) as (Hd' & Ht & _).
  destruct r as [t|]; handler_inv Hrun. simpl. split_and!; try done. exists t. split; [done|].
  destruct (Ht t eq_refl) as (-> & _ & Hrec). exists price.
  destruct (record_held _ _ _ Hd' Hrec eq_refl) as (row & Hrow & Hspec & Hst & Hheld).
  destruct (rd_asked _ Hd' _ _ Hrow) as (_ & Hok & _). rewrite Hspec in Hok.
  apply reserve_request_ok_nonneg in Hok as [Hi Ho]. by exists row.
Qed.

Lemma money_token_limits_Ok r context limits : money_token_limits r context = Ok limits →
  limits.1 + limits.2 = context.
Proof.
  unfold money_token_limits. rewrite require_bind_Ok. intros [_ Hrun].
  apply result_bind_Ok in Hrun as (output & _ & [= <-]). simpl. lia.
Qed.

(** The names under which a completion is bounded. *)
Definition bound_name (r : ModelRequest) : string :=
  if is_some (mr_max_completion_tokens r) then "max_completion_tokens" else "max_tokens".

(** The body asks for so many tokens at most, in one way. *)
Definition bounded (body : string) (n : Z) : Prop :=
  ∃ v name other, body = json_text v ∧
    (name, other) ∈ [("max_tokens", "max_completion_tokens"); ("max_completion_tokens", "max_tokens")] ∧
    json_get name v = JNum n ∧ json_get other v = JNull.

Lemma bounded_body_Ok r n body body' : bounded_body r n body = Ok body' → bounded body' n.
Proof.
  unfold bounded_body. intros (v & _ & Hrun)%result_bind_Ok.
  apply require_bind_Ok in Hrun as [Ho [= <-]]. unfold bounded.
  eexists _, _, (if is_some (mr_max_completion_tokens r) then "max_tokens" else "max_completion_tokens").
  split; [done|]. split; [|split].
  2: { apply json_get_put. by rewrite !json_object_removed. }
  - destruct (is_some _); set_solver.
  - destruct (is_some _); rewrite json_get_put_ne by done; [|apply json_get_remove].
    apply json_get_remove_null, json_get_remove.
Qed.

Lemma stream_body_Ok `{!GatewayLaws} body body' n : stream_body body = Ok body' → bounded body n → bounded body' n.
Proof.
  intros Hrun (v & name & other & -> & Hin & Hn & Ho). unfold stream_body in Hrun.
  rewrite value_text in Hrun. simpl in Hrun. rewrite !require_bind_Ok in Hrun.
  destruct Hrun as (_ & _ & [= <-]). eexists _, name, other. split; [done|]. split; [done|].
  assert ("stream_options" ≠ name ∧ "stream_options" ≠ other) as [Hm1 Hm2].
  { apply elem_of_cons in Hin as [[= -> ->]|[= -> ->]%list_elem_of_singleton]; done. }
  by rewrite !json_get_put_ne by done.
Qed.

Lemma prepare_body_Ok `{!GatewayLaws} r c g limits c' g' : prepare_body setup r c g = (Ok limits, c', g') →
  g' = g ∧ (∃ body sent, c' = with_body body sent c) ∧
  match gs_billing setup with
  | Some (context, _) => ∃ l, limits = Some l ∧
      l.1 + l.2 = match rc_selected_model c with
                  | Some m => Z.min (max_context_tokens m) context | None => context end ∧
      bounded (rc_request_body c') l.2
  | None => limits = None
  end.
Proof.
  intros Hrun. unfold prepare_body in Hrun. handler_inv Hrun.
  match goal with Hx : (if mr_stream r then _ else _) _ _ = _ |- _ => rename Hx into Hstream end.
  match goal with Hx : (match gs_billing setup with _ => _ end) _ _ = _ |- _ => rename Hx into Hlimits end.
  destruct (gs_billing setup) as [[context price]|].
  - handler_inv Hlimits. 
    match goal with Hx : money_token_limits _ _ = Ok _ |- _ => apply money_token_limits_Ok in Hx as Hsum end.
    match goal with Hx : bounded_body _ _ _ = Ok _ |- _ => apply bounded_body_Ok in Hx as Hbound end.
    destruct (mr_stream r); handler_inv Hstream; simpl.
    + match goal with Hx : stream_body _ = Ok _ |- _ => apply (stream_body_Ok _ _ _ Hx) in Hbound end.
      split; [done|]. split; [by eexists _, _|]. by eexists.
    + split; [done|]. split; [by eexists _, _|]. by eexists.
  - handler_inv Hlimits. destruct (mr_stream r); handler_inv Hstream; simpl; (split; [done|]; split; [|done]).
    + by eexists _, _.
    + exists (rc_request_body c), (rc_body_sent c). by destruct c.
Qed.

(** What an admission leaves of the context. *)
Record prepared (p : Principal) (r : ModelRequest) (c c' : RequestContext) : Prop := {
  pp_principal : rc_principal c' = Some p;
  pp_route : (rc_endpoint_id c', rc_model_revision c', rc_selected_model c', rc_text_completion c') =
    (rc_endpoint_id c, rc_model_revision c, rc_selected_model c, rc_text_completion c);
  pp_permits : (rc_traffic_permit c', rc_usage_permit c') = (rc_traffic_permit c, rc_usage_permit c);
  pp_model : (rc_model_id c', rc_meterable c') = (mr_model r, true) }.

(** The money of a request that is admitted. *)
Definition covered (p : Principal) (c : RequestContext) (d : Db) : Prop :=
  match gs_billing setup with
  | Some (context, _) => ∃ limits t, rc_billing_ticket c = Some t ∧ funded p c (rc_model_id c) limits d t ∧
      limits.1 + limits.2 = match rc_selected_model c with
                            | Some m => Z.min (max_context_tokens m) context | None => context end ∧
      bounded (rc_request_body c) limits.2
  | None => True
  end.

Lemma admit_request_Ok `{!GatewayLaws} c g u c' g' :
  ready (gw_db g) → admit_request setup x c g = (Ok u, c', g') →
  ∃ p r, rc_principal c = Some p ∧ parse_request (rc_request_body c) (rc_text_completion c) = Ok r ∧
    allows_model p (mr_model r) = true ∧ prepared p r c c' ∧ covered p c' (gw_db g') ∧
    gw_queue g' = gw_queue g ∧ gw_keys g' = gw_keys g.
Proof.
  intros Hd Hrun. unfold admit_request in Hrun. handler_inv Hrun.
  match goal with Hx : parse_request _ _ = Ok ?y |- _ => rename y into r, Hx into Hparse end.
  match goal with Hx : rc_principal _ = Some ?y |- _ => rename y into p, Hx into Hp end.
  match goal with Hx : negb (allows_model _ _) = false |- _ => apply negb_false_iff in Hx; rename Hx into Hallow end.
  match goal with Hx : prepare_body _ _ _ _ = _ |- _ =>
    apply prepare_body_Ok in Hx as (-> & (body & sent & ->) & Hlimits) end.
  match goal with Hx : reserve_quota _ _ _ _ _ _ = _ |- _ =>
    apply reserve_quota_Ok in Hx as (Eq & Ed & Ek & (q & ->)) end.
  match goal with Hx : admit_billing _ _ _ _ _ _ _ = _ |- _ =>
    apply admit_billing_Ok in Hx as (Eq' & Ek' & Hd' & Hbill); [|by rewrite Ed] end.
  exists p, r. split; [done|]. split; [done|]. split; [done|]. rewrite Eq', Ek', Eq, Ek.
  unfold covered. destruct (gs_billing setup) as [[context price]|].
  - destruct Hlimits as (limits & -> & Hsum & Hbound). destruct Hbill as (t & -> & Hfund).
    split; [by split|]. split; [|done]. exists limits, t. done.
  - subst. by split.
Qed.

Lemma dispatch_route_Ok r c g text c' g' : dispatch_route setup x r c g = (Ok text, c', g') → c' = c ∧ g' = g.
Proof.
  intros Hrun. unfold dispatch_route in Hrun.
  destruct (_ && _); [handler_inv Hrun|]. destruct (_ && _); [handler_inv Hrun|].
  destruct (_ && _); [handler_inv Hrun; destruct (authenticate _ _ _ _); handler_inv Hrun|].
  destruct (_ && _); [by handler_inv Hrun|]. destruct (_ && _); by handler_inv Hrun.
Qed.

(** C8: no inference without a key, a pool, a slot and the money for it.
    Whatever arrives, a request is only forwarded for a bearer of a key that
    the gateway accepts at that time, with the scope, the model and the means
    for it; to a pool that serves the model, under a grant that accepts
    traffic if the pool is managed, counted among its requests; with a slot of
    the outbox for its usage; and, where reservations are on, with a
    dispatched reservation of the control plane whose limits add up to the
    context of the model, and with a body that asks for no more tokens than
    the reservation pays for. *)
Theorem inference_guarded `{!GatewayLaws} r c0 g c g' :
  ready (gw_db g) → request_filter setup x r c0 g = (Ok tt, c, g') →
  ∃ p, rc_principal c = Some p ∧ rc_meterable c = true ∧
  (authenticate bearer_hash (cx_now x) (header_str "authorization" (rq_headers r)) (gw_keys g) = Some p ∧
   has_scope p (if rc_text_completion c then "completions" else "chat.completions") = true ∧
   allows_model p (rc_model_id c) = true ∧ budget_exhausted p = false ∧ funds_exhausted p = false) ∧
  (serves p (rc_endpoint_id c) (rc_model_id c) ∧
   match pn_catalog p with
   | Some catalog => ∃ entry, entry ∈ cs_models catalog ∧ cm_enabled entry = true ∧
       model_id (cm_model entry) = rc_model_id c ∧ rc_selected_model c = Some (cm_model entry)
   | None => rc_selected_model c = rc_selected_model c0
   end) ∧
  (if managed (rc_endpoint_id c) then
     rc_traffic_permit c = Some (rc_endpoint_id c) ∧
     ∃ s control, pn_traffic p = Some s ∧ control ∈ ts_pools s ∧ pc_id control = rc_endpoint_id c ∧
       enter (cx_instant x) (rc_endpoint_id c) (pc_generation control) (ks_traffic (gw_keys g)) =
         Ok (ks_traffic (gw_keys g'))
   else ks_traffic (gw_keys g') = ks_traffic (gw_keys g)) ∧
  (∃ id, rc_usage_permit c = Some id ∧
     queue_reserve (gs_settings setup) (cx_millis x) (gw_queue g) = (Ok id, gw_queue g')) ∧
  covered p c (gw_db g').
Proof.
  intros Hd Hrun. unfold request_filter in Hrun. handler_inv Hrun.
  repeat match goal with
  | Hx : dispatch_route _ _ _ _ _ = _ |- _ => apply dispatch_route_Ok in Hx as [-> ->]
  | Hx : negb (allows_model _ _) = false |- _ => clear Hx
  end.
  match goal with Hx : authorize _ _ _ _ _ = _ |- _ =>
    apply authorize_Ok in Hx as (-> & Q1 & D1 & T1 & Hauth & Hscope & Hbudget & Hfunds) end.
  match goal with Hx : reserve_slot _ _ _ _ = _ |- _ => apply reserve_slot_Ok in Hx as (id & Hslot & -> & K2 & D2) end.
  match goal with Hx : receive_body _ _ _ = _ |- _ => apply receive_body_Ok in Hx as (-> & body & ->) end.
  match goal with Hx : parse_request _ _ = Ok ?m |- _ => rename m into request, Hx into Hparse end.
  match goal with Hx : default_pool _ _ _ _ _ = _ |- _ => apply default_pool_Ok in Hx as (-> & (m & ->) & Hmodel) end.
  match goal with Hx : select_pool _ _ _ _ _ _ _ = _ |- _ => apply select_pool_Ok in Hx as (-> & rev & ->) end.
  match goal with Hx : bind_pool _ _ _ _ _ _ = _ |- _ =>
    apply bind_pool_Ok in Hx as (-> & (revision & e & ->) & Hserves) end.
  match goal with Hx : enter_pool _ _ ?y _ _ = (_, ?z, ?w) |- _ => rename y into pool, z into ce, w into ge;
    apply enter_pool_Ok in Hx as (Q3 & D3 & Henter) end.
  apply admit_request_Ok in Hrun as (p & r' & Hp & Hparse' & Hallow & [P1 P2 P3 P4] & Hcov & Q4 & K4);
    [|rewrite D3, D2, D1; done].
  assert ((rc_traffic_permit ce, rc_principal ce, rc_endpoint_id ce, rc_text_completion ce, rc_request_body ce,
      rc_usage_permit ce, rc_selected_model ce) =
    (if managed pool then Some pool else rc_traffic_permit c0, None, pool, a0, body, Some id, m)) as Ec
    by (destruct (managed pool); [destruct Henter as [-> _]|destruct Henter as [-> _]]; done).
  injection Ec as E1 E2 E3 E4 E5 E6 E7. injection Hp as <-. simpl in *.
  rewrite E4, E5 in Hparse'. rewrite Hparse in Hparse'. injection Hparse' as <-.
  injection P2 as -> _ -> ->. injection P3 as -> ->. injection P4 as -> ->.
  rewrite E1, E3, E4, E6, E7, K4. exists a2. split; [done|]. split; [done|]. split; [done|].
  split; [by destruct (pn_catalog a2)|]. split.
  { destruct (managed pool); [|destruct Henter as [_ ->]; congruence]. split; [done|].
    destruct Henter as (_ & s & control & Hs & Hin & Hid & He). exists s, control. rewrite K2, T1 in He. done. }
  split; [exists id; split; [done|]; rewrite Q4, Q3; congruence|done].
Qed.

(** ** What a request holds, and gives back

    Assertions are about the permits of the context and the parts of the
    gateway that they are taken from. *)

Record View := mkView {
  vw_slot : option Z; vw_pool : option string; vw_meterable : bool;
  vw_queue : Outbox.State; vw_traffic : Gate }.
Definition view_of (c : RequestContext) (g : @Gateway St) : View :=
  mkView (rc_usage_permit c) (rc_traffic_permit c) (rc_meterable c) (gw_queue g) (ks_traffic (gw_keys g)).

Definition triple {A} (P : View → Prop) (m : @Handler St A) (Q E : View → Prop) : Prop :=
  ∀ c g, P (view_of c g) → match m c g with
                           | (Ok _, c', g') => Q (view_of c' g')
                           | (Err _, c', g') => E (view_of c' g')
                           end.

Lemma triple_bind {A B} (m : Handler A) (k : A → Handler B) P Q R E :
  triple P m Q E → (∀ a, triple Q (k a) R E) → triple P (m ≫= k) R E.
Proof.
  intros Hm Hk c g HP. specialize (Hm c g HP). unfold mbind, handler_bind.
  destruct (m c g) as [[[a|e] c'] g']; [|done]. by apply (Hk a).
Qed.

Lemma triple_weaken {A} (m : Handler A) P P' Q E : (∀ v, P' v → P v) → triple P m Q E → triple P' m Q E.
Proof. intros HP Hm c g Hp. by apply Hm, HP. Qed.

(** A step that takes and gives nothing. *)
Definition quiet {A} (m : @Handler St A) : Prop :=
  ∀ c g, view_of (m c g).1.2 (m c g).2 = view_of c g.

Lemma quiet_triple {A} (m : Handler A) P : quiet m → triple P m P P.
Proof. intros Hm c g HP. specialize (Hm c g). destruct (m c g) as [[[a|e] c'] g']; simpl in Hm; by rewrite Hm. Qed.

Lemma quiet_bind {A B} (m : Handler A) (k : A → Handler B) : quiet m → (∀ a, quiet (k a)) → quiet (m ≫= k).
Proof.
  intros Hm Hk c g. specialize (Hm c g). unfold mbind, handler_bind.
  destruct (m c g) as [[[a|e] c'] g']; simpl in *; [by rewrite (Hk a)|done].
Qed.
Lemma quiet_ret {A} (a : A) : quiet (mret a).
Proof. done. Qed.
Lemma quiet_stop {A} e : quiet (@stop St A e).
Proof. done. Qed.
Lemma quiet_stop_if b e : quiet (stop_if b e).
Proof. by destruct b. Qed.
Lemma quiet_fails {A} (r : result Refusal A) : quiet (fails r).
Proof. by destruct r. Qed.
Lemma quiet_fail_none {A} (o : option A) e : quiet (fail_none o e).
Proof. by destruct o. Qed.
Lemma quiet_ctx {A} (f : RequestContext → A) : quiet (ctx f).
Proof. done. Qed.
Lemma quiet_gateway {A} (f : Gateway → A) : quiet (gateway f).
Proof. done. Qed.
Lemma quiet_set_ctx f : (∀ c g, view_of (f c) g = view_of c g) → quiet (set_ctx f).
Proof. intros Hf c g. apply Hf. Qed.
Lemma quiet_set_gateway f : (∀ c g, view_of c (f g) = view_of c g) → quiet (set_gateway f).
Proof. intros Hf c g. apply Hf. Qed.

Ltac quiet_step :=
  first
    [ apply quiet_bind; [|intro] | apply quiet_ret | apply quiet_stop | apply quiet_stop_if
    | apply quiet_fails | apply quiet_fail_none | apply quiet_ctx | apply quiet_gateway
    | apply quiet_set_ctx; done | apply quiet_set_gateway; done
    | match goal with |- quiet (match ?y with _ => _ end) => destruct y eqn:? end ].
Ltac quiet_tac := repeat quiet_step.

Lemma quiet_route r : quiet (dispatch_route setup x r).
Proof. unfold dispatch_route. quiet_tac. Qed.
Lemma quiet_default_pool p m : quiet (default_pool setup p m).
Proof. unfold default_pool. quiet_tac. Qed.
Lemma quiet_select_pool p m o h : quiet (select_pool x p m o h).
Proof. unfold select_pool. quiet_tac. Qed.
Lemma quiet_bind_pool p m pool : quiet (bind_pool setup p m pool).
Proof. unfold bind_pool. quiet_tac. Qed.
Lemma quiet_receive_body : quiet (receive_body x).
Proof. unfold receive_body. quiet_tac. Qed.
Lemma quiet_prepare_body r : quiet (prepare_body setup r).
Proof. unfold prepare_body. quiet_tac. Qed.
Lemma quiet_reserve_quota p n : quiet (reserve_quota setup x p n).
Proof. unfold reserve_quota. quiet_tac. Qed.
Lemma quiet_admit_billing p m l : quiet (admit_billing setup x p m l).
Proof. unfold admit_billing. quiet_tac. Qed.

Lemma quiet_authorize r : quiet (authorize setup x r).
Proof.
  intros c g. unfold authorize, mbind, handler_bind, gateway, ctx, stop_if, fail_none, mret, handler_ret, stop.
  destruct (negb (delivery_healthy setup x g)); [done|]. simpl.
  destruct (authenticate _ _ _ _) as [p|]; [|done]. destruct (negb (has_scope _ _)); [done|].
  destruct (budget_exhausted p); [done|]. destruct (funds_exhausted p); [done|].
  destruct (gs_distributed setup); [done|]. unfold check_rate_limit.
  destruct (_ <=? _); done.
Qed.

(** What is held since [g0]. *)
Definition holds (g0 : @Gateway St) (v : View) : Prop :=
  vw_meterable v = false ∧
  match vw_slot v with
  | None => vw_queue v = gw_queue g0
  | Some id => entries (gw_queue g0) !! id = None ∧
      ∃ e, en_event e = None ∧ entries (vw_queue v) = <[id := e]> (entries (gw_queue g0))
  end ∧
  match vw_pool v with
  | None => vw_traffic v = ks_traffic (gw_keys g0)
  | Some p => ∀ q, count_of q (vw_traffic v) =
      count_of q (ks_traffic (gw_keys g0)) + (if decide (q = p) then 1 else 0)
  end.

Definition slot_free (v : View) : Prop := vw_slot v = None ∧ vw_pool v = None.

Lemma reserve_slot_triple g0 :
  (∀ id, is_Some (entries (gw_queue g0) !! id) → id ≤ sequence (gw_queue g0)) →
  triple (λ v, holds g0 v ∧ slot_free v) (reserve_slot setup x) (λ v, holds g0 v ∧ vw_pool v = None) (holds g0).
Proof.
  intros Hids c g [(Hm & Hs & Ht) [Hslot Hpool]]. simpl in *. rewrite Hslot in Hs. rewrite Hpool in Ht.
  unfold reserve_slot, mbind, handler_bind, gateway, set_gateway, set_ctx, stop.
  destruct (queue_reserve (gs_settings setup) (cx_millis x) (gw_queue g)) as [[id|e] q] eqn:Hq; simpl.
  - apply queue_reserve_Ok in Hq as (-> & Hq & _). split; [|done]. split; [done|]. simpl. rewrite Hs in *.
    split; [|by rewrite Hpool]. split; [|eexists; split; [|exact Hq]; done].
    destruct (entries (gw_queue g0) !! _) eqn:E; [|done]. specialize (Hids _ ltac:(by eexists)). lia.
  - assert (q = gw_queue g) as ->.
    { unfold queue_reserve in Hq. destruct (negb _); [by injection Hq as _ ->|].
      destruct (_ <=? _); [by injection Hq as _ ->|done]. }
    unfold holds. simpl. by rewrite Hslot, Hpool.
Qed.

Lemma enter_pool_triple g0 p pool :
  triple (λ v, holds g0 v ∧ vw_pool v = None) (enter_pool x p pool) (holds g0) (holds g0).
Proof.
  unfold enter_pool. destruct (managed pool); [|by intros c g [? _]].
  intros c g [Hh Hpool]. simpl in Hpool.
  unfold mbind, handler_bind, gateway, set_gateway, set_ctx, stop, fail_none, mret, handler_ret.
  destruct (granted p pool) as [n|]; [|done].
  destruct (enter (cx_instant x) pool n (ks_traffic (gw_keys g))) as [t|] eqn:He; [|done].
  destruct Hh as (Hm & Hs & Ht). simpl in *. rewrite Hpool in Ht. split; [done|]. split; [done|]. simpl.
  apply enter_Ok in He as (_ & _ & _ & _ & ->). intros q. rewrite count_of_set, Ht.
  case_decide; [by subst|lia].
Qed.

(** Until it is forwarded, a request holds no more than its permits. *)
Lemma request_filter_triple r g0 :
  (∀ id, is_Some (entries (gw_queue g0) !! id) → id ≤ sequence (gw_queue g0)) →
  triple (λ v, holds g0 v ∧ slot_free v) (request_filter setup x r) (λ _, True) (holds g0).
Proof.
  intros Hids. set (P := λ v, holds g0 v ∧ slot_free v).
  assert (∀ A (m : @Handler St A), quiet m → triple P m P (holds g0)) as Hquiet.
  { intros A m Hm c g HP. pose proof (quiet_triple m P Hm c g HP) as Hq.
    destruct (m c g) as [[[a|e] c'] g']; [done|apply Hq]. }
  set (P1 := λ v, holds g0 v ∧ vw_pool v = None).
  assert (∀ A (m : @Handler St A), quiet m → triple P1 m P1 (holds g0)) as Hquiet1.
  { intros A m Hm c g HP. pose proof (quiet_triple m P1 Hm c g HP) as Hq.
    destruct (m c g) as [[[a|e] c'] g']; [done|apply Hq]. }
  unfold request_filter.
  eapply triple_bind; [apply Hquiet, quiet_set_ctx; done|intros _].
  eapply triple_bind; [apply Hquiet, quiet_route|intros text].
  eapply triple_bind; [apply Hquiet, quiet_set_ctx; done|intros _].
  eapply triple_bind; [apply Hquiet, quiet_authorize|intros p].
  eapply triple_bind; [by apply reserve_slot_triple|intros _].
  eapply triple_bind; [apply Hquiet1, quiet_receive_body|intros _].
  eapply triple_bind; [apply Hquiet1, quiet_ctx|intros c].
  eapply triple_bind; [apply Hquiet1, quiet_fails|intros request].
  eapply triple_bind; [apply Hquiet1, quiet_stop_if|intros _].
  eapply triple_bind; [apply Hquiet1, quiet_default_pool|intros o].
  eapply triple_bind; [apply Hquiet1, quiet_select_pool|intros pool].
  eapply triple_bind; [apply Hquiet1, quiet_bind_pool|intros _].
  eapply triple_bind; [apply enter_pool_triple|intros _].
  eapply triple_bind; [apply quiet_triple, quiet_set_ctx; done|intros _].
  unfold admit_request.
  eapply triple_bind; [apply quiet_triple, quiet_ctx|intros c1].
  eapply triple_bind; [apply quiet_triple, quiet_fails|intros r1].
  eapply triple_bind; [apply quiet_triple, quiet_fail_none|intros p1].
  eapply triple_bind; [apply quiet_triple, quiet_stop_if|intros _].
  eapply triple_bind; [apply quiet_triple, quiet_set_ctx; done|intros _].
  eapply triple_bind; [apply quiet_triple, quiet_prepare_body|intros limits].
  eapply triple_bind; [apply quiet_triple, quiet_reserve_quota|intros _].
  eapply triple_bind; [apply quiet_triple, quiet_admit_billing|intros _]. done.
Qed.

(** ** When it is over *)

Variable event_bytes : Outbox.UsageEvent → Z.

(** What the end of a request submits. *)
Definition final_event (uuid : string) (now latency : Z) (error : option bool) (c : RequestContext)
    (resp : Response) (p : Principal) : Outbox.UsageEvent :=
  usage_event (gs_sink setup) uuid now (usage_record p error latency c resp).

Lemma permit_drop_held id e m q : entries q = <[id := e]> m → m !! id = None → en_event e = None →
  entries (permit_drop id q) = m.
Proof.
  intros Hq Hm He. unfold permit_drop. rewrite Hq, lookup_insert_eq, He. simpl. rewrite Hq.
  by rewrite delete_insert_id.
Qed.

Lemma release_queue c (g : @Gateway St) : gw_queue (release c g) =
  match rc_usage_permit c with Some id => permit_drop id (gw_queue g) | None => gw_queue g end.
Proof. unfold release. by destruct (rc_usage_permit c), (rc_traffic_permit c). Qed.
Lemma release_traffic c (g : @Gateway St) : ks_traffic (gw_keys (release c g)) =
  match rc_traffic_permit c with Some p => leave p (ks_traffic (gw_keys g)) | None => ks_traffic (gw_keys g) end.
Proof. unfold release. by destruct (rc_usage_permit c), (rc_traffic_permit c). Qed.

Lemma logging_parts uuid now millis latency error ch attempts c resp g :
  let g1 := if rs_emitted resp then g
            else (emit_usage event_bytes setup uuid now millis latency error c resp g).2 in
  let g2 := logging event_bytes setup uuid now millis latency error ch attempts c resp g in
  gw_queue g2 = gw_queue (release c g1) ∧ ks_traffic (gw_keys g2) = ks_traffic (gw_keys (release c g1)).
Proof.
  intros g1 g2. unfold g2, logging. fold g1.
  destruct (rc_quota_reservation c), (actual_usage resp); rewrite ?release_queue, ?release_traffic; done.
Qed.

Lemma emit_quiet uuid now millis latency error c resp (g : @Gateway St) : rc_meterable c = false →
  (emit_usage event_bytes setup uuid now millis latency error c resp g).2 = g.
Proof. intros Hm. unfold emit_usage. by rewrite Hm. Qed.

(** C9: a request gives back what it took.  A request that is not forwarded,
    for whatever reason, leaves the outbox and the counts of the pools as they
    were.  A request that was forwarded gives up its place in its pool at its
    end, and its slot of the outbox then holds one event, with the ticket it
    was admitted with and the usage that the answer reported, unknown if it
    reported none; the slot is empty only if that event is too large. *)
Theorem requests_give_back uuid now millis latency error ch attempts resp g :
  (∀ id, is_Some (entries (gw_queue g) !! id) → id ≤ sequence (gw_queue g)) →
  (∀ q, 0 ≤ count_of q (ks_traffic (gw_keys g))) →
  let finish c g := logging event_bytes setup uuid now millis latency error ch attempts c resp g in
  (∀ r e c g', request_filter setup x r RequestContext_default g = (Err e, c, g') →
     entries (gw_queue (finish c g')) = entries (gw_queue g) ∧
     ∀ q, count_of q (ks_traffic (gw_keys (finish c g'))) = count_of q (ks_traffic (gw_keys g))) ∧
  (∀ c p id entry, rc_meterable c = true → rc_principal c = Some p → rc_usage_permit c = Some id →
     entries (gw_queue g) !! id = Some entry → en_event entry = None → rs_emitted resp = false →
     let ev := final_event uuid now latency error c resp p in
     entries (gw_queue (finish c g)) !! id =
       (if 32 * 1024 <? event_bytes ev then None
        else Some (mkEntry (Some ev) (Some millis) millis (en_attempt entry) (en_busy entry))) ∧
     ev_billing ev = rc_billing_ticket c ∧ ev_usage_known ev = is_some (actual_usage resp) ∧
     (∀ u, actual_usage resp = Some u →
        ev_input_tokens ev = cu_prompt_tokens u ∧ ev_output_tokens ev = cu_completion_tokens u) ∧
     (∀ j, j ≠ id → entries (gw_queue (finish c g)) !! j = entries (gw_queue g) !! j) ∧
     ∀ pool, rc_traffic_permit c = Some pool → 0 < count_of pool (ks_traffic (gw_keys g)) →
       count_of pool (ks_traffic (gw_keys (finish c g))) = count_of pool (ks_traffic (gw_keys g)) - 1).
Proof.
  intros Hids Hpos finish. split.
  - intros r e c g' Hrun. pose proof (request_filter_triple r g Hids RequestContext_default g) as Ht.
    rewrite Hrun in Ht. destruct Ht as (Hm & Hs & Hp); [by split; [split|split]|]. simpl in *.
    unfold finish. destruct (logging_parts uuid now millis latency error ch attempts c resp g') as [-> ->].
    replace (if rs_emitted resp then _ else _) with g' by (rewrite emit_quiet by done; by destruct (rs_emitted resp)).
    rewrite release_queue, release_traffic. split.
    + destruct (rc_usage_permit c) as [id|]; [|by rewrite Hs].
      destruct Hs as (Hnone & en & Hen & Hent). by eapply permit_drop_held.
    + intros q. destruct (rc_traffic_permit c) as [pool|]; [|by rewrite Hp].
      assert (0 < count_of pool (ks_traffic (gw_keys g'))) as Hc
        by (rewrite Hp, decide_True by done; specialize (Hpos pool); lia).
      rewrite (count_of_leave _ q _ Hc), !Hp. repeat case_decide; subst; try done; lia.
  - intros c p id entry Hm Hp Hid Hentry Hnone Hemit ev.
    destruct (logging_parts uuid now millis latency error ch attempts c resp g) as [Eq Et].
    unfold finish. rewrite Hemit in Eq, Et. rewrite Eq, Et, release_queue, release_traffic, Hid.
    unfold emit_usage. rewrite Hm, Hp, Hid. simpl. fold (final_event uuid now latency error c resp p). fold ev.
    unfold submit. rewrite Hentry, Hnone.
    assert (∀ u, actual_usage resp = Some u →
      ev_input_tokens ev = cu_prompt_tokens u ∧ ev_output_tokens ev = cu_completion_tokens u) as Hu
      by (intros u Hu; unfold ev, final_event, usage_record; simpl; rewrite Hu; done).
    destruct (32 * 1024 <? event_bytes ev); simpl; unfold permit_drop; simpl;
      rewrite ?lookup_insert_eq, ?Hentry, ?Hnone; simpl; split_and!; try done.
    + apply lookup_delete_eq.
    + intros j Hj. by rewrite lookup_delete_ne.
    + intros pool -> Hc. by rewrite count_of_leave, decide_True.
    + apply lookup_insert_eq.
    + intros j Hj. by rewrite lookup_insert_ne.
    + intros pool -> Hc. by rewrite count_of_leave, decide_True.
Qed.
End steps.
