(* ===== verification/Demo.v ===== *)
(** * Demo: a day of the service, and the theorems at work on it

    Concrete libraries (thirty-day months, hashes that return their text and
    a provider whose signatures are fixed words), a sequence of requests that
    tops up a wallet, reserves, dispatches, settles, waives and refunds, and
    one closed instance of every theorem that has hypotheses. *)

From S2P Require Import Prelude Domain Models Store Books Catalog Projection Ledger Reservations.
From S2P Require Import Review Wallet Maintenance Lifecycle Payments Alipay Trial Worker Feed.
From S2P Require Import Routing Fleet Routes Clusters Pools Control World Billing Progress Protocol Service Live.
Local Open Scope string_scope.
Local Open Scope Z_scope.

(** ** Concrete libraries *)

Definition demo_config : AlipayConfig := mkAlipayConfig "app-1" "seller-1" "sandbox" "https://pay.example/notify".

(** A notification of a paid trade, and a refund answer, as the provider
    would sign them. *)
Definition demo_fields : list (string * string) :=
  [("app_id", "app-1"); ("charset", "utf-8"); ("out_trade_no", "order-1"); ("seller_id", "seller-1");
   ("sign", "good"); ("sign_type", "RSA2"); ("total_amount", "10.00"); ("trade_no", "trade-1");
   ("trade_status", "TRADE_SUCCESS")].

#[export] Instance demo_provider : ProviderLibraries := {|
  sha256_hex s := s;
  rsa_verify _ sign := str_eqb sign "good";
  form_decode s := if str_eqb s "notification" then Some demo_fields else None;
  json_text _ := None;
  json_packet s := if str_eqb s "answer" then Some (mkPacket "good" None None None (Some "body")) else None;
  json_code s := if str_eqb s "body" then Some "10000" else None;
  json_refund s := if str_eqb s "body"
    then Some (mkRefundReply "order-1" "trade-1" "refund-1" "2.50" (Some "REFUND_SUCCESS")) else None;
  json_trade _ := None;
  json_checkout _ := None |}.

Definition demo_sha256 : string :=
  "aaaaaaaaaaaaaaaaaaaaaaaaaaaaaaaaaaaaaaaaaaaaaaaaaaaaaaaaaaaaaaaa".

#[export] Instance demo_libraries : ServiceLibraries := {|
  service_calendar := thirty_days;
  service_provider := demo_provider;
  secret_hash s := s;
  json_bytes _ := demo_sha256;
  uuid_text s := negb (is_empty s);
  identity_required := false |}.

(** ** A sequence of requests *)

Definition at_time (t : Z) (id : string) : Env :=
  mkEnv (1700000000000000 + t) (λ n, match n with 0%nat => id +:+ "a" | 1%nat => id +:+ "b" | _ => id +:+ "c" end).

Definition demo_reserve (id : string) : ReserveRequest :=
  mkReserve id "tenant-1" "project-1" "key-1" ("request-" +:+ id) DEFAULT_MODEL_ID "r1"
    DEFAULT_PRICE_VERSION 1000 1000.
Definition demo_usage : SettleRequest := mkSettle 400 600 25 "endpoint-1" "region-1" "succeeded".
Definition demo_key : ApiKeyRequest :=
  mkApiKeyRequest "key-1" "tenant-1" "project-1" "first key" ["chat.completions"] [DEFAULT_MODEL_ID]
    None 60 100000 (cny 500).

Definition setup : list (Env * op) :=
  [(at_time 0 "s0", CreateProject (mkProject "project-1" "tenant-1" "First"));
   (at_time 1 "s1", BootstrapCatalog);
   (at_time 2 "s2", IssueApiKey demo_key "random");
   (at_time 3 "s3", CreateOrder (mkCreateOrder "order-1" "tenant-1" "project-1" (cny 1000) "top up"));
   (at_time 4 "s4", CapturePayment "order-1" (mkCapture "payment-1" "bank" "reference-1") "pay-1");
   (at_time 5 "s5", UpdateBalancePolicy "project-1" true)].

Definition requests : list (Env * op) :=
  [(at_time 10 "q0", Reserve (demo_reserve "r1"));
   (at_time 11 "q1", Dispatch "project-1" "r1");
   (at_time 12 "q2", Settle "project-1" "r1" demo_usage);
   (at_time 13 "q3", Reserve (demo_reserve "r2"));
   (at_time 14 "q4", Dispatch "project-1" "r2");
   (at_time 15 "q5", SubmitWaiver "project-1" "r2" "alice" "alice"
      (mkWaiver "waiver-1" "region outage" "incident-1" true true));
   (at_time 16 "q6", Decide "project-1" "waiver-1" "bob" "bob"
      (mkDecision demo_sha256 "approve" "confirmed"));
   (at_time 17 "q7", RefundManually (mkCreateRefund "refund-1" "payment-1" (cny 250) "unused") "refund-key-1");
   (at_time 18 "q8", Reserve (demo_reserve "r3"));
   (at_time 19 "q9", ClaimJob (λ _, false) (mkClaim 100 30))].

Definition morning : Db := service setup.
Definition day : Db := service (setup ++ requests).

Fixpoint answers (d : Db) (l : list (Env * op)) : list (result ServiceError ()) :=
  match l with
  | [] => []
  | s :: l => match run s.1 s.2 d with Ok (u, _) => Ok u | Err e => Err e end :: answers (serve d s) l
  end.

(** Every request of the day is answered. *)
Example day_runs : answers empty_db (setup ++ requests) = repeat (Ok ()) 16.
Proof. vm_compute. reflexivity. Qed.

(** ** Instances *)

(** [find E t] looks up a row that is there. *)
Ltac find E t := destruct t eqn:E; [|vm_compute in E; discriminate].
(** Closed facts about the tables. *)
Ltac closed_fact := vm_compute; first [reflexivity | discriminate].

Lemma service_refunds_bounded_witness :
  match payments day !! "payment-1" with
  | Some p => 0 ≤ refunded "payment-1" ["pending"; "succeeded"] day ≤ py_amount p
  | None => False
  end.
Proof.
  find E (payments day !! "payment-1"). exact (proj2 (proj2 (service_refunds_bounded _ _ _ E))).
Defined.

Lemma morning_solvent : solvent "project-1" morning.
Proof.
  unfold solvent. find E (accounts morning !! "project-1"). exists a. split; [reflexivity|].
  assert (Hb : ac_enforce_balance <$> accounts morning !! "project-1" = Some true) by closed_fact.
  rewrite E in Hb. injection Hb as Hb. split; [exact Hb|]. closed_fact.
Qed.

Lemma service_solvent_witness : solvent "project-1" day.
Proof.
  assert (Hk : keeps_policy "project-1" requests) by (unfold keeps_policy, requests; repeat constructor).
  exact (proj1 (service_solvent _ _ _ morning_solvent Hk)).
Defined.

Lemma service_lifecycle_witness :
  match reservations (service (setup ++ take 1 requests)) !! "r1" with
  | Some r => ∃ r', reservations (service ((setup ++ take 1 requests) ++ drop 1 requests)) !! "r1" = Some r' ∧
      same_terms r r' ∧ rtc transition (rv_state r) (rv_state r')
  | None => False
  end.
Proof.
  find E (reservations (service (setup ++ take 1 requests)) !! "r1").
  destruct (service_lifecycle _ (drop 1 requests) _ _ E) as (r' & H1 & H2 & H3 & _).
  exact (ex_intro _ r' (conj H1 (conj H2 H3))).
Defined.

Lemma service_settled_witness :
  match reservations day !! "r1" with
  | Some r => rv_state r = Settled ∧ ∃ amount, rv_settled_microunits r = Some amount ∧
      0 ≤ amount ≤ rv_reserved_microunits r
  | None => False
  end.
Proof.
  assert (Hs : rv_state <$> reservations day !! "r1" = Some Settled) by closed_fact.
  find E (reservations day !! "r1"). injection Hs as Hs. split; [exact Hs|].
  pose proof (service_settled _ _ _ E) as H. rewrite Hs in H.
  destruct H as (x & Hx & Hb & _). exact (ex_intro _ x (conj Hx Hb)).
Defined.

Lemma service_reviews_witness :
  match reviews day !! "waiver-1" with
  | Some w => ∃ reviewer, rw_reviewed_by w = Some reviewer ∧ reviewer ≠ rw_submitted_by w
  | None => False
  end.
Proof.
  assert (Hs : rw_state <$> reviews day !! "waiver-1" = Some ReviewWaived) by closed_fact.
  find E (reviews day !! "waiver-1"). injection Hs as Hs.
  assert (Hne : rw_state r ≠ ReviewSubmitted) by (rewrite Hs; discriminate).
  exact (proj1 (proj2 (service_reviews _ [] _ _ E Hne))).
Defined.

Lemma service_waivers_witness :
  match reservations day !! "r2" with
  | Some r => ∃ wid w reviewer, reviews day !! wid = Some w ∧ rw_reservation_id w = "r2" ∧
      rw_state w = ReviewWaived ∧ is_waiver (rw_evidence w) = true ∧
      rw_reviewed_by w = Some reviewer ∧ reviewer ≠ rw_submitted_by w
  | None => False
  end.
Proof.
  assert (Hs : rv_state <$> reservations day !! "r2" = Some Waived) by closed_fact.
  find E (reservations day !! "r2"). injection Hs as Hs. exact (service_waivers _ _ _ E Hs).
Defined.

Lemma service_worker_witness :
  match jobs day !! "account-project-1" with
  | Some j => 0 ≤ jb_acknowledged j ≤ jb_target_sequence j
  | None => False
  end.
Proof.
  find E (jobs day !! "account-project-1"). exact (proj1 (proj2 (proj2 (service_worker _ _ _ E)))).
Defined.

(** ** The protocol *)

Definition admitted_db : Db := service (setup ++ take 1 requests).
Definition dispatched_db : Db := service (setup ++ take 2 requests).
Definition later : Env := at_time 100 "later".

Lemma morning_Inv : Inv morning.
Proof. apply hl_inv, service_healthy. Qed.
Lemma dispatched_Inv : Inv dispatched_db.
Proof. apply hl_inv, service_healthy. Qed.

Lemma protocol_retries_witness :
  match dispatch_money later "project-1" "r1" dispatched_db with
  | Ok (row, d') => dispatch_money (at_time 200 "again") "project-1" "r1" d' = Ok (row, d')
  | Err _ => False
  end.
Proof.
  destruct (dispatch_money later "project-1" "r1" dispatched_db) as [[row d']|e] eqn:E;
    [|vm_compute in E; discriminate].
  exact (proj1 (proj2 (protocol_retries later (at_time 200 "again") _ _ _ dispatched_Inv)) _ _ E).
Defined.

Lemma events_room d : Z.of_nat (length (events d)) < 1000 →
  ∀ a, Z.of_nat (length (account_events a d)) + 1 < i64_max.
Proof.
  intros Hd a. unfold account_events.
  pose proof (length_filter (λ e, ev_billing_account_id e = a) (events d)). unfold i64_max. lia.
Qed.

(** The owner of a request of the day. *)
Lemma owned_at (d : Db) id : is_some (accounts d !! "project-1") = true →
  rv_project_id <$> reservations d !! id = Some "project-1" →
  ∃ ac row, owned "project-1" id d ac row.
Proof.
  intros [ac Hac]%is_some_true Hp. destruct (reservations d !! id) as [row|] eqn:E; [|discriminate].
  injection Hp as Hp. exists ac, row. by split.
Qed.

Lemma admitted_Inv : Inv admitted_db.
Proof. apply hl_inv, service_healthy. Qed.

Lemma dispatch_outcome_witness :
  (∃ ac row, owned "project-1" "r1" admitted_db ac row ∧ rv_state row = Reserved ∧
    ∃ d', dispatch_money later "project-1" "r1" admitted_db =
      Ok (with_state row Dispatched (rv_settled_microunits row) (rv_completion row) (env_now later), d')).
Proof.
  assert (Hs : rv_state <$> reservations admitted_db !! "r1" = Some Reserved) by closed_fact.
  destruct (owned_at admitted_db "r1") as (ac & row & Ho); [closed_fact|closed_fact|].
  pose proof (proj1 (proj2 Ho)) as Hr. rewrite Hr in Hs. injection Hs as Hs.
  assert (Hroom : ∀ a, Z.of_nat (length (account_events a admitted_db)) < i64_max).
  { intros a. pose proof (events_room admitted_db ltac:(closed_fact) a). lia. }
  pose proof (proj2 (dispatch_outcome later "project-1" "r1" _ admitted_Inv Hroom) _ _ Ho) as H.
  rewrite Hs in H. destruct H as (d' & H & _).
  exact (ex_intro _ ac (ex_intro _ row (conj Ho (conj Hs (ex_intro _ d' H))))).
Defined.

Lemma release_outcome_witness :
  release_money later "project-1" "r1" "gave_up" admitted_db =
    Err (Invalid "only verified not_dispatched requests can be released").
Proof.
  refine (proj1 (release_outcome later "project-1" "r1" "gave_up" admitted_db admitted_Inv) _).
  discriminate.
Defined.

(** ** Settlement and admission *)

Lemma there {A} (o : option A) : is_some o = true → ∃ a, o = Some a.
Proof. apply is_some_true. Qed.
Lemma not_in_list x l : str_in x l = false → x ∉ l.
Proof. intros Hx. rewrite <- str_in_elem. by rewrite Hx. Qed.

Lemma dispatched_can_settle ac row :
  owned "project-1" "r1" dispatched_db ac row → can_settle later ac row dispatched_db.
Proof.
  intros (Hac & Hr & _).
  assert (Ha : ac_id <$> accounts dispatched_db !! "project-1" = Some "account-project-1") by closed_fact.
  assert (Hi : rv_id <$> reservations dispatched_db !! "r1" = Some "r1") by closed_fact.
  assert (Hk : rv_api_key_id <$> reservations dispatched_db !! "r1" = Some "key-1") by closed_fact.
  assert (Hm : rv_reserved_microunits <$> reservations dispatched_db !! "r1" = Some 3000000) by closed_fact.
  rewrite Hac in Ha. injection Ha as Ha. rewrite Hr in Hi, Hk, Hm.
  injection Hi as Hi. injection Hk as Hk. injection Hm as Hm.
  split; rewrite ?Ha, ?Hi, ?Hk, ?Hm.
  - split; apply not_in_list; closed_fact.
  - apply not_in_list. closed_fact.
  - eexists. reflexivity.
  - split; closed_fact.
  - split; closed_fact.
  - intros _. closed_fact.
  - closed_fact.
  - apply events_room. closed_fact.
Qed.

Lemma settlement_succeeds_witness :
  ∃ amount d' row', settle_money later "project-1" "r1" demo_usage dispatched_db = Ok (row', d') ∧
    0 ≤ amount ≤ rv_reserved_microunits row' ∧ rv_settled_microunits row' = Some amount.
Proof.
  destruct (owned_at dispatched_db "r1") as (ac & row & Ho); [closed_fact|closed_fact|].
  assert (Hs : rv_state <$> reservations dispatched_db !! "r1" = Some Dispatched) by closed_fact.
  assert (Hl : rv_spec <$> reservations dispatched_db !! "r1" = Some (demo_reserve "r1")) by closed_fact.
  pose proof (proj1 (proj2 Ho)) as Hr. rewrite Hr in Hs, Hl. injection Hs as Hs. injection Hl as Hl.
  destruct (settlement_succeeds later ac "project-1" "r1" row demo_usage dispatched_db dispatched_Inv
    Ho Hs eq_refl ltac:(rewrite Hl; discriminate) ltac:(rewrite Hl; discriminate)
    (dispatched_can_settle _ _ Ho)) as (amount & d' & Hrun & _ & _ & Hb & _).
  exact (ex_intro _ amount (ex_intro _ d' (ex_intro _ _ (conj Hrun (conj Hb eq_refl))))).
Defined.

Lemma settlement_refusals_witness :
  settle_money later "project-1" "r1" (mkSettle (-1) 0 0 "endpoint-1" "region-1" "succeeded") dispatched_db
    = Err (Invalid "settlement requires known, nonnegative usage and a final outcome").
Proof.
  destruct (owned_at dispatched_db "r1") as (ac & row & Ho); [closed_fact|closed_fact|].
  exact (proj1 (settlement_refusals later ac "project-1" "r1" row
    (mkSettle (-1) 0 0 "endpoint-1" "region-1" "succeeded") dispatched_db Ho) eq_refl).
Defined.

Lemma reserve_guarded_witness :
  match reserve_money later (demo_reserve "r9") morning with
  | Ok (row, _) => ∃ ac key model amount, admissible later (demo_reserve "r9") ac key model amount morning
  | Err _ => False
  end.
Proof.
  destruct (reserve_money later (demo_reserve "r9") morning) as [[row d']|e] eqn:E;
    [|vm_compute in E; discriminate].
  assert (Hn : reservations morning !! rr_id (demo_reserve "r9") = None) by closed_fact.
  destruct (reserve_guarded _ _ _ _ _ morning_Inv Hn E) as (ac & key & model & amount & Ha & _).
  exact (ex_intro _ ac (ex_intro _ key (ex_intro _ model (ex_intro _ amount Ha)))).
Defined.

Lemma reserve_succeeds_witness :
  match accounts morning !! "project-1", api_keys morning !! "key-1" with
  | Some ac, Some key => ∃ d', reserve_money later (demo_reserve "r9") morning =
      Ok (new_reservation later ac (demo_reserve "r9") Model_default 3000000, d')
  | _, _ => False
  end.
Proof.
  assert (Ha : (λ a, (ac_id a, ac_tenant_id a, ac_status a, ac_currency a)) <$>
    accounts morning !! "project-1" = Some ("account-project-1", "tenant-1", "active", "CNY")) by closed_fact.
  assert (Hk : (λ k, (ak_id k, key_refused k (demo_reserve "r9") (env_now later), ak_monthly_budget_amount k))
    <$> api_keys morning !! "key-1" = Some ("key-1", false, 500)) by closed_fact.
  assert (Hm : (λ m, (ca_enabled m, ca_definition m)) <$> catalog morning !! DEFAULT_MODEL_ID
    = Some (true, Model_default)) by closed_fact.
  destruct (there (accounts morning !! "project-1")) as [a E1]; [closed_fact|].
  destruct (there (api_keys morning !! "key-1")) as [a0 E2]; [closed_fact|].
  destruct (there (catalog morning !! DEFAULT_MODEL_ID)) as [c E3]; [closed_fact|].
  rewrite E1 in Ha |- *. rewrite E2 in Hk |- *. rewrite E3 in Hm.
  injection Ha as A1 A2 A3 A4. injection Hk as K1 K2 K3. injection Hm as M1 M2.
  assert (Hn : reservations morning !! rr_id (demo_reserve "r9") = None) by closed_fact.
  assert (Hadm : admissible later (demo_reserve "r9") a a0 Model_default 3000000 morning).
  { split; [closed_fact|split; [exact E1|split; [exact A2|split; [exact A3|exact A4]]]
      |split; [exact E2|exact K2]|exists c; split; [exact E3|split; [exact M1|exact M2]]
      |closed_fact|closed_fact|closed_fact| |].
    - intros _. rewrite A1. closed_fact.
    - intros _. rewrite K1, K3. split; closed_fact. }
  assert (Hroom : can_reserve later a a0 3000000 morning).
  { split; rewrite ?A1, ?K1; [split; split; closed_fact|split; closed_fact|eexists; reflexivity|closed_fact|].
    pose proof (events_room morning ltac:(closed_fact) "account-project-1"). lia. }
  exact (reserve_succeeds _ _ _ _ _ _ _ morning_Inv Hn Hadm Hroom).
Defined.

(** ** Maintenance, the feed, the worker and the provider *)

Lemma day_healthy : healthy day.
Proof. apply service_healthy. Qed.

Definition demo_month : Z := month_floor 1700000000000000.

Lemma rebuild_repairs_witness :
  match projection_check later "project-1" "key-1" demo_month true day with
  | Ok (_, d') => key_holds d' !! "key-1" = Some (mkKeyHold (key_held "key-1" d') (env_now later))
  | Err _ => False
  end.
Proof.
  destruct (projection_check later "project-1" "key-1" demo_month true day) as [[b d']|e] eqn:E;
    [|vm_compute in E; discriminate].
  destruct (rebuild_repairs _ _ _ _ _ _ _ E) as (owner & _ & _ & Hk & _). exact Hk.
Defined.

Lemma check_consistent_witness :
  match projection_check later "project-1" "key-1" demo_month false day with
  | Ok (_, d') => Inv d'
  | Err _ => False
  end.
Proof.
  destruct (projection_check later "project-1" "key-1" demo_month false day) as [[b d']|e] eqn:E;
    [|vm_compute in E; discriminate].
  exact (proj1 (check_consistent _ _ _ _ _ _ _ _ (hl_inv _ day_healthy) E)).
Defined.

Lemma poll_gapless_witness :
  match poll_billing_events later "project-1" "consumer-1" (mkPoll 5 None) day with
  | Ok (_, d') => Inv d' ∧ Feed_ok d'
  | Err _ => False
  end.
Proof.
  destruct (poll_billing_events later "project-1" "consumer-1" (mkPoll 5 None) day) as [[p d']|e] eqn:E;
    [|vm_compute in E; discriminate].
  destruct (poll_gapless _ _ _ _ _ _ _ (hl_inv _ day_healthy) (hl_feed _ day_healthy) E) as (H1 & H2 & _).
  exact (conj H1 H2).
Defined.

Lemma drain_delivers_all_witness :
  match accounts day !! "project-1" with
  | Some ac => ∃ d', drain 3 later "project-1" "consumer-1" 5 None day =
      Ok (drop (Z.to_nat (position (ac_id ac) "consumer-1" day).1) (account_events (ac_id ac) day), d')
  | None => False
  end.
Proof.
  assert (Ha : ac_id <$> accounts day !! "project-1" = Some "account-project-1") by closed_fact.
  destruct (there (accounts day !! "project-1")) as [ac E]; [closed_fact|].
  rewrite E in Ha |- *. injection Ha as Ha.
  assert (Hroom : Z.of_nat (length (account_events (ac_id ac) day)) ≤ Z.of_nat 3 * 5) by (rewrite Ha; closed_fact).
  assert (Hid : identifier "consumer-1" = true) by closed_fact.
  assert (Hlimit : 1 ≤ 5 ≤ 100) by lia.
  pose proof (drain_delivers_all later "project-1" "consumer-1" 5 3 day ac (hl_inv _ day_healthy)
    (hl_feed _ day_healthy) E Hid Hlimit Hroom) as H.
  exact H.
Defined.

(** The lease the worker holds at the end of the day. *)
Definition demo_lease : Lease := mkLease "account-project-1" 1 "q9a" 0 12.

Lemma complete_succeeds_witness :
  ∃ d', complete_event_job json_sha256 later (env_now later) (env_now later) demo_lease day =
    Ok ((12, false), d') ∧ Worker_ok json_sha256 d'.
Proof.
  destruct (there (jobs day !! "account-project-1")) as [j E]; [closed_fact|].
  assert (Hm : (λ j, (lease_mismatch j demo_lease (env_now later), expired (jb_lease_until j) (env_now later)))
    <$> jobs day !! "account-project-1" = Some (false, false)) by closed_fact.
  rewrite E in Hm. injection Hm as H1 H2.
  assert (Hroom : Z.of_nat (length (account_events (ls_account demo_lease) day)) ≤ i64_max) by closed_fact.
  destruct (complete_succeeds json_sha256 later (env_now later) (env_now later) demo_lease day j
    (hl_inv _ day_healthy) (hl_worker _ day_healthy) E Hroom H1 H2) as (d' & Hrun & _ & HW & _).
  exact (ex_intro _ d' (conj Hrun HW)).
Defined.

(** A worker whose lease was taken over. *)
Definition stale_lease : Lease := mkLease "account-project-1" 0 "old" 0 12.

Lemma stale_lease_harmless_witness :
  commit (fail_event_job later stale_lease "too late") day = day.
Proof.
  destruct (there (jobs day !! "account-project-1")) as [j E]; [closed_fact|].
  assert (Hm : (λ j, lease_mismatch j stale_lease (env_now later)) <$> jobs day !! "account-project-1"
    = Some true) by closed_fact.
  rewrite E in Hm. injection Hm as H1.
  exact (proj2 (stale_lease_harmless json_sha256 later 0 0 stale_lease "too late" day j
    (hl_inv _ day_healthy) (hl_worker _ day_healthy) E H1)).
Defined.

Lemma notification_authentic_witness :
  match verify_notification demo_config "notification" with
  | Ok t => 1 ≤ vt_amount t ≤ AMOUNT_MAX
  | Err _ => False
  end.
Proof.
  destruct (verify_notification demo_config "notification") as [t|e] eqn:E;
    [|vm_compute in E; discriminate].
  destruct (notification_authentic _ _ _ E) as
    (fields & values & sign & total & _ & _ & _ & _ & _ & _ & _ & _ & _ & _ & _ & _ & _ & _ & _ & H & _).
  exact H.
Defined.

Lemma refund_evidence_authentic_witness :
  match verify_refund_response "answer" "order-1" "trade-1" "refund-1" 250 with
  | Ok r => r = mkVerifiedRefund "order-1" "trade-1" "refund-1" 250 (vr_evidence r)
  | Err _ => False
  end.
Proof.
  destruct (verify_refund_response "answer" "order-1" "trade-1" "refund-1" 250) as [r|e] eqn:E;
    [|vm_compute in E; discriminate].
  exact (proj1 (refund_evidence_authentic _ _ _ _ _ _ E)).
Defined.

(** ** The registry beside the money *)

Definition demo_route (pool : string) : RoutePolicySpec := mkRouteSpec pool None 0 [].
Definition demo_route_pools : list RoutePool :=
  [mkRoutePool "pool-a" DEFAULT_MODEL_ID "r1"; mkRoutePool "pool-b" DEFAULT_MODEL_ID "r1"].
Definition demo_project : Project := mkProject "project-1" "tenant-1" "First".

Definition evening_requests : list (Env * op) :=
  setup ++
  [(at_time 30 "e0", OnRegistry (PutRoute demo_project DEFAULT_MODEL_ID
      (mkPutRoute 0 (demo_route "pool-a")) demo_route_pools "alice" "put"));
   (at_time 31 "e1", OnRegistry (RegisterMember (mkRegister "cluster-1" "serving" 30) "token-1" "alice"));
   (at_time 32 "e2", Reserve (demo_reserve "r9"));
   (at_time 33 "e3", OnRegistry (PutRoute demo_project DEFAULT_MODEL_ID
      (mkPutRoute 1 (demo_route "pool-b")) demo_route_pools "alice" "put"))].

Definition evening : Db := service evening_requests.
Definition live_world : World := foldl serve_in initial evening_requests.

Example evening_runs : answers empty_db evening_requests = repeat (Ok ()) 10.
Proof. vm_compute. reflexivity. Qed.

(** A rollback to the first of the two revisions. *)
Lemma rollback_restores_witness :
  let k := ("project-1", DEFAULT_MODEL_ID) in
  routes (control evening) !! k =
    Some (mkRouteRow 2 (demo_route "pool-b") (1700000000000000 + 33)) ∧
  ∃ policy d', release_action (at_time 40 "e4") demo_project DEFAULT_MODEL_ID (Rollback 2 1)
      demo_route_pools "alice" evening = Ok (policy, d') ∧
    rt_spec policy = demo_route "pool-a" ∧ rt_revision policy = 3.
Proof.
  intros k. assert (routes (control evening) !! k =
    Some (mkRouteRow 2 (demo_route "pool-b") (1700000000000000 + 33))) as Hrow by closed_fact.
  split; [exact Hrow|].
  destruct (active_model DEFAULT_MODEL_ID evening) as [[m d]|] eqn:Hm; [|vm_compute in Hm; discriminate].
  assert (active_model DEFAULT_MODEL_ID evening = Ok (m, evening)) as Hm'.
  { apply active_model_Ok in Hm as Hm'. destruct Hm' as [Hd _]. rewrite <- Hd at 2. exact Hm. }
  assert (route_revisions (control evening) !! (k, 1) =
    Some (mkRouteRevision (demo_route "pool-a") "alice" "put" (1700000000000000 + 30))) as Hfirst by closed_fact.
  destruct (rollback_restores (at_time 40 "e4") demo_project DEFAULT_MODEL_ID demo_route_pools "alice"
    evening _ 1 m (kp_routes _ (service_kept evening_requests)) Hrow) as (h & Hh & Hrun);
    [split; [discriminate|reflexivity]|reflexivity|exact Hm'|].
  change (route_revisions (control evening) !! (k, 1) = Some h) in Hh.
  rewrite Hfirst in Hh. injection Hh as <-.
  destruct Hrun as (policy & d' & R1 & R2 & R3 & _); [closed_fact|].
  exists policy, d'. split; [exact R1|]. split; [exact R2|exact R3].
Defined.

Lemma live_service_witness :
  w_db live_world = evening ∧ reachable live_world ∧ healthy (w_db live_world) ∧
  Routes_ok (control (w_db live_world)).
Proof.
  assert (in_order (w_now initial) evening_requests = true) as Hl by (vm_compute; reflexivity).
  destruct (live_service live_world (live_requests evening_requests initial Hl)) as (L1 & L2 & L3 & _).
  split; [|split; [exact L1|split; [exact L2|exact L3]]].
  vm_compute. reflexivity.
Defined.
