(* ===== verification/DemoGateway.v ===== *)
(** * DemoGateway: a gateway at work on the service of the demo

    A request that is admitted over a network that loses an answer, and its
    usage, which is sent twice and billed once: closed instances of the
    theorems of the gateway. *)

From S2P Require Import Prelude Domain Models Store Books Catalog Projection Ledger Reservations.
From S2P Require Import Review Wallet Maintenance Lifecycle Payments Alipay Trial Worker Feed.
From S2P Require Import Billing Progress Protocol Service Live Demo Snapshot Gate Keys Stream.
From S2P Require Quota.
From S2P Require Import Admission Outbox Proxy.
Local Open Scope string_scope.
Local Open Scope Z_scope.

(** ** Admission *)

Definition call_at (t : Z) (id : string) (f : fate) : exchange := mkExchange [] (at_time t id) f.

(** A visit in which every call is answered. *)
Definition smooth : visit :=
  mkVisit true true false false (call_at 100 "v0" Answered) (call_at 101 "v1" Answered)
    (call_at 102 "v2" Answered) (call_at 103 "v3" Answered).

(** The answer to the reserve is lost: the hold is released. *)
Definition rough : visit :=
  mkVisit true true false false (call_at 100 "v0" AnswerLost) (call_at 101 "v1" Answered)
    (call_at 102 "v2" Answered) (call_at 103 "v3" Answered).

Definition smooth_result := billing_admit true true smooth (demo_reserve "r9") morning.
Definition rough_result := billing_admit true true rough (demo_reserve "r9") morning.

Example rough_releases :
  (rough_result.1.1, rough_result.1.2, rv_state <$> reservations rough_result.2 !! "r9")
    = (Err 503, Some (Ok tt), Some Released).
Proof. vm_compute. reflexivity. Qed.

Lemma admission_protocol_witness :
  ∃ row, reservations smooth_result.2 !! "r9" = Some row ∧ rv_state row = Dispatched ∧
    0 ≤ rv_reserved_microunits row ≤ held (account_id "project-1") smooth_result.2.
Proof.
  destruct smooth_result as [[r recovered] d'] eqn:E.
  assert (Hr : smooth_result.1.1 = Ok (ticket (demo_reserve "r9"))) by closed_fact.
  rewrite E in Hr. simpl in Hr.
  destruct (proj1 (admission_protocol _ _ _ _ _ _ _ _ (service_ready setup) E) _ Hr)
    as (_ & _ & row & Hrow & _ & Hs & Hb).
  exact (ex_intro _ row (conj Hrow (conj Hs Hb))).
Defined.

(** ** Usage *)

Definition demo_sink : UsageSink := mkSink "region-1" "r1" DEFAULT_PRICE_VERSION.
Definition demo_event : Outbox.UsageEvent :=
  usage_event demo_sink "uuid-1" 1700000000 (mkUsageRecord None "request-r1" "tenant-1" "project-1"
    "key-1" "endpoint-1" DEFAULT_MODEL_ID "r1" 400 600 25 "succeeded"
    (Some (ticket (demo_reserve "r1"))) true).

(** The event is sent again after its answer was lost. *)
Definition delivery : list step :=
  [OnReserve 0; OnSubmit 10 1 demo_event; OnDrop 1; OnTake 20; OnDeliver 30 1 (call_at 200 "u1" AnswerLost);
   OnTake 600; OnDeliver 610 1 (call_at 201 "u2" Answered)].

Definition demo_settings : Settings := mkSettings 1024 4 30000 10000 20.
Definition delivered : Outbox :=
  outbox (λ _, 900) demo_settings "http://control/internal/v1/usage-events" dispatched_db delivery.

Example delivered_once : ob_disposed delivered = [(1, demo_event, Ok tt)].
Proof. vm_compute. reflexivity. Qed.

Lemma outbox_exactly_once_witness :
  ∃ row u, reservations (ob_db delivered) !! "r1" = Some row ∧ rv_state row = Settled ∧
    filter (λ u, us_event_id u = usage_id "r1") (usage_events (ob_db delivered)) = [u] ∧
    us_input_tokens u = 400 ∧ us_output_tokens u = 600.
Proof.
  assert (Hs : settings_from_env (λ _, None) = Ok demo_settings) by closed_fact.
  assert (Hd : ob_disposed delivered = [(1, demo_event, Ok tt)]) by closed_fact.
  pose proof (outbox_exactly_once (λ _, 900) demo_settings "http://control/internal/v1/usage-events"
    (λ _, None) dispatched_db delivery Hs (service_ready _)) as H.
  destruct H as (_ & _ & _ & H).
  destruct (H 1 demo_event _ ltac:(fold delivered; rewrite Hd; left) eq_refl) as (row & Hr & _ & Hst & u & Hu & Hi & Ho & _).
  exact (ex_intro _ row (ex_intro _ u (conj Hr (conj Hst (conj Hu (conj Hi Ho)))))).
Defined.

(** ** Documents as text *)

Fixpoint json_tree (j : Json) : gen_tree (bool + Z + string) :=
  match j with
  | JNull => GenNode 0 []
  | JBool b => GenLeaf (inl (inl b))
  | JNum z => GenLeaf (inl (inr z))
  | JStr s => GenLeaf (inr s)
  | JArr l => GenNode 1 (map json_tree l)
  | JObj l => GenNode 2 (flat_map (λ f, match f with (k, v) => [GenLeaf (inr k); json_tree v] end) l)
  end.

Fixpoint tree_json (t : gen_tree (bool + Z + string)) : Json :=
  match t with
  | GenLeaf (inl (inl b)) => JBool b
  | GenLeaf (inl (inr z)) => JNum z
  | GenLeaf (inr s) => JStr s
  | GenNode 1 l => JArr (map tree_json l)
  | GenNode 2 l =>
      JObj ((fix fields (l : list (gen_tree (bool + Z + string))) : list (string * Json) :=
        match l with
        | GenLeaf (inr k) :: v :: l => (k, tree_json v) :: fields l
        | _ => []
        end) l)
  | GenNode _ _ => JNull
  end.

Lemma tree_json_tree : ∀ j, tree_json (json_tree j) = j.
Proof.
  fix IH 1. intros [|b|z|s|l|l]; [done..| |]; simpl; f_equal.
  - induction l as [|j l IHl]; simpl; [done|]. by rewrite IH, IHl.
  - induction l as [|[k v] l IHl]; simpl; [done|]. by rewrite IH, IHl.
Qed.

#[export] Instance Json_countable : Countable Json := inj_countable' json_tree tree_json tree_json_tree.

Fixpoint pos_text (p : positive) : string :=
  match p with
  | xH => EmptyString
  | xO p => String "0" (pos_text p)
  | xI p => String "1" (pos_text p)
  end.
Fixpoint text_pos (s : string) : option positive :=
  match s with
  | EmptyString => Some xH
  | String c s =>
      if Ascii.eqb c "0" then xO <$> text_pos s else if Ascii.eqb c "1" then xI <$> text_pos s else None
  end.
Lemma text_pos_text p : text_pos (pos_text p) = Some p.
Proof. induction p as [p IH|p IH|]; simpl; by rewrite ?IH. Qed.

Definition demo_text (j : Json) : string := pos_text (countable.encode j).
Definition demo_value (s : string) : option Json := text_pos s ≫= countable.decode.

Definition demo_number (key : string) (j : Json) : option Z :=
  match json_get key j with JNum n => Some n | _ => None end.
Definition demo_request (s : string) : option ModelRequest :=
  j ← demo_value s;
  model ← json_as_str (json_get "model" j);
  mret (mkModelRequest model (json_get "messages" j) None (demo_number "max_tokens" j)
    (demo_number "max_completion_tokens" j) (demo_number "n" j)
    (bool_decide (json_get "stream" j = JBool true))).

#[export] Instance demo_gateway_libraries : GatewayLibraries := {|
  request_json := demo_request;
  value_json := demo_value;
  json_text := demo_text;
  completion_json s := demo_value s ≫= λ j, json_completion_usage (json_get "usage" j);
  token_count _ := 5;
  bearer_hash s := s;
  stream_codec := line_codec |}.

#[export] Instance demo_gateway_laws : GatewayLaws.
Proof.
  intros j. unfold value_json, json_text. simpl. unfold demo_value, demo_text. rewrite text_pos_text. simpl.
  apply countable.decode_encode.
Qed.

(** ** A request *)

Definition demo_serving : ServingConfig := mkServing "pool-1" DEFAULT_MODEL_ID "127.0.0.1:8085" "r1" false "".
Definition demo_setup : Setup :=
  mkSetup demo_serving {[ "pool-1" := demo_serving ]} demo_settings demo_sink false
    (Some (32768, DEFAULT_PRICE_VERSION)).

Definition demo_gateway : @Gateway Quota.Memory :=
  mkGateway (key_set bearer_hash [mkApiKeyConfig "key-1" "tenant-1" "project-1" "secret"])
    State_default (Quota.mkMemory 60 ∅ ∅) morning.

Definition demo_messages : Json := JArr [JObj [("role", JStr "user"); ("content", JStr "hello")]].
Definition demo_body (max_tokens : Z) : Json :=
  JObj [("max_tokens", JNum max_tokens); ("messages", demo_messages); ("model", JStr DEFAULT_MODEL_ID)].
Definition demo_call : Request :=
  mkRequest "POST" "/v1/chat/completions" [("authorization", "Bearer secret")].
Definition circumstances (max_tokens : Z) : Circumstances :=
  mkCircumstances 1000 1 1000 1000 "uuid-a" "uuid-b" 0 [demo_text (demo_body max_tokens)] true false true
    Quota.Replied [] "q1" true true smooth.

#[local] Existing Instance Quota.memory_store.

Definition forwarded := request_filter demo_setup (circumstances 100) demo_call RequestContext_default demo_gateway.
Definition refused := request_filter demo_setup (circumstances 0) demo_call RequestContext_default demo_gateway.

Example requests_answered :
  (forwarded.1.1, tk_id <$> rc_billing_ticket forwarded.1.2, rc_usage_permit forwarded.1.2,
   refused.1.1, rc_usage_permit refused.1.2)
    = (Ok tt, Some "req-uuid-b", Some 1, Err (Failed (HTTPStatus 400)), Some 1).
Proof. vm_compute. reflexivity. Qed.

Lemma inference_guarded_witness :
  ∃ t row, rc_billing_ticket forwarded.1.2 = Some t ∧
    reservations (gw_db forwarded.2) !! tk_id t = Some row ∧ rv_state row = Dispatched.
Proof.
  destruct forwarded as [[r c] g'] eqn:E.
  assert (Hr : forwarded.1.1 = Ok tt) by closed_fact.
  rewrite E in Hr. simpl in Hr. subst r.
  destruct (inference_guarded demo_setup (circumstances 100) demo_call RequestContext_default demo_gateway c g'
    (service_ready setup) E) as (p & _ & _ & _ & _ & _ & _ & Hc).
  destruct Hc as (limits & t & Ht & (price & row & _ & Hrow & _ & Hs & _) & _).
  exact (ex_intro _ t (ex_intro _ row (conj Ht (conj Hrow Hs)))).
Defined.

Lemma requests_give_back_witness :
  entries (gw_queue (logging (λ _, 900) demo_setup "uuid-c" 1 1 1 None Quota.Replied [] refused.1.2
    Response_default refused.2)) = ∅.
Proof.
  destruct refused as [[r c] g'] eqn:E.
  assert (Hr : refused.1.1 = Err (Failed (HTTPStatus 400))) by closed_fact.
  rewrite E in Hr. simpl in Hr. subst r.
  refine (proj1 (proj1 (requests_give_back demo_setup (circumstances 0) (λ _, 900) "uuid-c" 1 1 1 None
    Quota.Replied [] Response_default demo_gateway _ _) demo_call _ c g' E)).
  - intros id [e He]. discriminate He.
  - intros q. vm_compute. discriminate.
Defined.

(** ** A snapshot *)

Definition gateway_day : Db :=
  service [(at_time 0 "s0", CreateProject (mkProject "project-1" "tenant-1" "First"));
    (at_time 1 "s1", BootstrapCatalog);
    (at_time 2 "s2", IssueApiKey demo_key "abcdefghijklmnopqrstuvwxyz012")].
Definition demo_snapshot := gateway_snapshot (λ s, s) (at_time 10 "g0") gateway_day.

Example snapshot_sent :
  (match demo_snapshot with
   | Ok (s, _) => (length (gs_keys s), is_some (received s))
   | Err _ => (0%nat, false)
   end) = (1%nat, true).
Proof. vm_compute. reflexivity. Qed.

Lemma snapshot_authenticates_witness :
  match demo_snapshot with
  | Ok (s, _) => ∃ snapshot cs, received s = Some snapshot ∧ from_snapshot Some snapshot = Ok cs ∧
      is_Some (authenticate (λ s, s) 1700000000000020 (Some "Bearer xs_abcdefghijklmnopqrstuvwxyz012")
        (mkKeySet Gate_default cs ∅))
  | Err _ => False
  end.
Proof.
  assert (Hkey : match api_keys gateway_day !! "key-1" with
    | Some row => (ak_secret_hash row, key_status (ak_revoked_at row) (ak_expires_at row) 1700000000000010,
        expired_at (ak_expires_at row) 1700000000000020)
    | None => ("", Expired, true)
    end = ("xs_abcdefghijklmnopqrstuvwxyz012", Active, false)) by closed_fact.
  assert (Hrun : match demo_snapshot with
    | Ok (s, _) => match received s with Some k => is_ok (from_snapshot Some k) | None => false end
    | Err _ => false end = true) by closed_fact.
  destruct (api_keys gateway_day !! "key-1") as [row|] eqn:Hid; [|discriminate Hkey].
  injection Hkey as Hh Ha He.
  destruct demo_snapshot as [[s d']|] eqn:E; [|discriminate Hrun].
  destruct (received s) as [k|] eqn:Hr; [|discriminate Hrun].
  destruct (from_snapshot Some k) as [cs|] eqn:Hc; [|discriminate Hrun].
  exists k, cs. split; [reflexivity|]. split; [exact Hc|].
  refine (proj2 (snapshot_authenticates (λ s, s) (λ s, s) Some (λ s, eq_refl) (at_time 10 "g0") gateway_day s d' k cs
    (mkKeySet Gate_default cs ∅) E Hr Hc eq_refl) _ _ "key-1" row Hid Hh Ha He).
Defined.
