(* ===== verification/DemoConsole.v ===== *)
(** * DemoConsole: a morning at the console

    The service of the demo with people: an administrator who signs in,
    changes a role and issues a statement.  Closed instances of the theorems
    of the console. *)

From S2P Require Import Prelude Http Domain Models Store Books Catalog Projection Ledger Reservations.
From S2P Require Import Review Wallet Maintenance Lifecycle Payments Alipay Trial Worker Feed.
From S2P Require Import Billing Owners Platform Lists Console Edge Access Permits Doors People Demo.
Local Open Scope string_scope.
Local Open Scope Z_scope.

#[export] Instance demo_platform_libraries : PlatformLibraries := {|
  platform_service := demo_libraries; stable_id s := s; base64 s := s |}.

Definition demo_console : Console.Config :=
  Console.mkConfig "internal" (Some "hook") true "tenant-1" false ["alice"] ["alice"] [] [] None.
Definition demo_headers : Headers :=
  [("x-forwarded-user", " alice "); ("x-forwarded-email", "alice@example.org");
   ("idempotency-key", "0123456789abcdef"); ("authorization", "Bearer internal")].

Definition noon : Platform := set_core day empty_platform.
Definition clock (n : nat) : Env := at_time (1000 + Z.of_nat n) "n".
Definition door_clock (n : nat) : Env := at_time (900 + Z.of_nat n) "e".

Lemma map_empty_none {A} (id : string) (x : A) : (∅ : gmap string A) !! id = Some x → False.
Proof. by rewrite lookup_empty. Qed.

Lemma noon_sound : sound noon.
Proof. split; [apply service_healthy|]. split; intros id x Hx; exact (False_ind _ (map_empty_none _ _ Hx)). Qed.

Definition demo_statement : CreateInvoiceRequest :=
  mkCreateInvoice "invoice-1" "tenant-1" "project-1" 1700000000000000 1700000001000000 "November".

Definition statement_request := console demo_console clock door_clock demo_headers (PostInvoice demo_statement).

Example statement_issued :
  (is_ok (alone statement_request noon).1, length (trace statement_request noon),
   in_amount <$> invoices (alone statement_request noon).2 !! "invoice-1") = (true, 4%nat, Some 2).
Proof. vm_compute. reflexivity. Qed.

Lemma console_permitted_witness : ∃ v p0 user intent acts done,
  trace statement_request noon = mkPerformed (Change (door_clock 0) (enter demo_console v)) p0 :: intent :: (acts ++ [done])%list ∧
  audits user "console.intent" "/billing/invoices" intent ∧
  handled demo_console (PostInvoice demo_statement) (mkUserContext user (vs_auth_disabled v)) acts.
Proof.
  assert (Hn : length (trace statement_request noon) = 4%nat) by closed_fact.
  destruct (console_permitted demo_console clock door_clock demo_headers (PostInvoice demo_statement) noon _ _ _
    noon_sound (alone_among anybody statement_request noon)) as [(E & _)|(v & p0 & l & _ & E & Hc)].
  { rewrite E in Hn. discriminate Hn. }
  exists v, p0. destruct (answered _ p0) as [user|e].
  2:{ destruct Hc as [El _]. rewrite E, El in Hn. discriminate Hn. }
  destruct Hc as (intent & l2 & El & Hi & Hc). exists user, intent. destruct Hc as [[El2 _]|(acts & done & El2 & Ha & _)].
  { rewrite E, El, El2 in Hn. discriminate Hn. }
  exists acts, done. rewrite E, El, El2. exact (conj eq_refl (conj Hi Ha)).
Defined.

Definition reserve_message : message := InternalMessage demo_headers (PostReservation (demo_reserve "r9")).
Definition reserve_program := answer_message demo_console clock door_clock reserve_message.

Lemma doors_fenced_witness : length (trace reserve_program noon) = 1%nat ∧
  Forall (entry_granted (entitled demo_console reserve_message)) (trace reserve_program noon).
Proof.
  split; [closed_fact|].
  exact (doors_fenced demo_console clock door_clock reserve_message noon _ _ _ noon_sound I
    (alone_among anybody reserve_program noon)).
Defined.

Lemma two_people : People_ok two_owners.
Proof.
  split; intros id x Hx; unfold two_owners in Hx; cbn in Hx;
    (apply lookup_insert_Some in Hx as [[<- <-]|[_ Hx%lookup_singleton_Some]]; [done|]; by destruct Hx as [<- <-]).
Qed.

Lemma membership_keeps_owner_witness :
  owned_by_someone "t" (alone (update_membership clock (owner_context "a") "a" "t" "member") two_owners).2.
Proof.
  apply (membership_keeps_owner clock (owner_context "a") "a" "t" "member" two_owners two_people). closed_fact.
Defined.

Definition alice : UserContext :=
  mkUserContext (mkPlatformUser "user-alice" "alice" "alice" "" "active" 0 0 0 [mkTenantMembership "tenant-1" "owner"]) false.
Abbreviation statement_handler := (create_invoice clock alice demo_headers demo_statement).

Lemma statement_exact_witness :
  match alone statement_handler noon with (Ok inv, q) => states demo_statement noon inv q | (Err _, _) => False end.
Proof.
  assert (Hok : is_ok (alone statement_handler noon).1 = true) by closed_fact.
  pose proof (alone_among anybody statement_handler noon) as Hrun.
  destruct (alone statement_handler noon) as [[inv|e] q]; [|discriminate Hok]. cbn [fst snd] in Hrun.
  refine (statement_exact clock alice demo_headers demo_statement noon _ inv q noon_sound _ Hrun). discriminate.
Defined.

Definition demo_alert (status : string) : Alert :=
  mkAlert status {["alertname" := "XScopeDown"]} ∅ 1700000000000000 1700000000900000 "0123456789abcdef".
Definition demo_batch : Webhook := mkWebhook [demo_alert "firing"; demo_alert "resolved"] 0.

Lemma alerts_redelivered_witness :
  match Platform.receive_alerts (clock 0) demo_batch noon with
  | Ok (_, q) => match Platform.receive_alerts (clock 5) demo_batch q with
                 | Ok (_, q') => alerts q' = alerts q
                 | Err _ => False
                 end
  | Err _ => False
  end.
Proof.
  assert (H1 : is_ok (Platform.receive_alerts (clock 0) demo_batch noon) = true) by closed_fact.
  assert (H2 : match Platform.receive_alerts (clock 0) demo_batch noon with
               | Ok (_, q) => is_ok (Platform.receive_alerts (clock 5) demo_batch q) | Err _ => false end = true) by closed_fact.
  destruct (Platform.receive_alerts (clock 0) demo_batch noon) as [[u q]|e] eqn:E; [|discriminate H1].
  destruct (Platform.receive_alerts (clock 5) demo_batch q) as [[u' q']|e] eqn:E'; [|discriminate H2].
  exact (proj2 (alerts_redelivered (H := demo_platform_libraries) (clock 0) (clock 5) demo_batch noon u q u' q' E E')). 
Defined.
