(* ===== verification/DemoKube.v ===== *)
(** * DemoKube: a member cluster, and the agent at work in it

    A server that keeps objects with identifiers and growing versions, and
    satisfies the laws of the interface; closed instances of the theorems on
    the agent; and a sequence of requests after which the control plane
    delivers what the agent refuses. *)

From S2P Require Import Prelude Domain Models Store Fleet Routing Clusters Pools Control Payments Billing Kube Agent Deliver Operator Observe Demo.
Local Open Scope string_scope.
Local Open Scope Z_scope.

(** ** The server *)

Definition Objects : Type := ∀ k, string → string → option (object k).

(** The objects, the places that were ever used, and the newest version: a
    text of as many bytes as there were writes. *)
Record Server := mkServer { sr_objects : Objects; sr_places : list (string * string); sr_version : nat }.

Fixpoint version_text (n : nat) : string := match n with O => "" | S n => String "v" (version_text n) end.
Lemma version_text_length n : String.length (version_text n) = n.
Proof. induction n; simpl; congruence. Qed.

Definition same_place (k k' : Kind) (a b : string * string) : bool := bool_decide (k = k') && bool_decide (a = b).

Definition write_object {k} (ns name : string) (o : option (object k)) (f : Objects) : Objects := λ k' ns' name',
  match decide (k = k') with
  | left E => if bool_decide ((ns, name) = (ns', name')) then eq_rect k (λ k, option (object k)) o k' E else f k' ns' name'
  | right _ => f k' ns' name'
  end.

Lemma write_object_eq k ns name (o : option (object k)) f : write_object ns name o f k ns name = o.
Proof.
  unfold write_object. destruct (decide (k = k)) as [E|]; [|done]. rewrite bool_decide_true by done.
  by rewrite (Eqdep_dec.UIP_dec (λ a b : Kind, decide (a = b)) E eq_refl).
Qed.
Lemma write_object_ne k ns name (o : option (object k)) f k' ns' name' :
  (k, ns, name) ≠ (k', ns', name') → write_object ns name o f k' ns' name' = f k' ns' name'.
Proof.
  intros Hne. unfold write_object. destruct (decide (k = k')) as [->|]; [|done].
  rewrite bool_decide_false; [done|]. by intros [= -> ->].
Qed.

Definition set_name (name : string) (m : ObjectMeta) : ObjectMeta :=
  mkMeta (Some name) (om_generate_name m) (om_namespace m) (om_uid m) (om_generation m) (om_resource_version m)
    (om_creation_timestamp m) (om_deletion_timestamp m) (om_labels m) (om_annotations m) (om_owner_references m)
    (om_finalizers m) (om_managed_fields m).

(** A write, of a new object or over an old one. *)
Definition commit_object {k} (ns name : string) (old : option (object k)) (o : object k) (s : Server)
    : object k * Server :=
  let version := version_text (S (sr_version s)) in
  let uid := match old with Some old => om_uid (meta k old) | None => Some version end in
  let o := with_meta k (set_name name (set_identity uid (Some version) (meta k o))) o in
  (o, mkServer (write_object ns name (Some o) (sr_objects s)) ((ns, name) :: sr_places s) (S (sr_version s))).
Definition drop_object (k : Kind) (ns name : string) (s : Server) : Server :=
  mkServer (write_object (k := k) ns name None (sr_objects s)) (sr_places s) (S (sr_version s)).

Definition agreeing (wanted actual : option string) : bool := bool_decide (wanted = None ∨ wanted = actual).

(** A conditional write to what is there. *)
Definition guarded {A} (k : Kind) (ns name : string) (uid version : option string) (s : Server)
    (write : object k → A * Server) : result KubeError A * Server :=
  match sr_objects s k ns name with
  | Some old =>
      if agreeing uid (om_uid (meta k old)) && agreeing version (om_resource_version (meta k old))
      then let r := write old in (Ok r.1, r.2) else (Err (Api 409 "conflict"), s)
  | None => (Err (Api 404 "not found"), s)
  end.

Definition created_object (k : Kind) (ns name : string) (o : object k) (s : Server) : result KubeError (object k) * Server :=
  match sr_objects s k ns name with
  | None => let r := commit_object ns name None o s in (Ok r.1, r.2)
  | Some _ => (Err (Api 409 "already exists"), s)
  end.

Definition with_finalizers (l : list string) (m : ObjectMeta) : ObjectMeta :=
  mkMeta (om_name m) (om_generate_name m) (om_namespace m) (om_uid m) (om_generation m) (om_resource_version m)
    (om_creation_timestamp m) (om_deletion_timestamp m) (om_labels m) (om_annotations m) (om_owner_references m)
    (Some l) (om_managed_fields m).

Definition serve_call {A} (c : call A) (s : Server) : result KubeError A * Server :=
  match c in call A return result KubeError A * Server with
  | Get k ns name => (Ok (sr_objects s k ns name), s)
  | ListOf k ns =>
      (Ok (omap (λ p, if str_eqb p.1 ns then sr_objects s k ns p.2 else None) (sr_places s)), s)
  | Create k ns o => created_object k ns (name_any (meta k o)) o s
  | Replace k ns name o =>
      guarded k ns name (om_uid (meta k o)) (om_resource_version (meta k o)) s
        (λ old, commit_object ns name (Some old) o s)
  | Apply k ns name o =>
      if bool_decide (sr_objects s k ns name = None ∧ om_uid (meta k o) = None) then created_object k ns name o s
      else guarded k ns name (om_uid (meta k o)) (om_resource_version (meta k o)) s
             (λ old, commit_object ns name (Some old) o s)
  | Delete k ns name uid version => guarded k ns name uid version s (λ _, (tt, drop_object k ns name s))
  | PatchFinalizers ns name uid version l =>
      guarded KPod ns name uid version s (λ old,
        commit_object ns name (Some old) (with_meta KPod (with_finalizers l (po_meta old)) old) s)
  | PatchModelStatus ns name version status =>
      guarded KModel ns name None version s (λ old,
        commit_object ns name (Some old) (mkModel (md_meta old) (md_spec old) (Some status)) s)
  | PatchScaleStatus ns name version status =>
      guarded KScale ns name None version s (λ old,
        commit_object ns name (Some old) (mkModelScale (mc_meta old) (mc_model_uid old) (mc_replicas old) (Some status)) s)
  | Health _ _ => (Err Unavailable, s)
  end.

(** *** It satisfies the laws *)

Record up (s : Server) : Prop := {
  up_identity k ns name o : sr_objects s k ns name = Some o → om_name (meta k o) = Some name ∧
    is_Some (om_uid (meta k o)) ∧ ∃ v, om_resource_version (meta k o) = Some v ∧ (String.length v ≤ sr_version s)%nat;
  up_places k ns name o : sr_objects s k ns name = Some o → (ns, name) ∈ sr_places s }.

(** Later, an object is as it was or of a newer version. *)
Record later (s t : Server) : Prop := {
  lt_before : up s;
  lt_after : up t;
  lt_version : (sr_version s ≤ sr_version t)%nat;
  lt_objects k ns name o : sr_objects t k ns name = Some o → sr_objects s k ns name = Some o ∨
    ∃ v, om_resource_version (meta k o) = Some v ∧ (sr_version s < String.length v)%nat }.

Lemma later_refl s : up s → later s s.
Proof. intros Hs. split; try done. intros k ns name o Ho. by left. Qed.

Lemma later_trans s t u : later s t → later t u → later s u.
Proof.
  intros [A1 A2 A3 A4] [B1 B2 B3 B4]. split; [done|done|lia|]. intros k ns name o Ho.
  destruct (B4 _ _ _ _ Ho) as [Ht|(v & Hv & Hl)]; [by apply A4|right; exists v; split; [done|lia]].
Qed.

Lemma later_version s t k ns name o p : later s t → sr_objects s k ns name = Some o →
  sr_objects t k ns name = Some p → om_resource_version (meta k p) = om_resource_version (meta k o) → p = o.
Proof.
  intros [A1 _ _ A4] Ho Hp E. destruct (A4 _ _ _ _ Hp) as [Hs|(v & Hv & Hl)]; [congruence|].
  destruct (up_identity _ A1 _ _ _ _ Ho) as (_ & _ & w & Hw & Hle). rewrite Hv, Hw in E. injection E as ->. lia.
Qed.

Lemma with_meta_meta k m o : meta k (with_meta k m o) = m.
Proof. by destruct k. Qed.

Lemma write_object_cases {k} ns name (o : option (object k)) f k' ns' name' p :
  write_object ns name o f k' ns' name' = Some p →
  (ns, name) = (ns', name') ∧ (∃ E : k = k', eq_rect k (λ k, option (object k)) o k' E = Some p) ∨
  f k' ns' name' = Some p.
Proof.
  unfold write_object. destruct (decide (k = k')) as [E|]; [|by right].
  case_bool_decide; [|by right]. intros Hp. left. split; [done|by exists E].
Qed.

Lemma commit_later {k} ns name old (o : object k) s :
  up s → (∀ x, old = Some x → is_Some (om_uid (meta k x))) → later s (commit_object ns name old o s).2.
Proof.
  intros Hs Hold. set (t := (commit_object ns name old o s).2).
  assert (∀ k' ns' name' p, sr_objects t k' ns' name' = Some p →
    ((ns, name) = (ns', name') ∧ om_name (meta k' p) = Some name' ∧ is_Some (om_uid (meta k' p)) ∧
     om_resource_version (meta k' p) = Some (version_text (S (sr_version s)))) ∨ sr_objects s k' ns' name' = Some p) as Hnew.
  { intros k' ns' name' p [[E [<- Hp]]|Hp]%write_object_cases; [left|by right].
    cbn [eq_rect] in Hp. injection Hp as <-. rewrite with_meta_meta. injection E as <- <-. split; [done|]. split; [done|]. split; [|done].
    cbn. destruct old as [x|]; [by apply Hold|done]. }
  assert (sr_version t = S (sr_version s)) as Hv by done.
  split; [done| |lia|].
  - split; intros k' ns' name' p [(E & H0 & H1 & H2)|Hp]%Hnew.
    + split; [done|]. split; [done|]. eexists. split; [done|]. rewrite version_text_length. lia.
    + destruct (up_identity _ Hs _ _ _ _ Hp) as (H0 & H1 & v & H2 & H3). split; [done|]. split; [done|].
      exists v. split; [done|lia].
    + cbn. rewrite E. by left.
    + right. by eapply up_places.
  - intros k' ns' name' p [(E & H0 & H1 & H2)|Hp]%Hnew; [right|by left].
    eexists. split; [done|]. rewrite version_text_length. lia.
Qed.

Lemma drop_later k ns name s : up s → later s (drop_object k ns name s).
Proof.
  intros Hs. assert (∀ k' ns' name' p, sr_objects (drop_object k ns name s) k' ns' name' = Some p →
    sr_objects s k' ns' name' = Some p) as Hold.
  { intros k' ns' name' p [[_ [<- Hp]]|Hp]%write_object_cases; done. }
  split; [done| |cbn; lia|by left; apply Hold].
  split; intros k' ns' name' p Hp%Hold; [|exact (up_places _ Hs _ _ _ _ Hp)].
  destruct (up_identity _ Hs _ _ _ _ Hp) as (H0 & H1 & v & H2 & H3). split; [done|]. split; [done|].
  exists v. split; [done|cbn; lia].
Qed.

(** The outcomes of a call: nothing changes, or a write at its place. *)
Inductive outcome {A} (c : call A) (s : Server) : result KubeError A * Server → Prop :=
| Unwritten a : (reading c ∨ ∃ e, a = Err e) → outcome c s (a, s)
| Committed k ns name old (o : object k) a :
    place c (k, ns, name) → fence c (sr_objects s) name →
    (∀ x, old = Some x → sr_objects s k ns name = Some x) →
    outcome c s (a, (commit_object ns name old o s).2)
| Dropped k ns name a :
    place c (k, ns, name) → fence c (sr_objects s) name → outcome c s (a, drop_object k ns name s).

Lemma guarded_outcome {A} (c : call A) k ns name uid version s (write : object k → A * Server) :
  (∀ old, sr_objects s k ns name = Some old → agrees uid (om_uid (meta k old)) →
     agrees version (om_resource_version (meta k old)) → outcome c s (Ok (write old).1, (write old).2)) →
  outcome c s (guarded k ns name uid version s write).
Proof.
  intros Hw. unfold guarded. destruct (sr_objects s k ns name) as [old|]; [|by apply Unwritten; right; eexists].
  destruct (agreeing uid _ && _) eqn:E; [|by apply Unwritten; right; eexists].
  apply andb_true_iff in E as [E1%bool_decide_eq_true E2%bool_decide_eq_true]. by apply Hw.
Qed.

Lemma created_outcome {A} (c : call A) k ns name o s (f : result KubeError (object k) → result KubeError A) :
  place c (k, ns, name) → (sr_objects s k ns name = None → fence c (sr_objects s) name) →
  (∀ e, ∃ e', f (Err e) = Err e') →
  outcome c s (f (created_object k ns name o s).1, (created_object k ns name o s).2).
Proof.
  intros Hp Hf Hfe. unfold created_object. destruct (sr_objects s k ns name) as [old|] eqn:E.
  - apply Unwritten. right. apply Hfe.
  - cbn. by eapply (Committed c s k ns name None o); [|apply Hf|].
Qed.

Lemma serve_outcome {A} (c : call A) s : outcome c s (serve_call c s).
Proof.
  assert (∀ A (r : result KubeError A * Server), r = (id r.1, r.2)) as Hpair by by intros ? [].
  destruct c; cbn [serve_call].
  - apply Unwritten. by left.
  - apply Unwritten. by left.
  - rewrite (Hpair _ (created_object _ _ _ _ _)). apply created_outcome; [|done|by eexists].
    split; [done|]. unfold name_any. cbn. by destruct (om_name _).
  - apply guarded_outcome. intros old Ho H1 H2. eapply (Committed _ s k namespace name (Some old)); [done| |congruence].
    by exists old.
  - case_bool_decide as Hn.
    + destruct Hn as [Hn Hu]. rewrite (Hpair _ (created_object _ _ _ _ _)). apply created_outcome; [done| |by eexists].
      intros _. left. by split.
    + apply guarded_outcome. intros old Ho H1 H2. eapply (Committed _ s k namespace name (Some old)); [done| |congruence].
      right. by exists old.
  - apply guarded_outcome. intros old Ho H1 H2. eapply (Dropped _ s); [done|]. by exists old.
  - apply guarded_outcome. intros old Ho H1 H2. eapply (Committed _ s KPod namespace name (Some old)); [done| |congruence].
    by exists old.
  - apply guarded_outcome. intros old Ho H1 H2. eapply (Committed _ s KModel namespace name (Some old)); [done| |congruence].
    by exists old.
  - apply guarded_outcome. intros old Ho H1 H2. eapply (Committed _ s KScale namespace name (Some old)); [done| |congruence].
    by exists old.
  - apply Unwritten. by left.
Qed.

Lemma outcome_later {A} (c : call A) s r : up s → outcome c s r → later s r.2.
Proof.
  intros Hs [a _|k ns name old o a _ _ Hold|k ns name a _ _]; [by apply later_refl| |by apply drop_later].
  apply commit_later; [done|]. intros x Hx%Hold. by eapply up_identity.
Qed.

Lemma outcome_effect {A} (c : call A) s r : outcome c s r →
  (∀ k ns name, sr_objects r.2 k ns name = sr_objects s k ns name) ∨
  ∃ p, place c p ∧ fence c (sr_objects s) p.2 ∧
    ∀ k ns name, (k, ns, name) ≠ p → sr_objects r.2 k ns name = sr_objects s k ns name.
Proof.
  intros [a _|k ns name old o a Hp Hf _|k ns name a Hp Hf]; [by left|right; exists (k, ns, name)..];
    split_and!; try done; intros k' ns' name' Hne; by apply write_object_ne.
Qed.

#[export] Program Instance demo_kube : KubeApi := {|
  Kube := Server; stored := sr_objects; running := up; since := later;
  served A c s t a := up s ∧ serve_call c s = (a, t) |}.
Next Obligation. exact later_refl. Qed.
Next Obligation. intros s t Hst. by destruct Hst. Qed.
Next Obligation. exact later_trans. Qed.
Next Obligation. exact later_version. Qed.
Next Obligation.
  intros s k ns name o Hs Ho. destruct (up_identity _ Hs _ _ _ _ Ho) as (H0 & H1 & v & H2 & _).
  split; [done|]. split; [done|by exists v].
Qed.
Next Obligation.
  intros A c s t a Hs [_ Hc]. pose proof (outcome_later c s _ Hs (serve_outcome c s)) as Hl. by rewrite Hc in Hl.
Qed.
Next Obligation. intros k ns name s t o [_ Hc]. by injection Hc as <-. Qed.
Next Obligation.
  intros k ns s t l o [Hs Hc]. injection Hc as <- _. rewrite list_elem_of_omap. split.
  - intros ([ns' name] & _ & Ho). cbn in Ho. destruct (str_eqb ns' ns) eqn:E; [|done].
    apply str_eqb_eq in E as ->. by exists name.
  - intros [name Ho]. exists (ns, name). split; [by eapply up_places|]. cbn. by rewrite str_eqb_refl.
Qed.
Next Obligation.
  intros A c s t a [Hs Hc]. pose proof (outcome_effect c s _ (serve_outcome c s)) as He. by rewrite Hc in He.
Qed.
Next Obligation.
  intros A c s t a [Hs Hc]. pose proof (serve_outcome c s) as Ho. rewrite Hc in Ho.
  inversion Ho as [a' [Hr|[e He]]|k ns name old o a' Hp Hf|k ns name a' Hp Hf]; subst; [by left|done|right..];
    by exists (k, ns, name).
Qed.

Next Obligation.
  intros ns name uid v l s t pod [Hs Hc]. cbn [serve_call] in Hc. unfold guarded in Hc.
  destruct (sr_objects s KPod ns name) as [old|] eqn:E; [|done]. destruct (_ && _); [|done].
  injection Hc as <- <-. split; [apply (write_object_eq KPod)|]. split; [done|]. by intros x [= <-].
Qed.

(** ** The agent alone with the server *)

Fixpoint perform {E A} (m : Talk E A) (s : Server) : list heard * result E A * Server :=
  match m with
  | Say r => ([], r, s)
  | Call c k =>
      let a := serve_call c s in
      let r := perform (k a.1) a.2 in
      (Heard _ c s a.2 a.1 :: r.1.1, r.1.2, r.2)
  end.

Lemma perform_talks {E A} (m : Talk E A) s : up s → talks m s (perform m s).1.1 (Some (perform m s).1.2).
Proof.
  revert s. induction m as [r|B c k IH]; intros s Hs; [by right|right]. cbn.
  exists s, (serve_call c s).2, (serve_call c s).1. eexists. split; [by apply later_refl|].
  split; [split; [done|by destruct (serve_call c s)]|]. split; [done|]. apply IH. exact (lt_after _ _ (outcome_later c s _ Hs (serve_outcome c s))).
Qed.

(** The run [r] of a program. *)
Lemma performed {E A} (m : Talk E A) s r : up s → perform m s = r → talks m s r.1.1 (Some r.1.2).
Proof. intros Hs <-. by apply perform_talks. Qed.

Definition demo_spec : ModelDeploymentSpec :=
  mkSpec (mkModelSpec DEFAULT_MODEL_ID "r1" "s3://models/r1" ("sha256:" +:+ demo_sha256))
    (mkRuntimeSpec "registry.example/serve:1" "openai" 0 [] (mkHealth "/health" 120)) 2
    (mkResources None None None) None None (Some (mkServing "epp" 9002)) None None None.

#[export] Instance demo_kube_libraries : KubeLibraries := {|
  spec_of_json j := match j with JObj _ => Some demo_spec | _ => None end;
  spec_json _ := JObj [] |}.

Definition demo_cfg : PullConfig := mkPullConfig None "cluster-1" "serving" "https://control.example" "/credential" false.

(** A server with a deployment of an older delivery. *)
Definition no_objects : Server := mkServer (λ _ _ _, None) [] 0.
Definition old_model : ModelDeployment :=
  with_meta KModel (set_annotation VERSION "1" (set_label OWNER "cluster-1" (md_meta (new_model demo_cfg "model-b" demo_spec))))
    (new_model demo_cfg "model-b" demo_spec).
Definition demo_server : Server := (commit_object (k := KModel) "serving" "model-b" None old_model no_objects).2.

Lemma demo_server_up : up demo_server.
Proof.
  eapply lt_after, (commit_later (k := KModel) "serving" "model-b" None old_model no_objects); [|done].
  split; by intros.
Qed.

(** The next delivery adds one deployment and deletes the other. *)
Definition demo_delivery : ClusterDelivery :=
  mkDelivery "cluster-1" "serving" 2 demo_sha256 "lease-1" 60
    [mkDesired "model-a" (Some (JObj [])) None None; mkDesired "model-b" None (Some "v") None].

Lemma delivery_fenced_witness :
  let r := perform (apply demo_cfg demo_delivery) demo_server in
  r.1.2 = Ok tt ∧ length r.1.1 = 4%nat ∧
  is_some (sr_objects r.2 KModel "serving" "model-a") = true ∧ sr_objects r.2 KModel "serving" "model-b" = None ∧
  Forall (heard_granted (delivers demo_cfg demo_delivery)) r.1.1.
Proof.
  intros r. assert (r.1.2 = Ok tt) as Hr by (vm_compute; reflexivity).
  split; [exact Hr|]. split; [vm_compute; reflexivity|]. split; [vm_compute; reflexivity|].
  split; [vm_compute; reflexivity|].
  pose proof (performed _ _ r demo_server_up eq_refl) as Ht. clearbody r.
  exact (proj1 (delivery_fenced demo_cfg demo_delivery demo_server r.1.1 (Some r.1.2) demo_server_up Ht)).
Defined.

(** A deployment that a client creates beside them. *)
Lemma inbound_fenced_witness :
  let r := CreateDeployment (new_model demo_cfg "model-c" demo_spec) in
  let p := perform (agent_response id false "token" [("authorization", "Bearer token")] r) demo_server in
  p.1.2 = Ok 201 ∧ is_some (sr_objects p.2 KModel "serving" "model-c") = true ∧
  Forall (heard_granted (serves r)) p.1.1.
Proof.
  intros r p. assert (p.1.2 = Ok 201) as Hr by (vm_compute; reflexivity).
  split; [exact Hr|]. split; [vm_compute; reflexivity|].
  pose proof (performed _ _ p demo_server_up eq_refl) as Ht. clearbody p.
  exact (proj1 (inbound_fenced id false "token" [("authorization", "Bearer token")] r demo_server p.1.1 (Some p.1.2)
    demo_server_up Ht)).
Defined.

(** ** The operator and the observers *)

#[export] Instance demo_errors : ErrorText := {| kube_text _ := "unavailable"; json_text_error := "json" |}.
#[export] Instance demo_proof : ProofLibraries := {| ip_addr s := negb (is_empty s) |}.

Definition put_object {k} (ns name : string) (o : object k) (s : Server) : Server :=
  (commit_object ns name (sr_objects s k ns name) o s).2.
Lemma put_object_up {k} ns name (o : object k) s : up s → up (put_object ns name o s).
Proof.
  intros Hs. eapply lt_after, commit_later; [done|]. intros x Hx. by eapply up_identity.
Qed.
Lemma perform_up {E A} (m : Talk E A) s : up s → up (perform m s).2.
Proof.
  revert s. induction m as [r|B c k IH]; intros s Hs; [done|]. cbn. apply IH.
  exact (lt_after _ _ (outcome_later c s _ Hs (serve_outcome c s))).
Qed.

Definition meta_of (name : string) (ls marks : Labels) : ObjectMeta :=
  mkMeta (Some name) None (Some "serving") None (Some 1) None None None (Some ls) (Some marks) None None None.

(** The entry that the installation provides. *)
Definition epp_labels : Labels := {[ "app" := "epp" ]}.
Definition epp_service : Service :=
  mkService (meta_of "epp" ∅ {[ INFERENCE_POOL := "model-a"; "platform.xscope.io/traffic-protocol" := "v2";
                                "platform.xscope.io/managed-only" := "true" ]})
    (Some [mkPort None 9002 None]) (Some epp_labels).
Definition running_status (n : Z) : option DeploymentStatus :=
  Some (mkDeploymentStatus (Some 1) (Some n) (Some n) (Some n) (Some n)).
Definition epp_deployment : Deployment :=
  mkDeployment (meta_of "epp" ∅ ∅)
    (Some (mkDeploymentSpec (Some 1) (Some epp_labels) (Some (Some epp_labels)) (JObj []))) (running_status 1).

(** After the delivery, with the entry. *)
Definition installed : Server :=
  put_object (k := KDeployment) "serving" "epp" epp_deployment
    (put_object (k := KService) "serving" "epp" epp_service (perform (apply demo_cfg demo_delivery) demo_server).2).
Lemma installed_up : up installed.
Proof. apply (put_object_up (k := KDeployment)), (put_object_up (k := KService)), perform_up, demo_server_up. Qed.

Definition its_model : ModelDeployment := default old_model (sr_objects installed KModel "serving" "model-a").
Definition demo_clock (n : nat) : Z := 100.
Definition demo_cx : Context := mkContext "cluster-1" "region-1" "http://prometheus".
Definition reconciled : Server := (perform (reconcile demo_clock demo_cx its_model) installed).2.

Lemma reconcile_owned_witness :
  let r := perform (reconcile demo_clock demo_cx its_model) installed in
  r.1.2 = Ok (Requeue 30) ∧ is_some (sr_objects r.2 KDeployment "serving" "model-a") = true ∧
  is_some (sr_objects r.2 KPool "serving" "model-a") = true ∧
  Forall (heard_granted (operates its_model)) r.1.1.
Proof.
  intros r. assert (r.1.2 = Ok (Requeue 30)) as Hr by (vm_compute; reflexivity).
  split; [exact Hr|]. split; [vm_compute; reflexivity|]. split; [vm_compute; reflexivity|].
  pose proof (performed _ _ r installed_up eq_refl) as Ht. clearbody r.
  exact (reconcile_owned demo_clock demo_cx its_model installed r.1.1 (Some r.1.2) installed_up Ht).
Defined.

Definition plain_model (uid : string) : ModelDeployment :=
  mkModel (set_identity (Some uid) (Some "v") (md_meta (new_model demo_cfg "model-a" demo_spec))) demo_spec None.



Lemma runtimes_isolated_witness :
  ∃ d1 svc1 d2 svc2, desired (plain_model "a") "c" "r" None = Ok (d1, svc1) ∧
    desired (plain_model "b") "c" "r" None = Ok (d2, svc2) ∧
    selects (sc_selector svc1) d1 ∧ ¬ selects (sc_selector svc1) d2.
Proof.
  assert (is_ok (desired (plain_model "a") "c" "r" None) && is_ok (desired (plain_model "b") "c" "r" None) = true) as Hok
    by (vm_compute; reflexivity).
  destruct (desired (plain_model "a") "c" "r" None) as [[d1 svc1]|] eqn:H1; [|discriminate].
  destruct (desired (plain_model "b") "c" "r" None) as [[d2 svc2]|] eqn:H2; [|discriminate].
  destruct (runtimes_isolated _ _ _ _ _ _ _ _ _ _ _ _ H1 H2) as (A & B & _); [discriminate|].
  exists d1, svc1, d2, svc2. split; [reflexivity|]. split; [reflexivity|]. split; [exact A|exact B].
Defined.

(** The runtime is up. *)
Definition its_runtime : Deployment :=
  match sr_objects reconciled KDeployment "serving" "model-a" with
  | Some d => mkDeployment (mkMeta (om_name (dm_meta d)) None (om_namespace (dm_meta d)) (om_uid (dm_meta d)) (Some 1)
      (om_resource_version (dm_meta d)) None None None None (om_owner_references (dm_meta d)) None None)
      (dm_spec d) (running_status 2)
  | None => epp_deployment
  end.
Definition serving_server : Server := put_object (k := KDeployment) "serving" "model-a" its_runtime reconciled.
Lemma serving_up : up serving_server.
Proof. apply (put_object_up (k := KDeployment)), perform_up, installed_up. Qed.

Definition demo_task : ObservationTask :=
  mkTask 2 None "managed-p1" 1 "nonce-1" 2 "model-a" "epp" None (JObj []).

Lemma observation_true_witness :
  let r := perform (observe "serving" "cluster-1" demo_task) serving_server in
  (match r.1.2 with Ok report => po_ready report | Err _ => false end) = true ∧
  Forall (heard_granted only_reads) r.1.1.
Proof.
  intros r. split; [vm_compute; reflexivity|].
  pose proof (performed _ _ r serving_up eq_refl) as Ht. clearbody r.
  exact (proj1 (observation_true "serving" "cluster-1" demo_task serving_server r.1.1 (Some r.1.2) serving_up Ht)).
Defined.

(** A gateway whose container has ended, on a live node. *)
Definition gateway_pod_of (uid : string) : Pod :=
  mkPod (mkMeta (Some "gateway-0") None (Some "serving") None None None None None
           (Some {[ "app.kubernetes.io/name" := "gateway" ]}) None None None None)
    (Some (mkPodSpec (Some "node-1") []))
    (Some (mkPodStatus None (Some [mkContainerStatus "gateway" (Some "c-2") true None (Some (Some "c-1"))]))).
Definition live_node : Node :=
  mkNode (mkMeta (Some "node-1") None None None None None None None None None None None None) (Some [("Ready", "True")]).
Definition its_lease (uid : string) : Lease :=
  mkNodeLease (mkMeta (Some "node-1") None None None None None None None None None
    (Some [mkOwner "v1" "Node" "node-1" uid None]) None None) (Some 90).
Definition gateway_server : Server :=
  let s := put_object (k := KPod) "serving" "gateway-0" (gateway_pod_of "") no_objects in
  let s := put_object (k := KNode) "" "node-1" live_node s in
  put_object (k := KLease) "kube-node-lease" "node-1" (its_lease "vv") s.
Lemma gateway_up : up gateway_server.
Proof.
  apply (put_object_up (k := KLease)), (put_object_up (k := KNode)), (put_object_up (k := KPod)).
  split; by intros.
Qed.
Definition demo_proof_task : GatewayProofTask :=
  mkProofTask true "session-1" "nonce-1" (mkIdentity "cluster-1" "serving" "gateway-0" "v")
    (Some (mkRuntime "c-1" "node-1" "vv")) false.

Lemma proof_true_witness :
  let r := perform (prove 100 "serving" demo_proof_task) gateway_server in
  (match r.1.2 with Ok proof => gp_outcome proof | Err _ => "" end) = "terminated" ∧
  Forall (heard_granted (proves "serving" demo_proof_task)) r.1.1.
Proof.
  intros r. split; [vm_compute; reflexivity|].
  pose proof (performed _ _ r gateway_up eq_refl) as Ht. clearbody r.
  exact (proj1 (proof_true 100 "serving" demo_proof_task gateway_server r.1.1 (Some r.1.2) gateway_up Ht)).
Defined.

(** ** A delivery that outgrows the limit *)

Definition scaled_spec : Json :=
  JObj [("model", JObj [("id", JStr DEFAULT_MODEL_ID); ("revision", JStr "r2")]);
        ("replicas", JNum 2);
        ("autoscaling", JObj [("managed", JBool true); ("minReplicas", JNum 1); ("maxReplicas", JNum 4)]);
        ("runtime", JObj [("protocol", JStr "openai")]);
        ("serving", JObj [("endpointPickerService", JStr "epp")])].
Definition wanted (name : string) (spec : Json) : DesiredDeployment := mkDesired name (Some spec) None None.
Definition hundred : list DesiredDeployment :=
  (λ n, wanted ("d" +:+ print_unsigned (Z.of_nat n)) (JObj [])) <$> seq 0 100.
Definition ready_pool (generation : Z) (nonce : string) (evidence : option ScaleEvidence) : PoolObservation :=
  mkObservation None 2 evidence false "managed-p0a" generation nonce (Some "uid-1") true "ok".

Definition on (t : Z) (id : string) (o : control_op) : Env * op := (at_time t id, OnRegistry o).
Definition reported (version : Z) (lease : string) : control_op :=
  ReportMember "cluster-1" "token-1" (mkClusterReport version demo_sha256 lease "applied" None).

(** A pool is bound; the next desired state omits its deployment; the scaler
    brings it back. *)
Definition outgrown : list (Env * op) :=
  [(at_time 0 "a0", BootstrapCatalog);
   on 1 "a1" (RegisterMember (mkRegister "cluster-1" "serving" 30) "token-1" "operator");
   on 2 "a2" (PutDesired "cluster-1" (mkDesiredState 0 [wanted "model-a" scaled_spec]) "operator");
   on 3 "a3" (PollMember "cluster-1" "token-1");
   on 4 "a4" (reported 1 "a3a");
   on 5 "p0" (BindPool (mkBinding 2 false "cluster-1" "model-a" "epp" "entry.example:8443" false "" 1) "operator" []);
   on 6 "n1" (TakeTasks "cluster-1" "token-1");
   on 7 "a7" (ObservePool "cluster-1" "token-1" (ready_pool 1 "n1a" None));
   on 8 "a8" (PutDesired "cluster-1" (mkDesiredState 1 hundred) "operator");
   on 9 "a9" (PollMember "cluster-1" "token-1");
   on 10 "b0" (reported 2 "a9a");
   on 11 "n2" (TakeTasks "cluster-1" "token-1");
   on 12 "b2" (ObservePool "cluster-1" "token-1" (ready_pool 2 "n2a" (Some (mkScaleEvidence "scale-1" "7" 3 2))))].

Example outgrown_runs : answers empty_db outgrown = repeat (Ok ()) 13.
Proof. vm_compute. reflexivity. Qed.

Definition handed (t : Z) (id : string) (d : Db) : option ClusterDelivery :=
  match poll_cluster digest (at_time t id) "cluster-1" "token-1" d with Ok ((c, _), _) => c | Err _ => None end.
Definition applying (d : Db) : bool :=
  match pools (control d) !! "managed-p0a" ≫= mp_scale_operation with
  | Some op => bool_decide (so_phase op = ScaleApplying)
  | None => false
  end.
(** The agent is handed the newest revision, refuses it and says so. *)
Definition refused_once : list (Env * op) :=
  [on 13 "c0" (PollMember "cluster-1" "token-1");
   on 14 "c1" (ReportMember "cluster-1" "token-1"
     (mkClusterReport 3 demo_sha256 "c0a" "rejected" (Some "invalid_spec")))].

Lemma too_many cfg c : (100 < Z.of_nat (length (dl_deployments c))) → validate_delivery cfg c = Err "invalid_spec".
Proof.
  intros Hc. unfold validate_delivery, delivery_ok. apply Z.ltb_lt in Hc as ->. by rewrite orb_true_r, ?orb_true_l.
Qed.

(** C18: The scaler can write a desired revision that no agent accepts.  A desired
    state of a hundred deployments may omit the deployment of an active pool;
    when the pool is scaled, its deployment is appended to them, and the
    delivery of a hundred and one is refused as invalid, whatever its specs
    are.  Every request of the history is answered without an error.  After
    the refusal is reported the same deployments are handed out again, and
    the scale operation is still being applied. *)
Theorem scaled_delivery_refused :
  answers empty_db (outgrown ++ refused_once) = repeat (Ok ()) 15 ∧
  ∃ c c', handed 13 "c0" (service outgrown) = Some c ∧
    handed 15 "c2" (service (outgrown ++ refused_once)) = Some c' ∧
    length (dl_deployments c) = 101%nat ∧ dl_deployments c' = dl_deployments c ∧
    (∀ cfg, validate_delivery cfg c = Err "invalid_spec" ∧ validate_delivery cfg c' = Err "invalid_spec") ∧
    applying (service (outgrown ++ refused_once)) = true.
Proof.
  split; [vm_compute; reflexivity|].
  assert (match handed 13 "c0" (service outgrown), handed 15 "c2" (service (outgrown ++ refused_once)) with
          | Some c, Some c' => (length (dl_deployments c) =? 101)%nat && bool_decide (dl_deployments c' = dl_deployments c)
          | _, _ => false
          end = true) as Hc by (vm_compute; reflexivity).
  destruct (handed 13 _ _) as [c|]; [|discriminate]. destruct (handed 15 _ _) as [c'|]; [|discriminate].
  apply andb_true_iff in Hc as [Hl%Nat.eqb_eq He%bool_decide_eq_true].
  exists c, c'. split_and!; [done..|intros cfg; split; apply too_many; rewrite ?He, Hl; done|vm_compute; reflexivity].
Qed.

(** The first delivery of that history. *)
Lemma deliveries_accepted_witness :
  match poll_cluster digest (at_time 3 "a3") "cluster-1" "token-1" (service (take 3 outgrown)) with
  | Ok ((Some c, _), _) => validate_delivery demo_cfg c = Ok [Some (new_model demo_cfg "model-a" (with_defaults demo_spec))] ∧
      is_ok (validate_delivery demo_cfg c) =
        (Z.of_nat (length (dl_deployments c)) <=? 100) && forallb (spec_valid demo_cfg) (dl_deployments c)
  | _ => False
  end.
Proof.
  assert (∃ c w d', poll_cluster digest (at_time 3 "a3") "cluster-1" "token-1" (service (take 3 outgrown)) =
      Ok ((Some c, w), d') ∧ dl_namespace c = "serving" ∧
      validate_delivery demo_cfg c = Ok [Some (new_model demo_cfg "model-a" (with_defaults demo_spec))]) as (c & w & d' & Hp & Hn & Hv).
  { eexists _, _, _. split; [vm_compute; reflexivity|]. split; vm_compute; reflexivity. }
  rewrite Hp. split; [exact Hv|].
  exact (deliveries_accepted (take 3 outgrown) (at_time 3 "a3") "cluster-1" "token-1" c w d' demo_cfg Hp eq_refl (eq_sym Hn)).
Defined.
